(* ===== verification/_CoqProject ===== *)
-Q . S2P
Prelude.v
Capability.v
EnvTable.v
PageState.v
PageAlloc.v
BufCache.v
BufIO.v
Sched.v
SchedFair.v
Ipc.v
PageTable.v
Pmap.v
EnvLife.v
EnvSafe.v
EnvRun.v
Ring.v
Msgring.v
MsgRun.v
Malloc.v
Wk.v
Pxn.v
PxnRevoke.v
Dpf.v
DpfTrie.v
DpfOpt.v
DpfInsert.v
DpfDelete.v
DpfInterp.v
DpfRun.v
