(* ===== verification/Prelude.v ===== *)
(** * The xok exokernel

    A verification library for the kernel in [src/sys]: an exokernel, which
    multiplexes memory, processor time and disk blocks between environments
    (processes) and leaves all abstraction to libraries.  What such a kernel
    promises is protection: every resource is guarded by a list of capabilities,
    and every system call checks one.  The development translates the C code of
    the protection and allocation core into Rocq functions and proves that
    promise and the correctness of the data structures beneath it.

    ** The program and where it is modelled

    - [Prelude.v] (this file): machine integers with their wrap-around, the state
      and panic monad, its weakest preconditions, list lemmas.
    - [Capability.v]: sys/xok/capability.h and sys/kern/capability.c.  A
      capability is a record of bit-fields and name bytes; an access list is a
      list of entries whose last one may point to an extension in the kernel heap
      ([aclheap]).  [acl_access], [acl_mod], [acl_setsize], [acl_read],
      [cap_dominates] are the C functions.
    - [EnvTable.v]: the environment table of sys/xok/env.h ([env_id2env],
      [env_getcap]), [env_access] and [sys_wrenv] of sys/kern/env.c, and the
      system calls that move capabilities ([sys_forge], [sys_self_acquire] of
      capability.c).
    - [PageState.v], [PageAlloc.v]: the descriptors of physical pages
      (sys/xok/pmapP.h) and the allocator of sys/kern/pmap.c ([ppage_alloc],
      [ppage_alloc_n], [ppage_free], reclaiming of cached pages, [ppage_init]).
    - [BufCache.v], [BufIO.v]: the buffer cache of sys/kern/bc.c on those pages:
      hash queues, states, flushing; reading and writing extents with the request
      chains of sys/kern/disk.c.
    - [PageTable.v], [Pmap.v]: page directories, page tables, the record of which
      environment maps a page where, and the memory system calls of pmap.c.
    - [EnvLife.v], [EnvSafe.v], [EnvRun.v]: sys/kern/env.c: creating, cloning and
      destroying environments with their address spaces, the boot of the first
      two, and the calls that read and write an environment or its u-area.  [EnvLife.v] has the
      definitions and the take-down of an address space, [EnvSafe.v] shows that
      each operation keeps the invariant of the memory system, [EnvRun.v] composes
      them with the memory and capability calls ([life_step]).
    - [Ring.v], [Msgring.v], [MsgRun.v]: message rings of sys/kern/msgring.c with
      the copying of sys/xok/ae_recv.h.  [Ring.v] has the state [rst] (the memory
      system, the entries, the bytes of memory), translation of user addresses,
      circular lists and the accounting of pins; [Msgring.v] the calls that set,
      change and delete a ring and send a message; [MsgRun.v] the theorems.
    - [Malloc.v]: the kernel heap of sys/kern/malloc.c on the page pool and the
      words of kernel memory.
    - [Sched.v], [SchedFair.v]: the quantum vector, the choice of the next
      environment, timer interrupt and timeouts of sys/kern/sched.c.
    - [Ipc.v]: protected control transfer of sys/kern/ipc.c.
    - [Wk.v]: wakeup predicates of sys/kern/wk.c, compiled with the label table of
      sys/vcode/vcode.c, and the meaning of the instructions they use.
    - [Pxn.v], [PxnRevoke.v]: disk protection of sys/kern/pxn.c: who may use which
      extent of blocks, forging of copies and their revocation.
    - [Dpf.v]: packet filters of sys/dpf: the calls that build a filter (dpf-ir.c),
      joining of comparisons (optimize.c), ids (pid.c), hash tables (hash.h), the
      trie that insertion and deletion maintain (dpf.c) and its interpreter
      (fast-interp.c).  [DpfTrie.v] has the invariant of the trie, [DpfOpt.v]
      joining, [DpfInsert.v] and [DpfDelete.v] the two operations, [DpfInterp.v]
      the walk over a message, [DpfRun.v] the theorems on runs.

    The parts meet where the code does: the buffer cache and the heap allocate
    pages, page tables and predicates pin them, the memory calls, the quantum
    calls and the disk calls look capabilities up in the environment table,
    message rings pin the pages of their buffers, and the scheduler runs the
    predicates.  A component's state contains that of the
    components it calls, and [zoom] lifts their operations.  Where one component
    calls another through a function it is given (the release of an environment
    by the scheduler, [EnvFree]), the interface is a class.

    ** Reading the definitions

    C functions are functions in the monad [M]: they take a state and return a
    result with a new state, or [Panic].  [Panic] stands for a failed assertion,
    a dereference of a null or dangling pointer, or recursion deeper than [fuel];
    theorems about results show that it does not happen ([wp m s Q] says that [m]
    returns).  Error codes are negative integers, as in the code.  Unsigned
    w-bit values are integers in their range, and an operation that may leave it
    is followed by [u8], [u16], [u32], [u64] or [s32].  Pointers to kernel
    objects are integers, null is 0 or [None].  A fresh address that an allocation
    inside a component returns is an argument ([mem], 0 for NULL) unless the
    heap itself is the subject.  User memory is an argument of the calls that
    read it.

    ** What is shown

    - Confinement: no sequence of forge and acquire calls gives an environment a
      capability stronger than those that existed ([capability_confinement]);
      checks compute their specification and are monotone; lists change only for
      those who may change them.
    - Memory: no run of the calls that create, clone and destroy environments,
      move capabilities and map memory, within the limits of [life_step] and
      [vm_step] (ranges do not wrap, counts stay below 2^16, [num_completed] is
      in user memory, [PG_P] is not removed), lets a user page-table entry refer
      to a page table, a kernel page or a free page ([life_isolation]); beyond
      these limits the code does go wrong, as runs in Pmap.v show.  Mappings are made
      only with authority, and inserting and removing a mapping has exactly the
      effect it should.  The invariant [vm_inv] takes the set of page tables the
      kernel owns as a ghost argument; a new address space opens a ghost entry for
      its directory and closes it when the space is complete.
    - Environments: names are not used again while fewer than 2^21 have been given
      out ([env_ids_never_reused]); creating one needs a complete capability, destroying one every right over it, and
      the last user of an address space gives all its tables back.
    - Allocation: the page pool, free lists, hash queues and counters agree after
      every run of [pool_step] ([pool_invariant_reachable]), which leaves out the
      calls on extents and block states without [BC_VALID]; allocation returns
      the page the search order names; a block entered in the cache is found; for
      requests of up to 255 pages the heap never hands out overlapping blocks,
      and both [malloc] and [free] return.
    - Processor: the scheduler refines cyclic order over the quanta that are
      ready, terminates, and starves nobody unless environments yield to each
      other ([sched_bounded_waiting]); control transfers enter the callee only where and when it allowed it.
    - Predicates of up to 126 terms: the compiled code computes the sum of products
      it was given in bounded time, and failed or removed predicates leave no
      trace.  Longer ones can overrun the block of their code.
    - Disk: no call that returns adds to a pxn without a capability for it,
      authorisation is
      decided by the first guard found, and revocation reaches exactly the copies.
    - Messages: rings stay circular lists of entries, and a page is pinned exactly
      as often as entries hold it ([msgring_reach_ok]); a ring is the user's list,
      translated; messages arrive in order until the ring is full, and the next
      one is refused ([msgring_fifo]).  Removal of single entries by
      [sys_msgring_modring] is outside of the invariant: the code leaves links to
      the freed entry, which an example shows.
    - Packets: whatever filters of comparisons are inserted and deleted, the trie
      is that of the active filters ([dpf_reach_ok]); the interpreter returns, and
      only the id of an active filter that accepts the message
      ([dpf_interp_sound]).  Insertion and deletion are shown correct when they
      return: the code stops at a [demand] in some states, which examples show.

    Concrete runs at the end of the files show where the code departs from its
    intention; the manifest lists them as findings.

    ** Bounds and fuel

    Memory outside of an object is not part of the model, so a write past its end
    is a [Panic]: the code of a predicate past its block of 4096 bytes (the sizes
    of the instructions are a parameter, with the bounds of [sizes_ok] as a
    hypothesis), a pxn whose size wraps in 16 bits, more than [DPF_MAXELEM + 1]
    elements of a filter, a [num_completed] that points into the kernel.

    Loops over arrays and lists run over the list.  Fuel appears where the code
    follows links or recurses: in access lists it is the number of nested
    pointers, in [recycle] of the heap and in the scheduler's search the length
    of the list, and termination is part of the theorem.  The loops of a ring run
    at most once per entry, the loop that sets an entry up three times (the limit
    on the pieces of a buffer), and the loop that sets a ring once per entry of the
    user's list, which has to come back to its head.  The walk of the interpreter
    needs no more steps than there is work left in the trie and on its stack.  For
    pxns the recursion
    is bounded by a rank of the pxns that the theorem assumes; without one, the
    code does not terminate, which two examples show.

    ** Not modelled

    The uniprocessor build is modelled: locks are empty, there are no other
    processors whose translation buffers need flushing, and ASH_ENABLE, __PAM__,
    __HOST__ and XN are not set.  Assembly (trap entry, context switch), device
    drivers, boot-time probing of the hardware, the debugger stub, console output
    and the encoding of x86 instructions are left out, as they are about hardware
    rather than about state the kernel keeps.  Page faults inside [copyin] and
    [copyout] and the timing of interrupts are not modelled: a handler runs to
    completion.  The bytes of message buffers are a map of their own, apart from
    page tables and descriptors.  The pages that the predicate and the ring of an
    environment pin are an argument of [env_free], [held].  In [env_run] the poll
    of the clock ([check_rtc_interrupt]) and the loading of the page directory and
    the processor's control registers are left out.  Of networking, packet rings and packets (pktring.c, pkt.c), the
    reference counts and system calls of filters (sysdpf.c), held fragments and the
    filters that keep state, and the generator of machine code for filters (gen.c,
    xlate.c and what they use) are left out.  Library operating systems and programs above the kernel are not
    part of the development. *)

From Stdlib Require Import ZArith Lia.
From stdpp Require Import base numbers option list gmap fin_maps.

#[export] Set Default Goal Selector "!".

(** ** Machine integers

    The kernel is 32-bit i386 code.  A w-bit unsigned quantity is a [Z] in
    [0 .. 2^w - 1]; every C operation that can leave that range is followed by
    the wrap-around written out with one of the functions below. *)

Declare Scope xok_scope.
Delimit Scope xok_scope with xok.
#[global] Open Scope Z_scope.
#[global] Open Scope xok_scope.

Definition wrapu (w x : Z) : Z := x mod 2 ^ w.
Definition u8 (x : Z) : Z := wrapu 8 x.
Definition u16 (x : Z) : Z := wrapu 16 x.
Definition u32 (x : Z) : Z := wrapu 32 x.
Definition u64 (x : Z) : Z := wrapu 64 x.

(** Two's complement reading of a 32-bit word. *)
Definition s32 (x : Z) : Z :=
  let y := u32 x in if y <? 2 ^ 31 then y else y - 2 ^ 32.

(** A [short]. *)
Definition s16 (x : Z) : Z :=
  let y := u16 x in if y <? 2 ^ 15 then y else y - 2 ^ 16.

(** [x & m] as a C truth value. *)
Definition tst (x m : Z) : bool := negb (Z.land x m =? 0).

(** [x & ~m] on 32-bit words. *)
Definition clr (x m : Z) : Z := Z.land x (Z.lxor m (2 ^ 32 - 1)).

(** A C truth value as an [int]. *)
Definition b2z (b : bool) : Z := if b then 1 else 0.

Lemma wrapu_range w x : 0 <= w -> 0 <= wrapu w x < 2 ^ w.
Proof. intros. unfold wrapu. apply Z.mod_pos_bound. lia. Qed.

Lemma wrapu_small w x : 0 <= x < 2 ^ w -> wrapu w x = x.
Proof. intros. unfold wrapu. apply Z.mod_small. lia. Qed.

Lemma u8_range x : 0 <= u8 x < 256.
Proof. apply (wrapu_range 8). lia. Qed.
Lemma u16_range x : 0 <= u16 x < 65536.
Proof. apply (wrapu_range 16). lia. Qed.
Lemma u32_range x : 0 <= u32 x < 4294967296.
Proof. apply (wrapu_range 32). lia. Qed.
Lemma u64_range x : 0 <= u64 x < 18446744073709551616.
Proof. apply (wrapu_range 64). lia. Qed.
Lemma u8_small x : 0 <= x < 256 -> u8 x = x.
Proof. apply (wrapu_small 8). Qed.
Lemma u16_small x : 0 <= x < 65536 -> u16 x = x.
Proof. apply (wrapu_small 16). Qed.
Lemma u32_small x : 0 <= x < 4294967296 -> u32 x = x.
Proof. apply (wrapu_small 32). Qed.
Lemma u64_small x : 0 <= x < 18446744073709551616 -> u64 x = x.
Proof. apply (wrapu_small 64). Qed.

(** ** Kernel error codes (sys/xok/kerrno.h); calls return their negation. *)

Definition E_UNSPECIFIED := 1.
Definition E_BAD_ENV := 2.
Definition E_INVAL := 3.
Definition E_VSPACE := 4.
Definition E_NO_MEM := 5.
Definition E_SHARE := 6.
Definition E_NOT_FOUND := 7.
Definition E_EXISTS := 8.
Definition E_FAULT := 10.
Definition E_CPU_INVALID := 13.
Definition E_CAP_INVALID := 14.
Definition E_CAP_INSUFF := 15.
Definition E_NO_FREE_ENV := 16.
Definition E_NO_PKTRINGS := 20.
Definition E_ACL_SIZE := 22.
Definition E_ACL_INVALID := 23.
Definition E_XTNT_SIZE := 24.
Definition E_XTNT_RDONLY := 25.
Definition E_BUFFER := 26.
Definition E_IPC_BLOCKED := 35.
Definition E_NO_MSGRING := 40.
Definition E_MSGRING_FULL := 41.

(** [lia] that sees through the error codes. *)
Ltac elia := unfold E_UNSPECIFIED, E_BAD_ENV, E_INVAL, E_VSPACE, E_NO_MEM, E_SHARE, E_NOT_FOUND, E_EXISTS, E_FAULT, E_CPU_INVALID, E_CAP_INVALID, E_CAP_INSUFF, E_NO_FREE_ENV, E_NO_PKTRINGS, E_ACL_SIZE, E_ACL_INVALID, E_XTNT_SIZE, E_XTNT_RDONLY, E_BUFFER, E_IPC_BLOCKED, E_NO_MSGRING, E_MSGRING_FULL in *; lia.

(** ** Memory layout (sys/xok/mmu.h, sys/machine/param.h) *)

Definition PGSHIFT := 12.
Definition NBPG := 4096.
Definition NLPG := 1024.
Definition PGMASK := 4095.
Definition PDSHIFT := 22.
Definition NBPD := 4194304.
Definition PDMASK := 4194303.
Definition KERNBASE := 0xf0000000.
Definition VPT := KERNBASE - NBPD.
Definition KSTACKTOP := VPT - 128 * NBPD.
Definition CPUCXT := KSTACKTOP - 4 * 0x100000 - NBPD.
Definition ULIM := CPUCXT - NBPD.
Definition UADDRS := ULIM - NBPD.
Definition UADDR := UADDRS - NBPD.
Definition UVPT := UADDR - NBPD.
Definition UPPAGES := UVPT - NBPD.
Definition SYSINFO := UPPAGES - NBPD.
Definition UENVS := SYSINFO + 10 * NBPG.
Definition UBC := SYSINFO - NBPD.
Definition UXNMAP := UBC - NBPD.
Definition UTOP := UXNMAP.

Definition PGNO (va : Z) : Z := Z.shiftr va PGSHIFT.
Definition PTENO (va : Z) : Z := Z.land (Z.shiftr va PGSHIFT) 0x3ff.
Definition PDENO (va : Z) : Z := Z.shiftr va PDSHIFT.

Definition PG_P := 0x1.
Definition PG_W := 0x2.
Definition PG_U := 0x4.
Definition PG_PWT := 0x8.
Definition PG_PCD := 0x10.
Definition PG_A := 0x20.
Definition PG_D := 0x40.
Definition PG_PS := 0x80.
Definition PG_MBZ := 0x180.

(** Page-fault modes: what a fault taken inside the kernel means. *)
Definition PFM_NONE := 0.
Definition PFM_PROP := 1.
Definition PFM_KILL := 2.
Definition PFM_VCOPY := 3.

(** ** The kernel monad

    Kernel code is state passing that can also stop: a failed [assert], a
    [panic], or a memory access the C program may not make (a dangling or null
    pointer, an unlink of an element that is on no list) is [Panic].  The C
    functions signal ordinary errors in their result, as they do here. *)

Inductive outcome (S A : Type) : Type :=
  | Ret (a : A) (s : S)
  | Panic.
Arguments Ret {S A} a s.
Arguments Panic {S A}.

(** The result of a run, and the state it ends in. *)
Definition ret_val {S A} (o : outcome S A) : option A :=
  match o with Ret a _ => Some a | Panic => None end.
Definition ret_state {S A} (o : outcome S A) : option S :=
  match o with Ret _ s => Some s | Panic => None end.

Definition M (S A : Type) : Type := S -> outcome S A.

Definition mreturn {S A} (a : A) : M S A := fun s => Ret a s.
Definition mbind_ {S A B} (m : M S A) (k : A -> M S B) : M S B :=
  fun s => match m s with Ret a s' => k a s' | Panic => Panic end.
Definition get {S} : M S S := fun s => Ret s s.
Definition gets {S A} (f : S -> A) : M S A := fun s => Ret (f s) s.
Definition put {S} (s' : S) : M S unit := fun _ => Ret tt s'.
Definition modify {S} (f : S -> S) : M S unit := fun s => Ret tt (f s).
Definition panic {S A} : M S A := fun _ => Panic.

(** [assert (b)] of xok_include/assert.h. *)
Definition assert_ {S} (b : bool) : M S unit := if b then mreturn tt else panic.

(** A pointer dereference: stops on a bad pointer. *)
Definition of_option {S A} (o : option A) : M S A :=
  match o with Some a => mreturn a | None => panic end.

Notation "x <- m ;; k" := (mbind_ m (fun x => k))
  (at level 100, m at next level, right associativity) : xok_scope.
Notation "m ;; k" := (mbind_ m (fun _ => k))
  (at level 100, right associativity) : xok_scope.

(** Run an operation of a component inside a larger state. *)
Definition zoom {S T A} (g : S -> T) (p : T -> S -> S) (m : M T A) : M S A :=
  fun s => match m (g s) with Ret a t => Ret a (p t s) | Panic => Panic end.

(** [for (; n; n--)] over an explicit list of indices, stopping at the first
    [Some] result. *)
Fixpoint mloop {S A I} (body : I -> M S (option A)) (l : list I) : M S (option A) :=
  match l with
  | [] => mreturn None
  | i :: l' => r <- body i ;; match r with Some a => mreturn (Some a) | None => mloop body l' end
  end.

Fixpoint mfor {S I} (body : I -> M S unit) (l : list I) : M S unit :=
  match l with
  | [] => mreturn tt
  | i :: l' => body i ;; mfor body l'
  end.

(** ** Weakest preconditions

    [wp m s Q]: from state [s], [m] returns (it does not panic) and its result
    and final state satisfy [Q]. *)
Definition wp {S A} (m : M S A) (s : S) (Q : A -> S -> Prop) : Prop :=
  match m s with Ret a s' => Q a s' | Panic => False end.

Section wp_rules.
Context {S : Type}.
Implicit Types s : S.

Lemma wp_mono {A} (m : M S A) s (Q Q' : A -> S -> Prop) :
  wp m s Q -> (forall a s', Q a s' -> Q' a s') -> wp m s Q'.
Proof. unfold wp. destruct (m s); auto. Qed.

Lemma wp_ret {A} (a : A) s (Q : A -> S -> Prop) : wp (mreturn a) s Q <-> Q a s.
Proof. reflexivity. Qed.

Lemma wp_bind {A B} (m : M S A) (k : A -> M S B) s (Q : B -> S -> Prop) :
  wp (mbind_ m k) s Q <-> wp m s (fun a s' => wp (k a) s' Q).
Proof. unfold wp, mbind_. destruct (m s); reflexivity. Qed.

Lemma wp_gets {A} (f : S -> A) s (Q : A -> S -> Prop) : wp (gets f) s Q <-> Q (f s) s.
Proof. reflexivity. Qed.

Lemma wp_get s (Q : S -> S -> Prop) : wp get s Q <-> Q s s.
Proof. reflexivity. Qed.

Lemma wp_modify (f : S -> S) s (Q : unit -> S -> Prop) : wp (modify f) s Q <-> Q tt (f s).
Proof. reflexivity. Qed.

Lemma wp_put s0 s (Q : unit -> S -> Prop) : wp (put s0) s Q <-> Q tt s0.
Proof. reflexivity. Qed.

Lemma wp_assert b s (Q : unit -> S -> Prop) :
  wp (assert_ b) s Q <-> b = true /\ Q tt s.
Proof. unfold wp. destruct b; cbn; intuition congruence. Qed.

Lemma wp_of_option {A} (o : option A) s (Q : A -> S -> Prop) :
  wp (of_option o) s Q <-> exists a, o = Some a /\ Q a s.
Proof.
  unfold wp. destruct o as [a|]; cbn.
  - split; [eauto|]. intros (b & [= <-] & H). exact H.
  - split; [done|]. intros (b & [=] & _).
Qed.

Lemma wp_and {A} (m : M S A) s (Q1 Q2 : A -> S -> Prop) :
  wp m s Q1 -> wp m s Q2 -> wp m s (fun a s' => Q1 a s' /\ Q2 a s').
Proof. unfold wp. destruct (m s); auto. Qed.

Lemma wp_run {A} (m : M S A) s a s' (Q : A -> S -> Prop) :
  wp m s Q -> m s = Ret a s' -> Q a s'.
Proof. unfold wp. intros H E. rewrite E in H. exact H. Qed.

Lemma wp_returns {A} (m : M S A) s (Q : A -> S -> Prop) :
  wp m s Q -> exists a s', m s = Ret a s' /\ Q a s'.
Proof. unfold wp. destruct (m s); naive_solver. Qed.

(** The same, on the projections of a run that [vm_compute] can evaluate. *)
Lemma wp_returns_val {A} (m : M S A) s a (Q : A -> S -> Prop) :
  wp m s Q -> ret_val (m s) = Some a -> exists s', m s = Ret a s' /\ Q a s'.
Proof. unfold wp. destruct (m s); cbn; naive_solver. Qed.

Lemma wp_ret_state {A} (m : M S A) s d (Q : A -> S -> Prop) :
  wp m s Q -> exists a, Q a (default d (ret_state (m s))).
Proof. unfold wp. destruct (m s); cbn; naive_solver. Qed.

Lemma wp_zoom {T A} (g : S -> T) (p : T -> S -> S) (m : M T A) s (Q : A -> S -> Prop) :
  wp (zoom g p m) s Q <-> wp m (g s) (fun a t => Q a (p t s)).
Proof. unfold wp, zoom. destruct (m (g s)); reflexivity. Qed.

(** Loop rule: an invariant kept by every iteration that does not stop. *)
Lemma wp_mloop {A I} (body : I -> M S (option A)) (l : list I) s
    (Inv : list I -> S -> Prop) (Q : option A -> S -> Prop) :
  Inv l s ->
  (forall i l' s', Inv (i :: l') s' ->
     wp (body i) s' (fun r s'' =>
       match r with Some a => Q (Some a) s'' | None => Inv l' s'' end)) ->
  (forall s', Inv [] s' -> Q None s') ->
  wp (mloop body l) s Q.
Proof.
  intros Hinv Hbody Hend. revert s Hinv. induction l as [|i l IH]; intros s Hinv; cbn.
  - apply wp_ret. auto.
  - apply wp_bind. eapply wp_mono; [by apply Hbody|].
    intros [a|] s' H; [done|]. by apply IH.
Qed.

Lemma wp_mfor {I} (body : I -> M S unit) (l : list I) s
    (Inv : list I -> S -> Prop) (Q : unit -> S -> Prop) :
  Inv l s ->
  (forall i l' s', Inv (i :: l') s' -> wp (body i) s' (fun _ s'' => Inv l' s'')) ->
  (forall s', Inv [] s' -> Q tt s') ->
  wp (mfor body l) s Q.
Proof.
  intros Hinv Hbody Hend. revert s Hinv. induction l as [|i l IH]; intros s Hinv; cbn.
  - apply wp_ret. auto.
  - apply wp_bind. eapply wp_mono; [by apply Hbody|]. intros [] s' H. by apply IH.
Qed.
End wp_rules.

(** ** Partial correctness

    [wlp m s Q]: if [m] returns from [s], then [Q] holds; for code that may run
    out of memory and panic. *)
Definition wlp {S A} (m : M S A) (s : S) (Q : A -> S -> Prop) : Prop :=
  match m s with Ret a s' => Q a s' | Panic => True end.

Section wlp_rules.
Context {S : Type}.

Lemma wlp_run {A} (m : M S A) s a s' (Q : A -> S -> Prop) : wlp m s Q -> m s = Ret a s' -> Q a s'.
Proof. unfold wlp. intros H E. by rewrite E in H. Qed.

Lemma wp_wlp {A} (m : M S A) s (Q : A -> S -> Prop) : wp m s Q -> wlp m s Q.
Proof. unfold wp, wlp. by destruct (m s). Qed.

Lemma wlp_bind {A B} (m : M S A) (k : A -> M S B) s (Q : B -> S -> Prop) :
  wlp m s (fun a s' => wlp (k a) s' Q) -> wlp (mbind_ m k) s Q.
Proof. unfold wlp, mbind_. by destruct (m s). Qed.

Lemma wlp_mono {A} (m : M S A) s (Q Q' : A -> S -> Prop) :
  wlp m s Q -> (forall a s', Q a s' -> Q' a s') -> wlp m s Q'.
Proof. unfold wlp. destruct (m s); auto. Qed.

Lemma wlp_of_option {A} (o : option A) s (Q : A -> S -> Prop) : (forall a, o = Some a -> Q a s) -> wlp (of_option o) s Q.
Proof. unfold wlp. destruct o; cbn; auto. Qed.

Lemma wlp_zoom {T A} (g : S -> T) (p : T -> S -> S) (m : M T A) s (Q : A -> S -> Prop) :
  wlp m (g s) (fun a t => Q a (p t s)) -> wlp (zoom g p m) s Q.
Proof. unfold wlp, zoom. by destruct (m (g s)). Qed.

Lemma wlp_panic {A} s (Q : A -> S -> Prop) : wlp panic s Q.
Proof. done. Qed.

Lemma wlp_assert b s (Q : unit -> S -> Prop) : Q tt s -> wlp (assert_ b) s Q.
Proof. unfold wlp. by destruct b. Qed.

Lemma mfor_app {I} (f : I -> M S unit) l1 l2 s (Q : unit -> S -> Prop) :
  wlp (mfor f (l1 ++ l2)) s Q -> wlp (mfor f l1) s (fun _ s' => wlp (mfor f l2) s' Q).
Proof.
  revert s. induction l1 as [|x l1 IH]; intros s; cbn [mfor app]; intros H; [exact H|].
  apply wlp_bind. unfold wlp at 1 in H. unfold mbind_ in H. unfold wlp at 1. destruct (f x s) as [[] s1|]; [by apply IH|done].
Qed.
End wlp_rules.

(** One step of symbolic execution of a monadic program under [wp]. *)
Ltac wp_step :=
  match goal with
  | |- wp (mreturn _) _ _ => apply wp_ret
  | |- wp (mbind_ _ _) _ _ => apply wp_bind
  | |- wp (gets _) _ _ => apply wp_gets
  | |- wp get _ _ => apply wp_get
  | |- wp (modify _) _ _ => apply wp_modify
  | |- wp (put _) _ _ => apply wp_put
  | |- wp (assert_ _) _ _ => apply wp_assert; split; [|]
  | |- wp (if ?b then _ else _) _ _ => let E := fresh "E" in destruct b eqn:E
  | |- wp (match ?o with Some _ => _ | None => _ end) _ _ =>
      let E := fresh "E" in destruct o eqn:E
  end.
Ltac wp_steps := repeat (wp_step; cbn beta iota).

(** ** Lists and counting *)

Definition zlen {A} (l : list A) : Z := Z.of_nat (length l).

(** Index lists for C [for] loops: [0 .. n-1]. *)
Definition zseq (start : Z) (n : nat) : list Z :=
  (fun i => start + Z.of_nat i) <$> seq 0 n.

Arguments zseq : simpl never.

Lemma zlen_nil {A} : zlen (@nil A) = 0.
Proof. reflexivity. Qed.
Lemma zlen_cons {A} (x : A) l : zlen (x :: l) = zlen l + 1.
Proof. unfold zlen. cbn [length]. lia. Qed.
Lemma zlen_app {A} (l k : list A) : zlen (l ++ k) = zlen l + zlen k.
Proof. unfold zlen. rewrite length_app. lia. Qed.
Lemma zlen_nonneg {A} (l : list A) : 0 <= zlen l.
Proof. unfold zlen. lia. Qed.

Lemma zseq_elem start n i : i ∈ zseq start n <-> start <= i < start + Z.of_nat n.
Proof.
  unfold zseq. rewrite list_elem_of_fmap. split.
  - intros (k & -> & [_ Hk]%elem_of_seq). lia.
  - intros H. exists (Z.to_nat (i - start)). rewrite elem_of_seq. lia.
Qed.

Lemma zseq_S start n : zseq start (S n) = start :: zseq (start + 1) n.
Proof.
  unfold zseq. cbn. f_equal; [lia|]. rewrite <- fmap_S_seq, <- list_fmap_compose.
  apply list_fmap_ext. intros. cbn. lia.
Qed.

Lemma zseq_0 start : zseq start 0 = [].
Proof. reflexivity. Qed.

Lemma zseq_length start n : length (zseq start n) = n.
Proof. unfold zseq. by rewrite length_fmap, length_seq. Qed.

(** [LIST_REMOVE]/[TAILQ_REMOVE]: unlink an element from the list it is on.
    Unlinking an element that is on no list follows wild pointers: [None]. *)
Fixpoint unlink (x : Z) (l : list Z) : option (list Z) :=
  match l with
  | [] => None
  | y :: l' => if y =? x then Some l' else cons y <$> unlink x l'
  end.

Lemma unlink_Some x l : x ∈ l -> exists l', unlink x l = Some l'.
Proof.
  induction l as [|y l IH]; intros Hx; cbn; [set_solver|].
  destruct (Z.eqb_spec y x); [eauto|].
  destruct IH as [l' ->]; [set_solver|]. cbn. eauto.
Qed.

Lemma unlink_perm x l l' : unlink x l = Some l' -> l ≡ₚ (x :: l').
Proof.
  revert l'. induction l as [|y l IH]; intros l'; cbn; [done|].
  destruct (Z.eqb_spec y x) as [->|Hne]; [intros [= ->]; done|].
  destruct (unlink x l) as [k|] eqn:E; cbn; [|done].
  intros [= <-]. rewrite (IH k eq_refl). constructor.
Qed.

Lemma unlink_NoDup x l l' :
  NoDup l -> unlink x l = Some l' -> NoDup l' /\ (x ∉ l') /\ (forall y, (y ∈ l') <-> (y ∈ l) /\ y <> x).
Proof.
  intros Hnd H. apply unlink_perm in H. rewrite H in Hnd.
  apply NoDup_cons in Hnd as [Hx Hnd]. split_and!; [done..|].
  intros y. rewrite H, elem_of_cons. naive_solver.
Qed.

Lemma unlink_zlen x l l' : unlink x l = Some l' -> zlen l = zlen l' + 1.
Proof.
  intros H%unlink_perm%Permutation_length. unfold zlen. rewrite H. cbn. lia.
Qed.

(** Number of entries of a finite map satisfying a boolean predicate. *)
Definition kcount {K A} `{Countable K} (f : K * A -> bool) (m : gmap K A) : Z :=
  Z.of_nat (size (filter (fun kv => f kv = true) m)).

Section kcount.
Context {K A : Type} `{Countable K} (f : K * A -> bool).
Implicit Types m : gmap K A.

Lemma kcount_nonneg m : 0 <= kcount f m.
Proof. unfold kcount. lia. Qed.

Lemma kcount_delete m k x : m !! k = Some x -> kcount f m = kcount f (delete k m) + b2z (f (k, x)).
Proof.
  intros Hk. unfold kcount. rewrite map_filter_delete.
  destruct (f (k, x)) eqn:E; cbn.
  - assert (filter (fun kv => f kv = true) m !! k = Some x) as Hf
      by (apply map_lookup_filter_Some; auto).
    pose proof (map_size_delete_Some _ _ (mk_is_Some _ _ Hf)) as Hs.
    assert (size (filter (fun kv => f kv = true) m) <> 0%nat).
    { intros H0%map_size_empty_inv. rewrite H0 in Hf. by rewrite lookup_empty in Hf. }
    rewrite Hs. lia.
  - rewrite delete_id; [lia|]. apply map_lookup_filter_None. right.
    intros y Hy. rewrite Hk in Hy. injection Hy as <-. by rewrite E.
Qed.

Lemma kcount_insert_new m k y :
  m !! k = None -> kcount f (<[k:=y]> m) = kcount f m + b2z (f (k, y)).
Proof.
  intros Hk. rewrite (kcount_delete (<[k:=y]> m) k y) by apply lookup_insert_eq.
  rewrite delete_insert_id by done. lia.
Qed.

(** Overwriting an entry, where an absent one counts like the default [d]. *)
Lemma kcount_insert m k y d :
  f (k, d) = false ->
  kcount f (<[k:=y]> m) = kcount f m - b2z (f (k, default d (m !! k))) + b2z (f (k, y)).
Proof.
  intros Hd. destruct (m !! k) as [x|] eqn:Hk; cbn.
  - rewrite (kcount_delete m k x Hk).
    rewrite (kcount_delete (<[k:=y]> m) k y) by apply lookup_insert_eq.
    rewrite delete_insert_eq. lia.
  - rewrite kcount_insert_new, Hd by done. cbn. lia.
Qed.

Lemma kcount_pos m k x : m !! k = Some x -> f (k, x) = true -> 0 < kcount f m.
Proof.
  intros Hk Hf. rewrite (kcount_delete m k x Hk), Hf. cbn.
  pose proof (kcount_nonneg (delete k m)). lia.
Qed.

Lemma kcount_zero m : kcount f m = 0 <-> (forall k x, m !! k = Some x -> f (k, x) = false).
Proof.
  split.
  - intros H0 k x Hk. destruct (f (k, x)) eqn:E; [|done]. pose proof (kcount_pos m k x Hk E). lia.
  - intros Hf. unfold kcount. rewrite map_empty_filter_2; [done|].
    intros k x Hk. by rewrite (Hf k x Hk).
Qed.

(** Dropping entries that are not counted. *)
Lemma kcount_filter m (P : K * A -> Prop) `{!forall kv, Decision (P kv)} :
  (forall k x, m !! k = Some x -> f (k, x) = true -> P (k, x)) ->
  kcount f (filter P m) = kcount f m.
Proof.
  intros HP. unfold kcount. do 2 f_equal. rewrite map_filter_filter.
  apply map_filter_ext. intros k x Hk. split; [tauto|]. intros Hf. split; [done|by apply HP].
Qed.
End kcount.

Lemma kcount_ext {K A} `{Countable K} (f g : K * A -> bool) (m : gmap K A) :
  (forall k x, m !! k = Some x -> f (k, x) = g (k, x)) -> kcount f m = kcount g m.
Proof.
  intros E. unfold kcount. do 2 f_equal. apply map_filter_ext. intros k x Hk. by rewrite (E k x Hk).
Qed.

Lemma kcount_le {K A} `{Countable K} (f g : K * A -> bool) (m : gmap K A) :
  (forall k x, f (k, x) = true -> g (k, x) = true) -> kcount f m <= kcount g m.
Proof.
  intros E. unfold kcount. apply inj_le, map_subseteq_size, map_filter_subseteq_ext. auto.
Qed.

(** The same for predicates on the values of a map with integer keys. *)
Definition mcount {A} (f : A -> bool) (m : gmap Z A) : Z := kcount (fun kv => f (snd kv)) m.

Section mcount.
Context {A : Type} (f : A -> bool).
Implicit Types m : gmap Z A.

Lemma mcount_nonneg m : 0 <= mcount f m.
Proof. apply kcount_nonneg. Qed.

Lemma mcount_delete m k x : m !! k = Some x -> mcount f m = mcount f (delete k m) + b2z (f x).
Proof. apply (kcount_delete (fun kv => f (snd kv))). Qed.

Lemma mcount_insert m k x y :
  m !! k = Some x -> mcount f (<[k:=y]> m) = mcount f m - b2z (f x) + b2z (f y).
Proof.
  intros Hk. rewrite (mcount_delete m k x Hk).
  rewrite (mcount_delete (<[k:=y]> m) k y) by apply lookup_insert_eq.
  rewrite delete_insert_eq. lia.
Qed.

Lemma mcount_insert_new m k y :
  m !! k = None -> mcount f (<[k:=y]> m) = mcount f m + b2z (f y).
Proof. apply (kcount_insert_new (fun kv => f (snd kv))). Qed.

Lemma mcount_pos m k x : m !! k = Some x -> f x = true -> 0 < mcount f m.
Proof. apply (kcount_pos (fun kv => f (snd kv))). Qed.
End mcount.

(** How often a number occurs in a list. *)
Definition count (q : Z) (l : list Z) : Z := zlen (filter (fun x => x = q) l).

Lemma count_app q l x : count q (l ++ [x]) = count q l + b2z (x =? q).
Proof.
  unfold count. rewrite filter_app, zlen_app. f_equal. destruct (Z.eqb_spec x q) as [->|].
  - by rewrite filter_cons_True.
  - by rewrite filter_cons_False.
Qed.

Lemma count_le q l : 0 <= count q l <= zlen l.
Proof. unfold count, zlen. pose proof (length_filter (fun x => x = q) l). lia. Qed.

Lemma count_cons q x l : count q (x :: l) = b2z (x =? q) + count q l.
Proof.
  unfold count. destruct (Z.eqb_spec x q) as [->|].
  - rewrite filter_cons_True by done. unfold zlen. cbn [length b2z]. lia.
  - by rewrite filter_cons_False.
Qed.

Lemma count_in q l : q ∈ l -> 0 < count q l.
Proof. induction l as [|x l IH]; [set_solver|]. rewrite count_cons. intros [->|H]%elem_of_cons; [rewrite Z.eqb_refl; pose proof (count_le x l); cbn; lia|]. specialize (IH H). unfold b2z. case_match; lia. Qed.

Lemma count_out q l : q ∉ l -> count q l = 0.
Proof. induction l as [|x l IH]; [done|]. rewrite count_cons, not_elem_of_cons. intros [Hx Hl]. rewrite IH, (proj2 (Z.eqb_neq _ _)) by done. done. Qed.

Lemma count_both q l k : count q (l ++ k) = count q l + count q k.
Proof. induction l as [|x l IH]; [done|]. cbn [app]. rewrite !count_cons, IH. lia. Qed.

(** ** Hints *)

Create HintDb xok.
Create Rewrite HintDb xok.
#[export] Hint Resolve u8_range u16_range u32_range u64_range : xok.
#[export] Hint Resolve zlen_nonneg : xok.
#[export] Hint Rewrite @zlen_nil @zlen_cons @zlen_app : xok.
