(* ===== verification/Capability.v ===== *)
(** * Capabilities and access control lists

    sys/kern/capability.c and sys/xok/capability.h.  A capability is a short
    byte-string name with permission bits; a shorter name is more powerful.
    An access control list is an array of capabilities whose last entry may be
    a pointer to a malloc'ed extension array. *)

From Stdlib Require Import ZArith Lia.
From stdpp Require Import base numbers option list gmap.
From S2P Require Import Prelude.

(** ** Data *)

Definition ACL_ALL := 7.
Definition ACL_MOD := 4.
Definition ACL_W := 1.
Definition ACL_R := 0.
Definition CL_ALL := 7.
Definition CL_DUP := 4.

(** [c_name] is the seven bytes from offset 1 of the structure.  The source
    overlays two more fields on them: [cl_len] is bytes 1 and 2 of the name,
    [cl_list] bytes 3 to 6, little endian. *)
Record cap := mkCap {
  c_perm : Z;
  c_valid : bool;
  c_isptr : bool;
  c_len : Z;
  c_name : list Z }.

#[export] Instance cap_eq_dec : EqDecision cap.
Proof. solve_decision. Defined.

Definition name_byte (c : cap) (i : nat) : Z := nth i (c_name c) 0.

Definition cl_len (c : cap) : Z := name_byte c 1 + 256 * name_byte c 2.

Definition cl_list (c : cap) : Z :=
  name_byte c 3 + 256 * name_byte c 4 + 65536 * name_byte c 5 + 16777216 * name_byte c 6.

(** The capability a [bzero] leaves, [cap_null]. *)
Definition cap_null : cap := mkCap 0 false false 0 (repeat 0 7).

(** A C value of the structure: three permission bits, a three-bit length,
    seven name bytes. *)
Definition cap_ok (c : cap) : Prop :=
  0 <= c_perm c < 8 /\ 0 <= c_len c < 8 /\ length (c_name c) = 7%nat /\
  Forall (fun b => 0 <= b < 256) (c_name c).

(** Extension arrays, by the address [malloc] returned. *)
Abbreviation aclheap := (gmap Z (list cap)).

(** [!memcmp (a, b, n)]. *)
Definition memeq (a b : list Z) (n : Z) : bool :=
  bool_decide (take (Z.to_nat n) a = take (Z.to_nat n) b).

(** ** Inline operations of capability.h *)

(** [acl_init]: the loop body writes [acl->c_valid], the first entry. *)
Definition acl_init (acl : list cap) (len : Z) : list cap :=
  match acl with
  | a :: rest =>
      if 0 <? len then mkCap (c_perm a) false (c_isptr a) (c_len a) (c_name a) :: rest
      else acl
  | [] => acl
  end.

(** [acl_add]: iteration [i] tests [acl->c_valid] and stores to [acl[i]]. *)
Fixpoint acl_add_loop (acl : list cap) (n : cap) (i : nat) (fuel : nat) : Z * list cap :=
  match fuel with
  | O => (- E_ACL_SIZE, acl)
  | S fuel' =>
      match acl with
      | a :: _ => if c_valid a then acl_add_loop acl n (S i) fuel' else (0, <[i := n]> acl)
      | [] => (- E_ACL_SIZE, acl)
      end
  end.

(** Returns 0 and the new list, or the error stored in [*error]. *)
Definition acl_add (acl : list cap) (len : Z) (n : cap) : Z * list cap :=
  acl_add_loop acl n 0 (Z.to_nat len).

Definition cap_init_zerolength (c : cap) : cap := mkCap CL_ALL true false 0 (c_name c).

Definition cap_init_lowest (c : cap) (access : Z) : cap :=
  mkCap (access mod 8) true false 7 (repeat 255 7).

Definition cap_isroot (c : cap) : bool := c_valid c && (c_len c =? 0) && (c_perm c =? CL_ALL).

Definition cap_dominates (c1 c2 : cap) : bool :=
  if negb (c_valid c1) || c_isptr c1 || negb (c_valid c2) || c_isptr c2
     || (c_len c2 <? c_len c1)
     || negb (Z.land (c_perm c2) (c_perm c1) =? c_perm c2)
  then false
  else memeq (c_name c1) (c_name c2) (c_len c1).

(** ** acl_access *)

(** The array a pointer entry designates: [cl_len] entries at [cl_list].
    A dangling pointer or a read past the array is [None]. *)
Definition acl_ext (h : aclheap) (a : cap) : option (list cap) :=
  match h !! cl_list a with
  | Some l => if cl_len a <=? zlen l then Some (take (Z.to_nat (cl_len a)) l) else None
  | None => None
  end.

Definition cap_matches (c a : cap) (perm : Z) : bool :=
  (Z.land perm (c_perm a) =? perm) && (c_len c <=? c_len a)
  && memeq (c_name c) (c_name a) (c_len c).

(** The [for] loop; [sub a] is the recursive call on a pointer entry. *)
Fixpoint acl_scan (sub : cap -> option Z) (c : cap) (perm : Z) (acl : list cap) : option Z :=
  match acl with
  | [] => Some (- E_CAP_INSUFF)
  | a :: rest =>
      if c_valid a then
        r ← (if c_isptr a then sub a else Some 1);
        if r =? 0 then Some 0
        else if cap_matches c a perm then Some 0
        else acl_scan sub c perm rest
      else acl_scan sub c perm rest
  end.

(** [None]: a wild pointer was followed, or the fuel (the number of nested
    lists entered) ran out. *)
Fixpoint acl_access_fuel (fuel : nat) (h : aclheap) (c : cap) (acl : list cap) (perm : Z)
    : option Z :=
  match fuel with
  | O => None
  | S fuel' =>
      if negb (c_valid c) then Some (- E_CAP_INVALID)
      else if negb (Z.land perm (c_perm c) =? perm) then Some (- E_CAP_INSUFF)
      else acl_scan (fun a => l ← acl_ext h a; acl_access_fuel fuel' h c l perm) c perm acl
  end.

(** Extension arrays hold no pointers ([acl_wf]), so two levels are enough. *)
Definition acl_access (h : aclheap) (c : cap) (acl : list cap) (perm : Z) : option Z :=
  acl_access_fuel 2 h c acl perm.

(** ** acl_read *)

(** [le->c_valid && le->c_isptr] for the last entry. *)
Definition acl_lastptr (acl : list cap) : option cap :=
  match last acl with
  | Some le => if c_valid le && c_isptr le then Some le else None
  | None => None
  end.

(** The entries copied to the user's array of [res_len] entries; the result of
    the call is their number. *)
Definition acl_read (h : aclheap) (acl : list cap) (res_len : Z) : option (list cap) :=
  let p := b2z (bool_decide (is_Some (acl_lastptr acl))) in
  let n1 := Z.min res_len (zlen acl - p) in
  let first := take (Z.to_nat n1) acl in
  match acl_lastptr acl with
  | None => Some first
  | Some le =>
      if res_len <=? n1 then Some first
      else
        l ← h !! cl_list le;
        let n2 := Z.min (res_len - n1) (cl_len le) in
        if n2 <=? zlen l then Some (first ++ take (Z.to_nat n2) l) else None
  end.

(** ** acl_setsize *)

Definition ptr_name (c : cap) (len addr : Z) : list Z :=
  [name_byte c 0; len mod 256; (len / 256) mod 256;
   addr mod 256; (addr / 256) mod 256; (addr / 65536) mod 256; (addr / 16777216) mod 256].

(** Store [le] back as the last entry. *)
Definition set_last (acl : list cap) (le : cap) : list cap :=
  <[(length acl - 1)%nat := le]> acl.

(** [sizeof (cap)] is 8.  [mem] is what [malloc] returns if it is called
    (0 for NULL).  Result, heap and list after the call. *)
Definition acl_setsize (h : aclheap) (acl : list cap) (size : Z) (mem : Z)
    : option (Z * aclheap * list cap) :=
  le ← last acl;
  let acl_len := zlen acl in
  if size <=? acl_len then
    match acl_lastptr acl with
    | Some le =>
        l ← h !! cl_list le;
        le' ← head l;
        Some (0, delete (cl_list le) h, set_last acl le')
    | None => Some (0, h, acl)
    end
  else
    let eacl_len := size - acl_len in
    if NBPG / 8 <? eacl_len then Some (- E_ACL_SIZE, h, acl)
    else if mem =? 0 then Some (- E_NO_MEM, h, acl)
    else
      let zeros := repeat cap_null (Z.to_nat eacl_len) in
      eacl ← (match acl_lastptr acl with
              | Some le =>
                  l ← h !! cl_list le;
                  let n := Z.min (cl_len le) eacl_len in
                  if n <=? zlen l
                  then Some (take (Z.to_nat n) l ++ drop (Z.to_nat n) zeros)
                  else None
              | None => Some (<[0%nat := le]> zeros)
              end);
      let le' := mkCap (c_perm le) true true (c_len le) (ptr_name le eacl_len mem) in
      Some (0, <[mem := eacl]> h, set_last acl le').

(** ** acl_getpos and acl_mod *)

(** Where a position lands: an entry of the array itself, or entry [i] of the
    extension array at [ptr]. *)
Inductive aclpos :=
  | PosTop (i : Z)
  | PosExt (ptr i : Z)
  | PosErr (r : Z).

Fixpoint acl_getpos_fuel (fuel : nat) (h : aclheap) (mk : Z -> aclpos) (acl : list cap) (pos : Z)
    : option aclpos :=
  match fuel with
  | O => None
  | S fuel' =>
      let p := b2z (bool_decide (is_Some (acl_lastptr acl))) in
      if pos <? zlen acl - p then Some (mk pos)
      else match acl_lastptr acl with
           | None => Some (PosErr (- E_CAP_INVALID))
           | Some le =>
               l ← acl_ext h le;
               acl_getpos_fuel fuel' h (PosExt (cl_list le)) l (u32 (pos - zlen acl))
           end
  end.

Definition acl_getpos (h : aclheap) (acl : list cap) (pos : Z) : option aclpos :=
  acl_getpos_fuel 2 h PosTop acl pos.

(** Store through the pointer [acl_getpos] returned. *)
Definition acl_store (h : aclheap) (acl : list cap) (w : aclpos) (n : cap)
    : aclheap * list cap :=
  match w with
  | PosTop i => (h, <[Z.to_nat i := n]> acl)
  | PosExt p i => (alter (fun l => <[Z.to_nat i := n]> l) p h, acl)
  | PosErr _ => (h, acl)
  end.

(** [np] is the user pointer (0 for NULL) and [n] the capability it points at;
    reading it does not fault. *)
Definition acl_mod (h : aclheap) (c : cap) (acl : list cap) (pos : Z) (np : Z) (n : cap)
    : option (Z * aclheap * list cap) :=
  r ← acl_access h c acl ACL_MOD;
  if r <? 0 then Some (r, h, acl)
  else
    w ← acl_getpos h acl pos;
    match w with
    | PosErr r => Some (r, h, acl)
    | _ =>
        if (pos =? 0) && negb (c_valid n && (c_perm n =? ACL_ALL))
        then Some (- E_ACL_INVALID, h, acl)
        else if negb (np =? 0) && c_valid n then
          if c_isptr n then Some (- E_ACL_INVALID, h, acl)
          else let '(h', acl') := acl_store h acl w n in Some (0, h', acl')
        else let '(h', acl') := acl_store h acl w cap_null in Some (0, h', acl')
    end.

#[global] Arguments acl_access : simpl never.
#[global] Arguments acl_getpos : simpl never.
#[global] Arguments acl_store : simpl never.
#[global] Arguments cl_list : simpl never.
#[global] Arguments cl_len : simpl never.

(** ** Reference specification of the access check *)

(** [a] grants [perm] to a holder of [c]. *)
Definition grants (c : cap) (perm : Z) (a : cap) : bool := c_valid a && cap_matches c a perm.

(** Extension arrays exist, are as long as recorded and hold no pointers. *)
Definition acl_wf (h : aclheap) (acl : list cap) : Prop :=
  Forall (fun a => c_valid a = true -> c_isptr a = true ->
            exists l, acl_ext h a = Some l /\ Forall (fun b => c_isptr b = false) l) acl.

(** Every entry the check looks at, in order. *)
Definition acl_entries (h : aclheap) (acl : list cap) : list cap :=
  acl ≫= fun a =>
    (if c_valid a && c_isptr a then default [] (acl_ext h a) else []) ++ [a].

Definition acl_access_ref (h : aclheap) (c : cap) (acl : list cap) (perm : Z) : Z :=
  if negb (c_valid c) then - E_CAP_INVALID
  else if negb (Z.land perm (c_perm c) =? perm) then - E_CAP_INSUFF
  else if existsb (grants c perm) (acl_entries h acl) then 0 else - E_CAP_INSUFF.

(** ** Lemmas *)

Lemma memeq_spec a b n : memeq a b n = true <-> take (Z.to_nat n) a = take (Z.to_nat n) b.
Proof. unfold memeq. apply bool_decide_eq_true. Qed.

Lemma memeq_refl a n : memeq a a n = true.
Proof. by apply memeq_spec. Qed.

Lemma memeq_trans a b c n m :
  n <= m -> memeq a b n = true -> memeq b c m = true -> memeq a c n = true.
Proof.
  rewrite !memeq_spec. intros Hnm Hab Hbc. rewrite Hab.
  apply (f_equal (take (Z.to_nat n))) in Hbc. rewrite !take_take in Hbc.
  by replace (Z.to_nat n `min` Z.to_nat m)%nat with (Z.to_nat n) in Hbc by lia.
Qed.

Lemma perm_trans p q r : Z.land p q = p -> Z.land q r = q -> Z.land p r = p.
Proof. intros Hpq Hqr. rewrite <- Hpq at 1. rewrite <- Z.land_assoc, Hqr. done. Qed.

Lemma cap_dominates_spec c1 c2 :
  cap_dominates c1 c2 = true <->
  c_valid c1 = true /\ c_isptr c1 = false /\ c_valid c2 = true /\ c_isptr c2 = false /\
  c_len c1 <= c_len c2 /\ Z.land (c_perm c2) (c_perm c1) = c_perm c2 /\
  memeq (c_name c1) (c_name c2) (c_len c1) = true.
Proof.
  unfold cap_dominates.
  destruct (c_valid c1), (c_isptr c1), (c_valid c2), (c_isptr c2); cbn; try naive_solver.
  destruct (Z.ltb_spec (c_len c2) (c_len c1)); cbn; [naive_solver lia|].
  destruct (Z.eqb_spec (Z.land (c_perm c2) (c_perm c1)) (c_perm c2)); cbn; naive_solver.
Qed.

Lemma cap_matches_mono c1 c2 a perm :
  cap_dominates c1 c2 = true -> cap_matches c2 a perm = true -> cap_matches c1 a perm = true.
Proof.
  rewrite cap_dominates_spec. intros (_ & _ & _ & _ & Hlen & _ & Hname).
  unfold cap_matches. rewrite !andb_true_iff, !Z.leb_le.
  intros [[Hp Hl] Hn]. split_and!; [done|lia|].
  eapply memeq_trans; [|exact Hname|exact Hn]. done.
Qed.

Lemma acl_scan_mono sub1 sub2 c1 c2 perm acl r :
  cap_dominates c1 c2 = true ->
  (forall a r, sub2 a = Some r -> exists r', sub1 a = Some r' /\ (r = 0 -> r' = 0)) ->
  acl_scan sub2 c2 perm acl = Some r ->
  exists r', acl_scan sub1 c1 perm acl = Some r' /\ (r = 0 -> r' = 0).
Proof.
  intros Hdom Hsub. induction acl as [|a acl IH]; cbn; [intros [= <-]; eauto|].
  destruct (c_valid a); [|exact IH].
  destruct (c_isptr a); cbn.
  - destruct (sub2 a) as [r2|] eqn:E2; cbn; [|done].
    destruct (Hsub a r2 E2) as (r1 & -> & Hr). cbn.
    destruct (Z.eqb_spec r2 0) as [->|Hr2].
    + rewrite Hr by done. cbn. eauto.
    + destruct (r1 =? 0); [eauto|].
      destruct (cap_matches c2 a perm) eqn:Em.
      * rewrite (cap_matches_mono _ _ _ _ Hdom Em). eauto.
      * destruct (cap_matches c1 a perm); eauto.
  - destruct (cap_matches c2 a perm) eqn:Em.
    + rewrite (cap_matches_mono _ _ _ _ Hdom Em). eauto.
    + destruct (cap_matches c1 a perm); eauto.
Qed.

Lemma acl_access_fuel_mono fuel h c1 c2 acl perm r :
  cap_dominates c1 c2 = true ->
  Z.land perm (c_perm c2) = perm ->
  acl_access_fuel fuel h c2 acl perm = Some r ->
  exists r', acl_access_fuel fuel h c1 acl perm = Some r' /\ (r = 0 -> r' = 0).
Proof.
  intros Hdom Hperm. pose proof Hdom as (Hv1 & _ & Hv2 & _ & _ & Hp & _)%cap_dominates_spec.
  pose proof (perm_trans _ _ _ Hperm Hp) as Hperm1.
  revert acl r. induction fuel as [|fuel IH]; intros acl r; [done|]. cbn.
  rewrite Hv1, Hv2, Hperm, Hperm1, Z.eqb_refl. cbn.
  apply acl_scan_mono; [done|]. intros a r2. destruct (acl_ext h a); cbn; [apply IH|done].
Qed.

Lemma acl_scan_spec sub (g : cap -> bool) c perm acl :
  Forall (fun a => c_valid a = true -> c_isptr a = true ->
            sub a = Some (if g a then 0 else - E_CAP_INSUFF)) acl ->
  acl_scan sub c perm acl =
    Some (if existsb (fun a => c_valid a && (c_isptr a && g a || cap_matches c a perm)) acl
          then 0 else - E_CAP_INSUFF).
Proof.
  induction 1 as [|a acl Ha _ IH]; cbn; [done|].
  destruct (c_valid a); cbn; [|done].
  destruct (c_isptr a); cbn.
  - rewrite Ha by done. cbn. destruct (g a); cbn; [done|].
    destruct (cap_matches c a perm); done.
  - destruct (cap_matches c a perm); done.
Qed.

Lemma existsb_bind {A B} (f : B -> bool) (g : A -> list B) (l : list A) :
  existsb f (l ≫= g) = existsb (fun a => existsb f (g a)) l.
Proof.
  induction l as [|a l IH]; cbn; [done|].
  rewrite existsb_app. f_equal. exact IH.
Qed.

Lemma existsb_ext_Forall {A} (f g : A -> bool) (l : list A) :
  Forall (fun a => f a = g a) l -> existsb f l = existsb g l.
Proof. induction 1; cbn; congruence. Qed.

Lemma acl_access_noptr fuel h c acl perm :
  Forall (fun b => c_isptr b = false) acl ->
  acl_access_fuel (S fuel) h c acl perm =
    Some (if negb (c_valid c) then - E_CAP_INVALID
          else if negb (Z.land perm (c_perm c) =? perm) then - E_CAP_INSUFF
          else if existsb (grants c perm) acl then 0 else - E_CAP_INSUFF).
Proof.
  intros Hnp. cbn. destruct (c_valid c); cbn; [|done].
  destruct (Z.land perm (c_perm c) =? perm); cbn; [|done].
  rewrite (acl_scan_spec _ (fun _ => false)).
  - rewrite (existsb_ext_Forall _ (grants c perm)); [done|]. apply Forall_forall. intros a _.
    unfold grants. rewrite andb_false_r. done.
  - eapply Forall_impl; [exact Hnp|]. intros a Ha _ Hp. congruence.
Qed.

(** The access check computes its reference specification: every branch. *)
Lemma acl_access_ok h c acl perm :
  acl_wf h acl -> acl_access h c acl perm = Some (acl_access_ref h c acl perm).
Proof.
  intros Hwf. unfold acl_access, acl_access_ref. remember 1%nat as f eqn:Hf. cbn.
  destruct (c_valid c) eqn:Hv; cbn; [|done].
  destruct (Z.land perm (c_perm c) =? perm) eqn:Hp; cbn; [|done].
  rewrite (acl_scan_spec _ (fun a => existsb (grants c perm) (default [] (acl_ext h a)))).
  - unfold acl_entries. rewrite existsb_bind.
    match goal with |- Some (if existsb ?f _ then _ else _) = Some (if existsb ?g _ then _ else _) =>
      rewrite (existsb_ext_Forall f g); [done|] end.
    apply Forall_forall. intros a _.
    rewrite existsb_app. unfold grants at 3. cbn [existsb]. rewrite orb_false_r.
    destruct (c_valid a); cbn; [|done]. destruct (c_isptr a); done.
  - eapply Forall_impl; [exact Hwf|]. cbn. intros a Ha Hva Hpa.
    destruct (Ha Hva Hpa) as (l & -> & Hl). cbn. subst f.
    rewrite acl_access_noptr by done. rewrite Hv, Hp. done.
Qed.

(** The overlaid fields read back what [acl_setsize] stored. *)
Lemma cl_len_ptr_name pm v ip ln c len addr :
  0 <= len < 65536 -> cl_len (mkCap pm v ip ln (ptr_name c len addr)) = len.
Proof.
  intros H. unfold cl_len, name_byte, ptr_name. cbn.
  pose proof (Z.div_mod len 256 ltac:(lia)).
  rewrite (Z.mod_small (len / 256)); [lia|].
  split; [apply Z.div_pos; lia|apply Z.div_lt_upper_bound; lia].
Qed.

(** Split a number into its low byte and the rest. *)
Ltac split_byte x := pose proof (Z.div_mod x 256 ltac:(lia)); pose proof (Z.mod_pos_bound x 256 ltac:(lia)).

Lemma cl_list_ptr_name pm v ip ln c len addr :
  0 <= addr < 2 ^ 32 -> cl_list (mkCap pm v ip ln (ptr_name c len addr)) = addr.
Proof.
  intros H. unfold cl_list, name_byte, ptr_name. cbn.
  split_byte addr.
  replace (addr / 65536) with (addr / 256 / 256) by (rewrite Z.div_div by lia; reflexivity).
  replace (addr / 16777216) with (addr / 256 / 256 / 256) by (rewrite !Z.div_div by lia; reflexivity).
  split_byte (addr / 256). split_byte (addr / 256 / 256). split_byte (addr / 256 / 256 / 256).
  assert (addr / 256 / 256 / 256 / 256 = 0).
  { rewrite !Z.div_div by lia. apply Z.div_small. lia. }
  lia.
Qed.

Lemma last_set_last acl le le' : last acl = Some le -> last (set_last acl le') = Some le'.
Proof.
  intros H. destruct acl as [|a acl _] using rev_ind; [done|].
  unfold set_last. rewrite length_app. cbn.
  replace (length acl + 1 - 1)%nat with (length acl) by lia.
  rewrite insert_app_r_alt by lia. rewrite Nat.sub_diag. cbn. by rewrite last_snoc.
Qed.

Lemma set_last_split acl le le' :
  last acl = Some le -> exists k, acl = k ++ [le] /\ set_last acl le' = k ++ [le'].
Proof.
  intros H. destruct acl as [|a acl _] using rev_ind; [done|].
  rewrite last_snoc in H. injection H as ->. exists acl. split; [done|].
  unfold set_last. rewrite length_app. cbn.
  replace (length acl + 1 - 1)%nat with (length acl) by lia.
  rewrite insert_app_r_alt by lia. by rewrite Nat.sub_diag.
Qed.

(** What [acl_setsize] leaves when it grows a list that has no extension. *)
Lemma acl_setsize_grow h acl le size mem :
  last acl = Some le -> acl_lastptr acl = None ->
  zlen acl < size <= zlen acl + 512 -> mem <> 0 ->
  acl_setsize h acl size mem =
    Some (0, <[mem := le :: repeat cap_null (Z.to_nat (size - zlen acl) - 1)]> h,
          set_last acl (mkCap (c_perm le) true true (c_len le)
                          (ptr_name le (size - zlen acl) mem))).
Proof.
  intros Hlast Hnp Hsize Hmem. unfold acl_setsize. rewrite Hlast. cbn.
  rewrite (proj2 (Z.leb_gt _ _)) by lia.
  rewrite (proj2 (Z.ltb_ge _ _)) by (change (NBPG / 8) with 512; lia).
  rewrite (proj2 (Z.eqb_neq _ _)) by done. rewrite Hnp. cbn.
  destruct (Z.to_nat (size - zlen acl)) as [|n] eqn:E; [lia|].
  cbn. by rewrite Nat.sub_0_r.
Qed.

Lemma acl_getpos_top fuel h mk acl pos :
  acl_lastptr acl = None ->
  acl_getpos_fuel (S fuel) h mk acl pos =
    Some (if pos <? zlen acl then mk pos else PosErr (- E_CAP_INVALID)).
Proof.
  intros H. cbn. rewrite H. rewrite bool_decide_eq_false_2 by (intros [? ?]; congruence).
  cbn. rewrite Z.sub_0_r. by destruct (pos <? zlen acl).
Qed.

Lemma acl_getpos_Top h acl pos i : acl_getpos h acl pos = Some (PosTop i) -> i = pos.
Proof.
  unfold acl_getpos. remember 1%nat as f eqn:Hf. cbn.
  destruct (pos <? _); [by intros [= ->]|].
  destruct (acl_lastptr acl); [|done]. destruct (acl_ext h c); cbn; [|done].
  subst f. cbn. destruct (_ <? _); [done|]. destruct (acl_lastptr l); [|done].
  by destruct (acl_ext h c0).
Qed.

Lemma acl_lastptr_in acl le : acl_lastptr acl = Some le -> le ∈ acl /\ c_valid le = true /\ c_isptr le = true.
Proof.
  unfold acl_lastptr. destruct (last acl) as [x|] eqn:E; [|done]. destruct (c_valid x && c_isptr x) eqn:Ex; [|done].
  intros [= <-]. apply andb_true_iff in Ex as [? ?]. split; [|done]. by apply last_Some_elem_of.
Qed.

Lemma acl_getpos_total h acl pos : acl_wf h acl -> is_Some (acl_getpos h acl pos).
Proof.
  intros Hwf. unfold acl_getpos. remember 1%nat as f eqn:Hf. cbn. destruct (pos <? _); [eauto|].
  destruct (acl_lastptr acl) as [le|] eqn:El; [|eauto]. destruct (acl_lastptr_in _ _ El) as (Hin & Hv & Hp).
  destruct (proj1 (Forall_forall _ _) Hwf le Hin Hv Hp) as (l & -> & Hl). cbn. subst f. rewrite acl_getpos_top; [eauto|].
  destruct (acl_lastptr l) as [le'|] eqn:El'; [|done]. destruct (acl_lastptr_in _ _ El') as (Hin' & _ & Hp').
  by rewrite (proj1 (Forall_forall _ _) Hl le' Hin') in Hp'.
Qed.

Lemma acl_getpos_err h acl pos e : acl_getpos h acl pos = Some (PosErr e) -> e < 0.
Proof.
  unfold acl_getpos. remember 1%nat as f eqn:Hf. cbn. destruct (pos <? _); [done|].
  destruct (acl_lastptr acl) as [le|]; [|intros [= <-]; elia]. destruct (acl_ext h le) as [l|]; cbn; [|done]. subst f. cbn.
  destruct (_ <? _); [done|]. destruct (acl_lastptr l) as [le'|]; [|intros [= <-]; elia]. by destruct (acl_ext h le').
Qed.

(** The three results of the access check. *)
Lemma acl_access_result h c acl perm r :
  acl_access h c acl perm = Some r -> r = 0 \/ r = - E_CAP_INVALID \/ r = - E_CAP_INSUFF.
Proof.
  unfold acl_access. remember 1%nat as f eqn:Hf. cbn.
  destruct (c_valid c); cbn; [|intros [= <-]; auto].
  destruct (_ =? perm); cbn; [|intros [= <-]; auto].
  induction acl as [|a acl IH]; cbn; [intros [= <-]; auto|].
  destruct (c_valid a); [|exact IH].
  destruct (if c_isptr a then _ else _) as [r'|]; cbn; [|done].
  destruct (r' =? 0); [intros [= <-]; auto|].
  destruct (cap_matches c a perm); [intros [= <-]; auto|exact IH].
Qed.

Lemma acl_access_mono h c1 c2 acl perm :
  cap_dominates c1 c2 = true -> acl_access h c2 acl perm = Some 0 ->
  acl_access h c1 acl perm = Some 0.
Proof.
  intros Hdom H.
  assert (Z.land perm (c_perm c2) = perm) as Hp.
  { revert H. unfold acl_access. cbn.
    destruct (c_valid c2); cbn; [|intros [=]].
    destruct (Z.eqb_spec (Z.land perm (c_perm c2)) perm); cbn; [done|intros [=]]. }
  destruct (acl_access_fuel_mono _ _ _ _ _ _ _ Hdom Hp H) as (r & Hr & Hz).
  unfold acl_access. rewrite Hr, Hz by done. done.
Qed.

(** Entry 0 is valid and carries every permission. *)
Definition owner_ok (acl : list cap) : Prop :=
  exists a rest, acl = a :: rest /\ c_valid a = true /\ c_perm a = ACL_ALL.

Lemma acl_store_owner h acl w n :
  owner_ok acl ->
  (forall i, w = PosTop i -> 0 <= i /\ (i = 0 -> c_valid n = true /\ c_perm n = ACL_ALL)) ->
  owner_ok (snd (acl_store h acl w n)).
Proof.
  intros (a & rest & -> & Hv & Hp) Hw. destruct w as [i| |]; unfold acl_store; cbn; [|by exists a, rest..].
  destruct (Hw i eq_refl) as [Hi H0].
  destruct (Z.to_nat i) as [|k] eqn:E; cbn; [|by exists a, (<[k:=n]> rest)].
  exists n, rest. destruct H0; [lia|done].
Qed.

(** ** Properties *)

(** C20: the access check returns on every well-formed list and computes its
    specification: [-E_CAP_INVALID] for an invalid capability,
    [-E_CAP_INSUFF] when the capability itself lacks the permission, 0 exactly
    when some entry of the list or of its extension grants it. *)
Theorem acl_access_correct h c acl perm :
  acl_wf h acl -> acl_access h c acl perm = Some (acl_access_ref h c acl perm).
Proof. apply acl_access_ok. Qed.

(** Authority is monotone in dominance: whatever a capability may do, a
    capability that dominates it may do too (on any list, well-formed or not). *)
Theorem acl_access_monotone h c1 c2 acl perm :
  cap_dominates c1 c2 = true -> acl_access h c2 acl perm = Some 0 ->
  acl_access h c1 acl perm = Some 0.
Proof. apply acl_access_mono. Qed.

(** Dominance is a partial order on valid non-pointer capabilities: it is
    reflexive and transitive, and two capabilities that dominate each other
    have the same permissions, the same length and the same name bytes up to
    that length. *)
Theorem cap_dominates_order :
  (forall c, c_valid c = true -> c_isptr c = false -> cap_dominates c c = true) /\
  (forall a b c, cap_dominates a b = true -> cap_dominates b c = true ->
     cap_dominates a c = true) /\
  (forall a b, cap_dominates a b = true -> cap_dominates b a = true ->
     c_perm a = c_perm b /\ c_len a = c_len b /\
     take (Z.to_nat (c_len a)) (c_name a) = take (Z.to_nat (c_len a)) (c_name b)).
Proof.
  split_and!.
  - intros c Hv Hp. apply cap_dominates_spec. rewrite Z.land_diag, memeq_refl. done.
  - intros a b c. rewrite !cap_dominates_spec.
    intros (?&?&?&?&Hl1&Hp1&Hn1) (?&?&?&?&Hl2&Hp2&Hn2). split_and!; [done..|lia| |].
    + eapply perm_trans; eassumption.
    + eapply memeq_trans; [|exact Hn1|exact Hn2]. done.
  - intros a b. rewrite !cap_dominates_spec.
    intros (?&?&?&?&Hl1&Hp1&Hn1%memeq_spec) (?&?&?&?&Hl2&Hp2&_).
    split_and!; [|lia|done]. rewrite <- Hp2, Z.land_comm. done.
Qed.

(** C35: changing an entry is guarded and keeps the list owned.  On a list whose
    extension arrays are as recorded, with the new entry passed by a non-null
    pointer, [acl_mod] returns.  It reports every refusal with the list
    untouched; when it succeeds, the caller's capability has [ACL_MOD] access,
    the entry at the position, in the array or in its extension, is the new
    capability (the null one for an invalid capability) and no other entry has
    changed; and entry 0 is never left without all permissions. *)
Theorem acl_mod_guarded h c acl pos np n :
  owner_ok acl -> acl_wf h acl -> 0 <= pos -> np <> 0 ->
  exists r h' acl', acl_mod h c acl pos np n = Some (r, h', acl') /\ owner_ok acl' /\
    (r < 0 /\ h' = h /\ acl' = acl \/
     r = 0 /\ acl_access h c acl ACL_MOD = Some 0 /\ exists w, acl_getpos h acl pos = Some w /\ (forall e, w <> PosErr e) /\
       (h', acl') = acl_store h acl w (if c_valid n then n else cap_null)).
Proof.
  intros Hown Hwf Hpos Hnp. unfold acl_mod. rewrite acl_access_ok by done. cbn.
  pose proof (acl_access_result _ _ _ _ _ (acl_access_ok h c acl ACL_MOD Hwf)) as Hr. destruct (Z.ltb_spec (acl_access_ref h c acl ACL_MOD) 0) as [|H0].
  { eexists _, h, acl. split; [done|]. split; [done|]. by left. }
  assert (acl_access_ref h c acl ACL_MOD = 0) as -> by (destruct Hr as [?|[?|?]]; elia).
  destruct (acl_getpos_total h acl pos Hwf) as [w Ew]. rewrite Ew. cbn.
  assert (forall i, w = PosTop i -> i = pos) as Hw by (intros i ->; eapply acl_getpos_Top; exact Ew).
  rewrite (proj2 (Z.eqb_neq np 0)) by done. cbn [negb andb].
  destruct w as [i|p i|e]; [| |eexists e, h, acl; split_and!; [done|done|left; split; [by eapply acl_getpos_err|done]]].
  all: destruct ((pos =? 0) && negb (c_valid n && (c_perm n =? ACL_ALL))) eqn:E0;
    [eexists _, h, acl; split_and!; [done|done|left; split; [elia|done]]|].
  all: destruct (c_valid n) eqn:Hvn; [destruct (c_isptr n); [eexists _, h, acl; split_and!; [done|done|left; split; [elia|done]]|]|].
  all: match goal with |- context [acl_store ?h0 ?l0 ?w ?x] =>
         pose proof (acl_store_owner h0 l0 w x Hown) as Hst; destruct (acl_store h0 l0 w x) as [h1 acl1] eqn:Es end.
  all: eexists 0, h1, acl1; split; [reflexivity|]; split; [apply Hst|right; split_and!; [done|done|]; eexists; split_and!; [reflexivity|done|by rewrite Es]].
  all: try (intros j Hj; discriminate Hj).
  all: pose proof (Hw i eq_refl) as ->; intros j [= <-]; split; [done|]; intros ->.
  all: rewrite Z.eqb_refl in E0; cbn in E0; try discriminate E0.
  split; [done|]. by apply Z.eqb_eq, negb_false_iff.
Qed.

(** Where a position lands in an extended list.  Positions below the last
    one address the array; the position of the pointer entry itself is
    refused; entry [i] of the extension is addressed by the position
    [acl_len + i], one more than the index at which [acl_read] reports it. *)
Theorem acl_getpos_extended h acl le l pos :
  acl_lastptr acl = Some le -> acl_ext h le = Some l -> acl_lastptr l = None ->
  0 <= pos < 65536 -> zlen acl < 65536 -> zlen l < 65536 ->
  acl_getpos h acl pos =
    Some (if pos <? zlen acl - 1 then PosTop pos
          else if pos =? zlen acl - 1 then PosErr (- E_CAP_INVALID)
          else if pos <? zlen acl + zlen l then PosExt (cl_list le) (pos - zlen acl)
          else PosErr (- E_CAP_INVALID)).
Proof.
  intros Hle Hl Hnp Hpos Hacl Hll. unfold acl_getpos. remember 1%nat as f eqn:Hf. cbn.
  rewrite Hle. rewrite bool_decide_eq_true_2 by eauto. cbn.
  destruct (Z.ltb_spec pos (zlen acl - 1)); [done|].
  rewrite Hl. cbn. subst f. rewrite acl_getpos_top by done.
  destruct (Z.eqb_spec pos (zlen acl - 1)) as [->|Hne].
  - replace (zlen acl - 1 - zlen acl) with (-1) by lia. change (u32 (-1)) with 4294967295.
    rewrite (proj2 (Z.ltb_ge _ _)) by lia. done.
  - pose proof (zlen_nonneg acl). rewrite u32_small by lia.
    destruct (Z.ltb_spec (pos - zlen acl) (zlen l)); destruct (Z.ltb_spec pos (zlen acl + zlen l));
      (done || lia).
Qed.

(** growing a list to [size] and reading it back: the old entries come
    first, in order, followed by null entries up to [size - 1] entries in all
    (one slot of the request goes to the pointer). *)
Theorem acl_setsize_read h acl size mem :
  acl <> [] -> acl_lastptr acl = None ->
  zlen acl < size <= zlen acl + 512 -> 0 < mem < 2 ^ 32 ->
  exists h' acl', acl_setsize h acl size mem = Some (0, h', acl') /\
    acl_read h' acl' size = Some (acl ++ repeat cap_null (Z.to_nat (size - zlen acl - 1))).
Proof.
  intros Hne Hnp Hsize Hmem.
  destruct (last acl) as [le|] eqn:Hlast; [|by apply last_None in Hlast].
  do 2 eexists. split; [apply acl_setsize_grow; (done || lia)|].
  set (le' := mkCap _ _ _ _ _).
  destruct (set_last_split acl le le' Hlast) as (k & Hk & ->).
  assert (acl_lastptr (k ++ [le']) = Some le') as Hlp.
  { unfold acl_lastptr. rewrite last_snoc. done. }
  assert (zlen (k ++ [le']) = zlen acl) as Hlen by (subst acl; rewrite !zlen_app; done).
  assert (zlen acl = zlen k + 1) as Hk1 by (subst acl; rewrite zlen_app; done).
  unfold acl_read. rewrite Hlp, Hlen. rewrite bool_decide_eq_true_2 by eauto. cbn.
  replace (size `min` (zlen acl - 1)) with (zlen k) by lia.
  rewrite (proj2 (Z.leb_gt _ _)) by lia.
  assert (cl_list le' = mem) as Hcl by (unfold le'; rewrite cl_list_ptr_name; lia).
  assert (cl_len le' = size - zlen acl) as Hcn.
  { unfold le'. rewrite cl_len_ptr_name; [done|lia]. }
  rewrite Hcl, lookup_insert_eq, Hcn. cbn.
  replace (Z.min _ _) with (size - zlen acl) by lia.
  rewrite zlen_cons. unfold zlen at 2. rewrite repeat_length.
  rewrite (proj2 (Z.leb_le _ _)) by lia. f_equal.
  replace (Z.to_nat (zlen k)) with (length k) by (unfold zlen; lia).
  rewrite take_app_length. subst acl. rewrite <- app_assoc. cbn. f_equal.
  destruct (Z.to_nat (size - zlen (k ++ [le]))) as [|m] eqn:Em; [lia|]. cbn. f_equal.
  rewrite Nat.sub_0_r. rewrite take_ge by (rewrite repeat_length; done). f_equal. lia.
Qed.

(** [acl_add] only ever uses the first slot: it stores there if that slot
    is invalid and reports [-E_ACL_SIZE] otherwise, however many later slots
    are free. *)
Theorem acl_add_first_slot a rest len n :
  acl_add (a :: rest) len n =
    if (0 <? len) && negb (c_valid a) then (0, n :: rest) else (- E_ACL_SIZE, a :: rest).
Proof.
  unfold acl_add.
  assert (forall fuel i, c_valid a = true ->
            acl_add_loop (a :: rest) n i fuel = (- E_ACL_SIZE, a :: rest)) as Hloop.
  { intros fuel. induction fuel as [|fuel IH]; intros i Hv; cbn; [done|]. rewrite Hv. auto. }
  destruct (Z.ltb_spec 0 len) as [Hl|Hl]; cbn.
  - destruct (Z.to_nat len) as [|k] eqn:E; [lia|]. cbn.
    destruct (c_valid a) eqn:Hv; cbn; [by apply Hloop|done].
  - replace (Z.to_nat len) with 0%nat by lia. done.
Qed.

(** [acl_init] leaves every entry but the first as it was, so a capability
    that a later entry grants access to still passes the check afterwards. *)
Theorem acl_init_keeps_later_entries h a rest len c perm :
  acl_wf h (a :: rest) ->
  c_valid c = true -> Z.land perm (c_perm c) = perm ->
  existsb (grants c perm) rest = true ->
  acl_access h c (acl_init (a :: rest) len) perm = Some 0.
Proof.
  intros Hwf Hv Hp Hg. apply Forall_cons in Hwf as [Ha Hwf].
  assert (acl_wf h (acl_init (a :: rest) len)) as Hwf'.
  { unfold acl_init. destruct (0 <? len); constructor; done. }
  rewrite acl_access_ok by done. unfold acl_access_ref.
  rewrite Hv, Hp, Z.eqb_refl. cbn [negb].
  assert (existsb (grants c perm) (acl_entries h (acl_init (a :: rest) len)) = true) as ->; [|done].
  unfold acl_entries. rewrite existsb_bind. apply existsb_exists in Hg as (b & Hb & Hgb).
  apply existsb_exists. exists b. split.
  - unfold acl_init. destruct (0 <? len); cbn; auto.
  - rewrite existsb_app. cbn. rewrite Hgb. by rewrite orb_true_r.
Qed.

(** ** Witnesses and concrete runs *)

Definition ex_root : cap := mkCap 7 true false 0 (repeat 0 7).
Definition ex_disk : cap := mkCap 7 true false 1 [128; 0; 0; 0; 0; 0; 0].
Definition ex_disk1 : cap := mkCap 1 true false 2 [128; 1; 0; 0; 0; 0; 0].
Definition ex_net : cap := mkCap 7 true false 1 [192; 0; 0; 0; 0; 0; 0].
(** A two-entry list extended at 0xf0100000 with two more entries. *)
Definition ex_ptr : cap := mkCap 7 true true 1 (ptr_name ex_disk 2 0xf0100000).
Definition ex_heap : aclheap := {[ 0xf0100000 := [ex_disk; ex_disk1] ]}.
Definition ex_acl : list cap := [ex_root; ex_ptr].

Lemma ex_wf : acl_wf ex_heap ex_acl.
Proof.
  repeat constructor; intros H1 H2; try discriminate H2.
  exists [ex_disk; ex_disk1]. split; [vm_compute; reflexivity|]. repeat constructor.
Defined.

Lemma acl_access_correct_witness : acl_access ex_heap ex_disk1 ex_acl 1 = Some 0.
Proof. exact (eq_trans (acl_access_correct ex_heap ex_disk1 ex_acl 1 ex_wf) eq_refl). Defined.

Lemma acl_access_monotone_witness : acl_access ex_heap ex_disk ex_acl 1 = Some 0.
Proof. apply (acl_access_monotone ex_heap ex_disk ex_disk1 ex_acl 1); vm_compute; reflexivity. Defined.

Lemma acl_mod_guarded_witness :
  exists h acl, acl_mod ex_heap ex_root ex_acl 3 1 ex_net = Some (0, h, acl) /\ owner_ok acl /\ h !! 0xf0100000 = Some [ex_disk; ex_net].
Proof.
  destruct (acl_mod_guarded ex_heap ex_root ex_acl 3 1 ex_net) as (r & h & acl & E & Ho & H); [exists ex_root, [ex_ptr]; repeat split|exact ex_wf|lia|lia|].
  assert ((fun x => fst (fst x)) <$> acl_mod ex_heap ex_root ex_acl 3 1 ex_net = Some 0) as Er by (vm_compute; reflexivity).
  rewrite E in Er. injection Er as ->. exists h, acl. split; [exact E|]. split; [exact Ho|].
  destruct H as [[H _]|(_ & _ & w & Ew & _ & Es)]; [lia|]. vm_compute in Ew. injection Ew as <-. vm_compute in Es. injection Es as -> _. reflexivity.
Defined.

Lemma acl_getpos_extended_witness :
  acl_getpos ex_heap ex_acl 1 = Some (PosErr (- E_CAP_INVALID)) /\
  acl_getpos ex_heap ex_acl 2 = Some (PosExt 0xf0100000 0).
Proof.
  split.
  - rewrite (acl_getpos_extended ex_heap ex_acl ex_ptr [ex_disk; ex_disk1] 1);
      [reflexivity|reflexivity|vm_compute; reflexivity|reflexivity|lia|reflexivity|reflexivity].
  - rewrite (acl_getpos_extended ex_heap ex_acl ex_ptr [ex_disk; ex_disk1] 2);
      [reflexivity|reflexivity|vm_compute; reflexivity|reflexivity|lia|reflexivity|reflexivity].
Defined.

Lemma acl_setsize_read_witness :
  exists h' acl', acl_setsize ∅ [ex_root; ex_disk] 4 0xf0100000 = Some (0, h', acl') /\
    acl_read h' acl' 4 = Some [ex_root; ex_disk; cap_null].
Proof.
  apply (acl_setsize_read ∅ [ex_root; ex_disk] 4 0xf0100000); [discriminate|reflexivity|..].
  all: unfold zlen; cbn; lia.
Defined.

Lemma acl_init_keeps_later_entries_witness :
  acl_access ∅ ex_net (acl_init [ex_root; ex_net] 2) ACL_W = Some 0.
Proof.
  apply (acl_init_keeps_later_entries ∅ ex_root [ex_net] 2 ex_net ACL_W); try reflexivity.
  repeat constructor; intros _ H; discriminate H.
Defined.

(** After growing [[root; disk]] the pointer entry keeps the permissions, the
    length and the first name byte of the entry it replaced, and the rest of its
    name is the length and the address of the extension.  A capability that
    spells those bytes passes the check although no entry was ever added for
    it. *)
Example acl_setsize_spurious_grant :
  let le := mkCap 7 true false 7 [128; 9; 9; 9; 9; 9; 9] in
  let c := mkCap 1 true false 7 [128; 2; 0; 0; 0; 16; 240] in
  acl_access ∅ c [ex_net; le] 1 = Some (- E_CAP_INSUFF) /\
  match acl_setsize ∅ [ex_net; le] 4 0xf0100000 with
  | Some (r, h, acl) => r = 0 /\ acl_access h c acl 1 = Some 0
  | None => False
  end.
Proof. vm_compute. auto. Qed.

(** A null pointer for the new entry defeats the check on entry 0: the
    capability read at address 0 passes it and the entry is then cleared. *)
Example acl_mod_null_clears_owner :
  match acl_mod ∅ ex_root [ex_root; cap_null] 0 0 ex_root with
  | Some (r, _, acl) => r = 0 /\ acl = [cap_null; cap_null]
  | None => False
  end.
Proof. vm_compute. auto. Qed.
