(* ===== verification/EnvTable.v ===== *)
(** * The environment table and the capability system calls

    [struct Env], [struct Uenv] and the inline accessors of sys/xok/env.h
    ([env_id2env], [env_getcap]), [env_access] of sys/kern/env.c, and the two
    calls that move capabilities between environments, [sys_forge] and
    [sys_self_acquire] of sys/kern/capability.c. *)

From Stdlib Require Import ZArith Lia.
From stdpp Require Import base numbers option list gmap relations.
From S2P Require Import Prelude Capability.

(** ** Data *)

Definition LOG2NENV := 10.
Definition NENV := 1024.
Definition envidx (envid : Z) : Z := Z.land envid (NENV - 1).

Definition U_SLEEP := 0.
Definition U_RUN := 1.
Definition ENV_FREE := 0.
Definition ENV_OK := 1.
Definition ENV_DEAD := 2.
Definition ENV_QXX := 3.
Definition MAX_CAPNO := 19.
Definition XOK_IPC_BLOCKED := 0.
Definition XOK_IPC_ALLOWED := 1.
Definition XOK_IPC_TEMP_BLOCKED := 2.

Record Trapframe := mkTf {
  tf_edi : Z; tf_esi : Z; tf_ebp : Z; tf_oesp : Z; tf_ebx : Z; tf_edx : Z; tf_ecx : Z;
  tf_eax : Z; tf_es : Z; tf_ds : Z; tf_eip : Z; tf_cs : Z; tf_eflags : Z; tf_esp : Z;
  tf_ss : Z }.

(** The user-writable u-area: the fields the kernel reads or writes. *)
Record Uenv := mkUenv {
  u_status : Z;
  u_donate : Z;
  u_ppc : Z;
  u_pred_tag : Z;
  u_entepilogue : Z;
  u_entprologue : Z;
  u_entipc1 : Z;
  u_entipc2 : Z;
  u_aenvid : Z;
  u_gkey : Z;
  u_gcap : cap;
  u_ipc1_extra_args : list Z;
  u_revoked_pages : Z }.

(** [env_u] is the physical page of the u-area (0 for a null pointer);
    [env_pd], [msgring], [env_pred] and [env_pred_pgs] are kernel addresses
    (0 for null). *)
Record Env := mkEnv {
  env_tf : Trapframe;
  env_allowipc1 : Z;
  env_allowipc2 : Z;
  env_id : Z;
  env_status : Z;
  env_qx : Z;
  env_u : Z;
  env_ticks : Z;
  env_quanta : gmap Z (list Z);
  env_pd : Z;
  env_ctxcnt : Z;
  msgring : Z;
  env_pred_pgs : Z;
  env_pred : Z;
  env_clen : Z;
  env_clist : list cap }.

Definition tf_zero : Trapframe := mkTf 0 0 0 0 0 0 0 0 0 0 0 0 0 0 0.

(** What [bzero (e, sizeof ( *e))] leaves. *)
Definition env_zero : Env :=
  mkEnv tf_zero 0 0 0 0 0 0 0 ∅ 0 0 0 0 0 0 (repeat cap_null (Z.to_nat MAX_CAPNO)).

Definition uenv_zero : Uenv := mkUenv 0 0 0 0 0 0 0 0 0 0 cap_null [] 0.

Definition set_clist (l : list cap) (e : Env) : Env :=
  mkEnv (env_tf e) (env_allowipc1 e) (env_allowipc2 e) (env_id e) (env_status e) (env_qx e)
    (env_u e) (env_ticks e) (env_quanta e) (env_pd e) (env_ctxcnt e) (msgring e)
    (env_pred_pgs e) (env_pred e) (env_clen e) l.

Definition set_aenvid (v : Z) (u : Uenv) : Uenv :=
  mkUenv (u_status u) (u_donate u) (u_ppc u) (u_pred_tag u) (u_entepilogue u)
    (u_entprologue u) (u_entipc1 u) (u_entipc2 u) v (u_gkey u) (u_gcap u)
    (u_ipc1_extra_args u) (u_revoked_pages u).

(** Field updates. *)
Definition set_env_tf (x : Trapframe) (e : Env) : Env :=
  mkEnv x (env_allowipc1 e) (env_allowipc2 e) (env_id e) (env_status e) (env_qx e) (env_u e)
    (env_ticks e) (env_quanta e) (env_pd e) (env_ctxcnt e) (msgring e) (env_pred_pgs e)
    (env_pred e) (env_clen e) (env_clist e).
Definition set_env_allowipc1 (x : Z) (e : Env) : Env :=
  mkEnv (env_tf e) x (env_allowipc2 e) (env_id e) (env_status e) (env_qx e) (env_u e) (env_ticks
    e) (env_quanta e) (env_pd e) (env_ctxcnt e) (msgring e) (env_pred_pgs e) (env_pred e)
    (env_clen e) (env_clist e).
Definition set_env_allowipc2 (x : Z) (e : Env) : Env :=
  mkEnv (env_tf e) (env_allowipc1 e) x (env_id e) (env_status e) (env_qx e) (env_u e) (env_ticks
    e) (env_quanta e) (env_pd e) (env_ctxcnt e) (msgring e) (env_pred_pgs e) (env_pred e)
    (env_clen e) (env_clist e).
Definition set_env_id (x : Z) (e : Env) : Env :=
  mkEnv (env_tf e) (env_allowipc1 e) (env_allowipc2 e) x (env_status e) (env_qx e) (env_u e)
    (env_ticks e) (env_quanta e) (env_pd e) (env_ctxcnt e) (msgring e) (env_pred_pgs e)
    (env_pred e) (env_clen e) (env_clist e).
Definition set_env_status (x : Z) (e : Env) : Env :=
  mkEnv (env_tf e) (env_allowipc1 e) (env_allowipc2 e) (env_id e) x (env_qx e) (env_u e)
    (env_ticks e) (env_quanta e) (env_pd e) (env_ctxcnt e) (msgring e) (env_pred_pgs e)
    (env_pred e) (env_clen e) (env_clist e).
Definition set_env_qx (x : Z) (e : Env) : Env :=
  mkEnv (env_tf e) (env_allowipc1 e) (env_allowipc2 e) (env_id e) (env_status e) x (env_u e)
    (env_ticks e) (env_quanta e) (env_pd e) (env_ctxcnt e) (msgring e) (env_pred_pgs e)
    (env_pred e) (env_clen e) (env_clist e).
Definition set_env_u (x : Z) (e : Env) : Env :=
  mkEnv (env_tf e) (env_allowipc1 e) (env_allowipc2 e) (env_id e) (env_status e) (env_qx e) x
    (env_ticks e) (env_quanta e) (env_pd e) (env_ctxcnt e) (msgring e) (env_pred_pgs e)
    (env_pred e) (env_clen e) (env_clist e).
Definition set_env_ticks (x : Z) (e : Env) : Env :=
  mkEnv (env_tf e) (env_allowipc1 e) (env_allowipc2 e) (env_id e) (env_status e) (env_qx e)
    (env_u e) x (env_quanta e) (env_pd e) (env_ctxcnt e) (msgring e) (env_pred_pgs e) (env_pred
    e) (env_clen e) (env_clist e).
Definition set_env_quanta (x : gmap Z (list Z)) (e : Env) : Env :=
  mkEnv (env_tf e) (env_allowipc1 e) (env_allowipc2 e) (env_id e) (env_status e) (env_qx e)
    (env_u e) (env_ticks e) x (env_pd e) (env_ctxcnt e) (msgring e) (env_pred_pgs e) (env_pred
    e) (env_clen e) (env_clist e).
Definition set_env_pd (x : Z) (e : Env) : Env :=
  mkEnv (env_tf e) (env_allowipc1 e) (env_allowipc2 e) (env_id e) (env_status e) (env_qx e)
    (env_u e) (env_ticks e) (env_quanta e) x (env_ctxcnt e) (msgring e) (env_pred_pgs e)
    (env_pred e) (env_clen e) (env_clist e).
Definition set_env_ctxcnt (x : Z) (e : Env) : Env :=
  mkEnv (env_tf e) (env_allowipc1 e) (env_allowipc2 e) (env_id e) (env_status e) (env_qx e)
    (env_u e) (env_ticks e) (env_quanta e) (env_pd e) x (msgring e) (env_pred_pgs e) (env_pred
    e) (env_clen e) (env_clist e).
Definition set_msgring (x : Z) (e : Env) : Env :=
  mkEnv (env_tf e) (env_allowipc1 e) (env_allowipc2 e) (env_id e) (env_status e) (env_qx e)
    (env_u e) (env_ticks e) (env_quanta e) (env_pd e) (env_ctxcnt e) x (env_pred_pgs e)
    (env_pred e) (env_clen e) (env_clist e).
Definition set_env_pred_pgs (x : Z) (e : Env) : Env :=
  mkEnv (env_tf e) (env_allowipc1 e) (env_allowipc2 e) (env_id e) (env_status e) (env_qx e)
    (env_u e) (env_ticks e) (env_quanta e) (env_pd e) (env_ctxcnt e) (msgring e) x (env_pred e)
    (env_clen e) (env_clist e).
Definition set_env_pred (x : Z) (e : Env) : Env :=
  mkEnv (env_tf e) (env_allowipc1 e) (env_allowipc2 e) (env_id e) (env_status e) (env_qx e)
    (env_u e) (env_ticks e) (env_quanta e) (env_pd e) (env_ctxcnt e) (msgring e) (env_pred_pgs
    e) x (env_clen e) (env_clist e).
Definition set_u_status (x : Z) (u : Uenv) : Uenv :=
  mkUenv x (u_donate u) (u_ppc u) (u_pred_tag u) (u_entepilogue u) (u_entprologue u) (u_entipc1
    u) (u_entipc2 u) (u_aenvid u) (u_gkey u) (u_gcap u) (u_ipc1_extra_args u) (u_revoked_pages
    u).
Definition set_u_donate (x : Z) (u : Uenv) : Uenv :=
  mkUenv (u_status u) x (u_ppc u) (u_pred_tag u) (u_entepilogue u) (u_entprologue u) (u_entipc1
    u) (u_entipc2 u) (u_aenvid u) (u_gkey u) (u_gcap u) (u_ipc1_extra_args u) (u_revoked_pages
    u).
Definition set_u_ppc (x : Z) (u : Uenv) : Uenv :=
  mkUenv (u_status u) (u_donate u) x (u_pred_tag u) (u_entepilogue u) (u_entprologue u)
    (u_entipc1 u) (u_entipc2 u) (u_aenvid u) (u_gkey u) (u_gcap u) (u_ipc1_extra_args u)
    (u_revoked_pages u).
Definition set_u_pred_tag (x : Z) (u : Uenv) : Uenv :=
  mkUenv (u_status u) (u_donate u) (u_ppc u) x (u_entepilogue u) (u_entprologue u) (u_entipc1 u)
    (u_entipc2 u) (u_aenvid u) (u_gkey u) (u_gcap u) (u_ipc1_extra_args u) (u_revoked_pages u).
Definition set_u_revoked_pages (x : Z) (u : Uenv) : Uenv :=
  mkUenv (u_status u) (u_donate u) (u_ppc u) (u_pred_tag u) (u_entepilogue u) (u_entprologue u)
    (u_entipc1 u) (u_entipc2 u) (u_aenvid u) (u_gkey u) (u_gcap u) (u_ipc1_extra_args u) x.

(** The table, the current environment of the CPU (an index, or none), the
    u-area pages and the page fault mode. *)
Record envtab := mkET {
  envs : gmap Z Env;
  curenv : option Z;
  uareas : gmap Z Uenv;
  page_fault_mode : Z }.

Definition set_envs (m : gmap Z Env) (s : envtab) : envtab :=
  mkET m (curenv s) (uareas s) (page_fault_mode s).
Definition set_curenv (c : option Z) (s : envtab) : envtab :=
  mkET (envs s) c (uareas s) (page_fault_mode s).
Definition set_uareas (m : gmap Z Uenv) (s : envtab) : envtab :=
  mkET (envs s) (curenv s) m (page_fault_mode s).
Definition set_pfm (m : Z) (s : envtab) : envtab :=
  mkET (envs s) (curenv s) (uareas s) m.

Definition upd_env (i : Z) (f : Env -> Env) : M envtab unit :=
  modify (fun s => set_envs (alter f i (envs s)) s).
Definition upd_uarea (p : Z) (f : Uenv -> Uenv) : M envtab unit :=
  modify (fun s => set_uareas (alter f p (uareas s)) s).
Definition get_env (i : Z) : M envtab Env := fun s => of_option (envs s !! i) s.
Definition get_uarea (p : Z) : M envtab Uenv := fun s => of_option (uareas s !! p) s.
Definition get_curenv : M envtab Z := fun s => of_option (curenv s) s.

(** Results of the C functions that return a pointer and an error code:
    the table index, or the error. *)
Definition env_id2env (s : envtab) (envid : Z) : Z + Z :=
  let i := envidx envid in
  match envs s !! i with
  | Some e =>
      if env_status e =? ENV_FREE then inr (- E_BAD_ENV)
      else if negb (env_id e =? envid) then inr (- E_BAD_ENV)
      else inl i
  | None => inr (- E_BAD_ENV)
  end.

Definition env_getcap (e : Env) (k : Z) : cap + Z :=
  if u32 (env_clen e) <=? u32 k then inr (- E_CAP_INVALID)
  else
    let c := nth (Z.to_nat (u32 k)) (env_clist e) cap_null in
    if c_valid c then inl c else inr (- E_CAP_INVALID).

(** [env_access (k, envid, perm, error)]. *)
Definition env_access (h : aclheap) (k envid perm : Z) : M envtab (Z + Z) :=
  cur <- get_curenv ;; ce <- get_env cur ;;
  match env_getcap ce k with
  | inr r => mreturn (inr r)
  | inl c =>
      s <- get ;;
      match env_id2env s envid with
      | inr r => mreturn (inr r)
      | inl i =>
          e <- get_env i ;;
          r <- of_option (acl_access h c (take 1 (env_clist e)) perm) ;;
          if r <? 0 then mreturn (inr r) else mreturn (inl i)
      end
  end.

(** ** System calls *)

(** The two entry points of the aliased function. *)
Inductive forge_sn := SYS_forge | SYS_self_forge.

(** [np] is the user pointer [new] after [trup] (0 for NULL), [n] the
    capability stored there. *)
Definition sys_forge (h : aclheap) (sn : forge_sn) (k kd np : Z) (n : cap) (ke envid : Z)
    : M envtab Z :=
  m <- gets page_fault_mode ;;
  cur <- get_curenv ;;
  r <- match sn with
       | SYS_self_forge => mreturn (inl cur)
       | SYS_forge => env_access h ke envid ACL_W
       end ;;
  match r with
  | inr error => mreturn error
  | inl ei =>
      e <- get_env ei ;;
      if u32 (env_clen e) <=? kd then mreturn (- E_INVAL)
      else
        ce <- get_env cur ;;
        match env_getcap ce k with
        | inr error => mreturn error
        | inl c =>
            modify (set_pfm PFM_PROP) ;;
            if (kd =? 0) && negb (negb (np =? 0) && c_valid n && (c_perm n =? ACL_ALL)) then
              modify (set_pfm m) ;; mreturn (- E_CAP_INSUFF)
            else if (np =? 0) || negb (c_valid n) then
              upd_env ei (fun e => set_clist (<[Z.to_nat kd := cap_null]> (env_clist e)) e) ;;
              modify (set_pfm m) ;; mreturn 0
            else if negb (tst (c_perm c) CL_DUP) || negb (cap_dominates c n) then
              mreturn (- E_CAP_INSUFF)
            else
              upd_env ei (fun e => set_clist (<[Z.to_nat kd := n]> (env_clist e)) e) ;;
              modify (set_pfm m) ;; mreturn kd
        end
  end.

Definition sys_self_acquire (k genvid : Z) : M envtab Z :=
  cur <- get_curenv ;; ce <- get_env cur ;;
  if (k =? 0) || (u32 (env_clen ce) <=? k) then mreturn (- E_INVAL)
  else
    s <- get ;;
    match env_id2env s genvid with
    | inr error => mreturn error
    | inl ei =>
        e <- get_env ei ;;
        if env_u e =? 0 then mreturn (- E_BAD_ENV)
        else
          u <- get_uarea (env_u e) ;;
          if negb (u_aenvid u =? env_id ce) then mreturn (- E_BAD_ENV)
          else
            match env_getcap e (u_gkey u) with
            | inr error => mreturn error
            | inl c =>
                if negb (cap_dominates c (u_gcap u)) || negb (tst (c_perm c) CL_DUP) then
                  mreturn (- E_CAP_INSUFF)
                else
                  upd_uarea (env_u e) (set_aenvid 0) ;;
                  upd_env cur (fun ce => set_clist (<[Z.to_nat k := u_gcap u]> (env_clist ce)) ce) ;;
                  mreturn 0
            end
    end.

(** ** Writing an environment (sys/kern/env.c) *)

(** The fields copied from the user's record [ue]: the general registers, the
    program counter and the stack pointer, and what lies between the trap frame
    and [env_rdonly]. *)
Definition wrenv (ue e : Env) : Env :=
  let t := env_tf ue in let f := env_tf e in
  mkEnv (mkTf (tf_edi t) (tf_esi t) (tf_ebp t) (tf_oesp t) (tf_ebx t) (tf_edx t) (tf_ecx t) (tf_eax t)
           (tf_es f) (tf_ds f) (tf_eip t) (tf_cs f) (tf_eflags f) (tf_esp t) (tf_ss f))
    (env_allowipc1 ue) (env_allowipc2 ue) (env_id e) (env_status e) (env_qx e) (env_u e) (env_ticks e) (env_quanta e)
    (env_pd e) (env_ctxcnt e) (msgring e) (env_pred_pgs e) (env_pred e) (env_clen e) (env_clist e).

Definition sys_wrenv (h : aclheap) (k envid : Z) (ue : Env) : M envtab Z :=
  r <- env_access h k envid ACL_ALL ;;
  match r with
  | inr r => mreturn r
  | inl i =>
      m <- gets page_fault_mode ;;
      modify (set_pfm PFM_PROP) ;;
      upd_env i (wrenv ue) ;;
      modify (set_pfm m) ;;
      mreturn 0
  end.

(** ** Lookup *)

Lemma env_id2env_inl s envid i :
  env_id2env s envid = inl i <->
  i = envidx envid /\
  exists e, envs s !! i = Some e /\ env_status e <> ENV_FREE /\ env_id e = envid.
Proof.
  unfold env_id2env. split.
  - destruct (envs s !! envidx envid) as [e|] eqn:E; [|done].
    destruct (Z.eqb_spec (env_status e) ENV_FREE); [done|].
    destruct (Z.eqb_spec (env_id e) envid); cbn; [|done]. intros [= <-]. eauto 6.
  - intros (-> & e & -> & Hs & Hid).
    rewrite (proj2 (Z.eqb_neq _ _)) by done. by rewrite (proj2 (Z.eqb_eq _ _)).
Qed.

Lemma env_getcap_inl e k c : env_getcap e k = inl c -> c ∈ env_clist e /\ c_valid c = true.
Proof.
  unfold env_getcap. destruct (_ <=? _); [done|].
  destruct (c_valid (nth _ _ _)) eqn:Hv; [|done]. intros [= <-]. split; [|done].
  apply list_elem_of_In. destruct (nth_in_or_default (Z.to_nat (u32 k)) (env_clist e) cap_null)
    as [|H]; [done|]. rewrite H in Hv. done.
Qed.

(** [env_access] changes nothing. *)
Lemma env_access_ret h k envid perm s r s' :
  env_access h k envid perm s = Ret r s' ->
  s' = s /\
  (forall i, r = inl i -> exists cur ce c e, curenv s = Some cur /\ envs s !! cur = Some ce /\
     env_getcap ce k = inl c /\ env_id2env s envid = inl i /\ envs s !! i = Some e /\
     acl_access h c (take 1 (env_clist e)) perm = Some 0).
Proof.
  unfold env_access, get_curenv, get_env, mbind_, get.
  destruct (curenv s) as [cur|]; cbn; [|done].
  destruct (envs s !! cur) as [ce|] eqn:Ece; cbn; [|done].
  destruct (env_getcap ce k) as [c|] eqn:Ec; [|intros [= <- <-]; split; [done|intros ? [=]]].
  destruct (env_id2env s envid) as [i|] eqn:Ei; [|intros [= <- <-]; split; [done|intros ? [=]]].
  destruct (envs s !! i) as [e|] eqn:Ee; cbn; [|done].
  destruct (acl_access h c _ perm) as [ra|] eqn:Ea; cbn; [|done].
  destruct (Z.ltb_spec ra 0); intros [= <- <-]; (split; [done|]); [intros ? [=]|].
  intros ? [= <-]. exists cur, ce, c, e. split_and!; try done.
  destruct (acl_access_result _ _ _ _ _ Ea) as [->|[->| ->]]; [done|elia..].
Qed.

(** ** What a call may write into capability lists *)

(** The only change is to slot [k] of environment [i], now [c]. *)
Definition clist_write (s s' : envtab) (i k : Z) (c : cap) : Prop :=
  exists e, envs s !! i = Some e /\ 0 <= k < u32 (env_clen e) /\
  envs s' = <[i := set_clist (<[Z.to_nat k := c]> (env_clist e)) e]> (envs s).

Lemma alter_write (m : gmap Z Env) i e f :
  m !! i = Some e -> alter f i m = <[i := f e]> m.
Proof.
  intros H. apply map_eq. intros j. destruct (decide (i = j)) as [->|].
  - by rewrite lookup_alter_eq, lookup_insert_eq, H.
  - by rewrite lookup_alter_ne, lookup_insert_ne.
Qed.

(** Every outcome of [sys_forge]. *)
Lemma sys_forge_ret h sn k kd np n ke envid s r s' :
  0 <= kd -> sys_forge h sn k kd np n ke envid s = Ret r s' ->
  envs s' = envs s \/
  exists ei cur ce c x, curenv s = Some cur /\ envs s !! cur = Some ce /\
    env_getcap ce k = inl c /\ clist_write s s' ei kd x /\
    (sn = SYS_self_forge -> ei = cur) /\
    (sn = SYS_forge -> env_access h ke envid ACL_W s = Ret (inl ei) s) /\
    (x = cap_null /\ kd <> 0 /\ r = 0 \/
     x = n /\ r = kd /\ tst (c_perm c) CL_DUP = true /\ cap_dominates c n = true /\
     (kd = 0 -> c_perm n = ACL_ALL)).
Proof.
  intros Hkd. unfold sys_forge, get_curenv, get_env, upd_env, mbind_, gets, modify.
  destruct (curenv s) as [cur|] eqn:Ecur; cbn [of_option mreturn]; [|done].
  destruct ((match sn return M envtab (Z + Z) with
             | SYS_self_forge => mreturn (inl cur)
             | SYS_forge => env_access h ke envid ACL_W end) s) as [r0 s0|] eqn:Er0; [|done].
  assert (s0 = s) as ->.
  { destruct sn; [by apply env_access_ret in Er0 as [-> _]|by injection Er0]. }
  destruct r0 as [ei|]; [|intros [= <- <-]; auto].
  destruct (envs s !! ei) as [e|] eqn:Ee; cbn [of_option mreturn]; [|done].
  destruct (Z.leb_spec (u32 (env_clen e)) kd); [intros [= <- <-]; auto|].
  destruct (envs s !! cur) as [ce|] eqn:Ece; cbn [of_option mreturn]; [|done].
  destruct (env_getcap ce k) as [c|] eqn:Ec; [|intros [= <- <-]; auto].
  destruct ((kd =? 0) && _) eqn:E0; [intros [= <- <-]; auto|].
  assert (kd = 0 -> np <> 0 /\ c_valid n = true /\ c_perm n = ACL_ALL) as Hown.
  { intros ->. cbn in E0. apply negb_false_iff in E0.
    apply andb_true_iff in E0 as [E0 E3]. apply andb_true_iff in E0 as [E1 E2].
    split_and!; [|done|by apply Z.eqb_eq]. by apply Z.eqb_neq, negb_true_iff. }
  destruct ((np =? 0) || negb (c_valid n)) eqn:E1.
  2: destruct (negb (tst (c_perm c) CL_DUP) || negb (cap_dominates c n)) eqn:E2;
       [intros [= <- <-]; auto|].
  all: intros [= <- <-]; right; exists ei, cur, ce, c.
  1: exists cap_null. 2: exists n.
  all: split_and!; try done.
  all: try (eexists; split_and!; [exact Ee|done|done|cbn; by erewrite alter_write]).
  all: try (intros ->; by injection Er0).
  all: try (intros ->; exact Er0).
  - left. split_and!; [done| |done]. intros ->. destruct (Hown eq_refl) as (? & Hv & _).
    rewrite Hv in E1. apply orb_true_iff in E1 as [E1|E1]; [by apply Z.eqb_eq in E1|done].
  - right. apply orb_false_iff in E2 as [E2 E3]. apply negb_false_iff in E2, E3.
    split_and!; [done..|]. naive_solver.
Qed.

Lemma sys_self_acquire_ret k genvid s r s' :
  0 <= k -> sys_self_acquire k genvid s = Ret r s' ->
  envs s' = envs s \/
  exists cur gi g u c, curenv s = Some cur /\ env_id2env s genvid = inl gi /\
    envs s !! gi = Some g /\ uareas s !! env_u g = Some u /\ env_getcap g (u_gkey u) = inl c /\
    cap_dominates c (u_gcap u) = true /\ tst (c_perm c) CL_DUP = true /\
    (exists ce, envs s !! cur = Some ce /\ u_aenvid u = env_id ce) /\
    clist_write s s' cur k (u_gcap u) /\ k <> 0 /\ r = 0 /\
    uareas s' = <[env_u g := set_aenvid 0 u]> (uareas s).
Proof.
  intros Hk. unfold sys_self_acquire, get_curenv, get_env, get_uarea, upd_env, upd_uarea, mbind_, get, modify.
  destruct (curenv s) as [cur|] eqn:Ecur; cbn [of_option mreturn]; [|done].
  destruct (envs s !! cur) as [ce|] eqn:Ece; cbn [of_option mreturn]; [|done].
  destruct ((k =? 0) || _) eqn:E0; [intros [= <- <-]; auto|].
  apply orb_false_iff in E0 as [E0%Z.eqb_neq E1%Z.leb_gt].
  destruct (env_id2env s genvid) as [gi|] eqn:Eg; [|intros [= <- <-]; auto].
  destruct (envs s !! gi) as [g|] eqn:Egi; cbn [of_option mreturn]; [|done].
  destruct (env_u g =? 0); [intros [= <- <-]; auto|].
  destruct (uareas s !! env_u g) as [u|] eqn:Eu; cbn [of_option mreturn]; [|done].
  destruct (Z.eqb_spec (u_aenvid u) (env_id ce)); cbn [negb]; [|intros [= <- <-]; auto].
  destruct (env_getcap g (u_gkey u)) as [c|] eqn:Ec; [|intros [= <- <-]; auto].
  destruct (negb (cap_dominates c (u_gcap u)) || _) eqn:E2; [intros [= <- <-]; auto|].
  apply orb_false_iff in E2 as [E2%negb_false_iff E3%negb_false_iff].
  intros [= <- <-]. right. exists cur, gi, g, u, c. split_and!; try done.
  - eauto.
  - exists ce. split_and!; [done..|]. cbn. by rewrite (alter_write _ _ _ _ Ece).
  - cbn. apply map_eq. intros j. destruct (decide (env_u g = j)) as [<-|].
    + by rewrite lookup_alter_eq, lookup_insert_eq, Eu.
    + by rewrite lookup_alter_ne, lookup_insert_ne.
Qed.

(** ** Reachable states

    A run of the machine as far as capability lists are concerned: any
    environment may be running, may write what it likes into a u-area, and may
    issue either call with arbitrary arguments. *)
Inductive cap_step (h : aclheap) : envtab -> envtab -> Prop :=
  | step_forge s s' sn k kd np n ke envid r :
      0 <= kd -> sys_forge h sn k kd np n ke envid s = Ret r s' -> cap_step h s s'
  | step_acquire s s' k genvid r :
      0 <= k -> sys_self_acquire k genvid s = Ret r s' -> cap_step h s s'
  | step_user s p u : cap_step h s (set_uareas (<[p := u]> (uareas s)) s)
  | step_switch s c : cap_step h s (set_curenv c s).

(** A step leaves every capability list as it was, or replaces one slot by the
    null capability or by one that a capability held in the previous state
    dominates; slot 0 is only ever replaced by one with every permission. *)
Lemma cap_step_clist h s s' :
  cap_step h s s' ->
  envs s' = envs s \/
  exists i k x, clist_write s s' i k x /\
    (x = cap_null /\ k <> 0 \/
     exists j e c, envs s !! j = Some e /\ c ∈ env_clist e /\ cap_dominates c x = true /\
       (k = 0 -> c_perm x = ACL_ALL)).
Proof.
  intros [s0 s1 sn k kd np n ke envid r Hkd H | s0 s1 k genvid r Hk H | |]; [| |by left..].
  - apply sys_forge_ret in H as [?|(ei & cur & ce & c & x & Hcur & Hce & Hc & Hw & _ & _ & Hx)];
      [by left| |done].
    right. exists ei, kd, x. split; [done|]. apply env_getcap_inl in Hc as [Hc _].
    destruct Hx as [(-> & ? & _)|(-> & _ & _ & ? & ?)]; [by left|].
    right. exists cur, ce, c. done.
  - apply sys_self_acquire_ret in H
      as [?|(cur & gi & g & u & c & _ & _ & Hg & _ & Hc & Hd & _ & _ & Hw & Hk0 & _)];
      [by left| |done].
    right. exists cur, k, (u_gcap u). split; [done|]. right.
    apply env_getcap_inl in Hc as [Hc _]. exists gi, g, c. done.
Qed.

(** Every valid capability of the table is an ordinary one that some
    capability of [base] dominates. *)
Definition confined (base : list cap) (s : envtab) : Prop :=
  forall i e c, envs s !! i = Some e -> c ∈ env_clist e -> c_valid c = true ->
    exists b, b ∈ base /\ cap_dominates b c = true.

(** Every environment's own capability carries every permission. *)
Definition owned (s : envtab) : Prop :=
  forall i e, envs s !! i = Some e -> env_status e <> ENV_FREE -> owner_ok (env_clist e).

Lemma cap_dominates_trans a b c :
  cap_dominates a b = true -> cap_dominates b c = true -> cap_dominates a c = true.
Proof.
  rewrite !cap_dominates_spec. intros (?&?&?&?&Hl1&Hp1&Hn1) (?&?&?&?&Hl2&Hp2&Hn2).
  split_and!; [done..|lia| |].
  - eapply perm_trans; eassumption.
  - eapply memeq_trans; [|exact Hn1|exact Hn2]. done.
Qed.

Lemma clist_write_elem s s' i k x j e c :
  clist_write s s' i k x -> envs s' !! j = Some e -> c ∈ env_clist e ->
  c = x \/ exists e0, envs s !! j = Some e0 /\ c ∈ env_clist e0.
Proof.
  intros (e0 & He0 & Hk & Hs'). rewrite Hs'. destruct (decide (i = j)) as [->|].
  - rewrite lookup_insert_eq. intros [= <-]. cbn.
    intros (m & Hm)%list_elem_of_lookup. apply list_lookup_insert_Some in Hm as [(_ & <- & _)|[_ Hm]]; [by left|].
    right. exists e0. split; [done|]. by eapply list_elem_of_lookup_2.
  - rewrite lookup_insert_ne by done. eauto.
Qed.

Lemma cap_step_confined h base s s' : cap_step h s s' -> confined base s -> confined base s'.
Proof.
  intros Hst Hc i e c He Hin Hv.
  apply cap_step_clist in Hst as [Hs|(i0 & k & x & Hw & Hx)]; [rewrite Hs in He; eauto|].
  destruct (clist_write_elem _ _ _ _ _ _ _ _ Hw He Hin) as [->|(e0 & ? & ?)]; [|eauto].
  destruct Hx as [[-> _]|(j & ej & c' & Hj & Hin' & Hd & _)]; [done|].
  destruct (Hc j ej c' Hj Hin') as (b & Hb & Hbd).
  - by apply cap_dominates_spec in Hd as (? & _).
  - exists b. split; [done|]. eapply cap_dominates_trans; eassumption.
Qed.

Lemma cap_step_owned h s s' : cap_step h s s' -> owned s -> owned s'.
Proof.
  intros Hst Ho i e He Hlive.
  apply cap_step_clist in Hst as [Hs|(i0 & k & x & (e0 & He0 & Hk & Hs') & Hx)];
    [rewrite Hs in He; eauto|].
  rewrite Hs' in He. destruct (decide (i0 = i)) as [->|];
    [|rewrite lookup_insert_ne in He by done; eauto].
  rewrite lookup_insert_eq in He. injection He as <-. cbn in Hlive |- *.
  destruct (Ho i e0 He0 Hlive) as (a & rest & -> & Hv & Hp).
  destruct (Z.to_nat k) as [|k'] eqn:Ek; cbn; [|by exists a, (<[k':=x]> rest)].
  destruct Hx as [[_ ?]|(j & ej & c & _ & _ & Hd & H0)]; [lia|].
  exists x, rest. split_and!; [done| |apply H0; lia].
  by apply cap_dominates_spec in Hd as (_ & _ & ? & _).
Qed.

(** ** Properties *)

(** C1: capabilities are confined: however environments run, write their
    u-areas and call [sys_forge], [sys_self_forge] and [sys_self_acquire], no
    environment ever holds a capability that opens a list (with some permission)
    which no capability held at the start opened. *)
Theorem capability_confinement h base s s' i e c acl perm :
  confined base s -> rtc (cap_step h) s s' ->
  envs s' !! i = Some e -> c ∈ env_clist e -> acl_access h c acl perm = Some 0 ->
  exists b, b ∈ base /\ acl_access h b acl perm = Some 0.
Proof.
  intros Hc Hrun He Hin Hacc.
  assert (confined base s') as Hc'.
  { induction Hrun; [done|]. eauto using cap_step_confined. }
  assert (c_valid c = true) as Hv.
  { destruct (c_valid c) eqn:E; [done|]. unfold acl_access in Hacc. cbn in Hacc.
    rewrite E in Hacc. discriminate Hacc. }
  destruct (Hc' i e c He Hin Hv) as (b & Hb & Hd). eauto using acl_access_mono.
Qed.

(** slot 0 of every live environment, the capability that controls access
    to the environment itself, keeps every permission along any run. *)
Theorem env_slot0_stays_complete h s s' :
  owned s -> rtc (cap_step h) s s' -> owned s'.
Proof. intros Ho Hrun. induction Hrun; [done|]. eauto using cap_step_owned. Qed.

(** [env_id2env] returns the slot [envid mod NENV] exactly when that slot
    is in use by the environment whose full id is [envid]; a stale id of a
    reused slot is [-E_BAD_ENV]. *)
Theorem env_id2env_exact s envid :
  (exists e, envs s !! envidx envid = Some e /\ env_status e <> ENV_FREE /\ env_id e = envid /\
     env_id2env s envid = inl (envidx envid)) \/
  ((forall i e, envs s !! i = Some e -> i = envidx envid -> env_status e <> ENV_FREE ->
      env_id e <> envid) /\ env_id2env s envid = inr (- E_BAD_ENV)).
Proof.
  destruct (env_id2env s envid) as [i|r] eqn:E.
  - left. apply env_id2env_inl in E as (-> & e & ? & ? & ?). eauto 6.
  - right. split.
    + intros i e He -> Hs Hid.
      assert (env_id2env s envid = inl (envidx envid)) as E'
        by (apply env_id2env_inl; eauto 6). congruence.
    + revert E. unfold env_id2env. destruct (envs s !! envidx envid); [|congruence].
      destruct (_ =? ENV_FREE); [congruence|]. destruct (negb _); congruence.
Qed.

(** C26: writing into another environment's capability list through [sys_forge]
    takes write access to that environment and a capability at least as strong:
    if the call changes any environment, the one changed is the live one named
    [envid], and the caller holds a capability [ke] that its slot 0 grants
    [ACL_W] to; exactly the slot [kd] changes, and it is cleared, which slot 0
    never is, or takes the capability asked for, which the caller's capability
    [k] may duplicate and dominates (and which is complete, for slot 0). *)
Theorem sys_forge_authorized h k kd np n ke envid s r s' :
  0 <= kd -> sys_forge h SYS_forge k kd np n ke envid s = Ret r s' -> envs s' <> envs s ->
  exists x cur ce cke e c,
    clist_write s s' (envidx envid) kd x /\
    curenv s = Some cur /\ envs s !! cur = Some ce /\ env_getcap ce ke = inl cke /\
    envs s !! envidx envid = Some e /\ env_id e = envid /\ env_status e <> ENV_FREE /\
    acl_access h cke (take 1 (env_clist e)) ACL_W = Some 0 /\ env_getcap ce k = inl c /\
    (x = cap_null /\ kd <> 0 \/
     x = n /\ tst (c_perm c) CL_DUP = true /\ cap_dominates c n = true /\ (kd = 0 -> c_perm n = ACL_ALL)).
Proof.
  intros Hkd H Hne.
  apply sys_forge_ret in H as [?|(ei & cur & ce & c & x & Hcur & Hce & Hc & Hw & _ & Ha & Hx)];
    [done| |done].
  destruct (env_access_ret _ _ _ _ _ _ _ (Ha eq_refl)) as [_ Hacc].
  destruct (Hacc ei eq_refl) as (cur' & ce' & cke & e & ? & ? & ? & Hid & He & ?).
  apply env_id2env_inl in Hid as (-> & e' & He' & Hst & Hide).
  assert (e' = e) as -> by congruence. assert (ce' = ce) as -> by congruence.
  exists x, cur, ce, cke, e, c. split_and!; try done. naive_solver.
Qed.

(** ** Witnesses *)

Definition ex_clist (l : list cap) : list cap := l ++ repeat cap_null (19 - length l).
Definition ex_env (id : Z) (u : Z) (l : list cap) : Env :=
  mkEnv tf_zero 0 0 id ENV_OK 0 u 0 ∅ 0 0 0 0 0 MAX_CAPNO (ex_clist l).
(** Two environments: 2049 (slot 1) holds the root capability and the disk
    capability, 4098 (slot 2) its own. *)
Definition ex_tab : envtab :=
  mkET {[ 1 := ex_env 2049 50 [ex_root; ex_disk]; 2 := ex_env 4098 60 [ex_net] ]}
       (Some 1) ∅ 0.
Definition ex_base : list cap := [ex_root; ex_net].

Lemma ex_tab_confined : confined ex_base ex_tab.
Proof.
  intros i e c He Hc Hv.
  unfold ex_tab, envs in He. apply lookup_insert_Some in He as [[<- <-]|[_ [<- <-]%lookup_singleton_Some]]; cbn in Hc.
  all: repeat (apply elem_of_cons in Hc as [->|Hc];
               [first [discriminate Hv
                      | exists ex_root; split; [set_solver|vm_compute; reflexivity]
                      | exists ex_net; split; [set_solver|vm_compute; reflexivity]]|]).
  all: by apply not_elem_of_nil in Hc.
Defined.

Lemma ex_tab_owned : owned ex_tab.
Proof.
  intros i e He _.
  unfold ex_tab, envs in He. apply lookup_insert_Some in He as [[<- <-]|[_ [<- <-]%lookup_singleton_Some]].
  all: eexists _, _; split_and!; reflexivity.
Defined.

(** 2049 forges a read-write disk capability into slot 3 of 4098. *)
Definition ex_forged : envtab :=
  match sys_forge ∅ SYS_forge 1 3 1 ex_disk1 0 4098 ex_tab with Ret _ s => s | Panic => ex_tab end.

Lemma ex_forge_run : rtc (cap_step ∅) ex_tab ex_forged.
Proof.
  apply rtc_once. apply (step_forge _ _ _ SYS_forge 1 3 1 ex_disk1 0 4098 3); [lia|].
  vm_compute. reflexivity.
Defined.

Lemma capability_confinement_witness :
  exists b, b ∈ ex_base /\ acl_access ∅ b [ex_disk1] 1 = Some 0.
Proof.
  destruct (envs ex_forged !! 2) as [e|] eqn:E; [|vm_compute in E; discriminate E].
  apply (capability_confinement ∅ ex_base ex_tab ex_forged 2 e ex_disk1 [ex_disk1] 1).
  - exact ex_tab_confined.
  - exact ex_forge_run.
  - exact E.
  - vm_compute in E. injection E as <-. apply list_elem_of_In. cbn. auto.
  - reflexivity.
Defined.

Lemma env_slot0_stays_complete_witness : owned ex_forged.
Proof. exact (env_slot0_stays_complete ∅ ex_tab ex_forged ex_tab_owned ex_forge_run). Defined.

Lemma sys_forge_authorized_witness :
  exists x, clist_write ex_tab ex_forged 2 3 x /\ (x = cap_null \/ x = ex_disk1).
Proof.
  destruct (sys_forge_authorized ∅ 1 3 1 ex_disk1 0 4098 ex_tab 3 ex_forged)
    as (x & cur & ce & cke & e & c & Hw & _ & _ & _ & _ & _ & _ & _ & _ & Hx).
  - lia.
  - vm_compute. reflexivity.
  - intros H. apply (f_equal (fun m => env_clist <$> m !! 2)) in H. vm_compute in H. discriminate H.
  - exists x. split; [exact Hw|]. destruct Hx as [[-> _]|[-> _]]; [by left|by right].
Defined.

(** A refused [sys_self_forge] leaves the kernel's page fault mode at
    [PFM_PROP]: that return path does not restore it. *)
Example sys_forge_leaks_fault_mode :
  match sys_forge ∅ SYS_self_forge 1 3 1 ex_net 0 0 ex_tab with
  | Ret r s => r = - E_CAP_INSUFF /\ page_fault_mode ex_tab = PFM_NONE /\ page_fault_mode s = PFM_PROP
  | Panic => False
  end.
Proof. vm_compute. auto. Qed.
