(* ===== verification/PageState.v ===== *)
(** * Physical page descriptors and buffer headers

    The data shared by sys/kern/pmap.c and sys/kern/bc.c: [struct Ppage]
    (sys/xok/pmapP.h), [struct bc_entry] and the hash queues (sys/xok/bc.h),
    the page counters of [struct Sysinfo], and the operations on single
    descriptors and headers that both files use. *)

From Stdlib Require Import ZArith Lia.
From stdpp Require Import base numbers option list gmap.
From S2P Require Import Prelude Capability.

(** ** Pages *)

Definition PP_ACCESS_NONE := 0.
Definition PP_ACCESS_ONE := 1.
Definition PP_ACCESS_ALL := 2.
Definition PP_FREE := 0.
Definition PP_KERNEL := 1.
Definition PP_USER := 2.
Definition PP_IOMEM := 4.
Definition PP_INVAL := 8.
Definition PP_KERNRO := 16.
Definition PP_ACL_LEN := 2.

(** The union [pp_u]: the links of a free list, or the list of mappings with
    the reference count and the malloc counters.  Reading the member that was
    not stored last is [Panic]. *)
Inductive ppu :=
  | PLink
  | PV (vpl : list Z) (rcbn pcfc : Z).

(** [pp_buf] is the kernel address of the buffer header, 0 for NULL. *)
Record Ppage := mkPp {
  pp_u : ppu;
  pp_status : Z;
  ps_writers : Z;
  ps_readers : Z;
  pp_acl : list cap;
  pp_readers : Z;
  pp_writers : Z;
  pp_buf : Z;
  pp_pinned : Z }.

Definition pp_set_u (u : ppu) (p : Ppage) : Ppage :=
  mkPp u (pp_status p) (ps_writers p) (ps_readers p) (pp_acl p) (pp_readers p) (pp_writers p)
    (pp_buf p) (pp_pinned p).
Definition pp_set_status (x : Z) (p : Ppage) : Ppage :=
  mkPp (pp_u p) x (ps_writers p) (ps_readers p) (pp_acl p) (pp_readers p) (pp_writers p)
    (pp_buf p) (pp_pinned p).
Definition pp_set_state (w r : Z) (p : Ppage) : Ppage :=
  mkPp (pp_u p) (pp_status p) w r (pp_acl p) (pp_readers p) (pp_writers p)
    (pp_buf p) (pp_pinned p).
Definition pp_set_acl (a : list cap) (p : Ppage) : Ppage :=
  mkPp (pp_u p) (pp_status p) (ps_writers p) (ps_readers p) a (pp_readers p) (pp_writers p)
    (pp_buf p) (pp_pinned p).
Definition pp_set_rw (r w : Z) (p : Ppage) : Ppage :=
  mkPp (pp_u p) (pp_status p) (ps_writers p) (ps_readers p) (pp_acl p) r w
    (pp_buf p) (pp_pinned p).
Definition pp_set_buf (b : Z) (p : Ppage) : Ppage :=
  mkPp (pp_u p) (pp_status p) (ps_writers p) (ps_readers p) (pp_acl p) (pp_readers p)
    (pp_writers p) b (pp_pinned p).
Definition pp_set_pinned (n : Z) (p : Ppage) : Ppage :=
  mkPp (pp_u p) (pp_status p) (ps_writers p) (ps_readers p) (pp_acl p) (pp_readers p)
    (pp_writers p) (pp_buf p) n.

Definition ppcompat_state (readers writers s_readers s_writers : Z) : bool :=
  if (s_readers =? PP_ACCESS_ALL) && (s_writers =? PP_ACCESS_ALL) then true
  else if (s_readers <? readers) || (s_writers <? writers) then false
  else true.

(** ** Buffer headers *)

Definition BUF_CLEAN := 0.
Definition BUF_DIRTY := 1.
Definition BC_EMPTY := 0.
Definition BC_VALID := 1.
Definition BC_COMING_IN := 2.
Definition BC_GOING_OUT := 4.
Definition BC_NUM_QS := 512.
Definition BC_MASK_QS := 0x1ff.

Record bc_entry := mkBc {
  buf_dev : Z;
  buf_blk64 : Z;
  buf_user1 : Z;
  buf_user2 : Z;
  buf_ppn : Z;
  buf_dirty : Z;
  buf_tainted : Z;
  buf_vp : Z;
  buf_writecnt : Z;
  buf_state : Z }.

Definition bc_hash64 (dev blk : Z) : Z := Z.land (u64 (dev + blk)) BC_MASK_QS.

Definition bc_is_tainted (b : bc_entry) : bool := negb (buf_tainted b =? 0).
Definition bc_is_dirty (b : bc_entry) : bool := buf_dirty b =? BUF_DIRTY.
Definition bc_is_reclaimable (b : bc_entry) : bool := negb (bc_is_tainted b) && negb (bc_is_dirty b).

Definition bc_dirty_as (d : Z) (b : bc_entry) : bc_entry :=
  mkBc (buf_dev b) (buf_blk64 b) (buf_user1 b) (buf_user2 b) (buf_ppn b) d (buf_tainted b)
    (buf_vp b) (buf_writecnt b) (buf_state b).
Definition bc_state_as (st : Z) (b : bc_entry) : bc_entry :=
  mkBc (buf_dev b) (buf_blk64 b) (buf_user1 b) (buf_user2 b) (buf_ppn b) (buf_dirty b)
    (buf_tainted b) (buf_vp b) (buf_writecnt b) st.
Definition bc_writecnt_as (n : Z) (b : bc_entry) : bc_entry :=
  mkBc (buf_dev b) (buf_blk64 b) (buf_user1 b) (buf_user2 b) (buf_ppn b) (buf_dirty b)
    (buf_tainted b) (buf_vp b) n (buf_state b).
Definition bc_user_as (u1 u2 : Z) (b : bc_entry) : bc_entry :=
  mkBc (buf_dev b) (buf_blk64 b) u1 u2 (buf_ppn b) (buf_dirty b)
    (buf_tainted b) (buf_vp b) (buf_writecnt b) (buf_state b).

(** ** The page pool: every global of pmap.c and bc.c these operations touch *)

Record Sysinfo := mkSi {
  si_nppages : Z;
  si_nfreepages : Z;
  si_nfreebufpages : Z;
  si_ndpages : Z;
  si_pinnedpages : Z }.

Record pool := mkPool {
  ppages : gmap Z Ppage;
  nppage : Z;
  free_list : list Z;
  free_bufs : list Z;
  bcents : gmap Z bc_entry;
  bc_qs : gmap Z (list Z);
  bc_free_list : list Z;
  next_page : Z;
  bc_upt : gmap Z Z;
  si : Sysinfo }.

Definition set_ppages (m : gmap Z Ppage) (s : pool) : pool :=
  mkPool m (nppage s) (free_list s) (free_bufs s) (bcents s) (bc_qs s) (bc_free_list s)
    (next_page s) (bc_upt s) (si s).
Definition set_free_list (l : list Z) (s : pool) : pool :=
  mkPool (ppages s) (nppage s) l (free_bufs s) (bcents s) (bc_qs s) (bc_free_list s)
    (next_page s) (bc_upt s) (si s).
Definition set_free_bufs (l : list Z) (s : pool) : pool :=
  mkPool (ppages s) (nppage s) (free_list s) l (bcents s) (bc_qs s) (bc_free_list s)
    (next_page s) (bc_upt s) (si s).
Definition set_bcents (m : gmap Z bc_entry) (s : pool) : pool :=
  mkPool (ppages s) (nppage s) (free_list s) (free_bufs s) m (bc_qs s) (bc_free_list s)
    (next_page s) (bc_upt s) (si s).
Definition set_bc_qs (m : gmap Z (list Z)) (s : pool) : pool :=
  mkPool (ppages s) (nppage s) (free_list s) (free_bufs s) (bcents s) m (bc_free_list s)
    (next_page s) (bc_upt s) (si s).
Definition set_bc_free (l : list Z) (s : pool) : pool :=
  mkPool (ppages s) (nppage s) (free_list s) (free_bufs s) (bcents s) (bc_qs s) l
    (next_page s) (bc_upt s) (si s).
Definition set_bc_page (n : Z) (upt : gmap Z Z) (s : pool) : pool :=
  mkPool (ppages s) (nppage s) (free_list s) (free_bufs s) (bcents s) (bc_qs s)
    (bc_free_list s) n upt (si s).
Definition set_si (x : Sysinfo) (s : pool) : pool :=
  mkPool (ppages s) (nppage s) (free_list s) (free_bufs s) (bcents s) (bc_qs s)
    (bc_free_list s) (next_page s) (bc_upt s) x.

(** The atomic counters. *)
Definition si_add_free (d : Z) (x : Sysinfo) : Sysinfo :=
  mkSi (si_nppages x) (u32 (si_nfreepages x + d)) (si_nfreebufpages x) (si_ndpages x)
    (si_pinnedpages x).
Definition si_add_freebuf (d : Z) (x : Sysinfo) : Sysinfo :=
  mkSi (si_nppages x) (si_nfreepages x) (u32 (si_nfreebufpages x + d)) (si_ndpages x)
    (si_pinnedpages x).
Definition si_add_dirty (d : Z) (x : Sysinfo) : Sysinfo :=
  mkSi (si_nppages x) (si_nfreepages x) (si_nfreebufpages x) (u32 (si_ndpages x + d))
    (si_pinnedpages x).
Definition si_add_pinned (d : Z) (x : Sysinfo) : Sysinfo :=
  mkSi (si_nppages x) (si_nfreepages x) (si_nfreebufpages x) (si_ndpages x)
    (u32 (si_pinnedpages x + d)).

Definition upd_si (f : Sysinfo -> Sysinfo) : M pool unit := modify (fun s => set_si (f (si s)) s).

(** [ppages_get (p)] and a dereference of a header pointer. *)
Definition get_pp (p : Z) : M pool Ppage := fun s => of_option (ppages s !! p) s.
Definition upd_pp (p : Z) (f : Ppage -> Ppage) : M pool unit :=
  pp <- get_pp p ;; modify (fun s => set_ppages (<[p := f pp]> (ppages s)) s).
Definition get_bc (a : Z) : M pool bc_entry := fun s => of_option (bcents s !! a) s.
Definition upd_bc (a : Z) (f : bc_entry -> bc_entry) : M pool unit :=
  b <- get_bc a ;; modify (fun s => set_bcents (<[a := f b]> (bcents s)) s).

Definition pp_refcnt (pp : Ppage) : option Z :=
  match pp_u pp with PV _ n _ => Some n | PLink => None end.

Definition bc_queue (h : Z) (s : pool) : list Z := default [] (bc_qs s !! h).

(** ** Operations on one descriptor *)

(** [ppage_initpp]: everything but the pin count. *)
Definition initpp (type : Z) (pp : Ppage) : Ppage :=
  mkPp (PV [] 0 0) type PP_ACCESS_ALL PP_ACCESS_ALL (repeat cap_null (Z.to_nat PP_ACL_LEN))
    0 0 0 (pp_pinned pp).
Definition ppage_initpp (p type : Z) : M pool unit := upd_pp p (initpp type).

Definition ppage_setcap (p : Z) (c : cap) : M pool unit :=
  upd_pp p (fun pp => pp_set_acl (<[1%nat := cap_null]> (<[0%nat := c]> (pp_acl pp))) pp).

Definition ppage_grant_iomem (p : Z) : M pool unit :=
  pp <- get_pp p ;;
  ppage_initpp p (pp_status pp) ;;
  upd_pp p (fun pp =>
    pp_set_acl (alter (fun a => mkCap CL_ALL true (c_isptr a) (c_len a) (c_name a)) 0%nat (pp_acl pp)) pp).

Definition ppage_pin (p : Z) : M pool unit :=
  upd_pp p (fun pp => pp_set_pinned (s32 (pp_pinned pp + 1)) pp) ;;
  pp <- get_pp p ;;
  assert_ (0 <? pp_pinned pp) ;;
  if pp_pinned pp =? 1 then upd_si (si_add_pinned 1) else mreturn tt.

Definition ppage_unpin (p : Z) : M pool unit :=
  pp <- get_pp p ;;
  assert_ (0 <? pp_pinned pp) ;;
  upd_pp p (fun pp => pp_set_pinned (s32 (pp_pinned pp - 1)) pp) ;;
  pp <- get_pp p ;;
  if pp_pinned pp =? 0 then upd_si (si_add_pinned (-1)) else mreturn tt.

Definition ppage_acl_zero (p : Z) : M pool unit :=
  upd_pp p (fun pp => pp_set_acl (acl_init (pp_acl pp) PP_ACL_LEN) pp).

Definition ppage_acl_check (h : aclheap) (p : Z) (c : cap) (len perm : Z) : M pool Z :=
  pp <- get_pp p ;; of_option (acl_access h c (take (Z.to_nat len) (pp_acl pp)) perm).

(** Kernel addresses of physical memory: [pp2va], and [kva2pp], which panics
    beyond it. *)
Definition pp2va (p : Z) : Z := KERNBASE + NBPG * p.
Definition kva2ppn (kva : Z) : Z := Z.shiftr (u32 (kva - KERNBASE)) PGSHIFT.
Definition kva2pp (kva : Z) : M pool Z :=
  n <- gets nppage ;;
  assert_ (kva2ppn kva <? n) ;;
  mreturn (kva2ppn kva).

(** ** Operations on one header *)

Definition bc_set_dirty (a : Z) : M pool unit :=
  b <- get_bc a ;;
  if bc_is_dirty b then mreturn tt
  else upd_si (si_add_dirty 1) ;; upd_bc a (bc_dirty_as BUF_DIRTY).

Definition bc_set_clean (a : Z) : M pool unit :=
  b <- get_bc a ;;
  if bc_is_dirty b then upd_si (si_add_dirty (-1)) ;; upd_bc a (bc_dirty_as BUF_CLEAN)
  else mreturn tt.

(** The first header of the queue with this device and block. *)
Fixpoint bc_find (m : gmap Z bc_entry) (d blk : Z) (q : list Z) : option Z :=
  match q with
  | [] => None
  | a :: q' =>
      match m !! a with
      | Some b => if (buf_blk64 b =? blk) && (buf_dev b =? d) then Some a else bc_find m d blk q'
      | None => bc_find m d blk q'
      end
  end.

Definition bc_lookup64 (d blk : Z) (s : pool) : option Z :=
  bc_find (bcents s) d blk (bc_queue (bc_hash64 d blk) s).

(** [KLIST_REMOVE] unlinks the header from the queue it is on, the one its
    device and block hash to. *)
Definition bc_remove (a : Z) : M pool unit :=
  b <- get_bc a ;;
  assert_ (tst (buf_state b) BC_VALID) ;;
  pp <- get_pp (buf_ppn b) ;;
  assert_ (pp_buf pp =? a) ;;
  let h := bc_hash64 (buf_dev b) (buf_blk64 b) in
  q <- gets (bc_queue h) ;;
  q' <- of_option (unlink a q) ;;
  modify (fun s => set_bc_qs (<[h := q']> (bc_qs s)) s) ;;
  modify (fun s => set_bc_free (a :: bc_free_list s) s) ;;
  upd_bc a (bc_state_as BC_EMPTY) ;;
  upd_pp (buf_ppn b) (pp_set_buf 0).

Definition ppage_is_reclaimable (p : Z) : M pool bool :=
  pp <- get_pp p ;;
  if negb (pp_status pp =? PP_FREE) || negb (pp_pinned pp =? 0) then mreturn false
  else if pp_buf pp =? 0 then mreturn true
  else b <- get_bc (pp_buf pp) ;; mreturn (bc_is_reclaimable b).

(** ** Execution rules *)

Section rules.
Context (s : pool).

Lemma wp_get_pp p (Q : Ppage -> pool -> Prop) :
  wp (get_pp p) s Q <-> exists pp, ppages s !! p = Some pp /\ Q pp s.
Proof. apply wp_of_option. Qed.

Lemma wp_get_bc a (Q : bc_entry -> pool -> Prop) :
  wp (get_bc a) s Q <-> exists b, bcents s !! a = Some b /\ Q b s.
Proof. apply wp_of_option. Qed.

Lemma wp_upd_pp p f (Q : unit -> pool -> Prop) :
  wp (upd_pp p f) s Q <->
  exists pp, ppages s !! p = Some pp /\ Q tt (set_ppages (<[p := f pp]> (ppages s)) s).
Proof. unfold upd_pp. rewrite wp_bind, wp_get_pp. reflexivity. Qed.

Lemma wp_upd_bc a f (Q : unit -> pool -> Prop) :
  wp (upd_bc a f) s Q <->
  exists b, bcents s !! a = Some b /\ Q tt (set_bcents (<[a := f b]> (bcents s)) s).
Proof. unfold upd_bc. rewrite wp_bind, wp_get_bc. reflexivity. Qed.

Lemma wp_upd_si f (Q : unit -> pool -> Prop) : wp (upd_si f) s Q <-> Q tt (set_si (f (si s)) s).
Proof. reflexivity. Qed.
End rules.

(** Symbolic execution that looks pages and headers up in the context. *)
Ltac ps_look := eexists; split; [first [eassumption | cbn; apply lookup_insert_eq]|].
Ltac ps_step :=
  match goal with
  | |- wp (get_pp _) _ _ => apply wp_get_pp; ps_look
  | |- wp (get_bc _) _ _ => apply wp_get_bc; ps_look
  | |- wp (upd_pp _ _) _ _ => apply wp_upd_pp; ps_look
  | |- wp (upd_bc _ _) _ _ => apply wp_upd_bc; ps_look
  | |- wp (upd_si _) _ _ => apply wp_upd_si
  | |- wp (mbind_ _ _) _ _ => apply wp_bind
  | |- wp (mreturn _) _ _ => apply wp_ret
  | |- wp (modify _) _ _ => apply wp_modify
  | |- wp (gets _) _ _ => apply wp_gets
  | |- wp (assert_ _) _ _ => apply wp_assert; split
  end; cbn beta iota.
Ltac ps_steps := repeat ps_step.

Lemma kva2pp_run kva s (Q : Z -> pool -> Prop) :
  kva2ppn kva < nppage s -> Q (kva2ppn kva) s -> wp (kva2pp kva) s Q.
Proof. intros H HQ. unfold kva2pp. ps_steps; [by apply Z.ltb_lt|exact HQ]. Qed.

Lemma pp2va_range p : 0 <= p <= 65535 -> kva2ppn (pp2va p) = p /\ clr (pp2va p) PGMASK = pp2va p.
Proof.
  intros Hp. unfold kva2ppn, pp2va. split.
  - replace (KERNBASE + NBPG * p - KERNBASE) with (NBPG * p) by lia.
    rewrite u32_small by (unfold NBPG; lia). unfold PGSHIFT, NBPG. rewrite Z.shiftr_div_pow2 by done.
    rewrite Z.mul_comm. apply Z.div_mul. done.
  - unfold clr. change (Z.lxor PGMASK (2 ^ 32 - 1)) with (Z.ldiff (2 ^ 32 - 1) (Z.ones 12)).
    apply Z.bits_inj'. intros k Hk. rewrite Z.land_spec, Z.ldiff_spec.
    replace (KERNBASE + NBPG * p) with ((983040 + p) * 2 ^ 12) by (unfold KERNBASE, NBPG; lia).
    destruct (decide (k < 12)).
    + rewrite Z.mul_pow2_bits_low by done. done.
    + rewrite (Z.ones_spec_high 12 k) by lia.
      destruct (decide (k < 32)).
      * replace (2 ^ 32 - 1) with (Z.ones 32) by done. rewrite (Z.ones_spec_low 32 k) by lia.
        by rewrite !andb_true_r.
      * rewrite (Z.bits_above_log2 ((983040 + p) * 2 ^ 12) k); [done| |].
        -- lia.
        -- apply Z.log2_lt_pow2; [lia|].
           apply Z.lt_le_trans with (2 ^ 32); [lia|].
           apply Z.pow_le_mono_r; lia.
Qed.

(** ** The invariant of pages and free lists

    [x] is a page in transit: being moved between the free lists and use, on
    no list for the moment.  A free page is on exactly one of the two lists,
    [free_bufs] when it still caches a block; the counters agree with the
    lists and with the pin counts. *)
Definition on_list (x : option Z) (isbuf : bool) (s : pool) (p : Z) : Prop :=
  exists pp, ppages s !! p = Some pp /\ x <> Some p /\ pp_status pp = PP_FREE /\
    negb (pp_buf pp =? 0) = isbuf.

Record pages_ok (x : option Z) (s : pool) : Prop := mkPagesOk {
  pg_size : 0 <= nppage s <= 2 ^ 20;
  pg_dom : forall p, is_Some (ppages s !! p) <-> 0 <= p < nppage s;
  pg_fl : NoDup (free_list s);
  pg_fb : NoDup (free_bufs s);
  pg_fl_in : forall p, p ∈ free_list s <-> on_list x false s p;
  pg_fb_in : forall p, p ∈ free_bufs s <-> on_list x true s p;
  pg_u : forall p pp, ppages s !! p = Some pp -> x <> Some p ->
    (pp_status pp = PP_FREE <-> pp_u pp = PLink);
  pg_nfree : si_nfreepages (si s) = u32 (zlen (free_list s) + zlen (free_bufs s));
  pg_nbuf : si_nfreebufpages (si s) = u32 (zlen (free_bufs s));
  pg_pin : forall p pp, ppages s !! p = Some pp -> 0 <= pp_pinned pp < 2 ^ 31;
  pg_npin : si_pinnedpages (si s) = u32 (mcount (fun pp => 0 <? pp_pinned pp) (ppages s)) }.

(** The invariant of the buffer cache: pages and headers point at each other,
    a header is on the queue its key hashes to or on the free list, the dirty
    counter counts the dirty headers, and headers live in pages that are never
    handed out. *)
Definition bc_bytes := 60.
Definition bc_per_page := 68.
Definition bc_addr (q i : Z) : Z := KERNBASE + NBPG * q + bc_bytes * i.
Definition bc_key_hash (b : bc_entry) : Z := bc_hash64 (buf_dev b) (buf_blk64 b).

(** A header on the free list holds whatever its page held before, except that
    its state is [BC_EMPTY]: only valid headers count. *)
Definition live_dirty (b : bc_entry) : bool := tst (buf_state b) BC_VALID && bc_is_dirty b.

Record bc_ok (s : pool) : Prop := mkBcOk {
  bo_pp : forall p pp, ppages s !! p = Some pp -> pp_buf pp <> 0 ->
    exists b, bcents s !! pp_buf pp = Some b /\ buf_ppn b = p /\
      pp_buf pp ∈ bc_queue (bc_key_hash b) s;
  bo_q : forall h a, a ∈ bc_queue h s ->
    exists b pp, bcents s !! a = Some b /\ bc_key_hash b = h /\ tst (buf_state b) BC_VALID = true /\
      ppages s !! buf_ppn b = Some pp /\ pp_buf pp = a /\ a <> 0 /\ a ∉ bc_free_list s;
  bo_qnd : forall h, NoDup (bc_queue h s);
  bo_fnd : NoDup (bc_free_list s);
  bo_f : forall a, a ∈ bc_free_list s ->
    exists b, bcents s !! a = Some b /\ tst (buf_state b) BC_VALID = false;
  bo_cov : forall a b, bcents s !! a = Some b ->
    a ∈ bc_free_list s \/ a ∈ bc_queue (bc_key_hash b) s;
  bo_dirty : si_ndpages (si s) = u32 (mcount live_dirty (bcents s));
  bo_addr : forall a b, bcents s !! a = Some b ->
    exists q pp i, ppages s !! q = Some pp /\ pp_status pp = PP_KERNRO /\
      0 <= i < bc_per_page /\ a = bc_addr q i;
  bo_st : forall p pp, ppages s !! p = Some pp -> pp_buf pp <> 0 ->
    pp_status pp = PP_FREE \/ pp_status pp = PP_USER }.

Definition pool_ok (s : pool) : Prop := pages_ok None s /\ bc_ok s.

(** What each half of the invariant reads. *)
Lemma pages_ok_ext x s s' :
  ppages s' = ppages s -> nppage s' = nppage s -> free_list s' = free_list s ->
  free_bufs s' = free_bufs s -> si_nfreepages (si s') = si_nfreepages (si s) ->
  si_nfreebufpages (si s') = si_nfreebufpages (si s) ->
  si_pinnedpages (si s') = si_pinnedpages (si s) ->
  pages_ok x s -> pages_ok x s'.
Proof.
  intros E1 E2 E3 E4 E5 E6 E7 [].
  split; unfold on_list in *; rewrite ?E1, ?E2, ?E3, ?E4, ?E5, ?E6, ?E7; auto.
Qed.

Lemma bc_ok_ext s s' :
  ppages s' = ppages s -> bcents s' = bcents s -> bc_qs s' = bc_qs s ->
  bc_free_list s' = bc_free_list s -> si_ndpages (si s') = si_ndpages (si s) ->
  bc_ok s -> bc_ok s'.
Proof.
  intros E1 E2 E3 E4 E5 [].
  split; unfold bc_queue in *; rewrite ?E1, ?E2, ?E3, ?E4, ?E5; auto.
Qed.

(** Changing a page in a way the cache does not see. *)
Lemma bc_ok_page s p pp pp' :
  ppages s !! p = Some pp -> pp_buf pp' = pp_buf pp ->
  (pp_status pp = PP_KERNRO -> pp_status pp' = PP_KERNRO) ->
  (pp_buf pp <> 0 -> pp_status pp' = pp_status pp \/ pp_status pp' = PP_FREE \/ pp_status pp' = PP_USER) ->
  bc_ok s -> bc_ok (set_ppages (<[p := pp']> (ppages s)) s).
Proof.
  intros Hp Hb Hk Hst [P Q QN FN F C D A ST]. split; cbn; auto.
  - intros q qq Hq Hn. destruct (decide (p = q)) as [<-|Hne].
    + rewrite lookup_insert_eq in Hq. injection Hq as <-. rewrite Hb in *. eauto.
    + rewrite lookup_insert_ne in Hq by done. eauto.
  - intros h a Ha. destruct (Q h a Ha) as (b & qq & ? & ? & ? & Hq & ? & ? & ?).
    destruct (decide (p = buf_ppn b)) as [->|Hne].
    + exists b, pp'. rewrite lookup_insert_eq. split_and!; try done. congruence.
    + exists b, qq. rewrite lookup_insert_ne by done. done.
  - intros a b Ha. destruct (A a b Ha) as (q & qq & i & Hq & ? & ? & ?).
    destruct (decide (p = q)) as [->|Hne].
    + exists q, pp', i. rewrite lookup_insert_eq. split; [done|].
      split; [apply Hk; congruence|done].
    + exists q, qq, i. rewrite lookup_insert_ne by done. done.
  - intros q qq Hq Hn. destruct (decide (p = q)) as [<-|Hne].
    + rewrite lookup_insert_eq in Hq. injection Hq as <-. rewrite Hb in Hn.
      destruct (Hst Hn) as [->|?]; [eauto|done].
    + rewrite lookup_insert_ne in Hq by done. eauto.
Qed.

(** Changing a header in a way the invariant does not see. *)
Lemma bc_ok_entry s a b b' :
  bcents s !! a = Some b -> buf_dev b' = buf_dev b -> buf_blk64 b' = buf_blk64 b ->
  buf_ppn b' = buf_ppn b -> buf_dirty b' = buf_dirty b ->
  tst (buf_state b') BC_VALID = tst (buf_state b) BC_VALID ->
  bc_ok s -> bc_ok (set_bcents (<[a := b']> (bcents s)) s).
Proof.
  intros Ha Hd Hk Hp Hdi Hv [P Q QN FN F C D A ST].
  assert (bc_key_hash b' = bc_key_hash b) as Hh by (unfold bc_key_hash; congruence).
  split; cbn; auto.
  - intros q qq Hq Hn. destruct (P q qq Hq Hn) as (b0 & Hb0 & ? & ?).
    destruct (decide (pp_buf qq = a)) as [E|Hne].
    + exists b'. rewrite E, lookup_insert_eq, Hh, Hp. rewrite E in *. naive_solver congruence.
    + exists b0. rewrite lookup_insert_ne by done. done.
  - intros h a0 Ha0. destruct (Q h a0 Ha0) as (b0 & qq & Hb0 & ? & ? & Hq & ? & ? & ?).
    destruct (decide (a = a0)) as [<-|Hne].
    + exists b', qq. rewrite lookup_insert_eq, Hh, Hp. assert (b0 = b) as -> by congruence.
      rewrite Hv. done.
    + exists b0, qq. rewrite lookup_insert_ne by done. done.
  - intros a0 Ha0. destruct (F a0 Ha0) as (b0 & ? & ?). destruct (decide (a = a0)) as [<-|Hne].
    + exists b'. rewrite lookup_insert_eq. split; congruence.
    + exists b0. by rewrite lookup_insert_ne.
  - intros a0 b0 Ha0. destruct (decide (a = a0)) as [<-|Hne].
    + rewrite lookup_insert_eq in Ha0. injection Ha0 as <-. rewrite Hh. eauto.
    + rewrite lookup_insert_ne in Ha0 by done. eauto.
  - rewrite (mcount_insert _ _ _ b) by done. rewrite D. unfold live_dirty, bc_is_dirty. rewrite Hdi, Hv. f_equal. lia.
  - intros a0 b0 Ha0. destruct (decide (a = a0)) as [<-|Hne].
    + eauto.
    + rewrite lookup_insert_ne in Ha0 by done. eauto.
Qed.

(** ** Dirty bits *)

Lemma u32_add x d : u32 (u32 x + d) = u32 (x + d).
Proof. unfold u32, wrapu. rewrite Zplus_mod_idemp_l. done. Qed.

Lemma bc_ok_dirty s a b d :
  bcents s !! a = Some b -> tst (buf_state b) BC_VALID = true ->
  bc_ok s ->
  bc_ok (set_bcents (<[a := bc_dirty_as d b]> (bcents s))
          (set_si (si_add_dirty (b2z (d =? BUF_DIRTY) - b2z (bc_is_dirty b)) (si s)) s)).
Proof.
  intros Ha Hv [P Q QN FN F C D A ST]. split; cbn; auto.
  - intros q qq Hq Hn. destruct (P q qq Hq Hn) as (b0 & Hb0 & ? & ?).
    destruct (decide (pp_buf qq = a)) as [E|Hne].
    + rewrite E in *. assert (b0 = b) as -> by congruence.
      eexists. rewrite lookup_insert_eq. done.
    + exists b0. rewrite lookup_insert_ne by done. done.
  - intros h a0 Ha0. destruct (Q h a0 Ha0) as (b0 & qq & Hb0 & ? & ? & Hq & ? & ? & ?).
    destruct (decide (a = a0)) as [<-|Hne].
    + exists (bc_dirty_as d b), qq. rewrite lookup_insert_eq. assert (b0 = b) as -> by congruence.
      done.
    + exists b0, qq. rewrite lookup_insert_ne by done. done.
  - intros a0 Ha0. destruct (F a0 Ha0) as (b0 & ? & ?). destruct (decide (a = a0)) as [<-|Hne].
    + eexists. rewrite lookup_insert_eq. split; [done|]. cbn. congruence.
    + exists b0. by rewrite lookup_insert_ne.
  - intros a0 b0 Ha0. destruct (decide (a = a0)) as [<-|Hne].
    + rewrite lookup_insert_eq in Ha0. injection Ha0 as <-. unfold bc_key_hash. cbn. by apply C.
    + rewrite lookup_insert_ne in Ha0 by done. eauto.
  - rewrite (mcount_insert _ _ _ b) by done. rewrite D, u32_add. f_equal. unfold live_dirty, bc_is_dirty. cbn. rewrite Hv. cbn. lia.
  - intros a0 b0 Ha0. destruct (decide (a = a0)) as [<-|Hne].
    + eauto.
    + rewrite lookup_insert_ne in Ha0 by done. eauto.
Qed.

Definition clean_bc (a : Z) (b : bc_entry) (s : pool) : pool :=
  if bc_is_dirty b
  then set_bcents (<[a := bc_dirty_as BUF_CLEAN b]> (bcents s)) (set_si (si_add_dirty (-1) (si s)) s)
  else s.

Lemma bc_set_clean_run a b s (Q : unit -> pool -> Prop) :
  bcents s !! a = Some b -> Q tt (clean_bc a b s) -> wp (bc_set_clean a) s Q.
Proof.
  intros Hb HQ. unfold bc_set_clean. ps_steps. unfold clean_bc in HQ.
  destruct (bc_is_dirty b); [|exact HQ]. ps_steps. exact HQ.
Qed.

Lemma clean_bc_ok x a b s :
  bcents s !! a = Some b -> tst (buf_state b) BC_VALID = true -> pages_ok x s -> bc_ok s ->
  pages_ok x (clean_bc a b s) /\ bc_ok (clean_bc a b s).
Proof.
  intros Hb Hv Hp Hc. unfold clean_bc. destruct (bc_is_dirty b) eqn:Hd; [|done]. split.
  - by eapply pages_ok_ext, Hp.
  - pose proof (bc_ok_dirty s a b BUF_CLEAN Hb Hv Hc) as H.
    rewrite Hd in H. exact H.
Qed.

Lemma bc_set_dirty_ok x a b s :
  bcents s !! a = Some b -> tst (buf_state b) BC_VALID = true -> pages_ok x s -> bc_ok s ->
  wp (bc_set_dirty a) s (fun _ s' => pages_ok x s' /\ bc_ok s' /\
    exists b', bcents s' = <[a := b']> (bcents s) /\ buf_dirty b' = BUF_DIRTY).
Proof.
  intros Hb Hv Hp Hc. unfold bc_set_dirty. ps_steps. destruct (bc_is_dirty b) eqn:Hd.
  - ps_steps. split_and!; [done..|]. exists b. split; [by rewrite insert_id|]. by apply Z.eqb_eq.
  - ps_steps. split_and!; [by eapply pages_ok_ext, Hp| |by eexists].
    pose proof (bc_ok_dirty s a b BUF_DIRTY Hb Hv Hc) as H. rewrite Hd in H. exact H.
Qed.

(** ** Removing a header from the cache *)

Definition removed_bc (a : Z) (b : bc_entry) (q : list Z) (pp : Ppage) (s : pool) : pool :=
  mkPool (<[buf_ppn b := pp_set_buf 0 pp]> (ppages s)) (nppage s) (free_list s) (free_bufs s)
    (<[a := bc_state_as BC_EMPTY b]> (bcents s)) (<[bc_key_hash b := q]> (bc_qs s))
    (a :: bc_free_list s) (next_page s) (bc_upt s) (si s).

Lemma bc_remove_run a b q pp s (Q : unit -> pool -> Prop) :
  bcents s !! a = Some b -> tst (buf_state b) BC_VALID = true ->
  ppages s !! buf_ppn b = Some pp -> pp_buf pp = a ->
  unlink a (bc_queue (bc_key_hash b) s) = Some q ->
  Q tt (removed_bc a b q pp s) -> wp (bc_remove a) s Q.
Proof.
  intros Hb Hv Hp Ha Hq HQ. unfold bc_remove. ps_steps; [done|by apply Z.eqb_eq|].
  apply wp_of_option. exists q. split; [exact Hq|]. ps_steps. exact HQ.
Qed.

Lemma bc_queue_insert h q h' s m :
  bc_qs s = <[h := q]> m -> bc_queue h' s = if decide (h = h') then q else default [] (m !! h').
Proof.
  intros E. unfold bc_queue. rewrite E. destruct (decide (h = h')) as [<-|?].
  - by rewrite lookup_insert_eq.
  - by rewrite lookup_insert_ne.
Qed.

Lemma removed_bc_ok a b q pp s :
  bcents s !! a = Some b -> bc_is_dirty b = false ->
  ppages s !! buf_ppn b = Some pp -> pp_buf pp = a ->
  unlink a (bc_queue (bc_key_hash b) s) = Some q ->
  bc_ok s -> bc_ok (removed_bc a b q pp s).
Proof.
  intros Hb Hd Hp Ha Hq Hok. pose proof Hok as [P Q QN FN F C D A ST].
  destruct (unlink_NoDup _ _ _ (QN _) Hq) as (Hnd & Hnot & Hin).
  assert (forall h' x, x ∈ bc_queue h' (removed_bc a b q pp s) <-> x ∈ bc_queue h' s /\ x <> a) as Hqs.
  { intros h' x. erewrite bc_queue_insert by reflexivity.
    destruct (decide _) as [<-|Hne]; [apply Hin|]. change (default [] (bc_qs s !! h')) with (bc_queue h' s).
    split; [|tauto]. intros Hx. split; [done|]. intros ->.
    destruct (Q h' a Hx) as (b0 & _ & Hb0 & Hh & _). congruence. }
  assert (a ∈ bc_queue (bc_key_hash b) s) as Hqa.
  { apply unlink_perm in Hq. rewrite Hq. left. }
  assert (a ∉ bc_free_list s) as Hfa by (destruct (Q _ _ Hqa) as (?&?&?&?&?&?&?&?&?); done).
  split.
  - cbn [ppages bcents removed_bc]. intros p0 pp0 Hp0 Hn. destruct (decide (buf_ppn b = p0)) as [<-|Hne].
    + rewrite lookup_insert_eq in Hp0. injection Hp0 as <-. done.
    + rewrite lookup_insert_ne in Hp0 by done. destruct (P p0 pp0 Hp0 Hn) as (b0 & ? & ? & ?).
      assert (pp_buf pp0 <> a) by congruence.
      exists b0. rewrite lookup_insert_ne by done. rewrite Hqs. done.
  - intros h x Hx. apply Hqs in Hx as [Hx Hne].
    destruct (Q h x Hx) as (b0 & pp0 & Hb0 & ? & ? & Hp0 & ? & ? & ?).
    exists b0, pp0. cbn. rewrite lookup_insert_ne by done.
    assert (buf_ppn b <> buf_ppn b0) by congruence. rewrite lookup_insert_ne by done.
    split_and!; try done. apply not_elem_of_cons. done.
  - intros h. erewrite bc_queue_insert by reflexivity. destruct (decide _); [done|apply QN].
  - cbn. constructor; done.
  - cbn. intros x [->|Hx]%elem_of_cons.
    + eexists. rewrite lookup_insert_eq. done.
    + destruct (F x Hx) as (b0 & ? & ?). exists b0. rewrite lookup_insert_ne by congruence. done.
  - cbn [bcents removed_bc bc_free_list]. intros x b0 Hx. destruct (decide (a = x)) as [<-|Hne]; [left; left|].
    rewrite lookup_insert_ne in Hx by done. rewrite Hqs, elem_of_cons. destruct (C x b0 Hx); auto.
  - cbn. rewrite (mcount_insert _ _ _ b) by done. rewrite D. unfold live_dirty. rewrite Hd, andb_false_r.
    change (tst (buf_state (bc_state_as BC_EMPTY b)) BC_VALID) with false. cbn. f_equal. lia.
  - cbn. intros x b0 Hx.
    assert (exists b1, bcents s !! x = Some b1) as [b1 Hb1].
    { destruct (decide (a = x)) as [<-|Hne]; [eauto|]. rewrite lookup_insert_ne in Hx by done. eauto. }
    destruct (A x b1 Hb1) as (p0 & pp0 & i & Hp0 & ? & ? & ?).
    destruct (decide (buf_ppn b = p0)) as [<-|Hne].
    + exists (buf_ppn b), (pp_set_buf 0 pp), i. rewrite lookup_insert_eq. cbn.
      split; [done|]. split; [congruence|done].
    + exists p0, pp0, i. by rewrite lookup_insert_ne.
  - cbn. intros p0 pp0 Hp0 Hn. destruct (decide (buf_ppn b = p0)) as [<-|Hne].
    + rewrite lookup_insert_eq in Hp0. injection Hp0 as <-. done.
    + rewrite lookup_insert_ne in Hp0 by done. eauto.
Qed.

(** ** Moving a page on and off the lists *)

(** A page in transit may be changed at will, its pin count excepted. *)
Lemma pages_ok_transit s p pp pp' :
  ppages s !! p = Some pp -> pp_pinned pp' = pp_pinned pp ->
  pages_ok (Some p) s -> pages_ok (Some p) (set_ppages (<[p := pp']> (ppages s)) s).
Proof.
  intros Hp Hpin [SZ DOM FL FB FLI FBI U NF NB PIN NP].
  assert (forall isb q, on_list (Some p) isb (set_ppages (<[p := pp']> (ppages s)) s) q <->
                        on_list (Some p) isb s q) as Hon.
  { intros isb q. unfold on_list. cbn. destruct (decide (p = q)) as [<-|Hne]; [naive_solver|].
    by rewrite lookup_insert_ne. }
  split; cbn; try done.
  - intros q. rewrite <- DOM. destruct (decide (p = q)) as [<-|Hne].
    + rewrite lookup_insert_eq, Hp. split; intros _; eauto.
    + by rewrite lookup_insert_ne.
  - intros q. rewrite FLI. symmetry. apply Hon.
  - intros q. rewrite FBI. symmetry. apply Hon.
  - intros q qq Hq Hne. rewrite lookup_insert_ne in Hq by congruence. eauto.
  - intros q qq Hq. destruct (decide (p = q)) as [<-|Hne].
    + rewrite lookup_insert_eq in Hq. injection Hq as <-. rewrite Hpin. eauto.
    + rewrite lookup_insert_ne in Hq by done. eauto.
  - rewrite (mcount_insert _ _ _ pp) by done. rewrite Hpin, NP. f_equal. lia.
Qed.

(** A page in transit that is in use again. *)
Lemma pages_ok_close s p pp :
  ppages s !! p = Some pp -> pp_status pp <> PP_FREE -> pp_u pp <> PLink ->
  pages_ok (Some p) s -> pages_ok None s.
Proof.
  intros Hp Hs Hu [SZ DOM FL FB FLI FBI U NF NB PIN NP].
  assert (forall isb q, on_list None isb s q <-> on_list (Some p) isb s q) as Hon.
  { intros isb q. unfold on_list. destruct (decide (p = q)) as [<-|Hne]; naive_solver. }
  split; try done.
  - intros q. by rewrite Hon.
  - intros q. by rewrite Hon.
  - intros q qq Hq _. destruct (decide (p = q)) as [<-|Hne]; [naive_solver|].
    apply (U q qq Hq). congruence.
Qed.

Lemma pages_ok_open s p pp :
  ppages s !! p = Some pp -> pp_status pp <> PP_FREE -> pages_ok None s -> pages_ok (Some p) s.
Proof.
  intros Hp Hs [SZ DOM FL FB FLI FBI U NF NB PIN NP].
  assert (forall isb q, on_list None isb s q <-> on_list (Some p) isb s q) as Hon.
  { intros isb q. unfold on_list. destruct (decide (p = q)) as [<-|Hne]; naive_solver. }
  split; try done.
  - intros q. by rewrite <- Hon.
  - intros q. by rewrite <- Hon.
  - intros q qq Hq _. by apply (U q qq Hq).
Qed.

Lemma pages_ok_take_fl s p l :
  pages_ok None s -> unlink p (free_list s) = Some l ->
  pages_ok (Some p) (set_si (si_add_free (-1) (si s)) (set_free_list l s)).
Proof.
  intros [SZ DOM FL FB FLI FBI U NF NB PIN NP] Hl.
  destruct (unlink_NoDup _ _ _ FL Hl) as (Hnd & Hnot & Hin).
  assert (p ∈ free_list s) as Hp by (apply unlink_perm in Hl; rewrite Hl; left).
  apply FLI in Hp as (pp & Hp & _ & Hs & Hb). apply negb_false_iff, Z.eqb_eq in Hb.
  split; cbn; try done.
  - intros q. rewrite Hin, FLI. unfold on_list. cbn. naive_solver congruence.
  - intros q. rewrite FBI. unfold on_list. cbn. split; intros (qq & Hq & ? & ? & Hbq).
    + exists qq. split_and!; try done. intros [= <-].
      assert (qq = pp) as -> by congruence. rewrite Hb in Hbq. done.
    + exists qq. done.
  - intros q qq Hq _. by apply (U q).
  - rewrite NF, u32_add, (unlink_zlen _ _ _ Hl). f_equal. lia.
Qed.

Lemma pages_ok_take_fb s p l :
  pages_ok None s -> unlink p (free_bufs s) = Some l ->
  pages_ok (Some p) (set_si (si_add_free (-1) (si_add_freebuf (-1) (si s))) (set_free_bufs l s)).
Proof.
  intros [SZ DOM FL FB FLI FBI U NF NB PIN NP] Hl.
  destruct (unlink_NoDup _ _ _ FB Hl) as (Hnd & Hnot & Hin).
  assert (p ∈ free_bufs s) as Hp by (apply unlink_perm in Hl; rewrite Hl; left).
  apply FBI in Hp as (pp & Hp & _ & Hs & Hb).
  split; cbn; try done.
  - intros q. rewrite FLI. unfold on_list. cbn. split; intros (qq & Hq & ? & ? & Hbq).
    + exists qq. split_and!; try done. intros [= <-].
      assert (qq = pp) as -> by congruence. rewrite Hb in Hbq. done.
    + exists qq. done.
  - intros q. rewrite Hin, FBI. unfold on_list. cbn. naive_solver congruence.
  - intros q qq Hq _. by apply (U q).
  - rewrite NF, u32_add, (unlink_zlen _ _ _ Hl). f_equal. lia.
  - rewrite NB, u32_add, (unlink_zlen _ _ _ Hl). f_equal. lia.
Qed.
