(* ===== verification/PageAlloc.v ===== *)
(** * The physical page allocator

    [ppage_free], the reclaim and reuse operations, [ppage_find_free],
    [ppage_alloc], [ppage_alloc_n] and the page table of [ppage_init]
    (sys/kern/pmap.c), on a uniprocessor kernel, where the page locks are always
    granted. *)

From Stdlib Require Import ZArith Lia.
From stdpp Require Import base numbers option list gmap.
From S2P Require Import Prelude Capability PageState.

(** ** Freeing and reclaiming *)

(** Freeing a mapped page only warns. *)
Definition ppage_free (p : Z) : M pool unit :=
  pp <- get_pp p ;;
  n <- of_option (pp_refcnt pp) ;;
  if negb (n =? 0) then mreturn tt
  else
    (if negb (pp_buf pp =? 0) then
       modify (fun s => set_free_bufs (free_bufs s ++ [p]) s) ;;
       upd_pp p (pp_set_u PLink) ;;
       upd_si (si_add_freebuf 1)
     else
       modify (fun s => set_free_list (p :: free_list s) s) ;;
       upd_pp p (pp_set_u PLink)) ;;
    upd_pp p (pp_set_status PP_FREE) ;;
    upd_si (si_add_free 1).

Definition ppage_reclaim_buffer (p type : Z) : M pool unit :=
  pp <- get_pp p ;;
  b <- get_bc (pp_buf pp) ;;
  (if bc_is_dirty b then bc_set_clean (pp_buf pp) else mreturn tt) ;;
  upd_si (si_add_freebuf (-1)) ;;
  upd_si (si_add_free (-1)) ;;
  fb <- gets free_bufs ;;
  fb' <- of_option (unlink p fb) ;;
  modify (set_free_bufs fb') ;;
  bc_remove (pp_buf pp) ;;
  ppage_initpp p type.

Definition ppage_free_bufs_2_free_list (p : Z) : M pool unit :=
  ppage_reclaim_buffer p PP_FREE ;;
  ppage_free p.

(** The mini-initialization that keeps the limits, the list and the buffer. *)
Definition reusepp (pp : Ppage) : Ppage := pp_set_u (PV [] 0 0) (pp_set_status PP_USER pp).

Definition ppage_reuse_buffer (p : Z) : M pool unit :=
  upd_si (si_add_freebuf (-1)) ;;
  upd_si (si_add_free (-1)) ;;
  fb <- gets free_bufs ;;
  fb' <- of_option (unlink p fb) ;;
  modify (set_free_bufs fb') ;;
  upd_pp p reusepp.

Definition ppage_reclaim_page (p type : Z) : M pool unit :=
  fl <- gets free_list ;;
  fl' <- of_option (unlink p fl) ;;
  modify (set_free_list fl') ;;
  upd_si (si_add_free (-1)) ;;
  ppage_initpp p type.

Definition ppage_reclaim (p type : Z) : M pool unit :=
  pp <- get_pp p ;;
  if negb (pp_buf pp =? 0) then ppage_reclaim_buffer p type else ppage_reclaim_page p type.

(** ** Finding a page *)

(** Walk a list to the first element that passes the test. *)
Fixpoint walk (test : Z -> M pool bool) (l : list Z) : M pool (option Z) :=
  match l with
  | [] => mreturn None
  | p :: l' => b <- test p ;; if b then mreturn (Some p) else walk test l'
  end.

Definition not_pinned (p : Z) : M pool bool :=
  pp <- get_pp p ;; mreturn (pp_pinned pp =? 0).

(** Result code and [*pp] (NULL as [None]). *)
Definition ppage_find_free (userreq : Z) : M pool (Z * option Z) :=
  x <- gets si ;;
  let n := s32 (si_nfreepages x - si_nfreebufpages x) in
  r <- (if (userreq =? 0) || (256 <? n)
        then fl <- gets free_list ;; walk not_pinned fl
        else mreturn None) ;;
  match r with
  | Some p => mreturn (0, Some p)
  | None =>
      fb <- gets free_bufs ;;
      r <- walk ppage_is_reclaimable fb ;;
      match r with
      | Some p => mreturn (0, Some p)
      | None => mreturn (- E_NO_MEM, None)
      end
  end.

Definition ppage_alloc (type userreq : Z) : M pool (Z * option Z) :=
  r <- ppage_find_free userreq ;;
  match r with
  | (r, Some p) => if r <? 0 then mreturn (r, Some p) else ppage_reclaim p (u8 type) ;; mreturn (0, Some p)
  | (r, None) => if r <? 0 then mreturn (r, None) else panic
  end.

(** ** Contiguous pages *)

(** The inner [for] loop: are pages [p .. p+n-1] in range and reclaimable? *)
Fixpoint range_free (p : Z) (n : nat) : M pool bool :=
  match n with
  | O => mreturn true
  | S n' =>
      lim <- gets nppage ;;
      if lim <=? p then mreturn false
      else
        r <- ppage_is_reclaimable p ;;
        if r then range_free (p + 1) n' else mreturn false
  end.

(** The second search; the accumulator is [*pp], [p] and [cnt]. *)
Fixpoint open_scan (n : Z) (ix : list Z) (pp : option Z) (p cnt : Z) : M pool (option Z * Z) :=
  match ix with
  | [] => mreturn (pp, cnt)
  | i :: ix' =>
      let start := match pp with Some x => x | None => i end in
      let p := match pp with Some _ => p | None => i end in
      r <- ppage_is_reclaimable p ;;
      if negb r then open_scan n ix' None p 0
      else if cnt + 1 =? n then mreturn (Some start, cnt + 1)
      else open_scan n ix' (Some start) (p + 1) (cnt + 1)
  end.

Definition ppage_alloc_n (type n : Z) : M pool (Z * option Z) :=
  let n := if n <? 2 then 2 else n in
  fl <- gets free_list ;;
  pp <- walk (fun p => range_free p (Z.to_nat n)) fl ;;
  r <- match pp with
       | Some p => mreturn (Some p)
       | None =>
           lim <- gets nppage ;;
           r <- open_scan n (zseq 0 (Z.to_nat lim)) None 0 0 ;;
           let '(pp, cnt) := r in
           if cnt <? n then mreturn None
           else match pp with Some p => mreturn (Some p) | None => panic end
       end ;;
  match r with
  | None => mreturn (-1, None)
  | Some p =>
      mfor (fun q => ppage_reclaim q (u8 type)) (zseq p (Z.to_nat n)) ;;
      mreturn (0, Some p)
  end.

(** ** Boot: the page descriptors of [ppage_init]

    [basememsize], [start_readonly] and [freemem] come from the BIOS and the
    linker.  Descriptors start out zeroed ([ptspace_alloc]). *)
Definition IOPHYSMEM := 0xa0000.
Definition EXTPHYSMEM := 0x100000.

Definition pp_zero : Ppage :=
  mkPp (PV [] 0 0) 0 0 0 (repeat cap_null (Z.to_nat PP_ACL_LEN)) 0 0 0 0.

Definition set_status (st p : Z) : M pool unit := upd_pp p (pp_set_status st).

Definition init_free_page (p : Z) : M pool unit :=
  ppage_initpp p PP_FREE ;;
  upd_pp p (pp_set_pinned 0) ;;
  modify (fun s => set_free_list (p :: free_list s) s) ;; upd_pp p (pp_set_u PLink) ;;
  upd_si (si_add_free 1).

(** The indices of [for (lim = ..; i < lim; i++)]. *)
Definition upto (i lim : Z) : list Z := zseq i (Z.to_nat (lim - i)).

Definition boot_pool (n : Z) : pool :=
  mkPool (list_to_map ((fun p => (p, pp_zero)) <$> zseq 0 (Z.to_nat n))) n [] [] ∅ ∅ [] 1 ∅
    (mkSi 0 0 0 0 0).

Definition ppage_init_pages (basememsize start_readonly freemem : Z) : M pool unit :=
  n <- gets nppage ;;
  set_status PP_INVAL 0 ;;
  set_status PP_IOMEM 1 ;;
  let l1 := Z.max 2 (Z.shiftr (Z.min basememsize IOPHYSMEM) PGSHIFT) in
  mfor init_free_page (upto 2 l1) ;;
  let l2 := Z.max l1 (Z.shiftr IOPHYSMEM PGSHIFT) in
  mfor (set_status PP_INVAL) (upto l1 l2) ;;
  let l3 := Z.max l2 (Z.shiftr EXTPHYSMEM PGSHIFT) in
  mfor (set_status PP_IOMEM) (upto l2 l3) ;;
  let l4 := Z.max l3 (Z.shiftr (start_readonly - KERNBASE) PGSHIFT) in
  mfor (set_status PP_KERNEL) (upto l3 l4) ;;
  let l5 := Z.max l4 (Z.shiftr (freemem - KERNBASE) PGSHIFT) in
  mfor (set_status PP_KERNRO) (upto l4 l5) ;;
  mfor init_free_page (upto l5 n) ;;
  modify (fun s => set_si (mkSi n (si_nfreepages (si s)) (si_nfreebufpages (si s))
                             (si_ndpages (si s)) (si_pinnedpages (si s))) s) ;;
  ppage_grant_iomem 1.

(** ** What the operations do, page by page *)

(** Page [p], in transit and unmapped, is put on the list it belongs to. *)
Definition freed (p : Z) (pp : Ppage) (s : pool) : pool :=
  let pp' := pp_set_status PP_FREE (pp_set_u PLink pp) in
  if negb (pp_buf pp =? 0)
  then set_si (si_add_free 1 (si_add_freebuf 1 (si s)))
         (set_ppages (<[p := pp']> (ppages s)) (set_free_bufs (free_bufs s ++ [p]) s))
  else set_si (si_add_free 1 (si s))
         (set_ppages (<[p := pp']> (ppages s)) (set_free_list (p :: free_list s) s)).

Lemma ppage_free_run p pp n s (Q : unit -> pool -> Prop) :
  ppages s !! p = Some pp -> pp_refcnt pp = Some n ->
  Q tt (if n =? 0 then freed p pp s else s) -> wp (ppage_free p) s Q.
Proof.
  intros Hp Hn HQ. unfold ppage_free. ps_steps. rewrite Hn. cbn. ps_steps.
  destruct (n =? 0); [|exact HQ]. cbn [negb]. unfold freed in HQ.
  destruct (negb (pp_buf pp =? 0)).
  - ps_steps.
    cbn in HQ |- *. rewrite insert_insert_eq. exact HQ.
  - ps_steps.
    cbn in HQ |- *. rewrite insert_insert_eq. exact HQ.
Qed.

Lemma freed_pages_ok p pp s :
  ppages s !! p = Some pp -> pages_ok (Some p) s -> pages_ok None (freed p pp s).
Proof.
  intros Hp [SZ DOM FL FB FLI FBI U NF NB PIN NP].
  assert (p ∉ free_list s) as Nfl by (rewrite FLI; intros (? & _ & ? & _); done).
  assert (p ∉ free_bufs s) as Nfb by (rewrite FBI; intros (? & _ & ? & _); done).
  set (pp' := pp_set_status PP_FREE (pp_set_u PLink pp)).
  assert (forall isb q s', ppages s' = <[p := pp']> (ppages s) ->
            on_list None isb s' q <->
            (q = p /\ negb (pp_buf pp =? 0) = isb) \/ on_list (Some p) isb s q) as Hon.
  { intros isb q s' Es'. unfold on_list. rewrite Es'. destruct (decide (p = q)) as [<-|Hne].
    - rewrite lookup_insert_eq. split; [intros (? & [= <-] & _ & _ & ?); cbn in *; eauto|].
      intros [[_ ?]|(? & _ & ? & _)]; [|done]. exists pp'. done.
    - rewrite lookup_insert_ne by done. split.
      + intros (qq & ? & _ & ?). right. exists qq. split_and!; naive_solver.
      + intros [[? _]|(qq & ? & _ & ?)]; [congruence|]. exists qq. done. }
  assert (forall q, is_Some (<[p := pp']> (ppages s) !! q) <-> 0 <= q < nppage s) as DOM'.
  { intros q. rewrite <- DOM. destruct (decide (p = q)) as [<-|Hne].
    - rewrite lookup_insert_eq, Hp. split; intros _; eauto.
    - by rewrite lookup_insert_ne. }
  assert (forall q qq, <[p := pp']> (ppages s) !! q = Some qq ->
            (pp_status qq = PP_FREE <-> pp_u qq = PLink) /\ 0 <= pp_pinned qq < 2 ^ 31) as UP.
  { intros q qq Hq. destruct (decide (p = q)) as [<-|Hne].
    - rewrite lookup_insert_eq in Hq. injection Hq as <-. cbn. split; [done|]. eapply PIN, Hp.
    - rewrite lookup_insert_ne in Hq by done. split; [|by eapply PIN].
      apply (U q qq Hq). congruence. }
  assert (si_pinnedpages (si s) = u32 (mcount (fun pp => 0 <? pp_pinned pp) (<[p := pp']> (ppages s)))) as NP'.
  { rewrite (mcount_insert _ _ _ pp) by done. rewrite NP. cbn. f_equal. lia. }
  unfold freed. fold pp'. destruct (negb (pp_buf pp =? 0)) eqn:Hb.
  all: split; cbn; try done; try (intros q qq Hq; by apply (UP q)); try (intros q qq Hq _; by apply (UP q)).
  - apply NoDup_app. split_and!; [done| |apply NoDup_singleton].
    intros x Hx ->%list_elem_of_singleton. done.
  - intros q. rewrite FLI, Hon by reflexivity. naive_solver.
  - intros q. rewrite elem_of_app, list_elem_of_singleton, FBI, Hon by reflexivity. naive_solver.
  - rewrite NF, u32_add. f_equal. autorewrite with xok. lia.
  - rewrite NB, u32_add. f_equal. autorewrite with xok. lia.
  - constructor; done.
  - intros q. rewrite elem_of_cons, FLI, Hon by reflexivity. naive_solver.
  - intros q. rewrite FBI, Hon by reflexivity. naive_solver.
  - rewrite NF, u32_add. f_equal. autorewrite with xok. lia.
Qed.

Lemma freed_bc_ok p pp s :
  ppages s !! p = Some pp -> pp_status pp <> PP_KERNRO -> bc_ok s -> bc_ok (freed p pp s).
Proof.
  intros Hp Hs H.
  assert (bc_ok (set_ppages (<[p := pp_set_status PP_FREE (pp_set_u PLink pp)]> (ppages s)) s)) as H'
    by (eapply (bc_ok_page s p pp); cbn; auto; done).
  unfold freed. destruct (negb _); by eapply bc_ok_ext, H'.
Qed.

(** The result of taking free page [p] off its list and initialising it:
    everything but the page and the header it cached is as before. *)
Record reclaimed (p type : Z) (pp : Ppage) (s s' : pool) : Prop := mkReclaimed {
  rc_pages : pages_ok (Some p) s';
  rc_bc : bc_ok s';
  rc_ppages : ppages s' = <[p := initpp type pp]> (ppages s);
  rc_n : nppage s' = nppage s;
  rc_fl : forall q, q ∈ free_list s' <-> q ∈ free_list s /\ q <> p;
  rc_fb : forall q, q ∈ free_bufs s' <-> q ∈ free_bufs s /\ q <> p;
  rc_ents : forall a, a <> pp_buf pp -> bcents s' !! a = bcents s !! a;
  rc_dom : forall a, is_Some (bcents s' !! a) <-> is_Some (bcents s !! a);
  rc_np : next_page s' = next_page s;
  rc_upt : bc_upt s' = bc_upt s }.

Lemma ppage_reclaim_page_spec p type pp s :
  pool_ok s -> ppages s !! p = Some pp -> pp_status pp = PP_FREE -> pp_buf pp = 0 ->
  wp (ppage_reclaim_page p type) s (fun _ s' => reclaimed p type pp s s').
Proof.
  intros [Hpg Hbc] Hp Hs Hb.
  assert (p ∈ free_list s) as Hin.
  { apply (pg_fl_in _ _ Hpg). exists pp. rewrite Hb. done. }
  assert (p ∉ free_bufs s) as Hnin.
  { rewrite (pg_fb_in _ _ Hpg). intros (pp0 & Hp0 & _ & _ & Hb0).
    assert (pp0 = pp) as -> by congruence. rewrite Hb in Hb0. done. }
  destruct (unlink_Some p (free_list s) Hin) as [l Hl].
  destruct (unlink_NoDup _ _ _ (pg_fl _ _ Hpg) Hl) as (_ & _ & Hl').
  unfold ppage_reclaim_page, ppage_initpp. ps_steps. apply wp_of_option. exists l. split; [done|].
  ps_steps. pose proof (pages_ok_take_fl s p l Hpg Hl) as H1.
  split; cbn; try done.
  - exact (pages_ok_transit (set_si _ (set_free_list l s)) p pp (initpp type pp) Hp eq_refl H1).
  - apply (bc_ok_ext (set_ppages (<[p := initpp type pp]> (ppages s)) s)); [reflexivity..|].
    apply (bc_ok_page s p pp); [done|cbn; congruence|rewrite Hs; done|done|done].
  - intros q. split; [|tauto]. intros Hq. split; [done|]. intros ->. done.
Qed.

Lemma bc_ok_owner s p q pp pq :
  bc_ok s -> ppages s !! p = Some pp -> ppages s !! q = Some pq ->
  pp_buf pp = pp_buf pq -> pp_buf pp <> 0 -> p = q.
Proof.
  intros Hbc Hp Hq E Hn. destruct (bo_pp _ Hbc p pp Hp Hn) as (b & Hb & <- & _).
  destruct (bo_pp _ Hbc q pq Hq) as (b' & Hb' & <- & _); congruence.
Qed.

Lemma bc_set_clean_if a b s (Q : unit -> pool -> Prop) :
  bcents s !! a = Some b -> Q tt (clean_bc a b s) ->
  wp (if bc_is_dirty b then bc_set_clean a else mreturn tt) s Q.
Proof.
  intros Hb HQ. destruct (bc_is_dirty b) eqn:Ed; [by eapply bc_set_clean_run|].
  apply wp_ret. unfold clean_bc in HQ. by rewrite Ed in HQ.
Qed.

(** What cleaning leaves alone. *)
Lemma clean_bc_frame a b s :
  bcents s !! a = Some b ->
  let s1 := clean_bc a b s in
  (ppages s1 = ppages s /\ nppage s1 = nppage s /\ free_list s1 = free_list s /\
   free_bufs s1 = free_bufs s /\ bc_qs s1 = bc_qs s /\ next_page s1 = next_page s /\
   bc_upt s1 = bc_upt s /\ (forall a', a' <> a -> bcents s1 !! a' = bcents s !! a')) /\
  exists b1, bcents s1 !! a = Some b1 /\ bc_is_dirty b1 = false /\ buf_ppn b1 = buf_ppn b /\
    buf_state b1 = buf_state b /\ bc_key_hash b1 = bc_key_hash b.
Proof.
  intros Hb. unfold clean_bc. destruct (bc_is_dirty b) eqn:Ed; cbn.
  - split; [split_and!; try done; intros a' Hne; by rewrite lookup_insert_ne|].
    eexists. rewrite lookup_insert_eq. done.
  - split; [done|]. exists b. done.
Qed.

(** A free page with a buffer is on [free_bufs] only. *)
Lemma on_free_bufs s p pp :
  pages_ok None s -> ppages s !! p = Some pp -> pp_status pp = PP_FREE -> pp_buf pp <> 0 ->
  p ∈ free_bufs s /\ p ∉ free_list s.
Proof.
  intros Hpg Hp Hs Hb%Z.eqb_neq. rewrite (pg_fb_in _ _ Hpg), (pg_fl_in _ _ Hpg). split.
  - exists pp. by rewrite Hb.
  - intros (pp1 & Hp1 & _ & _ & Hb1). assert (pp1 = pp) as -> by congruence.
    rewrite Hb in Hb1. done.
Qed.

Lemma ppage_reclaim_buffer_spec p type pp s :
  pool_ok s -> ppages s !! p = Some pp -> pp_status pp = PP_FREE -> pp_buf pp <> 0 ->
  wp (ppage_reclaim_buffer p type) s (fun _ s' => reclaimed p type pp s s').
Proof.
  intros [Hpg Hbc] Hp Hs Hb. set (a := pp_buf pp) in *.
  destruct (bo_pp _ Hbc p pp Hp Hb) as (b & Hab & Hbp & Hq). fold a in Hab, Hq.
  destruct (bo_q _ Hbc _ _ Hq) as (b0 & _ & Hb0 & _ & Hv & _).
  assert (b0 = b) as -> by congruence.
  destruct (on_free_bufs s p pp Hpg Hp Hs Hb) as [Hin Hnin].
  unfold ppage_reclaim_buffer, ppage_initpp. ps_steps. fold a. apply (bc_set_clean_if _ b); [done|].
  destruct (clean_bc_ok None a b s Hab Hv Hpg Hbc) as [Hpg1 Hbc1].
  destruct (clean_bc_frame a b s Hab) as [(E1 & E2 & E3 & E4 & E5 & E6 & E7 & E8)
    (b1 & Hb1 & Hd1 & Hp1 & Hs1 & Hh1)].
  set (s1 := clean_bc a b s) in *. clearbody s1.
  rewrite <- E4 in Hin. rewrite <- E1 in Hp. rewrite Hbp in Hp1. subst p.
  destruct (unlink_Some _ _ Hin) as [l Hl].
  destruct (unlink_NoDup _ _ _ (pg_fb _ _ Hpg1) Hl) as (_ & _ & Hl').
  ps_steps. apply wp_of_option. exists l. split; [done|]. ps_steps.
  pose proof (pages_ok_take_fb s1 _ l Hpg1 Hl) as H1.
  set (s2 := set_free_bufs l _).
  assert (bc_ok s2) as Hbc2 by (by eapply bc_ok_ext, Hbc1).
  assert (a ∈ bc_queue (bc_key_hash b1) s2) as Hq2.
  { rewrite Hh1. unfold bc_queue, s2 in *. cbn. by rewrite E5. }
  destruct (unlink_Some _ _ Hq2) as [q Hq'].
  eapply (bc_remove_run a b1 q pp); [done|by rewrite Hs1|by rewrite Hp1|done|done|].
  pose proof (removed_bc_ok a b1 q pp s2 Hb1 Hd1 ltac:(by rewrite Hp1) eq_refl Hq' Hbc2) as Hbc3.
  apply wp_upd_pp. cbn. rewrite Hp1. exists (pp_set_buf 0 pp). rewrite lookup_insert_eq.
  split; [done|]. unfold removed_bc in *. rewrite Hp1 in *. split; cbn.
  - eapply pages_ok_ext;
      [..|exact (pages_ok_transit (set_si _ (set_free_bufs l s1)) (buf_ppn b) pp (initpp type pp) Hp eq_refl H1)];
      cbn; try done. by rewrite insert_insert_eq.
  - eapply bc_ok_ext; [..|eapply (bc_ok_page _ (buf_ppn b) (pp_set_buf 0 pp) (initpp type pp)); [| | | |exact Hbc3]];
      cbn; try done; [by rewrite lookup_insert_eq|]. rewrite Hs. done.
  - rewrite insert_insert_eq. by rewrite E1.
  - done.
  - rewrite E3. intros q0. split; [|tauto]. intros ?. split; [done|]. intros ->. done.
  - intros q0. rewrite Hl', E4. done.
  - intros a' Hne. rewrite lookup_insert_ne by done. auto.
  - intros a'. destruct (decide (a = a')) as [<-|Hne]; [rewrite lookup_insert_eq|].
    + split; intros _; eauto.
    + rewrite lookup_insert_ne by done. rewrite E8; done.
  - done.
  - done.
Qed.

Lemma ppage_reclaim_spec p type pp s :
  pool_ok s -> ppages s !! p = Some pp -> pp_status pp = PP_FREE ->
  wp (ppage_reclaim p type) s (fun _ s' => reclaimed p type pp s s').
Proof.
  intros Hok Hp Hs. unfold ppage_reclaim. ps_steps.
  destruct (Z.eqb_spec (pp_buf pp) 0); cbn [negb].
  - by apply ppage_reclaim_page_spec.
  - by apply ppage_reclaim_buffer_spec.
Qed.

Lemma reclaimed_pool_ok p type pp s s' :
  type <> PP_FREE -> reclaimed p type pp s s' -> pool_ok s'.
Proof.
  intros Ht []. split; [|done]. eapply (pages_ok_close s' p); [..|done].
  - rewrite rc_ppages0. apply lookup_insert_eq.
  - done.
  - done.
Qed.

(** ** Changing a page in use *)

(** Page [p] becomes [pp]. *)
Definition put_page (p : Z) (pp : Ppage) (P : pool) : pool := set_ppages (<[p := pp]> (ppages P)) P.

Lemma pool_ok_page p pp pp' P :
  pool_ok P -> ppages P !! p = Some pp -> pp_status pp <> PP_FREE -> pp_u pp' <> PLink ->
  pp_status pp' = pp_status pp -> pp_buf pp' = pp_buf pp -> pp_pinned pp' = pp_pinned pp ->
  pool_ok (put_page p pp' P).
Proof.
  intros [Hpg Hbc] Hp Hs Hu Es Eb En. split.
  - eapply (pages_ok_close _ p pp'); [apply lookup_insert_eq|congruence|done|].
    eapply pages_ok_transit; [exact Hp|done|]. by eapply pages_ok_open.
  - eapply bc_ok_page; [exact Hp|done|congruence| |done]. intros _. by left.
Qed.

(** Changing what neither the free lists nor the buffer cache look at. *)
Lemma pool_ok_attr p pp pp' P :
  pool_ok P -> ppages P !! p = Some pp -> pp_u pp' = pp_u pp ->
  pp_status pp' = pp_status pp -> pp_buf pp' = pp_buf pp -> pp_pinned pp' = pp_pinned pp ->
  pool_ok (put_page p pp' P).
Proof.
  intros [[SZ DOM FL FB FLI FBI U NF NB PIN NP] Hbc] Hp Eu Es Eb En.
  assert (forall isb q, on_list None isb (put_page p pp' P) q <-> on_list None isb P q) as Hon.
  { intros isb q. unfold on_list. cbn. destruct (decide (p = q)) as [<-|Hne].
    - rewrite lookup_insert_eq, Hp. split; intros (pq & [= <-] & Hx & Hs & Hb); eexists; (split; [done|]);
        [rewrite <- Es, <- Eb|rewrite Es, Eb]; done.
    - by rewrite lookup_insert_ne. }
  split; [split; cbn; try done|].
  - intros q. rewrite <- DOM. destruct (decide (p = q)) as [<-|Hne];
      [rewrite lookup_insert_eq, Hp; split; eauto|by rewrite lookup_insert_ne].
  - intros q. by rewrite Hon.
  - intros q. by rewrite Hon.
  - intros q pq Hq _. destruct (decide (p = q)) as [<-|Hne].
    + rewrite lookup_insert_eq in Hq. injection Hq as <-. rewrite Eu, Es. by apply (U p).
    + rewrite lookup_insert_ne in Hq by done. by apply (U q).
  - intros q pq Hq. destruct (decide (p = q)) as [<-|Hne].
    + rewrite lookup_insert_eq in Hq. injection Hq as <-. rewrite En. by apply (PIN p).
    + rewrite lookup_insert_ne in Hq by done. by apply (PIN q).
  - rewrite (mcount_insert _ _ _ pp) by done. rewrite En, NP. f_equal. lia.
  - eapply bc_ok_page; [exact Hp|done|congruence| |done]. intros _. by left.
Qed.

(** Page [p], now [pp] with [n] references, goes to its free list if there are
    none left. *)
Definition unref (p : Z) (pp : Ppage) (n : Z) (P : pool) : pool :=
  if n =? 0 then freed p pp (put_page p pp P) else put_page p pp P.

Lemma freed_ppages p pp P :
  ppages (freed p pp P) = <[p := pp_set_status PP_FREE (pp_set_u PLink pp)]> (ppages P) /\
  nppage (freed p pp P) = nppage P.
Proof. unfold freed. by destruct (negb _). Qed.

Lemma unref_ppages p pp n P :
  ppages (unref p pp n P) =
  <[p := if n =? 0 then pp_set_status PP_FREE (pp_set_u PLink pp) else pp]> (ppages P).
Proof.
  unfold unref. destruct (n =? 0); [|done]. rewrite (proj1 (freed_ppages _ _ _)). cbn.
  by rewrite insert_insert_eq.
Qed.

Lemma unref_nppage p pp n P : nppage (unref p pp n P) = nppage P.
Proof. unfold unref. destruct (n =? 0); [|done]. by rewrite (proj2 (freed_ppages _ _ _)). Qed.

Lemma unref_pool_ok p pp pp' n P :
  pool_ok P -> ppages P !! p = Some pp -> pp_status pp <> PP_FREE -> pp_status pp <> PP_KERNRO ->
  pp_u pp' <> PLink -> pp_status pp' = pp_status pp -> pp_buf pp' = pp_buf pp ->
  pp_pinned pp' = pp_pinned pp -> pool_ok (unref p pp' n P).
Proof.
  intros Hok Hp Hs Hk Hu Es Eb En. pose proof (pool_ok_page p pp pp' P Hok Hp Hs Hu Es Eb En) as [Hpg Hbc].
  unfold unref. destruct (n =? 0); [|done]. split.
  - apply freed_pages_ok; [apply lookup_insert_eq|]. eapply pages_ok_open; [apply lookup_insert_eq|congruence|done].
  - apply freed_bc_ok; [apply lookup_insert_eq|congruence|done].
Qed.

Lemma put_page_id p pp P : ppages P !! p = Some pp -> put_page p pp P = P.
Proof. intros Hp. unfold put_page, set_ppages. rewrite insert_id by done. by destruct P. Qed.

Lemma unref_put p pp pp' n P : unref p pp n (put_page p pp' P) = unref p pp n P.
Proof. unfold unref, put_page, set_ppages. cbn. by rewrite insert_insert_eq. Qed.

(** ** Searching *)

(** Free, not pinned, and holding no dirty or tainted buffer. *)
Definition reclaimable (s : pool) (p : Z) : bool :=
  match ppages s !! p with
  | Some pp =>
      (pp_status pp =? PP_FREE) && (pp_pinned pp =? 0) &&
      ((pp_buf pp =? 0) ||
       match bcents s !! pp_buf pp with Some b => bc_is_reclaimable b | None => false end)
  | None => false
  end.

Lemma ppage_is_reclaimable_run p pp s :
  bc_ok s -> ppages s !! p = Some pp ->
  wp (ppage_is_reclaimable p) s (fun r s' => s' = s /\ r = reclaimable s p).
Proof.
  intros Hbc Hp. unfold ppage_is_reclaimable, reclaimable. ps_steps. rewrite Hp.
  destruct (pp_status pp =? PP_FREE); cbn; [|ps_steps; done].
  destruct (pp_pinned pp =? 0); cbn; [|ps_steps; done].
  destruct (Z.eqb_spec (pp_buf pp) 0); cbn; [ps_steps; done|].
  destruct (bo_pp _ Hbc p pp Hp) as (b & Hb & _); [done|]. rewrite Hb. ps_steps. done.
Qed.

Lemma walk_spec (test : Z -> M pool bool) (f : Z -> bool) l s :
  (forall p, p ∈ l -> wp (test p) s (fun r s' => s' = s /\ r = f p)) ->
  wp (walk test l) s (fun r s' => s' = s /\ r = List.find f l).
Proof.
  induction l as [|p l IH]; intros H; cbn; [ps_steps; done|].
  ps_steps. eapply wp_mono; [apply H; left|]. intros r ? [-> ->].
  destruct (f p); [ps_steps; done|]. apply IH. intros q Hq. apply H. by right.
Qed.

Lemma find_Some_elem (f : Z -> bool) l p : List.find f l = Some p -> p ∈ l /\ f p = true.
Proof. intros [H1 H2]%List.find_some. split; [by apply list_elem_of_In|done]. Qed.

Lemma find_None_elem (f : Z -> bool) l p : List.find f l = None -> p ∈ l -> f p = false.
Proof. intros H Hp. eapply List.find_none; [exact H|by apply list_elem_of_In]. Qed.

Definition unpinned (s : pool) (p : Z) : bool :=
  match ppages s !! p with Some pp => pp_pinned pp =? 0 | None => false end.

(** The two lists hold at most every page once. *)
Lemma free_pages_bound s :
  pages_ok None s -> zlen (free_list s) + zlen (free_bufs s) <= nppage s.
Proof.
  intros Hpg. rewrite <- zlen_app.
  assert (forall p isb, on_list None isb s p -> 0 <= p < nppage s) as Hr.
  { intros p isb (pp & Hp & _). apply (pg_dom _ _ Hpg). eauto. }
  assert (NoDup (free_list s ++ free_bufs s)) as Hnd.
  { apply NoDup_app. split_and!; [apply (pg_fl _ _ Hpg)| |apply (pg_fb _ _ Hpg)].
    intros p (pp & Hp & _ & _ & Hb)%(pg_fl_in _ _ Hpg) (pp' & Hp' & _ & _ & Hb')%(pg_fb_in _ _ Hpg).
    congruence. }
  assert (length (free_list s ++ free_bufs s) <= length (zseq 0 (Z.to_nat (nppage s))))%nat as Hlen.
  { apply submseteq_length, NoDup_submseteq; [done|]. intros p Hp. apply zseq_elem.
    pose proof (pg_size _ _ Hpg).
    apply elem_of_app in Hp as [Hp|Hp]; [apply (pg_fl_in _ _ Hpg) in Hp|apply (pg_fb_in _ _ Hpg) in Hp];
      apply Hr in Hp; lia. }
  rewrite zseq_length in Hlen. pose proof (pg_size _ _ Hpg). unfold zlen. lia.
Qed.

(** The number of empty free pages as [ppage_find_free] computes it. *)
Lemma empty_free_count s :
  pages_ok None s ->
  s32 (si_nfreepages (si s) - si_nfreebufpages (si s)) = zlen (free_list s).
Proof.
  intros Hpg. pose proof (free_pages_bound s Hpg). pose proof (pg_size _ _ Hpg).
  pose proof (zlen_nonneg (free_list s)). pose proof (zlen_nonneg (free_bufs s)).
  rewrite (pg_nfree _ _ Hpg), (pg_nbuf _ _ Hpg). rewrite !u32_small by lia.
  replace (_ - _) with (zlen (free_list s)) by lia. unfold s32. rewrite u32_small by lia.
  rewrite (proj2 (Z.ltb_lt _ _)) by lia. done.
Qed.

(** The page [ppage_find_free] chooses. *)
Definition find_free_ref (userreq : Z) (s : pool) : option Z :=
  match (if (userreq =? 0) || (256 <? zlen (free_list s))
         then List.find (unpinned s) (free_list s) else None) with
  | Some p => Some p
  | None => List.find (reclaimable s) (free_bufs s)
  end.

Lemma on_list_lookup isb s p : on_list None isb s p -> exists pp, ppages s !! p = Some pp.
Proof. intros (pp & ? & _). eauto. Qed.

Lemma ppage_find_free_spec userreq s :
  pool_ok s ->
  wp (ppage_find_free userreq) s (fun r s' => s' = s /\
    r = match find_free_ref userreq s with Some p => (0, Some p) | None => (- E_NO_MEM, None) end).
Proof.
  intros [Hpg Hbc]. unfold ppage_find_free, find_free_ref. ps_steps.
  rewrite (empty_free_count s Hpg).
  assert (wp (if (userreq =? 0) || (256 <? zlen (free_list s))
              then fl <- gets free_list ;; walk not_pinned fl else mreturn None) s
    (fun r s' => s' = s /\ r = if (userreq =? 0) || (256 <? zlen (free_list s))
                               then List.find (unpinned s) (free_list s) else None)) as H1.
  { destruct (_ || _); [|ps_steps; done]. ps_steps. apply walk_spec. intros p Hp.
    apply (pg_fl_in _ _ Hpg), on_list_lookup in Hp as [pp Hp].
    unfold not_pinned, unpinned. ps_steps. by rewrite Hp. }
  eapply wp_mono; [exact H1|]. intros r ? [-> ->].
  destruct (if _ || _ then _ else None) as [p|]; [ps_steps; done|]. ps_steps.
  eapply wp_mono.
  { apply (walk_spec ppage_is_reclaimable (reclaimable s)). intros p Hp.
    apply (pg_fb_in _ _ Hpg), on_list_lookup in Hp as [pp Hp]. by eapply ppage_is_reclaimable_run. }
  intros r ? [-> ->]. destruct (List.find _ _); ps_steps; done.
Qed.

Lemma reclaimable_fl s p :
  pages_ok None s -> p ∈ free_list s -> reclaimable s p = unpinned s p.
Proof.
  intros Hpg (pp & Hp & _ & Hs & Hb)%(pg_fl_in _ _ Hpg). unfold reclaimable, unpinned.
  rewrite Hp, Hs. apply negb_false_iff in Hb. rewrite Hb. cbn. by rewrite andb_true_r.
Qed.

Lemma reclaimable_listed s p :
  pages_ok None s -> reclaimable s p = true -> p ∈ free_list s \/ p ∈ free_bufs s.
Proof.
  intros Hpg. unfold reclaimable. destruct (ppages s !! p) as [pp|] eqn:Hp; [|done].
  intros H. apply andb_true_iff in H as [H _]. apply andb_true_iff in H as [Hs%Z.eqb_eq _].
  rewrite (pg_fl_in _ _ Hpg), (pg_fb_in _ _ Hpg).
  destruct (negb (pp_buf pp =? 0)) eqn:Hb; [right|left]; exists pp; done.
Qed.

Lemma find_free_ref_sound userreq s p :
  pages_ok None s -> find_free_ref userreq s = Some p ->
  reclaimable s p = true.
Proof.
  intros Hpg. unfold find_free_ref.
  destruct (if _ || _ then _ else None) as [p0|] eqn:E.
  - intros [= <-]. destruct (_ || _); [|done]. apply find_Some_elem in E as [Hin E].
    by rewrite reclaimable_fl.
  - intros [_ H]%find_Some_elem. done.
Qed.

Lemma reclaimable_free s p :
  reclaimable s p = true -> exists pp, ppages s !! p = Some pp /\ pp_status pp = PP_FREE.
Proof.
  unfold reclaimable. destruct (ppages s !! p) as [pp|]; [|done]. intros H.
  apply andb_true_iff in H as [H _]. apply andb_true_iff in H as [Hs%Z.eqb_eq _]. eauto.
Qed.

(** One page: the chosen page is taken off its list and initialised. *)
Lemma ppage_alloc_spec type userreq s :
  pool_ok s -> 0 < type < 256 ->
  wp (ppage_alloc type userreq) s (fun r s' => pool_ok s' /\
    match find_free_ref userreq s with
    | Some p => r = (0, Some p) /\ exists pp, ppages s !! p = Some pp /\ reclaimed p type pp s s'
    | None => r = (- E_NO_MEM, None) /\ s' = s
    end).
Proof.
  intros Hok Ht. unfold ppage_alloc. ps_steps.
  eapply wp_mono; [by apply ppage_find_free_spec|]. intros r ? [-> ->].
  destruct (find_free_ref userreq s) as [p|] eqn:E; cbn; [|ps_steps; done].
  apply find_free_ref_sound in E; [|apply Hok]. apply reclaimable_free in E as (pp & Hp & Hs).
  rewrite u8_small by lia. ps_steps. eapply wp_mono; [by apply ppage_reclaim_spec|].
  intros [] s' Hr. ps_steps. split; [|eauto].
  eapply reclaimed_pool_ok; [|exact Hr]. unfold PP_FREE. lia.
Qed.

(** ** Contiguous runs *)

Definition run_ok (s : pool) (p : Z) (n : nat) : bool := forallb (reclaimable s) (zseq p n).
Arguments run_ok : simpl never.

Lemma run_ok_spec s p n :
  run_ok s p n = true <-> forall q, p <= q < p + Z.of_nat n -> reclaimable s q = true.
Proof.
  unfold run_ok. rewrite forallb_forall. split; intros H q Hq; apply H.
  - apply list_elem_of_In, zseq_elem. done.
  - by apply list_elem_of_In, zseq_elem in Hq.
Qed.

Lemma reclaimable_range s p : pages_ok None s -> reclaimable s p = true -> 0 <= p < nppage s.
Proof. intros Hpg (pp & Hp & _)%reclaimable_free. apply (pg_dom _ _ Hpg). eauto. Qed.

Lemma reclaimable_out s p : pages_ok None s -> nppage s <= p -> reclaimable s p = false.
Proof.
  intros Hpg Hp. destruct (reclaimable s p) eqn:E; [|done].
  apply (reclaimable_range _ _ Hpg) in E. lia.
Qed.

Lemma page_in_range s p :
  pages_ok None s -> 0 <= p < nppage s -> exists pp, ppages s !! p = Some pp.
Proof. intros Hpg Hp. by apply (pg_dom _ _ Hpg). Qed.

Lemma range_free_spec p n s :
  pool_ok s -> 0 <= p ->
  wp (range_free p n) s (fun r s' => s' = s /\ r = run_ok s p n).
Proof.
  intros [Hpg Hbc]. revert p. induction n as [|n IH]; intros p Hp; cbn; [ps_steps; done|].
  unfold run_ok. rewrite zseq_S. cbn. ps_steps. destruct (Z.leb_spec (nppage s) p).
  - ps_steps. by rewrite reclaimable_out.
  - destruct (page_in_range s p Hpg) as [pp Hpp]; [lia|]. ps_steps.
    eapply wp_mono; [by eapply ppage_is_reclaimable_run|]. intros r ? [-> ->].
    destruct (reclaimable s p); cbn; [apply IH; lia|ps_steps; done].
Qed.

(** The second search finds the lowest run, if there is one. *)
Lemma open_scan_spec n s :
  pool_ok s -> 0 < n ->
  forall m i pp p cnt,
  let start := match pp with Some x => x | None => i end in
  i + Z.of_nat m = nppage s -> 0 <= start -> start + cnt = i -> 0 <= cnt < n ->
  (pp <> None -> p = i) ->
  (forall q, start <= q < i -> reclaimable s q = true) ->
  (forall a, 0 <= a < start -> run_ok s a (Z.to_nat n) = false) ->
  wp (open_scan n (zseq i m) pp p cnt) s (fun r s' => s' = s /\
    ((exists x, r = (Some x, n) /\ 0 <= x /\ run_ok s x (Z.to_nat n) = true /\
        forall a, 0 <= a < x -> run_ok s a (Z.to_nat n) = false) \/
     (r.2 < n /\ forall a, 0 <= a -> run_ok s a (Z.to_nat n) = false))).
Proof.
  intros [Hpg Hbc] Hn m. induction m as [|m IH]; intros i pp p cnt start Hlen Hst Hcnt Hc Hp Hrun Hno.
  - cbn. ps_steps. split; [done|]. right. split; [cbn; lia|]. intros a Ha.
    destruct (decide (a < start)); [apply Hno; lia|].
    destruct (run_ok s a (Z.to_nat n)) eqn:E; [|done]. rewrite run_ok_spec in E.
    specialize (E (a + n - 1) ltac:(lia)). apply (reclaimable_range _ _ Hpg) in E. lia.
  - rewrite zseq_S. cbn [open_scan]. fold start.
    replace (match pp with Some _ => p | None => i end) with i
      by (destruct pp; [symmetry; by apply Hp|done]).
    destruct (page_in_range s i Hpg) as [ppi Hpi]; [lia|]. ps_steps.
    eapply wp_mono; [by eapply ppage_is_reclaimable_run|]. intros r ? [-> ->].
    destruct (reclaimable s i) eqn:Ei; cbn [negb].
    + destruct (Z.eqb_spec (cnt + 1) n) as [En|En].
      * ps_steps. split; [done|]. left. exists start. rewrite En. split_and!; try done.
        apply run_ok_spec. intros q Hq. destruct (decide (q = i)) as [->|]; [done|].
        apply Hrun. lia.
      * apply IH; try lia; [|done]. intros q Hq. destruct (decide (q = i)) as [->|]; [done|].
        apply Hrun. lia.
    + apply IH; try lia; [done|]. intros a Ha. destruct (decide (a < start)); [apply Hno; lia|].
      destruct (run_ok s a (Z.to_nat n)) eqn:E; [|done]. rewrite run_ok_spec in E.
      rewrite (E i) in Ei by lia. done.
Qed.

(** Taking one page does not affect whether another is reclaimable. *)
Lemma reclaimed_other p type pp s s' q :
  bc_ok s -> ppages s !! p = Some pp -> reclaimed p type pp s s' -> q <> p ->
  reclaimable s' q = reclaimable s q.
Proof.
  intros Hbc Hp [] Hne. unfold reclaimable. rewrite rc_ppages0, lookup_insert_ne by done.
  destruct (ppages s !! q) as [pq|] eqn:Hq; [|done].
  destruct (Z.eqb_spec (pp_buf pq) 0); [done|]. rewrite rc_ents0; [done|].
  intros E. apply Hne. exact (bc_ok_owner s q p pq pp Hbc Hq Hp E n).
Qed.

(** The pages of the run after [ppage_alloc_n]. *)
Definition run_taken (p n type : Z) (s s' : pool) : Prop :=
  nppage s' = nppage s /\
  forall q, ppages s' !! q =
    (if bool_decide (p <= q < p + n) then initpp type else id) <$> ppages s !! q.

Lemma reclaim_run_spec type s p n :
  pool_ok s -> 0 < type < 256 -> run_ok s p n = true ->
  wp (mfor (fun q => ppage_reclaim q (u8 type)) (zseq p n)) s
    (fun _ s' => pool_ok s' /\ run_taken p (Z.of_nat n) type s s').
Proof.
  intros Hok Ht. rewrite u8_small by lia. revert s p Hok.
  induction n as [|n IH]; intros s p Hok Hrun; cbn.
  - ps_steps. split; [done|]. split; [done|]. intros q. rewrite bool_decide_false by lia.
    by rewrite option_fmap_id.
  - rewrite zseq_S. cbn. ps_steps. rewrite run_ok_spec in Hrun.
    destruct (reclaimable_free s p) as (pp & Hp & Hs); [apply Hrun; lia|].
    eapply wp_mono; [by apply ppage_reclaim_spec|]. intros [] s1 Hr; cbn in Hr.
    assert (pool_ok s1) as Hok1 by (eapply reclaimed_pool_ok; [|exact Hr]; unfold PP_FREE; lia).
    eapply wp_mono; [apply (IH s1 (p + 1) Hok1)|].
    { apply run_ok_spec. intros q Hq.
      rewrite (reclaimed_other p type pp s) by (done || lia || apply Hok). apply Hrun. lia. }
    intros [] s2 (Hok2 & Hn2 & H2). split; [done|]. split; [by rewrite Hn2, (rc_n _ _ _ _ _ Hr)|].
    intros q. rewrite H2, (rc_ppages _ _ _ _ _ Hr).
    destruct (decide (p = q)) as [<-|Hne].
    + rewrite lookup_insert_eq, Hp, bool_decide_false, bool_decide_true by lia. done.
    + rewrite lookup_insert_ne by done.
      assert (bool_decide (p + 1 <= q < p + 1 + Z.of_nat n) = bool_decide (p <= q < p + Z.of_nat (S n))) as ->
        by (apply bool_decide_ext; lia). done.
Qed.

Lemma ppage_alloc_n_spec type n s :
  pool_ok s -> 0 < type < 256 ->
  let m := Z.max 2 n in
  wp (ppage_alloc_n type n) s (fun r s' => pool_ok s' /\
    ((exists p, r = (0, Some p) /\ run_ok s p (Z.to_nat m) = true /\ run_taken p m type s s') \/
     (r = (-1, None) /\ s' = s /\ forall p, run_ok s p (Z.to_nat m) = false))).
Proof.
  intros Hok Ht m. pose proof Hok as [Hpg Hbc]. unfold ppage_alloc_n.
  replace (if n <? 2 then 2 else n) with m by (destruct (Z.ltb_spec n 2); lia).
  ps_steps. eapply wp_mono.
  { apply (walk_spec _ (fun p => run_ok s p (Z.to_nat m))). intros p Hp. apply range_free_spec; [done|].
    apply (pg_fl_in _ _ Hpg) in Hp as (pp & Hp & _).
    assert (0 <= p < nppage s) by (apply (pg_dom _ _ Hpg); eauto). lia. }
  intros r ? [-> ->].
  assert (forall p, run_ok s p (Z.to_nat m) = true ->
    wp (mfor (fun q => ppage_reclaim q (u8 type)) (zseq p (Z.to_nat m)) ;; mreturn (0, Some p)) s
      (fun r s' => pool_ok s' /\
        ((exists p, r = (0, Some p) /\ run_ok s p (Z.to_nat m) = true /\ run_taken p m type s s') \/
         (r = (-1, None) /\ s' = s /\ forall p, run_ok s p (Z.to_nat m) = false)))) as Htake.
  { intros p Hp. ps_steps. eapply wp_mono; [by apply reclaim_run_spec|]. intros [] s' [Hok' Hr].
    ps_steps. split; [done|]. left. exists p. replace (Z.of_nat (Z.to_nat m)) with m in Hr by lia. done. }
  destruct (List.find _ _) as [p|] eqn:E.
  - apply find_Some_elem in E as [_ E]. ps_steps. by apply wp_bind, Htake.
  - ps_steps. pose proof (pg_size _ _ Hpg). eapply wp_mono.
    { apply (open_scan_spec m s Hok); try lia; done. }
    intros [pp cnt] ? [-> [(x & [= -> ->] & _ & Hx & _)|[Hcnt Hno]]].
    + rewrite Z.ltb_irrefl. ps_steps. by apply wp_bind, Htake.
    + cbn in Hcnt. rewrite (proj2 (Z.ltb_lt _ _)) by done. ps_steps. split; [done|]. right.
      split_and!; try done. intros p. destruct (decide (0 <= p)); [by apply Hno|].
      destruct (run_ok s p (Z.to_nat m)) eqn:E'; [|done]. rewrite run_ok_spec in E'.
      specialize (E' p ltac:(lia)). apply (reclaimable_range _ _ Hpg) in E'. lia.
Qed.

(** ** Flushing, reusing and pinning *)

Lemma ppage_free_bufs_2_free_list_spec p pp s :
  pool_ok s -> ppages s !! p = Some pp -> pp_status pp = PP_FREE -> pp_buf pp <> 0 ->
  wp (ppage_free_bufs_2_free_list p) s (fun _ s' => pool_ok s' /\
    (exists pp', ppages s' = <[p := pp']> (ppages s) /\ pp_status pp' = PP_FREE /\ pp_buf pp' = 0) /\
    nppage s' = nppage s /\
    (forall q, q ∈ free_list s' <-> q ∈ free_list s \/ q = p) /\
    (forall q, q ∈ free_bufs s' <-> q ∈ free_bufs s /\ q <> p) /\
    (forall a, a <> pp_buf pp -> bcents s' !! a = bcents s !! a)).
Proof.
  intros Hok Hp Hs Hb. unfold ppage_free_bufs_2_free_list. ps_steps.
  eapply wp_mono; [by apply ppage_reclaim_buffer_spec|]. intros [] s1 [PG BC PP N FL FB EN DM NPg UPT].
  assert (ppages s1 !! p = Some (initpp PP_FREE pp)) as Hp1 by (rewrite PP; apply lookup_insert_eq).
  destruct (on_free_bufs s p pp) as [_ Hnin]; [apply Hok|done..|].
  eapply ppage_free_run; [done|reflexivity|]. cbn [Z.eqb].
  split_and!.
  - split; [by apply freed_pages_ok|]. by apply freed_bc_ok.
  - unfold freed. cbn. rewrite PP. eexists. split; [by rewrite insert_insert_eq|done].
  - exact N.
  - intros q. unfold freed. cbn. rewrite elem_of_cons, FL.
    destruct (decide (q = p)) as [->|]; naive_solver.
  - intros q. unfold freed. cbn. apply FB.
  - exact EN.
Qed.

Lemma ppage_reuse_buffer_spec p pp s :
  pool_ok s -> ppages s !! p = Some pp -> pp_status pp = PP_FREE -> pp_buf pp <> 0 ->
  wp (ppage_reuse_buffer p) s (fun _ s' => pool_ok s' /\
    ppages s' = <[p := reusepp pp]> (ppages s) /\ nppage s' = nppage s /\
    bcents s' = bcents s /\ bc_qs s' = bc_qs s /\
    (forall q, q ∈ free_bufs s' <-> q ∈ free_bufs s /\ q <> p)).
Proof.
  intros [Hpg Hbc] Hp Hs Hb. destruct (on_free_bufs s p pp Hpg Hp Hs Hb) as [Hin _].
  destruct (unlink_Some _ _ Hin) as [l Hl].
  destruct (unlink_NoDup _ _ _ (pg_fb _ _ Hpg) Hl) as (_ & _ & Hl').
  unfold ppage_reuse_buffer. ps_steps. apply wp_of_option. exists l. split; [done|]. ps_steps.
  split_and!; try done. split.
  - apply (pages_ok_close _ p (reusepp pp)); [cbn; apply lookup_insert_eq|done|done|].
    exact (pages_ok_transit (set_si _ (set_free_bufs l s)) p pp (reusepp pp) Hp eq_refl
             (pages_ok_take_fb s p l Hpg Hl)).
  - apply (bc_ok_ext (set_ppages (<[p := reusepp pp]> (ppages s)) s)); [reflexivity..|].
    apply (bc_ok_page s p pp); [done|done|rewrite Hs; done|auto|done].
Qed.

Definition repinned (p n : Z) (pp : Ppage) (s : pool) : pool :=
  set_si (si_add_pinned (b2z (0 <? n) - b2z (0 <? pp_pinned pp)) (si s))
    (set_ppages (<[p := pp_set_pinned n pp]> (ppages s)) s).

Lemma repinned_ok p n pp s :
  pool_ok s -> ppages s !! p = Some pp -> 0 <= n < 2 ^ 31 -> pool_ok (repinned p n pp s).
Proof.
  intros [[SZ DOM FL FB FLI FBI U NF NB PIN NP] Hbc] Hp Hn.
  assert (forall isb q, on_list None isb (repinned p n pp s) q <-> on_list None isb s q) as Hon.
  { intros isb q. unfold on_list. cbn. destruct (decide (p = q)) as [<-|Hne].
    - rewrite lookup_insert_eq, Hp. naive_solver.
    - by rewrite lookup_insert_ne. }
  split.
  - split; cbn; try done.
    + intros q. rewrite <- DOM. destruct (decide (p = q)) as [<-|Hne].
      * rewrite lookup_insert_eq, Hp. split; intros _; eauto.
      * by rewrite lookup_insert_ne.
    + intros q. rewrite FLI. symmetry. apply Hon.
    + intros q. rewrite FBI. symmetry. apply Hon.
    + intros q qq Hq _. destruct (decide (p = q)) as [<-|Hne].
      * rewrite lookup_insert_eq in Hq. injection Hq as <-. exact (U p pp Hp ltac:(done)).
      * rewrite lookup_insert_ne in Hq by done. by apply (U q).
    + intros q qq Hq. destruct (decide (p = q)) as [<-|Hne].
      * rewrite lookup_insert_eq in Hq. injection Hq as <-. done.
      * rewrite lookup_insert_ne in Hq by done. eauto.
    + rewrite (mcount_insert _ _ _ pp) by done. rewrite NP, u32_add. f_equal. cbn. lia.
  - apply (bc_ok_ext (set_ppages (<[p := pp_set_pinned n pp]> (ppages s)) s)); [reflexivity..|].
    eapply (bc_ok_page s p pp); cbn; auto.
Qed.

Lemma repinned_back p n pp s :
  pool_ok s -> ppages s !! p = Some pp ->
  repinned p (pp_pinned pp) (pp_set_pinned n pp) (repinned p n pp s) = s.
Proof.
  intros Hok Hp. unfold repinned. cbn. rewrite insert_insert_eq. unfold pp_set_pinned. cbn.
  rewrite insert_id by (rewrite Hp; by destruct pp). unfold set_si, set_ppages, si_add_pinned. cbn.
  rewrite u32_add. replace (_ + _ + _) with (si_pinnedpages (si s)) by lia.
  rewrite u32_small by (rewrite (pg_npin _ _ (proj1 Hok)); apply u32_range).
  by destruct s as [? ? ? ? ? ? ? ? ? []].
Qed.

Lemma s32_small x : 0 <= x < 2 ^ 31 -> s32 x = x.
Proof. intros H. unfold s32. rewrite u32_small by lia. by rewrite (proj2 (Z.ltb_lt _ _)) by lia. Qed.

Lemma ppage_pin_run p pp s :
  pool_ok s -> ppages s !! p = Some pp -> pp_pinned pp < 2 ^ 31 - 1 ->
  wp (ppage_pin p) s (fun _ s' => s' = repinned p (pp_pinned pp + 1) pp s).
Proof.
  intros [Hpg _] Hp Hmax. pose proof (pg_pin _ _ Hpg p pp Hp). unfold ppage_pin, repinned.
  ps_steps; cbn; rewrite s32_small by lia; [by apply Z.ltb_lt; lia|].
  rewrite (proj2 (Z.ltb_lt 0 (pp_pinned pp + 1))) by lia.
  destruct (Z.eqb_spec (pp_pinned pp + 1) 1) as [E|E].
  - ps_steps. replace (pp_pinned pp) with 0 by lia. done.
  - ps_steps. rewrite (proj2 (Z.ltb_lt _ _)) by lia. unfold set_si, si_add_pinned. cbn.
    rewrite Z.add_0_r. rewrite (u32_small (si_pinnedpages (si s))) by (rewrite (pg_npin _ _ Hpg); apply u32_range).
    by destruct s as [? ? ? ? ? ? ? ? ? []].
Qed.

Lemma ppage_unpin_run p pp s :
  pool_ok s -> ppages s !! p = Some pp -> 0 < pp_pinned pp ->
  wp (ppage_unpin p) s (fun _ s' => s' = repinned p (pp_pinned pp - 1) pp s).
Proof.
  intros [Hpg _] Hp Hmin. pose proof (pg_pin _ _ Hpg p pp Hp). unfold ppage_unpin, repinned.
  ps_steps; [by apply Z.ltb_lt|]. cbn. rewrite s32_small by lia.
  rewrite (proj2 (Z.ltb_lt 0 (pp_pinned pp))) by lia.
  destruct (Z.eqb_spec (pp_pinned pp - 1) 0) as [E|E].
  - ps_steps. rewrite E. done.
  - ps_steps. rewrite (proj2 (Z.ltb_lt _ _)) by lia. unfold set_si, si_add_pinned. cbn.
    rewrite Z.add_0_r. rewrite (u32_small (si_pinnedpages (si s))) by (rewrite (pg_npin _ _ Hpg); apply u32_range).
    by destruct s as [? ? ? ? ? ? ? ? ? []].
Qed.

(** ** Boot *)

Lemma wp_upto (body : Z -> M pool unit) (P : Z -> pool -> Prop) a b s :
  a <= b -> P a s ->
  (forall i s', a <= i < b -> P i s' -> wp (body i) s' (fun _ s'' => P (i + 1) s'')) ->
  wp (mfor body (upto a b)) s (fun _ s' => P b s').
Proof.
  intros Hab HP Hbody. unfold upto. remember (Z.to_nat (b - a)) as k eqn:Ek.
  assert (b = a + Z.of_nat k) as Hb by lia. clear Ek Hab. revert a s HP Hbody Hb.
  induction k as [|k IH]; intros a s HP Hbody Hb.
  - cbn. apply wp_ret. by replace b with a by lia.
  - rewrite zseq_S. cbn. apply wp_bind. eapply wp_mono; [apply Hbody; [lia|done]|].
    intros [] s' HP'. apply IH; [done| |lia]. intros i s'' Hi. apply Hbody. lia.
Qed.

(** Pages below [i] are set up: free and listed, or reserved and not. *)
Definition boot_page (i : Z) (fl : list Z) (q : Z) (pp : Ppage) : Prop :=
  pp_pinned pp = 0 /\ pp_buf pp = 0 /\
  (q < i -> if bool_decide (q ∈ fl) then pp_status pp = PP_FREE /\ pp_u pp = PLink
            else pp_status pp <> PP_FREE /\ pp_u pp <> PLink) /\
  (i <= q -> (q ∉ fl) /\ pp_u pp <> PLink).

Record boot_inv (n i : Z) (s : pool) : Prop := mkBoot {
  bt_n : nppage s = n;
  bt_dom : forall q, is_Some (ppages s !! q) <-> 0 <= q < n;
  bt_pg : forall q pp, ppages s !! q = Some pp -> boot_page i (free_list s) q pp;
  bt_in : forall q, q ∈ free_list s -> 2 <= q < i;
  bt_nd : NoDup (free_list s);
  bt_si : si_nfreepages (si s) = u32 (zlen (free_list s)) /\ si_nfreebufpages (si s) = 0 /\
          si_pinnedpages (si s) = 0 /\ si_ndpages (si s) = 0;
  bt_rest : free_bufs s = [] /\ bcents s = ∅ /\ bc_qs s = ∅ /\ bc_free_list s = [] }.

(** The next page is set up by [f], and listed if it is free. *)
Lemma boot_inv_step n i pp pp' s s' (listed : bool) :
  boot_inv n i s -> ppages s !! i = Some pp -> (listed = true -> 2 <= i) ->
  pp_pinned pp' = 0 -> pp_buf pp' = 0 ->
  (if listed then pp_status pp' = PP_FREE /\ pp_u pp' = PLink
   else pp_status pp' <> PP_FREE /\ pp_u pp' <> PLink) ->
  s' = mkPool (<[i := pp']> (ppages s)) (nppage s) (if listed then i :: free_list s else free_list s)
         (free_bufs s) (bcents s) (bc_qs s) (bc_free_list s) (next_page s) (bc_upt s)
         (if listed then si_add_free 1 (si s) else si s) ->
  boot_inv n (i + 1) s'.
Proof.
  intros [N DOM PG IN ND SI REST] Hi Hi2 Hpin Hbuf Hst ->.
  assert (0 <= i) as Hi0 by (assert (0 <= i < n) by (apply DOM; eauto); lia).
  assert (i ∉ free_list s) as Hni by (intros H%IN; lia).
  assert (forall q, q ∈ (if listed then i :: free_list s else free_list s) <->
                    (listed = true /\ q = i) \/ q ∈ free_list s) as Hfl.
  { intros q. destruct listed; rewrite ?elem_of_cons; naive_solver. }
  split; cbn; try done.
  - intros q. rewrite <- DOM. destruct (decide (i = q)) as [<-|].
    + rewrite lookup_insert_eq, Hi. split; intros _; eauto.
    + by rewrite lookup_insert_ne.
  - intros q qq Hq. destruct (decide (i = q)) as [<-|Hne].
    + rewrite lookup_insert_eq in Hq. injection Hq as <-. split_and!; [done..| |lia].
      intros _. destruct listed.
      * rewrite bool_decide_true by left. done.
      * by rewrite bool_decide_false.
    + rewrite lookup_insert_ne in Hq by done. destruct (PG q qq Hq) as (? & ? & H1 & H2).
      split_and!; try done.
      * intros Hlt. specialize (H1 ltac:(lia)).
        assert (bool_decide (q ∈ (if listed then i :: free_list s else free_list s)) =
                bool_decide (q ∈ free_list s)) as ->; [|done].
        apply bool_decide_ext. rewrite Hfl. naive_solver.
      * intros Hle. destruct H2 as [H2 ?]; [lia|]. split; [|done]. rewrite Hfl. naive_solver.
  - intros q. rewrite Hfl. intros [[Hli ->]|Hq]; [specialize (Hi2 Hli); lia|]. apply IN in Hq. lia.
  - destruct listed; [by constructor|done].
  - destruct listed; [|done]. cbn. destruct SI as (E & ? & ? & ?). rewrite E, u32_add, zlen_cons. done.
Qed.

Lemma boot_page_at n i s :
  boot_inv n i s -> 0 <= i < n ->
  exists pp, ppages s !! i = Some pp /\ pp_pinned pp = 0 /\ pp_buf pp = 0 /\ pp_u pp <> PLink.
Proof.
  intros [] Hi. apply bt_dom0 in Hi as [pp Hp]. exists pp. destruct (bt_pg0 i pp Hp) as (? & ? & _ & H).
  split_and!; try done. apply H. lia.
Qed.

Lemma set_status_boot n st i s :
  st <> PP_FREE -> 0 <= i < n -> boot_inv n i s ->
  wp (set_status st i) s (fun _ s' => boot_inv n (i + 1) s').
Proof.
  intros Hst Hi Hinv. destruct (boot_page_at n i s Hinv Hi) as (pp & Hp & ? & ? & ?).
  unfold set_status. ps_steps. by eapply (boot_inv_step n i pp (pp_set_status st pp) s _ false).
Qed.

Lemma init_free_page_boot n i s :
  2 <= i < n -> boot_inv n i s ->
  wp (init_free_page i) s (fun _ s' => boot_inv n (i + 1) s').
Proof.
  intros Hi Hinv. destruct (boot_page_at n i s Hinv) as (pp & Hp & ? & ? & ?); [lia|].
  unfold init_free_page, ppage_initpp. ps_steps.
  eapply (boot_inv_step n i pp (pp_set_u PLink (pp_set_pinned 0 (initpp PP_FREE pp))) s _ true);
    [done|done|lia|done..|]. cbn. rewrite !insert_insert_eq. done.
Qed.

Lemma boot_inv_start n : 0 <= n -> boot_inv n 0 (boot_pool n).
Proof.
  intros Hn.
  assert (forall q, ppages (boot_pool n) !! q = if bool_decide (0 <= q < n) then Some pp_zero else None) as Hl.
  { intros q. cbn. destruct (list_to_map _ !! q) as [pp|] eqn:E.
    - apply elem_of_list_to_map_2, list_elem_of_fmap in E as (y & [= -> ->] & Hy%zseq_elem).
      rewrite bool_decide_true by lia. done.
    - rewrite bool_decide_false; [done|]. intros Hq.
      apply not_elem_of_list_to_map in E. apply E. rewrite <- list_fmap_compose.
      apply list_elem_of_fmap. exists q. split; [done|]. apply zseq_elem. lia. }
  split; cbn [free_list boot_pool nppage si]; try done.
  - intros q. rewrite Hl. case_bool_decide as Hq; split; intros H'; [done|eauto|by destruct H'|lia].
  - intros q pp. rewrite Hl. case_bool_decide; [|done]. intros [= <-]. unfold boot_page.
    split_and!; try done; [lia|]. intros _. split; [set_solver|done].
  - intros q Hq. by apply not_elem_of_nil in Hq.
  - constructor.
Qed.

Lemma boot_inv_pool_ok n s : n <= 2 ^ 20 -> 0 <= n -> boot_inv n n s -> pool_ok s.
Proof.
  intros Hn Hn0 [N DOM PG IN ND (E1 & E2 & E3 & E4) (B1 & B2 & B3 & B4)].
  assert (forall q pp, ppages s !! q = Some pp -> q < n) as Hlt.
  { intros q pp Hq. apply (mk_is_Some), DOM in Hq. lia. }
  split.
  - split; rewrite ?N, ?B1, ?E1, ?E2, ?E3; try done; cbn.
    + constructor.
    + intros q. unfold on_list. split.
      * intros Hq. destruct (proj2 (DOM q)) as [pp Hp]; [apply IN in Hq; lia|]. exists pp.
        destruct (PG q pp Hp) as (_ & Hb & H & _). specialize (H (Hlt _ _ Hp)).
        rewrite bool_decide_true in H by done. rewrite Hb. naive_solver.
      * intros (pp & Hp & _ & Hs & _). destruct (PG q pp Hp) as (_ & Hb & H & _).
        specialize (H (Hlt _ _ Hp)). case_bool_decide; naive_solver.
    + intros q. split; [set_solver|]. intros (pp & Hp & _ & _ & Hb).
      destruct (PG q pp Hp) as (_ & Hb0 & _). rewrite Hb0 in Hb. done.
    + intros q pp Hp _. destruct (PG q pp Hp) as (_ & _ & H & _).
      specialize (H (Hlt _ _ Hp)). case_bool_decide; naive_solver.
    + by rewrite Z.add_0_r.
    + intros q pp Hp. destruct (PG q pp Hp) as (-> & _). lia.
    + unfold mcount. rewrite (proj2 (kcount_zero _ _)); [done|].
      intros q pp Hp. cbn. destruct (PG q pp Hp) as (-> & _). done.
  - split; unfold bc_queue; rewrite ?B2, ?B3, ?B4; try done.
    + intros p pp Hp Hb. destruct (PG p pp Hp) as (_ & ? & _). done.
    + intros h a. rewrite lookup_empty. intros H. by apply not_elem_of_nil in H.
    + constructor.
    + constructor.
    + intros a H. by apply not_elem_of_nil in H.
    + intros p pp Hp Hb. destruct (PG p pp Hp) as (_ & ? & _). done.
Qed.

(** Page 1 is given to holders of the root capability; the invariant does not
    see its list. *)
Lemma ppage_grant_iomem_ok s p pp :
  pool_ok s -> ppages s !! p = Some pp -> pp_status pp <> PP_FREE -> pp_buf pp = 0 ->
  wp (ppage_grant_iomem p) s (fun _ s' => pool_ok s').
Proof.
  intros [Hpg Hbc] Hp Hs Hb. unfold ppage_grant_iomem, ppage_initpp. ps_steps.
  set (pp' := pp_set_acl _ _).
  assert (pool_ok (set_ppages (<[p := pp']> (ppages s)) s)) as [H1 H2].
  { split.
    - apply (pages_ok_close _ p pp'); [cbn; apply lookup_insert_eq|done|done|].
      apply (pages_ok_transit s p pp pp' Hp eq_refl). by eapply pages_ok_open.
    - by apply (bc_ok_page s p pp). }
  split; [eapply pages_ok_ext, H1|eapply bc_ok_ext, H2]; try done; cbn; by rewrite insert_insert_eq.
Qed.

(** The loops of [ppage_init]. *)
Lemma boot_status_loop n st a b s (Q : unit -> pool -> Prop) :
  st <> PP_FREE -> 0 <= a <= b -> b <= n -> boot_inv n a s ->
  (forall s', boot_inv n b s' -> Q tt s') -> wp (mfor (set_status st) (upto a b)) s Q.
Proof.
  intros Hst Hab Hbn H HQ. eapply wp_mono; [apply (wp_upto _ (boot_inv n) a b); [lia|done|]|].
  - intros i s' Hi. apply set_status_boot; [done|lia].
  - intros []. apply HQ.
Qed.

Lemma boot_free_loop n a b s (Q : unit -> pool -> Prop) :
  2 <= a <= b -> b <= n -> boot_inv n a s ->
  (forall s', boot_inv n b s' -> Q tt s') -> wp (mfor init_free_page (upto a b)) s Q.
Proof.
  intros Hab Hbn H HQ. eapply wp_mono; [apply (wp_upto _ (boot_inv n) a b); [lia|done|]|].
  - intros i s' Hi. apply init_free_page_boot. lia.
  - intros []. apply HQ.
Qed.

Lemma boot_finish n s :
  256 <= n <= 2 ^ 20 -> boot_inv n n s ->
  wp (modify (fun s => set_si (mkSi n (si_nfreepages (si s)) (si_nfreebufpages (si s))
                             (si_ndpages (si s)) (si_pinnedpages (si s))) s) ;;
      ppage_grant_iomem 1) s (fun _ s' => pool_ok s').
Proof.
  intros Hn H. destruct (proj2 (bt_dom _ _ _ H 1)) as [pp Hp]; [lia|].
  destruct (bt_pg _ _ _ H 1 pp Hp) as (_ & Hb & Hs & _). specialize (Hs ltac:(lia)).
  rewrite bool_decide_false in Hs by (intros H1; apply (bt_in _ _ _ H) in H1; lia).
  apply boot_inv_pool_ok in H as [H1 H2]; [|lia..]. ps_steps.
  eapply ppage_grant_iomem_ok; [|exact Hp|apply Hs|done].
  split; [by eapply pages_ok_ext, H1|by eapply bc_ok_ext, H2].
Qed.

Lemma ppage_init_spec n basememsize start_readonly freemem :
  256 <= n <= 2 ^ 20 ->
  PGNO (start_readonly - KERNBASE) <= n -> PGNO (freemem - KERNBASE) <= n ->
  wp (ppage_init_pages basememsize start_readonly freemem) (boot_pool n) (fun _ s => pool_ok s).
Proof.
  intros Hn Hst Hfm. unfold PGNO in *. unfold ppage_init_pages. ps_steps. cbn [nppage boot_pool].
  pose proof (boot_inv_start n ltac:(lia)) as H0.
  eapply wp_mono; [apply (set_status_boot n PP_INVAL 0); [done|lia|done]|]. intros [] s0 H1. ps_steps.
  eapply wp_mono; [apply (set_status_boot n PP_IOMEM 1); [done|lia|done]|]. intros [] s1 H2.
  set (l1 := Z.max 2 _). assert (2 <= l1 <= 160).
  { assert (Z.shiftr (Z.min basememsize IOPHYSMEM) PGSHIFT <= 160); [|lia].
    rewrite Z.shiftr_div_pow2 by done. apply Z.lt_succ_r, Z.div_lt_upper_bound; [done|].
    unfold IOPHYSMEM, PGSHIFT. lia. }
  change (Z.shiftr IOPHYSMEM PGSHIFT) with 160. change (Z.shiftr EXTPHYSMEM PGSHIFT) with 256.
  set (l2 := Z.max l1 160). set (l3 := Z.max l2 256). set (l4 := Z.max l3 _). set (l5 := Z.max l4 _).
  ps_steps. apply (boot_free_loop n); [lia|lia|done|]. intros s2 H3.
  ps_steps. apply (boot_status_loop n); [done|lia|lia|done|]. intros s3 H4.
  ps_steps. apply (boot_status_loop n); [done|lia|lia|done|]. intros s4 H5.
  ps_steps. apply (boot_status_loop n); [done|lia|lia|done|]. intros s5 H6.
  ps_steps. apply (boot_status_loop n); [done|lia|lia|done|]. intros s6 H7.
  ps_steps. apply (boot_free_loop n); [lia|lia|done|]. intros s7 H8.
  apply wp_bind. by apply boot_finish.
Qed.

(** ** Properties *)

(** boot establishes the invariant of the page pool: whatever memory sizes
    the BIOS and the linker report, as long as the kernel image and its tables
    fit below the last physical page, [ppage_init] runs to the end and leaves
    every page either reserved or free and listed exactly once, with the
    counters agreeing. *)
Theorem ppage_init_establishes_pool_ok n basememsize start_readonly freemem :
  256 <= n <= 2 ^ 20 ->
  PGNO (start_readonly - KERNBASE) <= n -> PGNO (freemem - KERNBASE) <= n ->
  wp (ppage_init_pages basememsize start_readonly freemem) (boot_pool n) (fun _ s => pool_ok s).
Proof. apply ppage_init_spec. Qed.

(** C15: a one-page allocation, for a type that is not PP_FREE, returns and hands
    out the page that the search order names: the first unpinned page of the list
    of empty pages, unless the request is for a user and at most 256 pages are on
    that list; else the first cached block on the list of buffers that can be
    given up.  The page was free, unpinned and held no dirty or tainted buffer;
    it is initialised and off both lists, and no other page is touched.  A cached
    block is only given up when no empty page could be used.  Failure changes
    nothing, and happens only when no page is reclaimable, or when the request is
    for a user and all that are are among the last 256 empty ones. *)
Theorem ppage_alloc_correct type userreq s :
  pool_ok s -> 0 < type < 256 ->
  wp (ppage_alloc type userreq) s (fun r s' => pool_ok s' /\
    match r with
    | (r, Some p) => r = 0 /\ find_free_ref userreq s = Some p /\ exists pp,
        ppages s !! p = Some pp /\ reclaimable s p = true /\
        (pp_buf pp <> 0 -> userreq = 0 \/ 256 < zlen (free_list s) ->
         forall q, q ∈ free_list s -> reclaimable s q = false) /\
        ppages s' = <[p := initpp type pp]> (ppages s) /\
        (p ∉ free_list s') /\ (p ∉ free_bufs s')
    | (r, None) => r = - E_NO_MEM /\ s' = s /\
        forall q, reclaimable s q = true ->
          userreq <> 0 /\ q ∈ free_list s /\ zlen (free_list s) <= 256
    end).
Proof.
  intros Hok Ht. pose proof Hok as [Hpg _].
  eapply wp_mono; [by apply ppage_alloc_spec|]. intros r s' [Hok' H]. split; [done|].
  destruct (find_free_ref userreq s) as [p|] eqn:E; destruct H as [-> H].
  - split; [done|]. split; [done|]. destruct H as (pp & Hp & Hr). exists pp.
    split_and!; [done|by eapply find_free_ref_sound| |apply Hr|..].
    + intros Hb Hu q Hq. rewrite reclaimable_fl by done. unfold find_free_ref in E.
      assert ((userreq =? 0) || (256 <? zlen (free_list s)) = true) as Hu'
        by (apply orb_true_iff; destruct Hu; [left; by apply Z.eqb_eq|right; by apply Z.ltb_lt]).
      rewrite Hu' in E. destruct (List.find (unpinned s) (free_list s)) as [p0|] eqn:E0.
      * injection E as ->. apply find_Some_elem in E0 as [(pp0 & Hp0 & _ & _ & Hb0)%(pg_fl_in _ _ Hpg) _].
        apply negb_false_iff, Z.eqb_eq in Hb0. congruence.
      * by eapply find_None_elem.
    + rewrite (rc_fl _ _ _ _ _ Hr). tauto.
    + rewrite (rc_fb _ _ _ _ _ Hr). tauto.
  - split_and!; [done..|]. intros q Hq. unfold find_free_ref in E.
    destruct (if _ || _ then _ else None) as [p0|] eqn:E0; [done|].
    destruct (reclaimable_listed s q Hpg Hq) as [Hin|Hin].
    + destruct ((userreq =? 0) || (256 <? zlen (free_list s))) eqn:Eu.
      * apply (find_None_elem _ _ q) in E0; [|done]. by rewrite <- reclaimable_fl, Hq in E0.
      * apply orb_false_iff in Eu as [Eu1%Z.eqb_neq Eu2%Z.ltb_ge]. done.
    + apply (find_None_elem _ _ q) in E; [congruence|done].
Qed.

(** C36: contiguous allocation is exact: with [m] the request (at least 2), it
    returns [m] consecutive pages that were all reclaimable, all initialised,
    every other page untouched; and it fails only when no [m] consecutive pages
    are reclaimable. *)
Theorem ppage_alloc_n_correct type n s :
  pool_ok s -> 0 < type < 256 ->
  let m := Z.max 2 n in
  wp (ppage_alloc_n type n) s (fun r s' => pool_ok s' /\
    ((exists p, r = (0, Some p) /\ run_ok s p (Z.to_nat m) = true /\ run_taken p m type s s') \/
     (r = (-1, None) /\ s' = s /\ forall p, run_ok s p (Z.to_nat m) = false))).
Proof. apply ppage_alloc_n_spec. Qed.

(** C37: pinning protects a page from allocation: after [ppage_pin] the page is
    not handed out, by [ppage_alloc] or in a run by [ppage_alloc_n], until it is
    unpinned; and pinning followed by unpinning restores the pool exactly. *)
Theorem ppage_pin_protects p pp s type userreq n :
  pool_ok s -> ppages s !! p = Some pp -> pp_pinned pp < 2 ^ 31 - 1 -> 0 < type < 256 ->
  wp (ppage_pin p ;; ppage_alloc type userreq) s (fun r s' => pool_ok s' /\ snd r <> Some p) /\
  wp (ppage_pin p ;; ppage_alloc_n type n) s (fun r s' => pool_ok s' /\
    forall q, snd r = Some q -> ~ (q <= p < q + Z.max 2 n)) /\
  wp (ppage_pin p ;; ppage_unpin p) s (fun _ s' => s' = s).
Proof.
  intros Hok Hp Hmax Ht. pose proof (pg_pin _ _ (proj1 Hok) p pp Hp) as Hpin.
  set (s1 := repinned p (pp_pinned pp + 1) pp s).
  assert (pool_ok s1) as Hok1 by (apply repinned_ok; [done|done|lia]).
  assert (ppages s1 !! p = Some (pp_set_pinned (pp_pinned pp + 1) pp)) as Hp1 by apply lookup_insert_eq.
  assert (reclaimable s1 p = false) as Hrec.
  { unfold reclaimable. rewrite Hp1. cbn. rewrite (proj2 (Z.eqb_neq (pp_pinned pp + 1) 0)) by lia.
    by rewrite andb_false_r. }
  split_and!; apply wp_bind; (eapply wp_mono; [by apply ppage_pin_run|]); intros [] ? ->; fold s1.
  - eapply wp_mono; [by apply ppage_alloc_spec|]. intros r s' [Hok' H]. split; [done|].
    destruct (find_free_ref userreq s1) as [q|] eqn:E; destruct H as [-> _]; [|done].
    apply find_free_ref_sound in E; [|apply Hok1]. cbn. intros [= ->]. congruence.
  - eapply wp_mono; [by apply ppage_alloc_n_spec|].
    intros r s' [Hok' [(q & -> & Hrun & _)|(-> & _)]]; (split; [done|]); cbn; [|done].
    intros ? [= <-] Hq. rewrite run_ok_spec in Hrun. rewrite Hrun in Hrec by lia. done.
  - eapply wp_mono; [apply (ppage_unpin_run _ _ _ Hok1 Hp1); cbn; lia|]. intros [] ? ->.
    cbn. replace (pp_pinned pp + 1 - 1) with (pp_pinned pp) by lia. by apply repinned_back.
Qed.

(** ** Witnesses: a machine with 300 pages *)

Definition ex_booted : pool :=
  match ppage_init_pages 0xa0000 0xf0110000 0xf0120000 (boot_pool 300) with
  | Ret _ s => s
  | Panic => boot_pool 0
  end.

Lemma ppage_init_establishes_pool_ok_witness : pool_ok ex_booted.
Proof.
  unfold ex_booted.
  pose proof (ppage_init_establishes_pool_ok 300 0xa0000 0xf0110000 0xf0120000
                ltac:(lia) ltac:(by vm_compute) ltac:(by vm_compute)) as H.
  unfold wp in H. destruct (ppage_init_pages _ _ _ _); [exact H|contradiction H].
Defined.

(** The invariant of that machine, for the witnesses below. *)
Lemma ex_booted_ok : pool_ok ex_booted.
Proof.
  unfold ex_booted.
  pose proof (ppage_init_spec 300 0xa0000 0xf0110000 0xf0120000
                ltac:(lia) ltac:(by vm_compute) ltac:(by vm_compute)) as H.
  unfold wp in H. destruct (ppage_init_pages _ _ _ _); [exact H|contradiction H].
Qed.

Lemma ppage_alloc_correct_witness :
  exists p s', ppage_alloc PP_USER 0 ex_booted = Ret (0, Some p) s' /\ pool_ok s' /\ (p ∉ free_list s').
Proof.
  pose proof (ppage_alloc_correct PP_USER 0 ex_booted ex_booted_ok ltac:(by vm_compute)) as H.
  assert (ret_val (ppage_alloc PP_USER 0 ex_booted) = Some (0, Some 299)) as E by (vm_compute; reflexivity).
  unfold wp in H. destruct (ppage_alloc PP_USER 0 ex_booted) as [[r [p|]] s'|];
    [|discriminate E|contradiction H].
  destruct H as (Hok & -> & _ & pp & _ & _ & _ & _ & Hfl & _). exists p, s'. done.
Defined.

Lemma ppage_alloc_n_correct_witness :
  exists (p : Z) (s' : pool), ppage_alloc_n PP_KERNEL 5 ex_booted = Ret (0, Some p) s' /\
    run_taken p 5 PP_KERNEL ex_booted s'.
Proof.
  pose proof (ppage_alloc_n_correct PP_KERNEL 5 ex_booted ex_booted_ok ltac:(by vm_compute)) as H.
  assert (fst <$> ret_val (ppage_alloc_n PP_KERNEL 5 ex_booted) = Some 0) as E by (vm_compute; reflexivity).
  unfold wp in H. destruct (ppage_alloc_n PP_KERNEL 5 ex_booted) as [r s'|]; [|contradiction H].
  destruct H as (Hok & [(p & -> & _ & Ht)|(-> & _)]); [|discriminate E].
  exists p, s'. done.
Defined.

Lemma ppage_pin_protects_witness :
  wp (ppage_pin 299 ;; ppage_alloc PP_USER 0) ex_booted (fun r s' => pool_ok s' /\ snd r <> Some 299).
Proof.
  assert (pp_pinned <$> ppages ex_booted !! 299 = Some 0) as E0 by (vm_compute; reflexivity).
  destruct (ppages ex_booted !! 299) as [pp|] eqn:E; [|discriminate E0].
  injection E0 as E0. assert (pp_pinned pp < 2 ^ 31 - 1) as Hmax by lia.
  assert (0 < PP_USER < 256) as Ht by (unfold PP_USER; lia).
  exact (proj1 (ppage_pin_protects 299 pp ex_booted PP_USER 0 2 ex_booted_ok E Hmax Ht)).
Defined.
