(* ===== verification/BufCache.v ===== *)
(** * The buffer cache

    sys/kern/bc.c: headers are carved out of read-only kernel pages, entered
    under (device, block) in one of 512 hash queues, and found again by key or
    through the page that caches the block.  Also
    [ppage_get_reclaimable_buffer] of sys/kern/pmap.c, which puts a fresh page
    into the cache and straight onto [free_bufs].

    [junk a] is what memory holds at address [a] when a page of headers is
    carved up: the code initialises two fields of each header. *)

From Stdlib Require Import ZArith Lia.
From stdpp Require Import base numbers option list gmap relations.
From S2P Require Import Prelude Capability PageState PageAlloc.

Definition INT2QUAD (h l : Z) : Z := Z.lor (u64 (Z.shiftl h 32)) l.
Definition QUAD2INT_HIGH (q : Z) : Z := u32 (Z.shiftr q 32).
Definition QUAD2INT_LOW (q : Z) : Z := u32 q.

Definition bc_vp_as (vp st : Z) (b : bc_entry) : bc_entry :=
  mkBc (buf_dev b) (buf_blk64 b) (buf_user1 b) (buf_user2 b) (buf_ppn b) (buf_dirty b)
    (buf_tainted b) vp (buf_writecnt b) st.

(** ** Headers *)

(** The hash queues; the cache structure fills its page, so that no header
    fits behind it. *)
Definition bc_struct_bytes := 4096.
Definition bc_init (bcva : Z) (junk : Z -> bc_entry) : M pool Z :=
  modify (set_bc_qs (list_to_map ((fun h => (h, [])) <$> zseq 0 (Z.to_nat BC_NUM_QS)))) ;;
  modify (set_bc_free []) ;;
  let i := (bc_struct_bytes + bc_bytes - 1) / bc_bytes in
  mfor (fun k =>
    let a := bcva + k * bc_bytes in
    modify (fun s => set_bc_free (a :: bc_free_list s) s) ;;
    modify (fun s => set_bcents (<[a := bc_vp_as 0 (buf_state (junk a)) (junk a)]> (bcents s)) s))
    (upto i (NBPG / bc_bytes)) ;;
  mreturn 0.

Definition bc_alloc_bufs (junk : Z -> bc_entry) : M pool Z :=
  np <- gets next_page ;;
  if 1024 <=? np then mreturn (- E_VSPACE)
  else
    r <- ppage_alloc PP_KERNRO 0 ;;
    match r with
    | (r, Some q) =>
        if r <? 0 then mreturn (- E_NO_MEM)
        else
          modify (fun s => set_bc_page (next_page s)
            (<[np := Z.lor (NBPG * q) (Z.lor PG_P (Z.lor PG_U PG_W))]> (bc_upt s)) s) ;;
          mfor (fun i =>
            let a := bc_addr q i in
            modify (fun s => set_bc_free (a :: bc_free_list s) s) ;;
            modify (fun s => set_bcents (<[a := bc_vp_as np BC_EMPTY (junk a)]> (bcents s)) s))
            (zseq 0 (Z.to_nat (NBPG / bc_bytes))) ;;
          modify (fun s => set_bc_page (u16 (np + 1)) (bc_upt s) s) ;;
          mreturn 0
    | (_, None) => mreturn (- E_NO_MEM)
    end.

Definition new_bc (d b ppn state vp : Z) : bc_entry :=
  mkBc d b 0 0 ppn BUF_CLEAN 0 vp 0 (Z.lor BC_VALID state).

(** The header's address, or the error. *)
Definition bc_insert64 (junk : Z -> bc_entry) (d b ppn state : Z) : M pool (Z + Z) :=
  n <- gets nppage ;;
  if n <=? ppn then mreturn (inr (- E_INVAL))
  else
    fl <- gets bc_free_list ;;
    r <- (match fl with [] => bc_alloc_bufs junk | _ => mreturn 0 end) ;;
    if negb (r =? 0) then mreturn (inr r)
    else
      fl <- gets bc_free_list ;;
      match fl with
      | [] => panic
      | a :: fl' =>
          modify (set_bc_free fl') ;;
          upd_bc a (fun old => new_bc d b ppn (u8 state) (buf_vp old)) ;;
          upd_pp ppn (pp_set_buf a) ;;
          ppage_acl_zero ppn ;;
          modify (fun s => set_bc_qs (<[bc_hash64 d b := a :: bc_queue (bc_hash64 d b) s]> (bc_qs s)) s) ;;
          mreturn (inl a)
      end.

Definition bc_insert (junk : Z -> bc_entry) (d b ppn state : Z) : M pool (Z + Z) :=
  bc_insert64 junk d b ppn state.

Definition bc_lookup (d b : Z) (s : pool) : option Z := bc_lookup64 d (u32 b) s.

(** A page in the cache and on [free_bufs]. *)
Definition ppage_get_reclaimable_buffer (junk : Z -> bc_entry) (dev block bc_state userreq : Z)
    : M pool (Z + Z) :=
  r <- ppage_alloc PP_USER userreq ;;
  match r with
  | (r, Some p) =>
      if r <? 0 then mreturn (inr r)
      else
        o <- bc_insert64 junk dev block p bc_state ;;
        match o with
        | inr r => ppage_free p ;; mreturn (inr r)
        | inl a => ppage_free p ;; mreturn (inl a)
        end
  | (r, None) => mreturn (inr r)
  end.

(** ** Calls that change a header *)

Definition sys_bc_set_dirty64 (dev blk_hi blk_low dirty : Z) : M pool Z :=
  o <- gets (bc_lookup64 dev (INT2QUAD blk_hi blk_low)) ;;
  match o with
  | None => mreturn (- E_NOT_FOUND)
  | Some a => (if negb (dirty =? 0) then bc_set_dirty a else bc_set_clean a) ;; mreturn 0
  end.

Definition sys_bc_set_user64 (dev blk_hi blk_low user1 user2 : Z) : M pool Z :=
  o <- gets (bc_lookup64 dev (INT2QUAD blk_hi blk_low)) ;;
  match o with
  | None => mreturn (- E_NOT_FOUND)
  | Some a => upd_bc a (bc_user_as user1 user2) ;; mreturn 0
  end.

Definition sys_bc_set_state64 (dev blk_hi blk_low state : Z) : M pool Z :=
  if negb ((state =? BC_EMPTY) || (state =? BC_VALID) || (state =? BC_COMING_IN) || (state =? BC_GOING_OUT))
  then mreturn (- E_INVAL)
  else
    o <- gets (bc_lookup64 dev (INT2QUAD blk_hi blk_low)) ;;
    match o with
    | None => mreturn (- E_NOT_FOUND)
    | Some a => upd_bc a (bc_state_as state) ;; mreturn 0
    end.

(** The 32-bit entry points. *)
Definition sys_bc_set_dirty (dev blk dirty : Z) : M pool Z := sys_bc_set_dirty64 dev 0 blk dirty.
Definition sys_bc_set_user (dev blk user1 user2 : Z) : M pool Z :=
  sys_bc_set_user64 dev 0 blk user1 user2.
Definition sys_bc_set_state (dev blk state : Z) : M pool Z := sys_bc_set_state64 dev 0 blk state.

(** ** Flushing *)

Definition bc_flush_by_buf (o : option Z) : M pool unit :=
  match o with
  | None => mreturn tt
  | Some a =>
      b <- get_bc a ;;
      let p := buf_ppn b in
      pp <- get_pp p ;;
      assert_ ((pp_status pp =? PP_FREE) || (pp_status pp =? PP_USER)) ;;
      if (pp_status pp =? PP_USER) || negb (pp_pinned pp =? 0) || negb (buf_dirty b =? 0)
      then mreturn tt
      else ppage_free_bufs_2_free_list p
  end.

Definition flush_by_dev (d b : Z) : M pool unit :=
  o <- gets (bc_lookup64 d b) ;; bc_flush_by_buf o.

Definition MAX_DISKS := 8.
Definition BC_SYNC_ANY := MAX_DISKS + 1.

(** Walk every queue; [next] is read before the header is flushed. *)
Definition flush_queues (test : bc_entry -> bool) : M pool unit :=
  mfor (fun i =>
    q <- gets (bc_queue i) ;;
    mfor (fun a => b <- get_bc a ;; if test b then bc_flush_by_buf (Some a) else mreturn tt) q)
    (zseq 0 (Z.to_nat BC_NUM_QS)).

Definition sys_bc_flush64 (d b_hi b_low num : Z) : M pool unit :=
  let b := INT2QUAD b_hi b_low in
  if negb (d =? BC_SYNC_ANY) && negb (b =? BC_SYNC_ANY) then
    if BC_NUM_QS <? num then
      flush_queues (fun e => (b <=? buf_blk64 e) && (buf_blk64 e <? u64 (b + num)) && (buf_dev e =? d))
    else mfor (fun i => flush_by_dev d (u64 (b + i))) (zseq 0 (Z.to_nat num))
  else if d =? BC_SYNC_ANY then flush_queues (fun _ => true)
  else flush_queues (fun e => buf_dev e =? d).

Definition sys_bc_flush (d b num : Z) : M pool unit := sys_bc_flush64 d 0 b num.

(** ** Queries and completion *)

(** Result code and the three words copied out. *)
Definition sys_bc_ppn2buf64 (ppn : Z) : M pool (Z * option (Z * Z * Z)) :=
  n <- gets nppage ;;
  if (ppn <? 1) || (n <=? ppn) then mreturn (- E_INVAL, None)
  else
    pp <- get_pp ppn ;;
    if negb (pp_status pp =? PP_USER) then mreturn (- E_INVAL, None)
    else if pp_buf pp =? 0 then mreturn (- E_NOT_FOUND, None)
    else
      b <- get_bc (pp_buf pp) ;;
      mreturn (0, Some (buf_dev b, QUAD2INT_HIGH (buf_blk64 b), QUAD2INT_LOW (buf_blk64 b))).

(** Completion of one block; the result is the environment to schedule
    towards, if any.  [resched] is [should_reschedule]. *)
Definition bc_diskreq_done64 (write addr envid resched : Z) : M pool Z :=
  n <- gets nppage ;;
  let p := kva2ppn addr in
  assert_ (p <? n) ;;
  pp <- get_pp p ;;
  if pp_buf pp =? 0 then mreturn resched
  else
    let a := pp_buf pp in
    b <- get_bc a ;;
    if negb (tst (buf_state b) (Z.lor BC_COMING_IN BC_GOING_OUT)) then mreturn resched
    else if write =? 0 then
      if negb (tst (buf_state b) BC_COMING_IN) then mreturn resched
      else
        upd_bc a (fun b => bc_state_as (clr (buf_state b) BC_COMING_IN) b) ;;
        mreturn (if negb (envid =? 0) && (resched =? 0) then envid else resched)
    else
      if negb (tst (buf_state b) BC_GOING_OUT) && (buf_writecnt b <=? 0) then mreturn resched
      else
        upd_bc a (fun b => bc_writecnt_as (u8 (buf_writecnt b - 1)) b) ;;
        b <- get_bc a ;;
        (if buf_writecnt b =? 0
         then upd_bc a (fun b => bc_state_as (clr (buf_state b) BC_GOING_OUT) b)
         else mreturn tt) ;;
        mreturn resched.

(** ** Adding headers *)

Lemma bc_addr_inj q i q' i' :
  0 <= i < bc_per_page -> 0 <= i' < bc_per_page -> bc_addr q i = bc_addr q' i' -> q = q' /\ i = i'.
Proof. unfold bc_addr, bc_per_page, bc_bytes, NBPG, KERNBASE. lia. Qed.

Definition add_free_bc (a : Z) (b : bc_entry) (s : pool) : pool :=
  set_bcents (<[a := b]> (bcents s)) (set_bc_free (a :: bc_free_list s) s).

Lemma add_free_bc_ok a b q i pp s :
  bc_ok s -> bcents s !! a = None -> tst (buf_state b) BC_VALID = false ->
  ppages s !! q = Some pp -> pp_status pp = PP_KERNRO -> 0 <= i < bc_per_page -> a = bc_addr q i ->
  bc_ok (add_free_bc a b s).
Proof.
  intros [P Q QN FN F C D A ST] Hn Hv Hq Hs Hi Ha.
  assert (forall a', bcents s !! a' <> None -> a' <> a) as Hne by (intros a' H ->; done).
  split; cbn.
  - intros p pp0 Hp Hb. destruct (P p pp0 Hp Hb) as (b0 & Hb0 & ? & ?). exists b0.
    rewrite lookup_insert_ne by (apply not_eq_sym, Hne; congruence). done.
  - intros h x Hx. destruct (Q h x Hx) as (b0 & pp0 & Hb0 & ? & ? & ? & ? & ? & ?). exists b0, pp0.
    assert (x <> a) by (apply Hne; congruence). rewrite lookup_insert_ne by done.
    split_and!; try done. apply not_elem_of_cons. done.
  - apply QN.
  - constructor; [|done]. intros Hin. destruct (F a Hin) as (? & ? & _). congruence.
  - intros x [->|Hx]%elem_of_cons.
    + exists b. rewrite lookup_insert_eq. done.
    + destruct (F x Hx) as (b0 & ? & ?). exists b0. rewrite lookup_insert_ne; [done|].
      apply not_eq_sym, Hne. congruence.
  - intros x b0 Hx. rewrite elem_of_cons. destruct (decide (a = x)) as [->|]; [auto|].
    rewrite lookup_insert_ne in Hx by done. destruct (C x b0 Hx); auto.
  - rewrite mcount_insert_new by done. rewrite D.
    assert (live_dirty b = false) as -> by (unfold live_dirty; by rewrite Hv). cbn. f_equal. lia.
  - intros x b0 Hx. destruct (decide (a = x)) as [->|].
    + exists q, pp, i. done.
    + rewrite lookup_insert_ne in Hx by done. eauto.
  - exact ST.
Qed.

(** The loop that carves page [q] up. *)
Lemma carve_spec junk np q pp s :
  ppages s !! q = Some pp -> pp_status pp = PP_KERNRO -> pool_ok s ->
  (forall i, 0 <= i < bc_per_page -> bcents s !! bc_addr q i = None) ->
  wp (mfor (fun i =>
        let a := bc_addr q i in
        modify (fun s => set_bc_free (a :: bc_free_list s) s) ;;
        modify (fun s => set_bcents (<[a := bc_vp_as np BC_EMPTY (junk a)]> (bcents s)) s))
        (upto 0 bc_per_page)) s
    (fun _ s' => pool_ok s' /\ ppages s' = ppages s /\ bc_free_list s' <> [] /\
       nppage s' = nppage s /\ bc_qs s' = bc_qs s).
Proof.
  intros Hq Hs Hok Hfresh.
  set (P := fun i s' => pool_ok s' /\ ppages s' = ppages s /\ nppage s' = nppage s /\
    bc_qs s' = bc_qs s /\ (0 < i -> bc_free_list s' <> []) /\
    forall j, i <= j < bc_per_page -> bcents s' !! bc_addr q j = None).
  eapply wp_mono; [apply (wp_upto _ P 0 bc_per_page); [done| |]|].
  - split_and!; try done.
  - intros i s' Hi ([Hp' Hb'] & E & N & QE & _ & Hf). cbn. ps_steps.
    split_and!; try done; cbn.
    + split; [by eapply pages_ok_ext, Hp'|].
      eapply (add_free_bc_ok _ _ q i pp); try done; [by apply Hf; lia|by rewrite E].
    + intros j Hj. rewrite lookup_insert_ne; [apply Hf; lia|].
      intros [_ ?]%bc_addr_inj; unfold bc_per_page in *; lia.
  - intros [] s' (? & ? & ? & ? & Hne & _). split_and!; try done. apply Hne. done.
Qed.

Lemma free_page_no_headers s q pp i :
  bc_ok s -> ppages s !! q = Some pp -> pp_status pp <> PP_KERNRO -> 0 <= i < bc_per_page ->
  bcents s !! bc_addr q i = None.
Proof.
  intros Hbc Hq Hs Hi. destruct (bcents s !! bc_addr q i) as [b|] eqn:E; [|done].
  destruct (bo_addr _ Hbc _ _ E) as (q' & pp' & i' & Hq' & Hs' & Hi' & Ea).
  apply bc_addr_inj in Ea as [<- <-]; [congruence|done..].
Qed.

(** Pages in use are not affected by an operation. *)
Definition keeps_used (s s' : pool) : Prop :=
  nppage s' = nppage s /\
  forall p pp, ppages s !! p = Some pp -> pp_status pp <> PP_FREE -> ppages s' !! p = Some pp.

Lemma reclaimed_keeps_used p type pp s s' :
  ppages s !! p = Some pp -> pp_status pp = PP_FREE -> reclaimed p type pp s s' -> keeps_used s s'.
Proof.
  intros Hp Hs Hr. split; [apply Hr|]. intros q pq Hq Hsq. rewrite (rc_ppages _ _ _ _ _ Hr).
  rewrite lookup_insert_ne; [done|]. intros <-. congruence.
Qed.

Lemma bc_alloc_bufs_spec junk s :
  pool_ok s ->
  wp (bc_alloc_bufs junk) s (fun r s' => pool_ok s' /\ keeps_used s s' /\
    (r = 0 -> bc_free_list s' <> []) /\ (r = 0 \/ (r = - E_VSPACE \/ r = - E_NO_MEM) /\ s' = s)).
Proof.
  intros Hok. unfold bc_alloc_bufs. ps_steps. destruct (1024 <=? next_page s).
  { ps_steps. split_and!; auto; done. }
  ps_steps. eapply wp_mono; [by apply ppage_alloc_spec|]. intros r s1 [Hok1 H].
  destruct (find_free_ref 0 s) as [q|] eqn:E.
  2: { destruct H as [-> ->]. ps_steps. split_and!; auto; done. }
  destruct H as [-> (pq & Hq & Hr)]. cbn [Z.ltb Z.compare].
  apply find_free_ref_sound, reclaimable_free in E as (pq' & Hq' & Hs); [|apply Hok].
  assert (pq' = pq) as -> by congruence.
  assert (ppages s1 !! q = Some (initpp PP_KERNRO pq)) as Hq1
    by (rewrite (rc_ppages _ _ _ _ _ Hr); apply lookup_insert_eq).
  ps_steps. eapply wp_mono.
  { apply (carve_spec junk (next_page s) q (initpp PP_KERNRO pq)); [done|done| |].
    - destruct Hok1 as [H1 H2]. split; [by eapply pages_ok_ext, H1|by eapply bc_ok_ext, H2].
    - intros i Hi. cbn. apply eq_None_not_Some. rewrite (rc_dom _ _ _ _ _ Hr).
      rewrite (free_page_no_headers s q pq i); [|apply Hok|done|by rewrite Hs|done]. by intros []. }
  intros [] s2 ([H1 H2] & EP & Hne & EN & _). ps_steps. split_and!; auto.
  - split; [by eapply pages_ok_ext, H1|by eapply bc_ok_ext, H2].
  - destruct (reclaimed_keeps_used q PP_KERNRO pq s s1 Hq Hs Hr) as [N K]. split; cbn.
    + rewrite EN. exact N.
    + rewrite EP. exact K.
Qed.

(** ** Lookup *)

Lemma bc_find_Some m d blk q a :
  bc_find m d blk q = Some a ->
  a ∈ q /\ exists b, m !! a = Some b /\ buf_dev b = d /\ buf_blk64 b = blk.
Proof.
  induction q as [|x q IH]; cbn; [done|]. destruct (m !! x) as [b|] eqn:E.
  - destruct ((buf_blk64 b =? blk) && (buf_dev b =? d)) eqn:Ek.
    + intros [= ->]. apply andb_true_iff in Ek as [?%Z.eqb_eq ?%Z.eqb_eq]. split; [left|]. eauto.
    + intros H. destruct (IH H). split; [by right|done].
  - intros H. destruct (IH H). split; [by right|done].
Qed.

Lemma bc_lookup64_Some d blk s a :
  bc_ok s -> bc_lookup64 d blk s = Some a ->
  exists b pp, bcents s !! a = Some b /\ buf_dev b = d /\ buf_blk64 b = blk /\
    tst (buf_state b) BC_VALID = true /\ ppages s !! buf_ppn b = Some pp /\ pp_buf pp = a /\ a <> 0.
Proof.
  intros Hbc [Hq (b & Hb & ? & ?)]%bc_find_Some.
  destruct (bo_q _ Hbc _ _ Hq) as (b' & pp & Hb' & _ & ? & ? & ? & ? & _).
  assert (b' = b) as -> by congruence. exists b, pp. done.
Qed.

(** Every key that is cached is found (the first header entered last wins). *)
Lemma bc_find_complete m d blk q a b :
  a ∈ q -> m !! a = Some b -> buf_dev b = d -> buf_blk64 b = blk ->
  exists a', bc_find m d blk q = Some a'.
Proof.
  intros Hin Ha <- <-. induction q as [|x q IH]; [by apply not_elem_of_nil in Hin|]. cbn.
  destruct (m !! x) as [bx|] eqn:Ex.
  - destruct (_ && _) eqn:Ek; [eauto|].
    apply elem_of_cons in Hin as [->|Hin]; [|auto]. assert (bx = b) as -> by congruence.
    rewrite !Z.eqb_refl in Ek. done.
  - apply elem_of_cons in Hin as [->|Hin]; [congruence|auto].
Qed.

Lemma bc_find_ext m m' d blk q :
  (forall a, a ∈ q -> m' !! a = m !! a) -> bc_find m' d blk q = bc_find m d blk q.
Proof.
  induction q as [|x q IH]; intros H; cbn; [done|]. rewrite (H x) by left.
  rewrite IH by (intros a Ha; apply H; by right). done.
Qed.

(** ** Entering a block *)

Definition inserted (d b ppn state a vp : Z) (fl : list Z) (pp : Ppage) (s : pool) : pool :=
  mkPool (<[ppn := pp_set_acl (acl_init (pp_acl pp) PP_ACL_LEN) (pp_set_buf a pp)]> (ppages s))
    (nppage s) (free_list s) (free_bufs s)
    (<[a := new_bc d b ppn state vp]> (bcents s))
    (<[bc_hash64 d b := a :: bc_queue (bc_hash64 d b) s]> (bc_qs s))
    fl (next_page s) (bc_upt s) (si s).

Lemma inserted_queue d b ppn state a vp fl pp s h x :
  x ∈ bc_queue h (inserted d b ppn state a vp fl pp s) <->
  (h = bc_hash64 d b /\ x = a) \/ x ∈ bc_queue h s.
Proof.
  erewrite bc_queue_insert by reflexivity. destruct (decide (bc_hash64 d b = h)) as [<-|Hne].
  - rewrite elem_of_cons. naive_solver.
  - change (default [] (bc_qs s !! h)) with (bc_queue h s). naive_solver.
Qed.

Lemma valid_bit state : 0 <= state -> tst (Z.lor BC_VALID state) BC_VALID = true.
Proof.
  intros H. unfold tst, BC_VALID. apply negb_true_iff, Z.eqb_neq. intros E.
  apply (f_equal (fun z => Z.testbit z 0)) in E. rewrite Z.land_spec, Z.lor_spec in E.
  cbn in E. done.
Qed.

Lemma inserted_bc_ok d b ppn state a fl pp s old :
  0 <= state -> bc_ok s -> ppages s !! ppn = Some pp -> pp_status pp = PP_USER -> pp_buf pp = 0 -> a <> 0 ->
  bc_free_list s = a :: fl -> bcents s !! a = Some old ->
  bc_ok (inserted d b ppn state a (buf_vp old) fl pp s).
Proof.
  intros Hst0 Hok Hp Hus Hb0 Ha0 Hfl Hold. pose proof Hok as [P Q QN FN F C D A ST].
  set (vp := buf_vp old). rewrite Hfl in FN. apply NoDup_cons in FN as [Hnin FN].
  assert (forall h, a ∉ bc_queue h s) as Hnq.
  { intros h Hin. destruct (Q h a Hin) as (?&?&_&_&_&_&_&_&Hf). rewrite Hfl in Hf. apply Hf. left. }
  destruct (F a) as (old' & Hold' & Hov); [rewrite Hfl; left|].
  assert (old' = old) as -> by congruence.
  split.
  - cbn [ppages bcents inserted]. intros p pp0 Hp0 Hn.
    destruct (decide (ppn = p)) as [<-|Hne].
    + rewrite lookup_insert_eq in Hp0. injection Hp0 as <-. cbn.
      eexists. rewrite lookup_insert_eq. split_and!; [done|done|]. apply inserted_queue. left. done.
    + rewrite lookup_insert_ne in Hp0 by done. destruct (P p pp0 Hp0 Hn) as (b0 & ? & ? & Hq).
      assert (pp_buf pp0 <> a) by (intros Ea; rewrite Ea in Hq; by apply (Hnq _ Hq)).
      exists b0. rewrite lookup_insert_ne by done. split_and!; [done..|]. apply inserted_queue. by right.
  - intros h x [[-> ->]|Hx]%inserted_queue; cbn.
    + eexists _, _. rewrite !lookup_insert_eq. split; [done|]. split; [done|].
      split; [by apply valid_bit|]. cbn. rewrite lookup_insert_eq. split_and!; done.
    + destruct (Q h x Hx) as (b0 & pp0 & ? & ? & ? & Hp0 & ? & ? & Hf).
      assert (x <> a) by (intros ->; by apply (Hnq _ Hx)).
      assert (ppn <> buf_ppn b0) by congruence.
      exists b0, pp0. rewrite !lookup_insert_ne by done. split_and!; try done.
      rewrite Hfl, not_elem_of_cons in Hf. tauto.
  - intros h. erewrite bc_queue_insert by reflexivity.
    destruct (decide _); [constructor; [apply Hnq|apply QN]|apply QN].
  - exact FN.
  - cbn. intros x Hx. destruct (F x) as (b0 & ? & ?); [rewrite Hfl; by right|].
    exists b0. rewrite lookup_insert_ne by congruence. done.
  - intros x b0 Hx. rewrite inserted_queue. cbn in *. destruct (decide (a = x)) as [<-|Hne].
    + rewrite lookup_insert_eq in Hx. injection Hx as <-. right. left. done.
    + rewrite lookup_insert_ne in Hx by done.
      destruct (C x b0 Hx) as [Hin|Hin]; [|auto]. rewrite Hfl, elem_of_cons in Hin. naive_solver.
  - cbn. rewrite (mcount_insert _ _ _ old) by done. rewrite D.
    assert (live_dirty old = false) as -> by (unfold live_dirty; by rewrite Hov).
    assert (live_dirty (new_bc d b ppn state vp) = false) as ->
      by (unfold live_dirty; by rewrite andb_false_r). cbn. f_equal. lia.
  - cbn. intros x b0 Hx.
    assert (exists b1, bcents s !! x = Some b1) as [b1 Hb1].
    { destruct (decide (a = x)) as [<-|Hne]; [eauto|]. rewrite lookup_insert_ne in Hx by done. eauto. }
    destruct (A x b1 Hb1) as (q & pq & i & Hq & ? & ? & ?).
    destruct (decide (ppn = q)) as [<-|Hne].
    + eexists ppn, _, i. rewrite lookup_insert_eq. split; [done|]. split; [cbn; congruence|done].
    + exists q, pq, i. by rewrite lookup_insert_ne.
  - cbn. intros p pp0 Hp0 Hn. destruct (decide (ppn = p)) as [<-|Hne].
    + rewrite lookup_insert_eq in Hp0. injection Hp0 as <-. by right.
    + rewrite lookup_insert_ne in Hp0 by done. eauto.
Qed.

Lemma inserted_pages_ok d b ppn state a vp fl pp s :
  pages_ok None s -> ppages s !! ppn = Some pp -> pp_status pp <> PP_FREE ->
  pages_ok None (inserted d b ppn state a vp fl pp s).
Proof.
  intros Hpg Hp Hs.
  assert (pp_u pp <> PLink) as Hu by (intros Hu; apply Hs; by apply (pg_u _ _ Hpg ppn pp Hp)).
  eapply (pages_ok_close _ ppn); [cbn; apply lookup_insert_eq|done|done|].
  set (pp' := pp_set_acl (acl_init (pp_acl pp) PP_ACL_LEN) (pp_set_buf a pp)).
  eapply pages_ok_ext; [..|apply (pages_ok_transit s ppn pp pp' Hp eq_refl); by eapply pages_ok_open]; done.
Qed.

Lemma bc_addr_nonzero s a b : bc_ok s -> pages_ok None s -> bcents s !! a = Some b -> a <> 0.
Proof.
  intros Hbc Hpg Ha. destruct (bo_addr _ Hbc a b Ha) as (q & pq & i & Hq & _ & ? & ->).
  assert (0 <= q < nppage s) by (apply (pg_dom _ _ Hpg); eauto).
  unfold bc_addr, KERNBASE, NBPG, bc_bytes, bc_per_page in *. lia.
Qed.

Lemma bc_insert64_spec junk d b ppn state pp s :
  pool_ok s -> 0 <= ppn -> ppages s !! ppn = Some pp -> pp_status pp = PP_USER -> pp_buf pp = 0 ->
  wp (bc_insert64 junk d b ppn state) s (fun r s' => pool_ok s' /\
    match r with
    | inl a => exists s1 old fl, pool_ok s1 /\ keeps_used s s1 /\
        (bc_free_list s <> [] -> s1 = s) /\ bc_free_list s1 = a :: fl /\ bcents s1 !! a = Some old /\
        s' = inserted d b ppn (u8 state) a (buf_vp old) fl pp s1
    | inr e => (e = - E_VSPACE \/ e = - E_NO_MEM) /\ bc_free_list s = [] /\ s' = s
    end).
Proof.
  intros Hok H0 Hp Hs Hb. unfold bc_insert64. ps_steps.
  assert (0 <= ppn < nppage s) as Hr by (apply (pg_dom _ _ (proj1 Hok)); eauto).
  rewrite (proj2 (Z.leb_gt _ _)) by lia. ps_steps.
  assert (wp (match bc_free_list s with [] => bc_alloc_bufs junk | _ => mreturn 0 end) s
    (fun r s' => pool_ok s' /\ keeps_used s s' /\ (bc_free_list s <> [] -> s' = s) /\
      (r = 0 -> bc_free_list s' <> []) /\ (r = 0 \/ bc_free_list s = [] /\ (r = - E_VSPACE \/ r = - E_NO_MEM) /\ s' = s))) as Halloc.
  { destruct (bc_free_list s) as [|a0 fl0] eqn:Efl.
    - eapply wp_mono; [by apply bc_alloc_bufs_spec|]. intros r s' (? & ? & ? & [?|[? ?]]); split_and!; auto; done.
    - ps_steps. rewrite Efl. split_and!; auto; done. }
  eapply wp_mono; [exact Halloc|]. clear Halloc. intros r s1 (Hok1 & K1 & Hsame & Hfl1 & Hr1).
  destruct (Z.eqb_spec r 0) as [->|Hr0]; cbn [negb].
  2: { ps_steps. destruct Hr1 as [|(? & ? & ?)]; [done|]. done. }
  ps_steps. specialize (Hfl1 eq_refl). destruct (bc_free_list s1) as [|a fl] eqn:Efl; [done|].
  destruct (bo_f _ (proj2 Hok1) a) as (old & Hold & _); [rewrite Efl; left|].
  pose proof (proj2 K1 ppn pp Hp ltac:(by rewrite Hs)) as Hp1. unfold ppage_acl_zero. ps_steps.
  pose proof (bc_addr_nonzero s1 a old (proj2 Hok1) (proj1 Hok1) Hold).
  match goal with |- pool_ok ?S /\ _ => assert (S = inserted d b ppn (u8 state) a (buf_vp old) fl pp s1) as -> end.
  { unfold inserted. cbn. rewrite insert_insert_eq. done. }
  split; [|exists s1, old, fl; done]. destruct Hok1. split.
  - apply inserted_pages_ok; [done|done|by rewrite Hs].
  - apply inserted_bc_ok; try done. apply u8_range.
Qed.

(** ** Every operation keeps the invariant and does not stop *)

Lemma keeps_used_refl s : keeps_used s s.
Proof. done. Qed.

(** Freeing a page that is in use and unmapped. *)
Lemma ppage_free_spec p pp n s :
  pool_ok s -> ppages s !! p = Some pp -> pp_refcnt pp = Some n ->
  pp_status pp <> PP_KERNRO ->
  wp (ppage_free p) s (fun _ s' => pool_ok s' /\ s' = if n =? 0 then freed p pp s else s).
Proof.
  intros [Hpg Hbc] Hp Hn Hs. eapply ppage_free_run; [done..|]. split; [|done].
  destruct (n =? 0); [|done]. split; [|by apply freed_bc_ok].
  apply freed_pages_ok; [done|]. apply (pages_ok_open s p pp); try done.
  intros Hf. apply (pg_u _ _ Hpg p pp Hp) in Hf; [|done]. unfold pp_refcnt in Hn. by rewrite Hf in Hn.
Qed.

Lemma ppage_get_reclaimable_buffer_spec junk dev block bst userreq s :
  pool_ok s ->
  wp (ppage_get_reclaimable_buffer junk dev block bst userreq) s (fun r s' => pool_ok s' /\
    match r with
    | inl a => exists b pp, bc_lookup64 dev block s' = Some a /\ bcents s' !! a = Some b /\
        buf_dev b = dev /\ buf_blk64 b = block /\ buf_state b = Z.lor BC_VALID (u8 bst) /\
        bc_is_dirty b = false /\
        ppages s' !! buf_ppn b = Some pp /\ pp_status pp = PP_FREE /\ pp_pinned pp = 0 /\
        buf_ppn b ∈ free_bufs s'
    | inr e => e = - E_NO_MEM \/ e = - E_VSPACE
    end).
Proof.
  intros Hok. unfold ppage_get_reclaimable_buffer. ps_steps.
  eapply wp_mono; [by apply ppage_alloc_spec|]. intros r s1 [Hok1 H].
  destruct (find_free_ref userreq s) as [p|] eqn:E.
  2: { destruct H as [-> ->]. ps_steps. auto. }
  destruct H as [-> (pp & Hp & Hr)]. cbn [Z.ltb Z.compare].
  assert (pp_pinned pp = 0) as Hpin0.
  { apply find_free_ref_sound in E; [|apply Hok]. unfold reclaimable in E. rewrite Hp in E.
    apply andb_true_iff in E as [E _]. apply andb_true_iff in E as [_ E]. by apply Z.eqb_eq. }
  set (pp1 := initpp PP_USER pp).
  assert (ppages s1 !! p = Some pp1) as Hp1 by (rewrite (rc_ppages _ _ _ _ _ Hr); apply lookup_insert_eq).
  assert (0 <= p < nppage s1) as Hrange by (apply (pg_dom _ _ (proj1 Hok1)); eauto).
  ps_steps. eapply wp_mono; [apply (bc_insert64_spec junk dev block p bst pp1); [done|lia|done..]|].
  intros [a|e] s2 [Hok2 H2].
  - destruct H2 as (s1' & old & fl & Hok1' & K & _ & Hfl & Hold & ->).
    set (s2 := inserted _ _ _ _ _ _ _ _ _) in *.
    set (pp2 := pp_set_acl (acl_init (pp_acl pp1) PP_ACL_LEN) (pp_set_buf a pp1)).
    assert (ppages s2 !! p = Some pp2) as Hp2 by apply lookup_insert_eq.
    ps_steps. eapply wp_mono; [by apply (ppage_free_spec p pp2 0)|]. intros [] s3 [Hok3 ->].
    ps_steps. split; [done|]. cbn [Z.eqb]. pose proof (bc_addr_nonzero s1' a old (proj2 Hok1') (proj1 Hok1') Hold) as Ha0.
    unfold freed. cbn [pp_buf pp_set_acl pp_set_buf pp2]. rewrite (proj2 (Z.eqb_neq a 0) Ha0). cbn [negb].
    eexists _, _. split_and!.
    + unfold bc_lookup64. cbn. erewrite bc_queue_insert by reflexivity.
      rewrite decide_True by done. cbn. rewrite lookup_insert_eq. cbn. by rewrite !Z.eqb_refl.
    + cbn. apply lookup_insert_eq.
    + done.
    + done.
    + done.
    + done.
    + cbn. apply lookup_insert_eq.
    + done.
    + exact Hpin0.
    + cbn. apply elem_of_app. right. by left.
  - destruct H2 as (He & _ & ->).
    ps_steps. eapply wp_mono; [by apply (ppage_free_spec p pp1 0)|]. intros [] s3 [Hok3 _].
    ps_steps. split; [done|]. tauto.
Qed.

Lemma sys_bc_set_dirty64_ok dev hi low dirty s :
  pool_ok s -> wp (sys_bc_set_dirty64 dev hi low dirty) s (fun _ s' => pool_ok s').
Proof.
  intros [Hpg Hbc]. unfold sys_bc_set_dirty64. ps_steps.
  destruct (bc_lookup64 _ _ s) as [a|] eqn:E; [|by ps_steps].
  apply bc_lookup64_Some in E as (b & pp & Hb & _ & _ & Hv & _); [|done]. ps_steps.
  destruct (negb (dirty =? 0)).
  - eapply wp_mono; [by apply (bc_set_dirty_ok None a b s)|]. intros [] s' (? & ? & _). by ps_steps.
  - eapply bc_set_clean_run; [done|]. ps_steps. by apply clean_bc_ok.
Qed.

Lemma upd_bc_ok a b f s :
  pool_ok s -> bcents s !! a = Some b -> buf_dev (f b) = buf_dev b -> buf_blk64 (f b) = buf_blk64 b ->
  buf_ppn (f b) = buf_ppn b -> buf_dirty (f b) = buf_dirty b ->
  tst (buf_state (f b)) BC_VALID = tst (buf_state b) BC_VALID ->
  wp (upd_bc a f) s (fun _ s' => pool_ok s' /\ ppages s' = ppages s /\
    bcents s' = <[a := f b]> (bcents s) /\ bc_qs s' = bc_qs s).
Proof.
  intros [Hpg Hbc] Ha H1 H2 H3 H4 H5. ps_steps. split_and!; try done. split.
  - by eapply pages_ok_ext, Hpg.
  - by eapply bc_ok_entry.
Qed.

Lemma sys_bc_set_user64_ok dev hi low u1 u2 s :
  pool_ok s -> wp (sys_bc_set_user64 dev hi low u1 u2) s (fun _ s' => pool_ok s').
Proof.
  intros Hok. unfold sys_bc_set_user64. ps_steps.
  destruct (bc_lookup64 _ _ s) as [a|] eqn:E; [|by ps_steps].
  apply bc_lookup64_Some in E as (b & pp & Hb & _); [|apply Hok]. apply wp_bind.
  eapply wp_mono; [by apply (upd_bc_ok a b)|]. intros [] s' [? _]. by ps_steps.
Qed.

(** Setting the state keeps the invariant as long as the block stays valid. *)
Lemma sys_bc_set_state64_ok dev hi low state s :
  pool_ok s -> tst state BC_VALID = true ->
  wp (sys_bc_set_state64 dev hi low state) s (fun _ s' => pool_ok s').
Proof.
  intros Hok Hst. unfold sys_bc_set_state64. destruct (negb _); [by ps_steps|]. ps_steps.
  destruct (bc_lookup64 _ _ s) as [a|] eqn:E; [|by ps_steps].
  apply bc_lookup64_Some in E as (b & pp & Hb & _ & _ & Hv & _); [|apply Hok]. apply wp_bind.
  eapply wp_mono; [apply (upd_bc_ok a b); try done; cbn; congruence|]. intros [] s' [? _]. by ps_steps.
Qed.

(** Blocks a flush must not touch: mapped, pinned or dirty ones. *)
Definition protected (b : bc_entry) (pp : Ppage) : Prop :=
  pp_status pp = PP_USER \/ pp_pinned pp <> 0 \/ buf_dirty b <> 0.

Definition cached (s : pool) (a : Z) (b : bc_entry) (pp : Ppage) : Prop :=
  bcents s !! a = Some b /\ tst (buf_state b) BC_VALID = true /\ ppages s !! buf_ppn b = Some pp /\
  pp_buf pp = a.

Definition flush_keeps (s s' : pool) : Prop :=
  keeps_used s s' /\ forall a b pp, cached s a b pp -> protected b pp -> cached s' a b pp.

Lemma flush_keeps_refl s : flush_keeps s s.
Proof. done. Qed.

Lemma flush_keeps_trans s1 s2 s3 : flush_keeps s1 s2 -> flush_keeps s2 s3 -> flush_keeps s1 s3.
Proof.
  intros [[N1 K1] F1] [[N2 K2] F2]. split; [split; [congruence|eauto]|]. eauto.
Qed.

Lemma valid_not_free s a b :
  bc_ok s -> bcents s !! a = Some b -> tst (buf_state b) BC_VALID = true -> a ∉ bc_free_list s.
Proof. intros Hbc Ha Hv Hin. destruct (bo_f _ Hbc a Hin) as (b' & ? & ?). congruence. Qed.

(** A flush drops one clean, unpinned, unmapped block or nothing. *)
Lemma bc_flush_by_buf_spec a b s :
  pool_ok s -> bcents s !! a = Some b -> tst (buf_state b) BC_VALID = true ->
  wp (bc_flush_by_buf (Some a)) s (fun _ s' => pool_ok s' /\ flush_keeps s s' /\
    forall x, x <> a -> bcents s' !! x = bcents s !! x).
Proof.
  intros Hok Ha Hv. pose proof Hok as [Hpg Hbc].
  destruct (bo_cov _ Hbc a b Ha) as [Hin|Hin]; [by destruct (valid_not_free s a b)|].
  destruct (bo_q _ Hbc _ _ Hin) as (b' & pp & Hb' & _ & _ & Hp & Hpa & Ha0 & _).
  assert (b' = b) as -> by congruence.
  cbn; ps_steps; [destruct (bo_st _ Hbc _ _ Hp) as [->| ->]; [by rewrite Hpa|done..]|].
  destruct (bo_st _ Hbc _ _ Hp) as [Hst|Hst]; [by rewrite Hpa| |rewrite Hst; cbn; by ps_steps].
  rewrite Hst. cbn.
  destruct (Z.eqb_spec (pp_pinned pp) 0) as [Hpin|]; cbn; [|by ps_steps].
  destruct (Z.eqb_spec (buf_dirty b) 0) as [Hd|]; cbn; [|by ps_steps].
  eapply wp_mono; [apply ppage_free_bufs_2_free_list_spec; [done|done|done|by rewrite Hpa]|].
  intros [] s' (Hok' & (pp' & Epp & _) & EN & _ & _ & Hents). rewrite Hpa in Hents.
  split; [done|]. split; [|done]. split; [split; [done|]|].
  - intros q pq Hq Hsq. rewrite Epp, lookup_insert_ne; [done|]. intros <-. congruence.
  - intros x bx ppx (Hx & Hvx & Hpx & Hbx) Hprot.
    assert (x <> a) as Hxa.
    { intros ->. assert (bx = b) as -> by congruence. assert (ppx = pp) as -> by congruence.
      destruct Hprot as [Hu|[?|?]]; [by rewrite Hst in Hu|done..]. }
    assert (buf_ppn b <> buf_ppn bx) by congruence.
    split_and!; [by rewrite Hents|done| |done]. by rewrite Epp, lookup_insert_ne.
Qed.

Lemma flush_by_dev_spec d blk s :
  pool_ok s -> wp (flush_by_dev d blk) s (fun _ s' => pool_ok s' /\ flush_keeps s s').
Proof.
  intros Hok. unfold flush_by_dev. ps_steps. destruct (bc_lookup64 d blk s) as [a|] eqn:E.
  - apply bc_lookup64_Some in E as (b & pp & Hb & _ & _ & Hv & _); [|apply Hok].
    eapply wp_mono; [by apply (bc_flush_by_buf_spec a b)|]. intros [] s' (? & ? & _). done.
  - cbn. by ps_steps.
Qed.

Lemma flush_queues_spec test s :
  pool_ok s -> wp (flush_queues test) s (fun _ s' => pool_ok s' /\ flush_keeps s s').
Proof.
  intros Hok. unfold flush_queues.
  apply (wp_mfor _ _ _ (fun _ s' => pool_ok s' /\ flush_keeps s s')); [done| |done].
  intros i _ s1 [Hok1 K1]. ps_steps.
  apply (wp_mfor _ _ _ (fun l s' => pool_ok s' /\ flush_keeps s s' /\ NoDup l /\
    forall x, x ∈ l -> exists b, bcents s' !! x = Some b /\ tst (buf_state b) BC_VALID = true)).
  - split_and!; [done|done|apply (bo_qnd _ (proj2 Hok1))|]. intros x Hx.
    destruct (bo_q _ (proj2 Hok1) _ _ Hx) as (b & _ & ? & _ & ? & _). eauto.
  - intros a l s2 (Hok2 & K2 & [Hna Hnd]%NoDup_cons & Hl).
    destruct (Hl a) as (b & Hb & Hv); [left|]. ps_steps. destruct (test b).
    + eapply wp_mono; [by apply (bc_flush_by_buf_spec a b)|]. intros [] s3 (Hok3 & K3 & Hents).
      split_and!; [done|by eapply flush_keeps_trans|done|]. intros x Hx.
      rewrite Hents by congruence. apply Hl. by right.
    + ps_steps. split_and!; try done. intros x Hx. apply Hl. by right.
  - intros s2 (? & ? & _). done.
Qed.

Lemma sys_bc_flush64_spec d hi low num s :
  pool_ok s -> wp (sys_bc_flush64 d hi low num) s (fun _ s' => pool_ok s' /\ flush_keeps s s').
Proof.
  intros Hok. unfold sys_bc_flush64. destruct (_ && _).
  - destruct (BC_NUM_QS <? num); [by apply flush_queues_spec|].
    apply (wp_mfor _ _ _ (fun _ s' => pool_ok s' /\ flush_keeps s s')); [done| |done].
    intros i _ s1 [Hok1 K1]. eapply wp_mono; [by apply flush_by_dev_spec|].
    intros [] s2 [? ?]. split; [done|]. by eapply flush_keeps_trans.
  - destruct (d =? BC_SYNC_ANY); by apply flush_queues_spec.
Qed.

(** ** Completion *)

Lemma clr_valid x m : Z.testbit m 0 = false -> tst (clr x m) BC_VALID = tst x BC_VALID.
Proof.
  intros Hm. unfold tst, clr, BC_VALID. f_equal. f_equal. apply Z.bits_inj'. intros n Hn.
  rewrite !Z.land_spec, Z.lxor_spec. destruct (decide (n = 0)) as [->|].
  - rewrite Hm. cbn. by rewrite andb_true_r.
  - assert (Z.testbit 1 n = false) as ->; [|by rewrite !andb_false_r].
    change 1 with (2 ^ 0). apply Z.pow2_bits_false. lia.
Qed.

Lemma bc_diskreq_done64_spec write addr envid resched s :
  pool_ok s -> kva2ppn addr < nppage s ->
  wp (bc_diskreq_done64 write addr envid resched) s (fun _ s' => pool_ok s' /\ ppages s' = ppages s).
Proof.
  intros Hok Hr. pose proof Hok as [Hpg Hbc]. unfold bc_diskreq_done64. ps_steps; [by apply Z.ltb_lt|].
  assert (0 <= kva2ppn addr) as H0.
  { unfold kva2ppn. apply Z.shiftr_nonneg. apply u32_range. }
  destruct (page_in_range s (kva2ppn addr) Hpg) as [pp Hp]; [lia|]. ps_steps.
  destruct (Z.eqb_spec (pp_buf pp) 0); [by ps_steps|].
  destruct (bo_pp _ Hbc _ _ Hp) as (b & Hb & _); [done|]. ps_steps.
  destruct (negb _); [by ps_steps|]. destruct (write =? 0).
  - destruct (negb _); [by ps_steps|]. apply wp_bind. eapply wp_mono.
    { apply (upd_bc_ok (pp_buf pp) b); try done. by apply clr_valid. }
    intros [] s' (? & ? & _). by ps_steps.
  - destruct (negb _ && _); [by ps_steps|]. apply wp_bind. eapply wp_mono.
    { by apply (upd_bc_ok (pp_buf pp) b). }
    intros [] s' (Hok' & EP & EB & _).
    assert (bcents s' !! pp_buf pp = Some (bc_writecnt_as (u8 (buf_writecnt b - 1)) b)) as Hb'
      by (rewrite EB; apply lookup_insert_eq).
    ps_steps. destruct (_ =? 0); [|by ps_steps]. eapply wp_mono.
    { apply (upd_bc_ok _ _ _ s' Hok' Hb'); try done. by apply clr_valid. }
    intros [] s2 (? & ? & _). ps_steps. split; [done|congruence].
Qed.

(** ** Reachable pools *)

(** One kernel operation on pages or cached blocks, in any order: pages that
    are allocated are given a type other than free, only pages in use are freed,
    only user pages without a block are entered into the cache.  Of the states
    [sys_bc_set_state64] accepts, those without [BC_VALID] are left out: they
    break the invariant.  The calls on extents ([BufIO.v]) are not among the
    steps. *)
Inductive pool_step : pool -> pool -> Prop :=
  | st_alloc s s' type u r :
      0 < type < 256 -> ppage_alloc type u s = Ret r s' -> pool_step s s'
  | st_alloc_n s s' type n r :
      0 < type < 256 -> ppage_alloc_n type n s = Ret r s' -> pool_step s s'
  | st_free s s' p pp r :
      ppages s !! p = Some pp -> pp_status pp <> PP_FREE -> pp_status pp <> PP_KERNRO ->
      ppage_free p s = Ret r s' -> pool_step s s'
  | st_pin s s' p pp r :
      ppages s !! p = Some pp -> pp_pinned pp < 2 ^ 31 - 1 -> ppage_pin p s = Ret r s' -> pool_step s s'
  | st_unpin s s' p pp r :
      ppages s !! p = Some pp -> 0 < pp_pinned pp -> ppage_unpin p s = Ret r s' -> pool_step s s'
  | st_reuse s s' p pp r :
      ppages s !! p = Some pp -> pp_status pp = PP_FREE -> pp_buf pp <> 0 ->
      ppage_reuse_buffer p s = Ret r s' -> pool_step s s'
  | st_insert s s' junk d b ppn st pp r :
      0 <= ppn -> ppages s !! ppn = Some pp -> pp_status pp = PP_USER -> pp_buf pp = 0 ->
      bc_insert64 junk d b ppn st s = Ret r s' -> pool_step s s'
  | st_buffer s s' junk d b st u r :
      ppage_get_reclaimable_buffer junk d b st u s = Ret r s' -> pool_step s s'
  | st_dirty s s' d hi low v r :
      sys_bc_set_dirty64 d hi low v s = Ret r s' -> pool_step s s'
  | st_user s s' d hi low u1 u2 r :
      sys_bc_set_user64 d hi low u1 u2 s = Ret r s' -> pool_step s s'
  | st_state s s' d hi low v r :
      tst v BC_VALID = true -> sys_bc_set_state64 d hi low v s = Ret r s' -> pool_step s s'
  | st_flush s s' d hi low n r :
      sys_bc_flush64 d hi low n s = Ret r s' -> pool_step s s'
  | st_done s s' w addr e rs r :
      kva2ppn addr < nppage s -> bc_diskreq_done64 w addr e rs s = Ret r s' -> pool_step s s'.

Lemma pool_step_ok s s' : pool_step s s' -> pool_ok s -> pool_ok s'.
Proof.
  intros Hst Hok. inversion Hst; subst;
    match goal with H : ?m s = Ret ?r s' |- _ => apply (wp_run m s r s' (fun _ s => pool_ok s)); [|exact H] end.
  - eapply wp_mono; [by apply ppage_alloc_spec|]. by intros ? ? [? _].
  - eapply wp_mono; [by apply ppage_alloc_n_spec|]. by intros ? ? [? _].
  - assert (exists n, pp_refcnt pp = Some n) as [n Hn].
    { unfold pp_refcnt. destruct (pp_u pp) eqn:E; [|eauto].
      apply (pg_u _ _ (proj1 Hok) p pp) in E; done. }
    eapply wp_mono; [by eapply ppage_free_spec|]. by intros ? ? [? _].
  - eapply wp_mono; [by eapply ppage_pin_run|]. intros ? ? ->.
    pose proof (pg_pin _ _ (proj1 Hok) p pp ltac:(done)). apply repinned_ok; [done|done|lia].
  - eapply wp_mono; [by eapply ppage_unpin_run|]. intros ? ? ->.
    pose proof (pg_pin _ _ (proj1 Hok) p pp ltac:(done)). apply repinned_ok; [done|done|lia].
  - eapply wp_mono; [by eapply ppage_reuse_buffer_spec|]. by intros ? ? [? _].
  - eapply wp_mono; [by eapply bc_insert64_spec|]. by intros ? ? [? _].
  - eapply wp_mono; [by apply ppage_get_reclaimable_buffer_spec|]. by intros ? ? [? _].
  - by apply sys_bc_set_dirty64_ok.
  - by apply sys_bc_set_user64_ok.
  - by apply sys_bc_set_state64_ok.
  - eapply wp_mono; [by apply sys_bc_flush64_spec|]. by intros ? ? [? _].
  - eapply wp_mono; [by apply bc_diskreq_done64_spec|]. by intros ? ? [? _].
Qed.

(** ** Properties *)


(** C25: what is entered is found.  Entering a block for a page in use
    ([PP_USER]) that holds no block returns: the block is then found under its device and number,
    valid and clean, with the page pointing back at its header; and when a header
    was at hand, every other block is found as before (making headers may take
    a page that held another).  It fails only when there is no header and none
    can be made, and then nothing changes. *)
Theorem bc_insert_lookup junk d b ppn st pp s :
  pool_ok s -> 0 <= ppn -> ppages s !! ppn = Some pp -> pp_status pp = PP_USER -> pp_buf pp = 0 ->
  wp (bc_insert64 junk d b ppn st) s (fun r s' => pool_ok s' /\
    match r with
    | inl a =>
        bc_lookup64 d b s' = Some a /\
        (exists e pp', cached s' a e pp' /\ buf_dev e = d /\ buf_blk64 e = b /\ buf_ppn e = ppn /\
           bc_is_dirty e = false) /\
        (bc_free_list s <> [] -> forall d' b', (d', b') <> (d, b) ->
           bc_lookup64 d' b' s' = bc_lookup64 d' b' s)
    | inr e => (e = - E_VSPACE \/ e = - E_NO_MEM) /\ bc_free_list s = [] /\ s' = s
    end).
Proof.
  intros Hok H0 Hp Hs Hb. eapply wp_mono; [by eapply bc_insert64_spec|].
  intros [a|e] s' [Hok' H]; (split; [done|]); [|done].
  destruct H as (s1 & old & fl & Hok1 & _ & Hsame & Hfl & Hold & ->). split_and!.
  - unfold bc_lookup64. cbn. erewrite bc_queue_insert by reflexivity. rewrite decide_True by done. cbn.
    rewrite lookup_insert_eq. cbn. by rewrite !Z.eqb_refl.
  - exists (new_bc d b ppn (u8 st) (buf_vp old)). eexists. split; [|done]. split_and!; cbn.
    + apply lookup_insert_eq.
    + apply valid_bit. apply u8_range.
    + apply lookup_insert_eq.
    + done.
  - intros Hne d' b' Hk. rewrite (Hsame Hne) in *. unfold bc_lookup64. cbn.
    assert (forall h x, x ∈ bc_queue h s -> x <> a) as Hq.
    { intros h x Hx ->. destruct (bo_q _ (proj2 Hok) h a Hx) as (?&?&_&_&_&_&_&_&Hf).
      apply Hf. rewrite Hfl. left. }
    erewrite bc_queue_insert by reflexivity. destruct (decide _) as [Eh|].
    + rewrite Eh. cbn. rewrite lookup_insert_eq. cbn.
      destruct ((b =? b') && (d =? d')) eqn:E.
      { apply andb_true_iff in E as [->%Z.eqb_eq ->%Z.eqb_eq]. done. }
      apply bc_find_ext. intros x Hx. rewrite lookup_insert_ne; [done|]. by apply not_eq_sym, (Hq _ x Hx).
    + apply bc_find_ext. intros x Hx. rewrite lookup_insert_ne; [done|]. by apply not_eq_sym, (Hq _ x Hx).
Qed.

(** C34: flushing returns and is safe: whatever range or device it is asked for,
    [sys_bc_flush64] keeps the invariant, leaves every page in use alone, and
    leaves every block that is mapped, pinned or dirty in the cache.  (A block
    that is only tainted may go.) *)
Theorem sys_bc_flush64_protects d hi low num s :
  pool_ok s -> wp (sys_bc_flush64 d hi low num) s (fun _ s' => pool_ok s' /\
    keeps_used s s' /\
    forall a e pp, cached s a e pp ->
      pp_status pp = PP_USER \/ pp_pinned pp <> 0 \/ buf_dirty e <> 0 -> cached s' a e pp).
Proof.
  intros Hok. eapply wp_mono; [by apply sys_bc_flush64_spec|]. intros [] s' [? [? ?]]. done.
Qed.

(** A buffer obtained for a block being read in is cached under its key,
    clean, on an unpinned free page that is the next to last resort of the
    allocator ([free_bufs]); failure is reported only as out of memory or out
    of header space, with the invariant kept and the page given back. *)
Theorem ppage_get_reclaimable_buffer_cached junk dev block bst userreq s :
  pool_ok s ->
  wp (ppage_get_reclaimable_buffer junk dev block bst userreq) s (fun r s' => pool_ok s' /\
    match r with
    | inl a => exists b pp, bc_lookup64 dev block s' = Some a /\ bcents s' !! a = Some b /\
        buf_dev b = dev /\ buf_blk64 b = block /\ buf_state b = Z.lor BC_VALID (u8 bst) /\
        bc_is_dirty b = false /\
        ppages s' !! buf_ppn b = Some pp /\ pp_status pp = PP_FREE /\ pp_pinned pp = 0 /\
        buf_ppn b ∈ free_bufs s'
    | inr e => e = - E_NO_MEM \/ e = - E_VSPACE
    end).
Proof. apply ppage_get_reclaimable_buffer_spec. Qed.

(** ** Witnesses *)

Definition ex_junk (_ : Z) : bc_entry := mkBc 0 0 0 0 0 1 0 0 0 0.


(** The machine after one user page, 299, was allocated. *)
Definition ex_user : pool := default ex_booted (ret_state (ppage_alloc PP_USER 0 ex_booted)).

Lemma ex_user_run : ppage_alloc PP_USER 0 ex_booted = Ret (0, Some 299) ex_user.
Proof.
  assert (ret_val (ppage_alloc PP_USER 0 ex_booted) = Some (0, Some 299)) as E by (vm_compute; reflexivity).
  unfold ex_user. destruct (ppage_alloc PP_USER 0 ex_booted); [|discriminate E].
  injection E as ->. reflexivity.
Qed.

Lemma ex_user_ok : pool_ok ex_user.
Proof.
  eapply pool_step_ok; [|exact ex_booted_ok]. eapply st_alloc; [|exact ex_user_run]. done.
Qed.


Lemma bc_insert_lookup_witness :
  exists a s', bc_insert64 ex_junk 0 5 299 BC_COMING_IN ex_user = Ret (inl a) s' /\
    bc_lookup64 0 5 s' = Some a.
Proof.
  assert ((fun pp => (pp_status pp, pp_buf pp)) <$> ppages ex_user !! 299 = Some (PP_USER, 0)) as E0
    by (vm_compute; reflexivity).
  destruct (ppages ex_user !! 299) as [pp|] eqn:E; [|discriminate E0]. injection E0 as Es Eb.
  assert (match ret_val (bc_insert64 ex_junk 0 5 299 BC_COMING_IN ex_user) with
          | Some (inl _) => True | _ => False end) as Er by (vm_compute; exact I).
  pose proof (bc_insert_lookup ex_junk 0 5 299 BC_COMING_IN pp ex_user ex_user_ok ltac:(lia) E Es Eb) as H.
  unfold wp in H. destruct (bc_insert64 ex_junk 0 5 299 BC_COMING_IN ex_user) as [[a|e] s'|];
    [|contradiction Er|contradiction H].
  destruct H as (_ & Hl & _). exists a, s'. split; [reflexivity|exact Hl].
Defined.

(** Block 7 of device 1 in the cache and dirty. *)
Definition ex_fill : pool := default ex_user (ret_state (ppage_get_reclaimable_buffer ex_junk 1 7 BC_COMING_IN 0 ex_user)).
Definition ex_dirty : pool := default ex_fill (ret_state (sys_bc_set_dirty64 1 0 7 1 ex_fill)).

Lemma ex_dirty_ok : pool_ok ex_dirty.
Proof.
  assert (pool_ok ex_fill) as H1.
  { unfold ex_fill. destruct (ppage_get_reclaimable_buffer ex_junk 1 7 BC_COMING_IN 0 ex_user) as [r s|] eqn:E; [|exact ex_user_ok].
    eapply pool_step_ok; [eapply st_buffer, E|exact ex_user_ok]. }
  unfold ex_dirty. destruct (sys_bc_set_dirty64 1 0 7 1 ex_fill) as [r s|] eqn:E; [|exact H1].
  eapply pool_step_ok; [eapply st_dirty, E|exact H1].
Qed.

(** A test for a dirty block under the key. *)
Definition probe (d b : Z) (s : pool) : bool :=
  match bc_lookup64 d b s with
  | Some a => match bcents s !! a with
              | Some e => match ppages s !! buf_ppn e with
                          | Some pp => tst (buf_state e) BC_VALID && (pp_buf pp =? a) && (buf_dirty e =? 1)
                          | None => false
                          end
              | None => false
              end
  | None => false
  end.

Lemma probe_cached d b s : probe d b s = true -> exists a e pp, cached s a e pp /\ buf_dirty e = 1.
Proof.
  unfold probe. destruct (bc_lookup64 d b s) as [a|]; [|done]. destruct (bcents s !! a) as [e|] eqn:Ee; [|done].
  destruct (ppages s !! buf_ppn e) as [pp|] eqn:Ep; [|done]. intros [[H1 H2%Z.eqb_eq]%andb_true_iff H3%Z.eqb_eq]%andb_true_iff. by exists a, e, pp.
Qed.

Lemma ex_dirty_cached : exists a e pp, cached ex_dirty a e pp /\ buf_dirty e = 1.
Proof. apply (probe_cached 1 7). vm_compute. reflexivity. Qed.

Lemma sys_bc_flush64_protects_witness :
  exists a e pp s', sys_bc_flush64 BC_SYNC_ANY 0 0 0 ex_dirty = Ret tt s' /\ buf_dirty e = 1 /\ cached ex_dirty a e pp /\ cached s' a e pp.
Proof.
  destruct ex_dirty_cached as (a & e & pp & Hc & Hd).
  pose proof (sys_bc_flush64_protects BC_SYNC_ANY 0 0 0 ex_dirty ex_dirty_ok) as H.
  unfold wp in H. destruct (sys_bc_flush64 BC_SYNC_ANY 0 0 0 ex_dirty) as [[] s'|]; [|contradiction H].
  exists a, e, pp, s'. split; [reflexivity|]. split; [exact Hd|]. split; [exact Hc|]. destruct H as (_ & _ & H). apply (H a e pp Hc). right. right. rewrite Hd. discriminate.
Defined.

Lemma ppage_get_reclaimable_buffer_cached_witness :
  exists a s', ppage_get_reclaimable_buffer ex_junk 1 7 BC_COMING_IN 0 ex_user = Ret (inl a) s' /\
    bc_lookup64 1 7 s' = Some a.
Proof.
  assert (match ret_val (ppage_get_reclaimable_buffer ex_junk 1 7 BC_COMING_IN 0 ex_user) with
          | Some (inl _) => True | _ => False end) as Er by (vm_compute; exact I).
  pose proof (ppage_get_reclaimable_buffer_cached ex_junk 1 7 BC_COMING_IN 0 ex_user ex_user_ok) as H.
  unfold wp in H.
  destruct (ppage_get_reclaimable_buffer ex_junk 1 7 BC_COMING_IN 0 ex_user) as [[a|e] s'|];
    [|contradiction Er|contradiction H].
  destruct H as (_ & b & pp & Hl & _). exists a, s'. split; [reflexivity|exact Hl].
Defined.

(** Any environment may set a block's state to [BC_EMPTY]; the next flush of
    that block then trips the assertion of [bc_remove] and stops the kernel. *)
Example sys_bc_set_state_stops_flush :
  ret_val ((ppage_get_reclaimable_buffer ex_junk 1 7 BC_COMING_IN 0 ;;
            sys_bc_set_state64 1 0 7 BC_EMPTY ;;
            sys_bc_flush64 1 0 7 1) ex_booted) = None /\
  ret_val ((ppage_get_reclaimable_buffer ex_junk 1 7 BC_COMING_IN 0 ;;
            sys_bc_flush64 1 0 7 1) ex_booted) = Some tt.
Proof. vm_compute. auto. Qed.
