(* ===== verification/BufIO.v ===== *)
(** * Disk requests of the buffer cache

    [disk_prepare_bc_request], [disk_bc_request] and [disk_buf_free_chain] of
    sys/kern/disk.c, and the extent operations of sys/kern/bc.c built on them.
    A request is a chain of buffers, one per block, all but the last flagged
    [B_SCATGATH]; a block's page stays pinned while it is on a chain.

    [disks] is the table [si_disks]: sector size and number of sectors.  [mems]
    gives the results of the successive [malloc] calls (0 for NULL).  The
    driver's strategy routine is represented by the chain handed to it. *)

From Stdlib Require Import ZArith Lia.
From stdpp Require Import base numbers option list gmap.
From S2P Require Import Prelude Capability PageState PageAlloc BufCache.

Definition B_WRITE := 0.
Definition B_READ := 1.
Definition B_SCATGATH := 0x10.
Definition B_BC_REQ := 0x1000.

(** [b_next] and [b_sgnext] are the chain itself. *)
Record buf := mkBuf {
  b_flags : Z;
  b_dev : Z;
  b_blkno : Z;
  b_bcount : Z;
  b_sgtot : Z;
  b_memaddr : Z;
  b_resptr : Z;
  b_envid : Z;
  b_resid : Z }.

Definition b_flag (f : Z) (b : buf) : buf :=
  mkBuf (Z.lor (b_flags b) f) (b_dev b) (b_blkno b) (b_bcount b) (b_sgtot b) (b_memaddr b)
    (b_resptr b) (b_envid b) (b_resid b).
Definition b_add_sgtot (n : Z) (b : buf) : buf :=
  mkBuf (b_flags b) (b_dev b) (b_blkno b) (b_bcount b) (u32 (b_sgtot b + n)) (b_memaddr b)
    (b_resptr b) (b_envid b) (b_resid b).
Definition b_set_resid (n : Z) (b : buf) : buf :=
  mkBuf (b_flags b) (b_dev b) (b_blkno b) (b_bcount b) (b_sgtot b) (b_memaddr b)
    (b_resptr b) (b_envid b) n.

Section disks.
Context (disks : list (Z * Z)) (curenv_id : Z).

Definition d_bsize (dev : Z) : Z := fst (nth (Z.to_nat dev) disks (0, 0)).
Definition d_size (dev : Z) : Z := snd (nth (Z.to_nat dev) disks (0, 0)).

(** The [while] walk to the last buffer: the chain up to it, and the buffer. *)
Fixpoint sg_last (chain : list buf) : option (list buf * buf) :=
  match chain with
  | [] => None
  | b :: rest =>
      if tst (b_flags b) B_SCATGATH
      then '(pre, l) ← sg_last rest; Some (b :: pre, l)
      else Some ([], b)
  end.

(** Result code and the chain [*headbpp]. *)
Definition disk_prepare_bc_request (mem devno blkno vaddr flags resptr : Z) (chain : list buf)
    : M pool (Z * list buf) :=
  if (zlen disks <=? devno) || (d_size devno <=? u64 (blkno * NBPG) / d_bsize devno)
  then mreturn (- E_INVAL, chain)
  else if mem =? 0 then mreturn (- E_NO_MEM, chain)
  else
    let bno := u64 (blkno * NBPG) / d_bsize devno in
    p <- kva2pp vaddr ;;
    ppage_pin p ;;
    r <- match chain with
         | [] => mreturn (inl [mkBuf flags devno bno NBPG NBPG vaddr 0 curenv_id 0])
         | head :: _ =>
             match sg_last chain with
             | None => ppage_unpin p ;; mreturn (inr (- E_INVAL))
             | Some (pre, l) =>
                 if negb (bno =? u64 (b_blkno l + b_bcount l / d_bsize devno))
                 then ppage_unpin p ;; mreturn (inr (- E_INVAL))
                 else
                   let bp := mkBuf flags devno bno NBPG 0 vaddr 0 curenv_id 0 in
                   let chain' := pre ++ [b_flag B_SCATGATH l; bp] in
                   mreturn (inl (alter (b_add_sgtot NBPG) 0%nat chain'))
             end
         end ;;
    match r with
    | inr e => mreturn (e, chain)
    | inl chain' =>
        (if negb (resptr =? 0) then q <- kva2pp resptr ;; ppage_pin q else mreturn tt) ;;
        let set_resptr b := mkBuf (b_flags b) (b_dev b) (b_blkno b) (b_bcount b) (b_sgtot b)
                              (b_memaddr b) resptr (b_envid b) (b_resid b) in
        mreturn (0, alter set_resptr (length chain' - 1)%nat chain')
    end.

(** Result code and the chain passed to the driver. *)
Definition disk_bc_request (chain : list buf) : Z * list buf :=
  match chain with
  | [] => (- E_INVAL, [])
  | bp :: rest =>
      if zlen disks <=? b_dev bp then (- E_INVAL, [])
      else if negb (b_blkno bp mod 8 =? 0) || negb (b_bcount bp mod 4096 =? 0)
              || negb (b_sgtot bp mod 4096 =? 0) then (- E_INVAL, [])
      else (0, b_set_resid NBPG bp :: rest)
  end.

(** The unpin loop of [disk_buf_free] for a buffer cache request; each step
    moves to the next page, so [datalen / NBPG + 2] steps are enough. *)
Fixpoint unpin_data (fuel : nat) (data datalen : Z) : M pool unit :=
  match fuel with
  | O => panic
  | S fuel' =>
      if datalen <=? 0 then mreturn tt
      else
        p <- kva2pp data ;;
        ppage_unpin p ;;
        let next := u32 (clr data PGMASK + NBPG) in
        if datalen <=? u32 (next - data) then mreturn tt
        else
          assert_ (data <? next) ;;
          unpin_data fuel' next (datalen - u32 (next - data))
  end.

Definition disk_buf_free (bp : buf) : M pool unit :=
  unpin_data (Z.to_nat (b_bcount bp / NBPG) + 2) (b_memaddr bp) (b_bcount bp) ;;
  if negb (b_resptr bp =? 0) then q <- kva2pp (b_resptr bp) ;; ppage_unpin q else mreturn tt.

Definition disk_buf_free_chain (chain : list buf) : M pool unit := mfor disk_buf_free chain.

(** ** Reading an extent *)

(** One block: get a buffer, strip the page's capabilities, add it to the
    request. *)
Definition read_block (junk : Z -> bc_entry) (mems : Z -> Z) (dev block num resptr userreq i : Z)
    (chain : list buf) : M pool (Z * list buf) :=
  r <- ppage_get_reclaimable_buffer junk dev (u64 (block + i)) BC_COMING_IN userreq ;;
  match r with
  | inr e => mreturn (e, chain)
  | inl a =>
      b <- get_bc a ;;
      let p := buf_ppn b in
      ppage_acl_zero p ;;
      upd_pp p (pp_set_state PP_ACCESS_ALL PP_ACCESS_ALL) ;;
      r <- disk_prepare_bc_request (mems i) dev (u64 (block + i)) (pp2va p) (Z.lor B_READ B_BC_REQ)
             (if i =? num - 1 then resptr else 0) chain ;;
      let '(e, chain') := r in
      if e <? 0 then
        ppage_reclaim_buffer p PP_FREE ;; ppage_free p ;; mreturn (e, chain')
      else bc_set_clean a ;; mreturn (0, chain')
  end.

(** The [for] loop: error, the value of [i] when it stopped, the chain. *)
Fixpoint read_loop (body : Z -> list buf -> M pool (Z * list buf)) (ix : list Z) (chain : list buf)
    : M pool (Z * Z * list buf) :=
  match ix with
  | [] => mreturn (0, 0, chain)
  | i :: ix' =>
      r <- body i chain ;;
      let '(e, chain') := r in
      if e <? 0 then mreturn (e, i, chain') else read_loop body ix' chain'
  end.

Definition read_cleanup (dev block i : Z) (chain : list buf) : M pool unit :=
  disk_buf_free_chain chain ;;
  mfor (fun j =>
    o <- gets (bc_lookup64 dev (u64 (block + j))) ;;
    a <- of_option o ;;
    b <- get_bc a ;;
    assert_ (negb (buf_ppn b =? 0)) ;;
    ppage_reclaim_buffer (buf_ppn b) PP_FREE ;;
    ppage_free (buf_ppn b)) (zseq 0 (Z.to_nat i)).

(** Result, the chain issued to the driver, and whether [*resptr] was
    decremented on the spot. *)
Definition bc_read_extent64 (junk : Z -> bc_entry) (mems : Z -> Z)
    (dev block num resptr userreq : Z) : M pool (Z * list buf * bool) :=
  r <- read_loop (read_block junk mems dev block num resptr userreq) (zseq 0 (Z.to_nat num)) [] ;;
  let '(e, i, chain) := r in
  if e <? 0 then read_cleanup dev block i chain ;; mreturn (e, [], false)
  else
    match chain with
    | [] => mreturn (0, [], negb (resptr =? 0))
    | _ =>
        let '(e, issued) := disk_bc_request chain in
        if e <? 0 then read_cleanup dev block num chain ;; mreturn (e, [], false)
        else mreturn (0, issued, false)
    end.

Definition bc_read_extent (junk : Z -> bc_entry) (mems : Z -> Z) (dev block num resptr : Z)
    : M pool (Z * list buf * bool) :=
  bc_read_extent64 junk mems dev (INT2QUAD 0 block) num resptr 0.

Definition BC_MAX_DISK_REQUEST_SIZE := 16 * NBPG.

(** [resok]: the result pointer is null, or aligned and writable by the
    caller; [resptr] is its kernel address. *)
Definition sys_bc_read_and_insert (junk : Z -> bc_entry) (mems : Z -> Z)
    (dev b_hi b_low pagecount resptr : Z) (resok : bool) : M pool (Z * list buf * bool) :=
  let b := INT2QUAD b_hi b_low in
  if (pagecount <? 1) || (BC_MAX_DISK_REQUEST_SIZE / NBPG <? pagecount)
  then mreturn (- E_INVAL, [], false)
  else if zlen disks <=? dev then mreturn (- E_INVAL, [], false)
  else
    s <- get ;;
    if existsb (fun i => bool_decide (is_Some (bc_lookup64 dev (u64 (b + i)) s)))
         (zseq 0 (Z.to_nat pagecount))
    then mreturn (- E_EXISTS, [], false)
    else if negb resok then mreturn (- E_FAULT, [], false)
    else bc_read_extent64 junk mems dev b pagecount resptr 1.

(** ** Writing an extent *)

(** What is saved per block: the state and the dirty byte. *)
Definition write_block (mems : Z -> Z) (dev block num resptr i : Z) (chain : list buf)
    (saved : list (Z * Z)) : M pool (Z * list buf * list (Z * Z)) :=
  o <- gets (bc_lookup dev (block + i)) ;;
  match o with
  | None => mreturn (- E_INVAL, chain, saved)
  | Some a =>
      b <- get_bc a ;;
      if negb (tst (buf_state b) BC_VALID) || tst (buf_state b) BC_COMING_IN
      then mreturn (- E_INVAL, chain, saved)
      else
        upd_bc a (fun b => bc_state_as (Z.lor (buf_state b) BC_GOING_OUT)
                             (bc_writecnt_as (u8 (buf_writecnt b + 1)) b)) ;;
        r <- disk_prepare_bc_request (mems i) dev (u64 (block + i)) (pp2va (buf_ppn b))
               (Z.lor B_WRITE B_BC_REQ) (if i =? num - 1 then resptr else 0) chain ;;
        let '(e, chain') := r in
        if e <? 0 then
          upd_bc a (fun b' => bc_state_as (buf_state b) (bc_writecnt_as (u8 (buf_writecnt b' - 1)) b')) ;;
          mreturn (e, chain', saved)
        else bc_set_clean a ;; mreturn (0, chain', saved ++ [(buf_state b, buf_dirty b)])
  end.

Fixpoint write_loop (body : Z -> list buf -> list (Z * Z) -> M pool (Z * list buf * list (Z * Z)))
    (ix : list Z) (chain : list buf) (saved : list (Z * Z))
    : M pool (Z * list buf * list (Z * Z)) :=
  match ix with
  | [] => mreturn (0, chain, saved)
  | i :: ix' =>
      r <- body i chain saved ;;
      let '(e, chain', saved') := r in
      if e <? 0 then mreturn (e, chain', saved') else write_loop body ix' chain' saved'
  end.

(** Undo blocks [j, j+1, ..] from what was saved. *)
Fixpoint write_undo (dev block j : Z) (saved : list (Z * Z)) : M pool unit :=
  match saved with
  | [] => mreturn tt
  | (st, d) :: saved' =>
      o <- gets (bc_lookup64 dev (u64 (block + j))) ;;
      a <- of_option o ;;
      b <- get_bc a ;;
      assert_ (negb (buf_ppn b =? 0)) ;;
      upd_bc a (fun b => bc_state_as st (bc_writecnt_as (u8 (buf_writecnt b - 1)) b)) ;;
      b <- get_bc a ;;
      (if negb (d =? buf_dirty b)
       then if d =? BUF_DIRTY then bc_set_dirty a else bc_set_clean a
       else mreturn tt) ;;
      write_undo dev block (j + 1) saved'
  end.

(** [mem1], [mem2]: the two save arrays. *)
Definition bc_write_extent64 (mem1 mem2 : Z) (mems : Z -> Z) (dev block num resptr : Z)
    : M pool (Z * list buf * bool) :=
  if (mem1 =? 0) || (mem2 =? 0) then mreturn (- E_NO_MEM, [], false)
  else
    r <- write_loop (write_block mems dev block num resptr) (zseq 0 (Z.to_nat num)) [] [] ;;
    let '(e, chain, saved) := r in
    if e <? 0 then
      disk_buf_free_chain chain ;; write_undo dev block 0 saved ;; mreturn (e, [], false)
    else
      match chain with
      | [] => mreturn (0, [], negb (resptr =? 0))
      | _ =>
          let '(e, issued) := disk_bc_request chain in
          if e <? 0 then
            disk_buf_free_chain chain ;; write_undo dev block 0 saved ;; mreturn (e, [], false)
          else mreturn (0, issued, false)
      end.

Definition bc_write_extent (mem1 mem2 : Z) (mems : Z -> Z) (dev block num resptr : Z)
    : M pool (Z * list buf * bool) :=
  bc_write_extent64 mem1 mem2 mems dev (INT2QUAD 0 block) num resptr.

Definition sys_bc_write_dirty_bufs64 (mem1 mem2 : Z) (mems : Z -> Z)
    (dev b_hi b_low num resptr : Z) (resok : bool) : M pool (Z * list buf * bool) :=
  if negb resok then mreturn (- E_FAULT, [], false)
  else bc_write_extent64 mem1 mem2 mems dev (INT2QUAD b_hi b_low) num resptr.

(** ** Pins of a request *)

(** A chain as the driver expects it: every buffer but the last is flagged. *)
Definition sg_ok (chain : list buf) : Prop :=
  exists pre l, chain = pre ++ [l] /\ Forall (fun b => tst (b_flags b) B_SCATGATH = true) pre /\
    tst (b_flags l) B_SCATGATH = false.

Lemma sg_last_ok pre l :
  Forall (fun b => tst (b_flags b) B_SCATGATH = true) pre -> tst (b_flags l) B_SCATGATH = false ->
  sg_last (pre ++ [l]) = Some (pre, l).
Proof. intros Hp Hl. induction Hp as [|b pre Hb Hp IH]; cbn; [by rewrite Hl|]. by rewrite Hb, IH. Qed.

Lemma tst_lor f m : 0 < m -> tst (Z.lor f m) m = true.
Proof.
  intros Hm. unfold tst. apply negb_true_iff, Z.eqb_neq. rewrite Z.land_lor_distr_l, Z.land_diag.
  intros [_ ?]%Z.lor_eq_0_iff. lia.
Qed.

(** A new buffer at the end of a chain that has one. *)
Lemma sg_append_ok pre l bp :
  Forall (fun b => tst (b_flags b) B_SCATGATH = true) pre -> tst (b_flags bp) B_SCATGATH = false ->
  let chain := alter (b_add_sgtot NBPG) 0%nat (pre ++ [b_flag B_SCATGATH l; bp]) in
  exists pre', chain = pre' ++ [bp] /\ length pre' = S (length pre) /\
    Forall (fun b => tst (b_flags b) B_SCATGATH = true) pre'.
Proof.
  intros Hp Hb. destruct pre as [|b0 pre]; cbn.
  - exists [b_add_sgtot NBPG (b_flag B_SCATGATH l)]. split_and!; try done.
    constructor; [|constructor]. by apply tst_lor.
  - apply Forall_cons in Hp as [H0 Hp]. exists (b_add_sgtot NBPG b0 :: pre ++ [b_flag B_SCATGATH l]).
    split_and!.
    + cbn. by rewrite <- app_assoc.
    + cbn. rewrite length_app. cbn. lia.
    + constructor; [done|]. apply Forall_app. split; [done|]. constructor; [|constructor]. by apply tst_lor.
Qed.

Lemma alter_last {A} (f : A -> A) pre x :
  alter f (length (pre ++ [x]) - 1)%nat (pre ++ [x]) = pre ++ [f x].
Proof.
  rewrite length_app. cbn. replace (length pre + 1 - 1)%nat with (length pre) by lia.
  by induction pre as [|y pre IH]; cbn; [|f_equal].
Qed.

Lemma disk_prepare_spec mem devno blkno p pp flags chain s :
  pool_ok s -> ppages s !! p = Some pp -> pp_pinned pp < 2 ^ 31 - 1 -> 0 <= p <= 65535 ->
  chain = [] \/ sg_ok chain -> tst flags B_SCATGATH = false ->
  wp (disk_prepare_bc_request mem devno blkno (pp2va p) flags 0 chain) s (fun r s' =>
    (fst r < 0 /\ snd r = chain /\ s' = s) \/
    (fst r = 0 /\ s' = repinned p (pp_pinned pp + 1) pp s /\ sg_ok (snd r) /\
     length (snd r) = S (length chain) /\
     exists bp, last (snd r) = Some bp /\ b_memaddr bp = pp2va p /\ b_bcount bp = NBPG /\
       b_resptr bp = 0 /\ b_dev bp = devno /\ b_blkno bp = u64 (blkno * NBPG) / d_bsize devno)).
Proof.
  intros Hok Hp Hmax Hr Hch Hfl. unfold disk_prepare_bc_request.
  destruct (_ || _); [ps_steps; left; cbn; split_and!; [elia|done..]|].
  destruct (mem =? 0); [ps_steps; left; cbn; split_and!; [elia|done..]|].
  destruct (pp2va_range p Hr) as [Ek _].
  assert (0 <= p < nppage s) as Hn by (apply (pg_dom _ _ (proj1 Hok)); eauto).
  ps_steps. apply kva2pp_run; [lia|]. rewrite Ek. ps_steps.
  eapply wp_mono; [by apply ppage_pin_run|]. intros [] ? ->. set (s1 := repinned _ _ _ _).
  destruct Hch as [->|(pre & l & -> & Hpre & Hl)].
  { ps_steps. right. cbn. split_and!; try done.
    - exists [], (mkBuf flags devno (u64 (blkno * NBPG) / d_bsize devno) NBPG NBPG (pp2va p) 0 curenv_id 0).
      done.
    - eexists. split; [reflexivity|]. done. }
  assert (pool_ok s1) as Hok1.
  { apply repinned_ok; [done|done|]. pose proof (pg_pin _ _ (proj1 Hok) p pp Hp). lia. }
  assert (ppages s1 !! p = Some (pp_set_pinned (pp_pinned pp + 1) pp)) as Hp1 by apply lookup_insert_eq.
  destruct (pre ++ [l]) as [|h t] eqn:Ec; [by destruct pre|]. rewrite <- Ec.
  rewrite sg_last_ok by done. destruct (negb _).
  - ps_steps. eapply wp_mono; [apply (ppage_unpin_run p _ s1 Hok1 Hp1); cbn|].
    { pose proof (pg_pin _ _ (proj1 Hok) p pp Hp). lia. }
    intros [] ? ->. ps_steps. left. cbn. split_and!; [elia|done|].
    replace (pp_pinned pp + 1 - 1) with (pp_pinned pp) by lia. by apply repinned_back.
  - ps_steps. right. set (bp := mkBuf _ _ _ _ 0 _ _ _ _).
    destruct (sg_append_ok pre l bp Hpre Hfl) as (pre' & -> & Hlen & Hpre').
    rewrite alter_last. split_and!; cbn; try done.
    + by exists pre', bp.
    + rewrite !length_app, Hlen. cbn. lia.
    + exists bp. split_and!; try done. by rewrite last_snoc.
Qed.

Lemma disk_buf_free_spec bp p pp s :
  pool_ok s -> ppages s !! p = Some pp -> 0 < pp_pinned pp -> 0 <= p <= 65535 ->
  b_memaddr bp = pp2va p -> b_bcount bp = NBPG -> b_resptr bp = 0 ->
  wp (disk_buf_free bp) s (fun _ s' => s' = repinned p (pp_pinned pp - 1) pp s).
Proof.
  intros Hok Hp Hpin Hr Hm Hc Hres. unfold disk_buf_free. rewrite Hm, Hc, Hres.
  destruct (pp2va_range p Hr) as [Ek Ec].
  assert (0 <= p < nppage s) as Hn by (apply (pg_dom _ _ (proj1 Hok)); eauto).
  change (Z.to_nat (NBPG / NBPG) + 2)%nat with 3%nat.
  ps_steps. cbn [unpin_data]. change (NBPG <=? 0) with false. cbn iota. ps_steps.
  apply kva2pp_run; [lia|]. rewrite Ek. ps_steps.
  eapply wp_mono; [by apply ppage_unpin_run|]. intros [] s' ->. rewrite Ec.
  assert (u32 (u32 (pp2va p + NBPG) - pp2va p) = NBPG) as ->.
  { replace (u32 (pp2va p + NBPG) - pp2va p) with (u32 (pp2va p + NBPG) + - pp2va p) by lia.
    rewrite u32_add. replace (_ + _ + _) with NBPG by lia. done. }
  rewrite Z.leb_refl. ps_steps. cbn. by ps_steps.
Qed.

(** ** Properties *)

(** preparing a block for disk pins exactly its page and appends one buffer
    to a well-formed chain, or fails with the pool and the chain untouched; and
    freeing the new buffer gives the pins back exactly. *)
Theorem disk_prepare_pins_balance mem devno blkno p pp flags chain s :
  pool_ok s -> ppages s !! p = Some pp -> pp_pinned pp < 2 ^ 31 - 1 -> 0 <= p <= 65535 ->
  chain = [] \/ sg_ok chain -> tst flags B_SCATGATH = false ->
  wp (disk_prepare_bc_request mem devno blkno (pp2va p) flags 0 chain) s (fun r s' =>
    (fst r < 0 /\ snd r = chain /\ s' = s) \/
    (fst r = 0 /\ sg_ok (snd r) /\ length (snd r) = S (length chain) /\
     s' = repinned p (pp_pinned pp + 1) pp s /\
     exists bp, last (snd r) = Some bp /\
       b_blkno bp = u64 (blkno * NBPG) / d_bsize devno /\
       wp (disk_buf_free bp) s' (fun _ s'' => s'' = s))).
Proof.
  intros Hok Hp Hmax Hr Hch Hfl. eapply wp_mono; [by apply disk_prepare_spec|].
  intros r s' [?|(? & -> & ? & ? & bp & Hl & Hm & Hc & Hres & _ & Hb)]; [by left|]. right.
  split_and!; try done. exists bp. split_and!; try done.
  pose proof (pg_pin _ _ (proj1 Hok) p pp Hp) as Hpin. eapply wp_mono.
  { apply (disk_buf_free_spec bp p (pp_set_pinned (pp_pinned pp + 1) pp)); try done; cbn; [|apply lookup_insert_eq|lia].
    apply repinned_ok; [done|done|lia]. }
  intros [] s'' ->. cbn. replace (pp_pinned pp + 1 - 1) with (pp_pinned pp) by lia. by apply repinned_back.
Qed.

End disks.

(** ** Witnesses *)

(** One disk of 100000 sectors of 512 bytes. *)
Definition ex_disks : list (Z * Z) := [(512, 100000)].

Lemma disk_prepare_pins_balance_witness :
  exists bp, ret_val (disk_prepare_bc_request ex_disks 2049 0xf0200000 0 3 (pp2va 299) B_READ 0 [] ex_user)
    = Some (0, [bp]) /\ b_blkno bp = 24.
Proof.
  assert (pp_pinned <$> ppages ex_user !! 299 = Some 0) as E0 by (vm_compute; reflexivity).
  destruct (ppages ex_user !! 299) as [pp|] eqn:E; [|discriminate E0]. injection E0 as E0.
  assert (pp_pinned pp < 2 ^ 31 - 1) as Hmax by lia.
  assert (fst <$> ret_val (disk_prepare_bc_request ex_disks 2049 0xf0200000 0 3 (pp2va 299) B_READ 0 [] ex_user)
    = Some 0) as Er by (vm_compute; reflexivity).
  pose proof (disk_prepare_pins_balance ex_disks 2049 0xf0200000 0 3 299 pp B_READ [] ex_user ex_user_ok E
                Hmax ltac:(lia) (or_introl eq_refl) eq_refl) as H.
  unfold wp in H. destruct (disk_prepare_bc_request _ _ _ _ _ _ _ _ _ _) as [[e ch] s'|]; [|contradiction H].
  cbn in Er. injection Er as ->. cbn in H.
  destruct H as [[H _]|(_ & _ & Hlen & _ & bp & Hl & Hb & _)]; [lia|].
  destruct ch as [|b0 [|b1 ch]]; [discriminate Hlen| |discriminate Hlen].
  cbn in Hl. injection Hl as ->. exists bp. split; [reflexivity|]. rewrite Hb. reflexivity.
Defined.

(** The page counters after a run. *)
Definition counters (o : outcome pool (Z * list buf * bool)) : option (Z * nat * Z * Z) :=
  match o with
  | Ret (r, issued, _) s => Some (r, length issued, si_nfreepages (si s), si_pinnedpages (si s))
  | Panic => None
  end.

(** Reading two blocks pins two free pages; when the second request buffer
    cannot be allocated, both pages are free and unpinned again (one page went
    into headers). *)
Example bc_read_extent64_runs :
  counters (bc_read_extent64 ex_disks 2049 ex_junk (fun _ => 0xf0200000) 0 3 2 0 0 ex_booted)
    = Some (0, 2%nat, 169, 2) /\
  counters (bc_read_extent64 ex_disks 2049 ex_junk (fun i => if i =? 0 then 0xf0200000 else 0) 0 3 2 0 0 ex_booted)
    = Some (- E_NO_MEM, 0%nat, 169, 0) /\
  si_nfreepages (si ex_booted) = 170.
Proof. vm_compute. auto. Qed.
