(* ===== verification/Sched.v ===== *)
(** * The scheduler

    sys/kern/sched.c on one processor: the quantum vector and its free list,
    the quantum system calls, the round-robin search of [sched_runnext], the
    timer interrupt and the kernel timeout list.

    A wakeup predicate is compiled code; [run_pred i] is what the predicate of
    environment [i] returns.  [env_run] does not return: here it yields the
    environment that was started, with [curenv] and its program counter set as
    [env_run] sets them; switching the page directory is left to the machine. *)

From Stdlib Require Import ZArith Lia Sorting.Sorted.
From stdpp Require Import base numbers option list gmap.
From S2P Require Import Prelude Capability EnvTable.

Definition MAX_QX := 330.
Definition NQUANTUM := 128.
Definition QUANTUM_MASK := 127.
Definition BASE_TICKS := 8.
Definition TICKS_MASK := 0xf.
Definition QMAP_SIZE := 16.

(** The union [q_u]: the free list link ([None]) or the capability. *)
Record Quantum := mkQ {
  q_envid : Z;
  q_ticks : Z;
  q_used : Z;
  q_no : Z;
  q_cap : option cap }.

(** Pending kernel timeouts: tick, function, argument. *)
Record to_struct := mkTo { to_ticks : Z; to_func : Z; to_arg : Z }.

Record sched := mkSched {
  sc_et : envtab;
  quantums : gmap Z Quantum;
  qfreelist : list Z;
  curq : Z;
  in_revocation : bool;
  should_reschedule : Z;
  to_list : list to_struct;
  si_system_ticks : Z;
  si_idle_ticks : Z;
  utf : Trapframe }.

Definition sc_env (et : envtab) (s : sched) : sched :=
  mkSched et (quantums s) (qfreelist s) (curq s) (in_revocation s) (should_reschedule s)
    (to_list s) (si_system_ticks s) (si_idle_ticks s) (utf s).
Definition sc_quantums (m : gmap Z Quantum) (s : sched) : sched :=
  mkSched (sc_et s) m (qfreelist s) (curq s) (in_revocation s) (should_reschedule s)
    (to_list s) (si_system_ticks s) (si_idle_ticks s) (utf s).
Definition sc_free (l : list Z) (s : sched) : sched :=
  mkSched (sc_et s) (quantums s) l (curq s) (in_revocation s) (should_reschedule s)
    (to_list s) (si_system_ticks s) (si_idle_ticks s) (utf s).
Definition sc_curq (q : Z) (s : sched) : sched :=
  mkSched (sc_et s) (quantums s) (qfreelist s) q (in_revocation s) (should_reschedule s)
    (to_list s) (si_system_ticks s) (si_idle_ticks s) (utf s).
Definition sc_revoc (b : bool) (s : sched) : sched :=
  mkSched (sc_et s) (quantums s) (qfreelist s) (curq s) b (should_reschedule s)
    (to_list s) (si_system_ticks s) (si_idle_ticks s) (utf s).
Definition sc_resched (x : Z) (s : sched) : sched :=
  mkSched (sc_et s) (quantums s) (qfreelist s) (curq s) (in_revocation s) x
    (to_list s) (si_system_ticks s) (si_idle_ticks s) (utf s).
Definition sc_to (l : list to_struct) (s : sched) : sched :=
  mkSched (sc_et s) (quantums s) (qfreelist s) (curq s) (in_revocation s) (should_reschedule s)
    l (si_system_ticks s) (si_idle_ticks s) (utf s).
Definition sc_clock (t i : Z) (s : sched) : sched :=
  mkSched (sc_et s) (quantums s) (qfreelist s) (curq s) (in_revocation s) (should_reschedule s)
    (to_list s) t i (utf s).
Definition sc_utf (f : Trapframe) (s : sched) : sched :=
  mkSched (sc_et s) (quantums s) (qfreelist s) (curq s) (in_revocation s) (should_reschedule s)
    (to_list s) (si_system_ticks s) (si_idle_ticks s) f.

(** Operations on the environment table, lifted. *)
Definition in_env {A} (m : M envtab A) : M sched A := zoom sc_et sc_env m.

Definition get_q (q : Z) : M sched Quantum := fun s => of_option (quantums s !! q) s.
Definition put_q (q : Z) (x : Quantum) : M sched unit :=
  modify (fun s => sc_quantums (<[q := x]> (quantums s)) s).

(** ** Initialisation *)

(** The vector is in zeroed memory; quantum [NQUANTUM - 1] ends up first. *)
Definition sched_init : M sched unit :=
  modify (fun s => sc_clock 0 0 (sc_free [] s)) ;;
  mfor (fun i =>
    modify (fun s =>
      let old := default (mkQ 0 0 0 0 None) (quantums s !! i) in
      sc_free (i :: qfreelist s)
        (sc_quantums (<[i := mkQ (q_envid old) (q_ticks old) 0 i None]> (quantums s)) s)))
    (zseq 0 (Z.to_nat NQUANTUM)) ;;
  modify (fun s => sc_to [] (sc_revoc false (sc_curq 1 s))).

(** ** Quanta *)

(** [None] for a null pointer. *)
Definition quantum_unfree (qp : option Z) : M sched Z :=
  match qp with
  | None => panic
  | Some q =>
      x <- get_q q ;;
      if negb (q_used x =? 0) then mreturn (-1)
      else
        fl <- gets qfreelist ;;
        fl' <- of_option (unlink q fl) ;;
        modify (sc_free fl') ;;
        put_q q (mkQ (q_envid x) (q_ticks x) 1 (q_no x) (q_cap x)) ;;
        mreturn (q_no x)
  end.

Definition quantum_free (q : Z) : M sched unit :=
  x <- get_q q ;;
  if negb (q_used x =? 0) then
    put_q q (mkQ 0 0 0 (q_no x) None) ;;
    modify (fun s => sc_free (q_no x :: qfreelist s) s)
  else mreturn tt.

(** Set or clear bit [q & 7] of byte [q >> 3] of the environment's map. *)
Definition quanta_map (e : Env) (cpu : Z) : list Z :=
  default (repeat 0 (Z.to_nat QMAP_SIZE)) (env_quanta e !! cpu).
Definition quanta_upd (cpu q : Z) (f : Z -> Z) (e : Env) : Env :=
  set_env_quanta (<[cpu := alter f (Z.to_nat (Z.shiftr q 3)) (quanta_map e cpu)]> (env_quanta e)) e.
Definition quanta_set (cpu q : Z) : Env -> Env :=
  quanta_upd cpu q (fun b => u8 (Z.lor b (Z.shiftl 1 (Z.land q 7)))).
Definition quanta_clear (cpu q : Z) : Env -> Env :=
  quanta_upd cpu q (fun b => Z.land b (Z.lxor (Z.shiftl 1 (Z.land q 7)) 255)).

(** The three entry points of the aliased function. *)
Inductive quantum_sn := SYS_quantum_alloc | SYS_quantum_set | SYS_quantum_free.

Definition is_alloc (sn : quantum_sn) : bool :=
  match sn with SYS_quantum_alloc => true | _ => false end.
Definition is_free (sn : quantum_sn) : bool :=
  match sn with SYS_quantum_free => true | _ => false end.

(** The quantum the call is about, allocated or found. *)
Definition quantum_pick (h : aclheap) (sn : quantum_sn) (q : Z) (c : cap) : M sched (Z + Z) :=
  if is_alloc sn then
    fl <- gets qfreelist ;;
    if negb (q =? -1) && (NQUANTUM <=? u32 q) then mreturn (inr (- E_INVAL))
    else
      let qp := if q =? -1 then head fl else Some q in
      r <- quantum_unfree qp ;;
      if r <? 0 then mreturn (inr (- E_INVAL))
      else
        match qp with
        | None => panic
        | Some qp =>
            x <- get_q qp ;;
            put_q qp (mkQ (q_envid x) BASE_TICKS (q_used x) (q_no x) (Some c)) ;;
            mreturn (inl r)
        end
  else if NQUANTUM <=? u32 q then mreturn (inr (- E_INVAL))
  else
    x <- get_q q ;;
    if negb (q_used x =? 1) then mreturn (inr (- E_INVAL))
    else
      qc <- of_option (q_cap x) ;;
      r <- of_option (acl_access h c [qc] ACL_ALL) ;;
      if r <? 0 then mreturn (inr r) else mreturn (inl q).

(** A null environment pointer (an unknown id, or id 0) is followed. *)
Definition deref {A} (r : A + Z) : M sched A := of_option (match r with inl a => Some a | inr _ => None end).

(** The vector is that of processor 0, the only one there is: another number
    stops the model. *)
Definition sys_quantum_set (h : aclheap) (sn : quantum_sn) (k q cpu envid : Z) : M sched Z :=
  et <- gets sc_et ;;
  let found := if negb (is_free sn) && negb (envid =? 0) then env_id2env et envid else inr 0 in
  if negb (is_free sn) && negb (envid =? 0) &&
     match found with inl _ => false | inr _ => true end
  then mreturn (- E_BAD_ENV)
  else
    cur <- in_env get_curenv ;; ce <- in_env (get_env cur) ;;
    match env_getcap ce k with
    | inr r => mreturn r
    | inl c =>
        if negb (c_perm c =? CL_ALL) then mreturn (- E_CAP_INSUFF)
        else
          assert_ (cpu =? 0) ;;
          r <- quantum_pick h sn q c ;;
          match r with
          | inr e => mreturn e
          | inl q =>
              x <- get_q q ;;
              (if is_free sn then
                 et <- gets sc_et ;;
                 e <- deref (env_id2env et (q_envid x)) ;;
                 in_env (upd_env e (quanta_clear cpu q)) ;;
                 quantum_free q
               else
                 e <- deref found ;;
                 (if is_alloc sn then in_env (upd_env e (quanta_set cpu q))
                  else
                    et <- gets sc_et ;;
                    olde <- deref (env_id2env et (q_envid x)) ;;
                    in_env (upd_env olde (quanta_clear cpu q)) ;;
                    in_env (upd_env e (quanta_set cpu q))) ;;
                 en <- in_env (get_env e) ;;
                 x <- get_q q ;;
                 put_q q (mkQ (env_id en) (q_ticks x) (q_used x) (q_no x) (q_cap x))) ;;
              mreturn q
          end
    end.

Definition sys_quantum_get (cpu : Z) : M sched Z := assert_ (cpu =? 0) ;; gets curq.

(** ** Choosing the next environment *)

Definition tick_up (x : Quantum) : Quantum :=
  if q_used x =? 0 then x
  else
    let t := u32 (q_ticks x + BASE_TICKS) in
    mkQ (q_envid x) (if TICKS_MASK <? t then TICKS_MASK else t) (q_used x) (q_no x) (q_cap x).

Definition more_ticks : M sched unit := modify (fun s => sc_quantums (tick_up <$> quantums s) s).

(** [curq = (curq + 1) & QUANTUM_MASK; if (!curq) { more_ticks (); curq = 1; }] *)
Definition next_q : M sched unit :=
  q <- gets curq ;;
  modify (sc_curq (Z.land (q + 1) QUANTUM_MASK)) ;;
  q <- gets curq ;;
  if q =? 0 then more_ticks ;; modify (sc_curq 1) else mreturn tt.

Definition tf_with_eip (eip : Z) (t : Trapframe) : Trapframe :=
  mkTf (tf_edi t) (tf_esi t) (tf_ebp t) (tf_oesp t) (tf_ebx t) (tf_edx t) (tf_ecx t) (tf_eax t)
    (tf_es t) (tf_ds t) eip (tf_cs t) (tf_eflags t) (tf_esp t) (tf_ss t).

(** [env_save_tf]: the fields from [tf_es] up. *)
Definition tf_save (u t : Trapframe) : Trapframe :=
  mkTf (tf_edi t) (tf_esi t) (tf_ebp t) (tf_oesp t) (tf_ebx t) (tf_edx t) (tf_ecx t) (tf_eax t)
    (tf_es u) (tf_ds u) (tf_eip u) (tf_cs u) (tf_eflags u) (tf_esp u) (tf_ss u).

(** Without the poll of the clock ([check_rtc_interrupt]) and what
    [env_ctx_switch] loads into the processor; the result is the environment. *)
Definition env_run (i : Z) : M sched Z :=
  in_env (e <- get_env i ;;
          u <- get_uarea (env_u e) ;;
          (if negb (u_entprologue u =? 0)
           then upd_env i (fun e => set_env_tf (tf_with_eip (u_entprologue u) (env_tf e)) e)
           else mreturn tt) ;;
          modify (set_curenv (Some i))) ;;
  mreturn i.

Section runnext.
Context (run_pred : Z -> Z) (env0 : Z).

(** The code from [yield_cont]: run [e] if it is runnable ([Some] means it was
    run), free the quantum if there is no such environment. *)
Definition yield_cont (e : option Z) (envid : Z) : M sched (option Z) :=
  match e with
  | None => q <- gets curq ;; quantum_free q ;; mreturn None
  | Some i =>
      en <- in_env (get_env i) ;;
      if (env_u en =? 0) || negb ((env_status en =? ENV_OK) && (env_id en =? envid))
      then mreturn None
      else
        u <- in_env (get_uarea (env_u en)) ;;
        (if (u_status u =? U_SLEEP) && negb (env_pred en =? 0) && negb (run_pred i =? 0)
         then in_env (upd_uarea (env_u en)
                (fun u => set_u_pred_tag (run_pred i) (set_u_status (s32 (u_status u + 1)) u)))
         else mreturn tt) ;;
        u <- in_env (get_uarea (env_u en)) ;;
        if 0 <? u_status u then r <- env_run i ;; mreturn (Some r) else mreturn None
  end.

(** One pass of the [for (;;)] loop at the current quantum. *)
Definition try_quantum : M sched (option Z) :=
  q <- gets curq ;;
  x <- get_q q ;;
  if negb (q_used x =? 0) && negb (q_envid x =? 0) && negb (q_ticks x =? 0) then
    et <- gets sc_et ;;
    yield_cont (match env_id2env et (q_envid x) with inl i => Some i | inr _ => None end) (q_envid x)
  else mreturn None.

(** The loop; [fuel] passes at most. *)
Fixpoint sched_loop (fuel : nat) (icq : Z) : M sched Z :=
  match fuel with
  | O => panic
  | S fuel' =>
      r <- try_quantum ;;
      match r with
      | Some i => mreturn i
      | None =>
          q <- gets curq ;;
          if q =? icq then env_run env0
          else next_q ;; sched_loop fuel' icq
      end
  end.

(** 128 passes are enough for a current quantum between 1 and 127
    ([sched_runnext_round_robin]). *)
Definition sched_search (icq : Z) : M sched Z := next_q ;; sched_loop 128 icq.

(** Save the state of the current environment [i] and yield to the one it
    names; otherwise search from the next quantum. *)
Definition donate_step (i icq : Z) : M sched Z :=
  f <- gets utf ;;
  in_env (upd_env i (fun e => set_env_tf (tf_save f (env_tf e)) e)) ;;
  e <- in_env (get_env i) ;;
  u <- in_env (get_uarea (env_u e)) ;;
  in_env (upd_uarea (env_u e) (set_u_donate (-1))) ;;
  et <- gets sc_et ;;
  r <- (if negb (u_donate u =? -1) then
          match env_id2env et (u_donate u) with
          | inl j => yield_cont (Some j) (u_donate u)
          | inr _ => mreturn None
          end
        else mreturn None) ;;
  match r with
  | Some j => mreturn j
  | None => sched_search icq
  end.

Definition sched_runnext : M sched Z :=
  icq <- gets curq ;;
  modify (sc_revoc false) ;;
  cur <- gets (fun s => curenv (sc_et s)) ;;
  rs <- gets should_reschedule ;;
  (if negb (rs =? 0) then
     match cur with
     | Some i => e <- in_env (get_env i) ;; in_env (upd_uarea (env_u e) (set_u_donate rs))
     | None => mreturn tt
     end ;;
     modify (sc_resched 0)
   else mreturn tt) ;;
  match cur with
  | Some i => donate_step i icq
  | None => sched_search icq
  end.

Definition yields : M sched Z :=
  cur <- in_env get_curenv ;; e <- in_env (get_env cur) ;;
  in_env (upd_uarea (env_u e) (fun u =>
    let n := s32 (u_status u - 1) in set_u_status (if n <? 0 then U_SLEEP else n) u)) ;;
  sched_runnext.

Definition revoke_processor : M sched (option Z) :=
  cur <- in_env get_curenv ;; e <- in_env (get_env cur) ;;
  f <- gets utf ;;
  in_env (upd_uarea (env_u e) (set_u_ppc (tf_eip f))) ;;
  u <- in_env (get_uarea (env_u e)) ;;
  if negb (u_entepilogue u =? 0) then
    modify (sc_revoc true) ;;
    in_env (upd_env cur (set_env_qx 0)) ;;
    modify (sc_utf (tf_with_eip (u_entepilogue u) f)) ;;
    mreturn None
  else r <- sched_runnext ;; mreturn (Some r).
End runnext.
Arguments sched_search : simpl never.
Arguments yield_cont : simpl never.

(** ** Timeouts and the clock *)

(** [to_new] goes before the first entry with an equal or later tick. *)
Fixpoint to_insert (x : to_struct) (l : list to_struct) : list to_struct :=
  match l with
  | [] => [x]
  | y :: l' => if to_ticks x <=? to_ticks y then x :: l else y :: to_insert x l'
  end.

(** [mem]: what [malloc] returns. *)
Definition timeout (mem func arg ticks : Z) : M sched Z :=
  if mem =? 0 then mreturn (-1)
  else
    modify (fun s => sc_to (to_insert (mkTo (u64 (si_system_ticks s + ticks)) func arg) (to_list s)) s) ;;
    mreturn 0.

(** The entries that are due, and the rest. *)
Fixpoint to_fire (now : Z) (l : list to_struct) : list to_struct * list to_struct :=
  match l with
  | [] => ([], [])
  | x :: l' => if to_ticks x <=? now then let '(d, r) := to_fire now l' in (x :: d, r) else ([], l)
  end.

(** Destroying an environment, as the timer interrupt uses it. *)
Class EnvFree := { env_free_sched : Z -> M sched unit }.

(** Result: the timeouts fired (in order) and the environment switched to, if
    the interrupted one does not go on. *)
Definition sched_intr `{EnvFree} (run_pred : Z -> Z) (env0 : Z) : M sched (list to_struct * option Z) :=
  modify (fun s => sc_clock (u64 (si_system_ticks s + 1))
    (if bool_decide (curenv (sc_et s) = Some env0) then u64 (si_idle_ticks s + 1) else si_idle_ticks s) s) ;;
  cur <- in_env get_curenv ;;
  in_env (upd_env cur (fun e => set_env_ticks (u32 (env_ticks e + 1)) e)) ;;
  now <- gets si_system_ticks ;;
  l <- gets to_list ;;
  let '(due, rest) := to_fire now l in
  modify (sc_to rest) ;;
  rv <- gets in_revocation ;;
  r <- (if rv then
          e <- in_env (get_env cur) ;;
          if env_qx e =? MAX_QX then
            modify (sc_revoc false) ;;
            env_free_sched cur ;;
            in_env (modify (set_curenv None)) ;;
            r <- sched_runnext run_pred env0 ;; mreturn (Some r)
          else in_env (upd_env cur (fun e => set_env_qx (u32 (env_qx e + 1)) e)) ;; mreturn None
        else
          q <- gets curq ;;
          x <- get_q q ;;
          let t := u32 (q_ticks x - 1) in
          put_q q (mkQ (q_envid x) t (q_used x) (q_no x) (q_cap x)) ;;
          if t <=? 0 then
            put_q q (mkQ (q_envid x) 0 (q_used x) (q_no x) (q_cap x)) ;;
            revoke_processor run_pred env0
          else mreturn None) ;;
  mreturn (due, r).

(** ** Well-formed scheduler states *)

(** A quantum is free and listed, or used and guarded by a capability. *)
Record quanta_ok (s : sched) : Prop := mkQuantaOk {
  qk_dom : forall q, is_Some (quantums s !! q) <-> 0 <= q < NQUANTUM;
  qk_no : forall q x, quantums s !! q = Some x -> q_no x = q;
  qk_used : forall q x, quantums s !! q = Some x ->
    (q_used x = 0 /\ q_cap x = None) \/ (q_used x = 1 /\ is_Some (q_cap x));
  qk_nd : NoDup (qfreelist s);
  qk_fl : forall q, q ∈ qfreelist s <-> exists x, quantums s !! q = Some x /\ q_used x = 0 }.

(** Every environment with a u-area has it resident. *)
Definition uareas_ok (et : envtab) : Prop :=
  forall i e, envs et !! i = Some e -> env_u e <> 0 -> is_Some (uareas et !! env_u e).

Definition has_uarea (et : envtab) (i : Z) : Prop :=
  exists e u, envs et !! i = Some e /\ env_u e <> 0 /\ uareas et !! env_u e = Some u.

Record sched_ok (env0 : Z) (s : sched) : Prop := mkSchedOk {
  so_q : quanta_ok s;
  so_curq : 1 <= curq s < NQUANTUM;
  so_ua : uareas_ok (sc_et s);
  so_env0 : has_uarea (sc_et s) env0;
  so_cur : forall i, curenv (sc_et s) = Some i -> has_uarea (sc_et s) i }.

(** ** The specification: what [sched_runnext] is to choose *)

Section spec.
Context (run_pred : Z -> Z).

(** The environment with this id, if it would be run. *)
Definition runnable (et : envtab) (envid : Z) : option Z :=
  match env_id2env et envid with
  | inr _ => None
  | inl i =>
      e ← envs et !! i;
      if (env_u e =? 0) || negb (env_status e =? ENV_OK) then None
      else
        u ← uareas et !! env_u e;
        if (0 <? u_status u) || ((u_status u =? U_SLEEP) && negb (env_pred e =? 0) && negb (run_pred i =? 0))
        then Some i else None
  end.

Definition elig (et : envtab) (x : Quantum) : option Z :=
  if negb (q_used x =? 0) && negb (q_envid x =? 0) && negb (q_ticks x =? 0)
  then runnable et (q_envid x) else None.

(** The quanta in the order they get their turn, those after the current one
    as they are, the others with the new ticks they get when the vector wraps. *)
Definition turn_order (m : gmap Z Quantum) (icq : Z) : list (option Quantum) :=
  ((fun q => m !! q) <$> zseq (icq + 1) (Z.to_nat (QUANTUM_MASK - icq))) ++
  ((fun q => tick_up <$> m !! q) <$> zseq 1 (Z.to_nat icq)).

Fixpoint first_elig (et : envtab) (l : list (option Quantum)) : option Z :=
  match l with
  | [] => None
  | ox :: l' => match (x ← ox; elig et x) with Some i => Some i | None => first_elig et l' end
  end.

(** The environment the caller yields to: the kernel's choice, if any, or the
    one named in its u-area. *)
Definition donee (s : sched) : option Z :=
  i ← curenv (sc_et s);
  e ← envs (sc_et s) !! i;
  u ← uareas (sc_et s) !! env_u e;
  let d := if should_reschedule s =? 0 then u_donate u else should_reschedule s in
  if d =? -1 then None else runnable (sc_et s) d.

Definition next_env (env0 : Z) (s : sched) : Z :=
  match donee s with
  | Some i => i
  | None => default env0 (first_elig (sc_et s) (turn_order (quantums s) (curq s)))
  end.
End spec.

(** ** The search meets the specification *)

Lemma wp_get_q q s (Q : Quantum -> sched -> Prop) :
  wp (get_q q) s Q <-> exists x, quantums s !! q = Some x /\ Q x s.
Proof. apply wp_of_option. Qed.

Lemma wp_in_env {A} (m : M envtab A) s (Q : A -> sched -> Prop) :
  wp (in_env m) s Q <-> wp m (sc_et s) (fun a et => Q a (sc_env et s)).
Proof. apply wp_zoom. Qed.

Lemma sc_env_id s : sc_env (sc_et s) s = s.
Proof. by destruct s. Qed.

Lemma wp_in_get_env i s (Q : Env -> sched -> Prop) :
  wp (in_env (get_env i)) s Q <-> exists e, envs (sc_et s) !! i = Some e /\ Q e s.
Proof.
  unfold wp, in_env, zoom, get_env. destruct (envs (sc_et s) !! i); cbn; rewrite ?sc_env_id; naive_solver.
Qed.

Lemma wp_in_get_uarea p s (Q : Uenv -> sched -> Prop) :
  wp (in_env (get_uarea p)) s Q <-> exists u, uareas (sc_et s) !! p = Some u /\ Q u s.
Proof.
  unfold wp, in_env, zoom, get_uarea. destruct (uareas (sc_et s) !! p); cbn; rewrite ?sc_env_id; naive_solver.
Qed.

Lemma wp_in_get_curenv s (Q : Z -> sched -> Prop) :
  wp (in_env get_curenv) s Q <-> exists i, curenv (sc_et s) = Some i /\ Q i s.
Proof.
  unfold wp, in_env, zoom, get_curenv. destruct (curenv (sc_et s)); cbn; rewrite ?sc_env_id; naive_solver.
Qed.

Ltac sc_step :=
  match goal with
  | |- wp (in_env get_curenv) _ _ => apply wp_in_get_curenv; eexists; split; [eassumption|]
  | |- wp (get_q _) _ _ => apply wp_get_q; eexists; split; [eassumption|]
  | |- wp (in_env (get_env _)) _ _ => apply wp_in_get_env; eexists; split; [eassumption|]
  | |- wp (in_env (get_uarea _)) _ _ => apply wp_in_get_uarea; eexists; split; [eassumption|]
  | |- wp (in_env (upd_env _ _)) _ _ => apply wp_in_env, wp_modify
  | |- wp (in_env (upd_uarea _ _)) _ _ => apply wp_in_env, wp_modify
  | |- wp (put_q _ _) _ _ => apply wp_modify
  | |- wp (mbind_ _ _) _ _ => apply wp_bind
  | |- wp (mreturn _) _ _ => apply wp_ret
  | |- wp (modify _) _ _ => apply wp_modify
  | |- wp (gets _) _ _ => apply wp_gets
  end; cbn beta iota.
Ltac sc_steps := repeat sc_step.

(** Running an environment makes it current and changes no quantum. *)
Definition ran (i : Z) (s s' : sched) : Prop :=
  curenv (sc_et s') = Some i /\ quantums s' = quantums s /\ qfreelist s' = qfreelist s /\ curq s' = curq s /\
  should_reschedule s' = should_reschedule s /\ to_list s' = to_list s.

Lemma env_run_spec i s :
  has_uarea (sc_et s) i -> wp (env_run i) s (fun r s' => r = i /\ ran i s s').
Proof.
  intros (e & u & He & Hu & Hua). unfold env_run. sc_steps. apply wp_in_env. apply wp_bind.
  apply wp_of_option. exists e. split; [done|]. apply wp_bind. apply wp_of_option. exists u. split; [done|].
  destruct (negb _); cbn; done.
Qed.

Lemma quantum_free_run q x s (Q : unit -> sched -> Prop) :
  quantums s !! q = Some x ->
  Q tt (if q_used x =? 0 then s
        else sc_free (q_no x :: qfreelist s) (sc_quantums (<[q := mkQ 0 0 0 (q_no x) None]> (quantums s)) s)) ->
  wp (quantum_free q) s Q.
Proof.
  intros Hx HQ. unfold quantum_free. sc_steps. destruct (q_used x =? 0); cbn [negb]; sc_steps; exact HQ.
Qed.

(** The part of the state a failed attempt at a quantum leaves alone. *)
Definition tried (q : Z) (s s' : sched) : Prop :=
  sc_et s' = sc_et s /\ curq s' = curq s /\ should_reschedule s' = should_reschedule s /\
  to_list s' = to_list s /\ (forall q', q' <> q -> quantums s' !! q' = quantums s !! q') /\
  (quanta_ok s -> quanta_ok s').

Lemma quanta_ok_free q x s :
  quanta_ok s -> quantums s !! q = Some x -> q_used x <> 0 ->
  quanta_ok (sc_free (q_no x :: qfreelist s) (sc_quantums (<[q := mkQ 0 0 0 (q_no x) None]> (quantums s)) s)).
Proof.
  intros [D N U ND FL] Hq Hu. pose proof (N q x Hq) as Hno. rewrite Hno. split; cbn.
  - intros q'. rewrite <- D. destruct (decide (q = q')) as [<-|].
    + rewrite lookup_insert_eq, Hq. split; intros _; eauto.
    + by rewrite lookup_insert_ne.
  - intros q' x' Hq'. destruct (decide (q = q')) as [<-|]; [rewrite lookup_insert_eq in Hq'|
      rewrite lookup_insert_ne in Hq' by done; eauto]. by injection Hq' as <-.
  - intros q' x' Hq'. destruct (decide (q = q')) as [<-|]; [rewrite lookup_insert_eq in Hq'|
      rewrite lookup_insert_ne in Hq' by done; eauto]. injection Hq' as <-. by left.
  - constructor; [|done]. rewrite FL. intros (x' & ? & ?). congruence.
  - intros q'. rewrite elem_of_cons, FL. destruct (decide (q = q')) as [<-|].
    + rewrite lookup_insert_eq. split; [|by left]. intros _. eexists. done.
    + rewrite lookup_insert_ne by done. naive_solver.
Qed.

Lemma more_ticks_ok c s :
  quanta_ok s -> quanta_ok (sc_curq c (sc_quantums (tick_up <$> quantums s) s)).
Proof.
  assert (forall x, q_no (tick_up x) = q_no x /\ q_used (tick_up x) = q_used x /\ q_cap (tick_up x) = q_cap x) as Ht.
  { intros x. unfold tick_up. by destruct (q_used x =? 0). }
  intros [D N U ND FL]. split; cbn; [| | |done|].
  - intros q. rewrite lookup_fmap, <- D. destruct (quantums s !! q); cbn; split; intros []; eauto; done.
  - intros q x Hq. rewrite lookup_fmap in Hq. apply fmap_Some in Hq as (y & Hy & ->).
    destruct (Ht y) as (-> & _). eauto.
  - intros q x Hq. rewrite lookup_fmap in Hq. apply fmap_Some in Hq as (y & Hy & ->).
    destruct (Ht y) as (_ & -> & ->). eauto.
  - intros q. rewrite FL. split.
    + intros (x & Hx & Hu). exists (tick_up x). rewrite lookup_fmap, Hx. destruct (Ht x) as (_ & -> & _). done.
    + intros (x & Hx & Hu). rewrite lookup_fmap in Hx. apply fmap_Some in Hx as (y & Hy & ->).
      destruct (Ht y) as (_ & E & _). rewrite E in Hu. eauto.
Qed.

Lemma ran_quanta_ok i s s' : ran i s s' -> quanta_ok s -> quanta_ok s'.
Proof. intros (_ & E1 & E2 & _) []. split; rewrite ?E1, ?E2; auto. Qed.

Lemma fmap_zseq_ext {A} (f g : Z -> A) a n :
  (forall q, a <= q < a + Z.of_nat n -> f q = g q) -> f <$> zseq a n = g <$> zseq a n.
Proof.
  intros H. apply list_fmap_ext. intros k q Hq. apply H. apply zseq_elem.
  by eapply list_elem_of_lookup_2.
Qed.

Lemma next_q_step s :
  1 <= curq s < QUANTUM_MASK ->
  wp next_q s (fun _ s' => s' = sc_curq (curq s + 1) s).
Proof.
  intros H. unfold next_q. sc_steps.
  assert (Z.land (curq s + 1) QUANTUM_MASK = curq s + 1) as ->.
  { unfold QUANTUM_MASK in *. change 127 with (Z.ones 7). rewrite Z.land_ones by done.
    apply Z.mod_small. lia. }
  cbn. rewrite (proj2 (Z.eqb_neq _ _)) by lia. by sc_steps.
Qed.

Lemma next_q_wrap s :
  curq s = QUANTUM_MASK ->
  wp next_q s (fun _ s' => s' = sc_curq 1 (sc_quantums (tick_up <$> quantums s) s)).
Proof. intros H. unfold next_q. sc_steps. rewrite H. cbn. unfold more_ticks. by sc_steps. Qed.

Section search.
Context (run_pred : Z -> Z).

Lemma runnable_Some et envid i :
  runnable run_pred et envid = Some i ->
  env_id2env et envid = inl i /\ has_uarea et i.
Proof.
  unfold runnable. destruct (env_id2env et envid) as [j|]; [|done]. cbn.
  destruct (envs et !! j) as [e|] eqn:He; cbn; [|done].
  destruct (Z.eqb_spec (env_u e) 0); cbn; [done|].
  destruct (negb _); [done|]. destruct (uareas et !! env_u e) as [u|] eqn:Hu; cbn; [|done].
  destruct (_ || _); [|done]. intros [= <-]. split; [done|]. exists e, u. done.
Qed.

(** What trying an environment does, from its id. *)
Lemma yield_cont_spec i envid s :
  uareas_ok (sc_et s) -> env_id2env (sc_et s) envid = inl i ->
  wp (yield_cont run_pred (Some i) envid) s (fun r s' =>
    r = runnable run_pred (sc_et s) envid /\
    (r = None -> s' = s) /\ (forall j, r = Some j -> ran j s s')).
Proof.
  intros Hua Hid. apply env_id2env_inl in Hid as Hid'. destruct Hid' as (-> & e & He & Hst & Hide).
  unfold yield_cont, runnable. rewrite Hid. sc_steps. cbn. rewrite He. cbn.
  rewrite Hide, Z.eqb_refl, andb_true_r.
  destruct (Z.eqb_spec (env_u e) 0) as [|Hu0]; cbn; [by sc_steps|].
  destruct (negb (env_status e =? ENV_OK)); [by sc_steps|].
  destruct (Hua _ e He Hu0) as [u Hu]. sc_steps. rewrite Hu. cbn.
  destruct ((u_status u =? U_SLEEP) && negb (env_pred e =? 0) && negb (run_pred (envidx envid) =? 0)) eqn:Ep.
  - rewrite orb_true_r. sc_steps. apply andb_true_iff in Ep as [Ep _]. apply andb_true_iff in Ep as [Ep%Z.eqb_eq _].
    apply wp_in_get_uarea. cbn. rewrite lookup_alter_eq, Hu. eexists. split; [reflexivity|].
    cbn. rewrite Ep. cbn. apply wp_bind. eapply wp_mono; [apply env_run_spec|].
    + exists e. eexists. split; [done|]. split; [done|]. cbn. by rewrite lookup_alter_eq, Hu.
    + intros r s' [-> Hr]. sc_steps. split_and!; [done|done|]. intros j [= <-]. exact Hr.
  - rewrite orb_false_r. sc_steps. destruct (0 <? u_status u); [|by sc_steps].
    apply wp_bind. eapply wp_mono; [apply env_run_spec; by exists e, u|].
    intros r s' [-> Hr]. sc_steps. split_and!; [done|done|]. intros j [= <-]. exact Hr.
Qed.

Lemma try_quantum_spec x s :
  uareas_ok (sc_et s) -> quantums s !! curq s = Some x ->
  wp (try_quantum run_pred) s (fun r s' =>
    r = elig run_pred (sc_et s) x /\
    (r = None -> tried (curq s) s s') /\ (forall j, r = Some j -> ran j s s')).
Proof.
  intros Hua Hx. unfold try_quantum, elig. sc_steps.
  assert (tried (curq s) s s) as Hsame by (split_and!; done).
  destruct (_ && negb (q_ticks x =? 0)) eqn:Et; [|by sc_steps]. sc_steps.
  destruct (env_id2env (sc_et s) (q_envid x)) as [i|r] eqn:Hid.
  - eapply wp_mono; [by apply yield_cont_spec|]. intros r s' (-> & Hn & Hs). split_and!; [done| |done].
    intros Hr. by rewrite (Hn Hr).
  - unfold yield_cont. assert (runnable run_pred (sc_et s) (q_envid x) = None) as -> by (unfold runnable; by rewrite Hid).
    sc_steps. eapply quantum_free_run; [done|].
    apply andb_true_iff in Et as [Et _]. apply andb_true_iff in Et as [Eu _].
    apply negb_true_iff in Eu. rewrite Eu. sc_steps. split_and!; [done| |done]. intros _.
    split_and!; try done; cbn.
    + intros q' Hq'. by rewrite lookup_insert_ne.
    + intros Hok. apply quanta_ok_free; [done|done|by apply Z.eqb_neq].
Qed.

(** The last stretch: up to and including the quantum the search started at. *)
Lemma sched_loop_tail env0 icq k : forall fuel s,
  quanta_ok s -> uareas_ok (sc_et s) -> has_uarea (sc_et s) env0 ->
  1 <= curq s -> icq < NQUANTUM -> curq s + Z.of_nat k = icq -> (k < fuel)%nat ->
  wp (sched_loop run_pred env0 fuel icq) s (fun r s' =>
    r = default env0 (first_elig run_pred (sc_et s) ((fun q => quantums s !! q) <$> zseq (curq s) (S k))) /\
    curenv (sc_et s') = Some r /\ quanta_ok s').
Proof.
  induction k as [|k IH]; intros [|fuel] s Hok Hua H0 H1 Hn Hk Hfuel; [lia| |lia|].
  all: cbn [sched_loop]; sc_steps.
  all: destruct (proj2 (qk_dom _ Hok (curq s))) as [x Hx]; [unfold NQUANTUM in *; lia|].
  all: eapply wp_mono; [by apply (try_quantum_spec x)|].
  all: intros r s1 (-> & Hnone & Hsome); rewrite zseq_S; cbn [fmap list_fmap first_elig]; rewrite Hx; cbn [mbind option_bind].
  all: destruct (elig run_pred (sc_et s) x) as [i|] eqn:Ee.
  1, 3: specialize (Hsome i eq_refl); sc_steps; split_and!; [done|apply Hsome|by eapply ran_quanta_ok].
  all: destruct (Hnone eq_refl) as (Eet & Ecq & _ & _ & Eq & Hok1); specialize (Hok1 Hok); sc_steps; rewrite Ecq.
  - rewrite (proj2 (Z.eqb_eq _ _)) by lia.
    eapply wp_mono; [apply env_run_spec; by rewrite Eet|]. intros r s2 [-> Hr]. cbn.
    split_and!; [done|apply Hr|by eapply ran_quanta_ok].
  - rewrite (proj2 (Z.eqb_neq _ _)) by lia. sc_steps.
    eapply wp_mono; [apply next_q_step; unfold QUANTUM_MASK, NQUANTUM in *; lia|]. intros [] s2 ->.
    assert (quanta_ok (sc_curq (curq s1 + 1) s1)) as Hok2 by (destruct Hok1; split; done).
    rewrite Ecq in Hok2.
    eapply wp_mono; [apply (IH fuel); cbn [sc_et sc_curq curq]; rewrite ?Eet, ?Ecq; try done; lia|].
    intros r s3 (-> & Hr & Hok3). split_and!; try done. cbn. rewrite Eet, Ecq. do 2 f_equal.
    apply fmap_zseq_ext. intros q Hq. apply Eq. lia.
Qed.

(** The first stretch: up to the end of the vector, where every quantum gets
    new ticks. *)
Lemma sched_loop_head env0 icq k : forall fuel s,
  quanta_ok s -> uareas_ok (sc_et s) -> has_uarea (sc_et s) env0 ->
  1 <= icq < curq s -> curq s + Z.of_nat k = QUANTUM_MASK -> (k + Z.to_nat icq < fuel)%nat ->
  wp (sched_loop run_pred env0 fuel icq) s (fun r s' =>
    r = default env0 (first_elig run_pred (sc_et s)
          (((fun q => quantums s !! q) <$> zseq (curq s) (S k)) ++
           ((fun q => tick_up <$> quantums s !! q) <$> zseq 1 (Z.to_nat icq)))) /\
    curenv (sc_et s') = Some r /\ quanta_ok s').
Proof.
  induction k as [|k IH]; intros [|fuel] s Hok Hua H0 H1 Hk Hfuel; [lia| |lia|].
  all: cbn [sched_loop]; sc_steps.
  all: destruct (proj2 (qk_dom _ Hok (curq s))) as [x Hx]; [unfold QUANTUM_MASK, NQUANTUM in *; lia|].
  all: eapply wp_mono; [by apply (try_quantum_spec x)|].
  all: intros r s1 (-> & Hnone & Hsome); rewrite zseq_S; cbn [fmap list_fmap first_elig app]; rewrite Hx; cbn [mbind option_bind].
  all: destruct (elig run_pred (sc_et s) x) as [i|] eqn:Ee.
  1, 3: specialize (Hsome i eq_refl); sc_steps; split_and!; [done|apply Hsome|by eapply ran_quanta_ok].
  all: destruct (Hnone eq_refl) as (Eet & Ecq & _ & _ & Eq & Hok1); specialize (Hok1 Hok); sc_steps; rewrite Ecq.
  all: rewrite (proj2 (Z.eqb_neq _ _)) by lia; sc_steps.
  - eapply wp_mono; [apply next_q_wrap; unfold QUANTUM_MASK in *; lia|]. intros [] s2 ->.
    set (s2 := sc_curq 1 _). assert (quanta_ok s2) as Hok2 by (by apply more_ticks_ok).
    eapply wp_mono; [apply (sched_loop_tail env0 icq (Z.to_nat (icq - 1)) fuel s2); cbn [s2 sc_et sc_curq sc_quantums curq]; rewrite ?Eet; try done;
      unfold QUANTUM_MASK, NQUANTUM in *; lia|].
    intros r s3 (-> & Hr & Hok3). split_and!; try done. cbn. rewrite Eet. do 2 f_equal.
    replace (S (Z.to_nat (icq - 1))) with (Z.to_nat icq) by lia.
    apply fmap_zseq_ext. intros q Hq. rewrite lookup_fmap. f_equal. apply Eq. lia.
  - eapply wp_mono; [apply next_q_step; unfold QUANTUM_MASK in *; lia|]. intros [] s2 ->.
    assert (quanta_ok (sc_curq (curq s1 + 1) s1)) as Hok2 by (destruct Hok1; split; done).
    rewrite Ecq in Hok2.
    eapply wp_mono; [apply (IH fuel); cbn [sc_et sc_curq curq]; rewrite ?Eet, ?Ecq; try done; lia|].
    intros r s3 (-> & Hr & Hok3). split_and!; try done. cbn. rewrite Eet, Ecq. do 2 f_equal. f_equal.
    + apply fmap_zseq_ext. intros q Hq. apply Eq. lia.
    + apply fmap_zseq_ext. intros q Hq. f_equal. apply Eq. lia.
Qed.
End search.

(** ** What choosing depends on

    Two tables are alike for the scheduler when they agree on ids, status,
    u-area, predicate and run counts. *)
Definition sched_view (e : Env) : Z * Z * Z * Z := (env_id e, env_status e, env_u e, env_pred e).

Definition alike (et et' : envtab) : Prop :=
  (forall i, sched_view <$> envs et !! i = sched_view <$> envs et' !! i) /\
  (forall p, u_status <$> uareas et !! p = u_status <$> uareas et' !! p).

#[export] Instance alike_equiv : Equivalence alike.
Proof.
  split.
  - intros et. done.
  - intros et et' [H1 H2]. split; intros; symmetry; auto.
  - intros et1 et2 et3 [H1 H2] [H3 H4]. split; intros; etransitivity; eauto.
Qed.

#[export] Instance env_id2env_alike : Proper (alike ==> eq ==> eq) env_id2env.
Proof.
  intros et et' [H1 H2] envid ? <-. unfold env_id2env. specialize (H1 (envidx envid)).
  destruct (envs et !! _) as [e|], (envs et' !! _) as [e'|]; cbn in H1; try done.
  unfold sched_view in H1. injection H1 as E1 E2 _ _. by rewrite E1, E2.
Qed.

#[export] Instance runnable_alike run_pred : Proper (alike ==> eq ==> eq) (runnable run_pred).
Proof.
  intros et et' Ha envid ? <-. unfold runnable. rewrite Ha.
  destruct (env_id2env et' envid) as [i|]; [|done]. destruct Ha as [H1 H2].
  specialize (H1 i). destruct (envs et !! i) as [e|], (envs et' !! i) as [e'|]; cbn in H1; try done.
  unfold sched_view in H1. injection H1 as E1 E2 E3 E4. cbn. rewrite E2, E3.
  destruct (_ || _); [done|]. specialize (H2 (env_u e')).
  destruct (uareas et !! _) as [u|], (uareas et' !! _) as [u'|]; cbn in H2; try done.
  injection H2 as E5. cbn. by rewrite E4, E5.
Qed.

#[export] Instance elig_alike run_pred : Proper (alike ==> eq ==> eq) (elig run_pred).
Proof. intros et et' Ha x ? <-. unfold elig. by rewrite Ha. Qed.

#[export] Instance first_elig_alike run_pred : Proper (alike ==> eq ==> eq) (first_elig run_pred).
Proof.
  intros et et' Ha l ? <-. induction l as [|[x|] l IH]; cbn; [done| |done]. by rewrite Ha, IH.
Qed.

Lemma alike_upd_env et i f :
  (forall e, sched_view (f e) = sched_view e) -> alike (set_envs (alter f i (envs et)) et) et.
Proof.
  intros Hf. split; [|done]. intros j. cbn. destruct (decide (i = j)) as [<-|].
  - rewrite lookup_alter_eq. destruct (envs et !! i); cbn; [by rewrite Hf|done].
  - by rewrite lookup_alter_ne.
Qed.

Lemma alike_upd_uarea et p f :
  (forall u, u_status (f u) = u_status u) -> alike (set_uareas (alter f p (uareas et)) et) et.
Proof.
  intros Hf. split; [done|]. intros q. cbn. destruct (decide (p = q)) as [<-|].
  - rewrite lookup_alter_eq. destruct (uareas et !! p); cbn; [by rewrite Hf|done].
  - by rewrite lookup_alter_ne.
Qed.

Lemma alike_env et et' i e :
  alike et' et -> envs et !! i = Some e -> exists e', envs et' !! i = Some e' /\ sched_view e' = sched_view e.
Proof.
  intros [H _] He. specialize (H i). rewrite He in H. cbn in H. apply fmap_Some in H as (e' & ? & ?). eauto.
Qed.

Lemma alike_uarea et et' p u :
  alike et' et -> uareas et !! p = Some u -> exists u', uareas et' !! p = Some u' /\ u_status u' = u_status u.
Proof.
  intros [_ H] Hu. specialize (H p). rewrite Hu in H. cbn in H. apply fmap_Some in H as (u' & ? & ?). eauto.
Qed.

Lemma alike_has_uarea et et' i : alike et' et -> has_uarea et i -> has_uarea et' i.
Proof.
  intros Ha (e & u & He & Hn & Hu). destruct (alike_env _ _ _ _ Ha He) as (e' & He' & Ev).
  destruct (alike_uarea _ _ _ _ Ha Hu) as (u' & Hu' & _). unfold sched_view in Ev. injection Ev as _ _ Eu _.
  exists e', u'. rewrite Eu. done.
Qed.

Lemma alike_uareas_ok et et' : alike et' et -> uareas_ok et -> uareas_ok et'.
Proof.
  intros Ha Hok i e' He' Hn. symmetry in Ha. destruct (alike_env _ _ _ _ Ha He') as (e & He & Ev).
  unfold sched_view in Ev. injection Ev as _ _ Eu _. destruct (Hok i e He) as [u Hu]; [congruence|].
  symmetry in Ha. destruct (alike_uarea _ _ _ _ Ha Hu) as (u' & Hu' & _). rewrite <- Eu. eauto.
Qed.

(** ** The whole of [sched_runnext] *)

Section whole.
Context (run_pred : Z -> Z) (env0 : Z).

(** The search from the quantum after the current one. *)
Lemma sched_search_spec s :
  quanta_ok s -> 1 <= curq s < NQUANTUM -> uareas_ok (sc_et s) -> has_uarea (sc_et s) env0 ->
  wp (sched_search run_pred env0 (curq s)) s (fun r s' =>
    r = default env0 (first_elig run_pred (sc_et s) (turn_order (quantums s) (curq s))) /\
    curenv (sc_et s') = Some r /\ quanta_ok s').
Proof.
  intros Hok Hc Hua H0. unfold sched_search, turn_order, NQUANTUM, QUANTUM_MASK in *.
  destruct (decide (curq s = 127)) as [E|Hne].
  - apply wp_bind. eapply wp_mono; [by apply next_q_wrap|]. intros [] s1 ->.
    set (s1 := sc_curq 1 _). assert (quanta_ok s1) as Hok1 by (by apply more_ticks_ok).
    eapply wp_mono; [apply (sched_loop_tail run_pred env0 (curq s) 126 128 s1); try done;
      cbn [s1 sc_curq curq]; unfold NQUANTUM; lia|].
    intros r s2 (-> & ? & ?). split_and!; try done. do 2 f_equal.
    replace (Z.to_nat (127 - curq s)) with 0%nat by lia. replace (Z.to_nat (curq s)) with (S 126) by lia.
    rewrite zseq_0. cbn [fmap list_fmap app s1 sc_curq curq].
    apply fmap_zseq_ext. intros q _. cbn. by rewrite lookup_fmap.
  - apply wp_bind. eapply wp_mono; [apply next_q_step; unfold QUANTUM_MASK; lia|]. intros [] s1 ->.
    assert (quanta_ok (sc_curq (curq s + 1) s)) as Hok1 by (destruct Hok; split; done).
    eapply wp_mono; [apply (sched_loop_head run_pred env0 (curq s) (Z.to_nat (126 - curq s)) 128); try done;
      cbn [sc_curq curq]; unfold QUANTUM_MASK; lia|].
    intros r s2 (-> & ? & ?). split_and!; try done. cbn [sc_curq curq quantums sc_et].
    replace (S (Z.to_nat (126 - curq s))) with (Z.to_nat (127 - curq s)) by lia. done.
Qed.

(** Saving the caller's state and reading whom it yields to. *)
Lemma sched_runnext_spec s :
  sched_ok env0 s ->
  wp (sched_runnext run_pred env0) s (fun r s' =>
    r = next_env run_pred env0 s /\ curenv (sc_et s') = Some r /\ quanta_ok s').
Proof.
  intros [Hq Hc Hua H0 Hcur]. unfold sched_runnext, next_env, donee. sc_steps. cbn.
  assert (forall s1, alike (sc_et s1) (sc_et s) -> quantums s1 = quantums s -> qfreelist s1 = qfreelist s ->
    curq s1 = curq s ->
    wp (sched_search run_pred env0 (curq s)) s1 (fun r s' =>
      r = default env0 (first_elig run_pred (sc_et s) (turn_order (quantums s) (curq s))) /\
      curenv (sc_et s') = Some r /\ quanta_ok s')) as Hsearch.
  { intros s1 Ha E1 E2 E3. rewrite <- E1, <- E3.
    eapply wp_mono; [apply sched_search_spec|].
    - destruct Hq. split; rewrite ?E1, ?E2; auto.
    - by rewrite E3.
    - by eapply alike_uareas_ok.
    - by eapply alike_has_uarea.
    - intros r s' (-> & Hr). split; [|exact Hr]. f_equal. by apply first_elig_alike. }
  destruct (curenv (sc_et s)) as [i|] eqn:Ecur; cbn.
  2: { destruct (negb _); sc_steps; apply Hsearch; cbn; reflexivity. }
  destruct (Hcur i eq_refl) as (e & u & He & Hun & Hu). rewrite He. cbn. rewrite Hu. cbn.
  set (d := if should_reschedule s =? 0 then u_donate u else should_reschedule s).
  assert (forall s1 u1, alike (sc_et s1) (sc_et s) -> quantums s1 = quantums s -> qfreelist s1 = qfreelist s ->
    curq s1 = curq s -> envs (sc_et s1) = envs (sc_et s) -> uareas (sc_et s1) !! env_u e = Some u1 ->
    u_donate u1 = d ->
    wp (donate_step run_pred env0 i (curq s)) s1 (fun r s' =>
      r = match (if d =? -1 then None else runnable run_pred (sc_et s) d) with
          | Some j => j
          | None => default env0 (first_elig run_pred (sc_et s) (turn_order (quantums s) (curq s)))
          end /\ curenv (sc_et s') = Some r /\ quanta_ok s')) as Hdon.
  { intros s1 u1 Ha E1 E2 E3 E4 Hu1 Hd. unfold donate_step. sc_steps.
    assert (envs (sc_et s1) !! i = Some e) as He1 by (by rewrite E4).
    apply wp_in_get_env. cbn. rewrite lookup_alter_eq, He1. eexists. split; [reflexivity|].
    sc_steps. rewrite Hd.
    match goal with |- context [sc_et ?S] => set (s2 := S) end.
    assert (alike (sc_et s2) (sc_et s)) as Ha2.
    { etransitivity; [by apply (alike_upd_uarea (set_envs _ (sc_et s1)))|].
      etransitivity; [by apply alike_upd_env|]. done. }
    assert (quanta_ok s2) as Hq2 by (destruct Hq; split; cbn; rewrite ?E1, ?E2; auto).
    destruct (Z.eqb_spec d (-1)) as [|Hd1]; cbn [negb].
    - sc_steps. by apply Hsearch.
    - rewrite <- (runnable_alike run_pred _ _ Ha2 d d eq_refl).
      destruct (env_id2env (sc_et s2) d) as [j|] eqn:Ej.
      + eapply wp_mono; [apply yield_cont_spec; [by eapply alike_uareas_ok|done]|].
        intros r s3 (-> & Hn & Hs). destruct (runnable run_pred (sc_et s2) d) as [j'|] eqn:Er.
        * sc_steps. specialize (Hs j' eq_refl). split_and!; [done|apply Hs|by eapply ran_quanta_ok].
        * rewrite (Hn eq_refl). sc_steps. by apply Hsearch.
      + assert (runnable run_pred (sc_et s2) d = None) as -> by (unfold runnable; by rewrite Ej).
        sc_steps. by apply Hsearch. }
  unfold d in Hdon. destruct (Z.eqb_spec (should_reschedule s) 0); cbn; sc_steps.
  - eapply (Hdon (sc_revoc false s)); [reflexivity|done|done|done|done|done|done].
  - eapply (Hdon (sc_resched 0 (sc_env _ (sc_revoc false s))));
      [by apply alike_upd_uarea|done|done|done|done|cbn; by rewrite lookup_alter_eq, Hu|done].
Qed.
End whole.

(** ** Quantum calls *)

Lemma quanta_ok_env et s : quanta_ok s -> quanta_ok (sc_env et s).
Proof. intros []. split; done. Qed.

(** Changing a quantum's environment and ticks. *)
Lemma quanta_ok_put q x x' s :
  quanta_ok s -> quantums s !! q = Some x -> q_no x' = q_no x -> q_used x' = q_used x ->
  (q_cap x' = q_cap x \/ (q_used x = 1 /\ is_Some (q_cap x'))) ->
  quanta_ok (sc_quantums (<[q := x']> (quantums s)) s).
Proof.
  intros [D N U ND FL] Hq Hn Hu Hc. split; cbn; [| | |done|].
  - intros q'. rewrite <- D. destruct (decide (q = q')) as [<-|].
    + rewrite lookup_insert_eq, Hq. split; intros _; eauto.
    + by rewrite lookup_insert_ne.
  - intros q' y Hy. destruct (decide (q = q')) as [<-|]; [rewrite lookup_insert_eq in Hy|
      rewrite lookup_insert_ne in Hy by done; eauto]. injection Hy as <-. rewrite Hn. eauto.
  - intros q' y Hy. destruct (decide (q = q')) as [<-|]; [rewrite lookup_insert_eq in Hy|
      rewrite lookup_insert_ne in Hy by done; eauto]. injection Hy as <-. rewrite Hu.
    destruct Hc as [->|[? ?]]; [eauto|auto].
  - intros q'. rewrite FL. destruct (decide (q = q')) as [<-|].
    + rewrite lookup_insert_eq, Hq. split; intros (y & [= <-] & ?); eexists; (split; [reflexivity|]); congruence.
    + by rewrite lookup_insert_ne.
Qed.

(** Taking a quantum off the free list. *)
Definition allocated (c : cap) (x : Quantum) : Quantum := mkQ (q_envid x) BASE_TICKS 1 (q_no x) (Some c).

Lemma quanta_ok_take q x c l s :
  quanta_ok s -> quantums s !! q = Some x -> q_used x = 0 -> unlink q (qfreelist s) = Some l ->
  quanta_ok (sc_quantums (<[q := allocated c x]> (quantums s)) (sc_free l s)).
Proof.
  intros [D N U ND FL] Hq Hu Hl. destruct (unlink_NoDup _ _ _ ND Hl) as (Hnd & Hnot & Hin).
  split; cbn; [| | |done|].
  - intros q'. rewrite <- D. destruct (decide (q = q')) as [<-|].
    + rewrite lookup_insert_eq, Hq. split; intros _; eauto.
    + by rewrite lookup_insert_ne.
  - intros q' y Hy. destruct (decide (q = q')) as [<-|]; [rewrite lookup_insert_eq in Hy|
      rewrite lookup_insert_ne in Hy by done; eauto]. injection Hy as <-. cbn. eauto.
  - intros q' y Hy. destruct (decide (q = q')) as [<-|]; [rewrite lookup_insert_eq in Hy|
      rewrite lookup_insert_ne in Hy by done; eauto]. injection Hy as <-. right. cbn. eauto.
  - intros q'. rewrite Hin, FL. destruct (decide (q = q')) as [<-|].
    + rewrite lookup_insert_eq. split; [tauto|]. by intros (y & [= <-] & ?).
    + rewrite lookup_insert_ne by done. naive_solver.
Qed.

Lemma int_below q n : - 2 ^ 31 <= q < 2 ^ 31 -> 0 <= n <= 2 ^ 31 -> u32 q < n -> 0 <= q < n.
Proof.
  intros Hq Hn H. destruct (decide (0 <= q)); [rewrite u32_small in H by lia; lia|].
  exfalso. revert H. unfold u32, wrapu. replace q with (q + 2 ^ 32 + (-1) * 2 ^ 32) by lia.
  rewrite Z.mod_add by done. rewrite Z.mod_small by lia. lia.
Qed.

(** Taking the free quantum [qp]. *)
Lemma quantum_unfree_run qp x s (Q : Z -> sched -> Prop) :
  quanta_ok s -> quantums s !! qp = Some x ->
  (if q_used x =? 0
   then forall l, unlink qp (qfreelist s) = Some l ->
     Q qp (sc_quantums (<[qp := mkQ (q_envid x) (q_ticks x) 1 qp (q_cap x)]> (quantums s)) (sc_free l s))
   else Q (-1) s) ->
  wp (quantum_unfree (Some qp)) s Q.
Proof.
  intros Hok Hx HQ. unfold quantum_unfree. sc_steps. destruct (Z.eqb_spec (q_used x) 0) as [Hu|]; cbn [negb]; [|by sc_steps].
  destruct (unlink_Some qp (qfreelist s)) as [l Hl]; [apply (qk_fl _ Hok); eauto|].
  sc_steps. apply wp_of_option. exists l. split; [done|]. sc_steps.
  rewrite (qk_no _ Hok qp x Hx). by apply HQ.
Qed.

(** The quantum a call is about: for an allocation a free one, now guarded by
    the caller's capability; otherwise a used one the capability opens. *)
Lemma quantum_pick_spec h sn q c s :
  quanta_ok s -> - 2 ^ 31 <= q < 2 ^ 31 ->
  (is_alloc sn = true -> q = -1 -> qfreelist s <> []) ->
  (forall q' x qc, quantums s !! q' = Some x -> q_cap x = Some qc -> c_isptr qc = false) ->
  wp (quantum_pick h sn q c) s (fun r s' => quanta_ok s' /\ sc_et s' = sc_et s /\
    match r with
    | inr e => e < 0 /\ s' = s
    | inl q' => 0 <= q' < NQUANTUM /\ (forall q1, q1 <> q' -> quantums s' !! q1 = quantums s !! q1) /\
        exists x, quantums s !! q' = Some x /\
        (if is_alloc sn
         then q_used x = 0 /\ (q = -1 \/ q' = q) /\ quantums s' !! q' = Some (allocated c x)
         else s' = s /\ q' = q /\ q_used x = 1 /\
              exists qc, q_cap x = Some qc /\ acl_access h c [qc] ACL_ALL = Some 0)
    end).
Proof.
  intros Hok Hint Hne Hptr. unfold quantum_pick. destruct (is_alloc sn) eqn:Ealloc.
  - sc_steps. destruct (negb (q =? -1) && (NQUANTUM <=? u32 q)) eqn:E0; [sc_steps; split_and!; try done; elia|].
    assert (exists qp, (if q =? -1 then head (qfreelist s) else Some q) = Some qp /\ (q = -1 \/ qp = q) /\
              0 <= qp < NQUANTUM) as (qp & -> & Hqp & Hr).
    { destruct (Z.eqb_spec q (-1)) as [->|Hq1].
      - destruct (qfreelist s) as [|f fl] eqn:Ef; [by destruct (Hne eq_refl eq_refl)|].
        exists f. split_and!; try done; [by left|..]; apply (qk_dom _ Hok);
        (destruct (proj1 (qk_fl _ Hok f)) as (x & Hx & _); [rewrite Ef; left|]; eauto).
      - cbn in E0. apply Z.leb_gt in E0. exists q. split_and!; [done|by right|..];
          apply (int_below q NQUANTUM) in E0; unfold NQUANTUM in *; lia. }
    destruct (proj2 (qk_dom _ Hok qp) Hr) as [x Hx]. sc_steps.
    eapply quantum_unfree_run; [done|done|]. destruct (Z.eqb_spec (q_used x) 0) as [Hu|].
    + intros l Hl. rewrite (proj2 (Z.ltb_ge _ _)) by lia. sc_steps.
      apply wp_get_q. cbn. rewrite lookup_insert_eq. eexists. split; [reflexivity|]. sc_steps. cbn.
      unfold sc_quantums at 1. cbn. rewrite insert_insert_eq.
      assert (mkQ (q_envid x) BASE_TICKS 1 qp (Some c) = allocated c x) as ->
        by (unfold allocated; by rewrite (qk_no _ Hok qp x Hx)).
      split_and!; [by apply (quanta_ok_take qp x c l s)|done|lia|lia|intros q1 Hq1; cbn; by rewrite lookup_insert_ne by done|].
      exists x. split; [done|]. split_and!; [done|done|]. cbn. rewrite lookup_insert_eq. done.
    + cbn. sc_steps. split_and!; try done; elia.
  - destruct (Z.leb_spec NQUANTUM (u32 q)); [sc_steps; split_and!; try done; elia|].
    apply int_below in H as Hr; [|lia|unfold NQUANTUM; lia].
    destruct (proj2 (qk_dom _ Hok q) Hr) as [x Hx]. sc_steps.
    destruct (Z.eqb_spec (q_used x) 1) as [Hu|]; cbn [negb]; [|sc_steps; split_and!; try done; elia].
    destruct (qk_used _ Hok q x Hx) as [[? _]|[_ [qc Hqc]]]; [lia|]. rewrite Hqc. cbn. sc_steps.
    assert (acl_access h c [qc] ACL_ALL = Some (acl_access_ref h c [qc] ACL_ALL)) as Ha.
    { apply acl_access_ok. constructor; [|constructor]. intros _ Hp. by rewrite (Hptr q x qc Hx Hqc) in Hp. }
    rewrite Ha. cbn. sc_steps.
    destruct (acl_access_result _ _ _ _ _ Ha) as [Er|[Er|Er]]; rewrite Er in *; cbn; sc_steps.
    + split_and!; try done; try lia. exists x. split; [done|]. split_and!; try done. exists qc. done.
    + split_and!; try done; elia.
    + split_and!; try done; elia.
Qed.

Lemma alike_quanta et i f :
  alike (set_envs (alter (fun e => set_env_quanta (f e) e) i (envs et)) et) et.
Proof. by apply alike_upd_env. Qed.

Lemma wp_assert_cpu cpu s (Q : unit -> sched -> Prop) : cpu = 0 -> Q tt s -> wp (assert_ (cpu =? 0)) s Q.
Proof. intros -> HQ. apply wp_assert. done. Qed.

Lemma wp_deref {A} (r : A + Z) a s (Q : A -> sched -> Prop) : r = inl a -> Q a s -> wp (deref r) s Q.
Proof. intros -> HQ. apply wp_of_option. eauto. Qed.

Lemma env_getcap_neg e k r : env_getcap e k = inr r -> r < 0.
Proof.
  unfold env_getcap. destruct (_ <=? _); [intros [= <-]; elia|].
  destruct (c_valid _); [done|]. intros [= <-]. elia.
Qed.

(** Restricted capabilities are refused before anything happens. *)
Lemma quantum_guard_spec ce k (body : cap -> M sched Z) s (Q : Z -> sched -> Prop) :
  (forall r, r < 0 -> Q r s) ->
  (forall c, env_getcap ce k = inl c -> c_perm c = CL_ALL -> wp (body c) s Q) ->
  wp (match env_getcap ce k with
      | inr r => mreturn r
      | inl c => if negb (c_perm c =? CL_ALL) then mreturn (- E_CAP_INSUFF) else body c
      end) s Q.
Proof.
  intros Hneg Hbody. destruct (env_getcap ce k) as [c|r] eqn:E.
  - destruct (Z.eqb_spec (c_perm c) CL_ALL); cbn [negb]; [auto|]. sc_steps. apply Hneg. elia.
  - sc_steps. apply Hneg. by eapply env_getcap_neg.
Qed.

(** The calls that change quanta. *)
Lemma sys_quantum_set_spec h sn k q envid cur ce s :
  quanta_ok s -> - 2 ^ 31 <= q < 2 ^ 31 ->
  curenv (sc_et s) = Some cur -> envs (sc_et s) !! cur = Some ce ->
  (is_free sn = false -> envid <> 0) ->
  (is_alloc sn = true -> q = -1 -> qfreelist s <> []) ->
  (is_alloc sn = false -> forall x, quantums s !! q = Some x -> q_used x = 1 ->
     exists i, env_id2env (sc_et s) (q_envid x) = inl i) ->
  (forall q' x qc, quantums s !! q' = Some x -> q_cap x = Some qc -> c_isptr qc = false) ->
  wp (sys_quantum_set h sn k q 0 envid) s (fun r s' => quanta_ok s' /\
    (r < 0 /\ s' = s \/
     0 <= r < NQUANTUM /\ exists c x, env_getcap ce k = inl c /\ c_perm c = CL_ALL /\
       quantums s !! r = Some x /\ (forall q', q' <> r -> quantums s' !! q' = quantums s !! q') /\ alike (sc_et s') (sc_et s) /\
       match sn with
       | SYS_quantum_alloc => q_used x = 0 /\
           quantums s' !! r = Some (mkQ envid BASE_TICKS 1 r (Some c))
       | SYS_quantum_set => r = q /\ (exists qc, q_cap x = Some qc /\ acl_access h c [qc] ACL_ALL = Some 0) /\
           quantums s' !! r = Some (mkQ envid (q_ticks x) 1 r (q_cap x))
       | SYS_quantum_free => r = q /\ (exists qc, q_cap x = Some qc /\ acl_access h c [qc] ACL_ALL = Some 0) /\
           r ∈ qfreelist s' /\ quantums s' !! r = Some (mkQ 0 0 0 r None)
       end)).
Proof.
  intros Hok Hint Hcur Hce Hid0 Hfl Hown Hptr. unfold sys_quantum_set. sc_steps.
  destruct (negb (is_free sn) && negb (envid =? 0)) eqn:E0.
  - (* allocation or transfer *)
    apply andb_true_iff in E0 as [Ef%negb_true_iff E0%negb_true_iff]. cbn [andb].
    destruct (env_id2env (sc_et s) envid) as [e|re] eqn:Eid; [|sc_steps; split; [done|]; left; split; [elia|done]].
    apply env_id2env_inl in Eid as Hid. destruct Hid as (-> & ee & Hee & _ & Hide).
    sc_steps. apply quantum_guard_spec; [by intros r Hr; split; [done|left]|]. intros c Ec Hp.
    sc_steps. apply wp_assert_cpu; [done|]. sc_steps.
    eapply wp_mono; [by apply quantum_pick_spec|]. intros [q'|er] s1 (Hok1 & Eet & H1).
    2: { sc_steps. split; [done|]. left. destruct H1. subst. done. }
    destruct H1 as (Hr & Hoth & x & Hx & H1). rewrite Ef. destruct sn; [| |done]; cbn [is_alloc] in *.
    + destruct H1 as (Hu & _ & Hx1). sc_steps. apply wp_deref with (envidx envid); [done|].
      sc_steps. apply wp_in_get_env. cbn. rewrite lookup_alter_eq, Eet, Hee. eexists. split; [reflexivity|].
      sc_steps. split.
      * eapply (quanta_ok_put q' (allocated c x)); [by apply quanta_ok_env|done|done|done|by left].
      * right. split; [done|]. exists c, x. split_and!; try done; cbn.
        -- intros q1 Hq1. rewrite lookup_insert_ne by done. by apply Hoth.
        -- rewrite <- Eet. apply alike_quanta.
        -- rewrite lookup_insert_eq, Hide. cbn. by rewrite (qk_no _ Hok q' x Hx).
    + destruct H1 as (-> & -> & Hu & Hacc). sc_steps. apply wp_deref with (envidx envid); [done|]. sc_steps.
      destruct (Hown eq_refl x Hx Hu) as [io Hio]. apply wp_deref with io; [done|]. sc_steps.
      apply wp_in_get_env. cbn.
      assert (exists e1, alter (quanta_set 0 q) (envidx envid) (alter (quanta_clear 0 q) io (envs (sc_et s)))
                !! envidx envid = Some e1 /\ env_id e1 = envid) as (e1 & -> & He1).
      { rewrite lookup_alter_eq. destruct (decide (io = envidx envid)) as [->|].
        - rewrite lookup_alter_eq, Hee. eexists. split; [reflexivity|]. done.
        - rewrite lookup_alter_ne, Hee by done. eexists. split; [reflexivity|]. done. }
      eexists. split; [reflexivity|]. sc_steps. split.
      * eapply (quanta_ok_put q x); [by apply quanta_ok_env, quanta_ok_env|done|done|done|by left].
      * right. split; [done|]. exists c, x. split_and!; try done; cbn.
        -- intros q1 Hq1. by rewrite lookup_insert_ne by done.
        -- etransitivity; [apply (alike_quanta (set_envs _ _))|apply alike_quanta].
        -- rewrite lookup_insert_eq, He1, Hu. by rewrite (qk_no _ Hok q x Hx).
  - (* freeing *)
    assert (sn = SYS_quantum_free) as ->.
    { destruct sn; [| |done]; cbn in E0; apply negb_false_iff, Z.eqb_eq in E0; by destruct Hid0. }
    cbn [is_free negb andb].
    sc_steps. apply quantum_guard_spec; [by intros r Hr; split; [done|left]|]. intros c Ec Hp.
    sc_steps. apply wp_assert_cpu; [done|]. sc_steps.
    eapply wp_mono; [by apply quantum_pick_spec|]. intros [q'|er] s1 (Hok1 & Eet & H1).
    2: { sc_steps. split; [done|]. left. destruct H1. subst. done. }
    destruct H1 as (Hr & _ & x & Hx & -> & -> & Hu & Hacc). sc_steps.
    destruct (Hown eq_refl x Hx Hu) as [io Hio]. apply wp_deref with io; [done|]. sc_steps.
    eapply quantum_free_run; [exact Hx|]. rewrite Hu. cbn [Z.eqb]. sc_steps.
    pose proof (qk_no _ Hok q x Hx) as Hno. split.
    + apply (quanta_ok_free q x (sc_env _ s)); [by apply quanta_ok_env|done|lia].
    + right. split; [done|]. exists c, x. split_and!; try done; cbn.
      * intros q1 Hq1. by rewrite lookup_insert_ne by done.
      * apply alike_quanta.
      * rewrite Hno. left.
      * by rewrite lookup_insert_eq, Hno.
Qed.

(** ** Timeouts *)

Definition to_le (a b : to_struct) : Prop := to_ticks a <= to_ticks b.

Lemma to_insert_perm x l : to_insert x l ≡ₚ (x :: l).
Proof.
  induction l as [|y l IH]; cbn; [done|]. destruct (_ <=? _); [done|]. rewrite IH. constructor.
Qed.

Lemma to_insert_sorted x l : StronglySorted to_le l -> StronglySorted to_le (to_insert x l).
Proof.
  induction 1 as [|y l Hs IH Hall]; cbn; [repeat constructor|].
  destruct (Z.leb_spec (to_ticks x) (to_ticks y)).
  - constructor; [by constructor|]. constructor; [done|].
    eapply Forall_impl; [exact Hall|]. unfold to_le. intros z ?. lia.
  - constructor; [done|]. rewrite to_insert_perm. constructor; [unfold to_le; lia|done].
Qed.

Lemma to_fire_split now l d r :
  StronglySorted to_le l -> to_fire now l = (d, r) ->
  l = d ++ r /\ Forall (fun x => to_ticks x <= now) d /\ Forall (fun x => now < to_ticks x) r.
Proof.
  intros Hs. revert d r. induction Hs as [|y l Hs IH Hall]; intros d r; cbn.
  - intros [= <- <-]. done.
  - destruct (Z.leb_spec (to_ticks y) now).
    + destruct (to_fire now l) as [d' r'] eqn:E. intros [= <- <-].
      destruct (IH d' r' eq_refl) as (-> & ? & ?). auto.
    + intros [= <- <-]. split_and!; [done|done|]. constructor; [done|].
      eapply Forall_impl; [exact Hall|]. unfold to_le. intros z ?. lia.
Qed.

(** ** Initialisation *)

Lemma sched_init_ok s :
  quantums s = ∅ ->
  wp sched_init s (fun _ s' => quanta_ok s' /\ curq s' = 1 /\ to_list s' = [] /\
    zlen (qfreelist s') = NQUANTUM).
Proof.
  intros Hempty. unfold sched_init. sc_steps.
  set (P := fun l s' => exists n, l = zseq (Z.of_nat n) (128 - n) /\ (n <= 128)%nat /\
    (forall q, is_Some (quantums s' !! q) <-> 0 <= q < Z.of_nat n) /\
    (forall q x, quantums s' !! q = Some x -> q_no x = q /\ q_used x = 0 /\ q_cap x = None) /\
    NoDup (qfreelist s') /\ (forall q, q ∈ qfreelist s' <-> 0 <= q < Z.of_nat n) /\
    zlen (qfreelist s') = Z.of_nat n).
  apply (wp_mfor _ _ _ P).
  - exists 0%nat. cbn. split_and!; try done; try lia.
    + intros q. rewrite Hempty, lookup_empty. split; [by intros []|lia].
    + intros q x. rewrite Hempty, lookup_empty. done.
    + constructor.
    + intros q. split; [intros H; by apply not_elem_of_nil in H|lia].
  - intros i l s' (n & Hl & Hn & D & X & ND & FL & LEN). sc_steps.
    destruct (128 - n)%nat as [|m] eqn:Em; [done|]. rewrite zseq_S in Hl. injection Hl as -> ->.
    exists (S n). cbn. split_and!; try lia.
    + f_equal; lia.
    + intros q. destruct (decide (Z.of_nat n = q)) as [<-|].
      * rewrite lookup_insert_eq. split; [lia|eauto].
      * rewrite lookup_insert_ne by done. rewrite D. lia.
    + intros q x Hq. destruct (decide (Z.of_nat n = q)) as [<-|].
      * rewrite lookup_insert_eq in Hq. by injection Hq as <-.
      * rewrite lookup_insert_ne in Hq by done. eauto.
    + constructor; [rewrite FL; lia|done].
    + intros q. rewrite elem_of_cons, FL. lia.
    + rewrite zlen_cons. lia.
  - intros s' (n & Hl & Hn & D & X & ND & FL & LEN). sc_steps. cbn.
    assert (n = 128%nat) as ->.
    { apply (f_equal length) in Hl. rewrite zseq_length in Hl. cbn in Hl. lia. }
    split_and!; try done. split; cbn; try done.
    + intros q x Hq. by apply X.
    + intros q x Hq. left. apply (X q x Hq).
    + intros q. rewrite FL. split.
      * intros Hq. apply D in Hq as [x Hx]. exists x. split; [done|]. apply (X q x Hx).
      * intros (x & Hx & _). apply D. eauto.
Qed.

(** ** Properties *)

(** C6: [sched_runnext] always finds an environment to run within one turn of
    the quantum vector, and it is the right one: the environment the caller
    yields to, if that one can run; otherwise the first in round-robin order,
    starting after the current quantum, whose quantum is allocated with ticks
    left and whose environment is awake or woken by its predicate; otherwise
    the idle environment.  It becomes current, and the quantum vector stays
    well formed. *)
Theorem sched_runnext_round_robin run_pred env0 s :
  sched_ok env0 s ->
  wp (sched_runnext run_pred env0) s (fun r s' =>
    r = next_env run_pred env0 s /\ curenv (sc_et s') = Some r /\ quanta_ok s').
Proof. apply sched_runnext_spec. Qed.

(** C33: the quantum calls, on the one processor there is, for capabilities of
    quanta that are not pointers.  A call that allocates or transfers names an
    environment (0, which the documentation allows, is followed as a null
    pointer), there is a free quantum if any is to be taken, and a used quantum
    belongs to an environment that exists.  Then the call returns and keeps the
    quantum vector well formed; when it refuses, nothing changes.  When it
    succeeds, the caller has an unrestricted capability, which for an existing
    quantum the quantum's own capability grants everything; one quantum changes
    and no other, and of the environments at most their maps of quanta.  An
    allocation takes a free quantum and gives it the caller's capability, eight
    ticks and the named environment; a transfer only changes the environment; a
    freed quantum is cleared and back on the free list. *)
Theorem sys_quantum_set_guarded h sn k q envid cur ce s :
  quanta_ok s -> - 2 ^ 31 <= q < 2 ^ 31 ->
  curenv (sc_et s) = Some cur -> envs (sc_et s) !! cur = Some ce ->
  (is_free sn = false -> envid <> 0) ->
  (is_alloc sn = true -> q = -1 -> qfreelist s <> []) ->
  (is_alloc sn = false -> forall x, quantums s !! q = Some x -> q_used x = 1 ->
     exists i, env_id2env (sc_et s) (q_envid x) = inl i) ->
  (forall q' x qc, quantums s !! q' = Some x -> q_cap x = Some qc -> c_isptr qc = false) ->
  wp (sys_quantum_set h sn k q 0 envid) s (fun r s' => quanta_ok s' /\
    (r < 0 /\ s' = s \/
     0 <= r < NQUANTUM /\ exists c x, env_getcap ce k = inl c /\ c_perm c = CL_ALL /\
       quantums s !! r = Some x /\ (forall q', q' <> r -> quantums s' !! q' = quantums s !! q') /\ alike (sc_et s') (sc_et s) /\
       match sn with
       | SYS_quantum_alloc => q_used x = 0 /\
           quantums s' !! r = Some (mkQ envid BASE_TICKS 1 r (Some c))
       | SYS_quantum_set => r = q /\ (exists qc, q_cap x = Some qc /\ acl_access h c [qc] ACL_ALL = Some 0) /\
           quantums s' !! r = Some (mkQ envid (q_ticks x) 1 r (q_cap x))
       | SYS_quantum_free => r = q /\ (exists qc, q_cap x = Some qc /\ acl_access h c [qc] ACL_ALL = Some 0) /\
           r ∈ qfreelist s' /\ quantums s' !! r = Some (mkQ 0 0 0 r None)
       end)).
Proof. apply sys_quantum_set_spec. Qed.

(** C38: the timeout queue: adding a timeout keeps the queue ordered and loses
    nothing, and the clock tick takes off exactly the entries that are due, in
    order. *)
Theorem timeout_queue_ordered mem func arg ticks now s :
  mem <> 0 -> StronglySorted to_le (to_list s) ->
  wp (timeout mem func arg ticks) s (fun r s' => r = 0 /\
    StronglySorted to_le (to_list s') /\
    to_list s' ≡ₚ (mkTo (u64 (si_system_ticks s + ticks)) func arg :: to_list s) /\
    (let '(due, rest) := to_fire now (to_list s') in
     to_list s' = due ++ rest /\ Forall (fun x => to_ticks x <= now) due /\
     Forall (fun x => now < to_ticks x) rest)).
Proof.
  intros Hm Hs. unfold timeout. rewrite (proj2 (Z.eqb_neq _ _)) by done. sc_steps. cbn.
  set (x := mkTo _ _ _). split_and!; [done|by apply to_insert_sorted|apply to_insert_perm|].
  destruct (to_fire now (to_insert x (to_list s))) as [d r] eqn:E.
  apply to_fire_split in E; [done|by apply to_insert_sorted].
Qed.

Lemma sched_ok_alike env0 s s' :
  sched_ok env0 s -> alike (sc_et s') (sc_et s) -> curenv (sc_et s') = curenv (sc_et s) ->
  quanta_ok s' -> curq s' = curq s -> sched_ok env0 s'.
Proof.
  intros [Q C U Z0 CU] Ha Ec Hq Hc. split; [done|by rewrite Hc|by eapply alike_uareas_ok|
    by eapply alike_has_uarea|]. intros i Hi. eapply alike_has_uarea; [done|]. apply CU. congruence.
Qed.

(** Taking the processor away from an environment without an epilogue. *)
Lemma revoke_processor_spec run_pred env0 cur e u s :
  sched_ok env0 s -> curenv (sc_et s) = Some cur -> envs (sc_et s) !! cur = Some e ->
  uareas (sc_et s) !! env_u e = Some u -> u_entepilogue u = 0 ->
  wp (revoke_processor run_pred env0) s (fun r _ => is_Some r).
Proof.
  intros Hok Hcur He Hu Hep. unfold revoke_processor. sc_steps.
  apply wp_in_get_uarea. cbn. rewrite lookup_alter_eq, Hu. eexists. split; [reflexivity|]. cbn.
  rewrite Hep. cbn. sc_steps. eapply wp_mono; [apply sched_runnext_spec|].
  - eapply sched_ok_alike; [exact Hok|by apply alike_upd_uarea|done|apply quanta_ok_env, Hok|done].
  - intros r s' _. sc_steps. eauto.
Qed.

(** When the timer preempts: outside a revocation, the interrupt takes the
    processor away from the running environment exactly when its quantum has
    one tick left.  With none left (an environment running on a freed or
    exhausted quantum, after a directed yield) it goes on: the unsigned count
    wraps round. *)
Theorem sched_intr_preempts_iff `{EnvFree} run_pred env0 cur e u x s :
  sched_ok env0 s -> in_revocation s = false ->
  curenv (sc_et s) = Some cur -> envs (sc_et s) !! cur = Some e ->
  uareas (sc_et s) !! env_u e = Some u -> u_entepilogue u = 0 ->
  quantums s !! curq s = Some x -> 0 <= q_ticks x < 2 ^ 32 ->
  wp (sched_intr run_pred env0) s (fun r s' =>
    (is_Some (snd r) <-> q_ticks x = 1) /\
    (q_ticks x = 0 -> q_ticks <$> quantums s' !! curq s = Some (2 ^ 32 - 1))).
Proof.
  intros Hok Hrv Hcur He Hu Hep Hx Ht. unfold sched_intr. sc_steps. cbn [sc_clock sc_env to_list si_system_ticks].
  destruct (to_fire _ _) as [due rest]. sc_steps. cbn [sc_to in_revocation sc_env sc_clock]. rewrite Hrv.
  sc_steps.
  match goal with |- context [sc_quantums _ ?S] => set (s1 := S) end.
  assert (quanta_ok s1) as Hq1 by (destruct Hok as [[] _ _ _ _]; split; done).
  destruct (Z.leb_spec (u32 (q_ticks x - 1)) 0) as [H0|H0].
  - assert (q_ticks x = 1) as Ht1.
    { destruct (decide (q_ticks x = 0)) as [E|]; [rewrite E in H0; vm_compute in H0; by destruct H0|].
      rewrite u32_small in H0 by lia. lia. }
    sc_steps. eapply wp_mono.
    { eapply (revoke_processor_spec run_pred env0 cur (set_env_ticks (u32 (env_ticks e + 1)) e) u).
      - eapply sched_ok_alike; [exact Hok|by apply alike_upd_env|done| |done].
        unfold sc_quantums. cbn. rewrite insert_insert_eq. by apply (quanta_ok_put _ x _ s1); auto.
      - exact Hcur.
      - cbn. by rewrite lookup_alter_eq, He.
      - exact Hu.
      - exact Hep. }
    intros r s' Hr. sc_steps. cbn. split; [done|]. intros E. rewrite E in Ht1. done.
  - sc_steps. cbn. split.
    + split; [by intros []|]. intros E. rewrite E in H0. vm_compute in H0. done.
    + intros E. rewrite lookup_insert_eq, E. reflexivity.
Qed.

(** ** Witnesses *)

Definition ex_u (st don : Z) : Uenv := mkUenv st don 0 0 0 0 0 0 0 0 cap_null [] 0.
(** Environments 0 (idle), 2049 in slot 1 and 4098 in slot 2, both awake. *)
Definition ex_et : envtab :=
  mkET {[ 0 := ex_env 0 40 [ex_root]; 1 := ex_env 2049 50 [ex_root; ex_disk]; 2 := ex_env 4098 60 [ex_net] ]}
       (Some 1) {[ 40 := ex_u 1 (-1); 50 := ex_u 1 (-1); 60 := ex_u 1 (-1) ]} 0.
Definition ex_sched0 : sched := mkSched ex_et ∅ [] 0 false 0 [] 0 0 tf_zero.
Definition ex_init : sched := default ex_sched0 (ret_state (sched_init ex_sched0)).
(** Quantum 127 for 2049, then quantum 126 for 4098. *)
Definition ex_sched : sched :=
  default ex_sched0 (ret_state ((sys_quantum_set ∅ SYS_quantum_alloc 0 (-1) 0 2049 ;;
                                  sys_quantum_set ∅ SYS_quantum_alloc 0 (-1) 0 4098) ex_init)).

Lemma ex_init_ok : quanta_ok ex_init /\ curq ex_init = 1.
Proof.
  destruct (wp_ret_state _ _ ex_sched0 _ (sched_init_ok ex_sched0 eq_refl)) as (_ & Hq & Hc & _).
  exact (conj Hq Hc).
Qed.

Lemma ex_et_uareas i : i ∈ [0; 1; 2] -> has_uarea ex_et i.
Proof.
  intros Hi. repeat (apply elem_of_cons in Hi as [->|Hi]; [eexists _, _; split_and!; [reflexivity|done|reflexivity]|]).
  by apply not_elem_of_nil in Hi.
Qed.

Lemma ex_et_uareas_ok : uareas_ok ex_et.
Proof.
  intros i e He _. unfold ex_et, envs in He.
  apply lookup_insert_Some in He as [[<- <-]|[_ He]]; [eexists; reflexivity|].
  apply lookup_insert_Some in He as [[<- <-]|[_ He]]; [eexists; reflexivity|].
  apply lookup_singleton_Some in He as [<- <-]. eexists; reflexivity.
Qed.

(** The scheduler right after boot, before any quantum is given out. *)
Lemma ex_init_sched_ok : sched_ok 0 ex_init.
Proof.
  destruct ex_init_ok as [Hq Hc]. assert (sc_et ex_init = ex_et) as E by (vm_compute; reflexivity).
  split; [done|rewrite Hc; unfold NQUANTUM; lia|rewrite E; exact ex_et_uareas_ok|rewrite E..].
  - apply ex_et_uareas. set_solver.
  - intros i Hi. change (curenv ex_et) with (Some 1) in Hi. injection Hi as <-. apply ex_et_uareas. set_solver.
Qed.

Lemma sched_runnext_round_robin_witness :
  exists s', sched_runnext (fun _ => 0) 0 ex_init = Ret 0 s' /\ curenv (sc_et s') = Some 0.
Proof.
  pose proof (sched_runnext_round_robin (fun _ => 0) 0 ex_init ex_init_sched_ok) as H.
  assert (next_env (fun _ => 0) 0 ex_init = 0) as E by (vm_compute; reflexivity).
  destruct (wp_returns _ _ _ H) as (r & s' & Er & -> & Hc & _). rewrite E in *.
  exists s'. split; [exact Er|exact Hc].
Defined.

(** Right after boot no quantum has a capability. *)
Lemma ex_init_nocap q' x qc : quantums ex_init !! q' = Some x -> q_cap x = Some qc -> c_isptr qc = false.
Proof.
  intros Hx Hqc. destruct (qk_used _ (proj1 ex_init_ok) q' x Hx) as [[_ E]|[E _]]; [congruence|].
  assert (forallb (fun kv => q_used (snd kv) =? 0) (map_to_list (quantums ex_init)) = true) as Hall
    by (vm_compute; reflexivity).
  rewrite forallb_forall in Hall. specialize (Hall (q', x)).
  rewrite <- list_elem_of_In, elem_of_map_to_list in Hall. apply Hall in Hx. cbn in Hx.
  rewrite E in Hx. discriminate Hx.
Qed.

Lemma ex_init_free : qfreelist ex_init <> [].
Proof. assert (0 < zlen (qfreelist ex_init)) as H by (vm_compute; reflexivity). by intros E; rewrite E in H. Qed.

Lemma ex_init_env1 : curenv (sc_et ex_init) = Some 1 /\
  envs (sc_et ex_init) !! 1 = Some (ex_env 2049 50 [ex_root; ex_disk]).
Proof. split; vm_compute; reflexivity. Qed.

Lemma sys_quantum_set_guarded_witness :
  exists s', sys_quantum_set ∅ SYS_quantum_alloc 0 (-1) 0 2049 ex_init = Ret 127 s' /\
    quantums s' !! 127 = Some (mkQ 2049 8 1 127 (Some ex_root)).
Proof.
  pose proof (sys_quantum_set_guarded ∅ SYS_quantum_alloc 0 (-1) 2049 1
                (ex_env 2049 50 [ex_root; ex_disk]) ex_init (proj1 ex_init_ok) ltac:(lia)
                (proj1 ex_init_env1) (proj2 ex_init_env1) (fun _ => ltac:(lia))
                (fun _ _ => ex_init_free) ltac:(intros [=]) ex_init_nocap) as H.
  assert (ret_val (sys_quantum_set ∅ SYS_quantum_alloc 0 (-1) 0 2049 ex_init) = Some 127) as Er
    by (vm_compute; reflexivity).
  destruct (wp_returns_val _ _ _ _ H Er) as (s' & Es & _ & [[Hr _]|(_ & c & x & Hc & _ & _ & _ & _ & _ & Hq)]); [lia|].
  exists s'. split; [exact Es|]. vm_compute in Hc. injection Hc as <-. exact Hq.
Defined.

Lemma timeout_queue_ordered_witness :
  exists s', timeout 1 7 8 9 ex_sched0 = Ret 0 s' /\ StronglySorted to_le (to_list s').
Proof.
  pose proof (timeout_queue_ordered 1 7 8 9 0 ex_sched0 ltac:(lia) ltac:(constructor)) as H.
  unfold wp in H. destruct (timeout 1 7 8 9 ex_sched0) as [r s'|]; [|contradiction H].
  destruct H as (-> & Hs & _). exists s'. split; [reflexivity|exact Hs].
Defined.

(** A machine whose quantum 1, the running one, has one tick left. *)
Definition last_tick (s : sched) : sched := sc_quantums (<[1 := mkQ 0 1 0 1 None]> (quantums s)) s.
Definition ex_last_tick : sched := last_tick ex_init.

Lemma last_tick_ok s : sched_ok 0 s -> q_used <$> quantums s !! 1 = Some 0 -> sched_ok 0 (last_tick s).
Proof.
  intros [Hq Hc Hu H0 Hcur] E. split; [|done..].
  destruct (quantums s !! 1) as [x|] eqn:Hx; [|discriminate E]. injection E as E.
  destruct (qk_used _ Hq 1 x Hx) as [[_ E1]|[E1 _]]; [|congruence].
  apply (quanta_ok_put 1 x); auto. by rewrite (qk_no _ Hq 1 x Hx).
Qed.

Lemma ex_last_tick_ok : sched_ok 0 ex_last_tick.
Proof. apply last_tick_ok; [exact ex_init_sched_ok|]. vm_compute. reflexivity. Qed.

Lemma ex_last_tick_env :
  in_revocation ex_last_tick = false /\ curenv (sc_et ex_last_tick) = Some 1 /\
  envs (sc_et ex_last_tick) !! 1 = Some (ex_env 2049 50 [ex_root; ex_disk]) /\
  uareas (sc_et ex_last_tick) !! env_u (ex_env 2049 50 [ex_root; ex_disk]) = Some (ex_u 1 (-1)) /\
  quantums ex_last_tick !! curq ex_last_tick = Some (mkQ 0 1 0 1 None).
Proof. split_and!; vm_compute; reflexivity. Qed.

Lemma sched_intr_preempts_iff_witness :
  exists r s', @sched_intr {| env_free_sched := fun _ => mreturn tt |} (fun _ => 0) 0 ex_last_tick = Ret r s' /\
    is_Some (snd r).
Proof.
  destruct ex_last_tick_env as (Hrv & Hcur & He & Hu & Hx).
  pose proof (@sched_intr_preempts_iff {| env_free_sched := fun _ => mreturn tt |} (fun _ => 0) 0 1
                (ex_env 2049 50 [ex_root; ex_disk]) (ex_u 1 (-1)) (mkQ 0 1 0 1 None) ex_last_tick
                ex_last_tick_ok Hrv Hcur He Hu eq_refl Hx ltac:(cbn; lia)) as H.
  destruct (wp_returns _ _ _ H) as (r & s' & E & [Hr _]). exists r, s'. split; [exact E|]. by apply Hr.
Defined.

(** Two awake environments take turns, and yielding to a sleeping one falls
    through to the search. *)
Example sched_turns :
  ret_val (sched_runnext (fun _ => 0) 0 ex_sched) = Some 2 /\
  ret_val ((sched_runnext (fun _ => 0) 0 ;; sched_runnext (fun _ => 0) 0) ex_sched) = Some 1.
Proof. vm_compute. auto. Qed.

(** Exhausting the quanta, or naming no environment, follows a null pointer. *)
Example sys_quantum_null :
  ret_val (sys_quantum_set ∅ SYS_quantum_alloc 0 5 0 0 ex_init) = None /\
  ret_val (sys_quantum_set ∅ SYS_quantum_alloc 0 (-1) 0 2049 (sc_free [] ex_init)) = None.
Proof. vm_compute. auto. Qed.
