(* ===== verification/SchedFair.v ===== *)
(** * No starvation

    How long an environment that can run waits for its quantum: every call of
    [sched_runnext] (sys/kern/sched.c) that does not choose it moves the current
    quantum towards the one it holds. *)

From Stdlib Require Import ZArith Lia.
From stdpp Require Import base numbers option list gmap.
From S2P Require Import Prelude Capability EnvTable Sched.

(** The number of turns from quantum [c] to quantum [q]; 127 from [q] itself. *)
Definition dist (c q : Z) : Z := if c <? q then q - c else q - c + QUANTUM_MASK.

Definition next_of (c : Z) : Z := if c =? QUANTUM_MASK then 1 else c + 1.

Lemma dist_range c q : 1 <= c < NQUANTUM -> 1 <= q < NQUANTUM -> 1 <= dist c q <= QUANTUM_MASK.
Proof. unfold dist, NQUANTUM, QUANTUM_MASK. intros. destruct (Z.ltb_spec c q); lia. Qed.

Lemma dist_next c q :
  1 <= c < NQUANTUM -> 1 <= q < NQUANTUM ->
  1 <= next_of c < NQUANTUM /\ (next_of c = q /\ dist c q = 1 \/ next_of c <> q /\ dist (next_of c) q = dist c q - 1).
Proof.
  unfold dist, next_of, NQUANTUM, QUANTUM_MASK. intros. destruct (Z.eqb_spec c 127), (Z.ltb_spec c q); subst.
  all: try (destruct (Z.ltb_spec 1 q); lia). all: destruct (Z.ltb_spec (c + 1) q); lia.
Qed.

Section fair.
Context (run_pred : Z -> Z) (env0 q envid i : Z).

(** Quantum [q] belongs to the environment and has ticks left. *)
Definition holds_quantum (s : sched) : Prop :=
  exists x, quantums s !! q = Some x /\ q_used x = 1 /\ q_envid x = envid /\ 0 < q_ticks x <= TICKS_MASK.

Record ready (s : sched) : Prop := mkReady {
  re_ok : sched_ok env0 s;
  re_q : 1 <= q < NQUANTUM;
  re_holds : holds_quantum s;
  re_id : envid <> 0;
  re_run : runnable run_pred (sc_et s) envid = Some i }.

Lemma tick_up_holds s :
  holds_quantum s -> holds_quantum (sc_curq 1 (sc_quantums (tick_up <$> quantums s) s)).
Proof.
  intros (x & Hx & Hu & He & Ht). exists (tick_up x). split; [cbn; by rewrite lookup_fmap, Hx|]. unfold tick_up. rewrite Hu. cbn.
  unfold TICKS_MASK, BASE_TICKS in *. rewrite u32_small by lia. destruct (Z.ltb_spec 15 (q_ticks x + 8)); split_and!; try done; lia.
Qed.

(** One move of the current quantum. *)
Lemma next_q_run s :
  sched_ok env0 s -> holds_quantum s ->
  wp next_q s (fun _ s' => curq s' = next_of (curq s) /\ sc_et s' = sc_et s /\ holds_quantum s' /\ quanta_ok s').
Proof.
  intros [Hq Hc _ _ _] Hh. unfold next_of. destruct (Z.eqb_spec (curq s) QUANTUM_MASK) as [E|E].
  - eapply wp_mono; [by apply next_q_wrap|]. intros [] s' ->. split_and!; [done|done|by apply tick_up_holds|by apply more_ticks_ok].
  - eapply wp_mono; [apply next_q_step; unfold NQUANTUM, QUANTUM_MASK in *; lia|]. intros [] s' ->.
    split_and!; [done|done|done|]. destruct Hq. by split.
Qed.

Lemma sched_ok_moved s s' :
  sched_ok env0 s -> sc_et s' = sc_et s -> quanta_ok s' -> 1 <= curq s' < NQUANTUM -> sched_ok env0 s'.
Proof. intros [] E ? ?. by split; rewrite ?E. Qed.

Lemma elig_ready s x :
  ready s -> quantums s !! q = Some x -> elig run_pred (sc_et s) x = Some i.
Proof.
  intros [_ _ (y & Hy & Hu & He & Ht) Hid Hrun] Hx. rewrite Hx in Hy. injection Hy as <-. unfold elig.
  rewrite Hu, He, (proj2 (Z.eqb_neq envid 0)), (proj2 (Z.eqb_neq (q_ticks x) 0)) by (done || lia). exact Hrun.
Qed.

(** [n] more turns to [q]; the search started further away. *)
Lemma sched_loop_progress icq n : forall fuel s,
  ready s -> (curq s = q /\ n = 0%nat \/ curq s <> q /\ dist (curq s) q = Z.of_nat n) ->
  Z.of_nat n < dist icq q -> (n < fuel)%nat ->
  wp (sched_loop run_pred env0 fuel icq) s (fun r s' => r = i \/ 1 <= curq s' < NQUANTUM /\ dist (curq s') q < dist icq q).
Proof.
  induction n as [|n IH]; intros [|fuel] s Hr Hd Hlt Hf; try lia.
  all: pose proof (re_ok _ Hr) as Hok; pose proof (so_q _ _ Hok) as Hq; pose proof (so_curq _ _ Hok) as Hc.
  all: destruct (proj2 (qk_dom _ Hq (curq s))) as [x Hx]; [lia|].
  all: cbn [sched_loop]; apply wp_bind; eapply wp_mono; [apply (try_quantum_spec run_pred x); [apply Hok|done]|]; intros r s1 (-> & Hnone & Hsome).
  - destruct Hd as [[Ec _]|[? ?]]; [|pose proof (dist_range _ _ Hc (re_q _ Hr)); lia]. rewrite Ec in Hx.
    rewrite (elig_ready s x) by done. apply wp_ret. by left.
  - destruct Hd as [[_ ?]|[Hne Hd]]; [done|]. destruct (elig run_pred (sc_et s) x) as [j|] eqn:Ej.
    { apply wp_ret. right. destruct (Hsome j eq_refl) as (_ & _ & _ & -> & _). split; [done|lia]. }
    destruct (Hnone eq_refl) as (Eet & Ecq & _ & _ & Eq & Hok1). apply wp_bind, wp_gets. rewrite Ecq.
    rewrite (proj2 (Z.eqb_neq (curq s) icq)) by (intros E; rewrite E in Hd; lia).
    assert (holds_quantum s1) as Hh1. { destruct (re_holds _ Hr) as (y & Hy & ?). exists y. by rewrite Eq by done. }
    apply wp_bind. eapply wp_mono; [apply next_q_run; [|done]|].
    { apply (sched_ok_moved s); [done|done|by apply Hok1|by rewrite Ecq]. }
    intros [] s2 (Ec2 & Eet2 & Hh2 & Hq2). destruct (dist_next (curq s) q Hc (re_q _ Hr)) as [Hc2 Hd2]. rewrite Ecq in Ec2.
    apply IH; [|rewrite Ec2; lia|lia|lia]. destruct Hr as [_ ? _ ? Hrun]. split; [|done|done|done|by rewrite Eet2, Eet].
    apply (sched_ok_moved s); [done|congruence|done|by rewrite Ec2].
Qed.

(** Nobody yields to a particular environment. *)
Definition no_donation (s : sched) : Prop :=
  should_reschedule s = 0 /\
  forall j e u, curenv (sc_et s) = Some j -> envs (sc_et s) !! j = Some e -> uareas (sc_et s) !! env_u e = Some u -> u_donate u = -1.

Lemma sched_search_progress s :
  ready s ->
  wp (sched_search run_pred env0 (curq s)) s (fun r s' => r = i \/ 1 <= curq s' < NQUANTUM /\ dist (curq s') q < dist (curq s) q).
Proof.
  intros Hr. pose proof (re_ok _ Hr) as Hok. pose proof (so_curq _ _ Hok) as Hc.
  apply wp_bind. eapply wp_mono; [apply next_q_run; [done|apply Hr]|]. intros [] s1 (Ec & Eet & Hh & Hq).
  destruct (dist_next (curq s) q Hc (re_q _ Hr)) as [Hc1 Hd]. pose proof (dist_range _ _ Hc (re_q _ Hr)) as Hdr.
  apply (sched_loop_progress (curq s) (Z.to_nat (dist (curq s) q - 1))).
  - destruct Hr as [_ ? _ ? Hrun]. split; [|done|done|done|by rewrite Eet].
    apply (sched_ok_moved s); [done|done|done|by rewrite Ec].
  - rewrite Ec. lia.
  - lia.
  - unfold QUANTUM_MASK in *. lia.
Qed.

Lemma sched_runnext_progress s :
  ready s -> no_donation s ->
  wp (sched_runnext run_pred env0) s (fun r s' => r = i \/ 1 <= curq s' < NQUANTUM /\ dist (curq s') q < dist (curq s) q).
Proof.
  intros Hr [Hrs Hdon]. unfold sched_runnext. apply wp_bind, wp_gets, wp_bind, wp_modify, wp_bind, wp_gets, wp_bind, wp_gets.
  cbn [should_reschedule sc_revoc sc_et]. rewrite Hrs. apply wp_bind, wp_ret.
  assert (forall s1, alike (sc_et s1) (sc_et s) -> curenv (sc_et s1) = curenv (sc_et s) -> quantums s1 = quantums s ->
    qfreelist s1 = qfreelist s -> curq s1 = curq s -> ready s1) as Hmove.
  { intros s1 Ha Ecu Eq Ef Ec. destruct Hr as [Hok Hqr (x & Hx) Hid Hrun]. pose proof (so_q _ _ Hok) as Hq.
    assert (quanta_ok s1) by (destruct Hq; split; rewrite ?Eq, ?Ef; auto). split; [by eapply sched_ok_alike|done| |done|].
    - exists x. by rewrite Eq.
    - by rewrite (runnable_alike run_pred _ _ Ha envid envid eq_refl). }
  destruct (curenv (sc_et s)) as [j|] eqn:Ecur.
  2: { apply (sched_search_progress (sc_revoc false s)). by apply Hmove. }
  destruct (so_cur _ _ (re_ok _ Hr) j Ecur) as (e & u & He & Hu0 & Hu). unfold donate_step.
  apply wp_bind, wp_gets, wp_bind, wp_in_env, wp_modify, wp_bind, wp_in_get_env. cbn.
  eexists. rewrite lookup_alter_eq, He. split; [reflexivity|]. cbn.
  apply wp_bind, wp_in_get_uarea. cbn. exists u. split; [done|]. apply wp_bind, wp_in_env, wp_modify, wp_bind, wp_gets.
  rewrite (Hdon j e u eq_refl He Hu). apply wp_bind, wp_ret.
  match goal with |- wp _ ?S _ => set (s2 := S) end. change (curq s) with (curq s2). apply sched_search_progress, Hmove; try done.
  etransitivity; [by apply (alike_upd_uarea (set_envs _ (sc_et s)))|]. by apply alike_upd_env.
Qed.

(** [n] times in a row the environment is ready and another one is chosen.
    Between two calls anything may happen that leaves the current quantum. *)
Inductive waits : nat -> sched -> Prop :=
  | waits_0 s : ready s -> waits 0 s
  | waits_S n s r t s' :
      ready s -> no_donation s -> sched_runnext run_pred env0 s = Ret r t -> r <> i ->
      curq s' = curq t -> waits n s' -> waits (S n) s.

Lemma waits_bound n s : waits n s -> Z.of_nat n < dist (curq s) q.
Proof.
  intros H. induction H as [s Hr|n s r t s' Hr Hnd Erun Hne Ec _ IH].
  - pose proof (dist_range _ _ (so_curq _ _ (re_ok _ Hr)) (re_q _ Hr)). lia.
  - destruct (wp_run _ _ _ _ _ (sched_runnext_progress s Hr Hnd) Erun) as [?|[_ Hlt]]; [done|]. rewrite <- Ec in Hlt. lia.
Qed.
End fair.

(** C19: no starvation without directed yields: an environment that holds a quantum
    with ticks left and can run, at each decision of a row of decisions at which
    another one is chosen, waits for fewer than 127 of them.  No caller yields to
    a particular environment, the verdicts of the wakeup predicates are the same
    in the whole row, and between the decisions anything may happen that keeps the
    environment ready and leaves the current quantum. *)
Theorem sched_bounded_waiting run_pred env0 q envid i n s :
  waits run_pred env0 q envid i n s -> Z.of_nat n < QUANTUM_MASK.
Proof.
  intros H. pose proof (waits_bound _ _ _ _ _ _ _ H) as Hn.
  assert (ready run_pred env0 q envid i s) as Hr by (by destruct H).
  pose proof (dist_range _ _ (so_curq _ _ (re_ok _ _ _ _ _ _ Hr)) (re_q _ _ _ _ _ _ Hr)). lia.
Qed.

(** ** Witness *)

(** Give quantum [q] to an environment. *)
Definition give (q envid : Z) (s : sched) : sched :=
  sc_quantums (<[q := mkQ envid BASE_TICKS 1 q (Some ex_root)]> (quantums s)) (sc_free (default [] (unlink q (qfreelist s))) s).

Lemma give_ok env0 q envid x s :
  sched_ok env0 s -> quantums s !! q = Some x -> q_used x = 0 -> sched_ok env0 (give q envid s).
Proof.
  intros Hok Hx Hu. pose proof (so_q _ _ Hok) as Hq. destruct (unlink_Some q (qfreelist s)) as [l Hl].
  { apply (qk_fl _ Hq). eauto. }
  apply (sched_ok_moved env0 s); [done|done| |apply Hok]. unfold give. rewrite Hl. cbn.
  pose proof (quanta_ok_take q x ex_root l s Hq Hx Hu Hl) as H1.
  pose proof (quanta_ok_put q (allocated ex_root x) (mkQ envid BASE_TICKS 1 q (Some ex_root)) _ H1) as H2.
  cbn in H2. rewrite insert_insert_eq in H2. apply H2; [by rewrite lookup_insert_eq|symmetry; by apply (qk_no _ Hq)|done|by left].
Qed.

Lemma give_other q q' envid s x : q <> q' -> quantums s !! q' = Some x -> quantums (give q envid s) !! q' = Some x.
Proof. intros. cbn. by rewrite lookup_insert_ne. Qed.

Lemma give_at q envid s : quantums (give q envid s) !! q = Some (mkQ envid BASE_TICKS 1 q (Some ex_root)).
Proof. apply lookup_insert_eq. Qed.

(** Quantum 3 is held by environment 4098, quantum 5 by environment 2049. *)
Definition ex_two : sched := give 3 4098 (give 5 2049 ex_init).

Lemma ex_unused q : 0 <= q < NQUANTUM -> exists x, quantums ex_init !! q = Some x /\ q_used x = 0.
Proof.
  intros Hq. assert (forallb (fun q => bool_decide (q_used <$> quantums ex_init !! q = Some 0)) (zseq 0 128) = true) as H
    by (vm_compute; reflexivity).
  rewrite forallb_forall in H. specialize (H q). rewrite <- list_elem_of_In in H. rewrite zseq_elem in H.
  unfold NQUANTUM in Hq. specialize (H ltac:(lia)). apply bool_decide_eq_true, fmap_Some in H as (x & Hx & Hu). eauto.
Qed.

Lemma ex_two_ready : ready (fun _ => 0) 0 5 2049 1 ex_two.
Proof.
  destruct (ex_unused 5 ltac:(unfold NQUANTUM; lia)) as (x5 & Hx5 & Hu5). destruct (ex_unused 3 ltac:(clear; unfold NQUANTUM; lia)) as (x3 & Hx3 & Hu3).
  pose proof (give_ok 0 5 2049 x5 ex_init ex_init_sched_ok Hx5 Hu5) as H5.
  pose proof (give_ok 0 3 4098 x3 _ H5 (give_other 5 3 2049 ex_init x3 ltac:(discriminate) Hx3) Hu3) as H3.
  split.
  1: exact H3.
  1: clear; unfold NQUANTUM; lia.
  2: discriminate.
  2: vm_compute; reflexivity.
  eexists. split; [exact (give_other 3 5 4098 _ _ ltac:(discriminate) (give_at 5 2049 ex_init))|].
  clear. unfold BASE_TICKS, TICKS_MASK. cbn. lia.
Qed.

Definition ex_two_next : sched := default ex_two (ret_state (sched_runnext (fun _ => 0) 0 ex_two)).
Lemma ex_two_run : sched_runnext (fun _ => 0) 0 ex_two = Ret 2 ex_two_next.
Proof.
  assert (ret_val (sched_runnext (fun _ => 0) 0 ex_two) = Some 2) as E by (vm_compute; reflexivity).
  unfold ex_two_next. destruct (sched_runnext (fun _ => 0) 0 ex_two); [|discriminate E]. injection E as ->. reflexivity.
Qed.

(** The first decision takes environment 4098 (slot 2); afterwards quantum 3 is
    current and 2049 still waits. *)
Definition ex_three : sched := sc_curq 3 ex_two.

Lemma ex_two_curq : curq ex_two_next = 3.
Proof. vm_compute. reflexivity. Qed.

Lemma ready_moved run_pred env0 q envid i c s :
  1 <= c < NQUANTUM -> ready run_pred env0 q envid i s -> ready run_pred env0 q envid i (sc_curq c s).
Proof.
  intros Hc [Hok Hq Hh Hid Hrun]. split; try done. apply (sched_ok_moved env0 s); [done|done| |done].
  destruct (so_q _ _ Hok). by split.
Qed.

Lemma ex_three_ready : ready (fun _ => 0) 0 5 2049 1 ex_three.
Proof. exact (ready_moved _ _ _ _ _ 3 ex_two ltac:(unfold NQUANTUM; lia) ex_two_ready). Qed.

Lemma ex_two_no_donation : no_donation ex_two.
Proof.
  split; [reflexivity|]. intros j e u Hj He Hu.
  assert (sc_et ex_two = ex_et) as E by (vm_compute; reflexivity). rewrite E in *. injection Hj as <-.
  injection He as <-. injection Hu as <-. reflexivity.
Qed.

Lemma sched_bounded_waiting_witness : waits (fun _ => 0) 0 5 2049 1 1 ex_two /\ 1 < QUANTUM_MASK.
Proof.
  assert (waits (fun _ => 0) 0 5 2049 1 1 ex_two) as H.
  { exact (waits_S _ _ _ _ _ 0 ex_two 2 ex_two_next ex_three ex_two_ready ex_two_no_donation ex_two_run
             ltac:(discriminate) (eq_sym ex_two_curq) (waits_0 _ _ _ _ _ ex_three ex_three_ready)). }
  split; [exact H|]. exact (sched_bounded_waiting _ _ _ _ _ 1 ex_two H).
Defined.
