(* ===== verification/Ipc.v ===== *)
(** * Protected control transfer

    sys/kern/ipc.c on one processor: the IPC traps, which enter another
    environment at its registered entry point in the caller's place, and the
    fast yield.  The state is that of the scheduler ([utf] is the trap frame of
    the caller); loading the page directory and the floating-point flag is left
    to the machine. *)

From Stdlib Require Import ZArith Lia.
From stdpp Require Import base numbers option list gmap.
From S2P Require Import Prelude Capability EnvTable Sched.

Definition U_MAX_EXTRAIPCARGS := 16.

Inductive trap := T_IPC1 | T_IPC1S | T_IPC2 | T_IPC2S.
Definition is_ipc2 (t : trap) : bool := match t with T_IPC2 | T_IPC2S => true | _ => false end.
Definition sleeps (t : trap) : Z := match t with T_IPC1S | T_IPC2S => 1 | _ => 0 end.

(** How a trap ends: a value in the caller's [eax], a fault on the caller's
    stack while it is read, or environment [i] running with the frame. *)
Inductive ipc_result :=
  | IpcRet (r : Z)
  | IpcFault
  | IpcEnter (i : Z) (tf : Trapframe).

Definition tf_with_eax (v : Z) (t : Trapframe) : Trapframe :=
  mkTf (tf_edi t) (tf_esi t) (tf_ebp t) (tf_oesp t) (tf_ebx t) (tf_edx t) (tf_ecx t) v
    (tf_es t) (tf_ds t) (tf_eip t) (tf_cs t) (tf_eflags t) (tf_esp t) (tf_ss t).
Definition tf_with_edi (v : Z) (t : Trapframe) : Trapframe :=
  mkTf v (tf_esi t) (tf_ebp t) (tf_oesp t) (tf_ebx t) (tf_edx t) (tf_ecx t) (tf_eax t)
    (tf_es t) (tf_ds t) (tf_eip t) (tf_cs t) (tf_eflags t) (tf_esp t) (tf_ss t).
Definition tf_with_esp (v : Z) (t : Trapframe) : Trapframe :=
  mkTf (tf_edi t) (tf_esi t) (tf_ebp t) (tf_oesp t) (tf_ebx t) (tf_edx t) (tf_ecx t) (tf_eax t)
    (tf_es t) (tf_ds t) (tf_eip t) (tf_cs t) (tf_eflags t) v (tf_ss t).

Definition set_u_extra (l : list Z) (u : Uenv) : Uenv :=
  mkUenv (u_status u) (u_donate u) (u_ppc u) (u_pred_tag u) (u_entepilogue u) (u_entprologue u)
    (u_entipc1 u) (u_entipc2 u) (u_aenvid u) (u_gkey u) (u_gcap u) l (u_revoked_pages u).

(** [TRAPRET (v)]: [utf->tf_eax] is unsigned. *)
Definition TRAPRET (v : Z) : M sched ipc_result :=
  modify (fun s => sc_utf (tf_with_eax (u32 v) (utf s)) s) ;; mreturn (IpcRet v).

(** [popal] from [utf], then the segment registers and the [iret] frame from
    the environment's saved state. *)
Definition ipc_frame (f t : Trapframe) : Trapframe :=
  mkTf (tf_edi f) (tf_esi f) (tf_ebp f) (tf_oesp f) (tf_ebx f) (tf_edx f) (tf_ecx f) (tf_eax f)
    (tf_es t) (tf_ds t) (tf_eip t) (tf_cs t) (tf_eflags t) (tf_esp t) (tf_ss t).

(** [umem a] is the word at [a] in the caller's memory, [None] if reading it
    faults. *)
Section ipc.
Context (umem : Z -> option Z).

(** [copyin (pargs, up->u_ipc1_extra_args, n * sizeof (u_int))], from word [i]
    on. *)
Fixpoint copy_args (up a : Z) (i n : nat) : M sched bool :=
  match n with
  | O => mreturn true
  | S n' =>
      match umem (u32 (a + 4 * Z.of_nat i)) with
      | None => mreturn false
      | Some w =>
          in_env (upd_uarea up (fun u => set_u_extra (<[i := w]> (u_ipc1_extra_args u)) u)) ;;
          copy_args up a (S i) n'
      end
  end.

(** The cases for [T_IPC1]: the entry point, or the end of the trap. *)
Definition ipc1_admit (ei : Z) (e : Env) : M sched (Z + ipc_result) :=
  f <- gets utf ;;
  if negb (env_allowipc1 e =? XOK_IPC_ALLOWED) then r <- TRAPRET (- E_IPC_BLOCKED) ;; mreturn (inr r)
  else if U_MAX_EXTRAIPCARGS <? tf_ebx f then r <- TRAPRET (- E_INVAL) ;; mreturn (inr r)
  else
    ok <- (if 0 <? tf_ebx f then
             match umem (tf_esp f) with
             | None => mreturn false
             | Some pargs => copy_args (env_u e) pargs 0 (Z.to_nat (tf_ebx f))
             end
           else mreturn true) ;;
    if negb ok then mreturn (inr IpcFault)
    else
      u <- in_env (get_uarea (env_u e)) ;;
      in_env (upd_env ei (set_env_allowipc1 XOK_IPC_TEMP_BLOCKED)) ;;
      mreturn (inl (u_entipc1 u)).

Definition ipc2_admit (e : Env) : M sched (Z + ipc_result) :=
  if negb (env_allowipc2 e =? XOK_IPC_ALLOWED) then r <- TRAPRET (- E_IPC_BLOCKED) ;; mreturn (inr r)
  else u <- in_env (get_uarea (env_u e)) ;; mreturn (inl (u_entipc2 u)).

(** From line 169 on: enter environment [ei] at [eip]. *)
Definition ipc_enter (sl cur ei eip : Z) : M sched ipc_result :=
  ce <- in_env (get_env cur) ;;
  e <- in_env (get_env ei) ;;
  f <- gets utf ;;
  in_env (upd_uarea (env_u ce) (fun u => let n := s32 (u_status u - sl) in set_u_status (if n <? 0 then 0 else n) u)) ;;
  in_env (upd_uarea (env_u e) (fun u => set_u_status (s32 (u_status u + 1)) u)) ;;
  modify (sc_utf (tf_with_edi (env_id ce) f)) ;;
  in_env (upd_env cur (fun x => set_env_tf (tf_with_esp (tf_esp f) (env_tf x)) x)) ;;
  in_env (upd_uarea (env_u ce) (set_u_ppc (tf_eip f))) ;;
  in_env (upd_env ei (fun x => set_env_tf (tf_with_eip eip (env_tf x)) x)) ;;
  in_env (modify (set_curenv (Some ei))) ;;
  e <- in_env (get_env ei) ;;
  mreturn (IpcEnter ei (ipc_frame (tf_with_edi (env_id ce) f) (env_tf e))).

Definition ipc (t : trap) : M sched ipc_result :=
  cur <- in_env get_curenv ;;
  ce <- in_env (get_env cur) ;;
  (if is_ipc2 t && (env_allowipc1 ce =? XOK_IPC_TEMP_BLOCKED)
   then in_env (upd_env cur (set_env_allowipc1 XOK_IPC_ALLOWED)) else mreturn tt) ;;
  f <- gets utf ;;
  et <- gets sc_et ;;
  match env_id2env et (tf_edi f) with
  | inr r => TRAPRET r
  | inl ei =>
      e <- in_env (get_env ei) ;;
      if negb (env_status e =? ENV_OK) || (env_u e =? 0) then TRAPRET (- E_BAD_ENV)
      else
        r <- (if is_ipc2 t then ipc2_admit e else ipc1_admit ei e) ;;
        match r with
        | inr x => mreturn x
        | inl eip => ipc_enter (sleeps t) cur ei eip
        end
  end.
End ipc.

Definition sys_set_allowipc1 (value : Z) : M sched unit :=
  c <- gets (fun s => curenv (sc_et s)) ;;
  match c with Some i => in_env (upd_env i (set_env_allowipc1 value)) | None => mreturn tt end.
Definition sys_set_allowipc2 (value : Z) : M sched unit :=
  c <- gets (fun s => curenv (sc_et s)) ;;
  match c with Some i => in_env (upd_env i (set_env_allowipc2 value)) | None => mreturn tt end.

(** [sched_runnext] does not return. *)
Definition fastyield (run_pred : Z -> Z) (env0 : Z) : M sched Z :=
  cur <- in_env get_curenv ;;
  ce <- in_env (get_env cur) ;;
  u <- in_env (get_uarea (env_u ce)) ;;
  in_env (upd_uarea (env_u ce) (set_u_donate (-1))) ;;
  f <- gets utf ;;
  et <- gets sc_et ;;
  match env_id2env et (u32 (u_donate u)) with
  | inr _ => sched_runnext run_pred env0
  | inl ei =>
      e <- in_env (get_env ei) ;;
      if negb (ei =? cur) && negb (env_status e =? ENV_OK) then sched_runnext run_pred env0
      else
        in_env (upd_env cur (fun x => set_env_tf (tf_save f (env_tf x)) x)) ;;
        env_run ei
  end.

(** ** What a trap does *)

Definition allow1 (s : sched) (j : Z) : option Z := env_allowipc1 <$> envs (sc_et s) !! j.

(** [ipc2] lets further [ipc1] calls to its caller in. *)
Definition unblock (t : trap) (cur : Z) (ce : Env) (s : sched) : sched :=
  if is_ipc2 t && (env_allowipc1 ce =? XOK_IPC_TEMP_BLOCKED)
  then sc_env (set_envs (alter (set_env_allowipc1 XOK_IPC_ALLOWED) cur (envs (sc_et s))) (sc_et s)) s else s.

Definition entry (t : trap) (u : Uenv) : Z := if is_ipc2 t then u_entipc2 u else u_entipc1 u.
Definition admits (t : trap) (e : Env) : Prop :=
  if is_ipc2 t then env_allowipc2 e = XOK_IPC_ALLOWED else env_allowipc1 e = XOK_IPC_ALLOWED.

(** What the entered environment sees: the caller's true id, the caller's
    argument registers, its own segments, flags and entry point. *)
Record entered (t : trap) (ce e : Env) (u : Uenv) (f tf : Trapframe) : Prop := mkEntered {
  en_sender : tf_edi tf = env_id ce;
  en_args : tf_eax tf = tf_eax f /\ tf_edx tf = tf_edx f /\ tf_ecx tf = tf_ecx f /\ tf_ebx tf = tf_ebx f /\ tf_esi tf = tf_esi f;
  en_eip : tf_eip tf = entry t u;
  en_own : tf_cs tf = tf_cs (env_tf e) /\ tf_ds tf = tf_ds (env_tf e) /\ tf_es tf = tf_es (env_tf e) /\
           tf_ss tf = tf_ss (env_tf e) /\ tf_eflags tf = tf_eflags (env_tf e) }.

(** The scheduling state and everything about environments that a trap leaves
    alone. *)
Definition same_sched (s s' : sched) : Prop :=
  quantums s' = quantums s /\ qfreelist s' = qfreelist s /\ curq s' = curq s /\ to_list s' = to_list s.

(** The words on the caller's stack that an [ipc1] with arguments passes: they
    are in the u-area of the callee. *)
Definition delivers (umem : Z -> option Z) (f : Trapframe) (l : list Z) : Prop :=
  0 < tf_ebx f -> exists pargs, umem (tf_esp f) = Some pargs /\
    forall j, (j < Z.to_nat (tf_ebx f))%nat -> exists w, umem (u32 (pargs + 4 * Z.of_nat j)) = Some w /\ l !! j = Some w.

Record ipc_post (umem : Z -> option Z) (t : trap) (cur : Z) (ce : Env) (s : sched) (r : ipc_result) (s' : sched) : Prop := mkIpcPost {
  ip_sched : same_sched s s';
  ip_allow : forall j, allow1 s' j =
    match r with
    | IpcEnter ei _ => if negb (is_ipc2 t) && (j =? ei) then Some XOK_IPC_TEMP_BLOCKED else allow1 (unblock t cur ce s) j
    | _ => allow1 (unblock t cur ce s) j
    end;
  ip_result :
    match r with
    | IpcRet v => v < 0 /\ s' = sc_utf (tf_with_eax (u32 v) (utf s)) (unblock t cur ce s)
    | IpcFault => is_ipc2 t = false /\ curenv (sc_et s') = Some cur /\ envs (sc_et s') = envs (sc_et s)
    | IpcEnter ei tf => exists e u, env_id2env (sc_et s) (tf_edi (utf s)) = inl ei /\
        envs (sc_et (unblock t cur ce s)) !! ei = Some e /\ uareas (sc_et s) !! env_u e = Some u /\ env_status e = ENV_OK /\
        admits t e /\ curenv (sc_et s') = Some ei /\ entered t ce e u (utf s) tf /\
        (is_ipc2 t = false -> tf_ebx (utf s) <= U_MAX_EXTRAIPCARGS /\
           (zlen (u_ipc1_extra_args u) = U_MAX_EXTRAIPCARGS ->
            exists u', uareas (sc_et s') !! env_u e = Some u' /\ delivers umem (utf s) (u_ipc1_extra_args u')))
    end }.

Section spec.
Context (umem : Z -> option Z).

(** Copying the arguments only touches one u-area, and there only the
    arguments. *)
Definition args_only (up : Z) (s s' : sched) : Prop :=
  exists ua, s' = sc_env (set_uareas ua (sc_et s)) s /\
    (forall p, p <> up -> ua !! p = uareas (sc_et s) !! p) /\
    forall u, uareas (sc_et s) !! up = Some u -> exists l, ua !! up = Some (set_u_extra l u).

Lemma args_only_refl up s : args_only up s s.
Proof.
  exists (uareas (sc_et s)). split_and!; [by destruct s as [[]]|done|]. intros u Hu. exists (u_ipc1_extra_args u). rewrite Hu. by destruct u.
Qed.

(** Words [i .. i + n - 1] of the array at [a] are in [l'], the others as in [l]. *)
Definition copied (a : Z) (i n : nat) (l l' : list Z) : Prop :=
  length l' = length l /\ (forall j, (j < i)%nat -> l' !! j = l !! j) /\
  forall j, (i <= j < i + n)%nat -> (j < length l)%nat -> exists w, umem (u32 (a + 4 * Z.of_nat j)) = Some w /\ l' !! j = Some w.

Lemma copied_step a i n w l l' :
  umem (u32 (a + 4 * Z.of_nat i)) = Some w -> copied a (S i) n (<[i := w]> l) l' -> copied a i (S n) l l'.
Proof.
  intros Hw (Hl & Hb & Hc). rewrite length_insert in *. split_and!; [done| |].
  - intros j Hj. rewrite Hb by lia. apply list_lookup_insert_ne. lia.
  - intros j Hj Hlen. destruct (decide (j = i)) as [->|Hne]; [|apply Hc; lia]. exists w. split; [done|].
    rewrite Hb by lia. by apply list_lookup_insert_eq.
Qed.

Lemma copy_args_run up a i n s : wp (copy_args umem up a i n) s (fun b s' => args_only up s s' /\
  (b = true -> forall u, uareas (sc_et s) !! up = Some u -> exists u', uareas (sc_et s') !! up = Some u' /\
     copied a i n (u_ipc1_extra_args u) (u_ipc1_extra_args u'))).
Proof.
  revert i s. induction n as [|n IH]; intros i s; cbn [copy_args].
  { apply wp_ret. split; [apply args_only_refl|]. intros _ u Hu. exists u. split; [done|]. split_and!; [done..|]. intros j Hj. lia. }
  destruct (umem _) as [w|] eqn:Hw; [|apply wp_ret; split; [apply args_only_refl|done]].
  apply wp_bind, wp_in_env, wp_modify. eapply wp_mono; [apply IH|]. intros b s' [(ua & -> & Ho & Hu) Hcp]. split; [exists ua; split_and!|].
  - by destruct s as [[]].
  - intros p Hp. rewrite Ho by done. cbn. by rewrite lookup_alter_ne.
  - intros u Hup. destruct (Hu (set_u_extra (<[i := w]> (u_ipc1_extra_args u)) u)) as [l Hl]; [cbn; by rewrite lookup_alter_eq, Hup|].
    exists l. rewrite Hl. by destruct u.
  - intros Hb u Hup. destruct (Hcp Hb (set_u_extra (<[i := w]> (u_ipc1_extra_args u)) u)) as (u' & Hu' & Hc'); [cbn; by rewrite lookup_alter_eq, Hup|].
    exists u'. split; [exact Hu'|]. by eapply copied_step.
Qed.

(** Changing the saved frames of environments keeps the rest of them. *)
Definition frames_only (m m' : gmap Z Env) : Prop :=
  forall j, match m !! j, m' !! j with
            | Some e, Some e' => exists f, e' = set_env_tf f e
            | None, None => True
            | _, _ => False
            end.

Lemma frames_only_alter m i g : frames_only m (alter (fun x => set_env_tf (g (env_tf x)) x) i m).
Proof.
  intros j. destruct (decide (i = j)) as [<-|].
  - rewrite lookup_alter_eq. destruct (m !! i); cbn; [eauto|done].
  - rewrite lookup_alter_ne by done. destruct (m !! j) as [e|]; [|done]. exists (env_tf e). by destruct e.
Qed.

Lemma frames_only_trans m1 m2 m3 : frames_only m1 m2 -> frames_only m2 m3 -> frames_only m1 m3.
Proof.
  intros H1 H2 j. specialize (H1 j). specialize (H2 j). destruct (m1 !! j), (m2 !! j), (m3 !! j); try done.
  destruct H1 as [f ->], H2 as [f' ->]. by exists f'.
Qed.

Lemma frames_only_allow1 s s' : frames_only (envs (sc_et s)) (envs (sc_et s')) -> forall j, allow1 s' j = allow1 s j.
Proof.
  intros H j. specialize (H j). unfold allow1. destruct (envs (sc_et s) !! j), (envs (sc_et s') !! j); try done.
  by destruct H as [f ->].
Qed.

Lemma extra_alter (m : gmap Z Uenv) i q f : (forall u, u_ipc1_extra_args (f u) = u_ipc1_extra_args u) ->
  u_ipc1_extra_args <$> alter f i m !! q = u_ipc1_extra_args <$> m !! q.
Proof.
  intros Hf. destruct (decide (i = q)) as [<-|]; [|by rewrite lookup_alter_ne]. rewrite lookup_alter_eq. destruct (m !! i); cbn; by rewrite ?Hf.
Qed.

Lemma ipc_enter_run t sl cur ce ei e u s :
  envs (sc_et s) !! cur = Some ce -> envs (sc_et s) !! ei = Some e ->
  wp (ipc_enter sl cur ei (entry t u)) s (fun r s' => exists tf, r = IpcEnter ei tf /\ same_sched s s' /\
    (forall j, allow1 s' j = allow1 s j) /\ curenv (sc_et s') = Some ei /\ entered t ce e u (utf s) tf /\
    forall q, u_ipc1_extra_args <$> uareas (sc_et s') !! q = u_ipc1_extra_args <$> uareas (sc_et s) !! q).
Proof.
  intros Hc He. unfold ipc_enter. sc_steps. apply wp_in_env, wp_modify, wp_bind, wp_in_get_env. cbn.
  assert (exists e', alter (fun x => set_env_tf (tf_with_eip (entry t u) (env_tf x)) x) ei
     (alter (fun x => set_env_tf (tf_with_esp (tf_esp (utf s)) (env_tf x)) x) cur (envs (sc_et s))) !! ei = Some e' /\
     tf_eip (env_tf e') = entry t u /\ tf_cs (env_tf e') = tf_cs (env_tf e) /\ tf_ds (env_tf e') = tf_ds (env_tf e) /\
     tf_es (env_tf e') = tf_es (env_tf e) /\ tf_ss (env_tf e') = tf_ss (env_tf e) /\ tf_eflags (env_tf e') = tf_eflags (env_tf e))
    as (e' & He' & Hf).
  { rewrite lookup_alter_eq. destruct (decide (cur = ei)) as [->|].
    - rewrite lookup_alter_eq, He. eexists. done.
    - rewrite lookup_alter_ne, He by done. eexists. done. }
  exists e'. split; [done|]. eexists. split; [done|]. split; [done|]. split.
  - apply frames_only_allow1. cbn. eapply frames_only_trans; apply frames_only_alter.
  - split; [done|]. split; [destruct Hf as (? & ? & ? & ? & ? & ?); by split|]. intros q. cbn. by rewrite !extra_alter.
Qed.

Lemma TRAPRET_run v s (Q : ipc_result -> sched -> Prop) :
  Q (IpcRet v) (sc_utf (tf_with_eax (u32 v) (utf s)) s) -> wp (TRAPRET v) s Q.
Proof. done. Qed.

(** The first case of the switch. *)
Lemma ipc1_admit_run ei e u s :
  envs (sc_et s) !! ei = Some e -> uareas (sc_et s) !! env_u e = Some u ->
  wp (ipc1_admit umem ei e) s (fun r s' =>
    match r with
    | inr (IpcRet v) => v < 0 /\ s' = sc_utf (tf_with_eax (u32 v) (utf s)) s
    | inr IpcFault => same_sched s s' /\ curenv (sc_et s') = curenv (sc_et s) /\ envs (sc_et s') = envs (sc_et s)
    | inr (IpcEnter _ _) => False
    | inl eip => eip = u_entipc1 u /\ env_allowipc1 e = XOK_IPC_ALLOWED /\ tf_ebx (utf s) <= U_MAX_EXTRAIPCARGS /\
        same_sched s s' /\ utf s' = utf s /\ envs (sc_et s') = alter (set_env_allowipc1 XOK_IPC_TEMP_BLOCKED) ei (envs (sc_et s)) /\
        exists u', uareas (sc_et s') !! env_u e = Some u' /\
          (zlen (u_ipc1_extra_args u) = U_MAX_EXTRAIPCARGS -> delivers umem (utf s) (u_ipc1_extra_args u'))
    end).
Proof.
  intros He Hu. unfold ipc1_admit. sc_steps. destruct (Z.eqb_spec (env_allowipc1 e) XOK_IPC_ALLOWED) as [Ha|]; cbn [negb].
  2: { sc_steps. apply TRAPRET_run. sc_steps. split; [elia|done]. }
  destruct (Z.ltb_spec U_MAX_EXTRAIPCARGS (tf_ebx (utf s))).
  { sc_steps. apply TRAPRET_run. sc_steps. split; [elia|done]. }
  sc_steps. eapply wp_mono with (fun ok s' => args_only (env_u e) s s' /\ (ok = true -> exists u', uareas (sc_et s') !! env_u e = Some u' /\
      (zlen (u_ipc1_extra_args u) = U_MAX_EXTRAIPCARGS -> delivers umem (utf s) (u_ipc1_extra_args u')))).
  { destruct (Z.ltb_spec 0 (tf_ebx (utf s))) as [H0|H0].
    2: { sc_steps. split; [apply args_only_refl|]. intros _. exists u. split; [done|]. intros _ ?. lia. }
    destruct (umem _) as [a|] eqn:Ha'; [|sc_steps; split; [apply args_only_refl|done]].
    eapply wp_mono; [apply copy_args_run|]. intros ok s' [Ho Hc]. split; [done|]. intros Hok. destruct (Hc Hok u Hu) as (u' & Hu' & _ & _ & Hcp).
    exists u'. split; [done|]. intros Hlen _. exists a. split; [done|]. intros j Hj. apply Hcp; [lia|]. unfold zlen, U_MAX_EXTRAIPCARGS in *. lia. }
  intros ok s1 [(ua & -> & Ho & Hua) Hcp]. destruct ok; cbn [negb]; sc_steps; [|done].
  destruct (Hua u Hu) as [l Hl]. apply wp_in_get_uarea. cbn. exists (set_u_extra l u). split; [done|]. sc_steps.
  destruct (Hcp eq_refl) as (u' & Hu' & Hd). split_and!; try done. by exists u'.
Qed.

Lemma unblock_fields t cur ce s :
  uareas (sc_et (unblock t cur ce s)) = uareas (sc_et s) /\ curenv (sc_et (unblock t cur ce s)) = curenv (sc_et s) /\
  utf (unblock t cur ce s) = utf s /\ same_sched s (unblock t cur ce s) /\
  (is_ipc2 t = false -> unblock t cur ce s = s).
Proof. unfold unblock. destruct (is_ipc2 t), (env_allowipc1 ce =? _); cbn; split_and!; done. Qed.

Lemma unblock_id2env t cur ce s envid : env_id2env (sc_et (unblock t cur ce s)) envid = env_id2env (sc_et s) envid.
Proof.
  unfold unblock. destruct (_ && _); [|done]. apply env_id2env_alike; [|done]. by apply alike_upd_env.
Qed.

Lemma env_id2env_neg et envid r : env_id2env et envid = inr r -> r < 0.
Proof. unfold env_id2env. repeat case_match; intros [= <-]; elia. Qed.

Lemma ipc_spec t cur ce s :
  curenv (sc_et s) = Some cur -> envs (sc_et s) !! cur = Some ce -> uareas_ok (sc_et s) ->
  wp (ipc umem t) s (ipc_post umem t cur ce s).
Proof.
  intros Hcur Hce Hua. unfold ipc. sc_steps.
  eapply wp_mono with (fun _ s1 => s1 = unblock t cur ce s).
  { unfold unblock. destruct (_ && _); by sc_steps. }
  intros [] s1 ->. sc_steps. rewrite unblock_id2env. destruct (unblock_fields t cur ce s) as (Eu & Ec & Ef & Hsame & Hnop).
  set (s1 := unblock t cur ce s) in *. rewrite Ef.
  assert (forall v, v < 0 -> ipc_post umem t cur ce s (IpcRet v) (sc_utf (tf_with_eax (u32 v) (utf s)) s1)) as Hret.
  { intros v Hv. split; [exact Hsame|done|done]. }
  destruct (env_id2env (sc_et s) (tf_edi (utf s))) as [ei|r] eqn:Hid.
  2: { apply TRAPRET_run. rewrite Ef. apply Hret. by eapply env_id2env_neg. }
  assert (exists e, envs (sc_et s1) !! ei = Some e) as [e He].
  { pose proof (unblock_id2env t cur ce s (tf_edi (utf s))) as E. rewrite Hid in E. apply env_id2env_inl in E as (-> & e & He & _). eauto. }
  sc_steps. destruct (Z.eqb_spec (env_status e) ENV_OK) as [Hst|], (Z.eqb_spec (env_u e) 0) as [|Hu0]; cbn [negb orb];
    try (apply TRAPRET_run; rewrite Ef; apply Hret; elia).
  assert (uareas_ok (sc_et s1)) as Hua1.
  { unfold s1, unblock. destruct (_ && _); [|done]. eapply alike_uareas_ok; [|exact Hua]. by apply alike_upd_env. }
  destruct (Hua1 ei e He Hu0) as [u Hu].
  assert (exists ce1, envs (sc_et s1) !! cur = Some ce1 /\ env_id ce1 = env_id ce) as (ce1 & Hce1 & Eid).
  { unfold s1, unblock. destruct (_ && _); cbn; [|eauto]. rewrite lookup_alter_eq, Hce. eexists. done. }
  apply wp_bind. destruct (is_ipc2 t) eqn:Et.
  - unfold ipc2_admit. destruct (Z.eqb_spec (env_allowipc2 e) XOK_IPC_ALLOWED) as [Ha|]; cbn [negb].
    2: { sc_steps. apply TRAPRET_run. sc_steps. rewrite Ef. apply Hret. elia. }
    sc_steps. pose proof (ipc_enter_run t (sleeps t) cur ce1 ei e u s1 Hce1 He) as Hen. unfold entry at 1 in Hen. rewrite Et in Hen.
    eapply wp_mono; [exact Hen|]. intros r s' (tf & -> & Hs' & Hal & Hc' & Hent & _). split.
    + destruct Hsame as (? & ? & ? & ?), Hs' as (? & ? & ? & ?). repeat split; congruence.
    + intros j. rewrite Et. cbn. apply Hal.
    + exists e, u. rewrite Eu in Hu. split_and!; try done; [by unfold admits; rewrite Et| |by rewrite Et].
      rewrite Ef in Hent. destruct Hent. split; [congruence|done..].
  - pose proof (Hnop eq_refl) as E1. eapply wp_mono; [by apply ipc1_admit_run|]. intros [eip|[v| |]] s2 Hr.
    + destruct Hr as (-> & Ha & Hb & Hs2 & Ef2 & Ee2 & u2 & Hu2 & Hd2).
      assert (envs (sc_et s2) !! ei = Some (set_env_allowipc1 XOK_IPC_TEMP_BLOCKED e)) as He2 by (by rewrite Ee2, lookup_alter_eq, He).
      assert (exists ce2, envs (sc_et s2) !! cur = Some ce2 /\ env_id ce2 = env_id ce) as (ce2 & Hce2 & Eid2).
      { rewrite Ee2. destruct (decide (ei = cur)) as [->|]; [rewrite lookup_alter_eq, Hce1; eexists; split; [done|]; cbn; done|].
        rewrite lookup_alter_ne by done. eauto. }
      pose proof (ipc_enter_run t (sleeps t) cur ce2 ei _ u s2 Hce2 He2) as Hen. unfold entry at 1 in Hen. rewrite Et in Hen.
      eapply wp_mono; [exact Hen|]. intros r s' (tf & -> & Hs' & Hal & Hc' & Hent & Hex). split.
      * destruct Hsame as (? & ? & ? & ?), Hs' as (? & ? & ? & ?), Hs2 as (? & ? & ? & ?). repeat split; congruence.
      * intros j. rewrite Hal, Et. cbn. unfold allow1. fold s1. rewrite Ee2. destruct (Z.eqb_spec j ei) as [->|].
        -- by rewrite lookup_alter_eq, He.
        -- by rewrite lookup_alter_ne.
      * exists e, u. rewrite Eu in Hu. rewrite Ef in Hb, Hd2. split_and!; try done; [by unfold admits; rewrite Et| |].
        -- rewrite Ef2, Ef in Hent. destruct Hent. split; [congruence|done..].
        -- intros _. split; [done|]. intros Hlen. specialize (Hex (env_u e)). rewrite Hu2 in Hex. cbn in Hex.
           destruct (uareas (sc_et s') !! env_u e) as [u'|]; [|done]. exists u'. split; [done|]. injection Hex as ->. by apply Hd2.
    + destruct Hr as [Hv ->]. apply wp_ret. rewrite Ef. by apply Hret.
    + destruct Hr as (Hs2 & Ec2 & Ee2). apply wp_ret. rewrite E1 in *. split; [done| |rewrite Ec2, Hcur; done].
      intros j. unfold allow1. fold s1. rewrite E1. by rewrite Ee2.
    + done.
Qed.
End spec.

(** ** One caller at a time

    A run of the system as far as [ipc1] is concerned: traps, changes of the
    field by its owner, [sys_wrenv], with which whoever has every right over an
    environment may write the field, and anything else, which may close an
    environment to [ipc1] but not open it: no other code of the kernel writes
    the field but [env_alloc], which closes a new environment. *)

Inductive event :=
  | Entered1 (e : Z)     (* an [ipc1] into [e] *)
  | Unblocked (e : Z)    (* [e] itself let the next one in *)
  | Written (e : Z).     (* [sys_wrenv] wrote the fields of [e] *)

(** The calls that may open [e]. *)
Definition opens (e : Z) (x : event) : Prop := x = Unblocked e \/ x = Written e.

#[export] Instance event_eq_dec : EqDecision event.
Proof. solve_decision. Defined.

Definition ipc_events (t : trap) (cur : Z) (r : ipc_result) : list event :=
  (if is_ipc2 t then [Unblocked cur] else []) ++
  match r with IpcEnter ei _ => if is_ipc2 t then [] else [Entered1 ei] | _ => [] end.

Inductive ipc_step : sched -> list event -> sched -> Prop :=
  | step_ipc umem t cur ce s r s' :
      curenv (sc_et s) = Some cur -> envs (sc_et s) !! cur = Some ce -> uareas_ok (sc_et s) ->
      ipc umem t s = Ret r s' -> ipc_step s (ipc_events t cur r) s'
  | step_allow v cur s s' :
      curenv (sc_et s) = Some cur -> sys_set_allowipc1 v s = Ret tt s' -> ipc_step s [Unblocked cur] s'
  | step_wrenv h k envid ue i s r et :
      env_id2env (sc_et s) envid = inl i -> sys_wrenv h k envid ue (sc_et s) = Ret r et -> ipc_step s [Written i] (sc_env et s)
  | step_other s s' :
      (forall j, allow1 s' j = Some XOK_IPC_ALLOWED -> allow1 s j = Some XOK_IPC_ALLOWED) -> ipc_step s [] s'.

Inductive ipc_run : sched -> list event -> sched -> Prop :=
  | run_nil s : ipc_run s [] s
  | run_step s l s1 l' s2 : ipc_step s l s1 -> ipc_run s1 l' s2 -> ipc_run s (l ++ l') s2.

(** Environment [e] is closed to [ipc1]. *)
Definition closed (e : Z) (s : sched) : Prop := allow1 s e <> Some XOK_IPC_ALLOWED.

Lemma unblock_allow1 t cur ce s j :
  is_ipc2 t = false \/ j <> cur -> allow1 (unblock t cur ce s) j = allow1 s j.
Proof.
  intros H. unfold unblock. destruct (is_ipc2 t) eqn:E; cbn; [|done]. destruct H as [?|Hj]; [done|].
  destruct (_ =? _); [|done]. unfold allow1. cbn. by rewrite lookup_alter_ne by congruence.
Qed.

(** [sys_wrenv] writes one environment at most. *)
Lemma wrenv_allow1 h k envid ue i s r et j :
  env_id2env (sc_et s) envid = inl i -> sys_wrenv h k envid ue (sc_et s) = Ret r et -> j <> i -> allow1 (sc_env et s) j = allow1 s j.
Proof.
  intros Hi E Hj. unfold sys_wrenv, mbind_ in E. destruct (env_access h k envid ACL_ALL (sc_et s)) as [r0 s0|] eqn:E0; [|done].
  apply env_access_ret in E0 as [-> Hr0]. destruct r0 as [i'|]; [|by injection E as <- <-].
  destruct (Hr0 i' eq_refl) as (_ & _ & _ & _ & _ & _ & _ & Hi' & _). assert (i' = i) as -> by congruence. injection E as <- <-.
  unfold allow1. cbn. by rewrite lookup_alter_ne.
Qed.

(** A step from a closed environment: it stays closed and is not entered unless
    it opens itself or is written. *)
Lemma closed_step e s l s' :
  closed e s -> ipc_step s l s' -> (forall x, x ∈ l -> ~ opens e x) -> closed e s' /\ (Entered1 e ∉ l).
Proof.
  intros Hc Hs Hn'. assert (Unblocked e ∉ l) as Hn by (intros H; by apply (Hn' _ H); left).
  destruct Hs as [umem t cur ce s r s' Hcur Hce Hua E|v cur s s' Hcur E|h k envid ue i s r et Hi E|s s' Hother].
  - pose proof (wp_run _ _ _ _ _ (ipc_spec umem t cur ce s Hcur Hce Hua) E) as [_ Hal Hres]. unfold ipc_events in *.
    assert (is_ipc2 t = false \/ e <> cur) as Hne by (destruct (is_ipc2 t); [right; set_solver|by left]).
    pose proof (unblock_allow1 t cur ce s e Hne) as Hun. unfold closed. rewrite Hal. destruct r as [v| |ei tf].
    + rewrite Hun. split; [done|]. destruct (is_ipc2 t); set_solver.
    + rewrite Hun. split; [done|]. destruct (is_ipc2 t); set_solver.
    + destruct Hres as (x & u & _ & Hx & _ & _ & Hadm & _). unfold admits in Hadm. destruct (is_ipc2 t) eqn:Et; cbn.
      * rewrite Hun. split; [done|set_solver].
      * destruct (Z.eqb_spec e ei) as [->|Hei].
        -- exfalso. apply Hc. rewrite <- Hun. unfold allow1. rewrite Hx. cbn. by rewrite Hadm.
        -- rewrite Hun. split; [done|set_solver].
  - unfold sys_set_allowipc1, mbind_, gets in E. rewrite Hcur in E. injection E as <-.
    split; [|set_solver]. unfold closed, allow1 in *. cbn. rewrite lookup_alter_ne; [done|set_solver].
  - assert (e <> i) as Hei by (intros ->; apply (Hn' (Written i)); [left|by right]).
    split; [|set_solver]. unfold closed. by rewrite (wrenv_allow1 h k envid ue i s r et).
  - split; [|set_solver]. intros Ha. by apply Hc, Hother.
Qed.

Lemma step_events s l s' : ipc_step s l s' -> l = [] \/ exists x, l = [x].
Proof.
  destruct 1 as [umem t cur ce s r s' _ _ _ _| | |]; [|by eauto..]. unfold ipc_events. destruct (is_ipc2 t), r; eauto.
Qed.

Lemma closed_run e s l s' :
  ipc_run s l s' -> closed e s -> forall mid post, l = mid ++ Entered1 e :: post -> exists x, x ∈ mid /\ opens e x.
Proof.
  induction 1 as [s|s l s1 l' s2 Hs Hr IH]; intros Hc mid post Eq; [by destruct mid|].
  destruct (step_events _ _ _ Hs) as [->|[x ->]].
  - apply (IH (proj1 (closed_step e _ _ _ Hc Hs ltac:(set_solver))) mid post Eq).
  - destruct mid as [|y mid]; cbn in Eq.
    + injection Eq as -> Eq. destruct (closed_step e _ _ _ Hc Hs) as [_ []]; [|set_solver].
      intros y ->%list_elem_of_singleton [?|?]; done.
    + injection Eq as <- Eq. destruct (decide (x = Unblocked e \/ x = Written e)) as [Ho|Hne]; [exists x; split; [left|exact Ho]|].
      destruct (IH) with mid post as (z & Hz & Hoz); [|exact Eq|exists z; split; [by right|done]].
      apply (closed_step e _ _ _ Hc Hs). intros z ->%list_elem_of_singleton. exact Hne.
Qed.

Lemma entered_closes e s l s' : ipc_step s l s' -> Entered1 e ∈ l -> l = [Entered1 e] /\ closed e s'.
Proof.
  destruct 1 as [umem t cur ce s r s' Hcur Hce Hua E|v cur s s' Hcur E|h k envid ue i s r et Hi E|s s' Hother]; intros Hin; [|set_solver..].
  pose proof (wp_run _ _ _ _ _ (ipc_spec umem t cur ce s Hcur Hce Hua) E) as [_ Hal _].
  unfold ipc_events in *. destruct r as [v| |ei tf], (is_ipc2 t) eqn:Et; cbn in *; try set_solver.
  apply list_elem_of_singleton in Hin. injection Hin as <-. split; [done|]. unfold closed. rewrite Hal, Z.eqb_refl. done.
Qed.

Lemma run_entered e s l s' :
  ipc_run s l s' -> forall pre mid post, l = pre ++ Entered1 e :: mid ++ Entered1 e :: post -> exists x, x ∈ mid /\ opens e x.
Proof.
  induction 1 as [s|s l s1 l' s2 Hs Hr IH]; intros pre mid post Eq; [by destruct pre|].
  destruct (step_events _ _ _ Hs) as [->|[x ->]]; [by eapply IH|].
  destruct pre as [|y pre]; cbn in Eq; injection Eq as Ex Eq; [|by eapply IH].
  subst x. destruct (entered_closes e s _ s1 Hs ltac:(set_solver)) as [_ Hc]. by eapply closed_run.
Qed.

(** ** Theorems *)

(** C14: the IPC traps never stop on a table whose u-areas are resident.  A trap
    that is refused puts a negative code in the caller's [eax] and changes
    nothing else, but that an [ipc2], refused or not, opens its caller to [ipc1]
    again when an [ipc1] had closed it.  If the caller's stack cannot be read,
    the trap ends in a fault and no environment changes.  A trap that is
    accepted goes to the named environment, which is live and open to that kind
    of call, entered at its own entry point with its own segment registers and
    flags, the caller's argument registers and, in [edi], the caller's true id;
    an [ipc1] has at most 16 further arguments, which are read from the caller's
    stack into the callee's u-area. *)
Theorem ipc_transfers umem t cur ce s :
  curenv (sc_et s) = Some cur -> envs (sc_et s) !! cur = Some ce -> uareas_ok (sc_et s) ->
  wp (ipc umem t) s (ipc_post umem t cur ce s).
Proof. apply ipc_spec. Qed.

(** C32: [ipc1] calls are served one at a time: in any run of traps, of
    [sys_set_allowipc1] and [sys_wrenv] calls and of other steps that open no
    environment (a new one is created closed), between two entries by [ipc1] into
    the same environment it has itself made an [ipc2] or set its flag again, or
    [sys_wrenv] has written its fields. *)
Theorem ipc1_exclusive e s pre mid post s' :
  ipc_run s (pre ++ Entered1 e :: mid ++ Entered1 e :: post) s' -> exists x, x ∈ mid /\ opens e x.
Proof. intros H. by eapply run_entered. Qed.

(** ** Witnesses *)

Definition ua_resident (et : envtab) : bool :=
  forallb (fun x => (env_u (snd x) =? 0) || bool_decide (is_Some (uareas et !! env_u (snd x)))) (map_to_list (envs et)).

Lemma ua_resident_ok et : ua_resident et = true -> uareas_ok et.
Proof.
  intros H i e He Hu. unfold ua_resident in H. rewrite forallb_forall in H. specialize (H (i, e)).
  rewrite <- list_elem_of_In, elem_of_map_to_list in H. specialize (H He). cbn in H.
  apply orb_true_iff in H as [H%Z.eqb_eq|H%bool_decide_eq_true]; done.
Qed.

(** Environment 2049 (slot 1) calls 4098 (slot 2), which is open to [ipc1] and
    answers with an [ipc2]. *)
Definition ex_open (e : Env) : Env := set_env_allowipc1 XOK_IPC_ALLOWED (set_env_allowipc2 XOK_IPC_ALLOWED e).
Definition ex_call : sched :=
  sc_utf (tf_with_edi 4098 tf_zero) (sc_env (set_envs (ex_open <$> envs ex_et) ex_et) ex_sched0).
Definition no_args (_ : Z) : option Z := None.
Definition after (m : M sched ipc_result) (s : sched) : sched := default s (ret_state (m s)).
Definition ex_called : sched := after (ipc no_args T_IPC1) ex_call.
Definition ex_answered : sched := after (ipc no_args T_IPC2) ex_called.
Definition ex_again : sched := sc_utf (tf_with_edi 4098 tf_zero) ex_answered.

Definition enters (i : Z) (r : outcome sched ipc_result) : bool :=
  match r with Ret (IpcEnter j _) _ => i =? j | _ => false end.

Lemma enters_after i m s : enters i (m s) = true -> exists tf, m s = Ret (IpcEnter i tf) (after m s).
Proof.
  unfold after. destruct (m s) as [[| |j tf] s'|]; cbn; try done. intros ->%Z.eqb_eq. by exists tf.
Qed.

Lemma ex_call_ua : uareas_ok (sc_et ex_call).
Proof. apply ua_resident_ok. vm_compute. reflexivity. Qed.
Lemma ex_called_ua : uareas_ok (sc_et ex_called).
Proof. apply ua_resident_ok. vm_compute. reflexivity. Qed.
Lemma ex_again_ua : uareas_ok (sc_et ex_again).
Proof. apply ua_resident_ok. vm_compute. reflexivity. Qed.

Lemma ex_call_enters : enters 2 (ipc no_args T_IPC1 ex_call) = true.
Proof. vm_compute. reflexivity. Qed.
Lemma ex_called_enters : enters 1 (ipc no_args T_IPC2 ex_called) = true.
Proof. vm_compute. reflexivity. Qed.
Lemma ex_again_enters : enters 2 (ipc no_args T_IPC1 ex_again) = true.
Proof. vm_compute. reflexivity. Qed.

Definition ex_caller : Env := ex_open (ex_env 2049 50 [ex_root; ex_disk]).

Lemma ex_call_caller : curenv (sc_et ex_call) = Some 1 /\ envs (sc_et ex_call) !! 1 = Some ex_caller.
Proof. split; vm_compute; reflexivity. Qed.

(** The same call with two arguments on the caller's stack. *)
Definition ex_args : sched :=
  sc_utf (mkTf 4098 0 0 0 2 0 0 0 0 0 0 0 0 100 0)
    (sc_env (set_uareas (set_u_extra (repeat 0 16) <$> uareas (sc_et ex_call)) (sc_et ex_call)) ex_call).
Definition two_args (a : Z) : option Z := if a =? 100 then Some 200 else if a =? 200 then Some 7 else if a =? 204 then Some 9 else None.

Lemma ex_args_ua : uareas_ok (sc_et ex_args).
Proof. apply ua_resident_ok. vm_compute. reflexivity. Qed.
Lemma ex_args_enters : enters 2 (ipc two_args T_IPC1 ex_args) = true.
Proof. vm_compute. reflexivity. Qed.
Lemma ex_args_caller : curenv (sc_et ex_args) = Some 1 /\ envs (sc_et ex_args) !! 1 = Some ex_caller.
Proof. split; vm_compute; reflexivity. Qed.
Lemma ex_args_room p u : uareas (sc_et ex_args) !! p = Some u -> zlen (u_ipc1_extra_args u) = U_MAX_EXTRAIPCARGS.
Proof.
  unfold ex_args. cbn [sc_et sc_utf sc_env set_uareas uareas]. rewrite lookup_fmap. destruct (_ !! p); [|done]. intros [= <-]. reflexivity.
Qed.

Lemma ipc_transfers_witness :
  exists tf s', ipc two_args T_IPC1 ex_args = Ret (IpcEnter 2 tf) s' /\ tf_edi tf = 2049 /\
    exists p u, uareas (sc_et s') !! p = Some u /\ take 2 (u_ipc1_extra_args u) = [7; 9].
Proof.
  destruct (enters_after 2 _ _ ex_args_enters) as [tf E]. eexists tf, _. split; [exact E|].
  pose proof (wp_run _ _ _ _ _ (ipc_transfers two_args T_IPC1 1 ex_caller ex_args
    (proj1 ex_args_caller) (proj2 ex_args_caller) ex_args_ua) E) as H.
  destruct (ip_result _ _ _ _ _ _ _ H) as (e & u & _ & _ & Hu & _ & _ & _ & Hen & Hd). split; [rewrite (en_sender _ _ _ _ _ _ Hen); reflexivity|].
  destruct (Hd eq_refl) as [_ Hd']. destruct (Hd' (ex_args_room _ _ Hu)) as (u' & Hu' & Hw). exists (env_u e), u'. split; [exact Hu'|].
  destruct (Hw ltac:(reflexivity)) as (a & Ea & Hj). injection Ea as <-.
  destruct (Hj 0%nat ltac:(vm_compute; lia)) as (w0 & E0 & H0). destruct (Hj 1%nat ltac:(vm_compute; lia)) as (w1 & E1 & H1).
  injection E0 as <-. injection E1 as <-. destruct (u_ipc1_extra_args u') as [|x [|y l]]; try discriminate H0; try discriminate H1.
  injection H0 as ->. injection H1 as ->. reflexivity.
Defined.

(** The environments at the second and third trap. *)
Definition env_at (s : sched) (i : Z) : Env := default env_zero (envs (sc_et s) !! i).

Lemma ex_called_caller : curenv (sc_et ex_called) = Some 2 /\ envs (sc_et ex_called) !! 2 = Some (env_at ex_called 2).
Proof. split; vm_compute; reflexivity. Qed.
Lemma ex_again_caller : curenv (sc_et ex_again) = Some 1 /\ envs (sc_et ex_again) !! 1 = Some (env_at ex_again 1).
Proof. split; vm_compute; reflexivity. Qed.

Lemma ex_ipc_run : exists s', ipc_run ex_call ([] ++ Entered1 2 :: [Unblocked 2] ++ Entered1 2 :: []) s'.
Proof.
  destruct (enters_after 2 _ _ ex_call_enters) as [tf1 E1]. destruct (enters_after 1 _ _ ex_called_enters) as [tf2 E2].
  destruct (enters_after 2 _ _ ex_again_enters) as [tf3 E3]. exists (after (ipc no_args T_IPC1) ex_again).
  eapply (run_step _ [Entered1 2]); [exact (step_ipc no_args T_IPC1 1 _ _ _ _ (proj1 ex_call_caller) (proj2 ex_call_caller) ex_call_ua E1)|].
  eapply (run_step _ [Unblocked 2]); [exact (step_ipc no_args T_IPC2 2 _ _ _ _ (proj1 ex_called_caller) (proj2 ex_called_caller) ex_called_ua E2)|].
  eapply (run_step _ [] ex_again); [by apply step_other|].
  eapply (run_step _ [Entered1 2]); [exact (step_ipc no_args T_IPC1 1 _ _ _ _ (proj1 ex_again_caller) (proj2 ex_again_caller) ex_again_ua E3)|].
  apply run_nil.
Qed.

(** The run is one of traps that return, and in it the second entry into slot 2
    comes after that environment's [ipc2]. *)
Lemma ipc1_exclusive_witness : exists s' mid, ipc_run ex_call (Entered1 2 :: mid ++ [Entered1 2]) s' /\
  allow1 ex_called 2 = Some XOK_IPC_TEMP_BLOCKED /\ exists x, x ∈ mid /\ opens 2 x.
Proof.
  destruct ex_ipc_run as [s' H]. exists s', [Unblocked 2]. split; [exact H|]. split; [vm_compute; reflexivity|].
  exact (ipc1_exclusive 2 ex_call [] [Unblocked 2] [] s' H).
Defined.
