(* ===== verification/PageTable.v ===== *)
(** * Address spaces

    The page directories and page tables of the environments
    ([struct EnvPD], sys/xok/env.h), the records of who maps a page
    ([struct Vpage], sys/xok/vpage.h), and the routines of sys/kern/pmap.c that
    install and remove a translation: [pde_check_n_alloc], [ppage_insert],
    [ppage_remove].  The invariant [vm_ok] ties the tables to the page pool:
    counts of mappings, and no user translation of a page the kernel uses. *)

From Stdlib Require Import ZArith Lia.
From stdpp Require Import base numbers option list gmap.
From S2P Require Import Prelude Capability EnvTable PageState PageAlloc.

Definition NR_CPUS := 16.

(** Per-CPU arrays are maps from the CPU number, 0 where absent; so are the
    directories, from the index of the entry.  [envpd_pdir !! r] is the
    directory page that [envpd_pdir[r]] points at. *)
Record EnvPD := mkPD {
  envpd_id : Z;
  envpd_cr3 : gmap Z Z;
  envpd_pdir : gmap Z (gmap Z Z);
  envpd_nptes : gmap Z Z;
  envpd_rc : Z;
  envpd_active : Z }.

Record Vpage := mkVp { vp_env : Z; vp_va : Z }.

(** [vm_pts] is the memory of the page-table pages, a word for each page number
    and index (a word that is absent is 0: tables are cleared when they are
    allocated).  [vm_pds] and [vm_vps] hold the kernel heap objects at their
    addresses, [vm_heap] the extension arrays of access lists.  [vm_flush] is
    the list of addresses given to [invlpg], the latest first. *)
Record vm := mkVm {
  vm_pool : pool;
  vm_et : envtab;
  vm_pds : gmap Z EnvPD;
  vm_pts : gmap (Z * Z) Z;
  vm_vps : gmap Z Vpage;
  vm_heap : aclheap;
  vm_flush : list Z }.

Definition set_pool (x : pool) (s : vm) : vm :=
  mkVm x (vm_et s) (vm_pds s) (vm_pts s) (vm_vps s) (vm_heap s) (vm_flush s).
Definition set_et (x : envtab) (s : vm) : vm :=
  mkVm (vm_pool s) x (vm_pds s) (vm_pts s) (vm_vps s) (vm_heap s) (vm_flush s).
Definition set_pds (x : gmap Z EnvPD) (s : vm) : vm :=
  mkVm (vm_pool s) (vm_et s) x (vm_pts s) (vm_vps s) (vm_heap s) (vm_flush s).
Definition set_pts (x : gmap (Z * Z) Z) (s : vm) : vm :=
  mkVm (vm_pool s) (vm_et s) (vm_pds s) x (vm_vps s) (vm_heap s) (vm_flush s).
Definition set_vps (x : gmap Z Vpage) (s : vm) : vm :=
  mkVm (vm_pool s) (vm_et s) (vm_pds s) (vm_pts s) x (vm_heap s) (vm_flush s).
Definition set_heap (x : aclheap) (s : vm) : vm :=
  mkVm (vm_pool s) (vm_et s) (vm_pds s) (vm_pts s) (vm_vps s) x (vm_flush s).
Definition set_flush (x : list Z) (s : vm) : vm :=
  mkVm (vm_pool s) (vm_et s) (vm_pds s) (vm_pts s) (vm_vps s) (vm_heap s) x.

Definition in_pool {A} (m : M pool A) : M vm A := zoom vm_pool set_pool m.
Definition in_et {A} (m : M envtab A) : M vm A := zoom vm_et set_et m.

Definition pd_nptes (n : gmap Z Z) (d : EnvPD) : EnvPD :=
  mkPD (envpd_id d) (envpd_cr3 d) (envpd_pdir d) n (envpd_rc d) (envpd_active d).
Definition pd_pdir (m : gmap Z (gmap Z Z)) (d : EnvPD) : EnvPD :=
  mkPD (envpd_id d) (envpd_cr3 d) m (envpd_nptes d) (envpd_rc d) (envpd_active d).

Definition get_pd (d : Z) : M vm EnvPD := fun s => of_option (vm_pds s !! d) s.
Definition put_pd (d : Z) (x : EnvPD) : M vm unit := modify (fun s => set_pds (<[d := x]> (vm_pds s)) s).

(** ** Directories and tables *)

Definition cr3_at (x : EnvPD) (r : Z) : Z := default 0 (envpd_cr3 x !! r).
Definition pde_at (x : EnvPD) (r n : Z) : Z := default 0 (envpd_pdir x !! r ≫= (.!! n)).
Definition nptes_at (x : EnvPD) (n : Z) : Z := default 0 (envpd_nptes x !! n).
(** The entry of the active directory that covers [va]. *)
Definition va_pde (x : EnvPD) (va : Z) : Z := pde_at x (envpd_active x) (PDENO va).

Definition pde_set (r n w : Z) (x : EnvPD) : EnvPD :=
  pd_pdir (<[r := <[n := w]> (default ∅ (envpd_pdir x !! r))]> (envpd_pdir x)) x.
Definition nptes_add (n d : Z) (x : EnvPD) : EnvPD :=
  pd_nptes (<[n := s16 (nptes_at x n + d)]> (envpd_nptes x)) x.

Definition upd_pd (d : Z) (f : EnvPD -> EnvPD) : M vm unit := x <- get_pd d ;; put_pd d (f x).

(** [pt_get_ptep (pdir, va)]: page number and index of the entry. *)
Definition pt_get_ptep (x : EnvPD) (va : Z) : Z * Z := (Z.shiftr (va_pde x va) PGSHIFT, PTENO va).
Definition pte_read (a : Z * Z) : M vm Z := gets (fun s => default 0 (vm_pts s !! a)).
Definition pte_write (a : Z * Z) (w : Z) : M vm unit :=
  modify (fun s => set_pts (<[a := w]> (vm_pts s)) s).

(** [bzero (pp2va (pp), NBPG)] on a page-table page. *)
Definition bzero_pt (p : Z) : M vm unit :=
  modify (fun s => set_pts (filter (fun kv => fst (fst kv) <> p) (vm_pts s)) s).

Definition pp2pa (p : Z) : Z := u32 (Z.shiftl p PGSHIFT).
(** [pp2pa (pp) | PG_P | PG_W | PG_U]. *)
Definition pde_of (p : Z) : Z := Z.lor (pp2pa p) (Z.lor PG_P (Z.lor PG_W PG_U)).

Definition pde_check_n_alloc (d va : Z) : M vm Z :=
  x <- get_pd d ;;
  let act := envpd_active x in
  assert_ ((0 <? envpd_rc x) && (0 <=? act) && (act <=? NR_CPUS) && negb (cr3_at x act =? 0)) ;;
  if tst (va_pde x va) PG_P then mreturn 0
  else
    rp <- in_pool (ppage_alloc PP_KERNEL 0) ;;
    match snd rp with
    | None => mreturn (fst rp)
    | Some p =>
        bzero_pt p ;;
        upd_pd d (pde_set act (PDENO va) (pde_of p)) ;;
        mfor (fun r =>
          x <- get_pd d ;;
          if negb (r =? envpd_active x) && negb (cr3_at x r =? 0)
          then upd_pd d (pde_set r (PDENO va) (pde_of p)) else mreturn tt) (zseq 0 (Z.to_nat NR_CPUS)) ;;
        mreturn 0
    end.

(** Invalidate a translation if it belongs to the current address space. *)
Definition tlb_invalidate (va addrspace_id : Z) : M vm unit :=
  let invlpg := modify (fun s => set_flush (va :: vm_flush s) s) in
  c <- gets (fun s => curenv (vm_et s)) ;;
  match c with
  | None => invlpg
  | Some i =>
      e <- in_et (get_env i) ;;
      x <- get_pd (env_pd e) ;;
      if envpd_id x =? addrspace_id then invlpg else mreturn tt
  end.

(** ** Mapping records *)

Definition get_vpl (p : Z) : M vm (list Z) :=
  pp <- in_pool (get_pp p) ;;
  match pp_u pp with PV l _ _ => mreturn l | PLink => panic end.
Definition set_vpl (p : Z) (l : list Z) : M vm unit :=
  in_pool (upd_pp p (fun pp =>
    match pp_u pp with PV _ n c => pp_set_u (PV l n c) pp | PLink => pp end)).
(** [Ppage_pp_refcnt_set (pp, Ppage_pp_refcnt_get (pp) + d)] on the u_short
    field, after which the count is read back. *)
Definition add_refcnt (p d : Z) : M vm Z :=
  pp <- in_pool (get_pp p) ;;
  match pp_u pp with
  | PV l n c => in_pool (upd_pp p (pp_set_u (PV l (u16 (n + d)) c))) ;; mreturn (u16 (n + d))
  | PLink => panic
  end.
Definition add_rw (p dr dw : Z) : M vm unit :=
  in_pool (upd_pp p (fun pp => pp_set_rw (u16 (pp_readers pp + dr)) (u16 (pp_writers pp + dw)) pp)).

Definition get_vp (a : Z) : M vm Vpage := fun s => of_option (vm_vps s !! a) s.

(** The loop of [ppage_remove]: the first record of this mapping. *)
Fixpoint find_vpage (envid va : Z) (l : list Z) : M vm (option Z) :=
  match l with
  | [] => mreturn None
  | a :: l' =>
      vp <- get_vp a ;;
      if (vp_env vp =? envid) && (vp_va vp =? va) then mreturn (Some a) else find_vpage envid va l'
  end.

(** [vpagel_remove_vpage (vp); vpage_free (vp)] for a record of page [p]. *)
Definition drop_vpage (p a : Z) : M vm unit :=
  l <- get_vpl p ;;
  l' <- of_option (unlink a l) ;;
  set_vpl p l' ;;
  modify (fun s => set_vps (delete a (vm_vps s)) s).

(** [ppage_remove]: get the Vpage and free it. *)
Definition unrecord (p envid va : Z) : M vm unit :=
  l <- get_vpl p ;;
  vp <- find_vpage envid va l ;;
  match vp with Some a => drop_vpage p a | None => mreturn tt end.

(** ** Removing and inserting one translation *)

Definition ppage_remove (ei va : Z) : M vm Z :=
  e <- in_et (get_env ei) ;;
  x <- get_pd (env_pd e) ;;
  let ptep := pt_get_ptep x va in
  pte <- pte_read ptep ;;
  if tst pte PG_P then
    let p := Z.shiftr pte PGSHIFT in
    np <- gets (fun s => nppage (vm_pool s)) ;;
    if np <=? p then mreturn 0
    else
      add_rw p (-1) (if tst pte PG_W then -1 else 0) ;;
      upd_pd (env_pd e) (nptes_add (PDENO va) (-1)) ;;
      let va := clr va PGMASK in
      unrecord p (env_id e) va ;;
      n <- add_refcnt p (-1) ;;
      (if n =? 0 then in_pool (ppage_free p) else mreturn tt) ;;
      pte_write ptep 0 ;;
      tlb_invalidate va (envpd_id x) ;;
      mreturn 0
  else
    pte_write ptep 0 ;;
    tlb_invalidate va (envpd_id x) ;;
    mreturn 0.

(** [mem] is what [vpage_new] gets from [malloc] (0 for NULL). *)
Definition ppage_insert (mem ei p va perm : Z) : M vm Z :=
  e <- in_et (get_env ei) ;;
  let va := clr va PGMASK in
  if mem =? 0 then mreturn (- E_NO_MEM)
  else
    let w := if tst perm PG_W then 1 else 0 in
    modify (fun s => set_vps (<[mem := mkVp (env_id e) va]> (vm_vps s)) s) ;;
    l <- get_vpl p ;;
    set_vpl p (mem :: l) ;;
    add_rw p 1 w ;;
    add_refcnt p 1 ;;
    r <- pde_check_n_alloc (env_pd e) va ;;
    if r <? 0 then
      add_rw p (-1) (- w) ;;
      add_refcnt p (-1) ;;
      drop_vpage p mem ;;
      mreturn r
    else
      x <- get_pd (env_pd e) ;;
      let ptep := pt_get_ptep x va in
      pte <- pte_read ptep ;;
      (if tst pte PG_P then ppage_remove ei va else mreturn 0) ;;
      pte_write ptep (Z.lor (pp2pa p) perm) ;;
      upd_pd (env_pd e) (nptes_add (PDENO va) 1) ;;
      mreturn 0.

(** ** Whole directories *)

Definition pde_check_n_alloc_one (d r va : Z) : M vm Z :=
  x <- get_pd d ;;
  if tst (pde_at x r (PDENO va)) PG_P then mreturn 0
  else
    rp <- in_pool (ppage_alloc PP_KERNEL 0) ;;
    match snd rp with
    | None => mreturn (fst rp)
    | Some p =>
        bzero_pt p ;;
        upd_pd d (pde_set r (PDENO va) (pde_of p)) ;;
        mreturn 0
    end.

(** The new directory page and its contents, a copy of [pdir]. *)
Definition pd_duplicate (pdir : gmap Z Z) : M vm (option (Z * gmap Z Z)) :=
  rp <- in_pool (ppage_alloc PP_KERNEL 0) ;;
  mreturn (p ← snd rp; Some (p, pdir)).

(** ** Translating an address (sys/xok/env.h) *)

(** The entry's address, unless the directory entry is absent or a large page. *)
Definition env_va2ptep (ei va : Z) : M vm (option (Z * Z)) :=
  e <- in_et (get_env ei) ;;
  x <- get_pd (env_pd e) ;;
  let pde := va_pde x va in
  if negb (tst pde PG_P) || tst pde PG_PS then mreturn None
  else mreturn (Some (Z.shiftr pde PGSHIFT, PTENO va)).

Definition env_va2pa (ei va : Z) : M vm Z :=
  e <- in_et (get_env ei) ;;
  x <- get_pd (env_pd e) ;;
  let pde := va_pde x va in
  if negb (tst pde PG_P) then mreturn 0
  else if tst pde PG_PS then mreturn (Z.lor (clr pde PDMASK) (Z.land va PDMASK))
  else
    pte <- pte_read (Z.shiftr pde PGSHIFT, PTENO va) ;;
    if negb (tst pte PG_P) then mreturn 0
    else mreturn (Z.lor (clr pte PGMASK) (Z.land va PGMASK)).

(** ** Execution rules *)

Definition upd_page (p : Z) (pp : Ppage) (s : vm) : vm := set_pool (put_page p pp (vm_pool s)) s.

Section rules.
Context (s : vm).

Lemma wp_get_pd d (Q : EnvPD -> vm -> Prop) :
  wp (get_pd d) s Q <-> exists x, vm_pds s !! d = Some x /\ Q x s.
Proof. apply wp_of_option. Qed.

Lemma wp_upd_pd d f x (Q : unit -> vm -> Prop) :
  vm_pds s !! d = Some x -> Q tt (set_pds (<[d := f x]> (vm_pds s)) s) -> wp (upd_pd d f) s Q.
Proof. intros Hx HQ. unfold upd_pd. apply wp_bind, wp_get_pd. eauto. Qed.

Lemma wp_get_page p pp (Q : Ppage -> vm -> Prop) :
  ppages (vm_pool s) !! p = Some pp -> Q pp s -> wp (in_pool (get_pp p)) s Q.
Proof. intros Hp HQ. apply wp_zoom, wp_get_pp. exists pp. split; [done|]. by destruct s. Qed.

Lemma wp_upd_page p pp f (Q : unit -> vm -> Prop) :
  ppages (vm_pool s) !! p = Some pp -> Q tt (upd_page p (f pp) s) -> wp (in_pool (upd_pp p f)) s Q.
Proof. intros Hp HQ. apply wp_zoom, wp_upd_pp. eauto. Qed.

Lemma wp_vm_env i e (Q : Env -> vm -> Prop) :
  envs (vm_et s) !! i = Some e -> Q e s -> wp (in_et (get_env i)) s Q.
Proof. intros He HQ. apply wp_zoom, wp_of_option. exists e. split; [done|]. by destruct s. Qed.

Lemma wp_get_vpl p pp l n c (Q : list Z -> vm -> Prop) :
  ppages (vm_pool s) !! p = Some pp -> pp_u pp = PV l n c -> Q l s -> wp (get_vpl p) s Q.
Proof. intros Hp Hu HQ. apply wp_bind. eapply wp_get_page; [done|]. by rewrite Hu. Qed.

Lemma wp_set_vpl p pp l l0 n c (Q : unit -> vm -> Prop) :
  ppages (vm_pool s) !! p = Some pp -> pp_u pp = PV l0 n c ->
  Q tt (upd_page p (pp_set_u (PV l n c) pp) s) -> wp (set_vpl p l) s Q.
Proof. intros Hp Hu HQ. eapply wp_upd_page; [done|]. by rewrite Hu. Qed.

Lemma wp_add_refcnt p pp d l n c (Q : Z -> vm -> Prop) :
  ppages (vm_pool s) !! p = Some pp -> pp_u pp = PV l n c ->
  Q (u16 (n + d)) (upd_page p (pp_set_u (PV l (u16 (n + d)) c) pp) s) -> wp (add_refcnt p d) s Q.
Proof.
  intros Hp Hu HQ. apply wp_bind. eapply wp_get_page; [done|]. rewrite Hu.
  apply wp_bind. eapply wp_upd_page; [done|]. by apply wp_ret.
Qed.
End rules.

Lemma upd_page_lookup p pp s : ppages (vm_pool (upd_page p pp s)) !! p = Some pp.
Proof. apply lookup_insert_eq. Qed.

Lemma upd_page_twice p pp pp' s : upd_page p pp' (upd_page p pp s) = upd_page p pp' s.
Proof. unfold upd_page, put_page, set_ppages. cbn. by rewrite insert_insert_eq. Qed.

(** ** Giving up a reference *)

Lemma wp_release p pp n s (Q : unit -> vm -> Prop) :
  ppages (vm_pool s) !! p = Some pp -> pp_refcnt pp = Some n ->
  Q tt (set_pool (unref p pp n (vm_pool s)) s) ->
  wp (if n =? 0 then in_pool (ppage_free p) else mreturn tt) s Q.
Proof.
  intros Hp Hn HQ. unfold unref in HQ. rewrite put_page_id in HQ by done. destruct (n =? 0) eqn:E.
  - apply wp_zoom. eapply ppage_free_run; [done..|]. by rewrite E.
  - apply wp_ret. by destruct s.
Qed.

(** ** The invariant *)

(** What the invariant knows besides the state: the tables of the kernel's part
    of the address spaces, references to directories that are counted for
    environments not yet in use, and the directories that are being built or
    taken down. *)
Record ghost := mkGhost { g_tabs : gset Z; g_rc : Z -> Z; g_open : Z -> bool }.
(** Nothing shared; directories need not be complete. *)
Definition ghost0 : ghost := mkGhost ∅ (fun _ => 0) (fun _ => true).

(** Page-table entries that map something, among the user's tables. *)
Section invariant.
Context (ktabs : ghost).

Definition upte (kv : Z * Z * Z) : bool := bool_decide (fst (fst kv) ∉ g_tabs ktabs) && tst (snd kv) PG_P.
Definition maps (p : Z) (kv : Z * Z * Z) : bool := upte kv && (Z.shiftr (snd kv) PGSHIFT =? p).
Definition wmaps (p : Z) (kv : Z * Z * Z) : bool := maps p kv && tst (snd kv) PG_W.
Definition intab (t : Z) (kv : Z * Z * Z) : bool := upte kv && (fst (fst kv) =? t).

(** Number of translations of page [p], and of writable ones. *)
Definition nmaps (p : Z) (s : vm) : Z := kcount (maps p) (vm_pts s).
Definition nwmaps (p : Z) (s : vm) : Z := kcount (wmaps p) (vm_pts s).

Definition NUPDE := PDENO UTOP.

(** The directory entries whose tables belong to one address space: those below
    UTOP, which the user fills, and the one of the u-areas. *)
Definition upde (n : Z) : Prop := 0 <= n < NUPDE \/ n = PDENO UADDRS.
Definition uva (va : Z) : Prop := 0 <= va < 2 ^ 32 /\ upde (PDENO va).

(** Directory [d] has a table of its own at page [t] for entry [n]. *)
Definition has_table (s : vm) (d n t : Z) : Prop :=
  exists x, vm_pds s !! d = Some x /\ upde n /\
    tst (pde_at x (envpd_active x) n) PG_P = true /\
    Z.shiftr (pde_at x (envpd_active x) n) PGSHIFT = t.

Definition pp_vpl (pp : Ppage) : list Z := match pp_u pp with PV l _ _ => l | PLink => [] end.

(** Pages of the kernel, and those that are not memory. *)
Definition kernel_status (st : Z) : Prop := st = PP_KERNEL \/ st = PP_KERNRO \/ st = PP_INVAL.

(** One page: [r] readers and [w] writers are accounted for. *)
Record page_ok (r w : Z) (pp : Ppage) : Prop := mkPageOk {
  po_readers : pp_readers pp = r;
  po_writers : pp_writers pp = w;
  po_ref : match pp_u pp with PV _ n _ => r <= n < 2 ^ 16 | PLink => r = 0 end;
  po_closed : kernel_status (pp_status pp) -> r = 0 /\ forallb (fun c => negb (c_valid c)) (pp_acl pp) = true;
  po_nd : NoDup (pp_vpl pp) }.

(** One directory. *)
Record dir_ok (s : vm) (x : EnvPD) : Prop := mkDirOk {
  do_rc : 0 < envpd_rc x;
  do_act : 0 <= envpd_active x < NR_CPUS;
  do_cr3 : forall r, cr3_at x r <> 0 <-> r = envpd_active x;
  do_pde : forall n, upde n -> let w := pde_at x (envpd_active x) n in
    tst w PG_P = true -> w = pde_of (Z.shiftr w PGSHIFT);
  do_nptes : forall n, upde n ->
    let w := pde_at x (envpd_active x) n in
    nptes_at x n = if tst w PG_P then kcount (intab (Z.shiftr w PGSHIFT)) (vm_pts s) else 0 }.

(** The mapping records on the lists exist, and each is on one list. *)
Definition vps_ok (s : vm) : Prop :=
  (forall p pp a, ppages (vm_pool s) !! p = Some pp -> a ∈ pp_vpl pp -> is_Some (vm_vps s !! a)) /\
  (forall p q pp pq a, ppages (vm_pool s) !! p = Some pp -> ppages (vm_pool s) !! q = Some pq ->
     a ∈ pp_vpl pp -> a ∈ pp_vpl pq -> p = q).

Lemma vps_ok_sub s s' :
  vps_ok s -> vm_vps s' = vm_vps s ->
  (forall q pq, ppages (vm_pool s') !! q = Some pq ->
     pp_vpl pq = [] \/ exists pq0, ppages (vm_pool s) !! q = Some pq0 /\ pp_vpl pq = pp_vpl pq0) ->
  vps_ok s'.
Proof.
  intros [V1 V2] Ev Hsub.
  assert (forall q pq a, ppages (vm_pool s') !! q = Some pq -> a ∈ pp_vpl pq ->
    exists pq0, ppages (vm_pool s) !! q = Some pq0 /\ a ∈ pp_vpl pq0) as Hback.
  { intros q pq a Hq Ha. destruct (Hsub q pq Hq) as [E|(pq0 & Hq0 & E)]; rewrite E in Ha; [|eauto].
    by apply not_elem_of_nil in Ha. }
  split.
  - intros q pq a Hq Ha. destruct (Hback q pq a Hq Ha) as (pq0 & Hq0 & Ha0). rewrite Ev. by eapply V1.
  - intros q r pq pr a Hq Hr Ha Ha'. destruct (Hback q pq a Hq Ha) as (pq0 & Hq0 & Ha0).
    destruct (Hback r pr a Hr Ha') as (pr0 & Hr0 & Ha1). by eapply V2.
Qed.

(** No page has more than [b] references. *)
Definition maxref (b : Z) (s : vm) : Prop :=
  forall p pp l n c, ppages (vm_pool s) !! p = Some pp -> pp_u pp = PV l n c -> n <= b.

(** The access lists of the pages are the old ones, or empty. *)
Definition acl_from (s s' : vm) : Prop :=
  forall q pq', ppages (vm_pool s') !! q = Some pq' ->
    (exists pq, ppages (vm_pool s) !! q = Some pq /\ pp_acl pq' = pp_acl pq) \/
    pp_acl pq' = repeat cap_null (Z.to_nat PP_ACL_LEN).

(** ** Directories and the environments that use them *)

(** The live environments whose directory is [d]. *)
Definition uses (d : Z) (ie : Z * Env) : bool := negb (env_status (snd ie) =? ENV_FREE) && (env_pd (snd ie) =? d).
Definition nlive (d : Z) (et : envtab) : Z := kcount (uses d) (envs et).

(** The pages a directory itself takes: its own, and the table through which an
    environment sees its u-area at UADDR. *)
Definition dirpage (x : EnvPD) : Z := Z.shiftr (cr3_at x (envpd_active x)) PGSHIFT.
Definition uaddr_pde (x : EnvPD) : Z := pde_at x (envpd_active x) (PDENO UADDR).
Definition uaddr_tab (x : EnvPD) : list Z := if tst (uaddr_pde x) PG_P then [Z.shiftr (uaddr_pde x) PGSHIFT] else [].
Definition uaddrs_pde (x : EnvPD) : Z := pde_at x (envpd_active x) (PDENO UADDRS).
Definition own_pages (x : EnvPD) : list Z := dirpage x :: uaddr_tab x.

Definition kernel_page (s : vm) (q : Z) : Prop :=
  exists pp, ppages (vm_pool s) !! q = Some pp /\ pp_status pp = PP_KERNEL /\ pp_refcnt pp = Some 0.

Record space_ok (s : vm) (d : Z) (x : EnvPD) : Prop := mkSpace {
  sp_rc : envpd_rc x = nlive d (vm_et s) + g_rc ktabs d;
  sp_own : forall q, q ∈ own_pages x -> kernel_page s q /\ forall d' n, ~ has_table s d' n q;
  sp_nd : NoDup (own_pages x);
  sp_dir : dirpage x ∉ g_tabs ktabs;
  sp_uaddr : forall q, q ∈ uaddr_tab x -> q ∈ g_tabs ktabs;
  sp_utab : g_open ktabs d = false -> tst (uaddrs_pde x) PG_P = true }.

Definition spaces_ok (s : vm) : Prop :=
  (forall d x, vm_pds s !! d = Some x -> space_ok s d x) /\
  (forall d d' x y q, vm_pds s !! d = Some x -> vm_pds s !! d' = Some y -> q ∈ own_pages x -> q ∈ own_pages y -> d = d').

(** The parts of a directory that [space_ok] looks at. *)
Definition same_space (d : Z) (x x' : EnvPD) : Prop :=
  envpd_rc x' = envpd_rc x /\ own_pages x' = own_pages x /\ dirpage x' = dirpage x /\ uaddr_tab x' = uaddr_tab x /\
  (g_open ktabs d = false -> tst (uaddrs_pde x) PG_P = true -> tst (uaddrs_pde x') PG_P = true).

Lemma spaces_keep s s' :
  spaces_ok s -> envs (vm_et s') = envs (vm_et s) ->
  (forall d x', vm_pds s' !! d = Some x' -> exists x, vm_pds s !! d = Some x /\ same_space d x x') ->
  (forall q, kernel_page s q -> (forall d n, ~ has_table s d n q) -> kernel_page s' q) ->
  (forall d n t, has_table s' d n t -> has_table s d n t \/ ~ kernel_page s t) ->
  spaces_ok s'.
Proof.
  intros [S1 S2] Ee Hpd Hpg Htab. split.
  - intros d x' Hx'. destruct (Hpd d x' Hx') as (x & Hx & E1 & E2 & E3 & E4 & E5). destruct (S1 d x Hx) as [A B C D E F].
    split; rewrite ?E1, ?E2, ?E3, ?E4; try done.
    + unfold nlive. by rewrite Ee.
    + intros q Hq. destruct (B q Hq) as [Hk Hn]. split; [by apply Hpg|].
      intros d' n H. by destruct (Htab d' n q H) as [H'|H']; [eapply Hn|].
    + auto.
  - intros d d' x' y' q Hx' Hy' Hq Hq'. destruct (Hpd d x' Hx') as (x & Hx & _ & E & _).
    destruct (Hpd d' y' Hy') as (y & Hy & _ & E' & _). rewrite E in Hq. rewrite E' in Hq'. by eapply S2.
Qed.

Lemma spaces_et s et : envs et = envs (vm_et s) -> spaces_ok s -> spaces_ok (set_et et s).
Proof. intros E H. apply (spaces_keep s); try done; eauto. intros d x Hx. by exists x. Qed.

(** [xr] and [xw] are readers and writers counted for translations that are
    about to be installed. *)
Record vm_inv (xr xw : Z -> Z) (s : vm) : Prop := mkVmInv {
  vi_x : forall p, 0 <= xw p <= xr p;
  vi_pool : pool_ok (vm_pool s);
  vi_pages : forall p pp, ppages (vm_pool s) !! p = Some pp ->
    page_ok (nmaps p s + xr p) (nwmaps p s + xw p) pp;
  vi_dirs : forall d x, vm_pds s !! d = Some x -> dir_ok s x;
  vi_tab : forall d n t, has_table s d n t -> (t ∉ g_tabs ktabs) /\
    exists pp, ppages (vm_pool s) !! t = Some pp /\ pp_status pp = PP_KERNEL /\ pp_refcnt pp = Some 0;
  vi_inj : forall d n d' n' t, has_table s d n t -> has_table s d' n' t -> d = d' /\ n = n';
  vi_live : forall k w, vm_pts s !! k = Some w -> upte (k, w) = true ->
    (exists d n, has_table s d n (fst k)) /\ 0 <= snd k < NLPG /\ 0 <= w < 2 ^ 32 /\
    is_Some (ppages (vm_pool s) !! Z.shiftr w PGSHIFT);
  vi_ktab : forall t, t ∈ g_tabs ktabs -> exists pp, ppages (vm_pool s) !! t = Some pp /\ kernel_status (pp_status pp);
  vi_vps : vps_ok s;
  vi_env : forall i e, envs (vm_et s) !! i = Some e -> env_status e <> ENV_FREE -> is_Some (vm_pds s !! env_pd e);
  vi_cur : forall i, curenv (vm_et s) = Some i -> exists e, envs (vm_et s) !! i = Some e /\ env_status e <> ENV_FREE;
  vi_spaces : spaces_ok s;
  vi_zero : exists pp, ppages (vm_pool s) !! 0 = Some pp /\ pp_status pp = PP_INVAL }.

Definition vm_ok : vm -> Prop := vm_inv (fun _ => 0) (fun _ => 0).

(** ** Addresses *)

Lemma UTOP_val : UTOP = NUPDE * NBPD /\ 0 < UTOP < 2 ^ 32.
Proof. vm_compute. auto. Qed.

Lemma pdeno_low va : 0 <= va < UTOP -> 0 <= PDENO va < NUPDE.
Proof.
  intros Hva. destruct UTOP_val as [E _]. unfold PDENO. rewrite Z.shiftr_div_pow2 by done.
  change (2 ^ PDSHIFT) with NBPD. unfold NBPD in *. split; [apply Z.div_pos; lia|].
  apply Z.div_lt_upper_bound; lia.
Qed.

Lemma uva_low va : 0 <= va < UTOP -> uva va.
Proof. intros Hva. destruct UTOP_val as [_ HU]. split; [lia|left]. by apply pdeno_low. Qed.

Lemma pdeno_range va : uva va -> upde (PDENO va).
Proof. by intros []. Qed.

Lemma pteno_range va : 0 <= PTENO va < NLPG.
Proof.
  unfold PTENO. change 0x3ff with (Z.ones 10). rewrite Z.land_ones by done.
  apply (Z.mod_pos_bound _ (2 ^ 10)). done.
Qed.

Lemma clr_ones x n : 0 <= n <= 32 -> 0 <= x < 2 ^ 32 -> clr x (Z.ones n) = Z.shiftl (Z.shiftr x n) n.
Proof.
  intros Hn Hx. unfold clr. apply Z.bits_inj'. intros i Hi.
  change (2 ^ 32 - 1) with (Z.ones 32). rewrite Z.land_spec, Z.lxor_spec.
  rewrite Z.shiftl_spec by done. destruct (Z.ltb_spec i n).
  - rewrite !Z.ones_spec_low by lia. rewrite (Z.testbit_neg_r _ (i - n)) by lia. cbn. by rewrite andb_false_r.
  - rewrite Z.shiftr_spec by lia. replace (i - n + n) with i by lia.
    rewrite (Z.ones_spec_high n) by lia. destruct (Z.ltb_spec i 32).
    + rewrite Z.ones_spec_low by lia. cbn. by rewrite andb_true_r.
    + rewrite <- (Z.mod_small x (2 ^ 32)) by done. rewrite Z.mod_pow2_bits_high by lia. done.
Qed.

Lemma clr_page va : 0 <= va < 2 ^ 32 ->
  PDENO (clr va PGMASK) = PDENO va /\ PTENO (clr va PGMASK) = PTENO va /\ 0 <= clr va PGMASK <= va.
Proof.
  intros Hva. change PGMASK with (Z.ones 12). rewrite clr_ones by (first [lia|done]). unfold PDENO, PTENO, PGSHIFT, PDSHIFT.
  assert (Z.shiftr (Z.shiftl (Z.shiftr va 12) 12) 12 = Z.shiftr va 12) as E.
  { rewrite Z.shiftr_shiftl_l by lia. by rewrite Z.shiftl_0_r. }
  split_and!.
  - replace 22 with (12 + 10) by done. rewrite <- !Z.shiftr_shiftr by lia. by rewrite E.
  - by rewrite E.
  - rewrite Z.shiftl_nonneg, Z.shiftr_nonneg. lia.
  - rewrite Z.shiftl_mul_pow2, Z.shiftr_div_pow2 by lia. pose proof (Z.mul_div_le va (2 ^ 12)). lia.
Qed.

(** ** Counting translations *)

Lemma upte_0 k : upte (k, 0) = false.
Proof. unfold upte. cbn. by rewrite andb_false_r. Qed.
Lemma maps_0 p k : maps p (k, 0) = false.
Proof. unfold maps. by rewrite upte_0. Qed.
Lemma wmaps_0 p k : wmaps p (k, 0) = false.
Proof. unfold wmaps. by rewrite maps_0. Qed.
Lemma intab_0 t k : intab t (k, 0) = false.
Proof. unfold intab. by rewrite upte_0. Qed.

(** The word at [k], 0 where there is none. *)
Definition pte_at (s : vm) (k : Z * Z) : Z := default 0 (vm_pts s !! k).

Lemma nmaps_write p k w s s' :
  vm_pts s' = <[k := w]> (vm_pts s) ->
  nmaps p s' = nmaps p s - b2z (maps p (k, pte_at s k)) + b2z (maps p (k, w)).
Proof. intros E. unfold nmaps. rewrite E. apply kcount_insert, maps_0. Qed.

Lemma nwmaps_write p k w s s' :
  vm_pts s' = <[k := w]> (vm_pts s) ->
  nwmaps p s' = nwmaps p s - b2z (wmaps p (k, pte_at s k)) + b2z (wmaps p (k, w)).
Proof. intros E. unfold nwmaps. rewrite E. apply kcount_insert, wmaps_0. Qed.

Lemma intab_write t k w s s' :
  vm_pts s' = <[k := w]> (vm_pts s) ->
  kcount (intab t) (vm_pts s') =
  kcount (intab t) (vm_pts s) - b2z (intab t (k, pte_at s k)) + b2z (intab t (k, w)).
Proof. intros E. rewrite E. apply kcount_insert, intab_0. Qed.

Lemma nwmaps_le p s : 0 <= nwmaps p s <= nmaps p s.
Proof.
  split; [apply kcount_nonneg|]. apply kcount_le. intros k x. unfold wmaps. by intros []%andb_true_iff.
Qed.

Lemma pte_present s k : tst (pte_at s k) PG_P = true -> vm_pts s !! k = Some (pte_at s k).
Proof. unfold pte_at. destruct (vm_pts s !! k); done. Qed.

(** A table has at most 1024 entries. *)
Lemma intab_bound xr xw s t : vm_inv xr xw s -> kcount (intab t) (vm_pts s) <= NLPG.
Proof.
  intros Hi. unfold kcount.
  set (m := filter _ _).
  assert (map_to_list m ⊆+ ((fun i => ((t, i), pte_at s (t, i))) <$> zseq 0 1024)) as Hs.
  { apply NoDup_submseteq; [apply NoDup_map_to_list|]. intros [[t' i] w] Hin.
    apply elem_of_map_to_list, map_lookup_filter_Some in Hin as [Hk Hf].
    unfold intab in Hf. apply andb_true_iff in Hf as [Hf Ht%Z.eqb_eq]. cbn in Ht. subst t'.
    destruct (vi_live _ _ _ Hi _ _ Hk Hf) as (_ & Hr & _). cbn in Hr.
    apply list_elem_of_fmap. exists i. unfold pte_at. rewrite Hk. split; [done|].
    apply zseq_elem. cbn in Hr. unfold NLPG in Hr. lia. }
  apply submseteq_length in Hs. rewrite length_map_to_list, length_fmap, zseq_length in Hs.
  unfold NLPG. lia.
Qed.

(** ** Rewriting one entry *)

(** [x'] is [x] with [d] more entries accounted for in table [n]. *)
Record dir_adj (n d : Z) (x x' : EnvPD) : Prop := mkAdj {
  ja_id : envpd_id x' = envpd_id x;
  ja_rc : envpd_rc x' = envpd_rc x;
  ja_act : envpd_active x' = envpd_active x;
  ja_cr3 : envpd_cr3 x' = envpd_cr3 x;
  ja_pdir : envpd_pdir x' = envpd_pdir x;
  ja_n : forall m, nptes_at x' m = nptes_at x m + if decide (m = n) then d else 0 }.

Lemma dir_adj_0 n x : dir_adj n 0 x x.
Proof. split; try done. intros m. destruct (decide (m = n)); lia. Qed.

Lemma s16_small y : - 2 ^ 15 <= y < 2 ^ 15 -> s16 y = y.
Proof.
  intros Hy. unfold s16, u16, wrapu. destruct (Z.ltb_spec (y mod 2 ^ 16) (2 ^ 15));
    pose proof (Z.mod_pos_bound y (2 ^ 16)); pose proof (Z.div_mod y (2 ^ 16)); lia.
Qed.

Lemma nptes_add_adj n d x :
  - 2 ^ 15 <= nptes_at x n + d < 2 ^ 15 -> dir_adj n d x (nptes_add n d x).
Proof.
  intros Hr. split; try done. intros m. unfold nptes_add, nptes_at at 1. cbn.
  destruct (decide (m = n)) as [->|Hne].
  - rewrite lookup_insert_eq. cbn. by apply s16_small.
  - rewrite lookup_insert_ne by done. unfold nptes_at. lia.
Qed.

Lemma adj_pde n d x x' : dir_adj n d x x' -> forall r m, pde_at x' r m = pde_at x r m.
Proof. intros [] r m. unfold pde_at. by rewrite ja_pdir0. Qed.

Lemma adj_same_space n k d x x' : dir_adj n k x x' -> same_space d x x'.
Proof.
  intros H. assert (dirpage x' = dirpage x) as E1 by (unfold dirpage, cr3_at; by rewrite (ja_act _ _ _ _ H), (ja_cr3 _ _ _ _ H)).
  assert (uaddr_tab x' = uaddr_tab x) as E2 by (unfold uaddr_tab, uaddr_pde; by rewrite (ja_act _ _ _ _ H), (adj_pde _ _ _ _ H)).
  split_and!; [apply H| |done..|]; [unfold own_pages; by rewrite E1, E2|].
  unfold uaddrs_pde. by rewrite (ja_act _ _ _ _ H), (adj_pde _ _ _ _ H).
Qed.

Lemma adj_has_table s s' n dl d x x' :
  vm_pds s !! d = Some x -> dir_adj n dl x x' -> vm_pds s' = <[d := x']> (vm_pds s) ->
  forall d' m t, has_table s' d' m t <-> has_table s d' m t.
Proof.
  intros Hx Hadj E d' m t. unfold has_table. rewrite E. destruct (decide (d = d')) as [<-|Hne].
  - rewrite lookup_insert_eq. split.
    + intros (y & [= <-] & H). exists x. rewrite !(adj_pde _ _ _ _ Hadj), (ja_act _ _ _ _ Hadj) in H. done.
    + intros (y & Hy & H). assert (y = x) as -> by congruence. exists x'.
      rewrite !(adj_pde _ _ _ _ Hadj), (ja_act _ _ _ _ Hadj). done.
  - by rewrite lookup_insert_ne.
Qed.

(** The pages of the kernel are as before, and no page disappears. *)
Definition keeps_kernel (P P' : pool) : Prop :=
  (forall p pp, ppages P !! p = Some pp -> is_Some (ppages P' !! p)) /\
  (forall p pp, ppages P !! p = Some pp -> kernel_status (pp_status pp) -> ppages P' !! p = Some pp).

Lemma upte_in d n t s xr xw k w :
  vm_inv xr xw s -> has_table s d n t -> fst k = t -> upte (k, w) = tst w PG_P.
Proof.
  intros Hi Ht Hk. unfold upte. cbn. rewrite Hk.
  rewrite bool_decide_true by apply (vi_tab _ _ _ Hi _ _ _ Ht). done.
Qed.

Lemma vm_inv_entry xr xw xr' xw' s s' d n x x' k w :
  vm_inv xr xw s -> vm_pds s !! d = Some x -> has_table s d n (fst k) -> 0 <= snd k < NLPG ->
  vm_pts s' = <[k := w]> (vm_pts s) ->
  dir_adj n (b2z (tst w PG_P) - b2z (tst (pte_at s k) PG_P)) x x' ->
  vm_pds s' = <[d := x']> (vm_pds s) ->
  envs (vm_et s') = envs (vm_et s) -> curenv (vm_et s') = curenv (vm_et s) ->
  (tst w PG_P = true -> 0 <= w < 2 ^ 32 /\ is_Some (ppages (vm_pool s') !! Z.shiftr w PGSHIFT)) ->
  (forall p, 0 <= xw' p <= xr' p) -> pool_ok (vm_pool s') -> keeps_kernel (vm_pool s) (vm_pool s') ->
  (forall p pp, ppages (vm_pool s') !! p = Some pp ->
     page_ok (nmaps p s' + xr' p) (nwmaps p s' + xw' p) pp) ->
  vps_ok s' -> vm_inv xr' xw' s'.
Proof.
  intros Hi Hx Ht Hk Epts Hadj Epds Eenv Ecur Hw Hxx Hpool [Hkeep Hkern] Hpages Hvps.
  pose proof (adj_has_table s s' _ _ _ _ _ Hx Hadj Epds) as Htab.
  split; try done.
  - intros d' y Hy. rewrite Epds in Hy. destruct (decide (d = d')) as [<-|Hne].
    + rewrite lookup_insert_eq in Hy. injection Hy as <-.
      destruct (vi_dirs _ _ _ Hi d x Hx) as [R A C D N].
      split; rewrite ?(ja_rc _ _ _ _ Hadj), ?(ja_act _ _ _ _ Hadj); try done.
      * intros r. unfold cr3_at. rewrite (ja_cr3 _ _ _ _ Hadj). apply C.
      * intros m Hm. cbn. rewrite (adj_pde _ _ _ _ Hadj). by apply D.
      * intros m Hm. cbn. rewrite (ja_n _ _ _ _ Hadj), (N m Hm), (adj_pde _ _ _ _ Hadj).
        rewrite (intab_write _ k w s s' Epts).
        destruct (tst (pde_at x (envpd_active x) m) PG_P) eqn:Em.
        -- assert (forall v, intab (Z.shiftr (pde_at x (envpd_active x) m) PGSHIFT) (k, v) =
             tst v PG_P && bool_decide (m = n)) as Hin.
           { intros v. unfold intab. rewrite (upte_in d n (fst k) s xr xw k v Hi Ht eq_refl). f_equal.
             cbn. case_bool_decide as Emn.
             - subst m. destruct Ht as (y & Hy & _ & _ & <-).
               assert (y = x) as -> by congruence. apply Z.eqb_refl.
             - apply Z.eqb_neq. intros E. apply Emn.
               refine (proj2 (vi_inj _ _ _ Hi d m d n (fst k) _ Ht)). exists x. done. }
           rewrite !Hin. case_bool_decide; [rewrite decide_True by done|rewrite decide_False by done].
           ++ rewrite !andb_true_r. lia.
           ++ rewrite !andb_false_r. cbn. lia.
        -- rewrite decide_False; [lia|]. intros ->. destruct Ht as (y & Hy & _ & Hp & _).
           assert (y = x) as -> by congruence. congruence.
    + rewrite lookup_insert_ne in Hy by done. destruct (vi_dirs _ _ _ Hi d' y Hy) as [R A C D N].
      split; try done. intros m Hm. cbn. rewrite (N m Hm).
      destruct (tst (pde_at y (envpd_active y) m) PG_P) eqn:Em; [|done].
      rewrite (intab_write _ k w s s' Epts).
      assert (forall v, intab (Z.shiftr (pde_at y (envpd_active y) m) PGSHIFT) (k, v) = false) as Hin.
      { intros v. unfold intab. apply andb_false_iff. right. apply Z.eqb_neq. cbn. intros E.
        apply Hne. refine (proj1 (vi_inj _ _ _ Hi d n d' m (fst k) Ht _)). exists y. done. }
      rewrite !Hin. cbn. lia.
  - intros d' m t H%Htab. destruct (vi_tab _ _ _ Hi _ _ _ H) as (? & pp & Hp & Hs & Hr).
    split; [done|]. exists pp. split; [|done]. apply Hkern; [done|by left].
  - intros d' m d'' m' t H1%Htab H2%Htab. eapply (vi_inj _ _ _ Hi); eauto.
  - intros k' w' Hk' Hu. rewrite Epts in Hk'. destruct (decide (k = k')) as [<-|Hne].
    + rewrite lookup_insert_eq in Hk'. injection Hk' as <-.
      rewrite (upte_in d n (fst k) s xr xw k w Hi Ht eq_refl) in Hu.
      split; [|exact (conj Hk (Hw Hu))]. exists d, n. by apply Htab.
    + rewrite lookup_insert_ne in Hk' by done.
      destruct (vi_live _ _ _ Hi k' w' Hk' Hu) as ((d' & m & H) & ? & ? & pp & Hp).
      split; [exists d', m; by apply Htab|]. split; [done|]. split; [done|]. by eapply Hkeep.
  - intros t H. destruct (vi_ktab _ _ _ Hi t H) as (pp & Hp & Hs). exists pp. split; [|done]. by apply Hkern.
  - intros i e He Hs. rewrite Eenv in He. destruct (vi_env _ _ _ Hi i e He Hs) as [y Hy].
    rewrite Epds. destruct (decide (d = env_pd e)) as [->|]; [by rewrite lookup_insert_eq|].
    by rewrite lookup_insert_ne.
  - intros i Hcur. rewrite Ecur in Hcur. rewrite Eenv. by apply (vi_cur _ _ _ Hi).
  - apply (spaces_keep s); [apply Hi|done| | |].
    + intros d' y Hy. rewrite Epds in Hy. destruct (decide (d = d')) as [<-|Hne].
      * rewrite lookup_insert_eq in Hy. injection Hy as <-. exists x. split; [done|]. by eapply adj_same_space.
      * rewrite lookup_insert_ne in Hy by done. by exists y.
    + intros q (pq & Hq & Hs & Hr) _. exists pq. split; [|done]. apply Hkern; [done|by left].
    + intros d' m t H'. left. by apply Htab.
  - destruct (vi_zero _ _ _ Hi) as (pz & Hz & Hs). exists pz. split; [|done]. apply Hkern; [done|]. by right; right.
Qed.

(** Rewriting an entry that is not present, by one that is not. *)
Lemma soft_write_inv xr xw d n x k w s :
  vm_inv xr xw s -> vm_pds s !! d = Some x -> has_table s d n (fst k) -> 0 <= snd k < NLPG ->
  tst (pte_at s k) PG_P = false -> tst w PG_P = false -> vm_inv xr xw (set_pts (<[k := w]> (vm_pts s)) s).
Proof.
  intros Hi Hx Ht Hk EP Ew. set (s1 := set_pts _ _).
  assert (forall q, nmaps q s1 = nmaps q s /\ nwmaps q s1 = nwmaps q s) as Hnm.
  { intros q. rewrite (nmaps_write q k w s s1 eq_refl), (nwmaps_write q k w s s1 eq_refl).
    unfold wmaps, maps, upte. cbn [snd]. rewrite EP, Ew, !andb_false_r. cbn. lia. }
  eapply (vm_inv_entry xr xw xr xw s s1 d n x x k w); try done.
  - rewrite EP, Ew. apply dir_adj_0.
  - cbn. by rewrite insert_id.
  - congruence.
  - apply Hi.
  - apply Hi.
  - intros q pq Hq. destruct (Hnm q) as [-> ->]. by apply (vi_pages _ _ _ Hi).
  - apply Hi.
Qed.

(** ** Removing a translation *)

Lemma find_vpage_run envid va l s :
  (forall a, a ∈ l -> is_Some (vm_vps s !! a)) ->
  wp (find_vpage envid va l) s (fun r s' => s' = s /\ (forall a, r = Some a -> a ∈ l)).
Proof.
  induction l as [|a l IH]; intros H; cbn.
  - apply wp_ret. done.
  - apply wp_bind, wp_of_option. destruct (H a) as [vp Hvp]; [left|]. exists vp. split; [done|].
    destruct (_ && _).
    + apply wp_ret. split; [done|]. intros ? [= <-]. left.
    + eapply wp_mono; [apply IH; intros b Hb; apply H; by right|]. intros r s' [-> Hr].
      split; [done|]. intros b Hb. right. by apply Hr.
Qed.

(** The current environment has a directory. *)
Definition cur_space (s : vm) : Prop :=
  forall i, curenv (vm_et s) = Some i -> exists e x, envs (vm_et s) !! i = Some e /\ vm_pds s !! env_pd e = Some x.

Lemma vm_inv_cur xr xw s : vm_inv xr xw s -> cur_space s.
Proof.
  intros Hi i Hc. destruct (vi_cur _ _ _ Hi _ Hc) as (e & He & Hs). destruct (vi_env _ _ _ Hi _ _ He Hs) as [x Hx]. eauto.
Qed.

Lemma tlb_invalidate_run va id s :
  cur_space s ->
  wp (tlb_invalidate va id) s (fun _ s' => exists fl, s' = set_flush fl s /\
    (forall i e x, curenv (vm_et s) = Some i -> envs (vm_et s) !! i = Some e ->
       vm_pds s !! env_pd e = Some x -> envpd_id x = id -> va ∈ fl)).
Proof.
  intros Hi. unfold tlb_invalidate. wp_steps.
  - destruct (Hi _ E) as (e & x & He & Hx).
    eapply wp_vm_env; [exact He|]. wp_steps. apply wp_get_pd. exists x. split; [exact Hx|].
    wp_steps.
    + exists (va :: vm_flush s). split; [done|]. intros. left.
    + exists (vm_flush s). split; [by destruct s|]. intros i e' x' [= <-] He' Hx' Hid.
      apply Z.eqb_neq in E0. congruence.
  - exists (va :: vm_flush s). split; [done|]. intros. left.
Qed.

Lemma vm_inv_flush xr xw fl s : vm_inv xr xw s -> vm_inv xr xw (set_flush fl s).
Proof.
  intros [X PO PG D T I L K [V1 V2] E C SP Z]. split; try done.
  - intros d x Hx. destruct (D d x Hx). split; done.
  - apply (spaces_keep s); try done; eauto. intros d x Hx. exists x. done.
Qed.

(** A mapped page is in use, and not by the kernel. *)
Lemma mapped_page xr xw s p :
  vm_inv xr xw s -> 0 < nmaps p s + xr p ->
  forall pp, ppages (vm_pool s) !! p = Some pp ->
  exists l n c, pp_u pp = PV l n c /\ nmaps p s + xr p <= n < 2 ^ 16 /\
    pp_status pp <> PP_FREE /\ ~ kernel_status (pp_status pp).
Proof.
  intros Hi H0 pp Hp. destruct (vi_pages _ _ _ Hi p pp Hp) as [R W U C N].
  destruct (pp_u pp) as [|l n c] eqn:Hu; [lia|]. exists l, n, c. split_and!; try done; try lia.
  - intros Hs. apply (pg_u _ _ (proj1 (vi_pool _ _ _ Hi)) p pp Hp) in Hs; [congruence|done].
  - intros Hs. destruct (C Hs). lia.
Qed.

(** Page [pp] after one translation of it was dropped. *)
Definition dropped (l : list Z) (n c w : Z) (pp : Ppage) : Ppage :=
  pp_set_u (PV l (n - 1) c) (pp_set_rw (pp_readers pp - 1) (pp_writers pp - w) pp).

Lemma u16_dec y : 0 < y < 2 ^ 16 -> u16 (y + -1) = y - 1.
Proof. intros. rewrite u16_small; lia. Qed.

(** Dropping the record of a mapping from the page's list, if it is there. *)
Lemma unrecord_run p pp l n c envid va s :
  ppages (vm_pool s) !! p = Some pp -> pp_u pp = PV l n c ->
  (forall a, a ∈ l -> is_Some (vm_vps s !! a)) ->
  wp (unrecord p envid va) s
    (fun _ s' => exists l' vps, s' = upd_page p (pp_set_u (PV l' n c) pp) (set_vps vps s) /\
       ((l' = l /\ vps = vm_vps s) \/ exists a, unlink a l = Some l' /\ vps = delete a (vm_vps s))).
Proof.
  intros Hp Hu Hl. apply wp_bind. eapply wp_get_vpl; [done..|]. apply wp_bind.
  eapply wp_mono; [by apply find_vpage_run|]. intros [a|] s' [-> Ha].
  - destruct (unlink_Some a l) as [l' Hl']; [by apply Ha|]. unfold drop_vpage. apply wp_bind.
    eapply wp_get_vpl; [done..|]. apply wp_bind, wp_of_option. exists l'. split; [done|].
    apply wp_bind. eapply wp_set_vpl; [done..|]. apply wp_modify.
    exists l', (delete a (vm_vps s)). split; [done|]. right. eauto.
  - apply wp_ret. exists l, (vm_vps s). split; [|by left]. rewrite <- Hu.
    assert (pp_set_u (pp_u pp) pp = pp) as -> by (by destruct pp). unfold upd_page. rewrite put_page_id by done. by destruct s.
Qed.

(** The record lists after a drop. *)
Lemma vps_ok_drop p pp pp' l l' vps P' s s' :
  vps_ok s -> ppages (vm_pool s) !! p = Some pp -> pp_vpl pp = l -> NoDup l ->
  ((l' = l /\ vps = vm_vps s) \/ exists a, unlink a l = Some l' /\ vps = delete a (vm_vps s)) ->
  vm_pool s' = P' -> ppages P' = <[p := pp']> (ppages (vm_pool s)) -> (forall a, a ∈ pp_vpl pp' -> a ∈ l') ->
  vm_vps s' = vps -> vps_ok s'.
Proof.
  intros [V1 V2] Hp Hl Hnd Hc EP EPP Hl' Ev. subst P'.
  assert (forall a, a ∈ l' -> a ∈ l /\ is_Some (vps !! a)) as Hin.
  { intros a Ha. destruct Hc as [[-> ->]|(b & Hb & ->)].
    - split; [done|]. eapply V1; [done|]. by rewrite Hl.
    - destruct (unlink_NoDup _ _ _ Hnd Hb) as (_ & _ & H). apply H in Ha as [Ha Hne].
      split; [done|]. rewrite lookup_delete_ne by done. eapply V1; [done|]. by rewrite Hl. }
  assert (forall a q pq, ppages (vm_pool s) !! q = Some pq -> q <> p -> a ∈ pp_vpl pq -> is_Some (vps !! a)) as Hq.
  { intros a q pq Hq Hne Ha. destruct Hc as [[_ ->]|(b & Hb & ->)]; [by eapply V1|].
    rewrite lookup_delete_ne; [by eapply V1|]. intros ->. apply Hne. eapply V2; [done..|].
    rewrite Hl. apply unlink_perm in Hb. rewrite Hb. left. }
  split; rewrite EPP.
  - intros q pq a Hq' Ha. rewrite Ev. destruct (decide (p = q)) as [<-|Hne].
    + rewrite lookup_insert_eq in Hq'. injection Hq' as <-. by apply Hin, Hl'.
    + rewrite lookup_insert_ne in Hq' by done. by eapply Hq.
  - intros q r pq pr a Hq' Hr' Ha Ha'.
    assert (forall z pz, <[p:=pp']> (ppages (vm_pool s)) !! z = Some pz -> a ∈ pp_vpl pz ->
              exists pz0, ppages (vm_pool s) !! z = Some pz0 /\ a ∈ pp_vpl pz0) as Hback.
    { intros z pz Hz Haz. destruct (decide (p = z)) as [<-|Hne].
      - rewrite lookup_insert_eq in Hz. injection Hz as <-. exists pp. split; [done|]. rewrite Hl.
        by apply Hin, Hl'.
      - rewrite lookup_insert_ne in Hz by done. eauto. }
    destruct (Hback q pq Hq' Ha) as (? & ? & ?). destruct (Hback r pr Hr' Ha') as (? & ? & ?). by eapply V2.
Qed.

(** Flushing after an entry of an address space was changed. *)
Lemma flush_run xr xw va d x s :
  vm_inv xr xw s -> vm_pds s !! d = Some x ->
  wp (tlb_invalidate va (envpd_id x)) s (fun _ s' => exists fl, s' = set_flush fl s /\
    (forall i c, curenv (vm_et s) = Some i -> envs (vm_et s) !! i = Some c -> env_pd c = d -> va ∈ fl)).
Proof.
  intros Hi Hx. eapply wp_mono; [by eapply tlb_invalidate_run, vm_inv_cur|]. intros _ s' (fl & -> & Hfl).
  exists fl. split; [done|]. intros i c Hc Hec E. eapply Hfl; [done..|by rewrite E|done].
Qed.

(** How often a page is pinned. *)
Definition pins (s : vm) (q : Z) : option Z := pp_pinned <$> ppages (vm_pool s) !! q.

(** What removing leaves alone. *)
Record removed (d n : Z) (x : EnvPD) (k : Z * Z) (s s' : vm) : Prop := mkRemoved {
  rm_pts : vm_pts s' = <[k := 0]> (vm_pts s);
  rm_pds : exists x', vm_pds s' = <[d := x']> (vm_pds s) /\ dir_adj n (- b2z (tst (pte_at s k) PG_P)) x x';
  rm_et : vm_et s' = vm_et s;
  rm_heap : vm_heap s' = vm_heap s;
  rm_np : nppage (vm_pool s') = nppage (vm_pool s);
  rm_kern : keeps_kernel (vm_pool s) (vm_pool s');
  rm_vps : forall a, vm_vps s !! a = None -> vm_vps s' !! a = None;
  rm_other : forall q, (tst (pte_at s k) PG_P = true -> q <> Z.shiftr (pte_at s k) PGSHIFT) ->
    ppages (vm_pool s') !! q = ppages (vm_pool s) !! q;
  rm_page : forall q pp, ppages (vm_pool s) !! q = Some pp ->
    exists pp', ppages (vm_pool s') !! q = Some pp' /\ pp_acl pp' = pp_acl pp /\ pp_buf pp' = pp_buf pp /\
      ps_readers pp' = ps_readers pp /\ ps_writers pp' = ps_writers pp /\
      (pp_status pp' = pp_status pp \/
       pp_status pp' = PP_FREE /\ pp_refcnt pp = Some 1 /\ tst (pte_at s k) PG_P = true /\
       q = Z.shiftr (pte_at s k) PGSHIFT /\ ~ kernel_status (pp_status pp));
  rm_max : forall b, maxref b s -> maxref b s';
  rm_acl : acl_from s s';
  rm_last : forall pp, tst (pte_at s k) PG_P = true ->
    ppages (vm_pool s) !! Z.shiftr (pte_at s k) PGSHIFT = Some pp -> pp_refcnt pp = Some 1 ->
    exists pp', ppages (vm_pool s') !! Z.shiftr (pte_at s k) PGSHIFT = Some pp' /\ pp_status pp' = PP_FREE;
  rm_pin : forall q, pins s' q = pins s q }.

(** The state after a translation [pte] of page [p] was dropped, before the
    flush. *)
Lemma drop_inv xr xw s s' d n x x' k pp l l' cnt c vps :
  let pte := pte_at s k in let p := Z.shiftr pte PGSHIFT in
  vm_inv xr xw s -> vm_pds s !! d = Some x -> has_table s d n (fst k) -> 0 <= snd k < NLPG ->
  tst pte PG_P = true -> ppages (vm_pool s) !! p = Some pp -> pp_u pp = PV l cnt c ->
  ((l' = l /\ vps = vm_vps s) \/ exists a, unlink a l = Some l' /\ vps = delete a (vm_vps s)) ->
  vm_pts s' = <[k := 0]> (vm_pts s) -> vm_pds s' = <[d := x']> (vm_pds s) -> dir_adj n (-1) x x' ->
  vm_et s' = vm_et s -> vm_vps s' = vps -> vm_heap s' = vm_heap s ->
  vm_pool s' = unref p (dropped l' cnt c (b2z (tst pte PG_W)) pp) (cnt - 1) (vm_pool s) ->
  vm_inv xr xw s' /\ removed d n x k s s'.
Proof.
  intros pte p Hi Hx Ht Hk HP Hp Hu Hl Epts Epds Hadj Eet Evps Eheap Epool.
  assert (upte (k, pte) = true) as Hup by (by rewrite (upte_in d n (fst k) s xr xw)).
  assert (maps p (k, pte) = true) as Hm by (unfold maps; rewrite Hup; apply Z.eqb_refl).
  assert (1 <= nmaps p s) as Hn1.
  { pose proof (kcount_pos (maps p) (vm_pts s) k pte (pte_present _ _ HP) Hm). unfold nmaps. lia. }
  pose proof (vi_x _ _ _ Hi p) as Hxp.
  destruct (mapped_page xr xw s p Hi ltac:(lia) pp Hp) as (l0 & n0 & c0 & Hu0 & Hc & Hst & Hks).
  rewrite Hu in Hu0. injection Hu0 as <- <- <-.
  pose proof (vi_pages _ _ _ Hi p pp Hp) as [R W U C N].
  assert (forall q, nmaps q s' = nmaps q s - b2z (bool_decide (q = p))) as Hnm.
  { intros q. rewrite (nmaps_write q k 0 s s' Epts), maps_0. fold pte. unfold maps. rewrite Hup. cbn [andb snd].
    change (Z.shiftr pte PGSHIFT) with p. destruct (Z.eqb_spec p q); case_bool_decide; cbn; lia. }
  assert (forall q, nwmaps q s' = nwmaps q s - b2z (bool_decide (q = p) && tst pte PG_W)) as Hnw.
  { intros q. rewrite (nwmaps_write q k 0 s s' Epts), wmaps_0. fold pte. unfold wmaps, maps. rewrite Hup.
    cbn [andb snd]. change (Z.shiftr pte PGSHIFT) with p. destruct (Z.eqb_spec p q); case_bool_decide; cbn; lia. }
  set (pp3 := dropped l' cnt c (b2z (tst pte PG_W)) pp) in *.
  set (ppf := if cnt - 1 =? 0 then pp_set_status PP_FREE (pp_set_u PLink pp3) else pp3).
  assert (ppages (vm_pool s') = <[p := ppf]> (ppages (vm_pool s))) as Epp by (rewrite Epool; apply unref_ppages).
  assert (pp_vpl ppf = if cnt - 1 =? 0 then [] else l') as Evpl.
  { unfold ppf. by destruct (cnt - 1 =? 0). }
  assert (keeps_kernel (vm_pool s) (vm_pool s')) as Hkeep.
  { split; rewrite Epp; intros q pq Hq.
    - destruct (decide (p = q)) as [<-|]; [rewrite lookup_insert_eq|rewrite lookup_insert_ne by done]; eauto.
    - intros Hkq. rewrite lookup_insert_ne; [done|]. intros <-. apply Hks. congruence. }
  assert (page_ok (nmaps p s' + xr p) (nwmaps p s' + xw p) ppf) as Hpf.
  { rewrite Hnm, Hnw, bool_decide_true by done. cbn [andb]. unfold ppf.
    assert (NoDup l') as Hndl.
    { unfold pp_vpl in N. rewrite Hu in N.
      destruct Hl as [[-> _]|(a & Ha & _)]; [done|]. by destruct (unlink_NoDup _ _ _ N Ha). }
    destruct (Z.eqb_spec (cnt - 1) 0); split; cbn; try lia; try done; try (by constructor).
    intros [Hs|[Hs|Hs]]; discriminate Hs. }
  split.
  - eapply (vm_inv_entry xr xw xr xw s s' d n x x' k 0); rewrite ?Eet; try done.
    + fold pte. by rewrite HP.
    + apply Hi.
    + rewrite Epool. eapply unref_pool_ok; [apply Hi|exact Hp|done|..|done|done|done|done].
      intros E. apply Hks. by right; left.
    + intros q pq Hq. rewrite Epp in Hq. destruct (decide (p = q)) as [<-|Hne].
      * rewrite lookup_insert_eq in Hq. injection Hq as <-. exact Hpf.
      * rewrite lookup_insert_ne in Hq by done. rewrite Hnm, Hnw, bool_decide_false by done. cbn.
        rewrite !Z.sub_0_r. by apply (vi_pages _ _ _ Hi).
    + unfold pp_vpl in N. rewrite Hu in N.
      apply (vps_ok_drop p pp ppf l l' vps (vm_pool s') s s'); try done.
      * apply Hi.
      * unfold pp_vpl. by rewrite Hu.
      * rewrite Evpl. destruct (cnt - 1 =? 0); [|done]. intros a Ha. by apply not_elem_of_nil in Ha.
  - split; try done.
    + exists x'. split; [done|]. fold pte. by rewrite HP.
    + rewrite Epool. apply unref_nppage.
    + intros a Ha. rewrite Evps. destruct Hl as [[_ ->]|(b & _ & ->)]; [done|].
      apply lookup_delete_None. by right.
    + intros q Hq. rewrite Epp. apply lookup_insert_ne. intros <-. by apply Hq.
    + intros q pq Hq. rewrite Epp. destruct (decide (p = q)) as [<-|Hne].
      * rewrite lookup_insert_eq. assert (pq = pp) as -> by congruence. eexists. split; [done|].
        unfold ppf. destruct (Z.eqb_spec (cnt - 1) 0); cbn; split_and!; auto. right. split_and!; auto.
        unfold pp_refcnt. rewrite Hu. f_equal. lia.
      * rewrite lookup_insert_ne by done. eauto 10.
    + intros b Hb q pq lq nq cq Hq Huq. rewrite Epp in Hq. destruct (decide (p = q)) as [<-|Hne].
      * rewrite lookup_insert_eq in Hq. injection Hq as <-. unfold ppf in Huq.
        destruct (cnt - 1 =? 0); [done|]. injection Huq as <- <- <-. pose proof (Hb p pp l cnt c Hp Hu). lia.
      * rewrite lookup_insert_ne in Hq by done. by eapply Hb.
    + intros q pq Hq. left. rewrite Epp in Hq. destruct (decide (p = q)) as [<-|Hne].
      * rewrite lookup_insert_eq in Hq. injection Hq as <-. exists pp. split; [done|].
        unfold ppf. by destruct (cnt - 1 =? 0).
      * rewrite lookup_insert_ne in Hq by done. eauto.
    + intros pq _ Hq Href. fold pte p in Hq |- *. assert (pq = pp) as -> by congruence.
      unfold pp_refcnt in Href. rewrite Hu in Href. injection Href as ->. rewrite Epp, lookup_insert_eq.
      eexists. split; [done|]. done.
    + intros q. unfold pins. rewrite Epp. destruct (decide (p = q)) as [<-|Hne].
      * rewrite lookup_insert_eq, Hp. unfold ppf. by destruct (cnt - 1 =? 0).
      * by rewrite lookup_insert_ne.
Qed.

Lemma acl_from_refl s : acl_from s s.
Proof. intros q pq Hq. left. eauto. Qed.

Lemma acl_from_trans s1 s2 s3 : acl_from s1 s2 -> acl_from s2 s3 -> acl_from s1 s3.
Proof.
  intros H1 H2 q pq Hq. destruct (H2 q pq Hq) as [(pq2 & Hq2 & E)|E]; [|by right].
  destruct (H1 q pq2 Hq2) as [(pq1 & Hq1 & E')|E']; [left; exists pq1|right]; rewrite E; auto.
Qed.

Lemma va_table s d x va :
  vm_pds s !! d = Some x -> uva va -> tst (va_pde x va) PG_P = true ->
  has_table s d (PDENO va) (fst (pt_get_ptep x va)).
Proof. intros Hx Hva HP. exists x. split_and!; try done; by apply pdeno_range. Qed.

Lemma ppage_remove_spec xr xw ei e x va s :
  vm_inv xr xw s -> envs (vm_et s) !! ei = Some e -> vm_pds s !! env_pd e = Some x ->
  uva va -> tst (va_pde x va) PG_P = true ->
  wp (ppage_remove ei va) s (fun r s' => r = 0 /\ vm_inv xr xw s' /\
    removed (env_pd e) (PDENO va) x (pt_get_ptep x va) s s' /\
    (tst (pte_at s (pt_get_ptep x va)) PG_P = true -> forall i c, curenv (vm_et s) = Some i ->
       envs (vm_et s) !! i = Some c -> env_pd c = env_pd e -> clr va PGMASK ∈ vm_flush s')).
Proof.
  intros Hi He Hx Hva HP. unfold ppage_remove. wp_steps. eapply wp_vm_env; [exact He|]. wp_steps.
  apply wp_get_pd. exists x. split; [exact Hx|]. wp_steps. apply wp_gets.
  set (k := pt_get_ptep x va) in *. change (default 0 (vm_pts s !! k)) with (pte_at s k).
  pose proof (va_table s _ x va Hx Hva HP) as Ht. fold k in Ht.
  assert (0 <= snd k < NLPG) as Hk by apply pteno_range.
  destruct (tst (pte_at s k) PG_P) eqn:EP.
  - (* present *)
    assert (upte (k, pte_at s k) = true) as Hup by (by rewrite (upte_in _ _ (fst k) s xr xw _ _ Hi Ht)).
    destruct (vi_live _ _ _ Hi k _ (pte_present _ _ EP) Hup) as (_ & _ & Hw & [pp Hp]).
    set (p := Z.shiftr (pte_at s k) PGSHIFT) in *.
    assert (maps p (k, pte_at s k) = true) as Hm by (unfold maps; rewrite Hup; apply Z.eqb_refl).
    pose proof (kcount_pos (maps p) (vm_pts s) k _ (pte_present _ _ EP) Hm) as Hn1.
    change (kcount (maps p) (vm_pts s)) with (nmaps p s) in Hn1. pose proof (vi_x _ _ _ Hi p) as Hxp.
    destruct (mapped_page xr xw s p Hi ltac:(lia) pp Hp) as (l & n & c & Hu & Hn & Hst & Hks).
    destruct (vi_pages _ _ _ Hi p pp Hp) as [R W U C N].
    assert (p < nppage (vm_pool s)) as Hpn by (apply (pg_dom _ _ (proj1 (vi_pool _ _ _ Hi))); eauto).
    assert (dir_adj (PDENO va) (-1) x (nptes_add (PDENO va) (-1) x)) as Hadj.
    { apply nptes_add_adj. rewrite (do_nptes _ _ (vi_dirs _ _ _ Hi _ x Hx)) by (by apply pdeno_range).
      change (pde_at x (envpd_active x) (PDENO va)) with (va_pde x va). rewrite HP.
      pose proof (intab_bound xr xw s (Z.shiftr (va_pde x va) PGSHIFT) Hi).
      pose proof (kcount_nonneg (intab (Z.shiftr (va_pde x va) PGSHIFT)) (vm_pts s)). unfold NLPG in *. lia. }
    wp_steps; [lia|]. clear E.
    eapply wp_upd_page; [exact Hp|]. wp_steps. eapply wp_upd_pd; [exact Hx|]. wp_steps.
    eapply wp_mono.
    { eapply (unrecord_run p); [apply upd_page_lookup|exact Hu|]. intros a Ha. cbn.
      apply (proj1 (vi_vps _ _ _ Hi) p pp a Hp). unfold pp_vpl. by rewrite Hu. }
    intros _ s3 (l' & vps & -> & Hl'). apply wp_bind.
    eapply wp_add_refcnt; [apply upd_page_lookup|reflexivity|]. rewrite u16_dec by lia. apply wp_bind.
    eapply wp_release; [apply upd_page_lookup|reflexivity|]. apply wp_bind, wp_modify, wp_bind.
    match goal with |- wp _ ?S _ => set (s4 := S) end.
    destruct (drop_inv xr xw s s4 (env_pd e) (PDENO va) x (nptes_add (PDENO va) (-1) x) k pp l l' n c vps)
      as [Hi4 Hr4]; try done.
    { cbn. rewrite !unref_put. fold p. f_equal. unfold dropped. rewrite !u16_dec by lia.
      assert (u16 (pp_writers pp + (if tst (pte_at s k) PG_W then -1 else 0)) =
              pp_writers pp - b2z (tst (pte_at s k) PG_W)) as ->; [|done].
      pose proof (nwmaps_le p s). destruct (tst (pte_at s k) PG_W) eqn:EW; cbn; [|apply u16_small; lia].
      assert (wmaps p (k, pte_at s k) = true) as Hwm by (unfold wmaps; by rewrite Hm).
      pose proof (kcount_pos (wmaps p) (vm_pts s) k _ (pte_present _ _ EP) Hwm) as Hw1.
      change (kcount (wmaps p) (vm_pts s)) with (nwmaps p s) in Hw1. apply u16_dec. lia. }
    eapply wp_mono; [apply (flush_run xr xw _ (env_pd e) (nptes_add (PDENO va) (-1) x)); [done|]|].
    { apply lookup_insert_eq. }
    intros _ s5 (fl & -> & Hfl). apply wp_ret. split; [done|]. split; [by apply vm_inv_flush|].
    split; [by destruct Hr4; split|]. intros _ i cc. apply Hfl.
  - apply wp_bind, wp_modify, wp_bind.
    match goal with |- wp _ ?S _ => set (s1 := S) end.
    assert (vm_inv xr xw s1) as Hi1 by (by apply (soft_write_inv xr xw (env_pd e) (PDENO va) x)).
    eapply wp_mono; [by apply (flush_run xr xw _ (env_pd e) x)|].
    intros _ s5 (fl & -> & Hfl). apply wp_ret. split; [done|]. split; [by apply vm_inv_flush|].
    split; [|done]. split; try done.
    + exists x. split; [cbn; by rewrite insert_id|]. rewrite EP. apply dir_adj_0.
    + intros q pq Hq. exists pq. auto 8.
    + intros q pq Hq. left. eauto.
    + intros pq HPk. congruence.
Qed.

(** ** Adding a page table *)

Lemma pde_at_set r n w x r' n' :
  pde_at (pde_set r n w x) r' n' = if decide (r' = r /\ n' = n) then w else pde_at x r' n'.
Proof.
  unfold pde_at, pde_set, pd_pdir. cbn. destruct (decide (r' = r)) as [->|Hr].
  - rewrite lookup_insert_eq. cbn. destruct (decide (n' = n)) as [->|Hn].
    + rewrite lookup_insert_eq, decide_True by done. done.
    + rewrite lookup_insert_ne, decide_False by naive_solver. by destruct (envpd_pdir x !! r).
  - rewrite lookup_insert_ne, decide_False by naive_solver. done.
Qed.

Lemma pte_of_spec p perm : 0 <= p < 2 ^ 20 -> 0 <= perm < NBPG ->
  let w := Z.lor (pp2pa p) perm in
  0 <= w < 2 ^ 32 /\ Z.shiftr w PGSHIFT = p /\ (forall m, 0 <= m < NBPG -> tst w m = tst perm m).
Proof.
  intros Hp Hperm w. subst w. unfold pp2pa.
  assert (0 <= Z.shiftl p PGSHIFT < 2 ^ 32) as Hr by (rewrite Z.shiftl_mul_pow2 by done; unfold PGSHIFT; lia).
  rewrite u32_small by done.
  assert (Z.land (Z.shiftl p PGSHIFT) (Z.ones 12) = 0) as Hlow.
  { rewrite Z.land_ones by done. rewrite Z.shiftl_mul_pow2 by done. apply Z.mod_mul. done. }
  assert (forall y, 0 <= y < NBPG -> Z.land y (Z.ones 12) = y) as Hsm
    by (intros y Hy; rewrite Z.land_ones by done; apply Z.mod_small; exact Hy).
  assert (Z.shiftr (Z.lor (Z.shiftl p PGSHIFT) perm) PGSHIFT = p) as Hsh.
  { rewrite Z.shiftr_lor, Z.shiftr_shiftl_l by done. cbn. rewrite Z.shiftl_0_r.
    rewrite (Z.shiftr_div_pow2 perm) by done. rewrite Z.div_small by exact Hperm. apply Z.lor_0_r. }
  split_and!; [apply Z.lor_nonneg; lia| |done|].
  - assert (Z.lor (Z.shiftl p PGSHIFT) perm / 2 ^ 12 = p) as Hd by (rewrite <- Z.shiftr_div_pow2 by done; exact Hsh).
    assert (0 <= Z.lor (Z.shiftl p PGSHIFT) perm) by (apply Z.lor_nonneg; lia).
    pose proof (Z.div_mod (Z.lor (Z.shiftl p PGSHIFT) perm) (2 ^ 12)).
    pose proof (Z.mod_pos_bound (Z.lor (Z.shiftl p PGSHIFT) perm) (2 ^ 12)). lia.
  - intros m Hm. unfold tst. do 2 f_equal. rewrite <- (Hsm m Hm), (Z.land_comm m), !Z.land_assoc.
    rewrite Z.land_lor_distr_l, Hlow. cbn [Z.lor]. done.
Qed.

Lemma pde_of_spec p : 0 <= p < 2 ^ 20 ->
  tst (pde_of p) PG_P = true /\ Z.shiftr (pde_of p) PGSHIFT = p.
Proof.
  intros Hp. destruct (pte_of_spec p (Z.lor PG_P (Z.lor PG_W PG_U)) Hp ltac:(done)) as (_ & Hs & Ht).
  split; [|done]. unfold pde_of. by rewrite Ht.
Qed.

Lemma upde_uaddr n : upde n -> n <> PDENO UADDR.
Proof. assert (NUPDE <= PDENO UADDR /\ PDENO UADDR <> PDENO UADDRS) as [H1 H2] by (by vm_compute). intros [?| ->]; [lia|congruence]. Qed.

Lemma pde_set_space d r n w x :
  n <> PDENO UADDR -> n <> PDENO UADDRS \/ tst w PG_P = true \/ g_open ktabs d = true -> same_space d x (pde_set r n w x).
Proof.
  intros Hn Hw. assert (uaddr_tab (pde_set r n w x) = uaddr_tab x) as E.
  { unfold uaddr_tab, uaddr_pde. change (envpd_active (pde_set r n w x)) with (envpd_active x). rewrite pde_at_set.
    by rewrite decide_False by (intros [_ ?]; congruence). }
  split_and!; try done; [unfold own_pages; by rewrite E|]. intros Ho HP. unfold uaddrs_pde in *.
  change (envpd_active (pde_set r n w x)) with (envpd_active x). rewrite pde_at_set. destruct (decide _) as [[_ <-]|]; [|done].
  destruct Hw as [?|[?|?]]; [done|done|congruence].
Qed.

(** A directory entry [n] was filled with the fresh table [t]. *)
Record tabled (d n t : Z) (x : EnvPD) (s s' : vm) : Prop := mkTabled {
  tb_free : exists pt, ppages (vm_pool s) !! t = Some pt /\ pp_status pt = PP_FREE /\
    reclaimed t PP_KERNEL pt (vm_pool s) (vm_pool s');
  tb_pts : vm_pts s' = filter (fun kv => fst (fst kv) <> t) (vm_pts s);
  tb_pds : vm_pds s' = <[d := pde_set (envpd_active x) n (pde_of t) x]> (vm_pds s);
  tb_et : vm_et s' = vm_et s;
  tb_vps : vm_vps s' = vm_vps s;
  tb_heap : vm_heap s' = vm_heap s;
  tb_flush : vm_flush s' = vm_flush s }.

Lemma free_not_table xr xw s t pt :
  vm_inv xr xw s -> ppages (vm_pool s) !! t = Some pt -> pp_status pt = PP_FREE ->
  (t ∉ g_tabs ktabs) /\ (forall d n, ~ has_table s d n t) /\ nmaps t s = 0 /\ nwmaps t s = 0 /\ xr t = 0 /\ xw t = 0.
Proof.
  intros Hi Ht Hs.
  assert (forall pp, ppages (vm_pool s) !! t = Some pp -> kernel_status (pp_status pp) -> False) as Hnk.
  { intros pp Hp Hk. assert (pp = pt) as -> by congruence. rewrite Hs in Hk. by destruct Hk as [?|[?|?]]. }
  destruct (vi_pages _ _ _ Hi t pt Ht) as [_ _ U _ _].
  apply (pg_u _ _ (proj1 (vi_pool _ _ _ Hi)) t pt Ht) in Hs; [|done]. rewrite Hs in U.
  pose proof (nwmaps_le t s). pose proof (vi_x _ _ _ Hi t).
  split_and!; try lia.
  - intros Hk. destruct (vi_ktab _ _ _ Hi t Hk) as (pp & Hp & H'). by eapply Hnk.
  - intros d n H'. destruct (vi_tab _ _ _ Hi d n t H') as (_ & pp & Hp & ? & _).
    eapply Hnk; [done|by left].
Qed.

Lemma tabled_frame xr xw d n t x s s' :
  vm_inv xr xw s -> tabled d n t x s s' ->
  (tst (pde_of t) PG_P = true /\ Z.shiftr (pde_of t) PGSHIFT = t) /\
  (forall f, (forall kv, f kv = true -> upte kv = true) -> kcount f (vm_pts s') = kcount f (vm_pts s)) /\
  kcount (intab t) (vm_pts s) = 0 /\
  (forall q pq, ppages (vm_pool s) !! q = Some pq -> pp_status pq <> PP_FREE ->
     ppages (vm_pool s') !! q = Some pq).
Proof.
  intros Hi [(pt & Hpt & Hst & Hrc) Epts Epds Eet Evps Eheap Efl].
  destruct (free_not_table xr xw s t pt Hi Hpt Hst) as (_ & Hnt & _).
  assert (forall k w, vm_pts s !! k = Some w -> upte (k, w) = true -> fst k <> t) as Hlive.
  { intros k w Hkw Hu E. destruct (vi_live _ _ _ Hi k w Hkw Hu) as ((d' & n' & H') & _).
    apply (Hnt d' n'). by rewrite <- E. }
  split_and!.
  - apply pde_of_spec. pose proof (pg_size _ _ (proj1 (vi_pool _ _ _ Hi))).
    assert (0 <= t < nppage (vm_pool s)) by (apply (pg_dom _ _ (proj1 (vi_pool _ _ _ Hi))); eauto). lia.
  - apply pde_of_spec. pose proof (pg_size _ _ (proj1 (vi_pool _ _ _ Hi))).
    assert (0 <= t < nppage (vm_pool s)) by (apply (pg_dom _ _ (proj1 (vi_pool _ _ _ Hi))); eauto). lia.
  - intros f Hf. rewrite Epts. apply kcount_filter. intros k w Hkw Hfk. cbn. eapply Hlive; eauto.
  - apply kcount_zero. intros k w Hkw. destruct (intab t (k, w)) eqn:E; [|done]. unfold intab in E.
    apply andb_true_iff in E as [Hu Et%Z.eqb_eq]. cbn in Et. by destruct (Hlive k w Hkw Hu).
  - intros q pq Hq Hsq. rewrite (rc_ppages _ _ _ _ _ Hrc), lookup_insert_ne; [done|]. intros <-. congruence.
Qed.

Lemma tabled_has_table d n t x s s' :
  vm_pds s !! d = Some x -> upde n -> tst (pde_at x (envpd_active x) n) PG_P = false ->
  tst (pde_of t) PG_P = true /\ Z.shiftr (pde_of t) PGSHIFT = t -> tabled d n t x s s' ->
  forall d' n' t', has_table s' d' n' t' <-> (d' = d /\ n' = n /\ t' = t) \/ has_table s d' n' t'.
Proof.
  intros Hx Hn HP [HtP Htt] Htb d' n' t'. unfold has_table. rewrite (tb_pds _ _ _ _ _ _ Htb).
  destruct (decide (d = d')) as [<-|Hne].
  - rewrite lookup_insert_eq. split.
    + intros (y & [= <-] & Hn' & H1 & H2). change (envpd_active (pde_set _ _ _ x)) with (envpd_active x) in *.
      rewrite pde_at_set in H1, H2. destruct (decide _) as [[_ ->]|Hne]; [left; split_and!; congruence|right; eauto].
    + intros [(_ & -> & ->)|(y & Hy & Hn' & H1 & H2)].
      * eexists. split; [done|]. change (envpd_active (pde_set _ _ _ x)) with (envpd_active x).
        rewrite pde_at_set, decide_True by done. done.
      * assert (y = x) as -> by congruence. eexists. split; [done|].
        change (envpd_active (pde_set _ _ _ x)) with (envpd_active x).
        rewrite pde_at_set, decide_False; [done|]. intros [_ ->]. congruence.
  - rewrite lookup_insert_ne by done. split; [by right|]. intros [(-> & _)|?]; done.
Qed.

Lemma tabled_inv xr xw d n t x s s' :
  vm_inv xr xw s -> vm_pds s !! d = Some x -> upde n ->
  tst (pde_at x (envpd_active x) n) PG_P = false -> tabled d n t x s s' -> pool_ok (vm_pool s') ->
  vm_inv xr xw s'.
Proof.
  intros Hi Hx Hn HP Htb Hpool. destruct (tabled_frame xr xw d n t x s s' Hi Htb) as ([HtP Htt] & Hcnt & Ht0 & Hkeep).
  pose proof (tabled_has_table d n t x s s' Hx Hn HP (conj HtP Htt) Htb) as Htab.
  destruct Htb as [(pt & Hpt & Hst & Hrc) Epts Epds Eet Evps Eheap Efl].
  destruct (free_not_table xr xw s t pt Hi Hpt Hst) as (Hk & Hnt & Hm0 & Hw0 & Hx0 & Hy0).
  pose proof (rc_ppages _ _ _ _ _ Hrc) as Epp.
  assert (forall p, nmaps p s' = nmaps p s) as Hnm
    by (intros p; apply Hcnt; intros kv; unfold maps; by intros [? _]%andb_true_iff).
  assert (forall p, nwmaps p s' = nwmaps p s) as Hnw.
  { intros p. apply Hcnt. intros kv. unfold wmaps, maps. by intros [[? _]%andb_true_iff _]%andb_true_iff. }
  assert (forall q, kcount (intab q) (vm_pts s') = kcount (intab q) (vm_pts s)) as Hin
    by (intros p; apply Hcnt; intros kv; unfold intab; by intros [? _]%andb_true_iff).
  assert (forall q pq, ppages (vm_pool s') !! q = Some pq ->
            (q = t /\ pq = initpp PP_KERNEL pt) \/ (q <> t /\ ppages (vm_pool s) !! q = Some pq)) as Hpg.
  { intros q pq Hq. rewrite Epp in Hq. destruct (decide (t = q)) as [<-|Hne].
    - rewrite lookup_insert_eq in Hq. injection Hq as <-. by left.
    - rewrite lookup_insert_ne in Hq by done. by right. }
  split; rewrite ?Eet; try apply Hi; try done.
  - intros q pq Hq. rewrite Hnm, Hnw. destruct (Hpg q pq Hq) as [[-> ->]|[_ Hq']]; [|by apply (vi_pages _ _ _ Hi)].
    rewrite Hm0, Hw0, Hx0, Hy0. split; cbn; try done. constructor.
  - intros d' y Hy. rewrite Epds in Hy. destruct (decide (d = d')) as [<-|Hne].
    + rewrite lookup_insert_eq in Hy. injection Hy as <-. destruct (vi_dirs _ _ _ Hi d x Hx) as [R A C D N].
      split; try done; intros m Hm; cbn; rewrite pde_at_set.
      * destruct (decide _); [by rewrite Htt|by apply D].
      * change (nptes_at (pde_set _ _ _ x) m) with (nptes_at x m). rewrite (N m Hm).
        destruct (decide _) as [[_ ->]|Hnm']; [|by rewrite Hin].
        by rewrite HP, HtP, Htt, Hin, Ht0.
    + rewrite lookup_insert_ne in Hy by done. destruct (vi_dirs _ _ _ Hi d' y Hy) as [R A C D N].
      split; try done. intros m Hm. cbn. by rewrite (N m Hm), Hin.
  - intros d' n' t' [(-> & -> & ->)|H']%Htab.
    + split; [done|]. exists (initpp PP_KERNEL pt). rewrite Epp, lookup_insert_eq. done.
    + destruct (vi_tab _ _ _ Hi d' n' t' H') as (? & pp & Hp & Hs & Hr). split; [done|]. exists pp.
      split; [|done]. apply Hkeep; [done|]. by rewrite Hs.
  - intros d1 n1 d2 n2 t' [(-> & -> & ->)|H1]%Htab [(-> & -> & E)|H2]%Htab; subst; try done.
    + by destruct (Hnt d2 n2).
    + by destruct (Hnt d1 n1).
    + by eapply (vi_inj _ _ _ Hi).
  - intros k w Hkw Hu. rewrite Epts in Hkw. apply map_lookup_filter_Some in Hkw as [Hkw _].
    destruct (vi_live _ _ _ Hi k w Hkw Hu) as ((d' & n' & H') & ? & ? & H3).
    split; [exists d', n'; apply Htab; by right|]. split; [done|]. split; [done|].
    rewrite Epp. destruct (decide (t = Z.shiftr w PGSHIFT)) as [->|];
      [rewrite lookup_insert_eq; eauto|by rewrite lookup_insert_ne].
  - intros q Hq. destruct (vi_ktab _ _ _ Hi q Hq) as (pp & Hp & Hs). exists pp. split; [|done].
    apply Hkeep; [done|]. by destruct Hs as [->|[->| ->]].
  - destruct (vi_vps _ _ _ Hi) as [V1 V2]. split; rewrite ?Evps.
    + intros q pq a Hq Ha. destruct (Hpg q pq Hq) as [[-> ->]|[_ Hq']]; [by apply not_elem_of_nil in Ha|by eapply V1].
    + intros q r pq pr a Hq Hr Ha Ha'. destruct (Hpg q pq Hq) as [[-> ->]|[_ Hq']]; [by apply not_elem_of_nil in Ha|].
      destruct (Hpg r pr Hr) as [[-> ->]|[_ Hr']]; [by apply not_elem_of_nil in Ha'|]. by eapply V2.
  - intros i e He Hs. destruct (vi_env _ _ _ Hi i e He Hs) as [y Hy]. rewrite Epds.
    destruct (decide (d = env_pd e)) as [->|]; [rewrite lookup_insert_eq; eauto|by rewrite lookup_insert_ne].
  - apply (spaces_keep s); [apply Hi|by rewrite Eet| | |].
    + intros d' y Hy. rewrite Epds in Hy. destruct (decide (d = d')) as [<-|Hne].
      * rewrite lookup_insert_eq in Hy. injection Hy as <-. exists x. split; [done|]. apply pde_set_space; [by apply upde_uaddr|by right; left].
      * rewrite lookup_insert_ne in Hy by done. by exists y.
    + intros q (pq & Hq & Hs & Hr) _. exists pq. split; [|done]. apply Hkeep; [done|by rewrite Hs].
    + intros d' m t' [(-> & -> & ->)|H']%Htab; [right|by left]. intros (pp & Hp & Hs & _).
      assert (pp = pt) as -> by congruence. by rewrite Hst in Hs.
  - destruct (vi_zero _ _ _ Hi) as (pz & Hz & Hs). exists pz. split; [|done]. apply Hkeep; [done|by rewrite Hs].
Qed.

(** The loop over the other CPUs' directories finds none. *)
Lemma other_dirs_run d y f l s :
  vm_pds s !! d = Some y -> (forall r, cr3_at y r <> 0 -> r = envpd_active y) ->
  wp (mfor (fun r => x <- get_pd d ;;
        if negb (r =? envpd_active x) && negb (cr3_at x r =? 0) then upd_pd d (f r) else mreturn tt) l) s
    (fun _ s' => s' = s).
Proof.
  intros Hy Hc. induction l as [|r l IH]; cbn; [by apply wp_ret|].
  apply wp_bind, wp_bind, wp_get_pd. exists y. split; [done|].
  destruct (negb (r =? envpd_active y) && negb (cr3_at y r =? 0)) eqn:E; [|by apply wp_ret].
  apply andb_true_iff in E as [E1%negb_true_iff%Z.eqb_neq E2%negb_true_iff%Z.eqb_neq].
  by destruct E1; apply Hc.
Qed.

Lemma pde_check_n_alloc_spec xr xw d x va s :
  vm_inv xr xw s -> vm_pds s !! d = Some x -> uva va ->
  wp (pde_check_n_alloc d va) s (fun r s' => vm_inv xr xw s' /\
    (r = 0 /\ tst (va_pde x va) PG_P = true /\ s' = s \/
     r = 0 /\ tst (va_pde x va) PG_P = false /\ (exists t, tabled d (PDENO va) t x s s') \/
     r = - E_NO_MEM /\ s' = s)).
Proof.
  intros Hi Hx Hva. destruct (vi_dirs _ _ _ Hi d x Hx) as [R A C D N]. unfold pde_check_n_alloc.
  wp_steps. apply wp_get_pd. exists x. split; [done|]. wp_steps.
  { rewrite (proj2 (Z.ltb_lt _ _)), (proj2 (Z.leb_le 0 _)), (proj2 (Z.leb_le _ NR_CPUS)) by lia. cbn.
    apply negb_true_iff, Z.eqb_neq. by apply C. }
  { split; [done|]. by left. }
  apply wp_zoom. eapply wp_mono; [apply ppage_alloc_spec; [apply Hi|done]|]. intros r P1 [Hpool H].
  destruct (find_free_ref 0 (vm_pool s)) as [t|] eqn:Ef; destruct H as [-> H]; cbn.
  2: { subst P1. apply wp_ret. replace (set_pool (vm_pool s) s) with s by (by destruct s). auto. }
  destruct H as (pt & Hpt & Hrc). apply wp_bind, wp_modify, wp_bind.
  eapply wp_upd_pd; [exact Hx|]. apply wp_bind.
  eapply wp_mono; [eapply other_dirs_run; [apply lookup_insert_eq|intros r; apply C]|].
  intros _ s2 ->. apply wp_ret. match goal with |- vm_inv _ _ ?S /\ _ => set (s3 := S) end.
  assert (tabled d (PDENO va) t x s s3) as Htb.
  { split; try done. exists pt. split; [done|]. split; [|done].
    destruct (reclaimable_free (vm_pool s) t) as (pt' & Hpt' & Hs).
    - eapply find_free_ref_sound, Ef. apply (vi_pool _ _ _ Hi).
    - congruence. }
  split; [|right; left; eauto].
  eapply tabled_inv; [exact Hi|exact Hx|by apply pdeno_range|exact E|exact Htb|done].
Qed.

(** ** Changing one page *)

(** No directory has page [p] as its own page or as a table. *)
Record unused (p : Z) (s : vm) : Prop := mkUnused {
  un_table : forall d n, ~ has_table s d n p;
  un_tabs : p ∉ g_tabs ktabs;
  un_own : forall d x, vm_pds s !! d = Some x -> p ∉ own_pages x }.

Lemma unused_other xr xw p pp s :
  vm_inv xr xw s -> ppages (vm_pool s) !! p = Some pp -> ~ kernel_status (pp_status pp) -> unused p s.
Proof.
  intros Hi Hp Hk. split.
  - intros d n H'. destruct (vi_tab _ _ _ Hi d n p H') as (_ & pq & Hq & Hs & _). apply Hk. left. congruence.
  - intros H'. destruct (vi_ktab _ _ _ Hi p H') as (pq & Hq & Hs). apply Hk. congruence.
  - intros d x Hx Hin. destruct (sp_own _ _ _ (proj1 (vi_spaces _ _ _ Hi) d x Hx) p Hin) as [(pq & Hq & Hs & _) _].
    apply Hk. left. congruence.
Qed.

(** A page no directory uses, or what directories do not look at. *)
Lemma vm_inv_change xr xw xr' xw' s s' p pp pp' :
  vm_inv xr xw s -> ppages (vm_pool s) !! p = Some pp ->
  unused p s /\ pp_status pp <> PP_INVAL \/ pp_status pp' = pp_status pp /\ pp_refcnt pp' = pp_refcnt pp ->
  ppages (vm_pool s') = <[p := pp']> (ppages (vm_pool s)) ->
  vm_pts s' = vm_pts s -> vm_pds s' = vm_pds s ->
  envs (vm_et s') = envs (vm_et s) -> curenv (vm_et s') = curenv (vm_et s) ->
  pool_ok (vm_pool s') -> (forall q, 0 <= xw' q <= xr' q) ->
  (forall q, q <> p -> xr' q = xr q /\ xw' q = xw q) ->
  page_ok (nmaps p s + xr' p) (nwmaps p s + xw' p) pp' -> vps_ok s' -> vm_inv xr' xw' s'.
Proof.
  intros Hi Hp Hor Epp Epts Epds Eenv Ecur Hpool Hxx Hother Hpage Hvps.
  assert (forall q pq, ppages (vm_pool s) !! q = Some pq -> (q = p -> ~ unused p s) ->
            exists pq', ppages (vm_pool s') !! q = Some pq' /\ pp_status pq' = pp_status pq /\ pp_refcnt pq' = pp_refcnt pq) as Hkeep.
  { intros q pq Hq Hk. rewrite Epp. destruct (decide (p = q)) as [<-|Hne]; [|rewrite lookup_insert_ne by done; eauto].
    rewrite lookup_insert_eq. exists pp'. split; [done|]. assert (pq = pp) as -> by congruence.
    destruct Hor as [[? _]|?]; [by destruct (Hk eq_refl)|done]. }
  assert (forall d n t, has_table s' d n t <-> has_table s d n t) as Htab
    by (intros; unfold has_table; by rewrite Epds).
  split; unfold nmaps, nwmaps; rewrite ?Epts, ?Epds, ?Eenv, ?Ecur; try done; try apply Hi.
  - intros q pq Hq. rewrite Epp in Hq. destruct (decide (p = q)) as [<-|Hne].
    + rewrite lookup_insert_eq in Hq. by injection Hq as <-.
    + rewrite lookup_insert_ne in Hq by done. destruct (Hother q) as [-> ->]; [done|].
      by apply (vi_pages _ _ _ Hi).
  - intros d x Hx. destruct (vi_dirs _ _ _ Hi d x Hx) as [R A C D N]. split; try done.
    intros n Hn. rewrite Epts. by apply N.
  - intros d n t H'%Htab. destruct (vi_tab _ _ _ Hi d n t H') as (? & pq & Hq & Hs & Hr).
    split; [done|]. destruct (Hkeep t pq Hq) as (pq' & Hq' & Es & Er).
    + intros -> Hun. by eapply (un_table _ _ Hun).
    + exists pq'. rewrite Es, Er. done.
  - intros d n d' n' t H1%Htab H2%Htab. by eapply (vi_inj _ _ _ Hi).
  - intros k w Hk Hu. destruct (vi_live _ _ _ Hi k w Hk Hu) as ((d & n & H') & ? & ? & H3).
    split; [exists d, n; by apply Htab|]. split; [done|]. split; [done|]. rewrite Epp.
    destruct (decide (p = Z.shiftr w PGSHIFT)) as [->|]; [rewrite lookup_insert_eq; eauto|by rewrite lookup_insert_ne].
  - intros t Ht. destruct (vi_ktab _ _ _ Hi t Ht) as (pq & Hq & Hs).
    destruct (Hkeep t pq Hq) as (pq' & Hq' & Es & _); [intros ->; by intros []|]. exists pq'. by rewrite Es.
  - assert (forall d x q, vm_pds s !! d = Some x -> q ∈ own_pages x -> kernel_page s' q /\ forall d' n, ~ has_table s' d' n q) as Hown.
    { intros d x q Hx Hin. destruct (sp_own _ _ _ (proj1 (vi_spaces _ _ _ Hi) d x Hx) q Hin) as [(pq & Hq & Hs & Hr) Hnt].
      split; [|intros d' n H'%Htab; by eapply Hnt]. destruct (Hkeep q pq Hq) as (pq' & Hq' & Es & Er).
      - intros -> Hun. by eapply (un_own _ _ Hun).
      - exists pq'. rewrite Es, Er. done. }
    destruct (vi_spaces _ _ _ Hi) as [S1 S2]. split; rewrite ?Epds; [|done].
    intros d x Hx. destruct (S1 d x Hx) as [A B C D E F]. split; try done; [unfold nlive; by rewrite Eenv|eauto].
  - destruct (vi_zero _ _ _ Hi) as (pz & Hz & Hs). rewrite Epp. destruct (decide (p = 0)) as [->|Hne]; [|rewrite lookup_insert_ne by done; eauto].
    assert (pz = pp) as -> by congruence. rewrite lookup_insert_eq. exists pp'. split; [done|].
    destruct Hor as [[_ H]|[E _]]; [done|congruence].
Qed.

Lemma vm_inv_page xr xw xr' xw' s s' p pp pp' :
  vm_inv xr xw s -> ppages (vm_pool s) !! p = Some pp -> ~ kernel_status (pp_status pp) ->
  ppages (vm_pool s') = <[p := pp']> (ppages (vm_pool s)) ->
  vm_pts s' = vm_pts s -> vm_pds s' = vm_pds s ->
  envs (vm_et s') = envs (vm_et s) -> curenv (vm_et s') = curenv (vm_et s) ->
  pool_ok (vm_pool s') -> (forall q, 0 <= xw' q <= xr' q) ->
  (forall q, q <> p -> xr' q = xr q /\ xw' q = xw q) ->
  page_ok (nmaps p s + xr' p) (nwmaps p s + xw' p) pp' -> vps_ok s' -> vm_inv xr' xw' s'.
Proof. intros Hi Hp Hk. apply (vm_inv_change xr xw xr' xw' s s' p pp pp' Hi Hp). left. split; [by eapply unused_other|]. intros E. apply Hk. by right; right. Qed.

(** ** Inserting a translation *)

(** [1] (or [w]) for page [p], nothing for the others. *)
Definition one (p w : Z) : Z -> Z := fun q => if q =? p then w else 0.

Lemma one_eq p w : one p w p = w.
Proof. unfold one. by rewrite Z.eqb_refl. Qed.
Lemma one_ne p w q : q <> p -> one p w q = 0.
Proof. unfold one. by intros ->%Z.eqb_neq. Qed.

(** Page [pp] with a translation recorded at [a] and accounted for. *)
Definition added (a : Z) (l : list Z) (n c w : Z) (pp : Ppage) : Ppage :=
  pp_set_u (PV (a :: l) (n + 1) c) (pp_set_rw (pp_readers pp + 1) (pp_writers pp + w) pp).

Lemma added_inv s a v p pp l n c w :
  vm_ok s -> ppages (vm_pool s) !! p = Some pp -> pp_u pp = PV l n c -> n + 1 < 2 ^ 16 ->
  ~ kernel_status (pp_status pp) -> vm_vps s !! a = None -> 0 <= w <= 1 ->
  vm_inv (one p 1) (one p w) (upd_page p (added a l n c w pp) (set_vps (<[a := v]> (vm_vps s)) s)).
Proof.
  intros Hi Hp Hu Hn Hks Ha Hw. destruct (vi_pages _ _ _ Hi p pp Hp) as [R W U C N]. rewrite Hu in U.
  assert (pp_vpl pp = l) as Hl by (unfold pp_vpl; by rewrite Hu). rewrite Hl in N.
  assert (forall q pq, ppages (vm_pool s) !! q = Some pq -> a ∉ pp_vpl pq) as Hfresh.
  { intros q pq Hq Hin. destruct (proj1 (vi_vps _ _ _ Hi) q pq a Hq Hin). congruence. }
  eapply (vm_inv_page _ _ _ _ s _ p pp (added a l n c w pp)); try done.
  - eapply pool_ok_page; [apply Hi|exact Hp| |done..]. intros Hs.
    apply (pg_u _ _ (proj1 (vi_pool _ _ _ Hi)) p pp Hp) in Hs; [congruence|done].
  - intros q. unfold one. destruct (q =? p); lia.
  - intros q Hq. by rewrite !one_ne.
  - rewrite !one_eq. split; cbn; [lia..| |].
    + done.
    + apply NoDup_cons. split; [|done]. rewrite <- Hl. by eapply Hfresh.
  - destruct (vi_vps _ _ _ Hi) as [V1 V2].
    assert (forall q pq b, <[p := added a l n c w pp]> (ppages (vm_pool s)) !! q = Some pq -> b ∈ pp_vpl pq ->
      (b = a /\ q = p) \/ exists pq0, ppages (vm_pool s) !! q = Some pq0 /\ b ∈ pp_vpl pq0) as Hback.
    { intros q pq b Hq Hb. destruct (decide (p = q)) as [<-|Hne].
      - rewrite lookup_insert_eq in Hq. injection Hq as <-. cbn in Hb. apply elem_of_cons in Hb as [->|Hb]; [by left|].
        right. exists pp. by rewrite Hl.
      - rewrite lookup_insert_ne in Hq by done. right. eauto. }
    split; cbn.
    + intros q pq b Hq Hb. destruct (Hback q pq b Hq Hb) as [[-> _]|(pq0 & Hq0 & Hb0)].
      * rewrite lookup_insert_eq. eauto.
      * rewrite lookup_insert_ne; [by eapply V1|]. intros <-. by eapply Hfresh.
    + intros q r pq pr b Hq Hr Hb Hb'.
      destruct (Hback q pq b Hq Hb) as [[Eb ->]|(pq0 & Hq0 & Hb0)];
        destruct (Hback r pr b Hr Hb') as [[E ->]|(pr0 & Hr0 & Hb1)]; try done.
      * subst. by destruct (Hfresh r pr0 Hr0).
      * subst. by destruct (Hfresh q pq0 Hq0).
      * by eapply V2.
Qed.

(** The table for [va] exists after [pde_check_n_alloc], and the entries there
    were are untouched. *)
Record ready (d va : Z) (x x' : EnvPD) (s s' : vm) : Prop := mkReady {
  rd_pds : vm_pds s' = <[d := x']> (vm_pds s);
  rd_P : tst (va_pde x' va) PG_P = true;
  rd_id : envpd_id x' = envpd_id x;
  rd_et : vm_et s' = vm_et s;
  rd_heap : vm_heap s' = vm_heap s;
  rd_vps : vm_vps s' = vm_vps s;
  rd_pte : forall d' n t i, has_table s d' n t -> pte_at s' (t, i) = pte_at s (t, i);
  rd_tab : forall d' n t, has_table s d' n t -> has_table s' d' n t;
  rd_new : tst (va_pde x va) PG_P = false -> pte_at s' (pt_get_ptep x' va) = 0;
  rd_old : tst (va_pde x va) PG_P = true -> pt_get_ptep x' va = pt_get_ptep x va;
  rd_kept : forall q pq, ppages (vm_pool s) !! q = Some pq -> pp_status pq <> PP_FREE ->
    ppages (vm_pool s') !! q = Some pq;
  rd_np : nppage (vm_pool s') = nppage (vm_pool s);
  rd_max : forall b, 0 <= b -> maxref b s -> maxref b s';
  rd_from : forall q pq', ppages (vm_pool s') !! q = Some pq' ->
    ppages (vm_pool s) !! q = Some pq' \/
    pp_status pq' = PP_KERNEL /\ pp_acl pq' = repeat cap_null (Z.to_nat PP_ACL_LEN);
  rd_act : envpd_active x' = envpd_active x }.

Lemma pde_check_ready xr xw d x va s :
  vm_inv xr xw s -> vm_pds s !! d = Some x -> uva va ->
  wp (pde_check_n_alloc d va) s (fun r s' => vm_inv xr xw s' /\
    (r = 0 /\ (exists x', ready d va x x' s s') \/ r = - E_NO_MEM /\ s' = s)).
Proof.
  intros Hi Hx Hva. eapply wp_mono; [by eapply pde_check_n_alloc_spec|].
  intros r s' [Hi' [(-> & HP & ->)|[(-> & HP & t & Htb)|[-> ->]]]]; (split; [done|]); [left..|by right].
  - split; [done|]. exists x. split; try done; [by rewrite insert_id|congruence|auto].
  - split; [done|]. destruct (tabled_frame xr xw d _ t x s s' Hi Htb) as (Ht & Hcnt & Ht0 & Hkeep).
    pose proof (tabled_has_table d _ t x s s' Hx (pdeno_range va Hva) HP Ht Htb) as Htab.
    destruct Htb as [(pt & Hpt & Hst & Hrc) Epts Epds Eet Evps Eheap Efl].
    destruct (free_not_table xr xw s t pt Hi Hpt Hst) as (_ & Hnt & _).
    set (x' := pde_set (envpd_active x) (PDENO va) (pde_of t) x) in *.
    assert (va_pde x' va = pde_of t) as Hpde.
    { unfold va_pde, x'. change (envpd_active (pde_set _ _ _ x)) with (envpd_active x).
      rewrite pde_at_set. by rewrite decide_True. }
    exists x'. split; try done.
    + rewrite Hpde. apply Ht.
    + intros d' n t' i H'. unfold pte_at. rewrite Epts, map_lookup_filter.
      destruct (vm_pts s !! (t', i)); [|done]. cbn. rewrite option_guard_True; [done|].
      cbn. intros ->. by destruct (Hnt d' n).
    + intros d' n t' H'. apply Htab. by right.
    + intros _. unfold pte_at, pt_get_ptep. rewrite Hpde, (proj2 Ht), Epts, map_lookup_filter.
      destruct (vm_pts s !! _); [|done]. cbn. rewrite option_guard_False; [done|]. cbn. auto.
    + congruence.
    + apply (rc_n _ _ _ _ _ Hrc).
    + intros b Hb0 Hb q pq l m c Hq Hu. rewrite (rc_ppages _ _ _ _ _ Hrc) in Hq.
      destruct (decide (t = q)) as [<-|Hne].
      * rewrite lookup_insert_eq in Hq. injection Hq as <-. cbn in Hu. injection Hu as <- <- <-. done.
      * rewrite lookup_insert_ne in Hq by done. by eapply Hb.
    + intros q pq Hq. rewrite (rc_ppages _ _ _ _ _ Hrc) in Hq. destruct (decide (t = q)) as [<-|Hne].
      * rewrite lookup_insert_eq in Hq. injection Hq as <-. by right.
      * rewrite lookup_insert_ne in Hq by done. by left.
Qed.

(** Writing the entry that was accounted for. *)
Lemma install_inv d n x k p pp perm s :
  vm_inv (one p 1) (one p (b2z (tst perm PG_W))) s -> vm_pds s !! d = Some x -> has_table s d n (fst k) ->
  0 <= snd k < NLPG -> tst (pte_at s k) PG_P = false ->
  ppages (vm_pool s) !! p = Some pp -> 0 <= perm < NBPG -> tst perm PG_P = true ->
  vm_ok (set_pds (<[d := nptes_add n 1 x]> (vm_pds s)) (set_pts (<[k := Z.lor (pp2pa p) perm]> (vm_pts s)) s)).
Proof.
  intros Hi Hx Ht Hk HP Hp Hperm HpP.
  assert (0 <= p < 2 ^ 20) as Hpr.
  { destruct (vi_pool _ _ _ Hi) as [Hpg _]. pose proof (pg_size _ _ Hpg).
    assert (0 <= p < nppage (vm_pool s)) by (apply (pg_dom _ _ Hpg); eauto). lia. }
  destruct (pte_of_spec p perm Hpr Hperm) as (Hw & Hsh & Htst). set (w := Z.lor (pp2pa p) perm) in *.
  assert (tst w PG_P = true) as HwP by (by rewrite Htst).
  match goal with |- vm_ok ?S => set (s' := S) end.
  assert (forall q, nmaps q s' = nmaps q s + one p 1 q) as Hnm.
  { intros q. rewrite (nmaps_write q k w s s' eq_refl). unfold maps, one.
    rewrite !(upte_in d n (fst k) s _ _ k _ Hi Ht eq_refl), HP, HwP. cbn. rewrite Hsh, (Z.eqb_sym p q).
    destruct (q =? p); cbn; lia. }
  assert (forall q, nwmaps q s' = nwmaps q s + one p (b2z (tst perm PG_W)) q) as Hnw.
  { intros q. rewrite (nwmaps_write q k w s s' eq_refl). unfold wmaps, maps, one.
    rewrite !(upte_in d n (fst k) s _ _ k _ Hi Ht eq_refl), HP, HwP. cbn. rewrite Hsh, Htst, (Z.eqb_sym p q) by done.
    destruct (q =? p); cbn; lia. }
  eapply (vm_inv_entry _ _ _ _ s s' d n x (nptes_add n 1 x) k w); try done.
  - rewrite HP, HwP. apply nptes_add_adj. pose proof Ht as (y & Hy & Hn & HPn & _).
    assert (y = x) as -> by congruence.
    rewrite (do_nptes _ _ (vi_dirs _ _ _ Hi d x Hx) n Hn), HPn.
    pose proof (intab_bound _ _ s (Z.shiftr (pde_at x (envpd_active x) n) PGSHIFT) Hi).
    pose proof (kcount_nonneg (intab (Z.shiftr (pde_at x (envpd_active x) n) PGSHIFT)) (vm_pts s)).
    unfold NLPG in *. lia.
  - intros _. split; [done|]. rewrite Hsh. by exists pp.
  - apply Hi.
  - intros q pq Hq. rewrite Hnm, Hnw, !Z.add_0_r. by apply (vi_pages _ _ _ Hi).
  - apply Hi.
Qed.

(** What an insertion of entry [w] at address [va] does. *)
Record inserted_pte (mem d va p w : Z) (s s' : vm) : Prop := mkInserted {
  is_pte : exists x', vm_pds s' !! d = Some x' /\ tst (va_pde x' va) PG_P = true /\
    pte_at s' (pt_get_ptep x' va) = w /\
    (forall d' n t i, has_table s d' n t -> (t, i) <> pt_get_ptep x' va -> pte_at s' (t, i) = pte_at s (t, i));
  is_et : vm_et s' = vm_et s;
  is_heap : vm_heap s' = vm_heap s;
  is_np : nppage (vm_pool s') = nppage (vm_pool s);
  is_vps : forall a, a <> mem -> vm_vps s !! a = None -> vm_vps s' !! a = None;
  is_max : forall b, 0 <= b -> maxref b s -> maxref (b + 1) s';
  is_acl : acl_from s s';
  is_page : forall pp, ppages (vm_pool s) !! p = Some pp -> exists pp', ppages (vm_pool s') !! p = Some pp' /\
    pp_acl pp' = pp_acl pp /\ pp_status pp' = pp_status pp /\ pp_buf pp' = pp_buf pp;
  is_act : forall x x', vm_pds s !! d = Some x -> vm_pds s' !! d = Some x' -> envpd_active x' = envpd_active x }.

(** The part of [ppage_insert] after the accounting. *)
Lemma install_run mem ei e x va p perm pp s s0 :
  vm_inv (one p 1) (one p (b2z (tst perm PG_W))) s -> envs (vm_et s) !! ei = Some e ->
  vm_pds s !! env_pd e = Some x -> uva va -> tst (va_pde x va) PG_P = true ->
  ppages (vm_pool s) !! p = Some pp -> 0 <= perm < NBPG -> tst perm PG_P = true ->
  vm_et s = vm_et s0 -> vm_heap s = vm_heap s0 -> nppage (vm_pool s) = nppage (vm_pool s0) ->
  (forall d' n t i, has_table s0 d' n t -> pte_at s (t, i) = pte_at s0 (t, i)) ->
  (exists pp0, ppages (vm_pool s0) !! p = Some pp0 /\ pp_acl pp = pp_acl pp0 /\ pp_status pp = pp_status pp0 /\
     pp_buf pp = pp_buf pp0) ->
  (forall a, a <> mem -> vm_vps s0 !! a = None -> vm_vps s !! a = None) ->
  (forall b, 0 <= b -> maxref b s0 -> maxref (b + 1) s) -> acl_from s0 s ->
  (forall x0, vm_pds s0 !! env_pd e = Some x0 -> envpd_active x = envpd_active x0) ->
  wp (pte <- pte_read (pt_get_ptep x va) ;;
      (if tst pte PG_P then ppage_remove ei va else mreturn 0) ;;
      pte_write (pt_get_ptep x va) (Z.lor (pp2pa p) perm) ;;
      upd_pd (env_pd e) (nptes_add (PDENO va) 1) ;;
      mreturn 0) s
    (fun r s' => r = 0 /\ vm_ok s' /\ inserted_pte mem (env_pd e) va p (Z.lor (pp2pa p) perm) s0 s').
Proof.
  intros Hi He Hx Hva HP Hp Hperm HpP Eet Eheap Enp Hpte (pp0 & Hp0 & Ea & Es & Eb) Hvps Hmax Hacl Hact.
  pose proof (va_table s _ x va Hx Hva HP) as Ht. assert (0 <= snd (pt_get_ptep x va) < NLPG) as Hk by apply pteno_range.
  apply wp_bind, wp_gets. change (default 0 (vm_pts s !! _)) with (pte_at s (pt_get_ptep x va)). apply wp_bind.
  set (k := pt_get_ptep x va) in *.
  assert (wp (if tst (pte_at s k) PG_P then ppage_remove ei va else mreturn 0) s (fun _ s' =>
    vm_inv (one p 1) (one p (b2z (tst perm PG_W))) s' /\ tst (pte_at s' k) PG_P = false /\
    (exists x', vm_pds s' !! env_pd e = Some x' /\ va_pde x' va = va_pde x va /\ envpd_active x' = envpd_active x) /\ has_table s' (env_pd e) (PDENO va) (fst k) /\
    vm_et s' = vm_et s /\ vm_heap s' = vm_heap s /\ nppage (vm_pool s') = nppage (vm_pool s) /\
    (forall k', k' <> k -> pte_at s' k' = pte_at s k') /\
    (forall a, vm_vps s !! a = None -> vm_vps s' !! a = None) /\ (forall b, maxref b s -> maxref b s') /\ acl_from s s' /\
    (exists pp', ppages (vm_pool s') !! p = Some pp' /\ pp_acl pp' = pp_acl pp /\ pp_status pp' = pp_status pp /\
       pp_buf pp' = pp_buf pp))) as Hrm.
  { destruct (tst (pte_at s k) PG_P) eqn:EP; [|apply wp_ret; split_and!; eauto 8 using acl_from_refl].
    eapply wp_mono; [by eapply ppage_remove_spec|]. intros _ s' (_ & Hi' & [Rp (x' & Rd & Hadj) Re Rh Rn Rk Rv Ro Rpg Rm Ra _] & _).
    fold k in Rp, Hadj, Ro. split_and!; try done.
    - unfold pte_at. by rewrite Rp, lookup_insert_eq.
    - exists x'. rewrite Rd, lookup_insert_eq. split; [done|]. unfold va_pde.
      by rewrite (adj_pde _ _ _ _ Hadj), !(ja_act _ _ _ _ Hadj).
    - by apply (adj_has_table s s' _ _ _ _ _ Hx Hadj Rd).
    - intros k' Hk'. unfold pte_at. by rewrite Rp, lookup_insert_ne.
    - destruct (Rpg p pp Hp) as (pp' & Hp' & ? & ? & _ & _ & Hst). exists pp'. split_and!; try done.
      destruct Hst as [Hst|[Hst _]]; [done|].
      destruct (mapped_page _ _ _ p Hi' ltac:(rewrite one_eq; pose proof (nwmaps_le p s'); lia) pp' Hp')
        as (? & ? & ? & _ & _ & ? & _). done. }
  eapply wp_mono; [exact Hrm|]. clear Hrm.
  intros _ s1 (Hi1 & HP1 & (x1 & Hx1 & Epde & Eact) & Ht1 & Eet1 & Eh1 & En1 & Hpte1 & Hvps1 & Hmax1 & Hacl1 & (pp1 & Hp1 & Ea1 & Es1 & Eb1)).
  apply wp_bind, wp_modify, wp_bind. eapply wp_upd_pd; [exact Hx1|]. apply wp_ret. split; [done|]. split.
  { exact (install_inv (env_pd e) (PDENO va) x1 k p pp1 perm s1 Hi1 Hx1 Ht1 Hk HP1 Hp1 Hperm HpP). }
  split; cbn; try congruence.
  - exists (nptes_add (PDENO va) 1 x1). rewrite lookup_insert_eq.
    assert (pt_get_ptep (nptes_add (PDENO va) 1 x1) va = k) as Ek.
    { unfold k, pt_get_ptep. change (va_pde (nptes_add (PDENO va) 1 x1) va) with (va_pde x1 va). by rewrite Epde. }
    split_and!; [done|by change (tst (va_pde x1 va) PG_P = true); rewrite Epde| |].
    + unfold pte_at. cbn. rewrite Ek, lookup_insert_eq. done.
    + intros d' n t i H' Hne. rewrite Ek in Hne. rewrite <- (Hpte d' n t i H'), <- Hpte1 by done.
      unfold pte_at. cbn. rewrite lookup_insert_ne by done. done.
  - intros a Ha Hn. by apply Hvps1, Hvps.
  - intros b Hb0 Hb. exact (Hmax1 _ (Hmax b Hb0 Hb)).
  - exact (acl_from_trans _ _ _ Hacl Hacl1).
  - intros pp0' Hp0'. assert (pp0' = pp0) as -> by congruence. exists pp1. split_and!; congruence.
  - intros y y' Hy Hy'. rewrite lookup_insert_eq in Hy'. injection Hy' as <-. cbn. by rewrite Eact, (Hact y Hy).
Qed.

Lemma inserted_clr mem d va p w s s' :
  0 <= va < 2 ^ 32 -> inserted_pte mem d (clr va PGMASK) p w s s' -> inserted_pte mem d va p w s s'.
Proof.
  intros Hva [Hx ? ? ? ? ? ? ? ?]. split; try done. destruct (clr_page va Hva) as (Ed & Et & _).
  unfold pt_get_ptep, va_pde in *. by rewrite Ed, Et in Hx.
Qed.

(** Taking the accounting back. *)
Lemma uncount_run a v p pp l n c w s :
  ppages (vm_pool s) !! p = Some pp -> pp_u pp = PV l n c -> 0 <= n < 2 ^ 16 - 1 -> vm_vps s !! a = None ->
  0 <= pp_readers pp < 2 ^ 16 -> 0 <= pp_writers pp < 2 ^ 16 ->
  wp (add_rw p (-1) (- w) ;; add_refcnt p (-1) ;; drop_vpage p a)
    (upd_page p (added a l n c w pp) (set_vps (<[a := v]> (vm_vps s)) s)) (fun _ s' => s' = s).
Proof.
  intros Hp Hu Hn Ha Hr Hw. apply wp_bind. eapply wp_upd_page; [apply upd_page_lookup|].
  apply wp_bind. eapply wp_add_refcnt; [apply upd_page_lookup|reflexivity|]. unfold drop_vpage.
  apply wp_bind. eapply wp_get_vpl; [apply upd_page_lookup|reflexivity|]. apply wp_bind, wp_of_option.
  exists l. cbn [unlink]. rewrite Z.eqb_refl. split; [done|]. apply wp_bind.
  eapply wp_set_vpl; [apply upd_page_lookup|reflexivity|]. apply wp_modify.
  rewrite !upd_page_twice. cbn.
  replace (pp_readers pp + 1 + -1) with (pp_readers pp) by lia.
  replace (pp_writers pp + w + - w) with (pp_writers pp) by lia.
  replace (n + 1 + -1) with n by lia. rewrite !u16_small by lia. rewrite delete_insert_id by done.
  match goal with |- set_vps _ (upd_page p ?X _) = _ => replace X with pp end.
  2: { destruct pp; cbn in *; subst; done. }
  unfold upd_page. rewrite put_page_id by done. by destruct s.
Qed.

(** Inserting a translation of page [p] that is in use by users. *)
Lemma ppage_insert_spec mem ei e x p pp l n c va perm s :
  vm_ok s -> envs (vm_et s) !! ei = Some e -> vm_pds s !! env_pd e = Some x -> uva va ->
  ppages (vm_pool s) !! p = Some pp -> pp_u pp = PV l n c -> n + 1 < 2 ^ 16 -> ~ kernel_status (pp_status pp) ->
  (mem = 0 \/ vm_vps s !! mem = None) -> 0 <= perm < NBPG -> tst perm PG_P = true ->
  wp (ppage_insert mem ei p va perm) s (fun r s' =>
    r = 0 /\ vm_ok s' /\ inserted_pte mem (env_pd e) va p (Z.lor (pp2pa p) perm) s s' \/ r = - E_NO_MEM /\ s' = s).
Proof.
  intros Hi He Hx Hva Hp Hu Hn Hks Hmem Hperm HpP. unfold ppage_insert.
  destruct (vi_pages _ _ _ Hi p pp Hp) as [R W U C N]. rewrite Hu in U. pose proof (nwmaps_le p s) as Hnw.
  destruct (clr_page va (proj1 Hva)) as (Hcd & _ & Hclr). assert (uva (clr va PGMASK)) as Hva' by (split; [destruct Hva; lia|by rewrite Hcd; destruct Hva]).
  apply wp_bind. eapply wp_vm_env; [exact He|]. cbn beta zeta.
  destruct (Z.eqb_spec mem 0) as [|Hm0]; [apply wp_ret; by right|]. destruct Hmem as [|Hmem]; [done|].
  set (v := mkVp (env_id e) (clr va PGMASK)). set (va' := clr va PGMASK) in *.
  replace (if tst perm PG_W then 1 else 0) with (b2z (tst perm PG_W)) by done.
  set (w := b2z (tst perm PG_W)). assert (0 <= w <= 1) as Hw by (unfold w; destruct (tst perm PG_W); cbn; lia).
  apply wp_bind, wp_modify, wp_bind. eapply wp_get_vpl; [exact Hp|exact Hu|]. apply wp_bind.
  eapply wp_set_vpl; [exact Hp|exact Hu|]. apply wp_bind. eapply wp_upd_page; [apply upd_page_lookup|].
  apply wp_bind. eapply wp_add_refcnt; [apply upd_page_lookup|reflexivity|]. rewrite !upd_page_twice.
  cbn [pp_readers pp_writers pp_set_u]. rewrite !u16_small by lia.
  match goal with |- wp _ (upd_page p ?X _) _ => replace X with (added mem l n c w pp) by done end.
  pose proof (added_inv s mem v p pp l n c w Hi Hp Hu Hn Hks Hmem Hw) as Hi2.
  match type of Hi2 with vm_inv _ _ ?S => set (s2 := S) in * end.
  apply wp_bind. eapply wp_mono; [by eapply (pde_check_ready _ _ (env_pd e) x va' s2 Hi2 Hx)|].
  intros r s3 [Hi3 [(-> & x3 & Hrd)|[-> ->]]].
  - cbn [Z.ltb Z.compare]. destruct Hrd. apply wp_bind, wp_get_pd. exists x3.
    assert (vm_pds s3 !! env_pd e = Some x3) as Hx3 by (rewrite rd_pds0; apply lookup_insert_eq).
    split; [done|].
    assert (ppages (vm_pool s3) !! p = Some (added mem l n c w pp)) as Hp3.
    { apply rd_kept0; [apply upd_page_lookup|]. cbn. intros Hs.
      apply (pg_u _ _ (proj1 (vi_pool _ _ _ Hi)) p pp Hp) in Hs; [congruence|done]. }
    eapply wp_mono.
    { eapply (install_run mem ei e x3 va' p perm (added mem l n c w pp) s3 s); try done.
      - by rewrite rd_et0.
      - exists pp. done.
      - intros a Ha Hn'. rewrite rd_vps0. cbn. by rewrite lookup_insert_ne.
      - intros b Hb0 Hb. apply rd_max0; [lia|]. intros q pq lq nq cq Hq Huq. cbn in Hq.
        destruct (decide (p = q)) as [<-|Hne].
        + rewrite lookup_insert_eq in Hq. injection Hq as <-. injection Huq as <- <- <-.
          pose proof (Hb p pp l n c Hp Hu). lia.
        + rewrite lookup_insert_ne in Hq by done. pose proof (Hb q pq lq nq cq Hq Huq). lia.
      - intros q pq Hq. destruct (rd_from0 q pq Hq) as [Hq'|[_ ?]]; [|by right]. left. cbn in Hq'.
        destruct (decide (p = q)) as [<-|Hne].
        + rewrite lookup_insert_eq in Hq'. injection Hq' as <-. by exists pp.
        + rewrite lookup_insert_ne in Hq' by done. eauto.
      - intros x0 Hx0. assert (x0 = x) as -> by congruence. done. }
    intros r s4 (-> & Hok & Hins). left. split; [done|]. split; [done|]. by apply inserted_clr; [apply Hva|].
  - cbn [Z.ltb Z.compare Z.opp E_NO_MEM]. unfold E_NO_MEM at 1. cbn [Z.ltb Z.compare Z.opp].
    pose proof (uncount_run mem v p pp l n c w s Hp Hu ltac:(lia) Hmem ltac:(lia) ltac:(lia)) as Hun.
    apply wp_bind in Hun. apply wp_bind. eapply wp_mono; [exact Hun|]. clear Hun.
    intros [] s3 Hun. apply wp_bind in Hun. apply wp_bind. eapply wp_mono; [exact Hun|]. clear Hun.
    intros z s4 Hun. apply wp_bind. eapply wp_mono; [exact Hun|]. intros _ s5 ->. apply wp_ret. by right.
Qed.

(** ** Changing the flags of a translation *)

Lemma rewrite_inv d n x k w p pp s :
  let delta := b2z (tst w PG_W) - b2z (tst (pte_at s k) PG_W) in
  vm_ok s -> vm_pds s !! d = Some x -> has_table s d n (fst k) -> 0 <= snd k < NLPG ->
  tst (pte_at s k) PG_P = true -> tst w PG_P = true -> 0 <= w < 2 ^ 32 ->
  Z.shiftr (pte_at s k) PGSHIFT = p -> Z.shiftr w PGSHIFT = p -> ppages (vm_pool s) !! p = Some pp ->
  0 <= pp_readers pp < 2 ^ 16 /\ 0 <= pp_writers pp + delta < 2 ^ 16 /\ ~ kernel_status (pp_status pp) /\
  vm_ok (upd_page p (pp_set_rw (pp_readers pp) (pp_writers pp + delta) pp) (set_pts (<[k := w]> (vm_pts s)) s)).
Proof.
  intros delta Hi Hx Ht Hk HP HwP Hw Ep Ew Hp.
  match goal with |- _ /\ _ /\ _ /\ vm_ok ?S => set (s' := S) end.
  assert (upte (k, pte_at s k) = true) as Hup by (by rewrite (upte_in d n (fst k) s _ _ k _ Hi Ht)).
  assert (forall q, nmaps q s' = nmaps q s) as Hnm.
  { intros q. rewrite (nmaps_write q k w s s' eq_refl). unfold maps.
    rewrite !(upte_in d n (fst k) s _ _ k _ Hi Ht eq_refl), HP, HwP. cbn. rewrite Ep, Ew. lia. }
  assert (forall q, nwmaps q s' = nwmaps q s + b2z (q =? p) * delta) as Hnw.
  { intros q. rewrite (nwmaps_write q k w s s' eq_refl). unfold wmaps, maps.
    rewrite !(upte_in d n (fst k) s _ _ k _ Hi Ht eq_refl), HP, HwP. cbn. rewrite Ep, Ew, (Z.eqb_sym p q). unfold delta.
    destruct (q =? p), (tst w PG_W), (tst (pte_at s k) PG_W); cbn; lia. }
  assert (0 < nmaps p s) as Hn1.
  { apply (kcount_pos (maps p) (vm_pts s) k _ (pte_present _ _ HP)). unfold maps. rewrite Hup. cbn.
    rewrite Ep. apply Z.eqb_refl. }
  destruct (mapped_page _ _ s p Hi ltac:(lia) pp Hp) as (l & m & c & Hu & Hm & Hst & Hks).
  destruct (vi_pages _ _ _ Hi p pp Hp) as [R W U C N].
  pose proof (nwmaps_le p s). pose proof (nwmaps_le p s') as Hle. pose proof (Hnw p) as Hnwp.
  rewrite (Hnm p) in Hle. rewrite Z.eqb_refl in Hnwp. cbn [b2z] in Hnwp.
  split_and!; try lia; try done.
  eapply (vm_inv_entry _ _ _ _ s s' d n x x k w); try done.
  - rewrite HP, HwP. apply dir_adj_0.
  - cbn. by rewrite insert_id.
  - intros _. split; [done|]. rewrite Ew. eexists. apply upd_page_lookup.
  - eapply pool_ok_page; try done; [apply Hi|cbn; by rewrite Hu].
  - split; cbn; intros q pq Hq.
    + destruct (decide (p = q)) as [<-|]; [rewrite lookup_insert_eq|rewrite lookup_insert_ne by done]; eauto.
    + intros Hkq. rewrite lookup_insert_ne; [done|]. intros <-. apply Hks. congruence.
  - intros q pq Hq. rewrite Hnm, Hnw. cbn in Hq. destruct (decide (p = q)) as [<-|Hne].
    + rewrite lookup_insert_eq in Hq. injection Hq as <-. rewrite Z.eqb_refl. cbn [b2z].
      split; cbn; try lia; try done.
    + rewrite lookup_insert_ne in Hq by done. rewrite (proj2 (Z.eqb_neq q p)) by done. cbn [b2z].
      rewrite Z.mul_0_l, !Z.add_0_r. pose proof (vi_pages _ _ _ Hi q pq Hq) as Hpq. by rewrite !Z.add_0_r in Hpq.
  - apply (vps_ok_sub s s'); [apply Hi|done|]. intros q pq Hq. cbn in Hq. destruct (decide (p = q)) as [<-|Hne].
    + rewrite lookup_insert_eq in Hq. injection Hq as <-. eauto.
    + rewrite lookup_insert_ne in Hq by done. eauto.
Qed.

(** Changing what the invariant does not look at in a page of a user. *)
Lemma attr_inv p pp pp' s :
  vm_ok s -> ppages (vm_pool s) !! p = Some pp -> ~ kernel_status (pp_status pp) -> pp_u pp' = pp_u pp ->
  pp_status pp' = pp_status pp -> pp_buf pp' = pp_buf pp -> pp_pinned pp' = pp_pinned pp ->
  pp_readers pp' = pp_readers pp -> pp_writers pp' = pp_writers pp -> vm_ok (upd_page p pp' s).
Proof.
  intros Hi Hp Hk Eu Es Eb En Er Ew. destruct (vi_pages _ _ _ Hi p pp Hp) as [R W U C N].
  eapply (vm_inv_page _ _ _ _ s _ p pp pp'); try done.
  - eapply pool_ok_attr; try done. apply Hi.
  - split; rewrite ?Er, ?Ew, ?Eu; try done; [by rewrite Es|]. unfold pp_vpl in *. by rewrite Eu.
  - apply (vps_ok_sub s); [apply Hi|done|]. intros q pq Hq. cbn in Hq. destruct (decide (p = q)) as [<-|Hne].
    + rewrite lookup_insert_eq in Hq. injection Hq as <-. right. exists pp. split; [done|]. unfold pp_vpl. by rewrite Eu.
    + rewrite lookup_insert_ne in Hq by done. right. eauto.
Qed.

(** ** Dropping an empty table *)

Lemma untabled_has_table d n x s s' :
  vm_pds s !! d = Some x -> vm_pds s' = <[d := pde_set (envpd_active x) n 0 x]> (vm_pds s) ->
  forall d' n' t, has_table s' d' n' t <-> has_table s d' n' t /\ (d' <> d \/ n' <> n).
Proof.
  intros Hx Epds d' n' t. unfold has_table. rewrite Epds. destruct (decide (d = d')) as [<-|Hne].
  - rewrite lookup_insert_eq. split.
    + intros (y & [= <-] & Hn & H1 & H2). change (envpd_active (pde_set _ _ _ x)) with (envpd_active x) in *.
      rewrite pde_at_set in H1, H2. destruct (decide _) as [|Hne]; [done|]. split; [eauto|]. right. naive_solver.
    + intros [(y & Hy & Hn & H1 & H2) [?|Hn']]; [done|]. assert (y = x) as -> by congruence. eexists. split; [done|].
      change (envpd_active (pde_set _ _ _ x)) with (envpd_active x). rewrite pde_at_set, decide_False by naive_solver. done.
  - rewrite lookup_insert_ne by done. naive_solver.
Qed.

Lemma untable_inv d n x t pt s :
  n <> PDENO UADDRS \/ g_open ktabs d = true -> vm_ok s -> vm_pds s !! d = Some x -> has_table s d n t -> nptes_at x n <= 0 ->
  ppages (vm_pool s) !! t = Some pt ->
  vm_ok (set_pds (<[d := pde_set (envpd_active x) n 0 x]> (vm_pds s)) (set_pool (freed t pt (vm_pool s)) s)).
Proof.
  intros Hop Hi Hx Ht Hn0 Hpt. match goal with |- vm_ok ?S => set (s' := S) end.
  pose proof (untabled_has_table d n x s s' Hx eq_refl) as Htab.
  destruct (freed_ppages t pt (vm_pool s)) as [Epp Enp].
  destruct (vi_tab _ _ _ Hi d n t Ht) as (Hkt & pt' & Hpt' & Hst & Href). assert (pt' = pt) as -> by congruence.
  pose proof Ht as (x0 & Hx0 & Hn & HPn & Etn). assert (x0 = x) as -> by congruence.
  destruct (vi_dirs _ _ _ Hi d x Hx) as [R A C D N].
  assert (kcount (intab t) (vm_pts s) = 0) as Hz.
  { pose proof (N n Hn) as H. cbn in H. rewrite HPn, Etn in H. pose proof (kcount_nonneg (intab t) (vm_pts s)). lia. }
  assert (forall q pq, ppages (vm_pool s') !! q = Some pq -> q = t /\ pq = pp_set_status PP_FREE (pp_set_u PLink pt) \/
            ppages (vm_pool s) !! q = Some pq) as Hpg.
  { intros q pq Hq. cbn in Hq. rewrite Epp in Hq. destruct (decide (t = q)) as [<-|Hne].
    - rewrite lookup_insert_eq in Hq. injection Hq as <-. by left.
    - rewrite lookup_insert_ne in Hq by done. by right. }
  assert (forall q pq, q <> t -> ppages (vm_pool s) !! q = Some pq -> ppages (vm_pool s') !! q = Some pq) as Hkeep
    by (intros q pq Hne Hq; cbn; by rewrite Epp, lookup_insert_ne).
  destruct (vi_pages _ _ _ Hi t pt Hpt) as [Rt Wt Ut Ct Nt]. destruct (Ct ltac:(by left)) as [Hrt _].
  destruct (vi_pool _ _ _ Hi) as [Hpgs Hbc]. split; try done; try apply Hi.
  - split; [apply freed_pages_ok, pages_ok_open with pt; try done; by rewrite Hst|].
    apply freed_bc_ok; [done|by rewrite Hst|done].
  - intros q pq Hq. change (nmaps q s') with (nmaps q s). change (nwmaps q s') with (nwmaps q s).
    destruct (Hpg q pq Hq) as [[-> ->]|Hq']; [|by apply (vi_pages _ _ _ Hi)].
    split; cbn; try done; [by intros [?|[?|?]]|constructor].
  - intros d' y Hy. cbn in Hy. destruct (decide (d = d')) as [<-|Hne].
    + rewrite lookup_insert_eq in Hy. injection Hy as <-. split; try done; intros m Hm; cbn; rewrite pde_at_set.
      * destruct (decide _); [done|by apply D].
      * change (nptes_at (pde_set _ _ _ x) m) with (nptes_at x m). rewrite (N m Hm).
        destruct (decide _) as [[_ ->]|]; [|done]. by rewrite HPn, Etn.
    + rewrite lookup_insert_ne in Hy by done. destruct (vi_dirs _ _ _ Hi d' y Hy). by split.
  - intros d' n' t' [H' Hne]%Htab. destruct (vi_tab _ _ _ Hi d' n' t' H') as (? & pp & Hp & ? & ?). split; [done|].
    exists pp. split; [|done]. apply Hkeep; [|done]. intros ->.
    destruct (vi_inj _ _ _ Hi d' n' d n t H' Ht) as [-> ->]. naive_solver.
  - intros d1 n1 d2 n2 t' [H1 _]%Htab [H2 _]%Htab. by eapply (vi_inj _ _ _ Hi).
  - intros k w Hk Hu. destruct (vi_live _ _ _ Hi k w Hk Hu) as ((d' & n' & H') & ? & ? & H3). split.
    + exists d', n'. apply Htab. split; [done|].
      destruct (decide (d' = d)) as [->|]; [|by left]. right. intros ->.
      assert (fst k = t) as Ek by (destruct H' as (y & Hy & _ & _ & <-); congruence).
      pose proof (proj1 (kcount_zero _ _) Hz k w Hk) as Hf. unfold intab in Hf. rewrite Hu in Hf. cbn in Hf.
      rewrite Ek, Z.eqb_refl in Hf. done.
    + split; [done|]. split; [done|]. cbn. rewrite Epp.
      destruct (decide (t = Z.shiftr w PGSHIFT)) as [->|]; [rewrite lookup_insert_eq; eauto|by rewrite lookup_insert_ne].
  - intros q Hq. destruct (vi_ktab _ _ _ Hi q Hq) as (pp & Hp & Hs). exists pp. split; [|done].
    apply Hkeep; [|done]. by intros ->.
  - apply (vps_ok_sub s); [apply Hi|done|]. intros q pq Hq. destruct (Hpg q pq Hq) as [[-> ->]|Hq']; [by left|right; eauto].
  - intros i e He Hs. destruct (vi_env _ _ _ Hi i e He Hs) as [y Hy]. cbn.
    destruct (decide (d = env_pd e)) as [->|]; [rewrite lookup_insert_eq; eauto|by rewrite lookup_insert_ne].
  - apply (spaces_keep s); [apply Hi|done| | |].
    + intros d' y Hy. cbn in Hy. destruct (decide (d = d')) as [<-|Hne].
      * rewrite lookup_insert_eq in Hy. injection Hy as <-. exists x. split; [done|]. apply pde_set_space; [by apply upde_uaddr|naive_solver].
      * rewrite lookup_insert_ne in Hy by done. by exists y.
    + intros q (pq & Hq & Hs & Hr) Hnt. exists pq. split; [|done]. apply Hkeep; [|done]. intros ->. by eapply Hnt.
    + intros d' m t' [H' _]%Htab. by left.
  - destruct (vi_zero _ _ _ Hi) as (pz & Hz0 & Hs). exists pz. split; [|done]. apply Hkeep; [|done]. intros <-. assert (pz = pt) as -> by congruence. by rewrite Hst in Hs.
Qed.
End invariant.
