(* ===== verification/Pmap.v ===== *)
(** * The memory system calls of sys/kern/pmap.c

    Inserting, removing, changing and reading page-table entries, page access
    lists and sharing limits, freeing page tables, asking for pages back.
    [self] tells the aliased entry point [SYS_self_...], which acts on the
    calling environment, from [SYS_...], which acts on [envid] with the
    capability [ke].  User memory that a call reads or writes is an argument or
    part of the result, and is assumed readable and writable: a fault would
    abandon the call. *)

From Stdlib Require Import ZArith Lia.
From stdpp Require Import base numbers option list gmap.
From S2P Require Import Prelude Capability EnvTable PageState PageAlloc PageTable.

#[local] Hint Extern 0 (uva _) => solve [apply uva_low; assumption] : core.

(** The environment a call acts on: [curenv], or what [env_access] grants. *)
Definition target (self : bool) (ke envid perm : Z) : M vm (Z + Z) :=
  if self then cur <- in_et get_curenv ;; mreturn (inl cur)
  else h <- gets vm_heap ;; in_et (env_access h ke envid perm).

(** [env_getcap (curenv, k, &c)]. *)
Definition cur_cap (k : Z) : M vm (cap + Z) :=
  cur <- in_et get_curenv ;; e <- in_et (get_env cur) ;; mreturn (env_getcap e k).

Definition acl_check (p : Z) (c : cap) (perm : Z) : M vm Z :=
  h <- gets vm_heap ;; in_pool (ppage_acl_check h p c PP_ACL_LEN perm).

(** ** Inserting *)

(** Result 1: nothing more to do; 0: the translation has to be installed, with
    the corrected entry; negative: error. *)
Definition pmap_insert_common (pte ei va : Z) : M vm (Z * Z) :=
  e <- in_et (get_env ei) ;;
  r <- pde_check_n_alloc (env_pd e) va ;;
  if r <? 0 then mreturn (r, pte)
  else
    x <- get_pd (env_pd e) ;;
    let ptep := pt_get_ptep x va in
    old <- pte_read ptep ;;
    if old =? pte then mreturn (1, pte)
    else
      (if tst old PG_P then ppage_remove ei va ;; pte_write ptep 0 else mreturn tt) ;;
      if negb (tst pte PG_P) then pte_write ptep pte ;; mreturn (1, pte)
      else mreturn (0, Z.lor (clr pte PG_MBZ) PG_U).

(** The page to map: the one the entry names, or any free one.  Result: the
    page and whether it was free, or the error. *)
Definition pmap_pick (pte userreq : Z) : M vm (Z * bool + Z) :=
  let ppn := Z.shiftr pte PGSHIFT in
  if negb (ppn =? 0) then
    np <- gets (fun s => nppage (vm_pool s)) ;;
    if (np <=? ppn) || (ppn <? 1) then mreturn (inr (- E_INVAL))
    else
      pp <- in_pool (get_pp ppn) ;;
      if negb (pp_buf pp =? 0) then mreturn (inr (- E_BUFFER))
      else if pp_status pp =? PP_FREE then
        if 0 <? pp_pinned pp then mreturn (inr (- E_INVAL))
        else in_pool (ppage_reclaim_page ppn PP_USER) ;; mreturn (inl (ppn, true))
      else mreturn (inl (ppn, false))
  else
    rp <- in_pool (ppage_alloc PP_USER userreq) ;;
    match snd rp with
    | None => mreturn (inr (fst rp))
    | Some p => mreturn (inl (p, true))
    end.

(** Check access to the page, or guard a new one with the caller's capability. *)
Definition pmap_guard (p : Z) (new_pg : bool) (c : cap) (pte : Z) : M vm Z :=
  pp <- in_pool (get_pp p) ;;
  if new_pg then
    let acl0 := acl_init (pp_acl pp) PP_ACL_LEN in
    let '(r, acl) := acl_add acl0 PP_ACL_LEN c in
    in_pool (upd_pp p (pp_set_acl acl)) ;;
    if negb (r =? 0) then in_pool (ppage_free p) ;; mreturn r else mreturn 0
  else
    r <- acl_check p c (if tst pte PG_W then ACL_W else 0) ;;
    if r <? 0 then mreturn r
    else if negb (ppcompat_state (pp_readers pp + 1)
                    (if tst pte PG_W then pp_writers pp + 1 else pp_writers pp)
                    (ps_readers pp) (ps_writers pp))
    then mreturn (- E_SHARE)
    else mreturn 0.

(** One iteration: [inl r] leaves the call with [r]; [inr b] goes on, [b] telling
    whether [*num_completed] is incremented. *)
Definition insert_one (c : cap) (ei userreq mem pte va : Z) : M vm (Z + bool) :=
  rc <- pmap_insert_common pte ei va ;;
  let '(r, pte) := rc in
  if r <? 0 then mreturn (inl r)
  else if 0 <? r then mreturn (inr false)
  else
    pg <- pmap_pick pte userreq ;;
    match pg with
    | inr r => mreturn (inl r)
    | inl (p, new_pg) =>
        r <- pmap_guard p new_pg c pte ;;
        if r <? 0 then mreturn (inl r)
        else
          r <- ppage_insert mem ei p va (Z.land pte PGMASK) ;;
          if r <? 0 then
            (if new_pg then in_pool (ppage_free p) else mreturn tt) ;; mreturn (inl r)
          else mreturn (inr true)
    end.

(** [n] iterations from entry [i] of the user's array; [mems i] is what
    [malloc] returns in iteration [i].  Result and [*num_completed].  [wr] says
    that [num_completed] points to a variable that may be written: a write
    through a pointer into the kernel stops the model. *)
Fixpoint insert_loop (c : cap) (ei userreq : Z) (mems ptes : Z -> Z) (wr : bool) (n : nat) (i va done : Z)
    : M vm (Z * Z) :=
  match n with
  | O => mreturn (0, done)
  | S n' =>
      r <- insert_one c ei userreq (mems i) (ptes i) va ;;
      match r with
      | inl r => mreturn (r, done)
      | inr b =>
          (if b then assert_ wr else mreturn tt) ;;
          insert_loop c ei userreq mems ptes wr n' (i + 1) (u32 (va + NBPG))
            (if b then u32 (done + 1) else done)
      end
  end.

(** [va + (total - 1) * NBPG >= UTOP] in 32-bit arithmetic. *)
Definition range_bad (va total : Z) : bool := UTOP <=? u32 (va + (total - 1) * NBPG).

Definition pmap_insert_range (mems : Z -> Z) (self : bool) (k : Z) (ptes : Z -> Z)
    (total va : Z) (wr : bool) (num_completed ke envid userreq : Z) : M vm (Z * Z) :=
  t <- target self ke envid ACL_W ;;
  match t with
  | inr r => mreturn (r, num_completed)
  | inl ei =>
      if range_bad va total then mreturn (- E_INVAL, num_completed)
      else
        c <- cur_cap k ;;
        match c with
        | inr r => mreturn (r, num_completed)
        | inl c =>
            insert_loop c ei userreq mems ptes wr (Z.to_nat (total - num_completed)) 0 va num_completed
        end
  end.

Definition sys_insert_pte (mems : Z -> Z) (self : bool) (k pte va ke envid : Z) : M vm Z :=
  r <- pmap_insert_range mems self k (fun _ => pte) 1 va true 0 ke envid 1 ;; mreturn (fst r).

(** [ncp] is the user's pointer [num_completed], which the code does not check,
    and [num_completed] the value it points to. *)
Definition sys_insert_pte_range (mems : Z -> Z) (self : bool) (k : Z) (ptes : Z -> Z)
    (num va ncp num_completed ke envid : Z) : M vm (Z * Z) :=
  m <- in_et (gets page_fault_mode) ;;
  in_et (modify (set_pfm PFM_PROP)) ;;
  r <- pmap_insert_range mems self k ptes num va (ncp <? UTOP) num_completed ke envid 1 ;;
  in_et (modify (set_pfm m)) ;;
  mreturn r.

(** ** Removing *)

(** [vas] in the order they are removed: from the last entry of the array. *)
Fixpoint remove_loop (ei : Z) (vas : list Z) : M vm Z :=
  match vas with
  | [] => mreturn 0
  | va :: rest =>
      e <- in_et (get_env ei) ;;
      x <- get_pd (env_pd e) ;;
      if UTOP <=? va then mreturn (- E_INVAL)
      else if negb (tst (va_pde x va) PG_P) then mreturn (- E_INVAL)
      else
        pte <- pte_read (pt_get_ptep x va) ;;
        (if tst pte PG_P then ppage_remove ei va else mreturn 0) ;;
        remove_loop ei rest
  end.

Definition sys_remove_vas (self : bool) (vas : list Z) (ke envid : Z) : M vm Z :=
  t <- target self ke envid ACL_W ;;
  match t with
  | inr r => mreturn r
  | inl ei =>
      m <- in_et (gets page_fault_mode) ;;
      in_et (modify (set_pfm PFM_PROP)) ;;
      r <- remove_loop ei (rev vas) ;;
      in_et (modify (set_pfm m)) ;;
      mreturn r
  end.

(** ** Changing flags *)

Definition mmu_has_hardware_flags (pte : Z) : bool :=
  tst pte (Z.lor PG_P (Z.lor PG_W (Z.lor PG_U (Z.lor PG_PWT (Z.lor PG_PCD (Z.lor PG_A
    (Z.lor PG_D (Z.lor PG_PS 0x100)))))))).

(** One iteration of [sys_mod_pte_range]: [inl r] leaves the call, [inr add]
    goes on with the flags to add (once an absent entry was met, without
    [PG_P]). *)
Definition mod_one (c : cap) (ei add remove va : Z) : M vm (Z + Z) :=
  let perm := if tst add PG_W then ACL_W else 0 in
  e <- in_et (get_env ei) ;;
  r <- pde_check_n_alloc (env_pd e) va ;;
  if r <? 0 then mreturn (inl r)
  else
    x <- get_pd (env_pd e) ;;
    let ptep := pt_get_ptep x va in
    pte <- pte_read ptep ;;
    if negb (tst pte PG_P) then
      let add := clr add PG_P in
      pte_write ptep (Z.lor (clr pte remove) add) ;;
      tlb_invalidate va (envpd_id x) ;;
      mreturn (inr add)
    else if negb (mmu_has_hardware_flags add) && negb (mmu_has_hardware_flags remove) then
      pte_write ptep (Z.lor (clr pte remove) add) ;;
      tlb_invalidate va (envpd_id x) ;;
      mreturn (inr add)
    else
      let p := Z.shiftr pte PGSHIFT in
      r <- acl_check p c perm ;;
      if r <? 0 then mreturn (inl r)
      else
        let new := Z.lor (clr pte remove) add in
        pte_write ptep new ;;
        let adj := if tst pte PG_W && negb (tst new PG_W) then -1
                   else if negb (tst pte PG_W) && tst new PG_W then 1 else 0 in
        tlb_invalidate va (envpd_id x) ;;
        pp <- in_pool (get_pp p) ;;
        if negb (ppcompat_state (pp_readers pp) (u32 (pp_writers pp + adj)) (ps_readers pp) (ps_writers pp))
        then pte_write ptep pte ;; mreturn (inl (- E_SHARE))
        else add_rw p 0 adj ;; mreturn (inr add).

Fixpoint mod_loop (c : cap) (ei add remove : Z) (n : nat) (va : Z) : M vm Z :=
  match n with
  | O => mreturn 0
  | S n' =>
      r <- mod_one c ei add remove va ;;
      match r with
      | inl r => mreturn r
      | inr add => mod_loop c ei add remove n' (u32 (va + NBPG))
      end
  end.

Definition sys_mod_pte_range (self : bool) (k add remove va num ke envid : Z) : M vm Z :=
  t <- target self ke envid ACL_W ;;
  match t with
  | inr r => mreturn r
  | inl ei =>
      if tst add PG_MBZ then mreturn (- E_INVAL)
      else if tst remove PG_U then mreturn (- E_INVAL)
      else if range_bad va num then mreturn (- E_INVAL)
      else
        c <- cur_cap k ;;
        match c with
        | inr r => mreturn r
        | inl c => mod_loop c ei (Z.land add PGMASK) (Z.land remove PGMASK) (Z.to_nat num) va
        end
  end.

(** ** Sharing limits, reading entries, freeing tables *)

(** The fields of [struct Pp_state] are four bits wide. *)
Definition sys_pstate_mod (k ppn r_state w_state : Z) : M vm Z :=
  c <- cur_cap k ;;
  match c with
  | inr r => mreturn r
  | inl c =>
      np <- gets (fun s => nppage (vm_pool s)) ;;
      if (ppn <? 1) || (np <=? ppn) then mreturn (- E_INVAL)
      else
        r <- acl_check ppn c 0 ;;
        if r <? 0 then mreturn r
        else
          pp <- in_pool (get_pp ppn) ;;
          let rs := if r_state =? -1 then ps_readers pp else Z.land r_state 15 in
          let ws := if w_state =? -1 then ps_writers pp else Z.land w_state 15 in
          if negb (ppcompat_state (pp_readers pp) (pp_writers pp) rs ws) then mreturn (- E_SHARE)
          else in_pool (upd_pp ppn (pp_set_state ws rs)) ;; mreturn 0
  end.

(** Result, and the error copied out if there is one. *)
Definition sys_read_pte (va ke envid : Z) : M vm (Z * option Z) :=
  t <- target false ke envid ACL_R ;;
  match t with
  | inr r => mreturn (0, Some r)
  | inl ei =>
      e <- in_et (get_env ei) ;;
      x <- get_pd (env_pd e) ;;
      if negb (tst (va_pde x va) PG_P) then mreturn (0, Some (- E_NOT_FOUND))
      else pte <- pte_read (pt_get_ptep x va) ;; mreturn (s32 pte, None)
  end.

Definition sys_pt_free (self : bool) (va ke envid : Z) : M vm Z :=
  t <- target self ke envid ACL_W ;;
  match t with
  | inr r => mreturn r
  | inl ei =>
      e <- in_et (get_env ei) ;;
      x <- get_pd (env_pd e) ;;
      if (UTOP <=? va) || (0 <? nptes_at x (PDENO va)) then mreturn (- E_INVAL)
      else if negb (tst (va_pde x va) PG_P) then mreturn 0
      else
        mfor (fun r =>
          x <- get_pd (env_pd e) ;;
          if negb (cr3_at x r =? 0) then
            let p := Z.shiftr (pde_at x r (PDENO va)) PGSHIFT in
            np <- gets (fun s => nppage (vm_pool s)) ;;
            assert_ (p <? np) ;;
            in_pool (ppage_free p) ;;
            upd_pd (env_pd e) (pde_set r (PDENO va) 0)
          else mreturn tt) (zseq 0 (Z.to_nat NR_CPUS)) ;;
        mreturn 0
  end.

(** ** Access lists of pages *)

Definition sys_pgacl_read (pa res_len : Z) : M vm (Z * list cap) :=
  let p := Z.shiftr pa PGSHIFT in
  np <- gets (fun s => nppage (vm_pool s)) ;;
  if np <=? p then mreturn (- E_INVAL, [])
  else
    pp <- in_pool (get_pp p) ;;
    h <- gets vm_heap ;;
    l <- of_option (acl_read h (pp_acl pp) res_len) ;;
    mreturn (zlen l, l).

(** Store back what a list operation computed. *)
Definition put_acl (p : Z) (r : Z * aclheap * list cap) : M vm Z :=
  let '(r, h, acl) := r in
  modify (set_heap h) ;; in_pool (upd_pp p (pp_set_acl acl)) ;; mreturn r.

Definition sys_pgacl_setsize (mem k pa size : Z) : M vm Z :=
  c <- cur_cap k ;;
  match c with
  | inr r => mreturn r
  | inl c =>
      let p := Z.shiftr pa PGSHIFT in
      np <- gets (fun s => nppage (vm_pool s)) ;;
      if np <=? p then mreturn (- E_INVAL)
      else
        r <- acl_check p c ACL_MOD ;;
        if r <? 0 then mreturn r
        else
          pp <- in_pool (get_pp p) ;;
          h <- gets vm_heap ;;
          x <- of_option (acl_setsize h (pp_acl pp) size mem) ;;
          put_acl p x
  end.

(** [np] and [n]: the user pointer and the capability it points at. *)
Definition sys_pgacl_mod (k pa pos np : Z) (n : cap) : M vm Z :=
  c <- cur_cap k ;;
  match c with
  | inr r => mreturn r
  | inl c =>
      let p := Z.shiftr pa PGSHIFT in
      npg <- gets (fun s => nppage (vm_pool s)) ;;
      if npg <=? p then mreturn (- E_INVAL)
      else
        pp <- in_pool (get_pp p) ;;
        h <- gets vm_heap ;;
        x <- of_option (acl_mod h c (pp_acl pp) pos np n) ;;
        put_acl p x
  end.

(** ** Asking for pages back *)

Definition PP_REVOCATION_INCREMENT := 16.

(** [rnd] are the successive values of [rand () % nppage]; running out of them
    stands for a search that has not ended yet ([None]). *)
Fixpoint revoke_loop (rnd : list Z) (num : Z) : M vm (option Z) :=
  if num =? 0 then mreturn (Some 0)
  else
    match rnd with
    | [] => mreturn None
    | ppn :: rest =>
        pp <- in_pool (get_pp ppn) ;;
        if negb (pp_status pp =? PP_USER) then revoke_loop rest num
        else
          l <- get_vpl ppn ;;
          a <- of_option (head l) ;;
          vp <- get_vp a ;;
          et <- gets vm_et ;;
          match env_id2env et (vp_env vp) with
          | inr r => mreturn (Some r)
          | inl i =>
              e <- in_et (get_env i) ;;
              if env_u e =? 0 then revoke_loop rest num
              else
                let cnt := if PP_REVOCATION_INCREMENT <? num then PP_REVOCATION_INCREMENT else num in
                in_et (upd_uarea (env_u e) (set_u_revoked_pages cnt)) ;;
                revoke_loop rest (num - cnt)
          end
    end.

Definition sys_revoke_pages (rnd : list Z) (num : Z) : M vm (option Z) := revoke_loop rnd num.

(** ** Access lists of pages *)

Definition acls_ok (s : vm) : Prop :=
  forall p pp, ppages (vm_pool s) !! p = Some pp ->
    acl_wf (vm_heap s) (pp_acl pp) /\ length (pp_acl pp) = Z.to_nat PP_ACL_LEN.

(** A list without valid entries grants nothing. *)
Lemma acl_access_closed h c acl perm :
  forallb (fun a => negb (c_valid a)) acl = true ->
  exists r, acl_access h c acl perm = Some r /\ r < 0.
Proof.
  intros Hcl. unfold acl_access. remember 1%nat as f eqn:Ef. cbn [acl_access_fuel]. clear Ef.
  destruct (negb (c_valid c)); [eexists; split; [done|elia]|].
  destruct (negb _); [eexists; split; [done|elia]|]. exists (- E_CAP_INSUFF). split; [|elia].
  induction acl as [|a acl IH]; [done|]. cbn in Hcl. apply andb_true_iff in Hcl as [Ha Hcl].
  cbn. apply negb_true_iff in Ha. rewrite Ha. by apply IH.
Qed.

Lemma acl_wf_null h n : acl_wf h (repeat cap_null n).
Proof. apply Forall_forall. intros a Ha%list_elem_of_In%repeat_spec. by subst. Qed.

Lemma acl_check_run p pp c perm s :
  acls_ok s -> ppages (vm_pool s) !! p = Some pp ->
  wp (acl_check p c perm) s (fun r s' => s' = s /\ r = acl_access_ref (vm_heap s) c (pp_acl pp) perm /\
    acl_access (vm_heap s) c (pp_acl pp) perm = Some r).
Proof.
  intros Ha Hp. destruct (Ha p pp Hp) as [Hwf Hlen]. unfold acl_check, ppage_acl_check.
  apply wp_bind, wp_gets, wp_zoom, wp_bind, wp_get_pp. exists pp. split; [done|]. apply wp_of_option.
  rewrite take_ge by lia. exists (acl_access_ref (vm_heap s) c (pp_acl pp) perm).
  split; [by apply acl_access_ok|]. split; [by destruct s|]. split; [done|]. by apply acl_access_ok.
Qed.

(** ** Flags of entries *)

Lemma tst_bit x i : 0 <= i -> tst x (2 ^ i) = Z.testbit x i.
Proof.
  intros Hi. unfold tst. destruct (Z.testbit x i) eqn:E.
  - apply negb_true_iff, Z.eqb_neq. intros H. apply (f_equal (fun z => Z.testbit z i)) in H.
    rewrite Z.land_spec, E, Z.pow2_bits_true, Z.bits_0 in H by done. done.
  - apply negb_false_iff, Z.eqb_eq. apply Z.bits_inj'. intros j Hj. rewrite Z.land_spec, Z.bits_0.
    destruct (decide (j = i)) as [->|]; [by rewrite E|]. rewrite Z.pow2_bits_false by done. apply andb_false_r.
Qed.

Lemma tst_P x : tst x PG_P = Z.testbit x 0.
Proof. exact (tst_bit x 0 ltac:(done)). Qed.
Lemma tst_W x : tst x PG_W = Z.testbit x 1.
Proof. exact (tst_bit x 1 ltac:(done)). Qed.

Lemma clr_bit x m i : 0 <= i < 32 -> Z.testbit (clr x m) i = Z.testbit x i && negb (Z.testbit m i).
Proof.
  intros Hi. unfold clr. rewrite Z.land_spec, Z.lxor_spec. change (2 ^ 32 - 1) with (Z.ones 32).
  rewrite Z.ones_spec_low by lia. by rewrite xorb_true_r.
Qed.

Lemma clr_small x m : 0 <= x < NBPG -> 0 <= clr x m < NBPG.
Proof.
  intros Hx. assert (clr x m = Z.land (clr x m) (Z.ones 12)) as ->.
  { unfold clr. rewrite <- Z.land_assoc, (Z.land_comm _ (Z.ones 12)), Z.land_assoc, (Z.land_ones x) by done.
    by rewrite (Z.mod_small x (2 ^ 12)) by exact Hx. }
  rewrite Z.land_ones by done. apply (Z.mod_pos_bound _ NBPG). done.
Qed.

Lemma no_hardware_flags m i : mmu_has_hardware_flags m = false -> i = 0 \/ i = 1 -> Z.testbit m i = false.
Proof.
  unfold mmu_has_hardware_flags, tst. intros H%negb_false_iff%Z.eqb_eq Hi.
  apply (f_equal (fun z => Z.testbit z i)) in H. rewrite Z.land_spec, Z.bits_0 in H.
  destruct Hi as [-> | ->]; by rewrite andb_true_r in H.
Qed.

(** [(pte & ~remove) | add] keeps the page, and the flags it does not name. *)
Lemma mod_bits pte add remove :
  0 <= pte < 2 ^ 32 -> 0 <= add < NBPG -> 0 <= remove < NBPG ->
  let w := Z.lor (clr pte remove) add in
  0 <= w < 2 ^ 32 /\ Z.shiftr w PGSHIFT = Z.shiftr pte PGSHIFT /\
  (forall i, 0 <= i < 32 -> Z.testbit w i = Z.testbit pte i && negb (Z.testbit remove i) || Z.testbit add i).
Proof.
  intros Hp Ha Hr w.
  assert (forall i, 0 <= i < 32 -> Z.testbit w i = Z.testbit pte i && negb (Z.testbit remove i) || Z.testbit add i) as Hbits.
  { intros i Hi. unfold w. rewrite Z.lor_spec, clr_bit by done. done. }
  assert (forall y i, 0 <= y < NBPG -> 12 <= i -> Z.testbit y i = false) as Hsm.
  { intros y i Hy Hi. rewrite <- (Z.mod_small y (2 ^ 12)) by exact Hy. by apply Z.mod_pow2_bits_high. }
  assert (0 <= w) as H0.
  { apply Z.lor_nonneg. split; [apply Z.land_nonneg|]; lia. }
  assert (forall i, 32 <= i -> Z.testbit w i = false) as Hhi.
  { intros i Hi. unfold w, clr. rewrite Z.lor_spec, Z.land_spec, (Hsm add) by lia.
    rewrite <- (Z.mod_small pte (2 ^ 32)) by done. rewrite Z.mod_pow2_bits_high by lia. done. }
  split; [|split; [|done]].
  - split; [done|]. destruct (Z.lt_ge_cases w (2 ^ 32)) as [|Hge]; [done|].
    assert (0 < w) as Hpos by lia. pose proof (Z.bit_log2 w Hpos) as Hl.
    rewrite Hhi in Hl; [done|]. apply Z.log2_le_pow2; lia.
  - apply Z.bits_inj'. intros i Hi. rewrite !Z.shiftr_spec by done. unfold PGSHIFT.
    destruct (Z.lt_ge_cases (i + 12) 32).
    + rewrite Hbits, (Hsm remove), (Hsm add) by lia. by rewrite andb_true_r, orb_false_r.
    + rewrite Hhi by lia. symmetry. rewrite <- (Z.mod_small pte (2 ^ 32)) by done. by apply Z.mod_pow2_bits_high.
Qed.

(** ** Steps of an insertion *)

Section safety.
Context (ktabs : ghost).

(** The state invariant of the memory system calls. *)
Definition vm_sys (s : vm) : Prop := vm_ok ktabs s /\ acls_ok s.

(** What every step of an insertion leaves alone. *)
Record steady (s s' : vm) : Prop := mkSteady {
  st_et : vm_et s' = vm_et s;
  st_heap : vm_heap s' = vm_heap s;
  st_np : nppage (vm_pool s') = nppage (vm_pool s) }.

Lemma steady_refl s : steady s s.
Proof. done. Qed.
Lemma steady_trans s1 s2 s3 : steady s1 s2 -> steady s2 s3 -> steady s1 s3.
Proof. intros [] []. split; congruence. Qed.

(** The page was left alone, or [k] held its last reference and it was freed. *)
Definition kept_page (k : Z * Z) (s : vm) (q : Z) (pq pq' : Ppage) : Prop :=
  pp_acl pq' = pp_acl pq /\ pp_buf pq' = pp_buf pq /\ ps_readers pq' = ps_readers pq /\
  ps_writers pq' = ps_writers pq /\
  (pp_status pq' = pp_status pq \/
   pp_status pq' = PP_FREE /\ pp_refcnt pq = Some 1 /\ tst (pte_at s k) PG_P = true /\
   q = Z.shiftr (pte_at s k) PGSHIFT /\ ~ kernel_status (pp_status pq)).

(** The entry for [va] exists and is not present; pages in use were kept. *)
Record cleared (d va : Z) (x : EnvPD) (s s' : vm) : Prop := mkCleared {
  cl_steady : steady s s';
  cl_vps : forall a, vm_vps s !! a = None -> vm_vps s' !! a = None;
  cl_max : forall b, 0 <= b -> maxref b s -> maxref b s';
  cl_x : exists x', vm_pds s' !! d = Some x' /\ tst (va_pde x' va) PG_P = true /\
    tst (pte_at s' (pt_get_ptep x' va)) PG_P = false;
  cl_pages : forall q pq, ppages (vm_pool s) !! q = Some pq -> pp_status pq <> PP_FREE ->
    exists pq', ppages (vm_pool s') !! q = Some pq' /\ kept_page (pt_get_ptep x va) s q pq pq';
  cl_back : forall q pq', ppages (vm_pool s') !! q = Some pq' -> pp_status pq' <> PP_FREE ->
    ~ kernel_status (pp_status pq') -> exists pq, ppages (vm_pool s) !! q = Some pq /\ pp_status pq <> PP_FREE }.

Lemma acls_keep s s' :
  acls_ok s -> vm_heap s' = vm_heap s ->
  (forall q pq', ppages (vm_pool s') !! q = Some pq' ->
     (exists pq, ppages (vm_pool s) !! q = Some pq /\ pp_acl pq' = pp_acl pq) \/
     pp_acl pq' = repeat cap_null (Z.to_nat PP_ACL_LEN)) ->
  acls_ok s'.
Proof.
  intros Ha Eh Hp q pq' Hq. rewrite Eh. destruct (Hp q pq' Hq) as [(pq & Hq0 & ->)| ->]; [by eapply Ha|].
  split; [apply acl_wf_null|by rewrite repeat_length].
Qed.

(** The table is ready and the entry was not present. *)
Lemma ready_cleared d va x x1 s s1 :
  ready d va x x1 s s1 -> tst (pte_at s1 (pt_get_ptep x1 va)) PG_P = false -> cleared d va x s s1.
Proof.
  intros [] HP. split; try done.
  - by rewrite rd_vps.
  - exists x1. split; [rewrite rd_pds; apply lookup_insert_eq|]. done.
  - intros q pq Hq Hs. exists pq. split; [by apply rd_kept|]. split_and!; auto.
  - intros q pq Hq Hs Hk. destruct (rd_from q pq Hq) as [?|[? _]]; [eauto|]. destruct Hk. by left.
Qed.

Lemma vm_dom s q : vm_ok ktabs s -> is_Some (ppages (vm_pool s) !! q) <-> 0 <= q < nppage (vm_pool s).
Proof. intros Hi. apply (pg_dom _ _ (proj1 (vi_pool _ _ _ _ Hi))). Qed.

(** The table is ready and the entry was removed. *)
Lemma removed_cleared d va x x1 s s1 s2 :
  vm_ok ktabs s1 -> vm_ok ktabs s2 -> vm_pds s !! d = Some x -> 0 <= va < UTOP -> ready d va x x1 s s1 ->
  tst (pte_at s1 (pt_get_ptep x1 va)) PG_P = true ->
  removed d (PDENO va) x1 (pt_get_ptep x1 va) s1 s2 -> cleared d va x s s2.
Proof.
  intros Hi1 Hi2 Hx Hva [] HP [Rp (x2 & Rd & Hadj) Re Rh Rn Rk Rv Ro Rpg Rm Ra _ _].
  assert (tst (va_pde x va) PG_P = true) as HP0.
  { destruct (tst (va_pde x va) PG_P) eqn:E; [done|]. rewrite rd_new in HP by done. done. }
  rewrite (rd_old HP0) in *.
  assert (pte_at s1 (pt_get_ptep x va) = pte_at s (pt_get_ptep x va)) as Epte.
  { apply (rd_pte d (PDENO va)). exact (va_table s d x va Hx (uva_low va Hva) HP0). }
  split.
  - split; congruence.
  - intros a Hn. apply Rv. by rewrite rd_vps.
  - intros b Hb0 Hb. by apply Rm, rd_max.
  - exists x2. rewrite Rd, lookup_insert_eq. split; [done|].
    assert (va_pde x2 va = va_pde x1 va) as E
      by (unfold va_pde; by rewrite (adj_pde _ _ _ _ Hadj), (ja_act _ _ _ _ Hadj)).
    split; [by rewrite E|]. unfold pt_get_ptep. rewrite E. fold (pt_get_ptep x1 va). rewrite (rd_old HP0).
    unfold pte_at. by rewrite Rp, lookup_insert_eq.
  - intros q pq Hq Hs. destruct (Rpg q pq (rd_kept q pq Hq Hs)) as (pq' & Hq' & H). exists pq'. split; [done|].
    unfold kept_page. by rewrite <- Epte.
  - intros q pq' Hq' Hs Hk. assert (is_Some (ppages (vm_pool s1) !! q)) as [pq Hq].
    { apply (vm_dom s1); [done|]. rewrite <- Rn. apply (vm_dom s2); eauto. }
    destruct (Rpg q pq Hq) as (pq2 & Hq2 & _ & _ & _ & _ & Hst). assert (pq2 = pq') as -> by congruence.
    destruct Hst as [Hst|[? _]]; [|done].
    destruct (rd_from q pq Hq) as [?|[? _]]; [exists pq; split; [done|congruence]|].
    destruct Hk. left. congruence.
Qed.

(** The entry for [va] is [pte], and no page was needed for that: it was before,
    or it is not present and the processor does not look at it. *)
Definition settled (d : Z) (x : EnvPD) (pte va : Z) (s s' : vm) : Prop :=
  (exists x', vm_pds s' !! d = Some x' /\ pte_at s' (pt_get_ptep x' va) = pte) /\
  (tst pte PG_P = false \/ tst (va_pde x va) PG_P = true /\ pte_at s (pt_get_ptep x va) = pte).

(** After the common part: an error, nothing to do, or a cleared entry. *)
Lemma pmap_insert_common_spec pte ei e x va s :
  vm_sys s -> envs (vm_et s) !! ei = Some e -> vm_pds s !! env_pd e = Some x -> 0 <= va < UTOP ->
  wp (pmap_insert_common pte ei va) s (fun r s' => vm_sys s' /\
    (fst r < 0 /\ s' = s \/
     r = (1, pte) /\ steady s s' /\ (forall a, vm_vps s !! a = None -> vm_vps s' !! a = None) /\
       (forall b, 0 <= b -> maxref b s -> maxref b s') /\
       settled (env_pd e) x pte va s s' \/
     r = (0, Z.lor (clr pte PG_MBZ) PG_U) /\ tst pte PG_P = true /\ cleared (env_pd e) va x s s')).
Proof.
  intros [Hi Ha] He Hx Hva. unfold pmap_insert_common. apply wp_bind.
  eapply wp_vm_env; [exact He|]. apply wp_bind.
  eapply wp_mono; [by eapply (pde_check_ready ktabs _ _ (env_pd e) x va s Hi Hx)|].
  intros r s1 [Hi1 [(-> & x1 & Hrd)|[-> ->]]].
  2: { cbn. apply wp_ret. split; [by split|]. left. split; [cbn; elia|done]. }
  cbn [Z.ltb Z.compare]. destruct Hrd. apply wp_bind, wp_get_pd. exists x1.
  assert (vm_pds s1 !! env_pd e = Some x1) as Hx1 by (rewrite rd_pds; apply lookup_insert_eq).
  split; [done|]. apply wp_bind, wp_gets. change (default 0 (vm_pts s1 !! _)) with (pte_at s1 (pt_get_ptep x1 va)).
  set (k := pt_get_ptep x1 va).
  assert (acl_from s s1) as Hfrom1.
  { intros q pq Hq. destruct (rd_from q pq Hq) as [Hq'|[_ ?]]; [left; eauto|by right]. }
  destruct (Z.eqb_spec (pte_at s1 k) pte) as [E|Hne].
  { apply wp_ret. split.
    - split; [done|]. by eapply acls_keep.
    - right. left. split; [done|]. split; [by split|]. split; [by rewrite rd_vps|]. split; [done|]. split; [by exists x1|].
      destruct (tst (va_pde x va) PG_P) eqn:EP0.
      + right. split; [done|]. rewrite <- E. unfold k. rewrite (rd_old eq_refl). symmetry.
        rewrite (surjective_pairing (pt_get_ptep x va)). eapply rd_pte, va_table; done.
      + left. rewrite <- E. unfold k. rewrite (rd_new eq_refl). done. }
  assert (wp (if tst (pte_at s1 k) PG_P then ppage_remove ei va ;; pte_write k 0 else mreturn tt) s1 (fun _ s' =>
    vm_ok ktabs s' /\ acls_ok s' /\ cleared (env_pd e) va x s s' /\
    exists x', vm_pds s' !! env_pd e = Some x' /\ va_pde x' va = va_pde x1 va)) as Hcl.
  { destruct (tst (pte_at s1 k) PG_P) eqn:EP.
    - apply wp_bind. eapply wp_mono; [eapply ppage_remove_spec; [exact Hi1|by rewrite rd_et|exact Hx1|done|done]|].
      intros _ s2 (_ & Hi2 & Hrm & _). apply wp_modify.
      replace (set_pts (<[k:=0]> (vm_pts s2)) s2) with s2.
      2: { destruct Hrm. rewrite rm_pts. fold k. rewrite insert_insert_eq. destruct s2; cbn in *. by rewrite rm_pts. }
      split; [done|]. split.
      { eapply (acls_keep s); [done|destruct Hrm; congruence|]. eapply acl_from_trans, rm_acl, Hrm. done. }
      split; [by eapply (removed_cleared (env_pd e) va x x1 s s1)|].
      destruct Hrm as [_ (x2 & Rd & Hadj) _ _ _ _ _ _ _ _ _ _]. exists x2. rewrite Rd, lookup_insert_eq.
      split; [done|]. unfold va_pde. by rewrite (adj_pde _ _ _ _ Hadj), (ja_act _ _ _ _ Hadj).
    - apply wp_ret. split; [done|]. split; [by eapply acls_keep|]. split; [by eapply ready_cleared|]. eauto. }
  apply wp_bind. eapply wp_mono; [exact Hcl|]. clear Hcl. intros _ s2 (Hi2 & Ha2 & Hcl & x2 & Hx2 & Epde).
  destruct (tst pte PG_P) eqn:EP; cbn [negb].
  - apply wp_ret. split; [by split|]. right. right. done.
  - apply wp_bind, wp_modify, wp_ret. destruct Hcl as [Cs Cv Cm (x' & Hx' & HPx & HPk) _ _].
    assert (x' = x2) as -> by congruence. assert (pt_get_ptep x2 va = k) as Ek
      by (unfold k, pt_get_ptep; by rewrite Epde). rewrite Ek in HPk.
    split; [split; [|done]|].
    + eapply (soft_write_inv _ _ _ (env_pd e) (PDENO va) x2); try done; [|apply pteno_range].
      rewrite <- Ek. by apply va_table.
    + right. left. split; [done|]. split; [by destruct Cs; split|]. split; [done|]. split; [done|].
      split; [|by left]. exists x2. split; [done|]. rewrite Ek. unfold pte_at. cbn. by rewrite lookup_insert_eq.
Qed.

(** A free page [p] was taken for the user. *)
Record taken (p : Z) (s s' : vm) : Prop := mkTaken {
  tk_free : exists pf, ppages (vm_pool s) !! p = Some pf /\ pp_status pf = PP_FREE /\
    ppages (vm_pool s') = <[p := initpp PP_USER pf]> (ppages (vm_pool s));
  tk_s : s' = set_pool (vm_pool s') s;
  tk_np : nppage (vm_pool s') = nppage (vm_pool s) }.

Lemma taken_sys p pf P s :
  vm_sys s -> ppages (vm_pool s) !! p = Some pf -> pp_status pf = PP_FREE ->
  reclaimed p PP_USER pf (vm_pool s) P -> pool_ok P -> vm_sys (set_pool P s) /\ taken p s (set_pool P s).
Proof.
  intros [Hi Ha] Hp Hs Hr Hok. pose proof (rc_ppages _ _ _ _ _ Hr) as Epp.
  destruct (free_not_table ktabs _ _ s p pf Hi Hp Hs) as (_ & _ & Hm & Hw & _ & _).
  assert (forall q pq, ppages P !! q = Some pq -> (q = p /\ pq = initpp PP_USER pf) \/ ppages (vm_pool s) !! q = Some pq) as Hpg.
  { intros q pq Hq. rewrite Epp in Hq. destruct (decide (p = q)) as [<-|Hne].
    - rewrite lookup_insert_eq in Hq. injection Hq as <-. by left.
    - rewrite lookup_insert_ne in Hq by done. by right. }
  split; [split|].
  - eapply (vm_inv_page ktabs _ _ _ _ s _ p pf (initpp PP_USER pf)); try done.
    + rewrite Hs. by intros [?|[?|?]].
    + rewrite Hm, Hw. split; cbn; try done; try (by intros [?|[?|?]]); try constructor.
    + apply (vps_ok_sub s); [apply Hi|done|]. intros q pq Hq.
      destruct (Hpg q pq Hq) as [[-> ->]|Hq']; [by left|right; eauto].
  - eapply acls_keep; [exact Ha|done|]. intros q pq Hq. cbn in Hq.
    destruct (Hpg q pq Hq) as [[-> ->]|Hq']; [by right|left; eauto].
  - split; cbn; [exists pf; done|done|apply (rc_n _ _ _ _ _ Hr)].
Qed.

Lemma pmap_pick_spec pte userreq s :
  vm_sys s -> 0 <= pte < 2 ^ 32 ->
  wp (pmap_pick pte userreq) s (fun r s' =>
    match r with
    | inr r => r < 0 /\ s' = s
    | inl (p, new) => vm_sys s' /\ (Z.shiftr pte PGSHIFT = 0 \/ p = Z.shiftr pte PGSHIFT) /\
        if new : bool then taken p s s'
        else s' = s /\ exists pp, ppages (vm_pool s) !! p = Some pp /\ pp_status pp <> PP_FREE
    end).
Proof.
  intros Hsys Hpte. pose proof Hsys as [Hi Ha]. pose proof (vi_pool _ _ _ _ Hi) as Hpool. unfold pmap_pick.
  set (ppn := Z.shiftr pte PGSHIFT). destruct (Z.eqb_spec ppn 0) as [E0|Hn0]; cbn [negb].
  - apply wp_bind, wp_zoom. eapply wp_mono; [by apply ppage_alloc_spec|]. intros r P [Hok H].
    destruct (find_free_ref userreq (vm_pool s)) as [p|] eqn:Ef; destruct H as [-> H]; cbn.
    + destruct H as (pf & Hp & Hr). apply wp_ret.
      destruct (reclaimable_free (vm_pool s) p) as (pf' & Hp' & Hs); [eapply find_free_ref_sound, Ef; apply Hpool|].
      assert (pf' = pf) as -> by congruence.
      destruct (taken_sys p pf P s Hsys Hp Hs Hr Hok). split; [done|]. split; [by left|done].
    + subst P. apply wp_ret. split; [elia|by destruct s].
  - apply wp_bind, wp_gets.
    destruct ((nppage (vm_pool s) <=? ppn) || (ppn <? 1)) eqn:Er; [apply wp_ret; split; [elia|done]|].
    apply orb_false_iff in Er as [Er1%Z.leb_gt Er2%Z.ltb_ge].
    destruct (proj2 (vm_dom s ppn Hi)) as [pp Hp]; [lia|]. apply wp_bind. eapply wp_get_page; [exact Hp|].
    destruct (Z.eqb_spec (pp_buf pp) 0) as [Eb|]; cbn [negb]; [|apply wp_ret; split; [elia|done]].
    destruct (Z.eqb_spec (pp_status pp) PP_FREE) as [Hs|Hs].
    + destruct (0 <? pp_pinned pp); [apply wp_ret; split; [elia|done]|]. apply wp_bind, wp_zoom.
      eapply wp_mono; [by eapply ppage_reclaim_page_spec|]. intros [] P Hr. apply wp_ret.
      assert (pool_ok P) as Hok by (by eapply (reclaimed_pool_ok ppn PP_USER)).
      destruct (taken_sys ppn pp P s Hsys Hp Hs Hr Hok). split; [done|]. split; [by right|done].
    + apply wp_ret. split; [done|]. split; [by right|]. split; [done|]. eauto.
Qed.

(** The list of a page taken for [c]. *)
Definition owner_acl (c : cap) : list cap := [c; cap_null].

Lemma acl_add_owner c :
  acl_add (acl_init (repeat cap_null (Z.to_nat PP_ACL_LEN)) PP_ACL_LEN) PP_ACL_LEN c = (0, owner_acl c).
Proof. reflexivity. Qed.

(** Page [p] may be mapped with [pte] by a holder of [c]. *)
Definition page_granted (s : vm) (c : cap) (p pte : Z) (pp : Ppage) : Prop :=
  acl_access (vm_heap s) c (pp_acl pp) (if tst pte PG_W then ACL_W else 0) = Some 0 /\
  ppcompat_state (pp_readers pp + 1) (if tst pte PG_W then pp_writers pp + 1 else pp_writers pp)
    (ps_readers pp) (ps_writers pp) = true.

Lemma acl_access_ref_range h c acl perm : acl_access_ref h c acl perm <= 0.
Proof. unfold acl_access_ref. repeat case_match; elia. Qed.

(** Guarding a page in use: allowed only to a capability its list accepts, so
    never on a page of the kernel. *)
Lemma pmap_guard_old p pp c pte s :
  vm_sys s -> ppages (vm_pool s) !! p = Some pp ->
  wp (pmap_guard p false c pte) s (fun r s' => s' = s /\
    (r < 0 \/ r = 0 /\ page_granted s c p pte pp /\ ~ kernel_status (pp_status pp))).
Proof.
  intros [Hi Ha] Hp. unfold pmap_guard. apply wp_bind. eapply wp_get_page; [exact Hp|]. apply wp_bind.
  eapply wp_mono; [by eapply acl_check_run|]. intros r s' (-> & Er & Eacc).
  pose proof (acl_access_ref_range (vm_heap s) c (pp_acl pp) (if tst pte PG_W then ACL_W else 0)).
  destruct (Z.ltb_spec r 0); [apply wp_ret; auto|]. assert (r = 0) as -> by lia.
  destruct (ppcompat_state _ _ _ _) eqn:Ec; cbn [negb]; apply wp_ret; split; auto; [|left; elia].
  right. split; [done|]. split; [by split|]. intros Hk.
  destruct (po_closed _ _ _ (vi_pages _ _ _ _ Hi p pp Hp) Hk) as [_ Hcl].
  destruct (acl_access_closed (vm_heap s) c (pp_acl pp) (if tst pte PG_W then ACL_W else 0) Hcl) as (r & Hr & ?).
  rewrite Eacc in Hr. injection Hr as <-. lia.
Qed.

(** A page just taken gets the caller's capability as its only owner. *)
Lemma pmap_guard_new p pf c pte s :
  vm_sys s -> ppages (vm_pool s) !! p = Some (initpp PP_USER pf) -> c_isptr c = false ->
  wp (pmap_guard p true c pte) s (fun r s' => r = 0 /\ vm_sys s' /\
    s' = upd_page p (pp_set_acl (owner_acl c) (initpp PP_USER pf)) s).
Proof.
  intros [Hi Ha] Hp Hc. unfold pmap_guard. apply wp_bind. eapply wp_get_page; [exact Hp|].
  cbn [pp_acl initpp]. rewrite acl_add_owner. apply wp_bind. eapply wp_upd_page; [exact Hp|]. apply wp_ret.
  split; [done|]. split; [|done]. split.
  - destruct (vi_pages _ _ _ _ Hi p _ Hp) as [R W U C N].
    eapply (vm_inv_page ktabs _ _ _ _ s _ p (initpp PP_USER pf)); try done; cbn.
    + by intros [?|[?|?]].
    + eapply pool_ok_page; [apply Hi|exact Hp|done..].
    + split; try done. by intros [?|[?|?]].
    + apply (vps_ok_sub s); [apply Hi|done|]. intros q pq Hq. cbn in Hq. destruct (decide (p = q)) as [<-|Hne].
      * rewrite lookup_insert_eq in Hq. injection Hq as <-. by left.
      * rewrite lookup_insert_ne in Hq by done. right. eauto.
  - intros q pq Hq. cbn in Hq. destruct (decide (p = q)) as [<-|Hne].
    + rewrite lookup_insert_eq in Hq. injection Hq as <-. split; [|done]. cbn.
      repeat constructor; cbn; [|done]. rewrite Hc. done.
    + rewrite lookup_insert_ne in Hq by done. by apply Ha in Hq.
Qed.

(** Page [p], taken and not mapped, goes back to its free list. *)
Lemma free_user_sys p pp c s :
  vm_sys s -> ppages (vm_pool s) !! p = Some pp -> pp_u pp = PV [] 0 c -> ~ kernel_status (pp_status pp) ->
  wp (in_pool (ppage_free p)) s (fun _ s' => vm_sys s' /\ steady s s' /\ vm_vps s' = vm_vps s /\
    (forall b, maxref b s -> maxref b s')).
Proof.
  intros [Hi Ha] Hp Hu Hk. apply wp_zoom. eapply ppage_free_run; [exact Hp|unfold pp_refcnt; by rewrite Hu|].
  cbn [Z.eqb]. destruct (freed_ppages p pp (vm_pool s)) as [Epp Enp].
  destruct (vi_pages _ _ _ _ Hi p pp Hp) as [R W U C N]. rewrite Hu in U.
  assert (pp_status pp <> PP_FREE) as Hs.
  { intros Hs. apply (pg_u _ _ (proj1 (vi_pool _ _ _ _ Hi)) p pp Hp) in Hs; [congruence|done]. }
  pose proof (nwmaps_le ktabs p s) as Hnw.
  assert (forall q pq, ppages (freed p pp (vm_pool s)) !! q = Some pq ->
    exists pq0, ppages (vm_pool s) !! q = Some pq0 /\ pp_acl pq = pp_acl pq0 /\
      (pp_vpl pq = [] \/ pp_vpl pq = pp_vpl pq0)) as Hback.
  { intros q pq Hq. rewrite Epp in Hq. destruct (decide (p = q)) as [<-|Hne].
    - rewrite lookup_insert_eq in Hq. injection Hq as <-. exists pp. auto.
    - rewrite lookup_insert_ne in Hq by done. eauto 6. }
  split; [split|split_and!; try done].
  - eapply (vm_inv_page ktabs _ _ _ _ s _ p pp); try done.
    + split; [apply freed_pages_ok; [done|eapply pages_ok_open; try done; apply Hi]|].
      apply freed_bc_ok; [done| |apply Hi]. intros E. apply Hk. by right; left.
    + split; cbn; try lia; try done; [by intros [?|[?|?]]|constructor].
    + apply (vps_ok_sub s); [apply Hi|done|]. intros q pq Hq.
      destruct (Hback q pq Hq) as (pq0 & Hq0 & _ & [?|?]); [by left|right; eauto].
  - intros q pq Hq. destruct (Hback q pq Hq) as (pq0 & Hq0 & -> & _). by apply Ha in Hq0.
  - intros b Hb q pq l n cc Hq Huq. cbn in Hq. rewrite Epp in Hq. destruct (decide (p = q)) as [<-|Hne].
    + rewrite lookup_insert_eq in Hq. injection Hq as <-. done.
    + rewrite lookup_insert_ne in Hq by done. by eapply Hb.
Qed.

(** The entry [pmap_insert_common] corrects. *)
Definition fixed_pte (pte : Z) : Z := Z.lor (clr pte PG_MBZ) PG_U.

Lemma fixed_pte_spec pte : 0 <= pte < 2 ^ 32 ->
  0 <= fixed_pte pte < 2 ^ 32 /\ Z.shiftr (fixed_pte pte) PGSHIFT = Z.shiftr pte PGSHIFT /\
  (forall m, (m = PG_P \/ m = PG_W) -> tst (fixed_pte pte) m = tst pte m /\
     tst (Z.land (fixed_pte pte) PGMASK) m = tst pte m) /\
  0 <= Z.land (fixed_pte pte) PGMASK < NBPG.
Proof.
  intros Hp. unfold fixed_pte.
  assert (0 <= Z.lor (clr pte PG_MBZ) PG_U) as H0.
  { apply Z.lor_nonneg. split; [|done]. apply Z.land_nonneg. lia. }
  assert (Z.shiftr (Z.lor (clr pte PG_MBZ) PG_U) PGSHIFT = Z.shiftr pte PGSHIFT) as Hsh.
  { unfold clr. rewrite Z.shiftr_lor, Z.shiftr_land. change (Z.shiftr PG_U PGSHIFT) with 0. rewrite Z.lor_0_r.
    change (Z.shiftr (Z.lxor PG_MBZ (2 ^ 32 - 1)) PGSHIFT) with (Z.ones 20). rewrite Z.land_ones by done.
    apply Z.mod_small. rewrite Z.shiftr_div_pow2 by done. change (2 ^ PGSHIFT) with 4096.
    split; [apply Z.div_pos; lia|apply Z.div_lt_upper_bound; lia]. }
  split_and!; [done| |done| |apply Z.land_nonneg; by right|].
  - apply (f_equal (fun z => Z.shiftl z PGSHIFT)) in Hsh.
    rewrite !Z.shiftl_mul_pow2, !Z.shiftr_div_pow2 in Hsh by done. change (2 ^ PGSHIFT) with 4096 in Hsh.
    pose proof (Z.mod_pos_bound (Z.lor (clr pte PG_MBZ) PG_U) 4096).
    pose proof (Z.div_mod (Z.lor (clr pte PG_MBZ) PG_U) 4096).
    assert (pte / 4096 < 2 ^ 20) by (apply Z.div_lt_upper_bound; lia). lia.
  - intros m Hm.
    assert (Z.land (Z.lor (clr pte PG_MBZ) PG_U) m = Z.land pte m) as E.
    { unfold clr. rewrite Z.land_lor_distr_l, <- Z.land_assoc. destruct Hm as [-> | ->].
      - change (Z.land (Z.lxor PG_MBZ (2 ^ 32 - 1)) PG_P) with PG_P. apply Z.lor_0_r.
      - change (Z.land (Z.lxor PG_MBZ (2 ^ 32 - 1)) PG_W) with PG_W. apply Z.lor_0_r. }
    unfold tst. rewrite E. split; [done|]. rewrite <- Z.land_assoc.
    replace (Z.land PGMASK m) with m by (by destruct Hm as [-> | ->]). by rewrite E.
  - change PGMASK with (Z.ones 12). rewrite Z.land_ones by done. apply (Z.mod_pos_bound _ 4096). done.
Qed.

(** The translation of [va] that a call with capability [c] may install in
    place of the entry at [old]: of a page that [c] opens, or of a page that was
    free (or whose last translation was the one replaced) and now belongs to [c]. *)
Definition authorized (c : cap) (pte va d : Z) (old : Z * Z) (s s' : vm) : Prop :=
  exists p x' pp pp', vm_pds s' !! d = Some x' /\ tst (va_pde x' va) PG_P = true /\
    pte_at s' (pt_get_ptep x' va) = Z.lor (pp2pa p) (Z.land (fixed_pte pte) PGMASK) /\
    (Z.shiftr pte PGSHIFT = 0 \/ p = Z.shiftr pte PGSHIFT) /\
    ppages (vm_pool s) !! p = Some pp /\ ppages (vm_pool s') !! p = Some pp' /\
    ~ kernel_status (pp_status pp) /\
    (acl_access (vm_heap s) c (pp_acl pp) (if tst pte PG_W then ACL_W else 0) = Some 0 /\
       pp_status pp <> PP_FREE /\ pp_acl pp' = pp_acl pp \/
     (pp_status pp = PP_FREE \/
        pp_refcnt pp = Some 1 /\ tst (pte_at s old) PG_P = true /\ p = Z.shiftr (pte_at s old) PGSHIFT) /\
       pp_acl pp' = owner_acl c).

(** Progress of a call: what is true after each iteration. *)
Record progress (mem : Z) (b b' : Z) (s s' : vm) : Prop := mkProgress {
  pr_sys : vm_sys s';
  pr_steady : steady s s';
  pr_vps : forall a, a <> mem -> vm_vps s !! a = None -> vm_vps s' !! a = None;
  pr_max : maxref b' s' }.

Lemma progress_le mem b b' b'' s s' : b' <= b'' -> progress mem b b' s s' -> progress mem b b'' s s'.
Proof. intros Hb []. split; try done. intros p pp l n c Hp Hu. pose proof (pr_max0 p pp l n c Hp Hu). lia. Qed.

Lemma cleared_progress mem b d va x s s' :
  0 <= b -> maxref b s -> vm_sys s' -> cleared d va x s s' -> progress mem b b s s'.
Proof. intros Hb Hm Hs []. split; auto. Qed.

Lemma inserted_progress mem b d va p w s s' :
  0 <= b -> maxref b s -> vm_sys s -> vm_ok ktabs s' -> inserted_pte mem d va p w s s' ->
  progress mem b (b + 1) s s'.
Proof.
  intros Hb Hm [Hi Ha] Hi' []. split; auto.
  - split; [done|]. eapply acls_keep; eauto.
  - by split.
Qed.

Lemma progress_trans mem b1 b2 b3 s1 s2 s3 :
  progress mem b1 b2 s1 s2 -> progress mem b2 b3 s2 s3 -> progress mem b1 b3 s1 s3.
Proof. intros [] []. split; auto. by eapply steady_trans. Qed.

(** The rest of an iteration for a page in use. *)
Lemma insert_old_run mem c ei e x va pte p pp b s :
  vm_sys s -> maxref b s -> 0 <= b < 2 ^ 16 - 1 -> (mem = 0 \/ vm_vps s !! mem = None) ->
  envs (vm_et s) !! ei = Some e -> vm_pds s !! env_pd e = Some x -> 0 <= va < UTOP ->
  0 <= pte < 2 ^ 32 -> tst pte PG_P = true ->
  ppages (vm_pool s) !! p = Some pp -> pp_status pp <> PP_FREE ->
  wp (r <- pmap_guard p false c (fixed_pte pte) ;;
      if r <? 0 then mreturn (inl r)
      else r <- ppage_insert mem ei p va (Z.land (fixed_pte pte) PGMASK) ;;
           if r <? 0 then mreturn tt ;; mreturn (inl r) else mreturn (inr true)) s
    (fun r s' => progress mem b (b + 1) s s' /\
      match r with
      | inl r => r < 0
      | inr b => b = true /\ page_granted s c p (fixed_pte pte) pp /\ ~ kernel_status (pp_status pp) /\
          inserted_pte mem (env_pd e) va p (Z.lor (pp2pa p) (Z.land (fixed_pte pte) PGMASK)) s s'
      end).
Proof.
  intros Hsys Hb Hb1 Hmem He Hx Hva Hpte HP Hp Hs. pose proof Hsys as [Hi Ha].
  assert (progress mem b (b + 1) s s) as Hid.
  { split; try done. intros q pq l n cc Hq Hu. pose proof (Hb q pq l n cc Hq Hu). lia. }
  destruct (fixed_pte_spec pte Hpte) as (_ & _ & Hbits & Hperm).
  apply wp_bind. eapply wp_mono; [by eapply pmap_guard_old|]. intros r s1 (-> & [Hr|(-> & Hg & Hk)]).
  { destruct (Z.ltb_spec r 0); [|lia]. by apply wp_ret. }
  cbn [Z.ltb Z.compare].
  destruct (pp_u pp) as [|l n cc] eqn:Hu; [by apply (pg_u _ _ (proj1 (vi_pool _ _ _ _ Hi)) p pp Hp) in Hu|].
  pose proof (Hb p pp l n cc Hp Hu). apply wp_bind.
  eapply wp_mono; [eapply (ppage_insert_spec ktabs mem ei e x p pp l n cc); try done; [lia|]|].
  { destruct (Hbits PG_P) as [_ E]; [by left|]. by rewrite E. }
  intros r s2 [(-> & Hok & Hins)|[-> ->]].
  - cbn [Z.ltb Z.compare]. apply wp_ret. split; [|done]. by eapply inserted_progress; [lia|..].
  - apply wp_bind, wp_ret, wp_ret. split; [done|elia].
Qed.

(** The rest of an iteration for a page taken from a free list. *)
Lemma insert_new_run mem c ei e x va pte p pf b s :
  vm_sys s -> maxref b s -> 0 <= b < 2 ^ 16 - 1 -> (mem = 0 \/ vm_vps s !! mem = None) -> c_isptr c = false ->
  envs (vm_et s) !! ei = Some e -> vm_pds s !! env_pd e = Some x -> 0 <= va < UTOP ->
  0 <= pte < 2 ^ 32 -> tst pte PG_P = true ->
  ppages (vm_pool s) !! p = Some (initpp PP_USER pf) ->
  wp (r <- pmap_guard p true c (fixed_pte pte) ;;
      if r <? 0 then mreturn (inl r)
      else r <- ppage_insert mem ei p va (Z.land (fixed_pte pte) PGMASK) ;;
           if r <? 0 then in_pool (ppage_free p) ;; mreturn (inl r) else mreturn (inr true)) s
    (fun r s' => progress mem b (b + 1) s s' /\
      match r with
      | inl r => r < 0
      | inr b => b = true /\ exists s1, vm_sys s1 /\
          s1 = upd_page p (pp_set_acl (owner_acl c) (initpp PP_USER pf)) s /\
          inserted_pte mem (env_pd e) va p (Z.lor (pp2pa p) (Z.land (fixed_pte pte) PGMASK)) s1 s'
      end).
Proof.
  intros Hsys Hb Hb1 Hmem Hc He Hx Hva Hpte HP Hp.
  destruct (fixed_pte_spec pte Hpte) as (_ & _ & Hbits & Hperm).
  apply wp_bind. eapply wp_mono; [by eapply pmap_guard_new|]. intros r s1 (-> & Hsys1 & E1).
  cbn [Z.ltb Z.compare].
  assert (maxref b s1) as Hb'.
  { rewrite E1. intros q pq l n cc Hq Hu. cbn in Hq. destruct (decide (p = q)) as [<-|Hne].
    - rewrite lookup_insert_eq in Hq. injection Hq as <-. injection Hu as <- <- <-. lia.
    - rewrite lookup_insert_ne in Hq by done. by eapply Hb. }
  assert (progress mem b b s s1) as Hp1 by (split; try done; by rewrite E1).
  assert (ppages (vm_pool s1) !! p = Some (pp_set_acl (owner_acl c) (initpp PP_USER pf))) as Hpp
    by (rewrite E1; apply upd_page_lookup).
  apply wp_bind.
  eapply wp_mono; [eapply (ppage_insert_spec ktabs mem ei e x p _ [] 0 0 va _ s1); try done|].
  - apply Hsys1.
  - by rewrite E1.
  - by rewrite E1.
  - by intros [?|[?|?]].
  - by rewrite E1.
  - destruct (Hbits PG_P) as [_ E]; [by left|]. by rewrite E.
  - intros r s2 [(-> & Hok & Hins)|[-> ->]].
    + cbn [Z.ltb Z.compare]. apply wp_ret. split; [|by eauto 6].
      eapply progress_trans; [exact Hp1|]. by eapply inserted_progress; [lia|..].
    + apply wp_bind. eapply wp_mono; [by eapply (free_user_sys p _ 0 s1); [..|intros [?|[?|?]]]|].
      intros _ s2 (Hs2 & Hst & Ev & Hm). apply wp_ret. split; [|elia].
      eapply progress_trans; [exact Hp1|]. apply (progress_le _ _ b); [lia|].
      split; auto. by rewrite Ev.
Qed.

Lemma authorized_old mem c pte va d x p pp s s1 s3 :
  cleared d va x s s1 -> ppages (vm_pool s1) !! p = Some pp -> pp_status pp <> PP_FREE ->
  0 <= pte < 2 ^ 32 -> (Z.shiftr pte PGSHIFT = 0 \/ p = Z.shiftr pte PGSHIFT) ->
  page_granted s1 c p (fixed_pte pte) pp -> ~ kernel_status (pp_status pp) ->
  inserted_pte mem d va p (Z.lor (pp2pa p) (Z.land (fixed_pte pte) PGMASK)) s1 s3 ->
  authorized c pte va d (pt_get_ptep x va) s s3.
Proof.
  intros [Cs Cv Cm _ Cp Cb] Hp Hs Hpte Hwhich [Hg _] Hk [(x' & Hx' & HP' & Hpt & _) _ _ _ _ _ _ Hpage].
  destruct (fixed_pte_spec pte Hpte) as (_ & _ & Hbits & _).
  destruct (Cb p pp Hp Hs Hk) as (pq & Hq & Hsq). destruct (Cp p pq Hq Hsq) as (pq' & Hq' & Ea & _ & _ & _ & Hst).
  assert (pq' = pp) as -> by congruence. destruct (Hpage pp Hp) as (pp' & Hp' & Ea' & _).
  assert (pp_status pp = pp_status pq) as Est by (destruct Hst as [?|[? _]]; [congruence|done]).
  exists p, x', pq, pp'. split_and!; try done; [by rewrite <- Est|]. left.
  rewrite (proj1 (Hbits PG_W ltac:(by right))), (st_heap _ _ Cs) in Hg. rewrite <- Ea. split_and!; [done..|congruence].
Qed.

Lemma authorized_new mem c pte va d x p pf s s1 s2 s3 :
  vm_ok ktabs s -> vm_ok ktabs s1 ->
  cleared d va x s s1 -> ppages (vm_pool s1) !! p = Some pf -> pp_status pf = PP_FREE ->
  (Z.shiftr pte PGSHIFT = 0 \/ p = Z.shiftr pte PGSHIFT) ->
  ppages (vm_pool s2) !! p = Some (pp_set_acl (owner_acl c) (initpp PP_USER pf)) ->
  inserted_pte mem d va p (Z.lor (pp2pa p) (Z.land (fixed_pte pte) PGMASK)) s2 s3 ->
  authorized c pte va d (pt_get_ptep x va) s s3.
Proof.
  intros Hi Hi1 [Cs Cv Cm _ Cp Cb] Hpf Hsf Hwhich Hp2 [(x' & Hx' & HP' & Hpt & _) _ _ _ _ _ _ Hpage].
  destruct (Hpage _ Hp2) as (pp' & Hp' & Ea' & _).
  assert (is_Some (ppages (vm_pool s) !! p)) as [pp Hp].
  { apply vm_dom; [done|]. rewrite <- (st_np _ _ Cs). apply vm_dom; eauto. }
  assert (pp_status pp = PP_FREE \/ pp_refcnt pp = Some 1 /\ tst (pte_at s (pt_get_ptep x va)) PG_P = true /\
    p = Z.shiftr (pte_at s (pt_get_ptep x va)) PGSHIFT /\ ~ kernel_status (pp_status pp)) as Hor.
  { destruct (decide (pp_status pp = PP_FREE)) as [|Hne]; [by left|]. right.
    destruct (Cp p pp Hp Hne) as (pp1 & Hp1 & _ & _ & _ & _ & [Hst|(_ & H1 & H2 & H3 & H4)]); [congruence|].
    done. }
  exists p, x', pp, pp'. split_and!; try done.
  - destruct Hor as [E|(_ & _ & _ & H)]; [|done]. rewrite E. by intros [?|[?|?]].
  - right. split; [|done]. destruct Hor as [?|(? & ? & ? & _)]; auto.
Qed.

Lemma insert_one_spec mem c ei e x userreq va pte b s :
  vm_sys s -> maxref b s -> 0 <= b < 2 ^ 16 - 1 -> (mem = 0 \/ vm_vps s !! mem = None) -> c_isptr c = false ->
  envs (vm_et s) !! ei = Some e -> vm_pds s !! env_pd e = Some x -> 0 <= va < UTOP -> 0 <= pte < 2 ^ 32 ->
  wp (insert_one c ei userreq mem pte va) s (fun r s' => progress mem b (b + 1) s s' /\
    match r with
    | inl r => r < 0
    | inr false => settled (env_pd e) x pte va s s'
    | inr true => tst pte PG_P = true /\ authorized c pte va (env_pd e) (pt_get_ptep x va) s s'
    end).
Proof.
  intros Hsys Hb Hb1 Hmem Hc He Hx Hva Hpte. unfold insert_one. apply wp_bind.
  eapply wp_mono; [by eapply pmap_insert_common_spec|].
  intros [r pte'] s1 (Hs1 & [(Hr & ->)|[(E & Hst & Hv & Hm & Hx1)|(E & HP & Hcl)]]).
  - cbn in Hr. destruct (Z.ltb_spec r 0); [|lia]. apply wp_ret. split; [|done].
    split; try done. intros q pq l n cc Hq Hu. pose proof (Hb q pq l n cc Hq Hu). lia.
  - injection E as -> ->. cbn [Z.ltb Z.compare]. apply wp_ret. split; [|done].
    apply (progress_le _ _ b); [lia|]. split; auto. by apply Hm; [lia|].
  - injection E as -> ->. fold (fixed_pte pte). cbn [Z.ltb Z.compare].
    pose proof (cleared_progress mem b _ _ _ _ _ ltac:(lia) Hb Hs1 Hcl) as Hp1.
    destruct (fixed_pte_spec pte Hpte) as (Hfr & Hsh & Hbits & Hperm).
    apply wp_bind. eapply wp_mono; [by apply pmap_pick_spec|].
    intros [[p new]|r] s2; [|intros [? ->]; apply wp_ret; split; [by apply (progress_le _ _ b); [lia|]|done]].
    rewrite Hsh. intros (Hs2 & Hwhich & Hnew). pose proof Hcl as [Cs Cv Cm (x1 & Hx1 & HP1 & HPk) Cp Cb].
    assert (mem = 0 \/ vm_vps s1 !! mem = None) as Hmem1 by (destruct Hmem; auto).
    assert (envs (vm_et s1) !! ei = Some e) as He1 by (by rewrite (st_et _ _ Cs)).
    assert ((if tst (fixed_pte pte) PG_W then ACL_W else 0) = (if tst pte PG_W then ACL_W else 0)) as EW
      by (by rewrite (proj1 (Hbits PG_W ltac:(by right)))).
    destruct new.
    + destruct Hnew as [(pf & Hpf & Hsf & Epp) Es2 En2].
      assert (ppages (vm_pool s2) !! p = Some (initpp PP_USER pf)) as Hp2 by (rewrite Epp; apply lookup_insert_eq).
      assert (maxref b s2) as Hb2.
      { intros q pq l n cc Hq Hu. rewrite Epp in Hq. destruct (decide (p = q)) as [<-|Hne].
        - rewrite lookup_insert_eq in Hq. injection Hq as <-. injection Hu as <- <- <-. lia.
        - rewrite lookup_insert_ne in Hq by done. by eapply (pr_max _ _ _ _ _ Hp1). }
      assert (progress mem b b s s2) as Hps2.
      { eapply progress_trans; [exact Hp1|]. split; try done; [|by rewrite Es2].
        split; [by rewrite Es2|by rewrite Es2|done]. }
      eapply wp_mono; [eapply (insert_new_run mem c ei e x1 va pte p pf b s2); try done; by rewrite Es2|].
      intros [r|bb] s3 [Hp3 H3]; (split; [by eapply progress_trans|]); [done|].
      destruct H3 as (-> & s2' & _ & E2' & Hins). split; [done|].
      eapply (authorized_new mem c pte va (env_pd e) x p pf s s1 s2'); try done; [apply Hsys|apply Hs1|].
      rewrite E2'. apply upd_page_lookup.
    + destruct Hnew as [-> (pp & Hp & Hs)].
      eapply wp_mono; [eapply (insert_old_run mem c ei e x1 va pte p pp b s1); try done; apply (pr_max _ _ _ _ _ Hp1)|].
      intros [r|bb] s3 [Hp3 H3]; (split; [by eapply progress_trans|]); [done|].
      destruct H3 as (-> & Hg & Hk & Hins). split; [done|]. by eapply (authorized_old mem c pte va (env_pd e) x p pp s s1).
Qed.

(** ** Whole calls *)

(** Capability lists hold no pointers. *)
Definition caps_ok (et : envtab) : Prop :=
  forall i e c, envs et !! i = Some e -> c ∈ env_clist e -> c_isptr c = false.

(** What the kernel's allocator promises for [n] calls: null, or memory that is
    not in use, different each time. *)
Definition mems_ok (mems : Z -> Z) (i : Z) (n : nat) (s : vm) : Prop :=
  (forall j, i <= j < i + Z.of_nat n -> mems j = 0 \/ vm_vps s !! mems j = None) /\
  (forall j j', i <= j < i + Z.of_nat n -> i <= j' < i + Z.of_nat n -> mems j = mems j' -> mems j <> 0 -> j = j').

Lemma env_dir s i e :
  vm_ok ktabs s -> envs (vm_et s) !! i = Some e -> env_status e <> ENV_FREE -> is_Some (vm_pds s !! env_pd e).
Proof. intros Hi. apply (vi_env _ _ _ _ Hi). Qed.

Lemma insert_loop_spec c ei e userreq mems ptes wr n : forall i va done b s, wr = true ->
  vm_sys s -> maxref b s -> 0 <= b -> b + Z.of_nat n < 2 ^ 16 -> mems_ok mems i n s -> c_isptr c = false ->
  envs (vm_et s) !! ei = Some e -> env_status e <> ENV_FREE ->
  0 <= va -> va + Z.of_nat n * NBPG < UTOP + NBPG -> (forall j, 0 <= ptes j < 2 ^ 32) ->
  wp (insert_loop c ei userreq mems ptes wr n i va done) s (fun r s' => vm_sys s' /\ steady s s' /\ fst r <= 0).
Proof.
  induction n as [|n IH]; intros i va done b s Hwr Hsys Hb Hb0 Hbn [Hm1 Hm2] Hc He Hs Hva Htop Hpt; cbn [insert_loop].
  { apply wp_ret. done. }
  destruct (env_dir s ei e (proj1 Hsys) He Hs) as [x Hx]. unfold NBPG in *. assert (UTOP < 2 ^ 32 - 8192) as HU by done.
  apply wp_bind. eapply wp_mono; [eapply (insert_one_spec (mems i) c ei e x userreq va (ptes i) b s); try done; try lia|].
  { apply Hm1. lia. }
  intros [r|bb] s1 [[Ps Pst Pv Pm] Hr].
  { apply wp_ret. cbn in *. split_and!; [done..|lia]. }
  rewrite (u32_small (va + 4096)) by lia. apply wp_bind. subst wr. replace (if bb then _ else _) with (@mreturn vm _ tt) by (by destruct bb). apply wp_ret.
  eapply wp_mono; [apply (IH (i + 1) (va + 4096) _ (b + 1) s1); try done; try lia|].
  - split.
    + intros j Hj. destruct (Hm1 j ltac:(lia)) as [?|Hn]; [by left|].
      destruct (decide (mems j = mems i)) as [E|Hne]; [|right; by apply Pv].
      destruct (decide (mems j = 0)); [by left|]. assert (j = i) by (apply Hm2; [lia|lia|done|done]). lia.
    + intros j j' Hj Hj'. apply Hm2; lia.
  - by rewrite (st_et _ _ Pst).
  - intros r s2 (? & ? & ?). split_and!; [done|by eapply steady_trans|done].
Qed.

Lemma cur_cap_run k cur ce s :
  curenv (vm_et s) = Some cur -> envs (vm_et s) !! cur = Some ce ->
  wp (cur_cap k) s (fun r s' => s' = s /\ r = env_getcap ce k).
Proof.
  intros Hc He. apply wp_bind, wp_zoom, wp_of_option. exists cur. split; [done|]. apply wp_bind.
  eapply wp_vm_env; [cbn; exact He|]. apply wp_ret. split; [by destruct s|done].
Qed.

(** Finding the target needs write access to it unless it is the caller. *)
Lemma target_run self ke envid perm cur ce s :
  caps_ok (vm_et s) -> vm_ok ktabs s -> curenv (vm_et s) = Some cur -> envs (vm_et s) !! cur = Some ce ->
  wp (target self ke envid perm) s (fun r s' => s' = s /\
    match r with
    | inr r => r < 0
    | inl ei => exists e, envs (vm_et s) !! ei = Some e /\ env_status e <> ENV_FREE /\
        if self then ei = cur
        else env_id e = envid /\ exists c, env_getcap ce ke = inl c /\
             acl_access (vm_heap s) c (take 1 (env_clist e)) perm = Some 0
    end).
Proof.
  intros Hcaps Hi Hc He. unfold target. destruct self.
  - apply wp_bind, wp_zoom, wp_of_option. exists cur. split; [done|]. apply wp_ret. split; [by destruct s|].
    destruct (vi_cur _ _ _ _ Hi cur Hc) as (e & He' & Hs). assert (e = ce) as -> by congruence. eauto.
  - apply wp_bind, wp_gets, wp_zoom. unfold env_access. apply wp_bind, wp_of_option. exists cur. split; [done|].
    apply wp_bind, wp_of_option. exists ce. split; [done|].
    destruct (env_getcap ce ke) as [c|r] eqn:Ek; [|apply wp_ret; split; [by destruct s|]].
    2: { unfold env_getcap in Ek. repeat case_match; simplify_eq; elia. }
    apply wp_bind, wp_get. destruct (env_id2env (vm_et s) envid) as [ei|r] eqn:Ei.
    2: { apply wp_ret. split; [by destruct s|]. unfold env_id2env in Ei. repeat case_match; simplify_eq; elia. }
    apply env_id2env_inl in Ei as (-> & e & He' & Hs & Hid). apply wp_bind, wp_of_option. exists e. split; [done|].
    assert (acl_wf (vm_heap s) (take 1 (env_clist e))) as Hwf.
    { apply Forall_forall. intros a Ha _ Hp. rewrite (Hcaps _ e a He') in Hp; [done|].
      exact (subseteq_take 1 _ a Ha). }
    apply wp_bind, wp_of_option. eexists. split; [by apply acl_access_ok|].
    pose proof (acl_access_ref_range (vm_heap s) c (take 1 (env_clist e)) perm).
    destruct (Z.ltb_spec (acl_access_ref (vm_heap s) c (take 1 (env_clist e)) perm) 0); apply wp_ret; (split; [by destruct s|]).
    + done.
    + exists e. split_and!; try done. exists c. split; [done|]. rewrite acl_access_ok by done. f_equal. lia.
Qed.

(** The range does not wrap round the end of the address space. *)
Definition no_wrap (va num : Z) : Prop := 0 <= va /\ 0 <= num /\ va + num * NBPG <= 2 ^ 32.

Lemma range_ok va num n :
  no_wrap va num -> range_bad va num = false -> (Z.of_nat n <= num) -> n <> 0%nat ->
  va + Z.of_nat n * NBPG < UTOP + NBPG.
Proof.
  intros (Hva & Hnum & Hw) Hb%Z.leb_gt Hn Hn0. unfold NBPG in *. rewrite u32_small in Hb by lia. lia.
Qed.

Lemma pmap_insert_range_spec mems self k ptes total va wr nc ke envid userreq cur ce b s :
  vm_sys s -> caps_ok (vm_et s) -> curenv (vm_et s) = Some cur -> envs (vm_et s) !! cur = Some ce ->
  no_wrap va total -> wr = true -> 0 <= nc -> maxref b s -> 0 <= b -> b + total < 2 ^ 16 ->
  mems_ok mems 0 (Z.to_nat total) s -> (forall j, 0 <= ptes j < 2 ^ 32) ->
  wp (pmap_insert_range mems self k ptes total va wr nc ke envid userreq) s
    (fun r s' => vm_sys s' /\ steady s s' /\ fst r <= 0).
Proof.
  intros Hsys Hcaps Hc He Hw Hwr Hnc Hb Hb0 Hbt [Hm1 Hm2] Hpt. unfold pmap_insert_range. apply wp_bind.
  eapply wp_mono; [eapply target_run; [done|apply Hsys|done..]|]. intros [ei|r] s' [-> Ht].
  2: { apply wp_ret. cbn. split_and!; [done..|lia]. }
  destruct Ht as (e & Hei & Hs & _). destruct (range_bad va total) eqn:Er.
  { apply wp_ret. cbn. split_and!; [done..|elia]. }
  apply wp_bind. eapply wp_mono; [by eapply cur_cap_run|]. intros [c|r] s' [-> Ec].
  - symmetry in Ec. destruct (env_getcap_inl _ _ _ Ec) as [Hin _].
    destruct (decide (total <= nc)) as [Hle|Hgt].
    { replace (Z.to_nat (total - nc)) with 0%nat by lia. apply wp_ret. done. }
    eapply (insert_loop_spec c ei e userreq mems ptes wr _ 0 va nc b); try done; try lia.
    + split; intros j; [intros ?; apply Hm1; lia|intros j' ? ?; apply Hm2; lia].
    + exact (Hcaps cur ce c He Hin).
    + apply Hw.
    + eapply range_ok; [exact Hw|done|lia|lia].
  - apply wp_ret. cbn. symmetry in Ec. split_and!; [done..|].
    unfold env_getcap in Ec. repeat case_match; simplify_eq; elia.
Qed.

Lemma remove_loop_spec ei e vas : forall s,
  vm_sys s -> envs (vm_et s) !! ei = Some e -> env_status e <> ENV_FREE -> Forall (fun va => 0 <= va) vas ->
  wp (remove_loop ei vas) s (fun r s' => vm_sys s' /\ steady s s' /\ r <= 0).
Proof.
  induction vas as [|va vas IH]; intros s [Hi Ha] He Hs Hvas; cbn [remove_loop]; [by apply wp_ret|].
  apply Forall_cons in Hvas as [Hva Hvas]. destruct (env_dir s ei e Hi He Hs) as [x Hx].
  apply wp_bind. eapply wp_vm_env; [exact He|]. apply wp_bind, wp_get_pd. exists x. split; [done|].
  destruct (Z.leb_spec UTOP va); [apply wp_ret; split_and!; [done..|elia]|]. assert (0 <= va < UTOP) as Hlow by lia.
  destruct (tst (va_pde x va) PG_P) eqn:HP; cbn [negb]; [|apply wp_ret; split_and!; [done..|elia]].
  apply wp_bind, wp_gets, wp_bind. change (default 0 (vm_pts s !! _)) with (pte_at s (pt_get_ptep x va)).
  destruct (tst (pte_at s (pt_get_ptep x va)) PG_P).
  - eapply wp_mono; [by eapply (ppage_remove_spec ktabs _ _ ei e x va s Hi)|].
    intros _ s1 (_ & Hi1 & Hrm & _). destruct Hrm.
    eapply wp_mono; [apply (IH s1); try done; [split; [done|by eapply acls_keep]|by rewrite rm_et]|].
    intros r s2 (? & ? & ?). split_and!; try done. by eapply steady_trans.
  - apply wp_ret. apply IH; done.
Qed.

(** ** Changing flags *)

Lemma upd_page_same p pp s : ppages (vm_pool s) !! p = Some pp -> upd_page p pp s = s.
Proof. intros Hp. unfold upd_page. rewrite put_page_id by done. by destruct s. Qed.

Lemma flush_sys fl s : vm_sys s -> vm_sys (set_flush fl s).
Proof. intros [Hi Ha]. split; [by apply vm_inv_flush|done]. Qed.

(** Flags are changed on a present entry; [adj] is the change in writers. *)
Lemma mod_present c x d n k va add remove s :
  vm_sys s -> vm_pds s !! d = Some x -> has_table s d n (fst k) -> 0 <= snd k < NLPG ->
  tst (pte_at s k) PG_P = true -> 0 <= add < NBPG -> 0 <= remove < NBPG -> tst remove PG_P = false ->
  let pte := pte_at s k in let p := Z.shiftr pte PGSHIFT in
  wp (r <- acl_check p c (if tst add PG_W then ACL_W else 0) ;;
      if r <? 0 then mreturn (inl r)
      else
        let new := Z.lor (clr pte remove) add in
        pte_write k new ;;
        let adj := if tst pte PG_W && negb (tst new PG_W) then -1
                   else if negb (tst pte PG_W) && tst new PG_W then 1 else 0 in
        tlb_invalidate va (envpd_id x) ;;
        pp <- in_pool (get_pp p) ;;
        if negb (ppcompat_state (pp_readers pp) (u32 (pp_writers pp + adj)) (ps_readers pp) (ps_writers pp))
        then pte_write k pte ;; mreturn (inl (- E_SHARE))
        else add_rw p 0 adj ;; mreturn (inr add)) s
    (fun r s' => vm_sys s' /\ steady s s' /\
      match r with
      | inl r => r < 0 /\ exists fl, s' = set_flush fl s
      | inr a => a = add /\ exists pp, ppages (vm_pool s) !! p = Some pp /\
          acl_access (vm_heap s) c (pp_acl pp) (if tst add PG_W then ACL_W else 0) = Some 0 /\
          pte_at s' k = Z.lor (clr pte remove) add
      end).
Proof.
  intros Hsys Hx Ht Hk HP Hadd Hrem HrP pte p. pose proof Hsys as [Hi Ha].
  assert (upte ktabs (k, pte) = true) as Hup by (by rewrite (upte_in ktabs d n (fst k) s _ _ k _ Hi Ht)).
  destruct (vi_live _ _ _ _ Hi k pte (pte_present _ _ HP) Hup) as (_ & _ & Hpr & [pp Hp]).
  destruct (mod_bits pte add remove Hpr Hadd Hrem) as (Hw & Esh & Hbits). set (new := Z.lor (clr pte remove) add) in *.
  assert (tst new PG_P = true) as HwP.
  { rewrite tst_P, Hbits by lia. rewrite tst_P in HrP, HP. unfold pte. by rewrite HP, HrP. }
  destruct (rewrite_inv ktabs d n x k new p pp s Hi Hx Ht Hk HP HwP Hw eq_refl Esh Hp) as (Hr1 & Hw1 & Hks & Hok).
  apply wp_bind. eapply wp_mono; [by eapply acl_check_run|]. intros r s1 (-> & Er & Eacc).
  pose proof (acl_access_ref_range (vm_heap s) c (pp_acl pp) (if tst add PG_W then ACL_W else 0)).
  destruct (Z.ltb_spec r 0).
  { apply wp_ret. split; [done|]. split; [done|]. split; [done|]. exists (vm_flush s). by destruct s. }
  assert (r = 0) as -> by lia. cbv zeta. fold new.
  assert ((if tst pte PG_W && negb (tst new PG_W) then -1 else if negb (tst pte PG_W) && tst new PG_W then 1 else 0) =
          b2z (tst new PG_W) - b2z (tst pte PG_W)) as -> by (by destruct (tst pte PG_W), (tst new PG_W)).
  apply wp_bind, wp_modify, wp_bind.
  eapply wp_mono; [apply tlb_invalidate_run; intros i Hc; exact (vm_inv_cur ktabs _ _ s Hi i Hc)|].
  intros _ s1 (fl & -> & _). apply wp_bind. eapply wp_get_page; [exact Hp|].
  destruct (negb (ppcompat_state _ _ _ _)) eqn:Ec.
  - apply wp_bind, wp_modify, wp_ret.
    replace (set_pts _ _) with (set_flush fl s).
    2: { unfold set_flush, set_pts. cbn. rewrite insert_insert_eq, insert_id by (by apply pte_present). by destruct s. }
    split; [by apply flush_sys|]. split; [done|]. split; [elia|]. eauto.
  - apply wp_bind. eapply wp_upd_page; [exact Hp|]. apply wp_ret. rewrite Z.add_0_r, (u16_small (pp_readers pp)) by lia.
    rewrite u16_small by (unfold pte; lia).
    match goal with |- vm_sys ?S /\ _ => change S with (set_flush fl
      (upd_page p (pp_set_rw (pp_readers pp) (pp_writers pp + (b2z (tst new PG_W) - b2z (tst pte PG_W))) pp)
         (set_pts (<[k:=new]> (vm_pts s)) s))) end.
    split; [apply flush_sys; split; [exact Hok|]|].
    + eapply acls_keep; [exact Ha|done|]. intros q pq Hq. left. cbn in Hq. destruct (decide (p = q)) as [<-|Hne].
      * rewrite lookup_insert_eq in Hq. injection Hq as <-. eauto.
      * rewrite lookup_insert_ne in Hq by done. eauto.
    + split; [done|]. split; [done|]. exists pp. split; [done|]. split; [done|].
      unfold pte_at. cbn. by rewrite lookup_insert_eq.
Qed.

Lemma ready_sys d va x x' s s' : vm_sys s -> vm_ok ktabs s' -> ready d va x x' s s' -> vm_sys s' /\ steady s s'.
Proof.
  intros [Hi Ha] Hi' []. split; [|by split]. split; [done|]. eapply acls_keep; [exact Ha|done|].
  intros q pq Hq. destruct (rd_from q pq Hq) as [?|[_ ?]]; [left; eauto|by right].
Qed.

Lemma mod_one_spec c ei e x add remove va s :
  vm_sys s -> envs (vm_et s) !! ei = Some e -> vm_pds s !! env_pd e = Some x -> 0 <= va < UTOP ->
  0 <= add < NBPG -> 0 <= remove < NBPG -> tst remove PG_P = false ->
  wp (mod_one c ei add remove va) s (fun r s' => vm_sys s' /\ steady s s' /\
    match r with inl r => r < 0 | inr a => 0 <= a < NBPG end).
Proof.
  intros Hsys He Hx Hva Hadd Hrem HrP. pose proof Hsys as [Hi Ha]. unfold mod_one. apply wp_bind.
  eapply wp_vm_env; [exact He|]. apply wp_bind.
  eapply wp_mono; [by eapply (pde_check_ready ktabs _ _ (env_pd e) x va s Hi Hx)|].
  intros r s1 [Hi1 [(-> & x1 & Hrd)|[-> ->]]]; [|apply wp_ret; split; [done|]; split; [done|elia]].
  cbn [Z.ltb Z.compare]. destruct (ready_sys _ _ _ _ _ _ Hsys Hi1 Hrd) as [Hs1 Hst].
  assert (vm_pds s1 !! env_pd e = Some x1) as Hx1 by (rewrite (rd_pds _ _ _ _ _ _ Hrd); apply lookup_insert_eq).
  apply wp_bind, wp_get_pd. exists x1. split; [done|]. apply wp_bind, wp_gets.
  change (default 0 (vm_pts s1 !! _)) with (pte_at s1 (pt_get_ptep x1 va)). set (k := pt_get_ptep x1 va).
  assert (has_table s1 (env_pd e) (PDENO va) (fst k)) as Ht by (apply va_table; [done|done|apply Hrd]).
  assert (0 <= snd k < NLPG) as Hk by apply pteno_range.
  destruct (tst (pte_at s1 k) PG_P) eqn:HP; cbn [negb].
  - destruct (mmu_has_hardware_flags add) eqn:Ea; [|destruct (mmu_has_hardware_flags remove) eqn:Er].
    1,2: cbn [negb andb]; eapply wp_mono; [by eapply (mod_present c x1 (env_pd e) (PDENO va) k va add remove s1)|];
      intros r s2 (Hs2 & Hst2 & Hr); (split; [done|]); (split; [by eapply steady_trans|]);
      destruct r as [r|a]; [apply Hr|by destruct Hr as [-> _]].
    cbn [negb andb].
    assert (upte ktabs (k, pte_at s1 k) = true) as Hup by (by rewrite (upte_in ktabs (env_pd e) (PDENO va) (fst k) s1 _ _ k _ Hi1 Ht)).
    destruct (vi_live _ _ _ _ Hi1 k _ (pte_present _ _ HP) Hup) as (_ & _ & Hpr & [pp Hp]).
    destruct (mod_bits (pte_at s1 k) add remove Hpr Hadd Hrem) as (Hw & Esh & Hbits).
    set (w := Z.lor (clr (pte_at s1 k) remove) add) in *.
    assert (tst w PG_P = true) as HwP.
    { rewrite tst_P, Hbits, (no_hardware_flags remove 0) by (try lia; auto). rewrite tst_P in HP. by rewrite HP. }
    assert (tst w PG_W = tst (pte_at s1 k) PG_W) as HwW.
    { rewrite !tst_W, Hbits, (no_hardware_flags remove 1), (no_hardware_flags add 1) by (try lia; auto).
      by rewrite andb_true_r, orb_false_r. }
    destruct (rewrite_inv ktabs (env_pd e) (PDENO va) x1 k w _ pp s1 Hi1 Hx1 Ht Hk HP HwP Hw eq_refl Esh Hp)
      as (_ & _ & _ & Hok).
    rewrite HwW, Z.sub_diag, Z.add_0_r in Hok.
    rewrite upd_page_same in Hok by (cbn; rewrite Hp; by destruct pp).
    apply wp_bind, wp_modify, wp_bind. eapply wp_mono; [by apply tlb_invalidate_run, (vm_inv_cur ktabs _ _ _ Hok)|].
    intros _ s2 (fl & -> & _). apply wp_ret.
    split; [apply flush_sys; split; [exact Hok|apply Hs1]|]. split; [by destruct Hst; split|done].
  - apply wp_bind, wp_modify, wp_bind.
    assert (vm_ok ktabs (set_pts (<[k := Z.lor (clr (pte_at s1 k) remove) (clr add PG_P)]> (vm_pts s1)) s1)) as Hok.
    { eapply (soft_write_inv _ _ _ (env_pd e) (PDENO va) x1); try done.
      rewrite tst_P, Z.lor_spec, !clr_bit by lia. rewrite tst_P in HP. rewrite HP. cbn. by rewrite andb_false_r. }
    eapply wp_mono; [by apply tlb_invalidate_run, (vm_inv_cur ktabs _ _ _ Hok)|]. intros _ s2 (fl & -> & _).
    apply wp_ret. split; [apply flush_sys; split; [exact Hok|apply Hs1]|]. split; [by destruct Hst; split|].
    by apply clr_small.
Qed.

Lemma mod_loop_spec c ei e remove n : forall add va s,
  vm_sys s -> envs (vm_et s) !! ei = Some e -> env_status e <> ENV_FREE -> 0 <= va ->
  va + Z.of_nat n * NBPG < UTOP + NBPG -> 0 <= add < NBPG -> 0 <= remove < NBPG -> tst remove PG_P = false ->
  wp (mod_loop c ei add remove n va) s (fun r s' => vm_sys s' /\ steady s s' /\ r <= 0).
Proof.
  induction n as [|n IH]; intros add va s Hsys He Hs Hva Htop Hadd Hrem HrP; cbn [mod_loop]; [by apply wp_ret|].
  destruct (env_dir s ei e (proj1 Hsys) He Hs) as [x Hx]. assert (UTOP < 2 ^ 32 - 8192) as HU by done.
  unfold NBPG in Htop. apply wp_bind.
  eapply wp_mono; [eapply (mod_one_spec c ei e x add remove va s); try done; lia|].
  intros [r|a] s1 (Hs1 & Hst & Hr); [apply wp_ret; split_and!; [done..|lia]|].
  rewrite (u32_small (va + NBPG)) by (unfold NBPG; lia).
  eapply wp_mono; [apply (IH a (va + NBPG) s1); try done; [by rewrite (st_et _ _ Hst)|unfold NBPG; lia..]|].
  intros r s2 (? & ? & ?). split_and!; try done. by eapply steady_trans.
Qed.

(** ** System calls keep the invariant *)

(** The page fault mode is not looked at. *)
Lemma pfm_sys m s : vm_sys s -> vm_sys (set_et (set_pfm m (vm_et s)) s).
Proof. intros [[] Ha]. split; [|done]. split; try done; [intros d x Hx; by destruct (vi_dirs d x Hx)|by apply spaces_et]. Qed.

(** What a call leaves alone. *)
Definition same_envs (s s' : vm) : Prop := envs (vm_et s') = envs (vm_et s) /\ curenv (vm_et s') = curenv (vm_et s).

Lemma steady_envs s s' : steady s s' -> same_envs s s'.
Proof. intros [E _ _]. unfold same_envs. by rewrite E. Qed.

(** A call that changes nothing. *)
Ltac stay := apply wp_ret; split; [assumption|split; reflexivity].

Section call.
Context (cur : Z) (ce : Env) (s : vm).
Hypothesis (Hsys : vm_sys s) (Hcaps : caps_ok (vm_et s)).
Hypothesis (Hcur : curenv (vm_et s) = Some cur) (Hce : envs (vm_et s) !! cur = Some ce).

Lemma sys_insert_pte_range_spec mems self k ptes num va ncp nc ke envid b :
  no_wrap va num -> ncp < UTOP -> 0 <= nc -> maxref b s -> 0 <= b -> b + num < 2 ^ 16 ->
  mems_ok mems 0 (Z.to_nat num) s -> (forall j, 0 <= ptes j < 2 ^ 32) ->
  wp (sys_insert_pte_range mems self k ptes num va ncp nc ke envid) s (fun _ s' => vm_sys s' /\ same_envs s s').
Proof.
  intros Hw Hcp Hnc Hb Hb0 Hbn Hm Hpt. unfold sys_insert_pte_range. apply wp_bind, wp_zoom, wp_gets, wp_bind, wp_zoom, wp_modify.
  replace (set_et (set_pfm PFM_PROP (vm_et (set_et (vm_et s) s))) (set_et (vm_et s) s))
    with (set_et (set_pfm PFM_PROP (vm_et s)) s) by done.
  apply wp_bind. eapply wp_mono.
  { eapply (pmap_insert_range_spec mems self k ptes num va _ nc ke envid 1 cur ce b); try done; [by apply pfm_sys|by apply Z.ltb_lt]. }
  intros r s1 (Hs1 & Hst & _). apply wp_bind, wp_zoom, wp_modify, wp_ret. split; [by apply pfm_sys|].
  destruct (steady_envs _ _ Hst). by split.
Qed.

Lemma sys_remove_vas_spec self vas ke envid :
  Forall (fun va => 0 <= va) vas -> wp (sys_remove_vas self vas ke envid) s (fun _ s' => vm_sys s' /\ same_envs s s').
Proof.
  intros Hv. unfold sys_remove_vas. apply wp_bind.
  eapply wp_mono; [eapply target_run; [done|apply Hsys|done..]|]. intros [ei|r] s' [-> Ht]; [|stay].
  destruct Ht as (e & He & Hs & _). apply wp_bind, wp_zoom, wp_gets, wp_bind, wp_zoom, wp_modify, wp_bind.
  replace (set_et (vm_et s) s) with s by (by destruct s).
  eapply wp_mono.
  { eapply (remove_loop_spec ei e); [by apply pfm_sys|exact He|done|]. apply Forall_forall. intros va Hin.
    apply list_elem_of_In, in_rev, list_elem_of_In in Hin. by eapply Forall_forall in Hv. }
  intros r s1 (Hs1 & Hst & _). apply wp_bind, wp_zoom, wp_modify, wp_ret. split; [by apply pfm_sys|].
  destruct (steady_envs _ _ Hst). by split.
Qed.

Lemma flags_small x : 0 <= Z.land x PGMASK < NBPG.
Proof. change PGMASK with (Z.ones 12). rewrite Z.land_ones by done. apply (Z.mod_pos_bound _ NBPG). done. Qed.

Lemma sys_mod_pte_range_spec self k add remove va num ke envid :
  no_wrap va num -> tst remove PG_P = false ->
  wp (sys_mod_pte_range self k add remove va num ke envid) s (fun _ s' => vm_sys s' /\ same_envs s s').
Proof.
  intros Hw HrP. unfold sys_mod_pte_range. apply wp_bind.
  eapply wp_mono; [eapply target_run; [done|apply Hsys|done..]|]. intros [ei|r] s' [-> Ht]; [|stay].
  destruct Ht as (e & He & Hs & _). destruct (tst add PG_MBZ); [stay|].
  destruct (tst remove PG_U); [stay|]. destruct (range_bad va num) eqn:Er; [stay|].
  apply wp_bind. eapply wp_mono; [by eapply cur_cap_run|]. intros [c|r] s' [-> Ec]; [|stay].
  destruct (decide (num = 0)) as [->|Hn0]; [stay|]. pose proof (proj1 (proj2 Hw)).
  eapply wp_mono; [eapply (mod_loop_spec c ei e); try done|].
  - apply Hw.
  - eapply range_ok; [exact Hw|done|lia|lia].
  - apply flags_small.
  - apply flags_small.
  - rewrite tst_P, Z.land_spec. rewrite tst_P in HrP. by rewrite HrP.
  - intros r s1 (? & Hst & _). split; [done|]. by apply steady_envs.
Qed.

Lemma sys_pstate_mod_spec k ppn r_state w_state :
  wp (sys_pstate_mod k ppn r_state w_state) s (fun _ s' => vm_sys s' /\ same_envs s s').
Proof.
  unfold sys_pstate_mod. apply wp_bind. eapply wp_mono; [by eapply cur_cap_run|].
  intros [c|r] s' [-> Ec]; [|stay]. pose proof Hsys as [Hi Ha]. apply wp_bind, wp_gets.
  destruct ((ppn <? 1) || (nppage (vm_pool s) <=? ppn)) eqn:Er; [stay|].
  apply orb_false_iff in Er as [Er1%Z.ltb_ge Er2%Z.leb_gt].
  destruct (proj2 (vm_dom s ppn Hi)) as [pp Hp]; [lia|]. apply wp_bind.
  eapply wp_mono; [by eapply acl_check_run|]. intros r s1 (-> & Er & Eacc).
  pose proof (acl_access_ref_range (vm_heap s) c (pp_acl pp) 0).
  destruct (Z.ltb_spec r 0); [stay|]. apply wp_bind. eapply wp_get_page; [exact Hp|].
  cbv zeta. destruct (negb _); [stay|]. apply wp_bind. eapply wp_upd_page; [exact Hp|]. apply wp_ret.
  split; [split|by split].
  - eapply attr_inv; try done. intros Hk.
    destruct (po_closed _ _ _ (vi_pages _ _ _ _ Hi ppn pp Hp) Hk) as [_ Hcl].
    destruct (acl_access_closed (vm_heap s) c (pp_acl pp) 0 Hcl) as (r' & Hr' & ?).
    rewrite Eacc in Hr'. injection Hr' as <-. lia.
  - eapply acls_keep; [exact Ha|done|]. intros q pq Hq. left. cbn in Hq. destruct (decide (ppn = q)) as [<-|Hne].
    + rewrite lookup_insert_eq in Hq. injection Hq as <-. eauto.
    + rewrite lookup_insert_ne in Hq by done. eauto.
Qed.

Lemma zseq_NoDup i n : NoDup (zseq i n).
Proof. unfold zseq. apply NoDup_fmap_2; [intros ? ? ?; lia|apply NoDup_seq]. Qed.

Lemma sys_pt_free_spec self va ke envid :
  0 <= va -> wp (sys_pt_free self va ke envid) s (fun _ s' => vm_sys s' /\ same_envs s s').
Proof.
  intros Hva. unfold sys_pt_free. apply wp_bind.
  eapply wp_mono; [eapply target_run; [done|apply Hsys|done..]|]. intros [ei|r] s' [-> Ht]; [|stay].
  destruct Ht as (e & He & Hs & _). pose proof Hsys as [Hi Ha]. destruct (env_dir s ei e Hi He Hs) as [x Hx].
  apply wp_bind. eapply wp_vm_env; [exact He|]. apply wp_bind, wp_get_pd. exists x. split; [done|].
  destruct ((UTOP <=? va) || (0 <? nptes_at x (PDENO va))) eqn:Eb; [stay|].
  apply orb_false_iff in Eb as [Eu%Z.leb_gt En%Z.ltb_ge].
  destruct (tst (va_pde x va) PG_P) eqn:HP; cbn [negb]; [|stay].
  pose proof (va_table s _ x va Hx (uva_low va ltac:(lia)) HP) as Ht. set (t := fst (pt_get_ptep x va)) in *.
  destruct (vi_tab _ _ _ _ Hi _ _ _ Ht) as (_ & pt & Hpt & Hst & Href).
  assert (0 <= t < nppage (vm_pool s)) as Htr by (apply (vm_dom s t Hi); eauto).
  destruct (vi_dirs _ _ _ _ Hi _ x Hx) as [R A C D N].
  set (s1 := set_pds (<[env_pd e := pde_set (envpd_active x) (PDENO va) 0 x]> (vm_pds s))
               (set_pool (freed t pt (vm_pool s)) s)).
  apply wp_bind. eapply (wp_mfor _ _ _ (fun l s' => NoDup l /\
    ((envpd_active x ∈ l) /\ s' = s \/ (envpd_active x ∉ l) /\ s' = s1))).
  - split; [apply zseq_NoDup|]. left. split; [|done]. apply zseq_elem. unfold NR_CPUS in *. lia.
  - intros r l s' [Hnd Hor]. apply NoDup_cons in Hnd as [Hr Hnd]. apply wp_bind, wp_get_pd.
    destruct Hor as [[Hin ->]|[Hnin ->]].
    + exists x. split; [done|]. destruct (decide (r = envpd_active x)) as [->|Hne].
      * rewrite (proj2 (Z.eqb_neq (cr3_at x (envpd_active x)) 0)) by (by apply C). cbn [negb].
        apply wp_bind, wp_gets, wp_bind, wp_assert. split; [by apply Z.ltb_lt; apply Htr|].
        apply wp_bind, wp_zoom. eapply ppage_free_run; [exact Hpt|exact Href|]. cbn [Z.eqb].
        eapply wp_upd_pd; [exact Hx|]. split; [done|]. by right.
      * destruct (Z.eqb_spec (cr3_at x r) 0) as [|Hc]; [|by apply C in Hc]. apply wp_ret. split; [done|]. left.
        split; [|done]. by apply elem_of_cons in Hin as [?|?].
    + eexists. split; [apply lookup_insert_eq|]. change (cr3_at (pde_set _ _ _ x) r) with (cr3_at x r).
      destruct (Z.eqb_spec (cr3_at x r) 0) as [|Hc].
      * apply wp_ret. split; [done|]. right. split; [|done]. intros ?. apply Hnin. by right.
      * apply C in Hc as ->. destruct Hnin. left.
  - intros s' [_ [[Hin _]|[_ ->]]]; [by apply not_elem_of_nil in Hin|]. apply wp_ret. split; [split|by split].
    + eapply untable_inv; try done. left. pose proof (pdeno_low va ltac:(lia)).
      assert (NUPDE <= PDENO UADDRS) by (by vm_compute). lia.
    + eapply acls_keep; [exact Ha|done|]. intros q pq Hq. left. cbn in Hq.
      rewrite (proj1 (freed_ppages _ _ _)) in Hq. destruct (decide (t = q)) as [<-|Hne].
      * rewrite lookup_insert_eq in Hq. injection Hq as <-. eauto.
      * rewrite lookup_insert_ne in Hq by done. eauto.
Qed.
End call.

(** ** Runs of calls *)

(** One memory system call by the current environment, with what the kernel
    allocator promises about the records it returns.  Ranges do not wrap, no
    page is close to 2^16 references, [num_completed] points to user memory, and
    [sys_mod_pte_range] is not asked to clear [PG_P]: see the examples below for
    what happens otherwise. *)
Inductive vm_step (s s' : vm) : Prop :=
  | step_insert mems self k ptes num va ncp nc ke envid b r :
      no_wrap va num -> ncp < UTOP -> 0 <= nc -> maxref b s -> 0 <= b -> b + num < 2 ^ 16 ->
      mems_ok mems 0 (Z.to_nat num) s -> (forall j, 0 <= ptes j < 2 ^ 32) ->
      sys_insert_pte_range mems self k ptes num va ncp nc ke envid s = Ret r s' -> vm_step s s'
  | step_remove self vas ke envid r :
      Forall (fun va => 0 <= va) vas -> sys_remove_vas self vas ke envid s = Ret r s' -> vm_step s s'
  | step_mod self k add remove va num ke envid r :
      no_wrap va num -> tst remove PG_P = false ->
      sys_mod_pte_range self k add remove va num ke envid s = Ret r s' -> vm_step s s'
  | step_pstate k ppn rs ws r : sys_pstate_mod k ppn rs ws s = Ret r s' -> vm_step s s'
  | step_pt_free self va ke envid r : 0 <= va -> sys_pt_free self va ke envid s = Ret r s' -> vm_step s s'
  | step_switch i e : envs (vm_et s) !! i = Some e -> env_status e <> ENV_FREE ->
      s' = set_et (set_curenv (Some i) (vm_et s)) s -> vm_step s s'.

(** The processor runs another environment. *)
Lemma switch_inv i e s :
  vm_ok ktabs s -> envs (vm_et s) !! i = Some e -> env_status e <> ENV_FREE -> vm_ok ktabs (set_et (set_curenv (Some i) (vm_et s)) s).
Proof.
  intros [] He Hs. split; try done.
  - intros d x Hx. by destruct (vi_dirs d x Hx).
  - intros j [= <-]. eauto.
  - by apply spaces_et.
Qed.

(** A machine the calls run on: some environment is running. *)
Definition running (s : vm) : Prop := vm_sys s /\ caps_ok (vm_et s) /\ is_Some (curenv (vm_et s)).

Lemma vm_step_sys s s' : running s -> vm_step s s' -> vm_sys s' /\ envs (vm_et s') = envs (vm_et s) /\ is_Some (curenv (vm_et s')).
Proof.
  intros (Hsys & Hcaps & [cur Hcur]) Hst. destruct (vi_cur _ _ _ _ (proj1 Hsys) cur Hcur) as (ce & Hce & _).
  assert (vm_sys s' /\ same_envs s s' -> vm_sys s' /\ envs (vm_et s') = envs (vm_et s) /\ is_Some (curenv (vm_et s'))) as Hrun
    by (intros (Hs & Ee & Ec); rewrite Ec; eauto).
  destruct Hst as [? ? ? ? ? ? ? ? ? ? ? ? H0 H1 H2 H3 H4 H5 H6 H7 E|? ? ? ? ? H1 E|? ? ? ? ? ? ? ? ? H1 H2 E|? ? ? ? ? E|
                   ? ? ? ? ? H1 E|i e He Hs ->].
  - apply Hrun. refine (wp_run _ _ _ s' (fun _ s' => vm_sys s' /\ same_envs s s') _ E). by eapply sys_insert_pte_range_spec.
  - apply Hrun. refine (wp_run _ _ _ s' (fun _ s' => vm_sys s' /\ same_envs s s') _ E). by eapply sys_remove_vas_spec.
  - apply Hrun. refine (wp_run _ _ _ s' (fun _ s' => vm_sys s' /\ same_envs s s') _ E). by eapply sys_mod_pte_range_spec.
  - apply Hrun. refine (wp_run _ _ _ s' (fun _ s' => vm_sys s' /\ same_envs s s') _ E). by eapply sys_pstate_mod_spec.
  - apply Hrun. refine (wp_run _ _ _ s' (fun _ s' => vm_sys s' /\ same_envs s s') _ E). by eapply sys_pt_free_spec.
  - destruct Hsys as [Hi Ha]. split; [split; [by eapply switch_inv|done]|]. split; [done|by eexists].
Qed.

Lemma vm_step_running s s' : running s -> vm_step s s' -> running s'.
Proof.
  intros Hr Hst. destruct (vm_step_sys s s' Hr Hst) as (Hs & Ee & Hc). split; [done|]. split; [|done]. intros i e c. rewrite Ee. apply Hr.
Qed.
End safety.

(** ** Properties *)

Lemma running_steps ktabs s s' : running ktabs s -> rtc vm_step s s' -> running ktabs s'.
Proof. intros Hr Hst. induction Hst; [done|]. eauto using vm_step_running. Qed.

(** What a present entry of a user table maps. *)
Lemma present_isolated ktabs s d n t i :
  vm_ok ktabs s -> has_table s d n t -> tst (pte_at s (t, i)) PG_P = true ->
  let p := Z.shiftr (pte_at s (t, i)) PGSHIFT in
  exists pp, ppages (vm_pool s) !! p = Some pp /\ pp_status pp <> PP_FREE /\
    pp_status pp <> PP_KERNEL /\ pp_status pp <> PP_KERNRO /\ (forall d' n', ~ has_table s d' n' p) /\
    (p ∉ free_list (vm_pool s)) /\ (p ∉ free_bufs (vm_pool s)) /\
    (tst (pte_at s (t, i)) PG_W = true -> 0 < pp_writers pp).
Proof.
  intros Hi Ht HP p.
  assert (upte ktabs ((t, i), pte_at s (t, i)) = true) as Hup by (by rewrite (upte_in ktabs d n t s _ _ _ _ Hi Ht)).
  destruct (vi_live _ _ _ _ Hi _ _ (pte_present _ _ HP) Hup) as (_ & _ & _ & [pp Hp]). fold p in Hp.
  assert (maps ktabs p ((t, i), pte_at s (t, i)) = true) as Hm by (unfold maps; rewrite Hup; apply Z.eqb_refl).
  pose proof (kcount_pos (maps ktabs p) _ _ _ (pte_present _ _ HP) Hm) as Hn.
  change (kcount (maps ktabs p) (vm_pts s)) with (nmaps ktabs p s) in Hn.
  destruct (mapped_page ktabs _ _ s p Hi ltac:(lia) pp Hp) as (l & m & c & Hu & _ & Hs & Hk).
  pose proof (proj1 (vi_pool _ _ _ _ Hi)) as Hpg. exists pp. split_and!; try done.
  - intros E. apply Hk. by left.
  - intros E. apply Hk. by right; left.
  - intros d' n' H'. destruct (vi_tab _ _ _ _ Hi d' n' p H') as (_ & pp' & Hp' & Hs2 & _).
    apply Hk. left. congruence.
  - rewrite (pg_fl_in _ _ Hpg). intros (pp' & Hp' & _ & ? & _). congruence.
  - rewrite (pg_fb_in _ _ Hpg). intros (pp' & Hp' & _ & ? & _). congruence.
  - intros HW. rewrite (po_writers _ _ _ (vi_pages _ _ _ _ Hi p pp Hp)). rewrite Z.add_0_r.
    eapply (kcount_pos (wmaps ktabs p)); [by apply pte_present|]. unfold wmaps. by rewrite Hm.
Qed.

(** Memory isolation: after any run of memory system calls by any
    environments, a present entry of a user page table maps a page that exists,
    is in use and is not the kernel's: not a page table, not a page that holds
    kernel data, not on a free list; and a writable entry is one of the writers
    the page counts. *)
Theorem memory_isolation ktabs s s' d n t i :
  running ktabs s -> rtc vm_step s s' -> has_table s' d n t -> tst (pte_at s' (t, i)) PG_P = true ->
  let p := Z.shiftr (pte_at s' (t, i)) PGSHIFT in
  exists pp, ppages (vm_pool s') !! p = Some pp /\ pp_status pp <> PP_FREE /\
    pp_status pp <> PP_KERNEL /\ pp_status pp <> PP_KERNRO /\ (forall d' n', ~ has_table s' d' n' p) /\
    (p ∉ free_list (vm_pool s')) /\ (p ∉ free_bufs (vm_pool s')) /\
    (tst (pte_at s' (t, i)) PG_W = true -> 0 < pp_writers pp).
Proof. intros Hr Hst. destruct (running_steps _ _ _ Hr Hst) as ([Hi _] & _). by apply (present_isolated ktabs). Qed.

(** C13: mapping needs authority.  [sys_insert_pte], called while no page is
    close to 2^16 references, returns and keeps the invariant.  When it succeeds,
    the target is the caller or an environment the caller may write, and one of
    these holds: the entry asked for is not present, or was there already; or the
    new entry maps a page that the caller's capability opens with the permission
    asked for; or it maps a page that was free, or whose last translation was
    the one replaced, and that is guarded by the caller's capability from now on. *)
Theorem sys_insert_pte_authorized ktabs mems self k pte va ke envid cur ce b s :
  running ktabs s -> curenv (vm_et s) = Some cur -> envs (vm_et s) !! cur = Some ce ->
  0 <= va < 2 ^ 32 -> 0 <= pte < 2 ^ 32 -> maxref b s -> 0 <= b -> b + 1 < 2 ^ 16 -> mems_ok mems 0 1 s ->
  wp (sys_insert_pte mems self k pte va ke envid) s (fun r s' => running ktabs s' /\
    (r < 0 \/ r = 0 /\ va < UTOP /\ exists ei e c x, envs (vm_et s) !! ei = Some e /\ vm_pds s !! env_pd e = Some x /\
       (if self then ei = cur else env_id e = envid /\ exists c', env_getcap ce ke = inl c' /\
          acl_access (vm_heap s) c' (take 1 (env_clist e)) ACL_W = Some 0) /\
       env_getcap ce k = inl c /\
       (settled (env_pd e) x pte va s s' \/
        authorized c pte va (env_pd e) (pt_get_ptep x va) s s'))).
Proof.
  intros (Hsys & Hcaps & Hc0) Hcur Hce Hva Hpte Hb Hb0 Hb1 Hm. unfold sys_insert_pte, pmap_insert_range.
  assert (running ktabs s) as Hrun by done.
  apply wp_bind, wp_bind. eapply wp_mono; [eapply target_run; [done|apply Hsys|done..]|].
  intros [ei|r] s' [-> Ht]; [|apply wp_ret, wp_ret; auto].
  destruct Ht as (e & He & Hs & Htgt). destruct (range_bad va 1) eqn:Er.
  { apply wp_ret, wp_ret. split; [done|]. left. cbn. elia. }
  apply Z.leb_gt in Er. rewrite Z.mul_0_l, Z.add_0_r, u32_small in Er by lia.
  apply wp_bind. eapply wp_mono; [by eapply cur_cap_run|]. intros [c|r] s' [-> Ec]; symmetry in Ec.
  2: { apply wp_ret, wp_ret. split; [done|]. left. unfold env_getcap in Ec. repeat case_match; simplify_eq; cbn; elia. }
  destruct (env_getcap_inl _ _ _ Ec) as [Hin _]. destruct (env_dir ktabs s ei e (proj1 Hsys) He Hs) as [x Hx].
  change (Z.to_nat (1 - 0)) with 1%nat. cbn [insert_loop]. apply wp_bind.
  eapply wp_mono; [eapply (insert_one_spec ktabs (mems 0) c ei e x 1 va pte b); try done; try lia|].
  - apply Hm. lia.
  - exact (Hcaps cur ce c Hce Hin).
  - intros r s1 [[Ps Pst _ _] Hr].
    assert (running ktabs s1) as Hr1.
    { split; [done|]. rewrite (st_et _ _ Pst). done. }
    destruct r as [r|bb]; [apply wp_ret, wp_ret; auto|]. apply wp_bind. replace (if bb then _ else _) with (@mreturn vm _ tt) by (by destruct bb).
    apply wp_ret, wp_ret, wp_ret. split; [done|]. right.
    split; [done|]. split; [lia|]. exists ei, e, c, x. split_and!; try done. destruct bb; [right; apply Hr|by left].
Qed.




(** C23: unmapping in the address space the processor is using: [ppage_remove]
    returns, clears the entry and no other, keeps the invariant, flushes the
    translation, and frees the page exactly when this was its last reference. *)
Theorem ppage_remove_clears ktabs ei e x va s i c :
  vm_ok ktabs s -> envs (vm_et s) !! ei = Some e -> vm_pds s !! env_pd e = Some x ->
  0 <= va < UTOP -> tst (va_pde x va) PG_P = true ->
  curenv (vm_et s) = Some i -> envs (vm_et s) !! i = Some c -> env_pd c = env_pd e ->
  let k := pt_get_ptep x va in
  wp (ppage_remove ei va) s (fun r s' => r = 0 /\ vm_ok ktabs s' /\ pte_at s' k = 0 /\
    (forall k', k' <> k -> pte_at s' k' = pte_at s k') /\
    (tst (pte_at s k) PG_P = true -> clr va PGMASK ∈ vm_flush s') /\
    (forall q pp, ppages (vm_pool s) !! q = Some pp -> pp_status pp <> PP_FREE ->
       exists pp', ppages (vm_pool s') !! q = Some pp' /\
         (pp_status pp' = PP_FREE <->
          tst (pte_at s k) PG_P = true /\ q = Z.shiftr (pte_at s k) PGSHIFT /\ pp_refcnt pp = Some 1))).
Proof.
  intros Hi He Hx Hva HP Hc Hec Epd k. eapply wp_mono; [by eapply ppage_remove_spec|].
  intros r s' (-> & Hi' & [Rp _ _ _ _ _ _ Ro Rpg _ _ Rl] & Hfl). fold k in Rp, Ro, Rpg, Rl, Hfl.
  split; [done|]. split; [done|]. split; [unfold pte_at; by rewrite Rp, lookup_insert_eq|]. split.
  { intros k' Hk'. unfold pte_at. by rewrite Rp, lookup_insert_ne. }
  split; [intros HPk; by eapply Hfl|]. intros q pp Hq Hs.
  destruct (Rpg q pp Hq) as (pp' & Hq' & _ & _ & _ & _ & Hst). exists pp'. split; [done|]. split.
  - intros Hf. destruct Hst as [?|(_ & ? & ? & ? & _)]; [congruence|done].
  - intros (HPk & -> & Href). destruct (Rl pp HPk Hq Href) as (pp2 & Hp2 & ?). congruence.
Qed.

(** ** Witnesses *)

(** A machine on which nothing has been mapped yet. *)
Definition fresh_page (pp : Ppage) : bool :=
  (pp_readers pp =? 0) && (pp_writers pp =? 0) && forallb (fun c => negb (c_isptr c)) (pp_acl pp) &&
  (length (pp_acl pp) =? 2)%nat &&
  (negb ((pp_status pp =? PP_KERNEL) || (pp_status pp =? PP_KERNRO) || (pp_status pp =? PP_INVAL)) || forallb (fun c => negb (c_valid c)) (pp_acl pp)) &&
  match pp_u pp with PV l n _ => bool_decide (l = []) && (0 <=? n) && (n <? 2) | PLink => true end.

Definition fresh_dir (x : EnvPD) : Prop :=
  0 < envpd_rc x /\ 0 <= envpd_active x < NR_CPUS /\ (forall r, cr3_at x r <> 0 <-> r = envpd_active x) /\
  (forall n, pde_at x (envpd_active x) n = 0) /\ envpd_nptes x = ∅.

Lemma fresh_page_spec h pp :
  fresh_page pp = true -> page_ok 0 0 pp /\ pp_vpl pp = [] /\ (acl_wf h (pp_acl pp) /\ length (pp_acl pp) = 2%nat) /\
    match pp_u pp with PV _ n _ => n <= 1 | PLink => True end.
Proof.
  unfold fresh_page. rewrite !andb_true_iff, !Z.eqb_eq, Nat.eqb_eq, forallb_forall, orb_true_iff, negb_true_iff, !orb_false_iff, !Z.eqb_neq.
  intros (((((Hr & Hw) & Ha) & Hl) & Hk) & Hu). assert (pp_vpl pp = []) as Hv.
  { unfold pp_vpl. destruct (pp_u pp); [done|]. rewrite !andb_true_iff, bool_decide_eq_true in Hu. apply Hu. }
  assert (match pp_u pp with PV _ n _ => 0 <= n <= 1 | PLink => True end) as Hn.
  { destruct (pp_u pp); [done|]. rewrite !andb_true_iff, Z.leb_le, Z.ltb_lt in Hu. lia. }
  split; [|split_and!; [done| |done|]]; [split; try done|..].
  - destruct (pp_u pp); [done|]. lia.
  - intros [Hs|[Hs|Hs]]; (destruct Hk as [[[? ?] ?]|]; [congruence|done]).
  - rewrite Hv. constructor.
  - apply Forall_forall. intros a Hin%list_elem_of_In _ Hp. apply Ha in Hin. by rewrite Hp in Hin.
  - destruct (pp_u pp); [done|]. lia.
Qed.

Lemma fresh_pages s p pp :
  forallb (fun kv => fresh_page (snd kv)) (map_to_list (ppages (vm_pool s))) = true ->
  ppages (vm_pool s) !! p = Some pp -> fresh_page pp = true.
Proof.
  intros Hf Hp%elem_of_map_to_list. rewrite forallb_forall in Hf. apply (Hf (p, pp)). by apply list_elem_of_In.
Qed.

Lemma fresh_running s :
  pool_ok (vm_pool s) -> forallb (fun kv => fresh_page (snd kv)) (map_to_list (ppages (vm_pool s))) = true ->
  (forall d x, vm_pds s !! d = Some x -> fresh_dir x) -> vm_pts s = ∅ -> vm_vps s = ∅ ->
  (forall i e, envs (vm_et s) !! i = Some e -> is_Some (vm_pds s !! env_pd e)) ->
  (forall i, curenv (vm_et s) = Some i -> exists e, envs (vm_et s) !! i = Some e /\ env_status e <> ENV_FREE) ->
  caps_ok (vm_et s) -> is_Some (curenv (vm_et s)) -> spaces_ok ghost0 s ->
  pp_status <$> ppages (vm_pool s) !! 0 = Some PP_INVAL -> running ghost0 s /\ maxref 1 s.
Proof.
  intros Hok Hf Hd Hpts Hvps He Hcur Hcaps Hc Hsp Hz.
  assert (forall p pp, ppages (vm_pool s) !! p = Some pp -> fresh_page pp = true) as Hfp by (intros; by eapply fresh_pages).
  assert (forall d n t, ~ has_table s d n t) as Ht.
  { intros d n t (x & Hx & _ & HP & _). destruct (Hd d x Hx) as (_ & _ & _ & H0 & _). by rewrite H0 in HP. }
  split; [split; [split|]|]; [|..|intros p pp l n c Hp Hu; destruct (fresh_page_spec (vm_heap s) pp (Hfp p pp Hp)) as (_ & _ & _ & H1); by rewrite Hu in H1].
  - split; try done.
    + intros p pp Hp. unfold nmaps, nwmaps. rewrite Hpts. apply (fresh_page_spec (vm_heap s) pp (Hfp p pp Hp)).
    + intros d x Hx. destruct (Hd d x Hx) as (? & ? & ? & H0 & Hn). split; try done.
      * intros n _ w. unfold w. by rewrite H0.
      * intros n _ w. unfold w, nptes_at. by rewrite H0, Hn.
    + intros d n t H. by destruct (Ht d n t).
    + intros d n d' n' t H. by destruct (Ht d n t).
    + intros k w H. by rewrite Hpts in H.
    + split; intros p; intros; destruct (fresh_page_spec (vm_heap s) _ (Hfp p _ ltac:(eassumption))) as (_ & Hv & _);
        rewrite Hv in *; by match goal with H : _ ∈ [] |- _ => apply not_elem_of_nil in H end.
    + intros i e Hi _. by apply (He i).
    + apply fmap_Some in Hz as (pz & Hp & E). by exists pz.
  - intros p pp Hp. destruct (fresh_page_spec (vm_heap s) pp (Hfp p pp Hp)) as (_ & _ & H & _). exact H.
  - done.
Qed.

(** A machine with one environment, whose directory is page 299. *)
Definition ex_pool1 : pool := default ex_booted (ret_state (ppage_alloc PP_KERNEL 0 ex_booted)).
Definition ex_dir : EnvPD := mkPD 1 {[ 0 := 299 * NBPG ]} {[ 0 := ∅ ]} ∅ 1 0.
Definition ex_pd_env (id u pd : Z) (l : list cap) : Env :=
  mkEnv tf_zero 0 0 id ENV_OK 0 u 0 ∅ pd 0 0 0 0 MAX_CAPNO (ex_clist l).
Definition ex_e : Env := ex_pd_env 2049 50 0xf0200000 [ex_root; ex_disk].
Definition ex_et : envtab := mkET {[ 1 := ex_e ]} (Some 1) ∅ 0.
Definition ex_vm : vm := mkVm ex_pool1 ex_et {[ 0xf0200000 := ex_dir ]} ∅ ∅ ∅ [].

Lemma ex_pool1_ok : pool_ok ex_pool1.
Proof.
  unfold ex_pool1.
  by destruct (wp_ret_state _ _ ex_booted _ (ppage_alloc_spec PP_KERNEL 0 ex_booted ex_booted_ok ltac:(done))) as (? & ? & _).
Qed.

Lemma ex_dir_fresh : fresh_dir ex_dir.
Proof.
  split_and!; try done.
  - intros r. unfold cr3_at. cbn. destruct (decide (r = 0)) as [->|Hr]; [done|].
    rewrite lookup_singleton_ne by done. cbn. split; [done|]. intros ->. done.
Qed.

(** A single directory without a table at UADDR. *)
Lemma spaces_single s d x :
  vm_pds s = {[ d := x ]} -> envpd_rc x = nlive d (vm_et s) -> own_pages x = [dirpage x] -> uaddr_tab x = [] ->
  kernel_page s (dirpage x) -> (forall d' n, ~ has_table s d' n (dirpage x)) -> spaces_ok ghost0 s.
Proof.
  intros Epd Hrc Ho Hu Hk Ht. assert (forall d' y, vm_pds s !! d' = Some y -> d' = d /\ y = x) as K.
  { intros d' y Hy. rewrite Epd in Hy. by apply lookup_singleton_Some in Hy as [<- <-]. }
  split.
  - intros d' y [-> ->]%K. split; try done; rewrite ?Ho, ?Hu; [cbn; lia| |apply NoDup_singleton|].
    + intros q ->%list_elem_of_singleton. done.
    + intros q Hq. by apply not_elem_of_nil in Hq.
  - intros d1 d2 y1 y2 q [-> _]%K [-> _]%K _ _. done.
Qed.

Lemma kernel_page_test s q :
  (fun pp => (pp_status pp, pp_refcnt pp)) <$> ppages (vm_pool s) !! q = Some (PP_KERNEL, Some 0) -> kernel_page s q.
Proof. intros (pp & Hp & [= E1 E2])%fmap_Some. by exists pp. Qed.

Lemma ex_vm_spaces : spaces_ok ghost0 ex_vm.
Proof.
  apply (spaces_single ex_vm 0xf0200000 ex_dir); [reflexivity|vm_compute; reflexivity|vm_compute; reflexivity|vm_compute; reflexivity| |].
  - apply kernel_page_test. vm_compute. reflexivity.
  - intros d n (x & Hx & _ & HP & _). unfold ex_vm in Hx. cbn [vm_pds] in Hx. apply lookup_singleton_Some in Hx as [_ <-].
    by rewrite (proj1 (proj2 (proj2 (proj2 ex_dir_fresh)))) in HP.
Qed.

Lemma ex_vm_running : running ghost0 ex_vm /\ maxref 1 ex_vm.
Proof.
  apply fresh_running.
  - exact ex_pool1_ok.
  - vm_compute. reflexivity.
  - intros d x Hx. unfold ex_vm in Hx. cbn [vm_pds] in Hx. apply lookup_singleton_Some in Hx as [_ <-]. exact ex_dir_fresh.
  - reflexivity.
  - reflexivity.
  - intros i e Hi. unfold ex_vm, ex_et in Hi. cbn [vm_et envs] in Hi. apply lookup_singleton_Some in Hi as [_ <-]. exists ex_dir. reflexivity.
  - intros i [= <-]. exists ex_e. split; [reflexivity|done].
  - intros i e c Hi Hc. unfold ex_vm, ex_et in Hi. cbn [vm_et envs] in Hi. apply lookup_singleton_Some in Hi as [_ <-]. apply list_elem_of_In in Hc.
    assert (forallb (fun c => negb (c_isptr c)) (env_clist ex_e) = true) as Hf by reflexivity.
    rewrite forallb_forall in Hf. by apply negb_true_iff, Hf.
  - exists 1. reflexivity.
  - exact ex_vm_spaces.
  - vm_compute. reflexivity.
Qed.

Definition ex_mems (i : Z) : Z := 0xf0300000 + 16 * i.

Lemma ex_mems_ok : mems_ok ex_mems 0 1 ex_vm.
Proof. split; [intros; right; reflexivity|]. intros j j' Hj Hj' _ _. lia. Qed.

(** An entry for page 297, writable. *)
Definition ex_flags : Z := Z.lor PG_P (Z.lor PG_W PG_U).
Definition ex_map : Z := Z.lor (297 * NBPG) ex_flags.

Lemma sys_insert_pte_authorized_witness :
  exists s', sys_insert_pte ex_mems true 0 ex_map 0x1000 0 0 ex_vm = Ret 0 s' /\ running ghost0 s'.
Proof.
  destruct (wp_returns_val _ _ 0 _ (sys_insert_pte_authorized ghost0 ex_mems true 0 ex_map 0x1000 0 0 1 ex_e 1 ex_vm
    (proj1 ex_vm_running) eq_refl eq_refl ltac:(done) ltac:(done) (proj2 ex_vm_running) ltac:(lia) ltac:(done) ex_mems_ok))
    as (s' & E & Hr & _); [vm_compute; reflexivity|]. exists s'. split; [exact E|exact Hr].
Defined.

(** The machine after that call. *)
Definition ex_mapped : vm := default ex_vm (ret_state (sys_insert_pte_range ex_mems true 0 (fun _ => ex_map) 1 0x1000 0x2000 0 0 0 ex_vm)).

Lemma ex_mapped_run : sys_insert_pte_range ex_mems true 0 (fun _ => ex_map) 1 0x1000 0x2000 0 0 0 ex_vm = Ret (0, 1) ex_mapped.
Proof.
  assert (ret_val (sys_insert_pte_range ex_mems true 0 (fun _ => ex_map) 1 0x1000 0x2000 0 0 0 ex_vm) = Some (0, 1)) as E
    by (vm_compute; reflexivity).
  unfold ex_mapped. destruct (sys_insert_pte_range ex_mems true 0 (fun _ => ex_map) 1 0x1000 0x2000 0 0 0 ex_vm); [|discriminate E].
  injection E as ->. reflexivity.
Qed.

Lemma ex_mapped_step : vm_step ex_vm ex_mapped.
Proof.
  apply (step_insert ex_vm ex_mapped ex_mems true 0 (fun _ => ex_map) 1 0x1000 0x2000 0 0 0 1 (0, 1));
    [done|done|done|exact (proj2 ex_vm_running)|done|done|exact ex_mems_ok|done|exact ex_mapped_run].
Qed.

Lemma ex_mapped_table : has_table ex_mapped 0xf0200000 0 298.
Proof.
  assert ((fun x => (envpd_active x, pde_at x 0 0)) <$> vm_pds ex_mapped !! 0xf0200000 = Some (0, pde_of 298)) as E
    by (vm_compute; reflexivity).
  destruct (vm_pds ex_mapped !! 0xf0200000) as [x|] eqn:Ex; [|discriminate E]. injection E as Ea Ep.
  exists x. rewrite Ea, Ep. split; [exact Ex|]. clear Ex. vm_compute. intuition discriminate.
Qed.

Lemma ex_mapped_pte : pte_at ex_mapped (298, 1) = ex_map.
Proof. vm_compute. reflexivity. Qed.

Lemma memory_isolation_witness :
  exists pp, ppages (vm_pool ex_mapped) !! 297 = Some pp /\ pp_status pp <> PP_KERNEL /\ 0 < pp_writers pp.
Proof.
  assert (Z.shiftr (pte_at ex_mapped (298, 1)) PGSHIFT = 297) as E by (rewrite ex_mapped_pte; reflexivity).
  destruct (memory_isolation ghost0 ex_vm ex_mapped 0xf0200000 0 298 1 (proj1 ex_vm_running)
    (rtc_once _ _ ex_mapped_step) ex_mapped_table ltac:(rewrite ex_mapped_pte; reflexivity)) as (pp & Hp & _ & Hk & _ & _ & _ & _ & Hw).
  rewrite E in Hp. exists pp. split; [exact Hp|]. split; [exact Hk|]. apply Hw. rewrite ex_mapped_pte. reflexivity.
Defined.

Lemma ex_mapped_env : envs (vm_et ex_mapped) !! 1 = Some ex_e.
Proof. vm_compute. reflexivity. Qed.

Lemma ex_mapped_cur : curenv (vm_et ex_mapped) = Some 1.
Proof. vm_compute. reflexivity. Qed.

Lemma ex_mapped_ok : vm_ok ghost0 ex_mapped.
Proof. apply (vm_step_running ghost0 _ _ (proj1 ex_vm_running) ex_mapped_step). Qed.

Lemma ex_mapped_dir : exists x, vm_pds ex_mapped !! 0xf0200000 = Some x /\ va_pde x 0x1000 = pde_of 298.
Proof.
  assert ((fun x => va_pde x 0x1000) <$> vm_pds ex_mapped !! 0xf0200000 = Some (pde_of 298)) as E by (vm_compute; reflexivity).
  destruct (vm_pds ex_mapped !! 0xf0200000) as [x|] eqn:Ex; [|discriminate E]. injection E as E. exists x. split; [reflexivity|exact E].
Qed.



Lemma ppage_remove_clears_witness :
  exists s', ppage_remove 1 0x1000 ex_mapped = Ret 0 s' /\ pte_at s' (298, 1) = 0 /\ 0x1000 ∈ vm_flush s'.
Proof.
  destruct ex_mapped_dir as (x & Hx & Ep).
  assert (pt_get_ptep x 0x1000 = (298, 1)) as Ek by (unfold pt_get_ptep; rewrite Ep; reflexivity).
  destruct (wp_returns _ _ _ (ppage_remove_clears ghost0 1 ex_e x 0x1000 ex_mapped 1 ex_e ex_mapped_ok ex_mapped_env Hx
    ltac:(split; [discriminate|reflexivity]) ltac:(rewrite Ep; reflexivity) ex_mapped_cur ex_mapped_env eq_refl))
    as (r & s' & E & Hr & _ & Hc & _ & Hf & _).
  rewrite Ek in *. exists s'. rewrite E, Hr. split; [reflexivity|]. split; [exact Hc|].
  apply Hf. rewrite ex_mapped_pte. reflexivity.
Defined.

(** ** Behaviours outside the invariant's reach *)

(** Clearing [PG_P] with [sys_mod_pte_range] leaves the page counted as mapped:
    the entry is gone, the reader and the reference stay for ever. *)
Example sys_mod_pte_range_leaks :
  match sys_mod_pte_range true 0 0 PG_P 0x1000 1 0 0 ex_mapped with
  | Ret r s => r = 0 /\ tst (pte_at s (298, 1)) PG_P = false /\
      ((fun pp => (pp_readers pp, pp_refcnt pp)) <$> ppages (vm_pool s) !! 297) = Some (1, Some 1)
  | Panic => False
  end.
Proof. vm_compute. auto. Qed.

(** The range check is done in 32 bits: a range that starts above [UTOP] and is
    long enough to wrap passes it, and the first entry of the kernel's part of
    the address space is written.  Here table 10 is the kernel's; the second
    entry of the request stops the loop. *)
Definition ex_kdir : EnvPD :=
  mkPD 1 {[ 0 := 299 * NBPG ]} {[ 0 := {[ PDENO KERNBASE := pde_of 10 ]} ]} ∅ 1 0.
Definition ex_kvm : vm := mkVm ex_pool1 ex_et {[ 0xf0200000 := ex_kdir ]} {[ (10, 0) := Z.lor PG_P PG_W ]} ∅ ∅ [].

Example pmap_insert_range_wraps :
  match sys_insert_pte_range ex_mems true 0 (fun j => if j =? 0 then ex_map else Z.lor 0xfffff000 PG_P) 0x10002 KERNBASE 0x2000 0 0 0 ex_kvm with
  | Ret r s => pte_at ex_kvm (10, 0) = Z.lor PG_P PG_W /\ pte_at s (10, 0) = ex_map
  | Panic => False
  end.
Proof. vm_compute. auto. Qed.

(** [num_completed] is not checked: with a pointer into the kernel the call
    increments a word of kernel memory.  The model stops at that write. *)
Example num_completed_unchecked :
  sys_insert_pte_range ex_mems true 0 (fun _ => ex_map) 1 0x1000 KERNBASE 0 0 0 ex_vm = Panic.
Proof. vm_compute. reflexivity. Qed.

(** Page 1 is set aside for I/O and not in the pool; mapping it and unmapping it
    again puts it on the free list. *)
Definition ex_io : Z := Z.lor NBPG ex_flags.

Example iomem_page_enters_pool :
  existsb (Z.eqb 1) (free_list (vm_pool ex_vm)) = false /\
  match (sys_insert_pte ex_mems true 0 ex_io 0x1000 0 0 ;; sys_remove_vas true [0x1000] 0 0) ex_vm with
  | Ret r s => r = 0 /\ existsb (Z.eqb 1) (free_list (vm_pool s)) = true
  | Panic => False
  end.
Proof. vm_compute. auto. Qed.
