(* ===== verification/EnvLife.v ===== *)
(** * The life of an environment

    sys/kern/env.c: creating an environment with an address space of its own
    ([env_alloc]) or with that of its creator ([env_clone]), destroying it
    ([env_free], [kill_env]), and the system calls on top.  The state is that of
    the memory system with the two lists of environments and the counter that
    makes their names unique.

    Addresses that [malloc] returns are arguments (0 for NULL); the page tables
    the kernel shares between all address spaces are those of [boot_maps].  The
    pages a wakeup predicate and a message ring keep pinned are the argument
    [held] of [env_free]: of [wk_free] and [msgring_free] it says what they do to
    the page pool.  [dpf_del_env], which drops the packet filters of the
    environment, has no effect on this state. *)

From Stdlib Require Import ZArith Lia.
From stdpp Require Import base numbers option list gmap relations.
From S2P Require Import Prelude Capability EnvTable PageState PageAlloc PageTable Pmap.

Definition USTACKTOP := UTOP - 32 * 256 - NBPG.
Definition UTEXT := 2 * NBPD.
Definition FL_IF := 0x200.
Definition GD_UT := 0x10 + 8.
Definition GD_UD := 0x18 + 8.

(** Physical addresses of the kernel's page tables, and its directory. *)
Record boot_maps := mkBoot {
  p0pdir : gmap Z Z;
  cpucxt_pt : Z;
  ppage_upt : Z;
  envsi_upt : Z;
  bc_upt_pt : Z;
  xnmap_upt : Z }.

Record life := mkLife {
  lf_vm : vm;
  env_free_list : list Z;
  env_used_list : list Z;
  next_env_id : Z;
  si_killed_envs : Z }.

Definition set_vm (x : vm) (s : life) : life :=
  mkLife x (env_free_list s) (env_used_list s) (next_env_id s) (si_killed_envs s).
Definition set_lists (f u : list Z) (s : life) : life := mkLife (lf_vm s) f u (next_env_id s) (si_killed_envs s).
Definition set_next_id (n : Z) (s : life) : life :=
  mkLife (lf_vm s) (env_free_list s) (env_used_list s) n (si_killed_envs s).
Definition set_killed (n : Z) (s : life) : life :=
  mkLife (lf_vm s) (env_free_list s) (env_used_list s) (next_env_id s) n.

Definition in_vm {A} (m : M vm A) : M life A := zoom lf_vm set_vm m.

Definition put_env (i : Z) (e : Env) : M vm unit :=
  modify (fun s => set_et (set_envs (<[i := e]> (envs (vm_et s))) (vm_et s)) s).
Definition mod_env (i : Z) (f : Env -> Env) : M vm unit := e <- in_et (get_env i) ;; put_env i (f e).

(** Lines 467-477: a cleared record with a new name. *)
Definition env_named (id : Z) : Env :=
  mkEnv tf_zero 0 0 id 0 0 0 0 ∅ 0 0 0 0 0 MAX_CAPNO (repeat cap_null (Z.to_nat MAX_CAPNO)).

(** Lines 619-637: the registers a new environment starts with. *)
Definition env_start (e : Env) : Env :=
  let tf := mkTf (tf_edi (env_tf e)) (tf_esi (env_tf e)) (tf_ebp (env_tf e)) (tf_oesp (env_tf e)) (tf_ebx (env_tf e))
              (tf_edx (env_tf e)) (tf_ecx (env_tf e)) (tf_eax (env_tf e)) (Z.lor GD_UD 3) (Z.lor GD_UD 3) UTEXT
              (Z.lor GD_UT 3) FL_IF USTACKTOP (Z.lor GD_UD 3) in
  mkEnv tf XOK_IPC_BLOCKED XOK_IPC_BLOCKED (env_id e) (env_status e) (env_qx e) (env_u e) 0 (env_quanta e)
    (env_pd e) 0 0 (env_pred_pgs e) (env_pred e) (env_clen e) (env_clist e).

(** Where the u-area of an environment is mapped. *)
Definition uarea_va (envid : Z) : Z := UADDRS + envidx envid * NBPG.
Definition uflags : Z := Z.lor PG_P (Z.lor PG_W PG_U).

(** Lines 513-535: the kernel's part of a directory at [cr3]. *)
Definition kernel_pdes (b : boot_maps) (cr3 : Z) : gmap Z Z :=
  <[PDENO UXNMAP := Z.lor (xnmap_upt b) (Z.lor PG_U PG_P)]>
  (<[PDENO UBC := Z.lor (bc_upt_pt b) (Z.lor PG_U PG_P)]>
  (<[PDENO UENVS := Z.lor (envsi_upt b) (Z.lor PG_U PG_P)]>
  (<[PDENO UPPAGES := Z.lor (ppage_upt b) (Z.lor PG_U PG_P)]>
  (<[PDENO UVPT := Z.lor cr3 (Z.lor PG_P PG_U)]>
  (<[PDENO VPT := Z.lor cr3 (Z.lor PG_P PG_W)]>
  (<[PDENO CPUCXT := Z.lor (cpucxt_pt b) (Z.lor PG_W PG_P)]>
  (filter (fun kv => PDENO (KSTACKTOP - 1) <= fst kv < NLPG) (p0pdir b)))))))).

Definition set_rc (n : Z) (x : EnvPD) : EnvPD :=
  mkPD (envpd_id x) (envpd_cr3 x) (envpd_pdir x) (envpd_nptes x) n (envpd_active x).
Definition set_pdid (n : Z) (x : EnvPD) : EnvPD :=
  mkPD n (envpd_cr3 x) (envpd_pdir x) (envpd_nptes x) (envpd_rc x) (envpd_active x).
Definition free_pd (d : Z) : M vm unit := modify (fun s => set_pds (delete d (vm_pds s)) s).

(** [LIST_REMOVE] from the used list, [LIST_INSERT_HEAD] on the free list. *)
Definition list_free (i : Z) : M life unit :=
  u <- gets env_used_list ;; u' <- of_option (unlink i u) ;;
  modify (fun s => set_lists (i :: env_free_list s) u' s).

(** ** Destroying *)

(** The walk over one table: [for (pteno = 0; npte; pteno++)]. *)
Fixpoint drop_ptes (fuel : nat) (i n t pteno npte : Z) : M vm unit :=
  if npte =? 0 then mreturn tt
  else match fuel with
  | O => panic
  | S fuel' =>
      pte <- pte_read (t, pteno) ;;
      if tst pte PG_P then
        ppage_remove i (Z.lor (Z.shiftl n PDSHIFT) (Z.shiftl pteno PGSHIFT)) ;;
        drop_ptes fuel' i n t (pteno + 1) (npte - 1)
      else drop_ptes fuel' i n t (pteno + 1) npte
  end.

(** One entry of the directory [d]; [npte] is a short read as an unsigned
    integer. *)
Definition drop_table (i d n : Z) : M vm unit :=
  if (PDENO UTOP <=? n) && (n <? PDENO UADDRS) then mreturn tt
  else
    x <- get_pd d ;;
    let w := pde_at x (envpd_active x) n in
    if negb (tst w PG_P) then mreturn tt
    else
      let npte := if NLPG <? u32 (nptes_at x n) then NLPG else u32 (nptes_at x n) in
      let t := Z.shiftr w PGSHIFT in
      drop_ptes (Z.to_nat NLPG) i n t 0 npte ;;
      in_pool (ppage_free t).

(** The directory page of processor [r] and its table for UADDR.  The words of a
    table that is given back are no longer part of the state. *)
Definition drop_dir (d r : Z) : M vm unit :=
  x <- get_pd d ;;
  if cr3_at x r =? 0 then mreturn tt
  else
    (let w := pde_at x r (PDENO UADDR) in
     if tst w PG_P then in_pool (ppage_free (Z.shiftr w PGSHIFT)) ;; bzero_pt (Z.shiftr w PGSHIFT) else mreturn tt) ;;
    in_pool (ppage_free (Z.shiftr (cr3_at x r) PGSHIFT)).

(** The last user of directory [d] is gone. *)
Definition drop_space (i d : Z) : M vm unit :=
  mfor (drop_table i d) (zseq 0 (Z.to_nat (PDENO ULIM))) ;;
  mfor (drop_dir d) (zseq 0 (Z.to_nat NR_CPUS)) ;;
  free_pd d.

(** What is left of the record: [wk_free] and the lines after it clear the
    predicate, the ring, the directory and the status. *)
Definition env_dead (e : Env) : Env :=
  set_env_status ENV_FREE (set_env_pd 0 (set_msgring 0 (set_env_pred 0 (set_env_pred_pgs 0 e)))).

(** [held] are the pages that [wk_free] and [msgring_free] unpin, read from the
    predicate and the ring of the environment, whose records belong to other
    components: one occurrence for each pin. *)
Definition env_free (held : list Z) (i : Z) : M life unit :=
  e <- in_vm (in_et (get_env i)) ;;
  in_vm (ppage_remove i (uarea_va (env_id e))) ;;
  in_vm (upd_pd (env_pd e) (fun x => set_rc (s16 (envpd_rc x - 1)) x)) ;;
  x <- in_vm (get_pd (env_pd e)) ;;
  (if envpd_rc x =? 0 then in_vm (drop_space i (env_pd e)) else mreturn tt) ;;
  in_vm (mfor (fun p => in_pool (ppage_unpin p)) held) ;;
  modify (fun s => set_killed (u32 (si_killed_envs s + 1)) s) ;;
  in_vm (mod_env i env_dead) ;;
  list_free i.

(** The result tells whether the caller's environment is gone; the scheduler is
    then called and does not return. *)
Definition kill_env (held : list Z) (i : Z) : M life bool :=
  env_free held i ;;
  c <- in_vm (gets (fun s => curenv (vm_et s))) ;;
  if bool_decide (c = Some i) then in_vm (modify (fun s => set_et (set_curenv None (vm_et s)) s)) ;; mreturn true
  else mreturn false.

(** ** Creating *)

Section create.
Context (b : boot_maps).

(** Undo a creation that failed: give the pages and the directory back. *)
Definition undo_pd (i d : Z) (pages : list Z) (r : Z) : M life Z :=
  in_vm (mfor (fun p => in_pool (ppage_free p)) pages) ;; in_vm (free_pd d) ;; list_free i ;; mreturn r.

(** Lines 480-613.  [m_pd], [m_np] and [m_vp] are what [malloc] returns for the
    directory, its counts and the mapping record. *)
Definition env_newpt (m_pd m_np m_vp i cpu : Z) : M life Z :=
  assert_ (negb (m_pd =? 0)) ;;
  in_vm (mod_env i (set_env_pd m_pd)) ;;
  rp <- in_vm (in_pool (ppage_alloc PP_KERNEL 0)) ;;
  match snd rp with
  | None => mreturn (fst rp)
  | Some p =>
      in_vm (put_pd m_pd (mkPD 0 {[ cpu := pp2pa p ]} {[ cpu := ∅ ]} ∅ 1 cpu)) ;;
      if m_np =? 0 then undo_pd i m_pd [p] (- E_NO_MEM)
      else
        in_vm (upd_pd m_pd (pd_pdir {[ cpu := kernel_pdes b (pp2pa p) ]})) ;;
        rp2 <- in_vm (in_pool (ppage_alloc PP_USER 0)) ;;
        match snd rp2 with
        | None => undo_pd i m_pd [p] (fst rp2)
        | Some p2 =>
            e <- in_vm (in_et (get_env i)) ;;
            r <- in_vm (ppage_insert m_vp i p2 (uarea_va (env_id e)) uflags) ;;
            if r <? 0 then undo_pd i m_pd [p; p2] r
            else
              in_vm (mod_env i (set_env_u p2)) ;;
              r <- in_vm (pde_check_n_alloc_one m_pd cpu UADDR) ;;
              if r <? 0 then env_free [] i ;; mreturn r
              else
                x <- in_vm (get_pd m_pd) ;;
                in_vm (pte_write (Z.shiftr (pde_at x cpu (PDENO UADDR)) PGSHIFT, PTENO UADDR) (Z.lor (pp2pa p2) uflags)) ;;
                in_vm (upd_pd m_pd (set_pdid (env_id e))) ;;
                mreturn 0
        end
  end.

(** The error code and the slot of the new environment. *)
Definition env_alloc (m_pd m_np m_vp : Z) (newpt : bool) (cpu : Z) : M life (Z * option Z) :=
  fl <- gets env_free_list ;;
  match fl with
  | [] => mreturn (- E_NO_FREE_ENV, None)
  | i :: fl' =>
      modify (fun s => set_lists fl' (i :: env_used_list s) s) ;;
      n <- gets next_env_id ;;
      modify (set_next_id (u32 (n + 1))) ;;
      in_vm (put_env i (env_named (Z.lor (u32 (Z.shiftl n (1 + LOG2NENV))) i))) ;;
      r <- (if newpt then env_newpt m_pd m_np m_vp i cpu else mreturn 0) ;;
      if r <? 0 then mreturn (r, None)
      else
        in_vm (mod_env i env_start) ;;
        (if newpt then in_vm (mod_env i (set_env_status ENV_OK)) else mreturn tt) ;;
        mreturn (0, Some i)
  end.

(** Lines 406-437: slot [i] joins the address space of [ce]. *)
Definition clone_space (m_vp i : Z) (ce : Env) : M life (Z * option Z) :=
  in_vm (mod_env i (set_env_pd (env_pd ce))) ;;
  in_vm (upd_pd (env_pd ce) (fun x => set_rc (s16 (envpd_rc x + 1)) x)) ;;
  rp <- in_vm (in_pool (ppage_alloc PP_USER 0)) ;;
  match snd rp with
  | None => kill_env [] i ;; mreturn (fst rp, None)
  | Some p =>
      e <- in_vm (in_et (get_env i)) ;;
      r <- in_vm (ppage_insert m_vp i p (uarea_va (env_id e)) uflags) ;;
      if r <? 0 then kill_env [] i ;; mreturn (r, None)
      else
        in_vm (mod_env i (set_env_u p)) ;;
        in_vm (mod_env i (set_env_status ENV_OK)) ;;
        mreturn (r, Some i)
  end.

Definition env_clone (m_vp : Z) : M life (Z * option Z) :=
  cur <- in_vm (in_et get_curenv) ;;
  rn <- env_alloc 0 0 0 false 0 ;;
  match snd rn with
  | None => mreturn rn
  | Some i => ce <- in_vm (in_et (get_env cur)) ;; clone_space m_vp i ce
  end.

(** Guard the u-area by the capability. *)
Definition set_cap_uarea (i : Z) (c : cap) : M vm unit :=
  e <- in_et (get_env i) ;;
  x <- get_pd (env_pd e) ;;
  pte <- pte_read (pt_get_ptep x (uarea_va (env_id e))) ;;
  in_pool (ppage_setcap (Z.shiftr pte PGSHIFT) c).

(** ** System calls *)

(** The value returned and the one stored in [*error], if any. *)
Definition sys_env_alloc (m_pd m_np m_vp : Z) (clone : bool) (k : Z) : M life (Z * option Z) :=
  cur <- in_vm (in_et get_curenv) ;;
  ce <- in_vm (in_et (get_env cur)) ;;
  match env_getcap ce k with
  | inr r => mreturn (0, Some r)
  | inl c =>
      if negb (Z.land (c_perm c) CL_ALL =? CL_ALL) then mreturn (0, Some (- E_CAP_INSUFF))
      else
        rn <- (if clone then env_clone m_vp else env_alloc m_pd m_np m_vp true 0) ;;
        match snd rn with
        | None => mreturn (0, Some (fst rn))
        | Some i =>
            in_vm (mod_env i (fun e => set_clist (<[0%nat := c]> (env_clist e)) e)) ;;
            in_vm (set_cap_uarea i c) ;;
            e <- in_vm (in_et (get_env i)) ;;
            mreturn (env_id e, None)
        end
  end.
End create.

(** The result, and whether the call gave up the processor. *)
Definition sys_env_free (held : list Z) (k envid : Z) : M life (Z * bool) :=
  h <- in_vm (gets vm_heap) ;;
  r <- in_vm (in_et (env_access h k envid ACL_ALL)) ;;
  match r with
  | inr r => mreturn (r, false)
  | inl i =>
      e <- in_vm (in_et (get_env i)) ;;
      if env_id e =? 0 then mreturn (- E_BAD_ENV, false)
      else gone <- kill_env held i ;; mreturn (0, gone)
  end.

Definition sys_geteid : M envtab Z := cur <- get_curenv ;; e <- get_env cur ;; mreturn (env_id e).

(** The u-area is the result. *)
Definition sys_rdu (h : aclheap) (k envid : Z) : M envtab (Z * option Uenv) :=
  r <- env_access h k envid 0 ;;
  match r with
  | inr r => mreturn (r, None)
  | inl i =>
      e <- get_env i ;;
      if env_u e =? 0 then mreturn (- E_BAD_ENV, None)
      else u <- gets (fun s => uareas s !! env_u e) ;; mreturn (0, u)
  end.

Definition sys_wru (h : aclheap) (k envid : Z) (ue : Uenv) : M envtab Z :=
  r <- env_access h k envid ACL_ALL ;;
  match r with
  | inr r => mreturn r
  | inl i =>
      e <- get_env i ;;
      if env_u e =? 0 then mreturn (- E_BAD_ENV)
      else modify (fun s => set_uareas (<[env_u e := ue]> (uareas s)) s) ;; mreturn 0
  end.

(** ** Boot *)

(** Every slot is free.  The list is built back to front, so that slot 0 is
    taken first. *)
Definition env_init_lists (s : life) : life := set_lists (zseq 0 (Z.to_nat NENV)) [] s.

Definition USTKSIZE := 16 * NBPG.
Definition U_MAX_EXTRAIPCARGS := 16.

(** A page at [va] for environment [i]; [mem] is the mapping record. *)
Definition load_page (mem i va : Z) : M vm unit :=
  rp <- in_pool (ppage_alloc PP_USER 0) ;;
  match snd rp with
  | None => panic
  | Some p => r <- ppage_insert mem i p va uflags ;; if r <? 0 then panic else mreturn tt
  end.

(** The addresses of the program's pages: the first holds 0x20 bytes less. *)
Fixpoint text_vas (fuel : nat) (i va size : Z) : list Z :=
  if i <? size then
    match fuel with
    | O => []
    | S fuel' => va :: text_vas fuel' (if i =? 0 then NBPG - 0x20 else i + NBPG) (va + NBPG) size
    end
  else [].

Definition stack_vas : list Z :=
  (fun j => USTACKTOP - USTKSIZE + j * NBPG) <$> zseq 0 (Z.to_nat (USTKSIZE / NBPG)).

Definition start_at (eip : Z) (e : Env) : Env :=
  let f := env_tf e in
  set_env_tf (mkTf (tf_edi f) (tf_esi f) (tf_ebp f) (tf_oesp f) (tf_ebx f) (tf_edx f) (tf_ecx f) (tf_eax f)
                (tf_es f) (tf_ds f) eip (tf_cs f) (tf_eflags f) (tf_esp f) (tf_ss f)) e.

(** [u_status] and [u_donate] of a cleared u-area. *)
Definition idle_uarea : Uenv := mkUenv U_RUN (-1) 0 0 0 0 0 0 0 0 cap_null (repeat 0 (Z.to_nat U_MAX_EXTRAIPCARGS)) 0.

(** [size] is that of the program; [mems] are the mapping records by address. *)
Definition load_idle_env (mems : Z -> Z) (size i : Z) : M vm unit :=
  mfor (fun va => load_page (mems va) i va) (text_vas (S (Z.to_nat size)) 0 UTEXT size) ;;
  mfor (fun va => load_page (mems va) i va) stack_vas ;;
  modify (fun s => set_et (set_curenv (Some i) (vm_et s)) s) ;;
  mod_env i (start_at (UTEXT + 0x20)) ;;
  mod_env i (fun e => set_clist (alter cap_init_zerolength 0%nat (env_clist e)) e) ;;
  e <- in_et (get_env i) ;;
  assert_ (negb (env_u e =? 0)) ;;
  modify (fun s => set_et (set_uareas (<[env_u e := idle_uarea]> (uareas (vm_et s))) (vm_et s)) s).

(** Running out of memory is a panic.  [p0] is the page of the boot directory,
    [m0] and [m1] are what [malloc] returns for the two environments. *)
Definition env_init (b : boot_maps) (m0 m1 : Z * Z * Z) (mems : Z -> Z) (size p0 : Z) : M life Z :=
  modify env_init_lists ;;
  rn <- env_alloc b (fst (fst m0)) (snd (fst m0)) (snd m0) true 0 ;;
  match snd rn with
  | None => panic
  | Some i =>
      in_vm (in_pool (ppage_free p0)) ;;
      in_vm (load_idle_env mems size i) ;;
      modify (set_killed 0) ;;
      rn <- env_alloc b (fst (fst m1)) (snd (fst m1)) (snd m1) true 0 ;;
      match snd rn with None => panic | Some j => mreturn j end
  end.

(** ** Overlays

    While an address space is taken down, its directory still has the entries of
    the tables that are gone already, and no references.  Everything is proved
    of a state in which the directory is kept in step, and carried over to the
    real one, which differs in these two fields of one directory. *)

Definition rmap {S A} (f : S -> S) (r : outcome S A) : outcome S A := match r with Ret a s => Ret a (f s) | Panic => Panic end.

Section overlay.
Context (d : Z) (pdA : gmap Z (gmap Z Z)) (rcA : Z).

Definition re (x : EnvPD) : EnvPD := mkPD (envpd_id x) (envpd_cr3 x) pdA (envpd_nptes x) rcA (envpd_active x).
Definition ov (s : vm) : vm := set_pds (alter re d (vm_pds s)) s.

(** From a state with [P], [m] does the same below the overlay and keeps [P]. *)
Definition comm (P : vm -> Prop) {A} (m : M vm A) : Prop :=
  forall s, P s -> m (ov s) = rmap ov (m s) /\ forall a s', m s = Ret a s' -> P s'.

Lemma comm_ret P {A} (a : A) : comm P (mreturn a).
Proof. intros s HP. split; [done|]. by intros a' s' [= _ <-]. Qed.

Lemma comm_bind P {A B} (m : M vm A) (k : A -> M vm B) :
  comm P m -> (forall a, comm P (k a)) -> comm P (mbind_ m k).
Proof.
  intros Hm Hk s HP. unfold mbind_. destruct (Hm s HP) as [-> HP']. destruct (m s) as [a s1|]; cbn; [|done]. by apply Hk, (HP' a).
Qed.

Lemma comm_gets P {A} (f : vm -> A) : (forall s, f (ov s) = f s) -> comm P (gets f).
Proof. intros Hf s HP. unfold gets. rewrite Hf. split; [done|]. by intros a s' [= _ <-]. Qed.

Lemma comm_modify (P : vm -> Prop) f : (forall s, f (ov s) = ov (f s)) -> (forall s, P s -> P (f s)) -> comm P (modify f).
Proof. intros Hf HPf s HP. unfold modify. rewrite Hf. split; [done|]. intros a s' [= _ <-]. auto. Qed.

Lemma comm_pool (P : vm -> Prop) {A} (m : M pool A) : (forall s p, P s -> P (set_pool p s)) -> comm P (in_pool m).
Proof.
  intros HPf s HP. unfold in_pool, zoom. cbn. destruct (m (vm_pool s)) as [a p|]; cbn; [|done].
  split; [done|]. intros a' s' [= _ <-]. auto.
Qed.

Lemma comm_env P i : comm P (in_et (get_env i)).
Proof.
  intros s HP. unfold in_et, zoom, get_env, of_option. cbn. destruct (envs (vm_et s) !! i); cbn; [|done].
  destruct s; cbn. split; [done|]. by intros a s' [= _ <-].
Qed.

(** Reading a directory: only the parts that agree are used. *)
Lemma comm_get_pd P {A} d' (k : EnvPD -> M vm A) :
  (forall s x, P s -> vm_pds s !! d' = Some x -> k (if decide (d = d') then re x else x) = k x) -> (forall x, comm P (k x)) ->
  comm P (mbind_ (get_pd d') k).
Proof.
  intros Hre Hk s HP. unfold mbind_, get_pd, of_option. cbn.
  destruct (vm_pds s !! d') as [x|] eqn:Hx.
  - assert (alter re d (vm_pds s) !! d' = Some (if decide (d = d') then re x else x)) as ->.
    { destruct (decide (d = d')) as [<-|]; [by rewrite lookup_alter_eq, Hx|by rewrite lookup_alter_ne]. }
    unfold mreturn. rewrite (Hre s x HP Hx). by apply Hk.
  - assert (alter re d (vm_pds s) !! d' = None) as ->; [|done].
    destruct (decide (d = d')) as [<-|]; [by rewrite lookup_alter_eq, Hx|by rewrite lookup_alter_ne].
Qed.

Lemma comm_nptes (P : vm -> Prop) d' n k :
  (forall s x, P s -> vm_pds s !! d' = Some x -> P (set_pds (<[d' := nptes_add n k x]> (vm_pds s)) s)) -> comm P (upd_pd d' (nptes_add n k)).
Proof.
  intros HPf s HP. unfold upd_pd, put_pd, get_pd, mbind_, modify, of_option. cbn.
  destruct (decide (d = d')) as [<-|Hne].
  - rewrite lookup_alter_eq. destruct (vm_pds s !! d) as [x|] eqn:Hx; cbn; [|done]. split.
    + unfold ov. cbn. f_equal. unfold set_pds. cbn. f_equal. rewrite alter_insert_eq.
      apply map_eq. intros q. destruct (decide (d = q)) as [<-|]; [by rewrite !lookup_insert_eq|by rewrite !lookup_insert_ne, lookup_alter_ne].
    + intros a s' [= _ <-]. eauto.
  - rewrite lookup_alter_ne by done. destruct (vm_pds s !! d') as [x|] eqn:Hx; cbn; [|done]. split.
    + unfold ov. cbn. f_equal. unfold set_pds. cbn. f_equal. by rewrite alter_insert_ne.
    + intros a s' [= _ <-]. eauto.
Qed.

(** Take a program apart, without unfolding the calls in it. *)
Ltac comm_seq := repeat lazymatch goal with |- comm _ (mbind_ _ _) => apply comm_bind; [|intros ?] end.

(** The two directories agree on entry [n]. *)
Definition agree (n : Z) (s : vm) : Prop :=
  forall x, vm_pds s !! d = Some x -> pde_at (re x) (envpd_active x) n = pde_at x (envpd_active x) n.

Lemma comm_option {A B} P (o : option A) (k : A -> M vm B) : (forall a, comm P (k a)) -> comm P (mbind_ (of_option o) k).
Proof. intros Hk. destruct o as [a|]; [apply (Hk a)|]. by intros s HP. Qed.

Lemma comm_get_vpl n p : comm (agree n) (get_vpl p).
Proof. apply comm_bind; [by apply comm_pool|]. intros pp. destruct (pp_u pp); [by intros s HP|apply comm_ret]. Qed.

Lemma comm_find n envid va l : comm (agree n) (find_vpage envid va l).
Proof.
  induction l as [|a l IH]; cbn [find_vpage]; [apply comm_ret|].
  assert (forall k : Vpage -> M vm (option Z), (forall v, comm (agree n) (k v)) -> comm (agree n) (mbind_ (get_vp a) k)) as Hvp.
  { intros k Hk s HP. unfold mbind_, get_vp. cbn. unfold of_option. destruct (vm_vps s !! a); [by apply Hk|done]. }
  apply Hvp. intros v. destruct (_ && _); [apply comm_ret|done].
Qed.

Lemma comm_unrecord n p envid va : comm (agree n) (unrecord p envid va).
Proof.
  apply comm_bind; [apply comm_get_vpl|]. intros l. apply comm_bind; [apply comm_find|]. intros [a|]; [|apply comm_ret].
  apply comm_bind; [apply comm_get_vpl|]. intros l1. apply comm_option. intros l2.
  apply comm_bind; [by apply comm_pool|]. intros _. by apply comm_modify.
Qed.

Lemma comm_tlb n va id : comm (agree n) (tlb_invalidate va id).
Proof.
  unfold tlb_invalidate. apply comm_bind; [by apply comm_gets|]. intros [i|]; [|by apply comm_modify].
  apply comm_bind; [apply comm_env|]. intros e. apply comm_get_pd.
  - intros s x _ _. by destruct (decide _).
  - intros x. destruct (_ =? _); [by apply comm_modify|apply comm_ret].
Qed.

Lemma comm_remove i va : comm (agree (PDENO va)) (ppage_remove i va).
Proof.
  apply comm_bind; [apply comm_env|]. intros e. apply comm_get_pd.
  - intros s x HP Hx. destruct (decide (d = env_pd e)) as [Ed|]; [|done].
    assert (pt_get_ptep (re x) va = pt_get_ptep x va) as ->; [|done].
    unfold pt_get_ptep, va_pde. change (envpd_active (re x)) with (envpd_active x). rewrite <- Ed in Hx. by rewrite (HP x Hx).
  - intros x. cbv zeta. set (n := PDENO va).
    assert (forall w, comm (agree n) (pte_write (pt_get_ptep x va) w)) as Hwr by (intros w; by apply comm_modify).
    apply comm_bind; [by apply comm_gets|]. intros pte. destruct (tst pte PG_P).
    2: { comm_seq; [done|apply comm_tlb|apply comm_ret]. }
    apply comm_bind; [by apply comm_gets|]. intros np. destruct (np <=? _); [apply comm_ret|].
    comm_seq; [by apply comm_pool| |apply comm_unrecord| | |done|apply comm_tlb|apply comm_ret].
    + apply comm_nptes. intros s y HP Hy y' Hy'. cbn in Hy'. destruct (decide (d = env_pd e)) as [Ed|Hne].
      * rewrite <- Ed in Hy, Hy'. rewrite lookup_insert_eq in Hy'. injection Hy' as <-. apply (HP y Hy).
      * rewrite lookup_insert_ne in Hy' by done. by apply HP.
    + unfold add_refcnt. apply comm_bind; [by apply comm_pool|]. intros pp. destruct (pp_u pp); [by intros s HP|].
      apply comm_bind; [by apply comm_pool|]. intros _. apply comm_ret.
    + match goal with |- comm _ (if ?b then _ else _) => destruct b end; [by apply comm_pool|apply comm_ret].
Qed.

(** What a program does below the overlay, it does above it. *)
Lemma comm_wp P {A} (m : M vm A) s (Q : A -> vm -> Prop) :
  comm P m -> P s -> wp m s Q -> wp m (ov s) (fun a s' => exists s1, s' = ov s1 /\ P s1 /\ Q a s1).
Proof.
  intros Hc HP. unfold wp. destruct (Hc s HP) as [-> HP']. destruct (m s) as [a s1|]; [|done]. cbn. eauto.
Qed.
End overlay.

(** ** Emptying a table *)

(** The address of entry [j] of table [n]. *)
Definition va_at (n j : Z) : Z := Z.lor (Z.shiftl n PDSHIFT) (Z.shiftl j PGSHIFT).

Lemma upde_range n : upde n -> 0 <= n < 1024.
Proof. assert (NUPDE <= 1024 /\ 0 <= PDENO UADDRS < 1024) as [H1 H2] by (by vm_compute). intros [?| ->]; lia. Qed.

Lemma lor_split a b k : 0 <= k -> 0 <= b < 2 ^ k -> Z.lor (Z.shiftl a k) b = a * 2 ^ k + b.
Proof.
  intros Hk Hb. rewrite <- Z.shiftl_mul_pow2 by done. pose proof (Z.add_lor_land (Z.shiftl a k) b) as E.
  assert (Z.land (Z.shiftl a k) b = 0) as Ez; [|lia]. apply Z.bits_inj'. intros i Hi.
  rewrite Z.bits_0, Z.land_spec. destruct (Z.ltb_spec i k).
  - by rewrite Z.shiftl_spec_low.
  - rewrite <- (Z.mod_small b (2 ^ k)), Z.mod_pow2_bits_high by (try lia; done). apply andb_false_r.
Qed.

Lemma va_at_parts n j : 0 <= n < 1024 -> 0 <= j < NLPG ->
  0 <= va_at n j < 2 ^ 32 /\ PDENO (va_at n j) = n /\ PTENO (va_at n j) = j.
Proof.
  intros Hn Hj. unfold NLPG in Hj.
  assert (va_at n j = n * 2 ^ 22 + j * 2 ^ 12) as E.
  { unfold va_at, PDSHIFT, PGSHIFT. rewrite lor_split by (rewrite ?Z.shiftl_mul_pow2; lia). by rewrite Z.shiftl_mul_pow2 by lia. }
  rewrite E. unfold PDENO, PTENO, PDSHIFT, PGSHIFT. change 0x3ff with (Z.ones 10). rewrite Z.land_ones, !Z.shiftr_div_pow2 by lia.
  split_and!; [lia|lia| |].
  - symmetry. apply (Z.div_unique _ _ _ (j * 2 ^ 12)); lia.
  - replace (n * 2 ^ 22 + j * 2 ^ 12) with ((n * 1024 + j) * 2 ^ 12) by lia. rewrite Z.div_mul by lia.
    symmetry. apply (Z.mod_unique _ _ n); lia.
Qed.

(** The same directory but for the counts. *)
Definition same_dir (x x' : EnvPD) : Prop :=
  envpd_id x' = envpd_id x /\ envpd_rc x' = envpd_rc x /\ envpd_active x' = envpd_active x /\
  envpd_cr3 x' = envpd_cr3 x /\ envpd_pdir x' = envpd_pdir x.

Lemma same_dir_pde x x' r n : same_dir x x' -> pde_at x' r n = pde_at x r n.
Proof. intros (_ & _ & _ & _ & E). unfold pde_at. by rewrite E. Qed.

Definition is_free (s : vm) (q : Z) : Prop := exists pp, ppages (vm_pool s) !! q = Some pp /\ pp_status pp = PP_FREE.
Definition keeps_free (s s' : vm) : Prop := forall q, is_free s q -> is_free s' q.

(** What taking mappings out of directory [d] leaves alone. *)
Record emptied (d : Z) (x x' : EnvPD) (s s' : vm) : Prop := mkEmptied {
  em_pds : vm_pds s' = <[d := x']> (vm_pds s);
  em_dir : same_dir x x';
  em_et : vm_et s' = vm_et s;
  em_heap : vm_heap s' = vm_heap s;
  em_acl : acl_from s s';
  em_vps : forall a, vm_vps s !! a = None -> vm_vps s' !! a = None;
  em_pin : forall q, pins s' q = pins s q;
  em_free : keeps_free s s' }.

Lemma emptied_refl d x s : vm_pds s !! d = Some x -> emptied d x x s s.
Proof. intros Hx. split; try done; [by rewrite insert_id|apply acl_from_refl|by intros q]. Qed.

Lemma emptied_trans d x1 x2 x3 s1 s2 s3 : emptied d x1 x2 s1 s2 -> emptied d x2 x3 s2 s3 -> emptied d x1 x3 s1 s3.
Proof.
  intros [P1 (A1 & A2 & A3 & A4 & A5) E1 H1 C1 V1 N1 F1] [P2 (B1 & B2 & B3 & B4 & B5) E2 H2 C2 V2 N2 F2].
  split; [by rewrite P2, P1, insert_insert_eq|split_and!; congruence|congruence..|by eapply acl_from_trans|auto|intros q; by rewrite N2|intros q Hq; auto].
Qed.

Section take_down.
Context (g : ghost).

Lemma remove_emptied i e x va s :
  vm_ok g s -> envs (vm_et s) !! i = Some e -> vm_pds s !! env_pd e = Some x -> uva va -> tst (va_pde x va) PG_P = true ->
  wp (ppage_remove i va) s (fun _ s' => vm_ok g s' /\ vm_pts s' = <[pt_get_ptep x va := 0]> (vm_pts s) /\
    exists x', emptied (env_pd e) x x' s s').
Proof.
  intros Hi He Hx Hva HP. eapply wp_mono; [by eapply ppage_remove_spec|]. intros r s' (_ & Hi' & [] & _).
  split; [done|]. split; [done|]. destruct rm_pds as (x' & Ep & Ha). exists x'. split; try done.
  - destruct Ha. done.
  - intros q (pp & Hp & Hs). destruct (rm_page q pp Hp) as (pp' & Hp' & _ & _ & _ & _ & Hst). exists pp'. split; [done|].
    destruct Hst as [->|[? _]]; done.
Qed.

Lemma present_in n t d x s j :
  vm_ok g s -> vm_pds s !! d = Some x -> upde n -> tst (pde_at x (envpd_active x) n) PG_P = true ->
  Z.shiftr (pde_at x (envpd_active x) n) PGSHIFT = t -> intab g t ((t, j), pte_at s (t, j)) = tst (pte_at s (t, j)) PG_P.
Proof.
  intros Hi Hx Hn HP Ht. unfold intab. rewrite (upte_in g d n t s _ _ _ _ Hi); [|by exists x|done]. cbn. by rewrite Z.eqb_refl, andb_true_r.
Qed.

Lemma table_empty t s : vm_ok g s -> (forall j, 0 <= j < NLPG -> tst (pte_at s (t, j)) PG_P = false) -> kcount (intab g t) (vm_pts s) = 0.
Proof.
  intros Hi Hlow. apply kcount_zero. intros [t' j] w Hw. destruct (intab g t ((t', j), w)) eqn:Ei; [|done].
  unfold intab in Ei. apply andb_true_iff in Ei as [Eu Et%Z.eqb_eq]. cbn in Et. subst t'.
  destruct (vi_live _ _ _ _ Hi _ _ Hw Eu) as (_ & Hr & _). pose proof (Hlow j Hr) as Hj. unfold pte_at in Hj. rewrite Hw in Hj.
  unfold upte in Eu. cbn in Eu, Hj. by rewrite Hj, andb_false_r in Eu.
Qed.

Lemma drop_ptes_spec i e n t fuel : forall pteno npte x s,
  vm_ok g s -> envs (vm_et s) !! i = Some e -> vm_pds s !! env_pd e = Some x -> upde n ->
  tst (pde_at x (envpd_active x) n) PG_P = true -> Z.shiftr (pde_at x (envpd_active x) n) PGSHIFT = t ->
  npte = kcount (intab g t) (vm_pts s) -> 0 <= pteno -> NLPG <= pteno + Z.of_nat fuel ->
  (forall j, 0 <= j < pteno -> tst (pte_at s (t, j)) PG_P = false) ->
  wp (drop_ptes fuel i n t pteno npte) s (fun _ s' => vm_ok g s' /\ kcount (intab g t) (vm_pts s') = 0 /\
    exists x', emptied (env_pd e) x x' s s').
Proof.
  induction fuel as [|fuel IH]; intros pteno npte x s Hi He Hx Hn HP Ht Hc Hp0 Hf Hlow.
  { assert (npte = 0) as -> by (rewrite Hc; apply table_empty; [done|]; intros j Hj; apply Hlow; lia).
    apply wp_ret. split; [done|]. split; [done|]. exists x. by apply emptied_refl. }
  cbn [drop_ptes]. destruct (Z.eqb_spec npte 0) as [E0|E0].
  { apply wp_ret. split; [done|]. split; [lia|]. exists x. by apply emptied_refl. }
  destruct (Z.lt_ge_cases pteno NLPG) as [Hlt|Hge].
  2: { destruct E0. rewrite Hc. apply table_empty; [done|]. intros j Hj. apply Hlow. lia. }
  apply wp_bind, wp_gets. change (default 0 (vm_pts s !! (t, pteno))) with (pte_at s (t, pteno)).
  destruct (va_at_parts n pteno (upde_range n Hn) ltac:(lia)) as (V1 & V2 & V3).
  assert (pt_get_ptep x (va_at n pteno) = (t, pteno)) as Ek by (unfold pt_get_ptep, va_pde; by rewrite V2, V3, Ht).
  destruct (tst (pte_at s (t, pteno)) PG_P) eqn:EP.
  - apply wp_bind. eapply wp_mono; [eapply (remove_emptied i e x (va_at n pteno)); try done; [split; [done|by rewrite V2]|]|].
    { unfold va_pde. by rewrite V2. }
    intros r s1 (Hi1 & Epts & x1 & Hem). rewrite Ek in Epts. pose proof (em_dir _ _ _ _ _ Hem) as Hd.
    pose proof (present_in n t _ x s pteno Hi Hx Hn HP Ht) as Hin. rewrite EP in Hin.
    assert (envpd_active x1 = envpd_active x) as Ea by apply Hd.
    eapply wp_mono; [apply (IH (pteno + 1) (npte - 1) x1 s1); try done; try lia|].
    + by rewrite (em_et _ _ _ _ _ Hem).
    + rewrite (em_pds _ _ _ _ _ Hem). apply lookup_insert_eq.
    + by rewrite Ea, (same_dir_pde _ _ _ _ Hd).
    + by rewrite Ea, (same_dir_pde _ _ _ _ Hd).
    + rewrite (intab_write g t (t, pteno) 0 s s1 Epts), Hin, intab_0. cbn. lia.
    + intros j Hj. unfold pte_at. rewrite Epts. destruct (decide (j = pteno)) as [->|Hne]; [by rewrite lookup_insert_eq|].
      rewrite lookup_insert_ne by congruence. apply Hlow. lia.
    + intros _ s2 (Hi2 & Hz & x2 & Hem2). split; [done|]. split; [done|]. exists x2. by eapply emptied_trans.
  - eapply wp_mono; [apply (IH (pteno + 1) npte x s); try done; try lia|done].
    intros j Hj. destruct (decide (j = pteno)) as [->|Hne]; [done|]. apply Hlow. lia.
Qed.

(** ** Taking the tables down *)

Context (i : Z) (e : Env) (d : Z) (xA : EnvPD) (s0 : vm).
Context (He : envs (vm_et s0) !! i = Some e) (Hd : env_pd e = d) (HxA : vm_pds s0 !! d = Some xA).
Context (Hopen : g_open g d = true).

Definition act := envpd_active xA.
Definition down : vm -> vm := ov d (envpd_pdir xA) 0.

(** Below the overlay: the tables of the entries [l] are left. *)
Record stage (l : list Z) (s : vm) (x : EnvPD) : Prop := mkStage {
  sg_ok : vm_ok g s;
  sg_pds : vm_pds s = <[d := x]> (vm_pds s0);
  sg_act : envpd_active x = act;
  sg_cr3 : envpd_cr3 x = envpd_cr3 xA;
  sg_rc : envpd_rc x = envpd_rc xA;
  sg_left : forall n, n ∈ l \/ ~ upde n -> pde_at x act n = pde_at xA act n;
  sg_done : forall n, upde n -> n ∉ l -> tst (pde_at x act n) PG_P = false;
  sg_et : vm_et s = vm_et s0;
  sg_heap : vm_heap s = vm_heap s0;
  sg_acl : acl_from s0 s;
  sg_vps : forall a, vm_vps s0 !! a = None -> vm_vps s !! a = None;
  sg_pin : forall q, pins s q = pins s0 q;
  sg_free : keeps_free s0 s;
  sg_gone : forall n, upde n -> n ∉ l -> tst (pde_at xA act n) PG_P = true -> is_free s (Z.shiftr (pde_at xA act n) PGSHIFT) }.

Lemma stage_dir l s x : stage l s x -> vm_pds s !! d = Some x.
Proof. intros []. rewrite sg_pds0. apply lookup_insert_eq. Qed.

Lemma down_dir s x : vm_pds s !! d = Some x -> vm_pds (down s) !! d = Some (re (envpd_pdir xA) 0 x).
Proof. intros Hx. unfold down, ov. cbn. by rewrite lookup_alter_eq, Hx. Qed.

Lemma pde_above x n : envpd_active x = act -> pde_at (re (envpd_pdir xA) 0 x) (envpd_active x) n = pde_at xA act n.
Proof. intros ->. done. Qed.

Lemma stage_next n l s x : stage (n :: l) s x -> ~ upde n \/ tst (pde_at x act n) PG_P = false -> stage l s x.
Proof.
  intros [] Hn. split; try done.
  - intros m [Hm|Hm]; apply sg_left0; [left; by right|by right].
  - intros m Hu Hm. destruct (decide (m = n)) as [->|Hne]; [by destruct Hn|]. apply sg_done0; [done|]. by intros [?|?]%elem_of_cons.
  - intros m Hu Hm HP. destruct (decide (m = n)) as [->|Hne]; [|apply sg_gone0; [done|by intros [?|?]%elem_of_cons|done]].
    destruct Hn as [?|Hn]; [done|]. rewrite sg_left0 in Hn by (left; left). congruence.
Qed.

Lemma upde_skip n : 0 <= n < PDENO ULIM -> ((PDENO UTOP <=? n) && (n <? PDENO UADDRS)) = negb (bool_decide (upde n)).
Proof.
  assert (PDENO ULIM = PDENO UADDRS + 1 /\ PDENO UTOP < PDENO UADDRS) as [E1 E2] by (by vm_compute). intros Hn.
  unfold upde, NUPDE. destruct (Z.leb_spec (PDENO UTOP) n), (Z.ltb_spec n (PDENO UADDRS)); cbn; case_bool_decide; cbn; try done; lia.
Qed.

Lemma comm_drop_ptes n t fuel : forall pteno npte,
  0 <= n < 1024 -> 0 <= pteno -> pteno + Z.of_nat fuel <= NLPG ->
  comm d (envpd_pdir xA) 0 (agree d (envpd_pdir xA) 0 n) (drop_ptes fuel i n t pteno npte).
Proof.
  induction fuel as [|fuel IH]; intros pteno npte Hn Hp Hf; cbn [drop_ptes]; destruct (npte =? 0); [apply comm_ret|by intros s HP|apply comm_ret|].
  apply comm_bind; [by apply comm_gets|]. intros pte. destruct (tst pte PG_P); [|apply IH; lia].
  apply comm_bind; [|intros _; apply IH; lia]. destruct (va_at_parts n pteno Hn ltac:(lia)) as (_ & E & _).
  pose proof (comm_remove d (envpd_pdir xA) 0 i (va_at n pteno)) as Hc. rewrite E in Hc. exact Hc.
Qed.

Lemma nptes_count s x n : vm_ok g s -> vm_pds s !! d = Some x -> upde n -> tst (pde_at x (envpd_active x) n) PG_P = true ->
  nptes_at x n = kcount (intab g (Z.shiftr (pde_at x (envpd_active x) n) PGSHIFT)) (vm_pts s) /\ 0 <= nptes_at x n <= NLPG.
Proof.
  intros Hi Hx Hn HP. pose proof (do_nptes _ _ _ (vi_dirs _ _ _ _ Hi d x Hx) n Hn) as E. cbv zeta in E. rewrite HP in E.
  split; [done|]. rewrite E. pose proof (intab_bound g _ _ s (Z.shiftr (pde_at x (envpd_active x) n) PGSHIFT) Hi).
  pose proof (kcount_nonneg (intab g (Z.shiftr (pde_at x (envpd_active x) n) PGSHIFT)) (vm_pts s)). lia.
Qed.

(** The table itself goes back to the pool. *)
Lemma free_table_stage n l x s x1 s1 :
  stage (n :: l) s x -> NoDup (n :: l) -> upde n -> tst (pde_at x act n) PG_P = true -> vm_ok g s1 -> emptied d x x1 s s1 ->
  kcount (intab g (Z.shiftr (pde_at x act n) PGSHIFT)) (vm_pts s1) = 0 ->
  wp (in_pool (ppage_free (Z.shiftr (pde_at x act n) PGSHIFT))) (down s1) (fun _ s' => exists s2 x2, s' = down s2 /\ stage l s2 x2).
Proof.
  intros Hsg Hnd Hn HP Hi1 Hem Hz. pose proof Hsg as []. destruct Hem as [Ep1 Hsd Eet1 Eh1 Ea1 Ev1 En1 Ef1].
  assert (vm_pds s1 !! d = Some x1) as Hx1 by (rewrite Ep1; apply lookup_insert_eq).
  assert (envpd_active x1 = act) as Ea by (rewrite (proj1 (proj2 (proj2 Hsd))); done).
  assert (forall m, pde_at x1 act m = pde_at x act m) as Epde by (intros m; by apply same_dir_pde).
  set (t := Z.shiftr (pde_at x act n) PGSHIFT) in *.
  assert (has_table s1 d n t) as Ht by (exists x1; rewrite Ea, Epde; done).
  destruct (vi_tab _ _ _ _ Hi1 d n t Ht) as (_ & pt & Hpt & Hst & Href).
  apply wp_zoom. eapply ppage_free_run; [exact Hpt|exact Href|]. cbn [Z.eqb].
  set (s2 := set_pds (<[d := pde_set act n 0 x1]> (vm_pds s1)) (set_pool (freed t pt (vm_pool s1)) s1)).
  exists s2, (pde_set act n 0 x1). split.
  { unfold down, ov, s2, set_pds, set_pool. cbn. f_equal. rewrite alter_insert_eq. apply map_eq. intros q.
    destruct (decide (d = q)) as [<-|Hne]; [by rewrite lookup_alter_eq, Hx1, lookup_insert_eq|by rewrite lookup_alter_ne, lookup_insert_ne]. }
  assert (ppages (vm_pool s2) = <[t := pp_set_status PP_FREE (pp_set_u PLink pt)]> (ppages (vm_pool s1))) as Epp
    by apply (proj1 (freed_ppages t pt (vm_pool s1))).
  assert (keeps_free s1 s2) as Hfr.
  { intros q (pq & Hq & Hs). unfold is_free. rewrite Epp. destruct (decide (t = q)) as [<-|Hne]; [rewrite lookup_insert_eq; eauto|].
    rewrite lookup_insert_ne by done. eauto. }
  apply NoDup_cons in Hnd as [Hnl Hnd]. destruct Hsd as (D1 & D2 & D3 & D4 & D5).
  split; try done; try congruence.
  - unfold s2. rewrite <- Ea. eapply untable_inv; try done; [by right|].
    destruct (nptes_count s1 x1 n Hi1 Hx1 Hn) as [-> _]; rewrite Ea, Epde; [done|]. fold t. lia.
  - cbn. by rewrite Ep1, sg_pds0, !insert_insert_eq.
  - cbn. congruence.
  - cbn. congruence.
  - intros m Hm. rewrite pde_at_set. destruct (decide _) as [[_ <-]|Hne].
    + destruct Hm; done.
    + rewrite Epde. apply sg_left0. destruct Hm; [left; by right|by right].
  - intros m Hu Hm. rewrite pde_at_set. destruct (decide _) as [|Hne]; [done|]. rewrite Epde. apply sg_done0; [done|].
    intros [->|?]%elem_of_cons; [by destruct Hne|done].
  - cbn. congruence.
  - cbn. congruence.
  - eapply acl_from_trans; [exact sg_acl0|]. eapply acl_from_trans; [exact Ea1|]. intros q pq Hq. left. rewrite Epp in Hq.
    destruct (decide (t = q)) as [<-|Hne]; [rewrite lookup_insert_eq in Hq; injection Hq as <-; by exists pt|].
    rewrite lookup_insert_ne in Hq by done. eauto.
  - cbn. auto.
  - intros q. rewrite <- sg_pin0, <- En1. unfold pins. rewrite Epp.
    destruct (decide (t = q)) as [<-|Hne]; [by rewrite lookup_insert_eq, Hpt|by rewrite lookup_insert_ne].
  - intros q Hq. by apply Hfr, Ef1, sg_free0.
  - intros m Hu Hm HPm. destruct (decide (m = n)) as [->|Hne].
    + rewrite <- (sg_left0 n) by (left; left). fold t. exists (pp_set_status PP_FREE (pp_set_u PLink pt)). by rewrite Epp, lookup_insert_eq.
    + apply Hfr, Ef1, sg_gone0; [done|by intros [?|?]%elem_of_cons|done].
Qed.

Lemma drop_table_stage n l s x :
  0 <= n < PDENO ULIM -> NoDup (n :: l) -> stage (n :: l) s x ->
  wp (drop_table i d n) (down s) (fun _ s' => exists s2 x2, s' = down s2 /\ stage l s2 x2).
Proof.
  intros Hn Hnd Hsg. unfold drop_table. rewrite upde_skip by done. case_bool_decide as Hu; cbn [negb].
  2: { apply wp_ret. exists s, x. split; [done|]. eapply stage_next; [done|by left]. }
  pose proof (stage_dir _ _ _ Hsg) as Hx. apply wp_bind, wp_get_pd. exists (re (envpd_pdir xA) 0 x). split; [by apply down_dir|].
  change (envpd_active (re _ _ x)) with (envpd_active x). rewrite pde_above by apply Hsg.
  rewrite <- (sg_left _ _ _ Hsg n) by (left; left). cbv zeta. destruct (tst (pde_at x act n) PG_P) eqn:HP; cbn [negb].
  2: { apply wp_ret. exists s, x. split; [done|]. eapply stage_next; [done|by right]. }
  change (nptes_at (re _ _ x) n) with (nptes_at x n). pose proof (sg_act _ _ _ Hsg) as Ea.
  destruct (nptes_count s x n (sg_ok _ _ _ Hsg) Hx Hu) as [Ec Hc]; [by rewrite Ea|]. rewrite Ea in Ec.
  rewrite u32_small by (unfold NLPG in Hc; lia). rewrite (proj2 (Z.ltb_ge _ _)) by lia. apply wp_bind.
  eapply wp_mono.
  { eapply comm_wp; [apply comm_drop_ptes; [by apply upde_range|lia|done]|..].
    - intros y Hy. assert (y = x) as -> by congruence. rewrite pde_above by done. rewrite Ea. symmetry. apply (sg_left _ _ _ Hsg). left. left.
    - eapply (drop_ptes_spec i e n _ _ 0 (nptes_at x n) x s); try done; rewrite ?Ea, ?Hd; try done; try lia.
      + apply Hsg.
      + by rewrite (sg_et _ _ _ Hsg). }
  intros [] s' (s1 & -> & _ & Hi1 & Hz & x1 & Hem). rewrite Hd in Hem. by eapply free_table_stage.
Qed.

(** All the tables: from the directory without references to the one without
    tables of its own. *)
Lemma drop_tables_run :
  vm_ok g s0 ->
  wp (mfor (drop_table i d) (zseq 0 (Z.to_nat (PDENO ULIM)))) (down s0) (fun _ s' => exists s x, s' = down s /\ stage [] s x).
Proof.
  intros Hi. set (N := Z.to_nat (PDENO ULIM)).
  assert (forall n, upde n -> ~ (n ∉ zseq 0 N)) as Hall.
  { intros n Hn Hnot. destruct Hnot. apply zseq_elem. unfold N. rewrite Z2Nat.id by (by vm_compute).
    assert (NUPDE <= PDENO ULIM /\ 0 <= PDENO UADDRS < PDENO ULIM) as [? ?] by (by vm_compute). destruct Hn as [?| ->]; lia. }
  apply (wp_mfor _ _ _ (fun l s' => NoDup l /\ (forall n, n ∈ l -> 0 <= n < PDENO ULIM) /\ exists s x, s' = down s /\ stage l s x)).
  - split; [apply zseq_NoDup|]. split.
    + intros n Hn. apply zseq_elem in Hn. unfold N in Hn. assert (0 <= PDENO ULIM) by (by vm_compute). lia.
    + exists s0, xA. split; [done|]. split; try done.
      * by rewrite insert_id.
      * intros n Hn Hnot. destruct (Hall n Hn Hnot).
      * apply acl_from_refl.
      * by intros q.
      * intros n Hn Hnot. destruct (Hall n Hn Hnot).
  - intros n l s' (Hnd & Hr & s & x & -> & Hsg). eapply wp_mono; [eapply drop_table_stage; try done; apply Hr; left|].
    intros u s'' H. split; [by apply NoDup_cons in Hnd as [? ?]|]. split; [|done]. intros m Hm. apply Hr. by right.
  - intros s' (_ & _ & H). done.
Qed.
End take_down.
