(* ===== verification/EnvSafe.v ===== *)
(** * Creating and destroying keep the memory system safe

    The invariant of the memory system through the life of an environment: what
    [env_alloc], [env_clone], [env_free] and [kill_env] of EnvLife do to page
    tables, directories and the page pool.  The steps of an operation leave the
    directory under construction or destruction out of step with the
    environments; each is proved to keep the invariant for a [ghost] that says
    how far, and the operation ends with nothing left over. *)

From Stdlib Require Import ZArith Lia.
From stdpp Require Import base numbers option list gmap relations.
From S2P Require Import Prelude Capability EnvTable PageState PageAlloc PageTable Pmap EnvLife.

(** ** Directories and environments change *)

(** The same tables, counts and directory page. *)
Definition same_walk (x x' : EnvPD) : Prop :=
  envpd_active x' = envpd_active x /\ envpd_cr3 x' = envpd_cr3 x /\ envpd_nptes x' = envpd_nptes x /\
  forall n, upde n -> pde_at x' (envpd_active x) n = pde_at x (envpd_active x) n.

Definition no_tables (x : EnvPD) : Prop := forall n, upde n -> tst (pde_at x (envpd_active x) n) PG_P = false.

Lemma same_walk_refl x : same_walk x x.
Proof. done. Qed.

Section change.
Context (g g' : ghost) (s : vm) (et : envtab) (pds : gmap Z EnvPD).
Context (Hi : vm_ok g s) (Htabs : g_tabs g' = g_tabs g).
Let s' := set_et et (set_pds pds s).

Context (Hpds : forall d x', pds !! d = Some x' ->
  0 < envpd_rc x' /\ ((exists x, vm_pds s !! d = Some x /\ same_walk x x') \/ dir_ok g s x' /\ no_tables x')).

Lemma change_back d n t : has_table s' d n t -> has_table s d n t.
Proof.
  intros (x' & Hx' & Hn & HP & Ht). destruct (Hpds d x' Hx') as [_ [(x & Hx & Ea & _ & _ & E)|[_ Hno]]].
  - exists x. rewrite Ea in HP, Ht. rewrite <- (E n Hn). done.
  - by rewrite (Hno n Hn) in HP.
Qed.

Lemma vm_ok_change :
  (forall d n t, has_table s d n t -> 0 < kcount (intab g t) (vm_pts s) -> is_Some (pds !! d)) ->
  (forall d x x', vm_pds s !! d = Some x -> pds !! d = Some x' -> same_walk x x') ->
  (forall i e, envs et !! i = Some e -> env_status e <> ENV_FREE -> is_Some (pds !! env_pd e)) ->
  (forall i, curenv et = Some i -> exists e, envs et !! i = Some e /\ env_status e <> ENV_FREE) ->
  spaces_ok g' s' -> vm_ok g' s'.
Proof.
  intros Hlive Hsame Henv Hcur Hsp.
  assert (upte g' = upte g) as Eu by (unfold upte; by rewrite Htabs).
  assert (forall p, maps g' p = maps g p) as Em by (intros p; unfold maps; by rewrite Eu).
  assert (forall p, wmaps g' p = wmaps g p) as Ew by (intros p; unfold wmaps; by rewrite Em).
  assert (forall t, intab g' t = intab g t) as Et by (intros p; unfold intab; by rewrite Eu).
  split; try done; try apply Hi.
  - intros p pp Hp. unfold nmaps, nwmaps. rewrite Em, Ew. by apply (vi_pages _ _ _ _ Hi).
  - intros d x' Hx'. destruct (Hpds d x' Hx') as [Hrc [(x & Hx & Ea & Ec & En & E)|[[A B C D F] _]]].
    + destruct (vi_dirs _ _ _ _ Hi d x Hx) as [R A C D N]. split; rewrite ?Ea; try done.
      * intros r. unfold cr3_at. rewrite Ec. apply C.
      * intros n Hn. rewrite E by done. by apply D.
      * intros n Hn. cbv zeta. change (vm_pts s') with (vm_pts s). rewrite E by done. unfold nptes_at. rewrite En, Et. by apply N.
    + split; try done. intros n Hn. cbv zeta. change (vm_pts s') with (vm_pts s). rewrite Et. by apply F.
  - intros d n t H'%change_back. destruct (vi_tab _ _ _ _ Hi d n t H') as (? & pp & ?). rewrite Htabs. eauto.
  - intros d1 n1 d2 n2 t H1%change_back H2%change_back. by eapply (vi_inj _ _ _ _ Hi).
  - intros k w Hk Hu. rewrite Eu in Hu. destruct (vi_live _ _ _ _ Hi k w Hk Hu) as ((d & n & H') & H2). split; [|done].
    destruct (Hlive d n (fst k) H') as [x' Hx'].
    { eapply kcount_pos; [exact Hk|]. unfold intab. rewrite Hu. cbn. apply Z.eqb_refl. }
    destruct H' as (x & Hx & Hn & HP & Ht). destruct (Hsame d x x' Hx Hx') as (Ea & _ & _ & E).
    exists d, n, x'. rewrite Ea, (E n Hn). done.
  - intros t Ht. rewrite Htabs in Ht. by apply (vi_ktab _ _ _ _ Hi).
Qed.

(** The pages of directories that were there. *)
Lemma own_change d x' q :
  (forall d' x, vm_pds s !! d' = Some x -> forall y, pds !! d' = Some y -> own_pages y = own_pages x) ->
  pds !! d = Some x' -> is_Some (vm_pds s !! d) -> q ∈ own_pages x' -> kernel_page s' q /\ forall d' n, ~ has_table s' d' n q.
Proof.
  intros Hown Hx' [x Hx] Hq. rewrite (Hown d x Hx x' Hx') in Hq.
  destruct (sp_own _ _ _ _ (proj1 (vi_spaces _ _ _ _ Hi) d x Hx) q Hq) as [Hk Hn]. split; [done|]. intros d' n H'%change_back. by eapply Hn.
Qed.
End change.

(** ** Ghosts of the steps *)

(** Between operations; and with [k] references to directory [d] more than
    environments in use account for. *)
Definition closed (T : gset Z) : ghost := mkGhost T (fun _ => 0) (fun _ => false).
Definition opened (T : gset Z) (d k : Z) : ghost := mkGhost T (fun q => if q =? d then k else 0) (Z.eqb d).

Lemma vm_ok_reghost g g' s :
  vm_ok g s -> g_tabs g' = g_tabs g ->
  (forall d x, vm_pds s !! d = Some x -> g_rc g' d = g_rc g d /\ (g_open g' d = false -> tst (uaddrs_pde x) PG_P = true)) ->
  vm_ok g' s.
Proof.
  intros Hi Ht Hd. replace s with (set_et (vm_et s) (set_pds (vm_pds s) s)) by (by destruct s).
  apply (vm_ok_change g); try done.
  - intros d x Hx. split; [by apply (vi_dirs _ _ _ _ Hi d x Hx)|]. left. exists x. done.
  - intros d n t (x & Hx & _) _. eauto.
  - intros d x x' Hx Hx'. by assert (x' = x) as -> by congruence.
  - apply Hi.
  - apply Hi.
  - destruct (vi_spaces _ _ _ _ Hi) as [S1 S2]. split; [|done]. intros d x Hx. destruct (S1 d x Hx) as [A B C D E F].
    destruct (Hd d x Hx) as [Hr Ho]. split; rewrite ?Ht, ?Hr; done.
Qed.

Lemma open_dir T d s : vm_ok (closed T) s -> vm_ok (opened T d 0) s.
Proof.
  intros Hi. eapply vm_ok_reghost; [exact Hi|done|]. intros d' x Hx. cbn. split; [by destruct (d' =? d)|]. intros _.
  by apply (sp_utab _ _ _ _ (proj1 (vi_spaces _ _ _ _ Hi) d' x Hx)).
Qed.

Lemma close_dir T d s :
  vm_ok (opened T d 0) s -> (forall x, vm_pds s !! d = Some x -> tst (uaddrs_pde x) PG_P = true) -> vm_ok (closed T) s.
Proof.
  intros Hi Hd. eapply vm_ok_reghost; [exact Hi|done|]. intros d' x Hx. cbn. split; [by destruct (d' =? d)|]. intros _.
  destruct (Z.eqb_spec d d') as [<-|Hne]; [by apply Hd|].
  apply (sp_utab _ _ _ _ (proj1 (vi_spaces _ _ _ _ Hi) d' x Hx)). cbn. by apply Z.eqb_neq.
Qed.

(** ** One environment *)

Definition put (i : Z) (e : Env) (et : envtab) : envtab := set_envs (<[i := e]> (envs et)) et.
(** The environment is gone; the processor no longer runs it. *)
Definition bury (i : Z) (e : Env) (et : envtab) : envtab :=
  set_curenv (if bool_decide (curenv et = Some i) then None else curenv et) (put i e et).

Lemma nlive_put d i e e' et :
  envs et !! i = Some e -> nlive d (put i e' et) = nlive d et - b2z (uses d (i, e)) + b2z (uses d (i, e')).
Proof.
  intros He. unfold nlive. cbn. rewrite (kcount_delete _ _ i e He), (kcount_delete _ (<[i:=e']> (envs et)) i e') by apply lookup_insert_eq.
  rewrite delete_insert_eq. lia.
Qed.

Lemma uses_pd d i e : uses d (i, e) = true -> env_pd e = d.
Proof. unfold uses. cbn. intros [_ H%Z.eqb_eq]%andb_true_iff. done. Qed.

Lemma uses_free d i e : env_status e = ENV_FREE -> uses d (i, e) = false.
Proof. unfold uses. cbn. by intros ->. Qed.

Lemma uses_other d i e : env_pd e <> d -> uses d (i, e) = false.
Proof. unfold uses. cbn. intros H%Z.eqb_neq. rewrite H. apply andb_false_r. Qed.

Lemma nlive_others d i e et j ej :
  envs et !! i = Some e -> nlive d et = b2z (uses d (i, e)) -> envs et !! j = Some ej -> j <> i -> env_status ej <> ENV_FREE -> env_pd ej <> d.
Proof.
  intros He Hn Hj Hne Hs Hd. unfold nlive in Hn. rewrite (kcount_delete _ _ i e He) in Hn.
  assert (kcount (uses d) (delete i (envs et)) = 0) as Hz by lia.
  pose proof (proj1 (kcount_zero _ _) Hz j ej) as Hf. rewrite lookup_delete_ne in Hf by done. specialize (Hf Hj).
  unfold uses in Hf. cbn in Hf. rewrite Hd, Z.eqb_refl, andb_true_r in Hf. by apply negb_false_iff, Z.eqb_eq in Hf.
Qed.

(** A record changes and is in use for the same directory as before, or not in
    use as before. *)
Lemma put_inv g i e e' s :
  vm_ok g s -> envs (vm_et s) !! i = Some e -> (env_status e' = ENV_FREE <-> env_status e = ENV_FREE) ->
  (env_status e = ENV_FREE \/ env_pd e' = env_pd e) -> vm_ok g (set_et (put i e' (vm_et s)) s).
Proof.
  intros Hi He Hst Hpd.
  assert (forall d, uses d (i, e') = uses d (i, e)) as Eu.
  { intros d. destruct (decide (env_status e = ENV_FREE)) as [Hf|Hf].
    - rewrite !uses_free; [done|done|by apply Hst].
    - destruct Hpd as [?| Ep]; [done|]. unfold uses. cbn. rewrite Ep. do 2 f_equal.
      destruct (Z.eqb_spec (env_status e') ENV_FREE), (Z.eqb_spec (env_status e) ENV_FREE); tauto. }
  replace (set_et (put i e' (vm_et s)) s) with (set_et (put i e' (vm_et s)) (set_pds (vm_pds s) s)) by (by destruct s).
  apply (vm_ok_change g); try done.
  - intros d x Hx. split; [by apply (vi_dirs _ _ _ _ Hi d x Hx)|]. left. exists x. done.
  - intros d n t (x & Hx & _) _. eauto.
  - intros d x x' Hx Hx'. by assert (x' = x) as -> by congruence.
  - intros j ej Hj Hs. cbn in Hj. destruct (decide (i = j)) as [<-|Hne].
    + rewrite lookup_insert_eq in Hj. injection Hj as <-. destruct Hpd as [Hf| ->]; [by apply Hst in Hf|].
      apply (vi_env _ _ _ _ Hi i e He). by rewrite <- Hst.
    + rewrite lookup_insert_ne in Hj by done. by apply (vi_env _ _ _ _ Hi j ej).
  - intros j Hj. destruct (vi_cur _ _ _ _ Hi j Hj) as (ej & Hej & Hs). cbn. destruct (decide (i = j)) as [<-|Hne].
    + exists e'. rewrite lookup_insert_eq. split; [done|]. rewrite Hst. congruence.
    + exists ej. by rewrite lookup_insert_ne.
  - destruct (vi_spaces _ _ _ _ Hi) as [S1 S2]. split; [|done]. intros d x Hx. destruct (S1 d x Hx) as [A B C D E F]. split; try done.
    cbn. rewrite (nlive_put d i e e' (vm_et s) He), Eu. lia.
Qed.

(** One directory changes and keeps its tables; it may get one more page of its
    own. *)
Lemma redir_inv g g' et d x x' s :
  vm_ok g s -> g_tabs g' = g_tabs g -> vm_pds s !! d = Some x -> same_walk x x' -> 0 < envpd_rc x' ->
  (forall j ej, envs et !! j = Some ej -> env_status ej <> ENV_FREE -> is_Some (vm_pds s !! env_pd ej)) ->
  (forall j, curenv et = Some j -> exists ej, envs et !! j = Some ej /\ env_status ej <> ENV_FREE) ->
  envpd_rc x' = nlive d et + g_rc g' d ->
  (forall d' y, d' <> d -> vm_pds s !! d' = Some y -> nlive d' et + g_rc g' d' = nlive d' (vm_et s) + g_rc g d') ->
  (forall d' y, vm_pds s !! d' = Some y -> g_open g' d' = false -> tst (uaddrs_pde y) PG_P = true) ->
  (forall q, q ∈ own_pages x' -> q ∈ own_pages x \/ kernel_page s q /\ (forall d n, ~ has_table s d n q) /\
     forall d' y, vm_pds s !! d' = Some y -> q ∉ own_pages y) ->
  NoDup (own_pages x') -> (forall q, q ∈ uaddr_tab x' -> q ∈ g_tabs g) ->
  vm_ok g' (set_et et (set_pds (<[d := x']> (vm_pds s)) s)).
Proof.
  intros Hi Htabs Hx Hw Hrc Henv Hcur Hn Hno Ho Hown Hnd Hua. pose proof Hw as (Ea & Ec & En & Ep).
  assert (forall d' y', <[d := x']> (vm_pds s) !! d' = Some y' -> d' = d /\ y' = x' \/ d' <> d /\ vm_pds s !! d' = Some y') as Hback.
  { intros d' y' Hy'. destruct (decide (d = d')) as [<-|Hne].
    - rewrite lookup_insert_eq in Hy'. injection Hy' as <-. by left.
    - rewrite lookup_insert_ne in Hy' by done. by right. }
  assert (forall d' y', <[d := x']> (vm_pds s) !! d' = Some y' ->
    0 < envpd_rc y' /\ ((exists y, vm_pds s !! d' = Some y /\ same_walk y y') \/ dir_ok g s y' /\ no_tables y')) as Hold.
  { intros d' y' Hy'. destruct (Hback d' y' Hy') as [[-> ->]|[_ Hy]]; [split; [done|]; left; by exists x|].
    split; [by apply (vi_dirs _ _ _ _ Hi d' y' Hy)|]. left. by exists y'. }
  apply (vm_ok_change g); try done.
  - intros d' n t (y & Hy & _) _. destruct (decide (d = d')) as [<-|Hne]; [rewrite lookup_insert_eq; eauto|by rewrite lookup_insert_ne, Hy].
  - intros d' y y' Hy Hy'. destruct (Hback d' y' Hy') as [[-> ->]|[_ Hy2]]; [by assert (y = x) as -> by congruence|].
    by assert (y' = y) as -> by congruence.
  - intros j ej Hj Hs. destruct (Henv j ej Hj Hs) as [y Hy].
    destruct (decide (d = env_pd ej)) as [->|]; [rewrite lookup_insert_eq; eauto|rewrite lookup_insert_ne by done; eauto].
  - destruct (vi_spaces _ _ _ _ Hi) as [S1 S2]. pose proof (S1 d x Hx) as Sx. split.
    + intros d' y' Hy'. destruct (Hback d' y' Hy') as [[-> ->]|[Hne Hy]].
      * split; rewrite ?Htabs; try done.
        -- intros q Hq. assert (kernel_page s q /\ forall d2 n, ~ has_table s d2 n q) as [Hk Hnt].
           { destruct (Hown q Hq) as [H|(? & ? & _)]; [by apply (sp_own _ _ _ _ Sx q H)|done]. }
           split; [done|]. intros d2 n H%(change_back g s et _ Hold). by eapply Hnt.
        -- unfold dirpage, cr3_at. rewrite Ea, Ec. apply (sp_dir _ _ _ _ Sx).
        -- intros H. unfold uaddrs_pde. rewrite Ea, Ep by (by right). by apply (Ho d x Hx).
      * destruct (S1 d' y' Hy) as [A B C D E F]. split; rewrite ?Htabs; try done; [cbn; by rewrite A, <- (Hno d' y')| |by apply (Ho d' y' Hy)].
        intros q Hq. destruct (B q Hq) as [Hk Hnt]. split; [done|]. intros d2 n H%(change_back g s et _ Hold). by eapply Hnt.
    + intros d1 d2 y1 y2 q Hy1 Hy2 Hq1 Hq2. destruct (Hback d1 y1 Hy1) as [[-> ->]|[Hn1 Hy1']], (Hback d2 y2 Hy2) as [[-> ->]|[Hn2 Hy2']]; try done.
      * destruct (Hown q Hq1) as [H|(_ & _ & H)]; [by eapply S2|by destruct (H d2 y2 Hy2')].
      * destruct (Hown q Hq2) as [H|(_ & _ & H)]; [by eapply S2|by destruct (H d1 y1 Hy1')].
      * by eapply S2.
Qed.

(** An environment goes and its directory has other users. *)
Lemma leave_inv T d k i e e' x s :
  vm_ok (opened T d k) s -> envs (vm_et s) !! i = Some e -> env_pd e = d -> vm_pds s !! d = Some x -> b2z (uses d (i, e)) + k = 1 ->
  1 < envpd_rc x -> env_status e' = ENV_FREE ->
  vm_ok (opened T d 0) (set_et (bury i e' (vm_et s)) (set_pds (<[d := set_rc (envpd_rc x - 1) x]> (vm_pds s)) s)).
Proof.
  intros Hi He Hd Hx Hu Hrc Hf. pose proof (proj1 (vi_spaces _ _ _ _ Hi) d x Hx) as [A B C D E F].
  assert (forall d', nlive d' (bury i e' (vm_et s)) = nlive d' (vm_et s) - b2z (uses d' (i, e))) as Hnl.
  { intros d'. change (nlive d' (bury i e' (vm_et s))) with (nlive d' (put i e' (vm_et s))). rewrite (nlive_put d' i e e' _ He), (uses_free d' i e' Hf). cbn. lia. }
  apply (redir_inv (opened T d k) _ _ d x); try done; cbn [envpd_rc set_rc]; try lia.
  - intros j ej Hj Hs. cbn in Hj. destruct (decide (i = j)) as [<-|Hne].
    + rewrite lookup_insert_eq in Hj. by injection Hj as <-.
    + rewrite lookup_insert_ne in Hj by done. by apply (vi_env _ _ _ _ Hi j ej).
  - intros j Hj. cbn in Hj |- *. case_bool_decide as Hc; [done|]. destruct (vi_cur _ _ _ _ Hi j Hj) as (ej & Hej & Hs).
    exists ej. rewrite lookup_insert_ne by congruence. done.
  - rewrite Hnl, A. cbn. rewrite Z.eqb_refl. lia.
  - intros d' y Hne Hy. rewrite Hnl, (uses_other d' i e) by congruence. cbn. rewrite (proj2 (Z.eqb_neq d' d)) by done. lia.
  - intros d' y Hy Ho. by apply (sp_utab _ _ _ _ (proj1 (vi_spaces _ _ _ _ Hi) d' y Hy)).
  - intros q Hq. by left.
Qed.

(** The last user goes and the directory with it: it has no translations left. *)
Lemma dead_dir_inv T d k i e e' x s :
  vm_ok (opened T d k) s -> envs (vm_et s) !! i = Some e -> env_pd e = d -> vm_pds s !! d = Some x -> b2z (uses d (i, e)) + k = 1 ->
  envpd_rc x = 1 -> env_status e' = ENV_FREE -> (forall n t, has_table s d n t -> kcount (intab (opened T d k) t) (vm_pts s) = 0) ->
  vm_ok (closed T) (set_et (bury i e' (vm_et s)) (set_pds (delete d (vm_pds s)) s)).
Proof.
  intros Hi He Hd Hx Hu Hrc Hf Hempty. destruct (vi_spaces _ _ _ _ Hi) as [S1 S2].
  assert (nlive d (vm_et s) = b2z (uses d (i, e))) as Hnl.
  { pose proof (sp_rc _ _ _ _ (S1 d x Hx)) as A. cbn in A. rewrite Z.eqb_refl in A. lia. }
  assert (forall d' y', delete d (vm_pds s) !! d' = Some y' -> d' <> d /\ vm_pds s !! d' = Some y') as Hback.
  { intros d' y' [Hne ?]%lookup_delete_Some. done. }
  assert (forall d' y', delete d (vm_pds s) !! d' = Some y' ->
    0 < envpd_rc y' /\ ((exists y, vm_pds s !! d' = Some y /\ same_walk y y') \/ dir_ok (opened T d k) s y' /\ no_tables y')) as Hold.
  { intros d' y' [_ Hy]%Hback. split; [by apply (vi_dirs _ _ _ _ Hi d' y' Hy)|]. left. by exists y'. }
  apply (vm_ok_change (opened T d k)); try done.
  - intros d' n t Ht Hpos. destruct (decide (d' = d)) as [->|Hne]; [rewrite (Hempty n t Ht) in Hpos; lia|].
    rewrite lookup_delete_ne by done. destruct Ht as (y & Hy & _). eauto.
  - intros d' y y' Hy [_ Hy']%Hback. by assert (y' = y) as -> by congruence.
  - intros j ej Hj Hs. cbn in Hj. destruct (decide (i = j)) as [<-|Hne].
    + rewrite lookup_insert_eq in Hj. by injection Hj as <-.
    + rewrite lookup_insert_ne in Hj by done. rewrite lookup_delete_ne; [by apply (vi_env _ _ _ _ Hi j ej)|].
      intros E. by eapply (nlive_others d i e (vm_et s) j ej).
  - intros j Hj. cbn in Hj |- *. case_bool_decide as Hc; [done|]. destruct (vi_cur _ _ _ _ Hi j Hj) as (ej & Hej & Hs).
    exists ej. rewrite lookup_insert_ne by congruence. done.
  - split.
    + intros d' y' [Hne Hy]%Hback. destruct (S1 d' y' Hy) as [A B C D E F]. split; try done.
      * rewrite A. change (nlive d' (vm_et (set_et _ _))) with (nlive d' (put i e' (vm_et s))). cbn.
        rewrite (nlive_put d' i e e' _ He), (uses_free d' i e' Hf), (uses_other d' i e) by congruence. rewrite (proj2 (Z.eqb_neq d' d)) by done. cbn. lia.
      * intros q Hq. destruct (B q Hq) as [Hk Hnt]. split; [done|]. intros d2 n H%(change_back (opened T d k) s _ _ Hold). by eapply Hnt.
      * intros _. apply F. cbn. apply Z.eqb_neq. congruence.
    + intros d1 d2 y1 y2 q [_ H1]%Hback [_ H2]%Hback. by eapply S2.
Qed.

(** ** Pages *)

(** A page joins or leaves the kernel's tables, and is cleared. *)
Lemma retab_inv T T' R O t s :
  vm_ok (mkGhost T R O) s -> (forall q, q <> t -> q ∈ T' <-> q ∈ T) -> (forall d n, ~ has_table s d n t) ->
  (t ∈ T' -> kernel_page s t /\ forall d x, vm_pds s !! d = Some x -> dirpage x <> t) ->
  (t ∈ T' \/ forall d x, vm_pds s !! d = Some x -> t ∉ uaddr_tab x) ->
  vm_ok (mkGhost T' R O) (set_pts (filter (fun kv => fst (fst kv) <> t) (vm_pts s)) s).
Proof.
  intros Hi HT Hnt Hin Hout. set (g := mkGhost T R O) in *. set (g' := mkGhost T' R O). set (pts' := filter _ (vm_pts s)).
  assert (forall k w, fst k <> t -> upte g' (k, w) = upte g (k, w)) as Eu.
  { intros k w Hk. unfold upte. cbn. do 2 f_equal. apply bool_decide_ext. by rewrite HT. }
  assert (forall k w, vm_pts s !! k = Some w -> upte g (k, w) = true -> fst k <> t) as Hlive.
  { intros k w Hk Hu E. destruct (vi_live _ _ _ _ Hi k w Hk Hu) as ((d & n & H') & _). rewrite E in H'. by eapply Hnt. }
  assert (forall h, kcount (fun kv => upte g' kv && h kv) pts' = kcount (fun kv => upte g kv && h kv) (vm_pts s)) as Hcnt.
  { intros h. rewrite (kcount_ext _ (fun kv => upte g kv && h kv)).
    - apply kcount_filter. intros k w Hk [Hu _]%andb_true_iff. by apply (Hlive k w).
    - intros k w [Hk Hne]%map_lookup_filter_Some. by rewrite Eu. }
  assert (forall p, nmaps g' p (set_pts pts' s) = nmaps g p s) as Em by (intros p; apply Hcnt).
  assert (forall p, nwmaps g' p (set_pts pts' s) = nwmaps g p s) as Ew.
  { intros p. unfold nwmaps. rewrite (kcount_ext _ (fun kv => upte g' kv && ((Z.shiftr (snd kv) PGSHIFT =? p) && tst (snd kv) PG_W))).
    2: { intros k w _. unfold wmaps, maps. by rewrite andb_assoc. }
    cbn [vm_pts set_pts]. rewrite Hcnt. apply kcount_ext. intros k w _. unfold wmaps, maps. by rewrite andb_assoc. }
  assert (forall q, kcount (intab g' q) pts' = kcount (intab g q) (vm_pts s)) as Ei by (intros q; apply Hcnt).
  split; try done; try apply Hi.
  - intros p pp Hp. rewrite Em, Ew. by apply (vi_pages _ _ _ _ Hi).
  - intros d x Hx. destruct (vi_dirs _ _ _ _ Hi d x Hx) as [A B C D F]. split; try done.
    intros n Hn. cbv zeta. cbn [vm_pts set_pts]. rewrite Ei. by apply F.
  - intros d n q H'. destruct (vi_tab _ _ _ _ Hi d n q H') as (Hq & pp & Hp & Hs). split; [|eauto]. cbn.
    rewrite HT; [done|]. intros ->. by destruct (Hnt d n).
  - intros k w [Hk Hne]%map_lookup_filter_Some Hu. cbn in Hne. rewrite Eu in Hu by done. by apply (vi_live _ _ _ _ Hi k w Hk Hu).
  - intros q Hq. cbn in Hq. destruct (decide (q = t)) as [->|Hne]; [|apply (vi_ktab _ _ _ _ Hi); cbn; by apply HT].
    destruct (Hin Hq) as [(pp & Hp & Hs & _) _]. exists pp. split; [done|by left].
  - destruct (vi_spaces _ _ _ _ Hi) as [S1 S2]. split; [|done]. intros d x Hx. destruct (S1 d x Hx) as [A B C D E F]. split; try done.
    + cbn. intros Hd. destruct (decide (dirpage x = t)) as [<-|Hne]; [by destruct (proj2 (Hin Hd) d x Hx)|]. apply HT in Hd; done.
    + intros q Hq. cbn. destruct (decide (q = t)) as [->|Hne]; [|apply HT; [done|by apply E]].
      destruct Hout as [?|H]; [done|by destruct (H d x Hx)].
Qed.

(** A page that nothing uses goes back to the pool. *)
Lemma free_page_inv g q pq s :
  vm_ok g s -> ppages (vm_pool s) !! q = Some pq -> pp_status pq = PP_KERNEL \/ pp_status pq = PP_USER -> pp_refcnt pq = Some 0 -> unused g q s ->
  vm_ok g (set_pool (freed q pq (vm_pool s)) s).
Proof.
  intros Hi Hq Hs Hrf Hun. destruct (freed_ppages q pq (vm_pool s)) as [Epp Enp]. destruct (vi_pool _ _ _ _ Hi) as [Hpg Hbc].
  destruct (vi_pages _ _ _ _ Hi q pq Hq) as [R W U C N]. pose proof (nwmaps_le g q s).
  assert (nmaps g q s = 0) as Hr by (unfold pp_refcnt in Hrf; destruct (pp_u pq); [done|]; injection Hrf as ->; lia).
  assert (pp_status pq <> PP_FREE /\ pp_status pq <> PP_KERNRO /\ pp_status pq <> PP_INVAL) as (Hs1 & Hs2 & Hs3) by (by destruct Hs as [->| ->]).
  apply (vm_inv_change g _ _ _ _ s _ q pq (pp_set_status PP_FREE (pp_set_u PLink pq)) Hi Hq); try done; [by left| | |].
  - split; [by apply freed_pages_ok, pages_ok_open with pq|by apply freed_bc_ok].
  - split; cbn; try lia; [by intros [?|[?|?]]|constructor].
  - apply (vps_ok_sub s); [apply Hi|done|]. intros p pp Hp. cbn in Hp. rewrite Epp in Hp. destruct (decide (q = p)) as [<-|Hne].
    + rewrite lookup_insert_eq in Hp. injection Hp as <-. by left.
    + rewrite lookup_insert_ne in Hp by done. right. eauto.
Qed.

(** A free page is taken for the kernel or for the user. *)
Lemma take_page_inv g p type pf P s :
  vm_ok g s -> ppages (vm_pool s) !! p = Some pf -> pp_status pf = PP_FREE -> reclaimed p type pf (vm_pool s) P -> pool_ok P ->
  vm_ok g (set_pool P s) /\ unused g p (set_pool P s) /\ ppages P !! p = Some (initpp type pf).
Proof.
  intros Hi Hp Hs Hr Hok. pose proof (rc_ppages _ _ _ _ _ Hr) as Epp.
  assert (unused g p s) as Hun by (eapply unused_other; [exact Hi|exact Hp|rewrite Hs; by intros [?|[?|?]]]).
  destruct (free_not_table g _ _ s p pf Hi Hp Hs) as (_ & _ & Hm & Hw & _ & _). split_and!.
  - apply (vm_inv_change g _ _ _ _ s _ p pf (initpp type pf) Hi Hp); try done; [left; by rewrite Hs| |].
    + rewrite Hm, Hw. split; cbn; try done. constructor.
    + apply (vps_ok_sub s); [apply Hi|done|]. intros q pq Hq. cbn in Hq. rewrite Epp in Hq. destruct (decide (p = q)) as [<-|Hne].
      * rewrite lookup_insert_eq in Hq. injection Hq as <-. by left.
      * rewrite lookup_insert_ne in Hq by done. right. eauto.
  - by destruct Hun.
  - rewrite Epp. apply lookup_insert_eq.
Qed.

(** [held] is pinned, as often as it says. *)
Definition held_pins (held : list Z) (s : vm) : Prop :=
  forall q, q ∈ held -> exists n, pins s q = Some n /\ Z.of_nat (count_occ Z.eq_dec held q) <= n.

Lemma unpin_inv g p pp s :
  vm_ok g s -> ppages (vm_pool s) !! p = Some pp -> 0 < pp_pinned pp ->
  vm_ok g (set_pool (repinned p (pp_pinned pp - 1) pp (vm_pool s)) s) /\
  acl_from s (set_pool (repinned p (pp_pinned pp - 1) pp (vm_pool s)) s).
Proof.
  intros Hi Hp Hn. destruct (vi_pages _ _ _ _ Hi p pp Hp) as [R W U C N].
  pose proof (pg_pin _ _ (proj1 (vi_pool _ _ _ _ Hi)) p pp Hp) as Hr. split.
  - apply (vm_inv_change g _ _ _ _ s _ p pp (pp_set_pinned (pp_pinned pp - 1) pp) Hi Hp); try done; [by right| |].
    + apply repinned_ok; [apply Hi|done|lia].
    + apply (vps_ok_sub s); [apply Hi|done|]. intros q pq Hq. cbn in Hq. destruct (decide (p = q)) as [<-|Hne].
      * rewrite lookup_insert_eq in Hq. injection Hq as <-. right. by exists pp.
      * rewrite lookup_insert_ne in Hq by done. right. eauto.
  - intros q pq Hq. cbn in Hq. left. destruct (decide (p = q)) as [<-|Hne].
    + rewrite lookup_insert_eq in Hq. injection Hq as <-. by exists pp.
    + rewrite lookup_insert_ne in Hq by done. eauto.
Qed.

(** Pages were unpinned, each as often as [held] has it, and free pages stay free. *)
Definition released (held : list Z) (s s' : vm) : Prop :=
  keeps_free s s' /\ forall q, pins s' q = (fun n => n - Z.of_nat (count_occ Z.eq_dec held q)) <$> pins s q.

Lemma released_cons p pp held s P :
  ppages (vm_pool s) !! p = Some pp -> released held (set_pool (repinned p (pp_pinned pp - 1) pp (vm_pool s)) s) (set_pool P s) ->
  released (p :: held) s (set_pool P s).
Proof.
  intros Hp [Hf Hq]. split.
  - intros q (pq & Hpq & Hs). apply Hf. unfold is_free. cbn. destruct (decide (p = q)) as [<-|Hne].
    + rewrite lookup_insert_eq. eexists. split; [done|]. assert (pq = pp) as -> by congruence. done.
    + rewrite lookup_insert_ne by done. eauto.
  - intros q. rewrite Hq. unfold pins. cbn -[count_occ]. destruct (decide (p = q)) as [<-|Hne].
    + rewrite lookup_insert_eq, Hp, count_occ_cons_eq by done. cbn. f_equal. lia.
    + by rewrite lookup_insert_ne, count_occ_cons_neq.
Qed.

Lemma unpins_run g held : forall s, vm_ok g s -> held_pins held s ->
  wp (mfor ppage_unpin held) (vm_pool s) (fun _ P => vm_ok g (set_pool P s) /\ acl_from s (set_pool P s) /\ released held s (set_pool P s)).
Proof.
  induction held as [|p held IH]; intros s Hi Hh; cbn [mfor].
  { apply wp_ret. replace (set_pool (vm_pool s) s) with s by (by destruct s). split; [done|]. split; [apply acl_from_refl|].
    split; [by intros q|]. intros q. unfold pins. cbn. destruct (ppages (vm_pool s) !! q); cbn; [|done]. f_equal. lia. }
  destruct (Hh p ltac:(left)) as (n & Hpin & Hn). unfold pins in Hpin. destruct (ppages (vm_pool s) !! p) as [pp|] eqn:Hp; [|done].
  injection Hpin as <-. rewrite count_occ_cons_eq in Hn by done. destruct (unpin_inv g p pp s Hi Hp ltac:(lia)) as [Hi1 Ha1].
  apply wp_bind. eapply wp_mono; [apply (ppage_unpin_run p pp); [apply Hi|done|lia]|]. intros [] P ->.
  set (s1 := set_pool (repinned p (pp_pinned pp - 1) pp (vm_pool s)) s) in *. eapply wp_mono; [apply (IH s1 Hi1)|].
  - intros q Hq. destruct (Hh q ltac:(by right)) as (m & Hm & Hc). unfold pins in *. cbn. destruct (decide (p = q)) as [<-|Hne].
    + rewrite lookup_insert_eq. eexists. split; [done|]. cbn. lia.
    + rewrite count_occ_cons_neq in Hc by done. rewrite lookup_insert_ne by done. eauto.
  - intros [] P (Hi2 & Ha2 & Hr2). split; [exact Hi2|]. split; [by eapply acl_from_trans|]. by eapply released_cons.
Qed.

Lemma mfor_in_pool {I} (f : I -> M pool unit) l s (Q : unit -> vm -> Prop) :
  wp (mfor f l) (vm_pool s) (fun _ P => Q tt (set_pool P s)) -> wp (mfor (fun p => in_pool (f p)) l) s Q.
Proof.
  revert s. induction l as [|p l IH]; intros s; cbn [mfor]; intros H.
  - apply wp_ret in H. apply wp_ret. by destruct s.
  - apply wp_bind, wp_zoom. apply wp_bind in H. eapply wp_mono; [exact H|]. intros [] P H'. apply IH. exact H'.
Qed.

(** ** A new address space *)

Lemma nlive_none g d s : vm_ok g s -> vm_pds s !! d = None -> nlive d (vm_et s) = 0.
Proof.
  intros Hi Hd. apply kcount_zero. intros j ej Hj. destruct (uses d (j, ej)) eqn:Eu; [|done]. unfold uses in Eu. cbn in Eu.
  apply andb_true_iff in Eu as [Es%negb_true_iff%Z.eqb_neq Ed%Z.eqb_eq]. destruct (vi_env _ _ _ _ Hi j ej Hj Es) as [y Hy]. congruence.
Qed.

(** What is asked of the directory of a new environment. *)
Record fresh_space (p : Z) (x : EnvPD) : Prop := mkFresh {
  fr_rc : envpd_rc x = 1;
  fr_act : 0 <= envpd_active x < NR_CPUS;
  fr_cr3 : forall r, cr3_at x r <> 0 <-> r = envpd_active x;
  fr_page : dirpage x = p;
  fr_low : forall n, upde n \/ n = PDENO UADDR -> pde_at x (envpd_active x) n = 0;
  fr_nptes : envpd_nptes x = ∅ }.

Lemma new_dir_inv T d p x s :
  vm_ok (closed T) s -> vm_pds s !! d = None -> kernel_page s p -> unused (closed T) p s -> fresh_space p x ->
  vm_ok (opened T d 1) (set_pds (<[d := x]> (vm_pds s)) s).
Proof.
  intros Hi Hd Hk Hun [R A C P L N].
  assert (own_pages x = [p]) as Eo by (unfold own_pages, uaddr_tab, uaddr_pde; rewrite P, (L (PDENO UADDR)) by (by right); done).
  assert (no_tables x) as Hno by (intros n Hn; rewrite (L n) by (by left); done).
  assert (forall d' y', <[d := x]> (vm_pds s) !! d' = Some y' -> d' = d /\ y' = x \/ d' <> d /\ vm_pds s !! d' = Some y') as Hback.
  { intros d' y' Hy'. destruct (decide (d = d')) as [<-|Hne].
    - rewrite lookup_insert_eq in Hy'. injection Hy' as <-. by left.
    - rewrite lookup_insert_ne in Hy' by done. right. split; [congruence|done]. }
  assert (forall d' y', <[d := x]> (vm_pds s) !! d' = Some y' ->
    0 < envpd_rc y' /\ ((exists y, vm_pds s !! d' = Some y /\ same_walk y y') \/ dir_ok (closed T) s y' /\ no_tables y')) as Hold.
  { intros d' y' [[-> ->]|[_ Hy]]%Hback; [|split; [by apply (vi_dirs _ _ _ _ Hi d' y' Hy)|left; by exists y']].
    split; [lia|]. right. split; [|done]. split; try done; [lia| |].
    - intros n Hn. cbv zeta. by rewrite (Hno n Hn).
    - intros n Hn. cbv zeta. rewrite (Hno n Hn). unfold nptes_at. by rewrite N. }
  replace (set_pds (<[d := x]> (vm_pds s)) s) with (set_et (vm_et s) (set_pds (<[d := x]> (vm_pds s)) s)) by (by destruct s).
  apply (vm_ok_change (closed T)); try done; [| | |apply Hi|].
  - intros d' n t (y & Hy & _) _. rewrite lookup_insert_ne by congruence. eauto.
  - intros d' y y' Hy [[-> ->]|[_ Hy']]%Hback; [congruence|]. by assert (y' = y) as -> by congruence.
  - intros j ej Hj Hs. destruct (vi_env _ _ _ _ Hi j ej Hj Hs) as [y Hy]. rewrite lookup_insert_ne by congruence. eauto.
  - destruct (vi_spaces _ _ _ _ Hi) as [S1 S2]. split.
    + intros d' y' [[-> ->]|[Hne Hy]]%Hback.
      * split; rewrite ?Eo; cbn.
        -- by rewrite R, Z.eqb_refl, (nlive_none (closed T) d s Hi Hd).
        -- intros q ->%list_elem_of_singleton. split; [done|]. intros d2 n H%(change_back (closed T) s _ _ Hold). by eapply (un_table _ _ _ Hun).
        -- repeat constructor. apply not_elem_of_nil.
        -- rewrite P. apply Hun.
        -- unfold uaddr_tab, uaddr_pde. rewrite (L (PDENO UADDR)) by (by right). intros q Hq. by apply not_elem_of_nil in Hq.
        -- by rewrite Z.eqb_refl.
      * destruct (S1 d' y' Hy) as [A' B' C' D' E' F']. split; try done.
        -- cbn in A' |- *. rewrite (proj2 (Z.eqb_neq d' d)) by done. exact A'.
        -- intros q Hq. destruct (B' q Hq) as [Hk' Hnt]. split; [done|]. intros d2 n H%(change_back (closed T) s _ _ Hold). by eapply Hnt.
        -- intros _. by apply F'.
    + intros d1 d2 y1 y2 q [[-> ->]|[Hn1 Hy1]]%Hback [[-> ->]|[Hn2 Hy2]]%Hback Hq1 Hq2; try done.
      * rewrite Eo in Hq1. apply list_elem_of_singleton in Hq1 as ->. by destruct (un_own _ _ _ Hun d2 y2 Hy2).
      * rewrite Eo in Hq2. apply list_elem_of_singleton in Hq2 as ->. by destruct (un_own _ _ _ Hun d1 y1 Hy1).
      * by eapply S2.
Qed.

Lemma set_et_id s : set_et (vm_et s) s = s.
Proof. by destruct s. Qed.

(** Nothing changes for the environments. *)
Lemma redir_same g g' d x x' s :
  vm_ok g s -> g_tabs g' = g_tabs g -> vm_pds s !! d = Some x -> same_walk x x' -> 0 < envpd_rc x' ->
  envpd_rc x' - g_rc g' d = envpd_rc x - g_rc g d -> (forall d', d' <> d -> g_rc g' d' = g_rc g d') ->
  (forall d', g_open g' d' = false -> g_open g d' = false) ->
  (forall q, q ∈ own_pages x' -> q ∈ own_pages x \/ kernel_page s q /\ (forall d n, ~ has_table s d n q) /\
     forall d' y, vm_pds s !! d' = Some y -> q ∉ own_pages y) ->
  NoDup (own_pages x') -> (forall q, q ∈ uaddr_tab x' -> q ∈ g_tabs g) ->
  vm_ok g' (set_pds (<[d := x']> (vm_pds s)) s).
Proof.
  intros Hi Ht Hx Hw Hrc Hr Hro Ho Hown Hnd Hua.
  replace (set_pds (<[d := x']> (vm_pds s)) s) with (set_et (vm_et s) (set_pds (<[d := x']> (vm_pds s)) s)) by (by destruct s).
  pose proof (sp_rc _ _ _ _ (proj1 (vi_spaces _ _ _ _ Hi) d x Hx)).
  apply (redir_inv g g' _ d x); try done; try apply Hi; [lia| |].
  - intros d' y Hne Hy. by rewrite Hro.
  - intros d' y Hy Hop. by apply (sp_utab _ _ _ _ (proj1 (vi_spaces _ _ _ _ Hi) d' y Hy)), Ho.
Qed.

Lemma join_inv T d x s :
  vm_ok (closed T) s -> vm_pds s !! d = Some x -> vm_ok (opened T d 1) (set_pds (<[d := set_rc (envpd_rc x + 1) x]> (vm_pds s)) s).
Proof.
  intros Hi Hx. pose proof (do_rc _ _ _ (vi_dirs _ _ _ _ Hi d x Hx)). destruct (proj1 (vi_spaces _ _ _ _ Hi) d x Hx) as [A B C D E F].
  apply (redir_same (closed T) _ _ x); try done; cbn [envpd_rc set_rc g_rc opened closed]; try lia.
  - rewrite Z.eqb_refl. lia.
  - intros d' Hne. by rewrite (proj2 (Z.eqb_neq d' d)).
  - intros q Hq. by left.
Qed.

Lemma pdid_inv g d x id s : vm_ok g s -> vm_pds s !! d = Some x -> vm_ok g (set_pds (<[d := set_pdid id x]> (vm_pds s)) s).
Proof.
  intros Hi Hx. pose proof (do_rc _ _ _ (vi_dirs _ _ _ _ Hi d x Hx)). destruct (proj1 (vi_spaces _ _ _ _ Hi) d x Hx) as [A B C D E F].
  apply (redir_same g g d x); try done. intros q Hq. by left.
Qed.

(** The table for UADDR is entered. *)
Lemma point_inv g d x t s :
  vm_ok g s -> vm_pds s !! d = Some x -> tst (uaddr_pde x) PG_P = false -> 0 <= t < 2 ^ 20 ->
  kernel_page s t -> (forall d n, ~ has_table s d n t) -> (forall d' y, vm_pds s !! d' = Some y -> t ∉ own_pages y) -> t ∈ g_tabs g ->
  vm_ok g (set_pds (<[d := pde_set (envpd_active x) (PDENO UADDR) (pde_of t) x]> (vm_pds s)) s).
Proof.
  intros Hi Hx HP Ht Hk Hnt Hno HT. pose proof (do_rc _ _ _ (vi_dirs _ _ _ _ Hi d x Hx)).
  set (x' := pde_set _ _ _ x). destruct (pde_of_spec t Ht) as [HtP Htt].
  assert (uaddr_pde x' = pde_of t) as Eu by (unfold uaddr_pde, x'; rewrite pde_at_set, decide_True; done).
  assert (own_pages x' = [dirpage x; t]) as Eo by (unfold own_pages, uaddr_tab; rewrite Eu, HtP, Htt; done).
  assert (own_pages x = [dirpage x]) as Eo0 by (unfold own_pages, uaddr_tab; by rewrite HP).
  apply (redir_same g g d x); try done.
  - split_and!; try done. intros n Hn. unfold x'. rewrite pde_at_set, decide_False; [done|]. intros [_ E]. by eapply upde_uaddr.
  - intros q. rewrite Eo. intros [->| ->%list_elem_of_singleton]%elem_of_cons; [left; left|by right].
  - rewrite Eo. apply NoDup_cons. split; [|repeat constructor; apply not_elem_of_nil]. intros E%list_elem_of_singleton.
    apply (Hno d x Hx). rewrite Eo0, <- E. left.
  - unfold uaddr_tab. rewrite Eu, HtP, Htt. intros q ->%list_elem_of_singleton. done.
Qed.

(** A word of a table of the kernel is written. *)
Lemma ktab_write_inv g t j w s : vm_ok g s -> t ∈ g_tabs g -> vm_ok g (set_pts (<[(t, j) := w]> (vm_pts s)) s).
Proof.
  intros Hi Ht. set (s' := set_pts _ s).
  assert (forall v, upte g ((t, j), v) = false) as Eu by (intros v; unfold upte; cbn; by rewrite bool_decide_eq_false_2 by (by intros ?)).
  assert (forall p, nmaps g p s' = nmaps g p s) as Em by (intros p; rewrite (nmaps_write g p (t, j) w s s' eq_refl); unfold maps; rewrite !Eu; cbn; lia).
  assert (forall p, nwmaps g p s' = nwmaps g p s) as Ew.
  { intros p. rewrite (nwmaps_write g p (t, j) w s s' eq_refl). unfold wmaps, maps. rewrite !Eu. cbn. lia. }
  assert (forall q, kcount (intab g q) (vm_pts s') = kcount (intab g q) (vm_pts s)) as Ei.
  { intros q. rewrite (intab_write g q (t, j) w s s' eq_refl). unfold intab. rewrite !Eu. cbn. lia. }
  split; try done; try apply Hi.
  - intros p pp Hp. rewrite Em, Ew. by apply (vi_pages _ _ _ _ Hi).
  - intros d x Hx. destruct (vi_dirs _ _ _ _ Hi d x Hx) as [A B C D F]. split; try done. intros n Hn. cbv zeta. rewrite Ei. by apply F.
  - intros k v Hk Hu. cbn in Hk. destruct (decide ((t, j) = k)) as [<-|Hne]; [by rewrite Eu in Hu|].
    rewrite lookup_insert_ne in Hk by done. by apply (vi_live _ _ _ _ Hi k v Hk Hu).
  - destruct (vi_spaces _ _ _ _ Hi) as [S1 S2]. split; [|done]. intros d x Hx. by destruct (S1 d x Hx).
Qed.

(** The new environment is made official. *)
Lemma enroll_inv T d i e e' x s :
  vm_ok (opened T d 1) s -> envs (vm_et s) !! i = Some e -> env_status e = ENV_FREE -> env_status e' <> ENV_FREE -> env_pd e' = d ->
  vm_pds s !! d = Some x -> tst (uaddrs_pde x) PG_P = true -> vm_ok (closed T) (set_et (put i e' (vm_et s)) s).
Proof.
  intros Hi He Hf Hf' Hd Hx HP. pose proof (proj1 (vi_spaces _ _ _ _ Hi) d x Hx) as [A B C D E F].
  replace (set_et (put i e' (vm_et s)) s) with (set_et (put i e' (vm_et s)) (set_pds (<[d := x]> (vm_pds s)) s))
    by (rewrite insert_id by done; by destruct s).
  assert (forall d', nlive d' (put i e' (vm_et s)) = nlive d' (vm_et s) + b2z (d' =? d)) as Hnl.
  { intros d'. rewrite (nlive_put d' i e e' _ He), (uses_free d' i e Hf). unfold uses. cbn.
    rewrite (proj2 (Z.eqb_neq _ _) Hf'), Hd, (Z.eqb_sym d d'). cbn. lia. }
  apply (redir_inv (opened T d 1) _ _ d x); try done.
  - by apply (vi_dirs _ _ _ _ Hi d x Hx).
  - intros j ej Hj Hs. cbn in Hj. destruct (decide (i = j)) as [<-|Hne].
    + rewrite lookup_insert_eq in Hj. injection Hj as <-. rewrite Hd. eauto.
    + rewrite lookup_insert_ne in Hj by done. by apply (vi_env _ _ _ _ Hi j ej).
  - intros j Hj. destruct (vi_cur _ _ _ _ Hi j Hj) as (ej & Hej & Hs). cbn. destruct (decide (i = j)) as [<-|Hne]; [congruence|].
    exists ej. by rewrite lookup_insert_ne.
  - rewrite A, Hnl. cbn. rewrite Z.eqb_refl. cbn. lia.
  - intros d' y Hne Hy. rewrite Hnl. cbn. rewrite (proj2 (Z.eqb_neq d' d)) by done. cbn. lia.
  - intros d' y Hy _. destruct (decide (d = d')) as [<-|Hne]; [congruence|].
    apply (sp_utab _ _ _ _ (proj1 (vi_spaces _ _ _ _ Hi) d' y Hy)). cbn. by apply Z.eqb_neq.
  - intros q Hq. by left.
Qed.

(** ** Destroying *)

(** Pages went back to the pool and nothing else happened outside page tables. *)
Record torn (s s' : vm) : Prop := mkTorn {
  to_pds : vm_pds s' = vm_pds s;
  to_et : vm_et s' = vm_et s;
  to_heap : vm_heap s' = vm_heap s;
  to_vps : vm_vps s' = vm_vps s;
  to_acl : acl_from s s';
  to_pin : forall q, pins s' q = pins s q;
  to_free : keeps_free s s' }.

Lemma torn_refl s : torn s s.
Proof. split; try done; [apply acl_from_refl|by intros q]. Qed.

Lemma torn_trans s1 s2 s3 : torn s1 s2 -> torn s2 s3 -> torn s1 s3.
Proof. intros [] []. split; [congruence..|by eapply acl_from_trans|intros q; by rewrite to_pin1|intros q Hq; auto]. Qed.

Lemma torn_pts s m : torn s (set_pts m s).
Proof. split; try done; [exact (acl_from_refl s)|by intros q]. Qed.

Lemma torn_freed q pq s :
  ppages (vm_pool s) !! q = Some pq -> torn s (set_pool (freed q pq (vm_pool s)) s) /\ is_free (set_pool (freed q pq (vm_pool s)) s) q.
Proof.
  intros Hq. destruct (freed_ppages q pq (vm_pool s)) as [Epp _]. split.
  - split; try done.
    + intros p pp Hp. cbn in Hp. rewrite Epp in Hp. left. destruct (decide (q = p)) as [<-|Hne].
      * rewrite lookup_insert_eq in Hp. injection Hp as <-. by exists pq.
      * rewrite lookup_insert_ne in Hp by done. eauto.
    + intros p. unfold pins. cbn. rewrite Epp. destruct (decide (q = p)) as [<-|Hne]; [by rewrite lookup_insert_eq, Hq|by rewrite lookup_insert_ne].
    + intros p (pp & Hp & Hs). unfold is_free. cbn. rewrite Epp. destruct (decide (q = p)) as [<-|Hne]; [rewrite lookup_insert_eq; eauto|].
      rewrite lookup_insert_ne by done. eauto.
  - unfold is_free. cbn. rewrite Epp, lookup_insert_eq. eauto.
Qed.

Section tear.
Context (T : gset Z) (d k i : Z) (e e' : Env) (x : EnvPD) (s : vm).
Context (Hi : vm_ok (opened T d k) s) (He : envs (vm_et s) !! i = Some e) (Hd : env_pd e = d) (Hx : vm_pds s !! d = Some x).
Context (Hu : b2z (uses d (i, e)) + k = 1) (Hrc : envpd_rc x = 1) (Hf : env_status e' = ENV_FREE).
Context (Hempty : forall n t, has_table s d n t -> kcount (intab (opened T d k) t) (vm_pts s) = 0).

(** The state without the directory and the environment. *)
Definition gone (st : vm) : vm := set_et (bury i e' (vm_et st)) (set_pds (delete d (vm_pds st)) st).

Lemma gone_ok : vm_ok (closed T) (gone s).
Proof. by eapply dead_dir_inv. Qed.

(** The directory's own pages are not used by others. *)
Lemma gone_page q : q ∈ own_pages x -> kernel_page (gone s) q /\ (forall d' n, ~ has_table (gone s) d' n q) /\
  forall d' y, vm_pds (gone s) !! d' = Some y -> q ∉ own_pages y.
Proof.
  intros Hq. destruct (vi_spaces _ _ _ _ Hi) as [S1 S2]. destruct (sp_own _ _ _ _ (S1 d x Hx) q Hq) as [Hk Hn]. split; [done|]. split.
  - intros d' n (y & Hy & H). cbn in Hy. apply lookup_delete_Some in Hy as [_ Hy]. apply (Hn d' n). by exists y.
  - intros d' y Hy Hq'. cbn in Hy. apply lookup_delete_Some in Hy as [Hne Hy]. apply Hne. by eapply S2.
Qed.

Lemma in_own : dirpage x ∈ own_pages x.
Proof. left. Qed.

(** The table for UADDR, if there is one, then the directory page. *)
Lemma drop_dir_run st y :
  vm_pds st !! d = Some y -> gone st = gone s -> envpd_cr3 y = envpd_cr3 x -> envpd_active x = act y ->
  pde_at y (act y) (PDENO UADDR) = uaddr_pde x ->
  wp (drop_dir d (act y)) st (fun _ s' => torn st s' /\ (forall q, q ∈ own_pages x -> is_free s' q) /\ exists T', vm_ok (closed T') (gone s')).
Proof.
  intros Hy Eg Ec Ea Ep. unfold drop_dir. apply wp_bind, wp_get_pd. exists y. split; [done|].
  assert (cr3_at y (act y) = cr3_at x (envpd_active x)) as -> by (unfold cr3_at; by rewrite Ec, Ea). rewrite Ep.
  destruct (Z.eqb_spec (cr3_at x (envpd_active x)) 0) as [E0|_].
  { by apply (proj2 (do_cr3 _ _ _ (vi_dirs _ _ _ _ Hi d x Hx) (envpd_active x))) in E0. }
  fold (dirpage x). destruct (vi_spaces _ _ _ _ Hi) as [S1 S2]. destruct (S1 d x Hx) as [_ _ Snd Sdir Sua _].
  destruct (gone_page (dirpage x) in_own) as ((pd & Hpd & Hsd & Hrd) & Hnd & Hod).
  assert (forall T' st', vm_ok (closed T') (gone st') -> vm_pds (gone st') = vm_pds (gone s) -> ppages (vm_pool st') !! dirpage x = Some pd ->
    dirpage x ∉ T' -> torn st st' -> (forall q, q ∈ uaddr_tab x -> is_free st' q) ->
    wp (in_pool (ppage_free (dirpage x))) st' (fun _ s' => torn st s' /\ (forall q, q ∈ own_pages x -> is_free s' q) /\ exists T', vm_ok (closed T') (gone s'))) as Hdir.
  { intros T' st' Hok Epds Hp HT' Ht Hfr. apply wp_zoom. eapply ppage_free_run; [exact Hp|exact Hrd|]. cbn [Z.eqb].
    destruct (torn_freed (dirpage x) pd st' Hp) as [Ht2 Hf2]. split; [by eapply torn_trans|]. split.
    - intros q [->|Hq]%elem_of_cons; [done|]. by apply Ht2, Hfr.
    - exists T'. apply (free_page_inv (closed T') (dirpage x) pd (gone st')); try done; [by left|]. split; [|done|by rewrite Epds].
      unfold has_table. rewrite Epds. exact Hnd. }
  unfold own_pages, uaddr_tab in *. destruct (tst (uaddr_pde x) PG_P) eqn:HP.
  2: { apply wp_bind, wp_ret. apply (Hdir T st); try done.
       - rewrite Eg. apply gone_ok.
       - by rewrite Eg.
       - change (vm_pool st) with (vm_pool (gone st)). by rewrite Eg.
       - apply torn_refl.
       - intros q Hq. by apply not_elem_of_nil in Hq. }
  set (tu := Z.shiftr (uaddr_pde x) PGSHIFT) in *.
  destruct (gone_page tu) as ((pt & Hpt & Hst & Hrt) & Hnt & Hot); [unfold own_pages, uaddr_tab; rewrite HP; right; left|].
  assert (tu ∈ T) as HT by (apply Sua; left). assert (dirpage x <> tu) as Hne by (intros E; apply NoDup_cons in Snd as [Hn _]; apply Hn; rewrite E; left).
  assert (ppages (vm_pool st) !! tu = Some pt) as Hpt' by (change (vm_pool st) with (vm_pool (gone st)); by rewrite Eg).
  apply wp_bind, wp_bind, wp_zoom. eapply ppage_free_run; [exact Hpt'|exact Hrt|]. cbn [Z.eqb]. apply wp_modify.
  set (f := fun kv : Z * Z * Z => fst (fst kv) <> tu). destruct (torn_freed tu pt st Hpt') as [Ht2 Hf2].
  apply (Hdir (T ∖ {[tu]})).
  - change (gone (set_pts _ _)) with (set_pool (freed tu pt (vm_pool (gone st))) (set_pts (filter f (vm_pts (gone st))) (gone st))).
    rewrite Eg. apply (free_page_inv _ tu pt (set_pts (filter f (vm_pts (gone s))) (gone s))); try done; [|by left|].
    + apply (retab_inv T); try done; [apply gone_ok|set_solver|set_solver|right].
      intros d' y' Hy' Hin. apply (Hot d' y' Hy'). by right.
    + split; [exact Hnt|set_solver|exact Hot].
  - change (vm_pds (gone (set_pts _ _))) with (vm_pds (gone st)). by rewrite Eg.
  - cbn. rewrite (proj1 (freed_ppages tu pt (vm_pool st))), lookup_insert_ne by done. change (vm_pool st) with (vm_pool (gone st)). by rewrite Eg.
  - set_solver.
  - eapply torn_trans; [exact Ht2|apply torn_pts].
  - intros q ->%list_elem_of_singleton. exact Hf2.
Qed.

(** The loop over the processors finds one directory page. *)
Lemma drop_dirs_run st y :
  vm_pds st !! d = Some y -> gone st = gone s -> envpd_cr3 y = envpd_cr3 x -> envpd_active x = act y ->
  pde_at y (act y) (PDENO UADDR) = uaddr_pde x ->
  wp (mfor (drop_dir d) (zseq 0 (Z.to_nat NR_CPUS))) st
    (fun _ s' => torn st s' /\ (forall q, q ∈ own_pages x -> is_free s' q) /\ exists T', vm_ok (closed T') (gone s')).
Proof.
  intros Hy Eg Ec Ea Ep. destruct (vi_dirs _ _ _ _ Hi d x Hx) as [_ Hact Hcr3 _ _].
  set (post := fun s' => torn st s' /\ (forall q, q ∈ own_pages x -> is_free s' q) /\ exists T', vm_ok (closed T') (gone s')).
  apply (wp_mfor _ _ _ (fun l s' => NoDup l /\ (act y ∈ l /\ s' = st \/ (act y ∉ l) /\ post s'))).
  - split; [apply zseq_NoDup|]. left. split; [|done]. apply zseq_elem. rewrite <- Ea. unfold NR_CPUS in *. lia.
  - intros r l s' [Hnd Hor]. apply NoDup_cons in Hnd as [Hr Hnd]. destruct (decide (r = act y)) as [->|Hne].
    + destruct Hor as [[_ ->]|[Hn _]]; [|destruct Hn; left].
      eapply wp_mono; [by eapply drop_dir_run|]. intros u s'' H. split; [done|]. right. done.
    + assert (vm_pds s' !! d = Some y) as Hy' by (destruct Hor as [[_ ->]|[_ [[] _]]]; congruence).
      unfold drop_dir. apply wp_bind, wp_get_pd. exists y. split; [done|].
      assert (cr3_at y r = 0) as ->.
      { unfold cr3_at. rewrite Ec. fold (cr3_at x r). destruct (Z.eqb_spec (cr3_at x r) 0) as [|Hn]; [done|]. apply Hcr3 in Hn. congruence. }
      apply wp_ret. split; [done|]. destruct Hor as [[[?|?]%elem_of_cons ->]|[Hn Hp]]; [congruence|by left|].
      right. split; [|done]. intros H. apply Hn. by right.
  - intros s' [_ [[H _]|[_ H]]]; [by apply not_elem_of_nil in H|done].
Qed.
End tear.

(** What is left of the state when environment [i] is taken out of it. *)
Definition buried (i : Z) (e' : Env) (s : vm) : vm := set_et (bury i e' (vm_et s)) s.

(** What destroying an environment keeps: everything but its own address space. *)
Record dropped_env (s s' : vm) : Prop := mkDropped {
  dr_et : vm_et s' = vm_et s;
  dr_heap : vm_heap s' = vm_heap s;
  dr_acl : acl_from s s';
  dr_vps : forall a, vm_vps s !! a = None -> vm_vps s' !! a = None;
  dr_pin : forall q, pins s' q = pins s q;
  dr_free : keeps_free s s' }.

Lemma dropped_trans s1 s2 s3 : dropped_env s1 s2 -> dropped_env s2 s3 -> dropped_env s1 s3.
Proof. intros [] []. split; [congruence..|by eapply acl_from_trans|auto|intros q; by rewrite dr_pin1|intros q Hq; auto]. Qed.

Lemma drop_space_run T d k i e e' x s :
  vm_ok (opened T d k) s -> envs (vm_et s) !! i = Some e -> env_pd e = d -> vm_pds s !! d = Some x -> b2z (uses d (i, e)) + k = 1 ->
  envpd_rc x = 1 -> env_status e' = ENV_FREE ->
  wp (drop_space i d) (set_pds (<[d := set_rc 0 x]> (vm_pds s)) s) (fun _ s' =>
    dropped_env s s' /\ vm_pds s' = delete d (vm_pds s) /\ (exists T', vm_ok (closed T') (buried i e' s')) /\
    (forall q, q ∈ own_pages x \/ (exists n, has_table s d n q) -> is_free s' q)).
Proof.
  intros Hi He Hd Hx Hu Hrc Hf. assert (g_open (opened T d k) d = true) as Ho by apply Z.eqb_refl.
  assert (set_pds (<[d := set_rc 0 x]> (vm_pds s)) s = down d x s) as ->.
  { unfold down, ov. f_equal. apply map_eq. intros q. destruct (decide (d = q)) as [<-|Hne];
      [by rewrite lookup_insert_eq, lookup_alter_eq, Hx|by rewrite lookup_insert_ne, lookup_alter_ne]. }
  unfold drop_space. apply wp_bind. eapply wp_mono; [by apply (drop_tables_run (opened T d k) i e d x s)|].
  intros _ ? (s1 & x1 & -> & Hsg). pose proof (stage_dir _ _ _ _ _ _ _ Hsg) as Hx1.
  pose proof (down_dir d x s1 x1 Hx1) as Hy. set (y := re (envpd_pdir x) 0 x1) in *. destruct Hsg.
  assert (~ upde (PDENO UADDR)) as Hnu by (intros H; by eapply upde_uaddr).
  assert (uaddr_pde x1 = uaddr_pde x) as Eua by (unfold uaddr_pde; rewrite sg_act; apply sg_left; by right).
  assert (dirpage x1 = dirpage x) as Edp by (unfold dirpage, cr3_at; rewrite sg_act, sg_cr3; done).
  apply wp_bind. eapply wp_mono.
  - apply (drop_dirs_run T d k i e e' x1 s1) with (y := y); try done; [by rewrite sg_et|lia| | |].
    + intros n t (z & Hz & Hn & HP & _). assert (z = x1) as -> by congruence. rewrite sg_act, (sg_done n Hn) in HP; [done|].
      by intros ?%not_elem_of_nil.
    + unfold gone, down, ov. cbn. by rewrite delete_alter_eq.
    + rewrite Eua. unfold y, act. cbn. rewrite sg_act. done.
  - intros _ s2 ([] & Hfr & T' & Hok). apply wp_modify. split_and!.
    + change (vm_et s2 = vm_et s1) in to_et0. change (vm_heap s2 = vm_heap s1) in to_heap0. split; cbn; try congruence.
      * eapply acl_from_trans; [exact sg_acl|exact to_acl0].
      * intros a Ha. rewrite to_vps0. by apply sg_vps.
      * intros q. unfold pins in *. cbn. rewrite to_pin0. apply sg_pin.
      * intros q Hq. apply to_free0. by apply sg_free.
    + cbn. rewrite to_pds0. unfold down, ov. cbn. by rewrite delete_alter_eq, sg_pds, delete_insert_eq.
    + exists T'. exact Hok.
    + intros q Hq. change (is_free s2 q). destruct Hq as [Hq|(n & z & Hz & Hn & HP & <-)].
      * apply Hfr. unfold own_pages, uaddr_tab in *. by rewrite Edp, Eua.
      * assert (z = x) as -> by congruence. apply to_free0. apply sg_gone; [done|by intros ?%not_elem_of_nil|done].
Qed.

Lemma uarea_uva id : uva (uarea_va id) /\ PDENO (uarea_va id) = PDENO UADDRS.
Proof.
  assert (0 <= envidx id < 1024) as Hr.
  { unfold envidx, NENV. change (1024 - 1) with (Z.ones 10). rewrite Z.land_ones by lia. apply Z.mod_pos_bound. lia. }
  assert (UADDRS = PDENO UADDRS * 2 ^ 22 /\ 0 <= PDENO UADDRS < 1000) as [E B] by (by vm_compute).
  assert (PDENO (uarea_va id) = PDENO UADDRS) as Ep.
  { unfold uarea_va. rewrite E at 1. unfold PDENO at 1. unfold PDSHIFT, NBPG. rewrite Z.shiftr_div_pow2 by lia.
    symmetry. apply (Z.div_unique _ _ _ (envidx id * 4096)); lia. }
  split; [|done]. split; [|rewrite Ep; by right]. unfold uarea_va, NBPG. lia.
Qed.

(** What [env_free] and [kill_env] do to the environment table. *)
Record freed_env (i : Z) (e : Env) (L L' : life) : Prop := mkFreed {
  fe_et : vm_et (lf_vm L') = put i (env_dead e) (vm_et (lf_vm L));
  fe_ok : exists T, vm_ok (closed T) (buried i (env_dead e) (lf_vm L'));
  fe_heap : vm_heap (lf_vm L') = vm_heap (lf_vm L);
  fe_acl : acl_from (lf_vm L) (lf_vm L');
  fe_fl : env_free_list L' = i :: env_free_list L;
  fe_ul : unlink i (env_used_list L) = Some (env_used_list L');
  fe_next : next_env_id L' = next_env_id L }.

(** The lines after the address space is dealt with. *)
Lemma env_free_tail T held i e ul L s :
  let s2 := lf_vm L in
  vm_ok (closed T) (buried i (env_dead e) s2) -> envs (vm_et s2) !! i = Some e -> vm_et s2 = vm_et s -> vm_heap s2 = vm_heap s ->
  acl_from s s2 -> held_pins held s2 -> unlink i (env_used_list L) = Some ul ->
  wp (in_vm (mfor (fun p => in_pool (ppage_unpin p)) held) ;; modify (fun s => set_killed (u32 (si_killed_envs s + 1)) s) ;;
      in_vm (mod_env i env_dead) ;; list_free i) L (fun _ L' =>
    (forall Lo, lf_vm Lo = s -> env_free_list Lo = env_free_list L -> env_used_list Lo = env_used_list L -> next_env_id Lo = next_env_id L ->
      freed_env i e Lo L') /\ vm_pds (lf_vm L') = vm_pds s2 /\ released held s2 (lf_vm L')).
Proof.
  intros s2 Hok He Eet Eh Ha Hh Hul. apply wp_bind, wp_zoom, mfor_in_pool.
  eapply wp_mono; [exact (unpins_run (closed T) held (buried i (env_dead e) s2) Hok Hh)|].
  intros [] P (Hok' & Ha' & Hrel). apply wp_bind, wp_modify, wp_bind, wp_zoom. unfold mod_env. apply wp_bind. eapply wp_vm_env; [exact He|].
  apply wp_modify. apply wp_bind, wp_gets, wp_bind, wp_of_option. exists ul. split; [exact Hul|]. apply wp_modify.
  split; [|done]. intros Lo Es Ef Eu En. split; cbn; try congruence.
  - by rewrite Es, <- Eet.
  - exists T. unfold buried, bury, put in Hok' |- *. cbn in Hok' |- *. rewrite insert_insert_eq. exact Hok'.
  - by rewrite Es, <- Eh.
  - eapply acl_from_trans; [rewrite Es; exact Ha|exact Ha'].
Qed.

(** What becomes of the directory: it keeps its other users, or everything that
    belongs to it is free.  The pages in [held] are unpinned. *)
Definition dir_after (held : list Z) (d : Z) (x : EnvPD) (s s' : vm) : Prop :=
  (forall q, pins s' q = (fun n => n - Z.of_nat (count_occ Z.eq_dec held q)) <$> pins s q) /\
  if envpd_rc x =? 1
  then vm_pds s' = delete d (vm_pds s) /\ forall q, q ∈ own_pages x \/ (exists n, has_table s d n q) -> is_free s' q
  else exists x', vm_pds s' = <[d := x']> (vm_pds s) /\ envpd_rc x' = envpd_rc x - 1.

Lemma env_free_spec T d k held i e x L :
  let s := lf_vm L in
  vm_ok (opened T d k) s -> envs (vm_et s) !! i = Some e -> env_pd e = d -> vm_pds s !! d = Some x -> b2z (uses d (i, e)) + k = 1 ->
  tst (uaddrs_pde x) PG_P = true -> envpd_rc x < 2 ^ 15 -> held_pins held s -> i ∈ env_used_list L ->
  wp (env_free held i) L (fun _ L' => freed_env i e L L' /\ dir_after held d x s (lf_vm L')).
Proof.
  intros s Hi He Hd Hx Hu HP Hrc Hh Hin. unfold env_free. destruct (unlink_Some i (env_used_list L) Hin) as [ul Hul].
  pose proof (do_rc _ _ _ (vi_dirs _ _ _ _ Hi d x Hx)) as Hrc0. destruct (uarea_uva (env_id e)) as [Hva Epd].
  apply wp_bind, wp_zoom. eapply wp_vm_env; [exact He|]. apply wp_bind, wp_zoom.
  eapply wp_mono; [apply (remove_emptied (opened T d k) i e x); try done; [by rewrite Hd|unfold va_pde; by rewrite Epd]|].
  intros r s1 (Hi1 & _ & x1 & Hem). rewrite Hd in Hem. destruct Hem as [Ep (D1 & D2 & D3 & D4 & D5) Eet Eh Ea Ev Epin Ef].
  change (lf_vm (set_vm (lf_vm L) L)) with s in *.
  assert (vm_pds s1 !! d = Some x1) as Hx1 by (rewrite Ep; apply lookup_insert_eq). rewrite Hd.
  assert (own_pages x1 = own_pages x /\ uaddrs_pde x1 = uaddrs_pde x) as [Eown Eup].
  { unfold own_pages, uaddr_tab, uaddr_pde, uaddrs_pde, dirpage, cr3_at, pde_at. by rewrite D3, D4, D5. }
  assert (forall n q, has_table s d n q -> has_table s1 d n q) as Htab.
  { intros n q (z & Hz & Hn & H). assert (z = x) as -> by congruence. exists x1. split; [done|]. unfold pde_at in *. by rewrite D3, D5. }
  apply wp_bind, wp_zoom. eapply wp_upd_pd; [exact Hx1|]. apply wp_bind, wp_zoom, wp_get_pd. eexists. split; [apply lookup_insert_eq|].
  cbn [envpd_rc set_rc]. rewrite D2, s16_small by lia. apply wp_bind.
  assert (held_pins held s1) as Hh1 by (intros q Hq; rewrite Epin; by apply Hh).
  unfold dir_after. destruct (Z.eqb_spec (envpd_rc x - 1) 0) as [E1|E1].
  - rewrite (proj2 (Z.eqb_eq _ _)) by lia. apply wp_zoom. replace (envpd_rc x - 1) with 0 by lia.
    eapply wp_mono; [apply (drop_space_run T d k i e (env_dead e) x1 s1); try done; [by rewrite Eet|lia]|].
    intros [] s2 ([] & Ep2 & (T' & Hok) & Hfr). eapply wp_mono; [eapply (env_free_tail T' held i e ul _ s)|]; cbn.
    + exact Hok.
    + by rewrite dr_et0, Eet.
    + by rewrite dr_et0.
    + by rewrite dr_heap0.
    + by eapply acl_from_trans.
    + intros q Hq. rewrite dr_pin0. by apply Hh1.
    + exact Hul.
    + intros [] L' (Hfe & Epds & Hkf & Hpin). split; [by apply Hfe|]. cbn in Epds. split; [intros q; rewrite Hpin; cbn; by rewrite dr_pin0, Epin|].
      rewrite Epds, Ep2, Ep, delete_insert_eq. split; [done|]. intros q Hq. apply Hkf. apply Hfr. rewrite Eown. destruct Hq as [?|[n ?]]; [by left|right; eauto].
  - rewrite (proj2 (Z.eqb_neq _ _)) by lia. apply wp_ret.
    eapply wp_mono; [eapply (env_free_tail T held i e ul _ s)|]; cbn.
    + apply (close_dir T d).
      * rewrite <- D2. apply (leave_inv T d k i e (env_dead e) x1 s1); try done; [by rewrite Eet|lia].
      * cbn. intros z Hz. rewrite lookup_insert_eq in Hz. injection Hz as <-. change (uaddrs_pde (set_rc _ x1)) with (uaddrs_pde x1). by rewrite Eup.
    + by rewrite Eet.
    + done.
    + done.
    + done.
    + done.
    + exact Hul.
    + intros [] L' (Hfe & Epds & _ & Hpin). split; [by apply Hfe|]. split; [intros q; rewrite Hpin; cbn; by rewrite <- Epin|]. cbn in Epds. rewrite Epds, Ep, insert_insert_eq. by eexists.
Qed.

(** [kill_env] leaves a system without the environment. *)
Record killed_env (i : Z) (e : Env) (L L' : life) : Prop := mkKilled {
  ke_et : vm_et (lf_vm L') = bury i (env_dead e) (vm_et (lf_vm L));
  ke_ok : exists T, vm_ok (closed T) (lf_vm L');
  ke_heap : vm_heap (lf_vm L') = vm_heap (lf_vm L);
  ke_acl : acl_from (lf_vm L) (lf_vm L');
  ke_fl : env_free_list L' = i :: env_free_list L;
  ke_ul : unlink i (env_used_list L) = Some (env_used_list L');
  ke_next : next_env_id L' = next_env_id L }.

Lemma kill_env_spec T d k held i e x L :
  let s := lf_vm L in
  vm_ok (opened T d k) s -> envs (vm_et s) !! i = Some e -> env_pd e = d -> vm_pds s !! d = Some x -> b2z (uses d (i, e)) + k = 1 ->
  tst (uaddrs_pde x) PG_P = true -> envpd_rc x < 2 ^ 15 -> held_pins held s -> i ∈ env_used_list L ->
  wp (kill_env held i) L (fun r L' => r = bool_decide (curenv (vm_et s) = Some i) /\ killed_env i e L L' /\
    dir_after held d x s (lf_vm L')).
Proof.
  cbv zeta. intros Hi He Hd Hx Hu HP Hrc Hh Hin. unfold kill_env. apply wp_bind. eapply wp_mono; [by eapply env_free_spec|].
  intros [] L1 [[Eet (T' & Hok) Eh Ea Ef Eu En] Hdir]. apply wp_bind, wp_zoom, wp_gets. cbn. rewrite Eet. change (curenv (put _ _ _)) with (curenv (vm_et (lf_vm L))).
  assert (bury i (env_dead e) (vm_et (lf_vm L1)) = bury i (env_dead e) (vm_et (lf_vm L))) as Eb.
  { rewrite Eet. unfold bury, put. cbn. by rewrite insert_insert_eq. }
  unfold buried in Hok. rewrite Eb in Hok. case_bool_decide as Hc.
  - apply wp_bind, wp_zoom, wp_modify, wp_ret. cbn. rewrite Eet. split; [done|].
    assert (set_curenv None (put i (env_dead e) (vm_et (lf_vm L))) = bury i (env_dead e) (vm_et (lf_vm L))) as Es by (unfold bury; by rewrite bool_decide_eq_true_2).
    rewrite Es. split; [by split; cbn; eauto|exact Hdir].
  - apply wp_ret. split; [done|]. split; [|done].
    assert (vm_et (lf_vm L1) = bury i (env_dead e) (vm_et (lf_vm L))) as Es by (rewrite Eet; unfold bury; by rewrite bool_decide_eq_false_2).
    split; try done. exists T'. rewrite <- Es in Hok. by destruct (lf_vm L1).
Qed.

(** ** Creating *)

(** A page [p] was taken, for the kernel or for a user. *)
Record took (g : ghost) (p type : Z) (s s' : vm) : Prop := mkTook {
  tk_ok : vm_ok g s';
  tk_range : 0 < p < 2 ^ 20;
  tk_page : exists pf, ppages (vm_pool s') !! p = Some (initpp type pf);
  tk_unused : unused g p s';
  tk_pool : s' = set_pool (vm_pool s') s;
  tk_was : is_free s p;
  tk_kept : forall q pq, ppages (vm_pool s) !! q = Some pq -> pp_status pq <> PP_FREE -> ppages (vm_pool s') !! q = Some pq;
  tk_acl : acl_from s s' }.

Lemma alloc_run g type s :
  vm_ok g s -> 0 < type < 256 ->
  wp (in_pool (ppage_alloc type 0)) s (fun r s' => r = (- E_NO_MEM, None) /\ s' = s \/ exists p, r = (0, Some p) /\ took g p type s s').
Proof.
  intros Hi Ht. apply wp_zoom. eapply wp_mono; [apply ppage_alloc_spec; [apply Hi|done]|]. intros r P [Hok H].
  destruct (find_free_ref 0 (vm_pool s)) as [p|] eqn:Ef; destruct H as [-> H]; [right|left; split; [done|subst P; by destruct s]].
  destruct H as (pf & Hp & Hr). exists p. split; [done|].
  destruct (reclaimable_free (vm_pool s) p) as (pf' & Hp' & Hs); [eapply find_free_ref_sound, Ef; apply Hi|].
  assert (pf' = pf) as -> by congruence. destruct (take_page_inv g p type pf P s Hi Hp Hs Hr Hok) as (Hi' & Hun & Hpp).
  pose proof (rc_ppages _ _ _ _ _ Hr) as Epp. split; try done.
  - pose proof (pg_size _ _ (proj1 (vi_pool _ _ _ _ Hi))). assert (0 <= p < nppage (vm_pool s)) by (by apply (vm_dom g s p Hi); eauto).
    destruct (vi_zero _ _ _ _ Hi) as (pz & Hz & Hsz). destruct (Z.eq_dec p 0) as [->|]; [|lia].
    assert (pz = pf) as -> by congruence. by rewrite Hs in Hsz.
  - by exists pf.
  - by exists pf.
  - intros q pq Hq Hsq. cbn. rewrite Epp, lookup_insert_ne; [done|]. intros <-. congruence.
  - intros q pq Hq. cbn in Hq. rewrite Epp in Hq. destruct (decide (p = q)) as [<-|Hne].
    + rewrite lookup_insert_eq in Hq. injection Hq as <-. by right.
    + rewrite lookup_insert_ne in Hq by done. left. eauto.
Qed.

Lemma pp2pa_page p : 0 < p < 2 ^ 20 -> pp2pa p <> 0 /\ Z.shiftr (pp2pa p) PGSHIFT = p.
Proof.
  intros Hp. unfold pp2pa, PGSHIFT. rewrite Z.shiftl_mul_pow2 by lia. rewrite u32_small by lia. split; [lia|].
  rewrite Z.shiftr_div_pow2 by lia. apply Z.div_mul. lia.
Qed.

(** The kernel's part of a directory leaves the rest alone. *)
Lemma kernel_pdes_low b cr3 n : upde n \/ n = PDENO UADDR -> kernel_pdes b cr3 !! n = None.
Proof.
  intros Hn. assert (n = PDENO UADDR \/ n = PDENO UADDRS \/ 0 <= n < NUPDE) as Hn' by (destruct Hn as [[?| ->]| ->]; auto).
  assert (forall m, NUPDE <= m -> m <> PDENO UADDR -> m <> PDENO UADDRS -> m <> n) as Hne by (intros m; lia).
  unfold kernel_pdes. rewrite !lookup_insert_ne by (apply Hne; by vm_compute).
  apply map_lookup_filter_None. right. intros w _. cbn. assert (PDENO UADDR < PDENO (KSTACKTOP - 1) /\ PDENO UADDRS < PDENO (KSTACKTOP - 1) /\ NUPDE < PDENO (KSTACKTOP - 1)) by (by vm_compute). lia.
Qed.

Lemma new_dir_fresh b p cpu pdir :
  0 < p < 2 ^ 20 -> 0 <= cpu < NR_CPUS -> (pdir = ∅ \/ pdir = kernel_pdes b (pp2pa p)) ->
  fresh_space p (mkPD 0 {[ cpu := pp2pa p ]} {[ cpu := pdir ]} ∅ 1 cpu).
Proof.
  intros Hp Hcpu Hpd. destruct (pp2pa_page p Hp) as [Hn0 Hsh]. split; try done.
  - intros r. unfold cr3_at. cbn. destruct (decide (r = cpu)) as [->|Hne]; [by rewrite lookup_singleton_eq|].
    rewrite lookup_singleton_ne by congruence. cbn. split; [done|]. congruence.
  - unfold dirpage, cr3_at. cbn. by rewrite lookup_singleton_eq.
  - intros n Hn. unfold pde_at. cbn. rewrite lookup_singleton_eq. cbn. destruct Hpd as [->| ->]; [done|]. by rewrite kernel_pdes_low.
Qed.

(** Pages that can be given back. *)
Definition returnable (g : ghost) (s : vm) (q : Z) : Prop :=
  exists pq, ppages (vm_pool s) !! q = Some pq /\ (pp_status pq = PP_KERNEL \/ pp_status pq = PP_USER) /\ pp_refcnt pq = Some 0 /\ unused g q s.

Lemma unused_pool g q P s : unused g q s -> unused g q (set_pool P s).
Proof. by intros []. Qed.

Lemma frees_run g pages : forall s, vm_ok g s -> NoDup pages -> (forall q, q ∈ pages -> returnable g s q) ->
  wp (mfor ppage_free pages) (vm_pool s) (fun _ P => vm_ok g (set_pool P s) /\ acl_from s (set_pool P s)).
Proof.
  induction pages as [|p pages IH]; intros s Hi Hnd Hr; cbn [mfor].
  { apply wp_ret. replace (set_pool (vm_pool s) s) with s by (by destruct s). split; [done|apply acl_from_refl]. }
  apply NoDup_cons in Hnd as [Hp Hnd]. destruct (Hr p ltac:(left)) as (pp & Hpp & Hs & Hrf & Hun).
  apply wp_bind. eapply ppage_free_run; [exact Hpp|exact Hrf|]. cbn [Z.eqb].
  set (s1 := set_pool (freed p pp (vm_pool s)) s). eapply wp_mono; [apply (IH s1)|].
  - by apply free_page_inv.
  - done.
  - intros q Hq. destruct (Hr q ltac:(by right)) as (pq & Hpq & Hsq & Hrq & Hunq). exists pq.
    split_and!; try done; [|by apply unused_pool]. cbn. rewrite (proj1 (freed_ppages p pp (vm_pool s))), lookup_insert_ne; [done|]. by intros ->.
  - intros [] P [Hi2 Ha2]. split; [exact Hi2|]. eapply acl_from_trans; [|exact Ha2]. apply (to_acl s s1). by apply torn_freed.
Qed.

(** A creation that failed gives everything back and the slot too. *)
Lemma undo_run T d i e x p pages r L ul :
  let s := lf_vm L in
  vm_ok (opened T d 1) s -> envs (vm_et s) !! i = Some e -> env_status e = ENV_FREE -> vm_pds s !! d = Some x -> fresh_space p x -> env_pd e = d ->
  (forall q, q ∈ pages -> q <> p -> returnable (opened T d 1) s q) -> NoDup pages -> unlink i (env_used_list L) = Some ul ->
  wp (undo_pd i d pages r) L (fun r' L' => r' = r /\ vm_ok (closed T) (lf_vm L') /\ vm_et (lf_vm L') = vm_et s /\
    vm_heap (lf_vm L') = vm_heap s /\ acl_from s (lf_vm L') /\ env_free_list L' = i :: env_free_list L /\ env_used_list L' = ul /\
    next_env_id L' = next_env_id L).
Proof.
  intros s Hi He Hf Hx Hfr Hd Hpg Hnd Hul. destruct Hfr as [R A C P Lo N].
  assert (no_tables x) as Hno by (intros n Hn; rewrite (Lo n) by (by left); done).
  assert (own_pages x = [p]) as Eo by (unfold own_pages, uaddr_tab, uaddr_pde; rewrite P, (Lo (PDENO UADDR)) by (by right); done).
  assert (forall n t, ~ has_table s d n t) as Hnt.
  { intros n t (y & Hy & Hn & HP & _). assert (y = x) as -> by congruence. by rewrite (Hno n Hn) in HP. }
  assert (b2z (uses d (i, e)) + 1 = 1) as Hu by (by rewrite uses_free).
  assert (bury i e (vm_et s) = vm_et s) as Eb.
  { unfold bury, put. rewrite insert_id by done. rewrite bool_decide_eq_false_2; [by destruct (vm_et s)|].
    intros Hc. destruct (vi_cur _ _ _ _ Hi i Hc) as (e0 & He0 & Hs0). congruence. }
  pose proof (gone_ok T d 1 i e e x s Hi He Hd Hx Hu R Hf) as Hok.
  pose proof (gone_page T d 1 i e x s Hi Hx p ltac:(rewrite Eo; left)) as ((pp & Hp & Hsp & Hrp) & Hnp & Hop).
  unfold gone in *. rewrite Eb in *. set (sB := set_et (vm_et s) (set_pds (delete d (vm_pds s)) s)) in *.
  unfold undo_pd. apply wp_bind, wp_zoom, mfor_in_pool. eapply wp_mono; [apply (frees_run (closed T) pages sB)|].
  - apply Hok. intros n t Ht. by destruct (Hnt n t).
  - done.
  - intros q Hq. destruct (decide (q = p)) as [->|Hne].
    + exists pp. split_and!; try done; [by left|]. split; [exact Hnp| |exact Hop]. rewrite <- P. apply (sp_dir _ _ _ _ (proj1 (vi_spaces _ _ _ _ Hi) d x Hx)).
    + destruct (Hpg q Hq Hne) as (pq & Hpq & Hs & Hr & [U1 U2 U3]). exists pq. split_and!; try done. split.
      * intros d' n (y & Hy & H). cbn in Hy. apply lookup_delete_Some in Hy as [_ Hy]. apply (U1 d' n). by exists y.
      * exact U2.
      * intros d' y Hy. cbn in Hy. apply lookup_delete_Some in Hy as [_ Hy]. by eapply U3.
  - intros [] P' [Hok' Ha']. apply wp_bind, wp_zoom, wp_modify, wp_bind, wp_bind, wp_gets, wp_bind, wp_of_option. exists ul. split; [exact Hul|].
    apply wp_modify, wp_ret. by split_and!.
Qed.

Lemma wp_mod_env i f e s (Q : unit -> vm -> Prop) :
  envs (vm_et s) !! i = Some e -> Q tt (set_et (put i (f e) (vm_et s)) s) -> wp (mod_env i f) s Q.
Proof. intros He HQ. unfold mod_env. apply wp_bind. eapply wp_vm_env; [exact He|]. by apply wp_modify. Qed.

(** A table for UADDR. *)
Lemma uaddr_run T d x s :
  vm_ok (opened T d 1) s -> vm_pds s !! d = Some x ->
  wp (pde_check_n_alloc_one d (envpd_active x) UADDR) s (fun r s' => r = - E_NO_MEM /\ s' = s \/
    r = 0 /\ exists T' x', vm_ok (opened T' d 1) s' /\ vm_pds s' !! d = Some x' /\ envpd_active x' = envpd_active x /\
      Z.shiftr (uaddr_pde x') PGSHIFT ∈ T' /\ uaddrs_pde x' = uaddrs_pde x /\
      vm_et s' = vm_et s /\ vm_heap s' = vm_heap s /\ acl_from s s' /\
      (forall va, uva va -> tst (va_pde x va) PG_P = true -> va_pde x' va = va_pde x va /\ pte_at s' (pt_get_ptep x va) = pte_at s (pt_get_ptep x va))).
Proof.
  intros Hi Hx. unfold pde_check_n_alloc_one. apply wp_bind, wp_get_pd. exists x. split; [done|]. fold (uaddr_pde x).
  destruct (tst (uaddr_pde x) PG_P) eqn:HP.
  { apply wp_ret. right. split; [done|]. exists T, x. split_and!; try done; [|apply acl_from_refl].
    apply (sp_uaddr _ _ _ _ (proj1 (vi_spaces _ _ _ _ Hi) d x Hx)). unfold uaddr_tab. rewrite HP. left. }
  apply wp_bind. eapply wp_mono; [by apply (alloc_run (opened T d 1) PP_KERNEL)|].
  intros r s1 [[-> ->]|(p & -> & [Hi1 Hr (pf & Hp) [Un1 Un2 Un3] Es Hw Hk Ha])]; cbn [snd fst]; [apply wp_ret; by left|].
  assert (vm_pds s1 = vm_pds s /\ vm_et s1 = vm_et s /\ vm_heap s1 = vm_heap s) as (Ep & Ee & Eh) by (by rewrite Es).
  assert (vm_pds s1 !! d = Some x) as Hx1 by (by rewrite Ep). destruct (pde_of_spec p ltac:(lia)) as [HtP Htt].
  assert (kernel_page s1 p) as Hkp by (by exists (initpp PP_KERNEL pf)).
  apply wp_bind, wp_modify, wp_bind. eapply wp_upd_pd; [exact Hx1|]. apply wp_ret. right. split; [done|].
  exists ({[p]} ∪ T). eexists. split_and!.
  - eapply (point_inv (opened ({[p]} ∪ T) d 1) d x p); cbn; try done; [|lia|set_solver].
    apply (retab_inv T); try done; [set_solver| |left; set_solver]. intros _. split; [done|]. intros d' y Hy E. apply (Un3 d' y Hy). rewrite <- E. left.
  - cbn. apply lookup_insert_eq.
  - done.
  - unfold uaddr_pde. cbn. rewrite pde_at_set, decide_True by done. rewrite Htt. set_solver.
  - unfold uaddrs_pde. cbn. rewrite pde_at_set, decide_False; [done|]. intros [_ E]. by vm_compute in E.
  - done.
  - done.
  - exact Ha.
  - intros va Hva HPva. split.
    + unfold va_pde. cbn. rewrite pde_at_set, decide_False; [done|]. intros [_ E]. apply (upde_uaddr _ (proj2 Hva)). done.
    + unfold pte_at. cbn. rewrite map_lookup_filter. assert (vm_pts s1 = vm_pts s) as -> by (by rewrite Es).
      destruct (vm_pts s !! pt_get_ptep x va) as [w|] eqn:Ew; [|done]. cbn. rewrite option_guard_True; [done|]. cbn.
      intros E. apply (Un1 d (PDENO va)). exists x. split; [done|]. split; [apply Hva|]. split; [done|exact E].
Qed.

(** The record of slot [i] changed, and is not in use yet. *)
Definition slot_only (i : Z) (e : Env) (L L' : life) (e' : Env) : Prop :=
  vm_et (lf_vm L') = put i e' (vm_et (lf_vm L)) /\ env_status e' = ENV_FREE /\ env_clist e' = env_clist e /\ env_id e' = env_id e /\
  vm_heap (lf_vm L') = vm_heap (lf_vm L) /\ acl_from (lf_vm L) (lf_vm L') /\ next_env_id L' = next_env_id L.

(** The slot may be on its list still, or free again. *)
Definition lists_after (i : Z) (L L' : life) : Prop :=
  env_free_list L' = env_free_list L /\ env_used_list L' = env_used_list L \/
  env_free_list L' = i :: env_free_list L /\ unlink i (env_used_list L) = Some (env_used_list L').

Definition not_made (i : Z) (e : Env) (L L' : life) : Prop :=
  (exists T, vm_ok (closed T) (lf_vm L')) /\ (exists e', slot_only i e L L' e') /\ lists_after i L L'.

(** The u-area is mapped. *)
Definition uarea_mapped (s : vm) (x : EnvPD) (id : Z) : Prop :=
  tst (uaddrs_pde x) PG_P = true /\ tst (pte_at s (pt_get_ptep x (uarea_va id))) PG_P = true.

Definition made (i d : Z) (e : Env) (L L' : life) : Prop :=
  (exists T x, vm_ok (opened T d 1) (lf_vm L') /\ vm_pds (lf_vm L') !! d = Some x /\ uarea_mapped (lf_vm L') x (env_id e)) /\
  (exists e', slot_only i e L L' e' /\ env_pd e' = d) /\
  env_free_list L' = env_free_list L /\ env_used_list L' = env_used_list L.

Lemma put_put i e1 e2 et : put i e2 (put i e1 et) = put i e2 et.
Proof. unfold put, set_envs. cbn. by rewrite insert_insert_eq. Qed.

Lemma buried_id i e et s : vm_et s = put i e et -> curenv (vm_et s) <> Some i -> buried i e s = s.
Proof.
  intros E Hc. unfold buried, bury. rewrite bool_decide_eq_false_2 by done. rewrite E at 2. rewrite put_put, <- E.
  by destruct s as [? [] ? ? ? ? ?].
Qed.

Lemma initpp_ref type pf : pp_refcnt (initpp type pf) = Some 0 /\ pp_status (initpp type pf) = type.
Proof. done. Qed.

Section newpt.
Context (b : boot_maps) (m_pd m_np m_vp i cpu : Z) (e : Env) (T : gset Z) (L : life) (ul : list Z).
Let s := lf_vm L.
Context (Hi : vm_ok (closed T) s) (He : envs (vm_et s) !! i = Some e) (Hf : env_status e = ENV_FREE).
Context (Hpd : vm_pds s !! m_pd = None) (Hm : m_pd <> 0) (Hvp : m_vp = 0 \/ vm_vps s !! m_vp = None).
Context (Hcpu : 0 <= cpu < NR_CPUS) (Hul : unlink i (env_used_list L) = Some ul).

Let e1 := set_env_pd m_pd e.

(** The directory is there, its page is [p]; undoing gives back [pages]. *)
Lemma undo_here x p pages r L1 :
  vm_ok (opened T m_pd 1) (lf_vm L1) -> vm_et (lf_vm L1) = put i e1 (vm_et s) -> vm_heap (lf_vm L1) = vm_heap s -> acl_from s (lf_vm L1) ->
  env_free_list L1 = env_free_list L -> env_used_list L1 = env_used_list L -> next_env_id L1 = next_env_id L ->
  vm_pds (lf_vm L1) !! m_pd = Some x -> fresh_space p x -> NoDup pages ->
  (forall q, q ∈ pages -> q <> p -> returnable (opened T m_pd 1) (lf_vm L1) q) -> r < 0 ->
  wp (undo_pd i m_pd pages r) L1 (fun r L' => r < 0 /\ not_made i e L L' \/ r = 0 /\ made i m_pd e L L').
Proof.
  intros Hok Eet Eh Ha Ef Eu En Hx Hfr Hnd Hret Hr.
  eapply wp_mono; [apply (undo_run T m_pd i e1 x p pages r L1 ul); try done|].
  - rewrite Eet. apply lookup_insert_eq.
  - by rewrite Eu.
  - intros r' L' (-> & Hok' & Eet' & Eh' & Ha' & Ef' & Eu' & En'). left. split; [done|]. split; [by exists T|]. split.
    + exists e1. split; [by rewrite Eet', Eet|]. split_and!; try done; [by rewrite Eh', Eh|by eapply acl_from_trans|by rewrite En', En].
    + right. split; [by rewrite Ef', Ef|]. by rewrite Eu'.
Qed.

Lemma env_newpt_spec :
  wp (env_newpt b m_pd m_np m_vp i cpu) L (fun r L' => r < 0 /\ not_made i e L L' \/ r = 0 /\ made i m_pd e L L').
Proof.
  unfold env_newpt. apply wp_bind, wp_assert. split; [by apply negb_true_iff, Z.eqb_neq|]. apply wp_bind, wp_zoom.
  eapply wp_mod_env; [exact He|]. fold s e1. set (s1 := set_et (put i e1 (vm_et s)) s).
  assert (vm_ok (closed T) s1) as Hi1 by (apply put_inv with e; try done; by left).
  apply wp_bind, wp_zoom. cbn [lf_vm set_vm]. eapply wp_mono; [by apply (alloc_run (closed T) PP_KERNEL)|].
  intros r s2 [[-> ->]|(p & -> & [Hi2 Hr (pf & Hp) Hun Es Hw Hk Ha])]; cbn [snd fst].
  { apply wp_ret. left. split; [elia|]. split; [by exists T|]. split; [|by left]. exists e1. split_and!; try done. exact (acl_from_refl s). }
  assert (vm_pds s2 = vm_pds s /\ vm_et s2 = put i e1 (vm_et s) /\ vm_heap s2 = vm_heap s /\ vm_vps s2 = vm_vps s) as (Ep & Ee & Eh & Ev) by (by rewrite Es).
  assert (kernel_page s2 p) as Hkp by (by exists (initpp PP_KERNEL pf)).
  assert (acl_from s s2) as Ha2 by exact Ha. assert (vm_pds s2 !! m_pd = None) as Hnone by (by rewrite Ep).
  apply wp_bind, wp_zoom, wp_modify. cbn [lf_vm set_vm].
  destruct (m_np =? 0).
  { apply (undo_here (mkPD 0 {[ cpu := pp2pa p ]} {[ cpu := ∅ ]} ∅ 1 cpu) p); try done.
    - cbn. apply (new_dir_inv T m_pd p); try done. eapply (new_dir_fresh b); auto.
    - cbn. apply lookup_insert_eq.
    - eapply (new_dir_fresh b); auto.
    - apply NoDup_singleton.
    - intros q ->%list_elem_of_singleton. done. }
  apply wp_bind, wp_zoom. eapply wp_upd_pd; [cbn; apply lookup_insert_eq|]. cbn [lf_vm set_vm].
  set (x := pd_pdir _ _). assert (fresh_space p x) as Hfr by (by apply (new_dir_fresh b p cpu (kernel_pdes b (pp2pa p))); auto).
  match goal with |- context [set_vm ?S _] => match S with set_pds _ _ => set (s3 := S) end end.
  assert (s3 = set_pds (<[m_pd := x]> (vm_pds s2)) s2) as Es3 by (unfold s3; cbn; by rewrite insert_insert_eq).
  assert (vm_ok (opened T m_pd 1) s3) as Hi3 by (rewrite Es3; by apply (new_dir_inv T m_pd p)).
  clearbody s3. apply wp_bind, wp_zoom. cbn [lf_vm set_vm]. eapply wp_mono; [by apply (alloc_run (opened T m_pd 1) PP_USER)|].
  assert (vm_pds s3 !! m_pd = Some x) as Hx3 by (rewrite Es3; apply lookup_insert_eq).
  assert (vm_et s3 = put i e1 (vm_et s) /\ vm_heap s3 = vm_heap s /\ vm_vps s3 = vm_vps s /\ acl_from s s3) as (Ee3 & Eh3 & Ev3 & Ha3) by (rewrite Es3; cbn; done).
  intros r s4 [[-> ->]|(p2 & -> & [Hi4 Hr4 (pf2 & Hp2) Hun4 Es4 Hw4 Hk4 Ha4])]; cbn [snd fst].
  { apply (undo_here x p); try done; [apply NoDup_singleton|intros q ->%list_elem_of_singleton; done]. }
  assert (vm_pds s4 = vm_pds s3 /\ vm_et s4 = vm_et s3 /\ vm_heap s4 = vm_heap s3 /\ vm_vps s4 = vm_vps s3) as (Ep4 & Ee4 & Eh4 & Ev4) by (by rewrite Es4).
  assert (vm_pds s4 !! m_pd = Some x) as Hx4 by (by rewrite Ep4).
  assert (envs (vm_et s4) !! i = Some e1) as He4 by (rewrite Ee4, Ee3; apply lookup_insert_eq).
  apply wp_bind, wp_zoom. eapply wp_vm_env; [exact He4|]. apply wp_bind, wp_zoom. destruct (uarea_uva (env_id e1)) as [Hva Epd].
  eapply wp_mono; [eapply (ppage_insert_spec (opened T m_pd 1) m_vp i e1 x p2 (initpp PP_USER pf2) [] 0 0); try done|].
  { by intros [?|[?|?]]. }
  { cbn. by rewrite Ev4, Ev3. }
  intros r s5 [(-> & Hi5 & Hin)|[-> ->]].
  2: { rewrite (proj2 (Z.ltb_lt _ _)) by elia. apply (undo_here x p); try done.
       - cbn. by rewrite Ee4, Ee3.
       - cbn. by rewrite Eh4, Eh3.
       - cbn. by eapply acl_from_trans.
       - apply NoDup_cons. split; [|apply NoDup_singleton]. intros E%list_elem_of_singleton. subst p2.
         destruct (gone_page T m_pd 1 i e1 x s4 Hi4 Hx4 p) as ((pq & Hpq & Hsq & _) & _); [rewrite <- (fr_page _ _ Hfr); left|].
         cbn in Hpq. assert (pq = initpp PP_USER pf2) as -> by congruence. done.
       - intros q [->| ->%list_elem_of_singleton]%elem_of_cons; [done|]. intros _. exists (initpp PP_USER pf2). split_and!; try done. by right. }
  cbn [Z.ltb Z.compare]. destruct Hin as [(x5 & Hx5 & HP5 & Ew5 & _) Ee5 Eh5 _ _ _ Ha5 _ Hact]. cbn [lf_vm set_vm] in Ee5, Eh5, Ha5, Hact. change (env_pd e1) with m_pd in *.
  unfold va_pde in HP5. rewrite Epd in HP5. fold (uaddrs_pde x5) in HP5. rewrite <- Ee5 in He4.
  apply wp_bind, wp_zoom. eapply wp_mod_env; [exact He4|]. set (e2 := set_env_u p2 e1). cbn [lf_vm set_vm].
  set (s6 := set_et (put i e2 (vm_et s5)) s5).
  assert (vm_ok (opened T m_pd 1) s6) as Hi6 by (apply put_inv with e1; try done; by left).
  assert (vm_et s6 = put i e2 (vm_et s)) as Ee6 by (unfold s6; cbn; by rewrite Ee5, Ee4, Ee3, put_put).
  assert (envpd_active x5 = cpu) as Eact by (by rewrite (Hact x x5 Hx4 Hx5)).
  assert (vm_heap s6 = vm_heap s) as Eh6 by (cbn; congruence). assert (acl_from s s6) as Ha6 by (eapply acl_from_trans; [exact Ha3|]; eapply acl_from_trans; [exact Ha4|exact Ha5]).
  apply wp_bind, wp_zoom. rewrite <- Eact. eapply wp_mono; [by apply (uaddr_run T m_pd x5 s6)|].
  intros r s7 [[-> ->]|(-> & T' & x7 & Hi7 & Hx7 & Ea7 & HT7 & Eu7 & Ee7 & Eh7 & Ha7 & Hk7)].
  - rewrite (proj2 (Z.ltb_lt _ _)) by elia. apply wp_bind.
    eapply wp_mono; [apply (env_free_spec T m_pd 1 [] i e2 x5)|].
    all: cbn [lf_vm set_vm env_used_list]; try done.
    + rewrite Ee6. apply lookup_insert_eq.
    + by rewrite uses_free.
    + pose proof (sp_rc _ _ _ _ (proj1 (vi_spaces _ _ _ _ Hi6) m_pd x5 Hx5)) as Hrc. cbn in Hrc.
      rewrite Z.eqb_refl in Hrc. change (put i e2 (vm_et s5)) with (vm_et s6) in Hrc.
      rewrite Ee6, (nlive_put _ i e e2 (vm_et s) He), !uses_free, (nlive_none (closed T) m_pd s Hi Hpd) in Hrc by done. cbn in Hrc. lia.
    + intros q Hq. by apply not_elem_of_nil in Hq.
    + apply unlink_perm in Hul. rewrite Hul. left.
    + intros [] L' [[Fe (T' & Fo) Fh Fa Ff Fu Fn] _]. apply wp_ret. left. split; [elia|].
      assert (curenv (vm_et (lf_vm L')) <> Some i) as Hc.
      { rewrite Fe. cbn. rewrite Ee5, Ee4, Ee3. cbn. intros Hc. destruct (vi_cur _ _ _ _ Hi i Hc) as (e0 & He0 & ?). congruence. }
      cbn [lf_vm set_vm] in Fe, Fh, Fa. rewrite Ee6, put_put in Fe. rewrite (buried_id i (env_dead e2) _ _ Fe Hc) in Fo.
      split; [by exists T'|]. split; [|by right]. exists (env_dead e2). split_and!; try done; [by rewrite Fh|by eapply acl_from_trans].
  - cbn [Z.ltb Z.compare]. apply wp_bind, wp_zoom, wp_get_pd. exists x7. split; [done|]. cbn [lf_vm set_vm].
    apply wp_bind, wp_zoom, wp_modify. cbn [lf_vm set_vm]. apply wp_bind, wp_zoom. eapply wp_upd_pd; [exact Hx7|]. apply wp_ret.
    right. split; [done|]. rewrite <- Ea7. fold (uaddr_pde x7).
    split; [|split; [exists e2; split; [|done]|done]].
    + exists T', (set_pdid (env_id e1) x7). cbn [lf_vm set_vm vm_pds set_pds]. split_and!.
      * apply (pdid_inv (opened T' m_pd 1) m_pd x7 (env_id e1) (set_pts _ s7)); [|done]. by apply ktab_write_inv.
      * apply lookup_insert_eq.
      * split; [change (uaddrs_pde (set_pdid _ x7)) with (uaddrs_pde x7); by rewrite Eu7|].
        assert (tst uflags PG_P = true) as HPw by done. assert (tst (va_pde x5 (uarea_va (env_id e1))) PG_P = true) as HPva by (unfold va_pde; by rewrite Epd).
        destruct (Hk7 (uarea_va (env_id e1)) Hva HPva) as [Ev7 Ew7].
        assert (pt_get_ptep x7 (uarea_va (env_id e1)) = pt_get_ptep x5 (uarea_va (env_id e1))) as Ek by (unfold pt_get_ptep; by rewrite Ev7).
        change (pt_get_ptep (set_pdid _ x7) (uarea_va (env_id e))) with (pt_get_ptep x7 (uarea_va (env_id e1))). rewrite Ek.
        rewrite <- (proj2 (proj2 (pte_of_spec p2 uflags ltac:(lia) ltac:(done))) PG_P ltac:(done)), <- Ew5 in HPw.
        change (pte_at s6 ?k) with (pte_at s5 k) in Ew7. rewrite <- Ew7 in HPw. unfold pte_at in HPw |- *. cbn. rewrite lookup_insert_ne; [exact HPw|].
        intros [= E _]. pose proof (va_table s7 m_pd x7 (uarea_va (env_id e1)) Hx7 Hva) as Ht7. rewrite Ev7 in Ht7.
        destruct (vi_tab _ _ _ _ Hi7 _ _ _ (Ht7 HPva)) as [Hn7 _]. apply Hn7. unfold pt_get_ptep. cbn [fst g_tabs opened]. rewrite Ev7. change (env_id e1) with (env_id e). by rewrite <- E.
    + split_and!; try done; cbn; [by rewrite Ee7, Ee6|by rewrite Eh7, Eh6|]. eapply acl_from_trans; [exact Ha6|exact Ha7].
Qed.
End newpt.

(** ** The environment table *)

(** Every slot is on one of the two lists, those on the free list are not in
    use, and a name says its slot and when it was given. *)
Record table_ok (L : life) : Prop := mkTable {
  ta_nd : NoDup (env_free_list L ++ env_used_list L);
  ta_slot : forall i, i ∈ env_free_list L ++ env_used_list L <-> is_Some (envs (vm_et (lf_vm L)) !! i);
  ta_range : forall i, i ∈ env_free_list L ++ env_used_list L -> 0 <= i < NENV;
  ta_free : forall i e, i ∈ env_free_list L -> envs (vm_et (lf_vm L)) !! i = Some e -> env_status e = ENV_FREE;
  ta_next : 0 <= next_env_id L;
  ta_id : forall i e, envs (vm_et (lf_vm L)) !! i = Some e -> env_status e <> ENV_FREE ->
    envidx (env_id e) = i /\ env_id e < Z.shiftl (next_env_id L) (1 + LOG2NENV);
  ta_caps : caps_ok (vm_et (lf_vm L)) }.

Record life_ok (L : life) : Prop := mkLifeOk {
  lo_vm : exists T, vm_ok (closed T) (lf_vm L);
  lo_acl : acls_ok (lf_vm L);
  lo_tab : table_ok L }.

Lemma new_id n i : 0 <= n < 2 ^ 21 -> 0 <= i < NENV ->
  let id := Z.lor (u32 (Z.shiftl n (1 + LOG2NENV))) i in
  envidx id = i /\ Z.shiftl n (1 + LOG2NENV) <= id < Z.shiftl (n + 1) (1 + LOG2NENV) /\ 0 <= id < 2 ^ 32.
Proof.
  intros Hn Hi. cbv zeta. unfold NENV, LOG2NENV in *. change (1 + 10) with 11. rewrite !Z.shiftl_mul_pow2 by lia. rewrite u32_small by lia.
  rewrite <- Z.shiftl_mul_pow2 by lia. rewrite lor_split by lia. split; [|rewrite ?Z.shiftl_mul_pow2; lia]. unfold envidx, NENV. change (1024 - 1) with (Z.ones 10).
  rewrite Z.land_ones by lia. symmetry. apply (Z.mod_unique _ _ (n * 2)); lia.
Qed.

(** The record of one slot, and its place, change. *)
Lemma table_slot i e e' L L' :
  table_ok L -> i ∈ env_used_list L -> envs (vm_et (lf_vm L)) !! i = Some e -> envs (vm_et (lf_vm L')) = <[i := e']> (envs (vm_et (lf_vm L))) ->
  lists_after i L L' -> next_env_id L' = next_env_id L -> (forall c, c ∈ env_clist e' -> c_isptr c = false) ->
  (i ∈ env_free_list L' -> env_status e' = ENV_FREE) ->
  (env_status e' <> ENV_FREE -> envidx (env_id e') = i /\ env_id e' < Z.shiftl (next_env_id L) (1 + LOG2NENV)) -> table_ok L'.
Proof.
  intros [ND SL RG FR NX ID CP] Hin He Ee Hl En Hc Hf Hid.
  assert (env_free_list L' ++ env_used_list L' ≡ₚ env_free_list L ++ env_used_list L) as Hperm.
  { destruct Hl as [[-> ->]|[-> Hu]]; [done|]. apply unlink_perm in Hu. rewrite Hu. cbn. apply Permutation_middle. }
  assert (forall j, j ∈ env_free_list L' ++ env_used_list L' <-> j ∈ env_free_list L ++ env_used_list L) as Hel by (intros j; by rewrite Hperm).
  split.
  - by rewrite Hperm.
  - intros j. rewrite Hel, SL, Ee. destruct (decide (i = j)) as [<-|Hne]; [rewrite lookup_insert_eq, He; split; eauto|by rewrite lookup_insert_ne].
  - intros j Hj%Hel. by apply RG.
  - intros j ej Hj Hej. rewrite Ee in Hej. destruct (decide (i = j)) as [<-|Hne].
    + rewrite lookup_insert_eq in Hej. injection Hej as <-. auto.
    + rewrite lookup_insert_ne in Hej by done. apply (FR j ej); [|done].
      destruct Hl as [[E _]|[E _]]; rewrite E in Hj; [done|]. apply elem_of_cons in Hj as [?|?]; [congruence|done].
  - by rewrite En.
  - intros j ej Hej Hs. rewrite En. rewrite Ee in Hej. destruct (decide (i = j)) as [<-|Hne].
    + rewrite lookup_insert_eq in Hej. injection Hej as <-. auto.
    + rewrite lookup_insert_ne in Hej by done. by apply ID.
  - intros j ej c Hej Hin'. rewrite Ee in Hej. destruct (decide (i = j)) as [<-|Hne].
    + rewrite lookup_insert_eq in Hej. injection Hej as <-. auto.
    + rewrite lookup_insert_ne in Hej by done. by eapply CP.
Qed.

Lemma clist_free i e L c : table_ok L -> envs (vm_et (lf_vm L)) !! i = Some e -> c ∈ env_clist e -> c_isptr c = false.
Proof. intros [] He. by apply (ta_caps0 i e). Qed.

Lemma not_made_ok i e L L' :
  life_ok L -> i ∈ env_used_list L -> envs (vm_et (lf_vm L)) !! i = Some e -> not_made i e L L' -> life_ok L'.
Proof.
  intros [Hv Ha Ht] Hin He (Hok & (e' & Eet & Hf & Ec & _ & Eh & Hacl & En) & Hl). split; [done|by eapply acls_keep|].
  apply (table_slot i e e' L); try done; [by rewrite Eet|].
  intros c. rewrite Ec. by eapply clist_free.
Qed.

(** What a step does to names: those in use were in use before, for the same
    slot, or are new. *)
Definition ids_step (L L' : life) : Prop :=
  next_env_id L <= next_env_id L' /\
  forall j e', envs (vm_et (lf_vm L')) !! j = Some e' -> env_status e' <> ENV_FREE ->
    (exists e, envs (vm_et (lf_vm L)) !! j = Some e /\ env_status e <> ENV_FREE /\ env_id e' = env_id e) \/
    Z.shiftl (next_env_id L) (1 + LOG2NENV) <= env_id e'.

Lemma ids_refl L L' : next_env_id L' = next_env_id L -> envs (vm_et (lf_vm L')) = envs (vm_et (lf_vm L)) -> ids_step L L'.
Proof. intros En Ee. split; [lia|]. intros j e'. rewrite Ee. eauto 6. Qed.

Lemma ids_trans L1 L2 L3 : ids_step L1 L2 -> ids_step L2 L3 -> ids_step L1 L3.
Proof.
  intros [N1 H1] [N2 H2]. split; [lia|]. intros j e3 He3 Hs3. destruct (H2 j e3 He3 Hs3) as [(e2 & He2 & Hs2 & E2)|Hge].
  - rewrite E2. by apply H1.
  - right. rewrite !Z.shiftl_mul_pow2 in * by done. nia.
Qed.

Lemma ids_free i e' L L' :
  next_env_id L' = next_env_id L -> envs (vm_et (lf_vm L')) = <[i := e']> (envs (vm_et (lf_vm L))) -> env_status e' = ENV_FREE -> ids_step L L'.
Proof.
  intros En Ee Hf. split; [lia|]. intros j ej Hej Hs. rewrite Ee in Hej. destruct (decide (i = j)) as [<-|Hne].
  - rewrite lookup_insert_eq in Hej. by injection Hej as <-.
  - rewrite lookup_insert_ne in Hej by done. eauto 6.
Qed.

Lemma ids_same i e e' L L' :
  envs (vm_et (lf_vm L)) !! i = Some e -> env_status e <> ENV_FREE -> env_id e' = env_id e -> next_env_id L' = next_env_id L ->
  envs (vm_et (lf_vm L')) = <[i := e']> (envs (vm_et (lf_vm L))) -> ids_step L L'.
Proof.
  intros He Hs Hid En Ee. split; [lia|]. intros j ej Hej Hsj. rewrite Ee in Hej. left. destruct (decide (i = j)) as [<-|Hne].
  - rewrite lookup_insert_eq in Hej. injection Hej as <-. eauto.
  - rewrite lookup_insert_ne in Hej by done. eauto 6.
Qed.

(** The first lines of [env_alloc]: a slot and a name. *)
Definition slot_taken (i : Z) (fl : list Z) (L : life) : life :=
  set_vm (set_et (put i (env_named (Z.lor (u32 (Z.shiftl (next_env_id L) (1 + LOG2NENV))) i)) (vm_et (lf_vm L))) (lf_vm L))
    (set_next_id (u32 (next_env_id L + 1)) (set_lists fl (i :: env_used_list L) L)).

Lemma slot_taken_ok i fl L :
  life_ok L -> env_free_list L = i :: fl -> next_env_id L < 2 ^ 21 ->
  life_ok (slot_taken i fl L) /\ ids_step L (slot_taken i fl L) /\ 0 <= i < NENV /\
  (exists e0, envs (vm_et (lf_vm L)) !! i = Some e0 /\ env_status e0 = ENV_FREE) /\ next_env_id (slot_taken i fl L) = next_env_id L + 1.
Proof.
  intros [[T Hi] Ha [ND SL RG FR NX ID CP]] Hfl Hn. rewrite Hfl in *.
  assert (u32 (next_env_id L + 1) = next_env_id L + 1) as En by (apply u32_small; lia).
  destruct (proj1 (SL i) ltac:(left)) as [e0 He0]. pose proof (FR i e0 ltac:(left) He0) as Hf0. pose proof (RG i ltac:(left)) as Hr.
  destruct (new_id (next_env_id L) i ltac:(lia) Hr) as (I1 & I2 & I3). set (id := Z.lor _ i) in *.
  assert (fl ++ i :: env_used_list L ≡ₚ (i :: fl) ++ env_used_list L) as Hperm by (cbn; by rewrite Permutation_middle).
  split_and!; try done; try lia.
  - split; [exists T; apply put_inv with e0; try done; by left|done|]. split; cbn; rewrite ?En; try lia.
    + by rewrite Hperm.
    + intros j. rewrite Hperm, SL. destruct (decide (i = j)) as [<-|Hne]; [rewrite lookup_insert_eq, He0; split; eauto|by rewrite lookup_insert_ne].
    + intros j. rewrite Hperm. apply RG.
    + intros j ej Hj Hej. destruct (decide (i = j)) as [<-|Hne].
      * rewrite lookup_insert_eq in Hej. by injection Hej as <-.
      * rewrite lookup_insert_ne in Hej by done. apply (FR j ej); [by right|done].
    + intros j ej Hej Hs. destruct (decide (i = j)) as [<-|Hne].
      * rewrite lookup_insert_eq in Hej. by injection Hej as <-.
      * rewrite lookup_insert_ne in Hej by done. destruct (ID j ej Hej Hs) as [? Hlt]. split; [done|]. rewrite !Z.shiftl_mul_pow2 in * by done. nia.
    + intros j ej c Hej Hc. cbn in Hej. destruct (decide (i = j)) as [<-|Hne].
      * rewrite lookup_insert_eq in Hej. injection Hej as <-. cbn in Hc. apply list_elem_of_In, repeat_spec in Hc. by subst c.
      * rewrite lookup_insert_ne in Hej by done. by eapply CP.
  - split; [cbn; lia|]. intros j ej Hej Hs. cbn in Hej. destruct (decide (i = j)) as [<-|Hne].
    + rewrite lookup_insert_eq in Hej. by injection Hej as <-.
    + rewrite lookup_insert_ne in Hej by done. eauto 6.
  - eauto.
Qed.

(** A new environment is in slot [i]. *)
Record created (i : Z) (e : Env) (L L' : life) : Prop := mkCreated {
  cr_et : vm_et (lf_vm L') = put i e (vm_et (lf_vm L));
  cr_was : exists e0, envs (vm_et (lf_vm L)) !! i = Some e0 /\ env_status e0 = ENV_FREE;
  cr_st : env_status e = ENV_OK;
  cr_id : envidx (env_id e) = i /\ Z.shiftl (next_env_id L) (1 + LOG2NENV) <= env_id e < 2 ^ 32;
  cr_map : exists x, vm_pds (lf_vm L') !! env_pd e = Some x /\ uarea_mapped (lf_vm L') x (env_id e);
  cr_heap : vm_heap (lf_vm L') = vm_heap (lf_vm L);
  cr_clist : length (env_clist e) = Z.to_nat MAX_CAPNO;
  cr_used : i ∈ env_used_list L' }.

(** What creating promises its callers. *)
Definition alloc_post (L : life) (r : Z * option Z) (L' : life) : Prop :=
  life_ok L' /\ ids_step L L' /\ curenv (vm_et (lf_vm L')) = curenv (vm_et (lf_vm L)) /\
  match snd r with None => fst r < 0 | Some i => fst r = 0 /\ exists e, created i e L L' end.

(** The slot was filled but for its status. *)
Lemma made_ok i d e e3 L L' :
  life_ok L -> i ∈ env_used_list L -> envs (vm_et (lf_vm L)) !! i = Some e -> env_status e = ENV_FREE -> made i d e L L' ->
  envidx (env_id e) = i -> env_id e < Z.shiftl (next_env_id L) (1 + LOG2NENV) ->
  env_status e3 <> ENV_FREE -> env_pd e3 = d -> env_clist e3 = env_clist e -> env_id e3 = env_id e ->
  let L3 := set_vm (set_et (put i e3 (vm_et (lf_vm L'))) (lf_vm L')) L' in
  life_ok L3 /\ vm_et (lf_vm L3) = put i e3 (vm_et (lf_vm L)) /\ vm_heap (lf_vm L3) = vm_heap (lf_vm L) /\
  next_env_id L3 = next_env_id L /\ i ∈ env_used_list L3 /\
  exists x, vm_pds (lf_vm L3) !! d = Some x /\ uarea_mapped (lf_vm L3) x (env_id e).
Proof.
  intros [Hv Ha Ht] Hin He Hf ((T & x & Hok & Hx & Hum) & (e' & (Eet & Hf' & Ec & Ei & Eh & Hacl & En) & Hd') & El1 & El2) Hid Hlt Hs Hd Hc3 Hi3. cbv zeta.
  assert (envs (vm_et (lf_vm L')) !! i = Some e') as He' by (rewrite Eet; apply lookup_insert_eq).
  split_and!; try done.
  - split.
    + exists T. cbn. by eapply (enroll_inv T d i e' e3 x); [..|apply Hum].
    + eapply acls_keep; [exact Ha|done|exact Hacl].
    + apply (table_slot i e e3 L); try done.
      * cbn. rewrite Eet. cbn. by rewrite insert_insert_eq.
      * by left.
      * rewrite Hc3. intros c. by eapply clist_free.
      * cbn. rewrite El1. intros Hfl. destruct Ht as [ND _ _ _ _ _ _]. apply NoDup_app in ND as (_ & Hn & _). by destruct (Hn i Hfl).
      * rewrite Hi3. done.
  - cbn. by rewrite Eet, put_put.
  - cbn. by rewrite El2.
  - exists x. done.
Qed.

Lemma env_alloc_spec b m_pd m_np m_vp cpu L :
  life_ok L -> next_env_id L < 2 ^ 21 -> m_pd <> 0 -> vm_pds (lf_vm L) !! m_pd = None ->
  (m_vp = 0 \/ vm_vps (lf_vm L) !! m_vp = None) -> 0 <= cpu < NR_CPUS ->
  wp (env_alloc b m_pd m_np m_vp true cpu) L (alloc_post L).
Proof.
  intros HL Hn Hm Hpd Hvp Hcpu. unfold env_alloc, alloc_post. apply wp_bind, wp_gets. destruct (env_free_list L) as [|i fl] eqn:Efl.
  { apply wp_ret. split; [done|]. split; [by apply ids_refl|]. split; [done|]. cbn. elia. }
  destruct (slot_taken_ok i fl L HL Efl Hn) as (HL1 & Hids1 & Hr & (e0 & He0 & Hf0) & En1).
  apply wp_bind, wp_modify, wp_bind, wp_gets, wp_bind, wp_modify, wp_bind, wp_zoom, wp_modify.
  change (set_vm _ _) with (slot_taken i fl L). set (L1 := slot_taken i fl L) in *.
  set (e1 := env_named (Z.lor (u32 (Z.shiftl (next_env_id L) (1 + LOG2NENV))) i)).
  assert (envs (vm_et (lf_vm L1)) !! i = Some e1) as He1 by apply lookup_insert_eq.
  assert (i ∈ env_used_list L1) as Hin1 by left. pose proof HL as [_ _ [_ _ _ _ Hn0 _ _]].
  destruct (new_id (next_env_id L) i ltac:(lia) Hr) as (I1 & I2 & I3). change (Z.lor _ i) with (env_id e1) in I1, I2, I3.
  destruct HL1 as [[T Hi1] Ha1 Ht1] eqn:EHL. clear EHL. destruct (unlink_Some i (env_used_list L1) Hin1) as [ul Hul].
  apply wp_bind. eapply wp_mono; [by apply (env_newpt_spec b m_pd m_np m_vp i cpu e1 T L1 ul)|].
  intros r L2 [[Hr0 Hnm]|[-> Hmd]].
  - rewrite (proj2 (Z.ltb_lt _ _)) by done. apply wp_ret. cbn. pose proof Hnm as (_ & (e' & Eet & Hf' & _ & _ & _ & _ & En2) & _).
    split_and!; [by eapply not_made_ok| |by rewrite Eet|done]. eapply ids_trans; [exact Hids1|]. eapply ids_free; [exact En2|by rewrite Eet|done].
  - cbn [Z.ltb Z.compare]. pose proof Hmd as (_ & (e' & (Eet & Hf' & Ec & Ei & _) & Hd') & _).
    assert (envs (vm_et (lf_vm L2)) !! i = Some e') as He2 by (rewrite Eet; apply lookup_insert_eq).
    apply wp_bind, wp_zoom. eapply wp_mod_env; [exact He2|]. apply wp_bind, wp_zoom. eapply wp_mod_env; [apply lookup_insert_eq|]. apply wp_ret.
    set (e3 := set_env_status ENV_OK (env_start e')).
    match goal with |- life_ok ?X /\ _ => assert (X = set_vm (set_et (put i e3 (vm_et (lf_vm L2))) (lf_vm L2)) L2) as -> end.
    { unfold set_vm. cbn. f_equal. unfold set_et. cbn. f_equal. apply put_put. }
    destruct (made_ok i m_pd e1 e3 L1 L2) as (Hok & Eet3 & Eh3 & En3 & Hu3 & x & Hx & Hum); try done.
    { rewrite En1. lia. }
    split; [done|]. split; [|split; [by rewrite Eet3|]].
    + split; [rewrite En3, En1; lia|]. intros j ej Hej Hs. rewrite Eet3 in Hej. cbn in Hej. destruct (decide (i = j)) as [<-|Hne].
      * rewrite lookup_insert_eq in Hej. injection Hej as <-. right. cbn. rewrite Ei. lia.
      * rewrite !lookup_insert_ne in Hej by done. eauto 6.
    + split; [done|]. exists e3. assert (env_id e3 = env_id e1) as Eid by exact Ei. split; rewrite ?Eid; try done.
      * rewrite Eet3. cbn. apply put_put.
      * eauto.
      * split; [done|lia].
      * exists x. change (env_pd e3) with (env_pd e'). rewrite Hd'. done.
      * change (env_clist e3) with (env_clist e'). rewrite Ec. reflexivity.
Qed.

Lemma nlive_bound d L : table_ok L -> nlive d (vm_et (lf_vm L)) <= NENV.
Proof.
  intros [_ SL RG _ _ _ _]. unfold nlive, kcount. set (m := filter _ _).
  assert ((map_to_list m).*1 ⊆+ zseq 0 1024) as Hs.
  { apply NoDup_submseteq; [apply NoDup_fst_map_to_list|]. intros i ([j e] & -> & Hin)%list_elem_of_fmap.
    apply elem_of_map_to_list, map_lookup_filter_Some in Hin as [Hj _]. apply zseq_elem. cbn.
    pose proof (RG j (proj2 (SL j) (ex_intro _ e Hj))) as Hr. unfold NENV in Hr. lia. }
  apply submseteq_length in Hs. rewrite length_fmap, length_map_to_list, zseq_length in Hs. unfold NENV. lia.
Qed.

(** Slot [i] is given up after its directory got one more reference. *)
Lemma hand_back T d i e e' x L1 L :
  vm_ok (opened T d 1) (lf_vm L1) -> slot_only i e L L1 e' -> env_pd e' = d -> vm_pds (lf_vm L1) !! d = Some x ->
  tst (uaddrs_pde x) PG_P = true -> envpd_rc x < 2 ^ 15 -> i ∈ env_used_list L -> (forall e0, curenv (vm_et (lf_vm L)) = Some i -> envs (vm_et (lf_vm L)) !! i = Some e0 -> False) ->
  is_Some (envs (vm_et (lf_vm L)) !! i) ->
  env_free_list L1 = env_free_list L -> env_used_list L1 = env_used_list L ->
  wp (kill_env [] i) L1 (fun _ L' => not_made i e L L').
Proof.
  intros Hi (Eet & Hf & Ec & Ei & Eh & Ha & En) Hd Hx HP Hrc Hin Hcur [e0 He0] El1 El2.
  eapply wp_mono; [apply (kill_env_spec T d 1 [] i e' x L1); try done|].
  - rewrite Eet. apply lookup_insert_eq.
  - by rewrite uses_free.
  - intros q Hq. by apply not_elem_of_nil in Hq.
  - by rewrite El2.
  - intros r L' (_ & [Ket (T' & Kok) Kh Ka Kf Ku Kn] & _). split; [by exists T'|]. split.
    + exists (env_dead e'). split.
      * rewrite Ket, Eet. unfold bury. rewrite bool_decide_eq_false_2 by (cbn; intros Hc; by eapply Hcur). rewrite put_put. by destruct (vm_et (lf_vm L)).
      * split_and!; try done; [congruence|by eapply acl_from_trans|congruence].
    + right. rewrite Kf, El1. split; [done|]. by rewrite <- El2.
Qed.

Section clone.
Context (m_vp cur i : Z) (e ce : Env) (T : gset Z) (L : life).
Let s := lf_vm L.
Context (HL : life_ok L) (Hi : vm_ok (closed T) s) (He : envs (vm_et s) !! i = Some e) (Hf : env_status e = ENV_FREE) (Hin : i ∈ env_used_list L).
Context (Hcur : curenv (vm_et s) = Some cur) (Hce : envs (vm_et s) !! cur = Some ce) (Hlive : env_status ce <> ENV_FREE).
Context (Hvp : m_vp = 0 \/ vm_vps s !! m_vp = None).

Lemma clone_space_spec :
  wp (clone_space m_vp i ce) L (fun r L' => match snd r with None => fst r < 0 /\ not_made i e L L'
    | Some j => j = i /\ fst r = 0 /\ exists L2 e', made i (env_pd ce) e L L2 /\ envs (vm_et (lf_vm L2)) !! i = Some e' /\
        L' = set_vm (set_et (put i (set_env_status ENV_OK e') (vm_et (lf_vm L2))) (lf_vm L2)) L2 end).
Proof.
  unfold clone_space. set (d := env_pd ce). set (e1 := set_env_pd d e). destruct (vi_env _ _ _ _ Hi cur ce Hce Hlive) as [x Hx]. fold d in Hx.
  assert (forall e0, curenv (vm_et s) = Some i -> envs (vm_et s) !! i = Some e0 -> False) as Hnc.
  { intros e0 Hc _. assert (cur = i) as E by congruence. subst cur. congruence. }
  apply wp_bind, wp_zoom. eapply wp_mod_env; [exact He|]. fold s d e1. cbn [lf_vm set_vm]. set (s1 := set_et (put i e1 (vm_et s)) s).
  assert (vm_ok (closed T) s1) as Hi1 by (apply put_inv with e; try done; by left).
  pose proof (sp_utab _ _ _ _ (proj1 (vi_spaces _ _ _ _ Hi) d x Hx) eq_refl) as HP.
  assert (0 < envpd_rc x <= NENV) as Hrc.
  { split; [apply (do_rc _ _ _ (vi_dirs _ _ _ _ Hi d x Hx))|]. rewrite (sp_rc _ _ _ _ (proj1 (vi_spaces _ _ _ _ Hi) d x Hx)). cbn.
    pose proof (nlive_bound d L (lo_tab _ HL)). unfold s. lia. }
  unfold NENV in Hrc. apply wp_bind, wp_zoom. eapply wp_upd_pd; [exact Hx|]. cbn [lf_vm set_vm]. rewrite s16_small by lia.
  set (x2 := set_rc (envpd_rc x + 1) x). change (vm_pds s1) with (vm_pds s). set (s2 := set_pds _ s1).
  assert (vm_ok (opened T d 1) s2) as Hi2 by (by apply (join_inv T d x s1)).
  assert (vm_pds s2 !! d = Some x2) as Hx2 by apply lookup_insert_eq.
  assert (slot_only i e L (set_vm s2 L) e1) as Hso by (split_and!; try done; exact (acl_from_refl s)).
  apply wp_bind, wp_zoom. cbn [lf_vm set_vm]. eapply wp_mono; [by apply (alloc_run (opened T d 1) PP_USER)|].
  intros r s3 [[-> ->]|(p & -> & [Hi3 Hr3 (pf & Hp3) Hun3 Es3 Hw3 Hk3 Ha3])]; cbn [snd fst].
  { apply wp_bind. eapply wp_mono; [eapply (hand_back T d i e e1 x2 _ L); try done; cbn; try lia; eauto|]. intros u L' H. apply wp_ret. cbn. split; [elia|done]. }
  assert (vm_pds s3 = vm_pds s2 /\ vm_et s3 = vm_et s2 /\ vm_heap s3 = vm_heap s2 /\ vm_vps s3 = vm_vps s2) as (Ep3 & Ee3 & Eh3 & Ev3) by (by rewrite Es3).
  assert (envs (vm_et s3) !! i = Some e1) as He3 by (rewrite Ee3; apply lookup_insert_eq). assert (vm_pds s3 !! d = Some x2) as Hx3 by (by rewrite Ep3).
  assert (slot_only i e L (set_vm s3 L) e1) as Hso3 by (by split_and!).
  apply wp_bind, wp_zoom. eapply wp_vm_env; [exact He3|]. apply wp_bind, wp_zoom. cbn [lf_vm set_vm]. destruct (uarea_uva (env_id e1)) as [Hva Epd].
  eapply wp_mono; [eapply (ppage_insert_spec (opened T d 1) m_vp i e1 x2 p (initpp PP_USER pf) [] 0 0); try done|].
  { by intros [?|[?|?]]. }
  { cbn. by rewrite Ev3. }
  intros r s4 [(-> & Hi4 & Hin4)|[-> ->]].
  2: { rewrite (proj2 (Z.ltb_lt _ _)) by elia. apply wp_bind.
       eapply wp_mono; [eapply (hand_back T d i e e1 x2 _ L); try done; cbn; try lia; eauto|]. intros u L' H. apply wp_ret. cbn. split; [elia|done]. }
  cbn [Z.ltb Z.compare]. destruct Hin4 as [(x4 & Hx4 & HP4 & Ew4 & _) Ee4 Eh4 _ _ _ Ha4 _ _]. cbn [lf_vm set_vm] in Ee4, Eh4, Ha4.
  change (env_pd e1) with d in *. assert (envs (vm_et s4) !! i = Some e1) as He4 by (by rewrite Ee4).
  apply wp_bind, wp_zoom. eapply wp_mod_env; [exact He4|]. apply wp_bind, wp_zoom. eapply wp_mod_env; [apply lookup_insert_eq|]. apply wp_ret.
  cbn [snd fst]. split; [done|]. split; [done|]. exists (set_vm (set_et (put i (set_env_u p e1) (vm_et s4)) s4) L), (set_env_u p e1).
  split; [|split; [apply lookup_insert_eq|done]]. split; [|split; [|done]].
  - exists T, x4. cbn [lf_vm set_vm]. split; [apply put_inv with e1; try done; by left|]. split; [done|]. split.
    + unfold uaddrs_pde. unfold va_pde in HP4. by rewrite Epd in HP4.
    + change (pte_at (set_et _ s4) ?k) with (pte_at s4 k). change (env_id e) with (env_id e1). rewrite Ew4. by apply (pte_of_spec p uflags ltac:(lia) ltac:(done)).
  - exists (set_env_u p e1). split; [|done]. split_and!; try done; cbn; [by rewrite Ee4, Ee3; apply put_put|by rewrite Eh4, Eh3|].
    eapply acl_from_trans; [exact (acl_from_refl s)|]. eapply acl_from_trans; [exact Ha3|exact Ha4].
Qed.
End clone.

Definition put_life (i : Z) (e : Env) (L : life) : life := set_vm (set_et (put i e (vm_et (lf_vm L))) (lf_vm L)) L.

(** A record that is not in use, or is before and after, changes. *)
Lemma put_life_ok i e e' L :
  life_ok L -> i ∈ env_used_list L -> envs (vm_et (lf_vm L)) !! i = Some e -> (env_status e' = ENV_FREE <-> env_status e = ENV_FREE) ->
  (env_status e = ENV_FREE \/ env_pd e' = env_pd e) -> (forall c, c ∈ env_clist e' -> c_isptr c = false) -> env_id e' = env_id e ->
  life_ok (put_life i e' L).
Proof.
  intros [[T Hv] Ha Ht] Hin He Hs Hpd Hc Hid. split; [exists T; by eapply put_inv|done|].
  apply (table_slot i e e' L); try done; [by left| |].
  - intros Hfl. destruct Ht as [ND _ _ _ _ _ _]. apply NoDup_app in ND as (_ & Hn & _). by destruct (Hn i Hfl).
  - intros Hn. rewrite Hid. apply (ta_id _ Ht i e He). by rewrite <- Hs.
Qed.

Lemma env_clone_spec b m_vp cur ce L :
  life_ok L -> curenv (vm_et (lf_vm L)) = Some cur -> envs (vm_et (lf_vm L)) !! cur = Some ce -> env_status ce <> ENV_FREE ->
  next_env_id L < 2 ^ 21 -> (m_vp = 0 \/ vm_vps (lf_vm L) !! m_vp = None) ->
  wp (env_clone b m_vp) L (alloc_post L).
Proof.
  intros HL Hcur Hce Hlive Hn Hvp. unfold env_clone. apply wp_bind, wp_zoom, wp_zoom, wp_of_option. exists cur. split; [done|].
  assert (forall A (m : M life A) Q, wp m L Q -> wp m (set_vm (set_et (vm_et (lf_vm L)) (lf_vm L)) L) Q) as Hid.
  { intros A m Q H. by destruct L as [[]]. }
  apply Hid. clear Hid. unfold env_alloc. apply wp_bind, wp_bind, wp_gets. destruct (env_free_list L) as [|i fl] eqn:Efl.
  { apply wp_ret. cbn. apply wp_ret. split; [done|]. split; [by apply ids_refl|]. split; [done|]. cbn. elia. }
  destruct (slot_taken_ok i fl L HL Efl Hn) as (HL1 & Hids1 & Hr & (e0 & He0 & Hf0) & En1).
  apply wp_bind, wp_modify, wp_bind, wp_gets, wp_bind, wp_modify, wp_bind, wp_zoom, wp_modify, wp_bind, wp_ret.
  change (set_vm _ _) with (slot_taken i fl L). set (L1 := slot_taken i fl L) in *.
  set (e1 := env_named (Z.lor (u32 (Z.shiftl (next_env_id L) (1 + LOG2NENV))) i)).
  assert (envs (vm_et (lf_vm L1)) !! i = Some e1) as He1 by apply lookup_insert_eq. assert (i ∈ env_used_list L1) as Hin1 by left.
  pose proof (ta_next _ (lo_tab _ HL)) as Hn0.
  destruct (new_id (next_env_id L) i ltac:(lia) Hr) as (I1 & I2 & I3). change (Z.lor _ i) with (env_id e1) in I1, I2, I3.
  cbn [Z.ltb Z.compare]. apply wp_bind, wp_zoom. eapply wp_mod_env; [exact He1|]. apply wp_bind, wp_ret, wp_ret. cbn [snd fst].
  set (e2 := env_start e1). change (set_vm _ L1) with (put_life i e2 L1). set (L2 := put_life i e2 L1).
  assert (life_ok L2) as HL2 by (apply put_life_ok with e1; try done; [by left|]; intros c; exact (clist_free i e1 L1 c (lo_tab _ HL1) He1)).
  assert (cur <> i) as Hne by (intros ->; congruence). destruct (lo_vm _ HL2) as [T Hi2].
  assert (envs (vm_et (lf_vm L2)) !! cur = Some ce) as Hce2 by (cbn; by rewrite !lookup_insert_ne).
  apply wp_bind, wp_zoom. eapply wp_vm_env; [exact Hce2|].
  assert (forall A (m : M life A) Q, wp m L2 Q -> wp m (set_vm (lf_vm L2) L2) Q) as Hid by (intros A m Q H; by destruct L2).
  apply Hid. clear Hid. assert (envs (vm_et (lf_vm L2)) !! i = Some e2) as He2 by apply lookup_insert_eq.
  eapply wp_mono; [by apply (clone_space_spec m_vp cur i e2 ce T L2)|]. intros [r o] L3. cbn [snd fst]. destruct o as [j|].
  - intros (-> & -> & L4 & e' & Hmd & He' & ->). pose proof Hmd as (_ & (e'' & (Eet & Hf' & Ec & Ei & _) & Hd') & _).
    assert (e'' = e') as -> by (rewrite Eet in He'; cbn in He'; rewrite lookup_insert_eq in He'; congruence).
    destruct (made_ok i (env_pd ce) e2 (set_env_status ENV_OK e') L2 L4) as (Hok & Eet3 & Eh3 & En3 & Hu3 & x & Hx & Hum); try done.
    { cbn [next_env_id L2 put_life set_vm]. change (env_id e2) with (env_id e1). rewrite En1. lia. }
    split; [done|]. split; [|split; [by rewrite Eet3|]].
    + split; [rewrite En3; change (next_env_id L2) with (next_env_id L1); rewrite En1; lia|]. intros j ej Hej Hs. rewrite Eet3 in Hej. cbn in Hej. destruct (decide (i = j)) as [<-|Hnj].
      * rewrite lookup_insert_eq in Hej. injection Hej as <-. right. cbn. rewrite Ei. change (env_id e2) with (env_id e1). lia.
      * rewrite !lookup_insert_ne in Hej by done. eauto 6.
    + split; [done|]. exists (set_env_status ENV_OK e'). assert (env_id (set_env_status ENV_OK e') = env_id e1) as Eid by exact Ei.
      split; rewrite ?Eid; try done.
      * rewrite Eet3. cbn. by rewrite !put_put.
      * eauto.
      * split; [done|lia].
      * exists x. cbn. rewrite Hd'. done.
      * cbn. rewrite Ec. reflexivity.
  - intros [Hr0 Hnm]. pose proof Hnm as (_ & (e' & Eet & Hf' & _ & _ & _ & _ & En2) & _).
    split; [by eapply (not_made_ok i e2 L2)|]. split; [|split; [by rewrite Eet|done]].
    eapply ids_trans; [exact Hids1|]. eapply ids_trans; [apply (ids_free i e2 L1 L2); done|]. eapply ids_free; [exact En2|by rewrite Eet|done].
Qed.

(** ** The system calls *)

Lemma life_id s L : lf_vm L = s -> set_vm s L = L.
Proof. intros <-. by destruct L. Qed.

Lemma used_live i e L : table_ok L -> envs (vm_et (lf_vm L)) !! i = Some e -> env_status e <> ENV_FREE -> i ∈ env_used_list L.
Proof.
  intros [ND SL RG FR NX ID CP] He Hs. destruct (proj1 (elem_of_app _ _ _) (proj2 (SL i) (ex_intro _ e He))) as [Hfl|]; [|done].
  by destruct Hs; eapply FR.
Qed.

(** The page of the u-area gets the capability as its only owner. *)
Lemma set_cap_uarea_spec i e x c L :
  life_ok L -> envs (vm_et (lf_vm L)) !! i = Some e -> vm_pds (lf_vm L) !! env_pd e = Some x -> uarea_mapped (lf_vm L) x (env_id e) ->
  c_isptr c = false ->
  wp (in_vm (set_cap_uarea i c)) L (fun _ L' => life_ok L' /\ vm_et (lf_vm L') = vm_et (lf_vm L) /\ next_env_id L' = next_env_id L).
Proof.
  intros [[T Hi] Ha Ht] He Hx [HP HPw] Hc. apply wp_zoom. unfold set_cap_uarea. apply wp_bind. eapply wp_vm_env; [exact He|].
  apply wp_bind, wp_get_pd. exists x. split; [done|]. apply wp_bind, wp_gets. set (k := pt_get_ptep x _) in *.
  change (default 0 (vm_pts (lf_vm L) !! k)) with (pte_at (lf_vm L) k). pose proof (pte_present _ _ HPw) as Hw.
  destruct (uarea_uva (env_id e)) as [Hva Epd].
  assert (upte (closed T) (k, pte_at (lf_vm L) k) = true) as Hup.
  { rewrite (upte_in (closed T) (env_pd e) (PDENO (uarea_va (env_id e))) (fst k) (lf_vm L) _ _ _ _ Hi); [done| |done].
    apply va_table; try done. unfold va_pde. by rewrite Epd. }
  destruct (vi_live _ _ _ _ Hi k _ Hw Hup) as (_ & _ & _ & pp & Hp). set (p := Z.shiftr (pte_at (lf_vm L) k) PGSHIFT) in *.
  assert (0 < nmaps (closed T) p (lf_vm L)) as Hpos by (eapply kcount_pos; [exact Hw|]; unfold maps; rewrite Hup; cbn; apply Z.eqb_refl).
  destruct (mapped_page (closed T) _ _ (lf_vm L) p Hi ltac:(lia) pp Hp) as (l & n & cc & Hu & _ & _ & Hk).
  eapply wp_upd_page; [exact Hp|]. split; [|done]. split; [exists T; cbn; by apply (attr_inv (closed T) p pp)| |by destruct Ht].
  destruct (Ha p pp Hp) as [Hwf Hlen]. intros q pq Hq. cbn in Hq. destruct (decide (p = q)) as [<-|Hne].
  - rewrite lookup_insert_eq in Hq. injection Hq as <-. cbn. split; [|by rewrite !length_insert].
    unfold acl_wf in *. apply Forall_insert; [apply Forall_insert; [done|]|]; [by rewrite Hc|done].
  - rewrite lookup_insert_ne in Hq by done. by apply Ha in Hq.
Qed.

(** What the allocator promises for one creation. *)
Definition fresh_mem (m_pd m_vp : Z) (L : life) : Prop :=
  m_pd <> 0 /\ vm_pds (lf_vm L) !! m_pd = None /\ (m_vp = 0 \/ vm_vps (lf_vm L) !! m_vp = None).

Lemma sys_env_alloc_spec b m_pd m_np m_vp clone k cur ce L :
  life_ok L -> curenv (vm_et (lf_vm L)) = Some cur -> envs (vm_et (lf_vm L)) !! cur = Some ce -> next_env_id L < 2 ^ 21 -> fresh_mem m_pd m_vp L ->
  wp (sys_env_alloc b m_pd m_np m_vp clone k) L (fun r L' => life_ok L' /\ ids_step L L' /\
    curenv (vm_et (lf_vm L')) = curenv (vm_et (lf_vm L)) /\
    match snd r with
    | Some err => err < 0
    | None => exists c i e, env_getcap ce k = inl c /\ Z.land (c_perm c) CL_ALL = CL_ALL /\ fst r = env_id e /\
        (exists e0, envs (vm_et (lf_vm L)) !! i = Some e0 /\ env_status e0 = ENV_FREE) /\
        vm_et (lf_vm L') = put i e (vm_et (lf_vm L)) /\ env_status e = ENV_OK /\ head (env_clist e) = Some c /\
        envidx (env_id e) = i /\ Z.shiftl (next_env_id L) (1 + LOG2NENV) <= env_id e
    end).
Proof.
  intros HL Hcur Hce Hn (Hm & Hpd & Hvp). unfold sys_env_alloc. apply wp_bind, wp_zoom, wp_zoom, wp_of_option. exists cur. split; [done|].
  apply wp_bind, wp_zoom. eapply wp_vm_env; [exact Hce|]. rewrite (life_id _ L) by (by destruct L as [[]]). rewrite (life_id _ L) by done.
  destruct (env_getcap ce k) as [c|r] eqn:Ek.
  2: { apply wp_ret. split; [done|]. split; [by apply ids_refl|]. split; [done|]. cbn. unfold env_getcap in Ek. repeat case_match; simplify_eq; elia. }
  destruct (Z.eqb_spec (Z.land (c_perm c) CL_ALL) CL_ALL) as [Hall|]; cbn [negb].
  2: { apply wp_ret. split; [done|]. split; [by apply ids_refl|]. split; [done|]. cbn. elia. }
  destruct (env_getcap_inl _ _ _ Ek) as [Hcin _]. pose proof (ta_caps _ (lo_tab _ HL) cur ce c Hce Hcin) as Hptr.
  destruct (lo_vm _ HL) as [T Hi]. destruct (vi_cur _ _ _ _ Hi cur Hcur) as (ce' & Hce' & Hlive). assert (ce' = ce) as -> by congruence.
  apply wp_bind. eapply (wp_mono _ _ (alloc_post L)).
  { destruct clone; [by eapply env_clone_spec|by apply env_alloc_spec]. }
  intros [r o] L1 (HL1 & Hids & Ecur & Ho). cbn [snd fst] in *. destruct o as [i|]; [|by apply wp_ret].
  destruct Ho as (-> & e & [Eet Hwas Hst Hid (x & Hx & Hum) Eh Hlen Hu]).
  assert (envs (vm_et (lf_vm L1)) !! i = Some e) as He by (rewrite Eet; apply lookup_insert_eq).
  apply wp_bind, wp_zoom. eapply wp_mod_env; [exact He|]. set (e2 := set_clist (<[0%nat := c]> (env_clist e)) e).
  change (set_vm _ L1) with (put_life i e2 L1).
  assert (life_ok (put_life i e2 L1)) as HL2.
  { apply put_life_ok with e; try done; [by right|]. intros c' Hc'. pose proof (clist_free i e L1 c' (lo_tab _ HL1) He) as Hold.
    cbn in Hc'. destruct (env_clist e) as [|a l]; [by apply not_elem_of_nil in Hc'|]. apply elem_of_cons in Hc' as [->|Hc']; [done|]. apply Hold. by right. }
  apply wp_bind. eapply wp_mono; [apply (set_cap_uarea_spec i e2 x c (put_life i e2 L1)); try done; apply lookup_insert_eq|].
  intros [] L3 (HL3 & Eet3 & En3). assert (vm_et (lf_vm L3) = put i e2 (vm_et (lf_vm L))) as Ee3 by (rewrite Eet3; cbn; by rewrite Eet, put_put).
  apply wp_bind, wp_zoom. eapply wp_vm_env; [rewrite Ee3; apply lookup_insert_eq|]. apply wp_ret. rewrite (life_id _ L3) by done.
  cbn [snd fst]. split; [done|]. split; [|split; [by rewrite Ee3|]].
  - eapply ids_trans; [exact Hids|]. apply (ids_same i e e2); try done; [by rewrite Hst|by rewrite Eet3].
  - exists c, i, e2. split_and!; try done; [|apply Hid..].
    cbn. destruct (env_clist e) eqn:El; [cbn in Hlen; discriminate|done].
Qed.

Lemma kill_live_spec held i e L :
  life_ok L -> envs (vm_et (lf_vm L)) !! i = Some e -> env_status e <> ENV_FREE -> held_pins held (lf_vm L) ->
  wp (kill_env held i) L (fun r L' => life_ok L' /\ ids_step L L' /\ vm_et (lf_vm L') = bury i (env_dead e) (vm_et (lf_vm L)) /\
    r = bool_decide (curenv (vm_et (lf_vm L)) = Some i) /\ env_free_list L' = i :: env_free_list L /\
    exists x, vm_pds (lf_vm L) !! env_pd e = Some x /\ dir_after held (env_pd e) x (lf_vm L) (lf_vm L')).
Proof.
  intros HL He Hs Hh. pose proof HL as [[T Hi] Ha Ht]. destruct (vi_env _ _ _ _ Hi i e He Hs) as [x Hx].
  pose proof (proj1 (vi_spaces _ _ _ _ Hi) _ x Hx) as [Hrc _ _ _ _ Hut]. cbn in Hrc. pose proof (nlive_bound (env_pd e) L Ht) as Hb. unfold NENV in Hb.
  pose proof (used_live i e L Ht He Hs) as Hu.
  eapply wp_mono; [apply (kill_env_spec T (env_pd e) 0 held i e x L); try done|].
  - by apply open_dir.
  - unfold uses. cbn. by rewrite (proj2 (Z.eqb_neq _ _) Hs), Z.eqb_refl.
  - by apply Hut.
  - lia.
  - intros r L' (-> & [Ket Kok Kh Ka Kf Ku Kn] & Hdir). split_and!; try done.
    + split; [done|by eapply acls_keep|]. apply (table_slot i e (env_dead e) L); try done; [by rewrite Ket|by right|].
      intros c. by apply (clist_free i e L c Ht).
    + eapply ids_free; [done|by rewrite Ket|done].
    + by exists x.
Qed.

Lemma sys_env_free_spec held k envid cur ce L :
  life_ok L -> curenv (vm_et (lf_vm L)) = Some cur -> envs (vm_et (lf_vm L)) !! cur = Some ce -> held_pins held (lf_vm L) ->
  wp (sys_env_free held k envid) L (fun r L' => life_ok L' /\ ids_step L L' /\
    (fst r < 0 /\ L' = L \/ exists i e c x, fst r = 0 /\ envs (vm_et (lf_vm L)) !! i = Some e /\ env_status e <> ENV_FREE /\ env_id e = envid /\
       env_getcap ce k = inl c /\ acl_access (vm_heap (lf_vm L)) c (take 1 (env_clist e)) ACL_ALL = Some 0 /\
       vm_et (lf_vm L') = bury i (env_dead e) (vm_et (lf_vm L)) /\ snd r = bool_decide (curenv (vm_et (lf_vm L)) = Some i) /\
       env_free_list L' = i :: env_free_list L /\
       vm_pds (lf_vm L) !! env_pd e = Some x /\ dir_after held (env_pd e) x (lf_vm L) (lf_vm L'))).
Proof.
  intros HL Hcur Hce Hh. pose proof HL as [[T Hi] Ha Ht]. unfold sys_env_free. apply wp_bind, wp_zoom, wp_gets. rewrite life_id by done.
  apply wp_bind, wp_zoom. pose proof (target_run (closed T) false k envid ACL_ALL cur ce (lf_vm L) (ta_caps _ Ht) Hi Hcur Hce) as Htg.
  apply wp_bind, wp_gets in Htg. eapply wp_mono; [exact Htg|]. intros [i|r] s' [-> Hr]; rewrite life_id by done.
  2: { apply wp_ret. split; [done|]. split; [by apply ids_refl|]. by left. }
  destruct Hr as (e & He & Hs & Hid & c & Hc & Hacc). apply wp_bind, wp_zoom. eapply wp_vm_env; [exact He|]. rewrite life_id by done.
  destruct (env_id e =? 0). { apply wp_ret. split; [done|]. split; [by apply ids_refl|]. left. cbn. split; [elia|done]. }
  apply wp_bind. eapply wp_mono; [by eapply kill_live_spec|]. intros g L' (HL' & Hids & Eet & -> & Hfl & x & Hx & Hdir). apply wp_ret.
  split; [done|]. split; [done|]. right. exists i, e, c, x. by split_and!.
Qed.
