(* ===== verification/EnvRun.v ===== *)
(** * Environments: boot and runs

    [env_init] of sys/kern/env.c establishes the invariant of EnvSafe, every
    step of the machine keeps it, and what follows: memory stays isolated while
    address spaces come and go, names are not used twice, and an environment
    that is destroyed leaves nothing behind. *)

From Stdlib Require Import ZArith Lia.
From stdpp Require Import base numbers option list gmap relations.
From S2P Require Import Prelude Capability EnvTable PageState PageAlloc PageTable Pmap EnvLife EnvSafe.

(** ** Boot *)

(** The invariant looks at the records and at who is running. *)
Lemma et_inv g et s : vm_ok g s -> envs et = envs (vm_et s) -> curenv et = curenv (vm_et s) -> vm_ok g (set_et et s).
Proof.
  intros [] Ee Ec. split; try done; cbn; rewrite ?Ee, ?Ec; try done.
  - intros d x Hx. by destruct (vi_dirs d x Hx).
  - by apply spaces_et.
Qed.

Lemma life_et et L :
  life_ok L -> envs et = envs (vm_et (lf_vm L)) -> curenv et = curenv (vm_et (lf_vm L)) -> life_ok (set_vm (set_et et (lf_vm L)) L).
Proof.
  intros [[T Hv] Ha [ND SL RG FR NX ID CP]] Ee Ec. split; [exists T; by apply et_inv|done|].
  split; cbn; unfold caps_ok; rewrite ?Ee; done.
Qed.

(** The memory system while a program is loaded into environment [i]. *)
Record loading (i : Z) (e : Env) (mems : Z -> Z) (vas : list Z) (s0 s : vm) : Prop := mkLoading {
  ld_ok : exists T, vm_ok (closed T) s;
  ld_acl : acls_ok s;
  ld_et : vm_et s = vm_et s0;
  ld_heap : vm_heap s = vm_heap s0;
  ld_mem : forall va, va ∈ vas -> mems va = 0 \/ vm_vps s !! mems va = None }.

Lemma load_page_spec i e mems va vas s0 s :
  envs (vm_et s0) !! i = Some e -> env_status e <> ENV_FREE -> (forall v, v ∈ vas -> mems v = mems va -> mems v = 0) -> 0 <= va < UTOP ->
  loading i e mems (va :: vas) s0 s -> wlp (load_page (mems va) i va) s (fun _ s' => loading i e mems vas s0 s').
Proof.
  intros He Hs Hinj Hva [(T & Hi) Ha Eet Eh Hm]. unfold load_page. apply wlp_bind, wp_wlp. rewrite <- Eet in He.
  eapply wp_mono; [by apply (alloc_run (closed T) PP_USER)|]. intros r s1 [[-> ->]|(p & -> & [Hi1 Hr (pf & Hp) Hun Es Hw Hk Ha1])]; cbn [snd fst]; [apply wlp_panic|].
  assert (vm_pds s1 = vm_pds s /\ vm_et s1 = vm_et s /\ vm_heap s1 = vm_heap s /\ vm_vps s1 = vm_vps s) as (Ep & Ee & Eh1 & Ev) by (by rewrite Es).
  assert (acls_ok s1) as Hac1 by (by eapply acls_keep).
  destruct (vi_env _ _ _ _ Hi i e He Hs) as [x Hx]. rewrite <- Ee in He. rewrite <- Ep in Hx.
  apply wlp_bind, wp_wlp. eapply wp_mono; [eapply (ppage_insert_spec (closed T) (mems va) i e x p (initpp PP_USER pf) [] 0 0); try done|].
  - by apply uva_low.
  - by intros [?|[?|?]].
  - rewrite Ev. apply Hm. left.
  - intros r s2 [(-> & Hi2 & [_ Ee2 Eh2 _ Hv2 _ Ha2 _ _])|[-> ->]]; cbn [Z.ltb Z.compare]; [|rewrite (proj2 (Z.ltb_lt _ _)) by elia; apply wlp_panic].
    apply wp_wlp, wp_ret. split; [by exists T|by eapply acls_keep|congruence|congruence|].
    intros v Hv. destruct (Hm v ltac:(by right)) as [?|Hnone]; [by left|]. destruct (decide (mems v = mems va)) as [E|E]; [left; by apply Hinj|].
    right. apply Hv2; [done|by rewrite Ev].
Qed.

Lemma load_pages_spec i e mems s0 vas : forall s,
  envs (vm_et s0) !! i = Some e -> env_status e <> ENV_FREE -> NoDup vas -> (forall v w, v ∈ vas -> w ∈ vas -> mems v = mems w -> mems v <> 0 -> v = w) ->
  (forall v, v ∈ vas -> 0 <= v < UTOP) -> loading i e mems vas s0 s ->
  wlp (mfor (fun va => load_page (mems va) i va) vas) s (fun _ s' => loading i e mems [] s0 s').
Proof.
  induction vas as [|va vas IH]; intros s He Hs Hnd Hinj Hr Hl; cbn [mfor]; [by apply wp_wlp, wp_ret|].
  apply NoDup_cons in Hnd as [Hn Hnd]. apply wlp_bind. eapply wlp_mono; [apply load_page_spec with (vas := vas); try done|].
  - intros v Hv E. destruct (Z.eq_dec (mems v) 0) as [|H0]; [done|]. destruct Hn. rewrite <- (Hinj v va); try done; [by right|left].
  - apply Hr. left.
  - intros [] s' Hl'. apply IH; try done; [|by intros v Hv; apply Hr; right]. intros v w Hv Hw. apply Hinj; by right.
Qed.

Lemma text_vas_range fuel : forall i va size v, 0 <= i ->
  v ∈ text_vas fuel i va size -> va <= v <= va + (size - i) + (if i =? 0 then 0x20 else 0).
Proof.
  induction fuel as [|fuel IH]; intros i va size v H0; cbn [text_vas]; destruct (Z.ltb_spec i size) as [Hlt|]; try (by intros ?%not_elem_of_nil).
  intros [->|Hv]%elem_of_cons; [destruct (i =? 0); lia|]. unfold NBPG in Hv. destruct (Z.eqb_spec i 0) as [->|Hi].
  - apply IH in Hv; [|lia]. change (4096 - 0x20 =? 0) with false in Hv. cbn [Z.eqb]. lia.
  - apply IH in Hv; [|lia]. destruct (Z.eqb_spec (i + 4096) 0); lia.
Qed.

Lemma text_vas_NoDup fuel : forall i va size, 0 <= i -> NoDup (text_vas fuel i va size).
Proof.
  induction fuel as [|fuel IH]; intros i va size H0; cbn [text_vas]; destruct (i <? size); try constructor.
  - intros Hv. apply text_vas_range in Hv; [|unfold NBPG; destruct (i =? 0); lia]. unfold NBPG in Hv. lia.
  - apply IH. unfold NBPG. destruct (i =? 0); lia.
Qed.

Lemma stack_vas_range v : v ∈ stack_vas -> USTACKTOP - USTKSIZE <= v < USTACKTOP.
Proof.
  unfold stack_vas. intros (j & -> & Hj)%list_elem_of_fmap. apply zseq_elem in Hj. change (Z.of_nat (Z.to_nat (USTKSIZE / NBPG))) with 16 in Hj.
  unfold USTKSIZE, NBPG. lia.
Qed.

Lemma stack_vas_NoDup : NoDup stack_vas.
Proof. apply (NoDup_fmap_2_strong _); [|apply zseq_NoDup]. intros a b _ _. unfold NBPG. lia. Qed.

(** The program fits below the stack, and the records are fresh. *)
Definition loadable (mems : Z -> Z) (size : Z) (s : vm) : Prop :=
  let vas := text_vas (S (Z.to_nat size)) 0 UTEXT size ++ stack_vas in
  size + 0x20 < USTACKTOP - USTKSIZE - UTEXT /\ (forall va, va ∈ vas -> mems va = 0 \/ vm_vps s !! mems va = None) /\
  (forall v w, v ∈ vas -> w ∈ vas -> mems v = mems w -> mems v <> 0 -> v = w).

Lemma load_vas_ok size : size + 0x20 < USTACKTOP - USTKSIZE - UTEXT ->
  let vas := text_vas (S (Z.to_nat size)) 0 UTEXT size ++ stack_vas in NoDup vas /\ forall v, v ∈ vas -> 0 <= v < UTOP.
Proof.
  intros Hs. cbv zeta. assert (0 <= UTEXT /\ USTACKTOP <= UTOP /\ 0 <= USTACKTOP - USTKSIZE /\ 0 <= USTKSIZE) as (? & ? & ? & ?) by (by vm_compute). split.
  - apply NoDup_app. split_and!; [by apply text_vas_NoDup|..|apply stack_vas_NoDup].
    intros v Hv%text_vas_range Hw%stack_vas_range; [|lia]. cbn in Hv. lia.
  - intros v [Hv|Hv]%elem_of_app; [apply text_vas_range in Hv; [change (0 =? 0) with true in Hv; cbv iota in Hv; lia|lia]|apply stack_vas_range in Hv; lia].
Qed.

(** Loading the idle environment keeps the invariant. *)
Lemma load_idle_spec mems size i e L :
  life_ok L -> envs (vm_et (lf_vm L)) !! i = Some e -> env_status e <> ENV_FREE -> loadable mems size (lf_vm L) ->
  wlp (in_vm (load_idle_env mems size i)) L (fun _ L' => life_ok L' /\ ids_step L L').
Proof.
  intros HL He Hs (Hsz & Hm & Hinj). pose proof HL as [Hv Ha Ht]. apply wlp_zoom. unfold load_idle_env. apply wlp_bind.
  destruct (load_vas_ok size Hsz) as [Hnd Hr].
  pose proof (load_pages_spec i e mems (lf_vm L) _ (lf_vm L) He Hs Hnd Hinj Hr ltac:(by split)) as H.
  apply mfor_app in H. eapply wlp_mono; [exact H|]. clear H. intros [] s1 H. apply wlp_bind. eapply wlp_mono; [exact H|]. clear H.
  intros [] s2 [(T & Hok) Hac Eet Eh _]. assert (envs (vm_et s2) !! i = Some e) as He2 by (by rewrite Eet).
  set (L2 := set_vm (set_et (set_curenv (Some i) (vm_et s2)) s2) L). set (e2 := set_clist (alter cap_init_zerolength 0%nat (env_clist e)) (start_at (UTEXT + 0x20) e)).
  assert (life_ok L2) as HL2.
  { split; [exists T; by eapply switch_inv|done|]. destruct Ht as [ND SL RG FR NX ID CP]. split; cbn; rewrite ?Eet; done. }
  assert (life_ok (put_life i e2 L2)) as HL3.
  { apply put_life_ok with e; try done; [by eapply (used_live i e L)|by right|]. cbn. intros c Hc.
    pose proof (clist_free i e L2 c (lo_tab _ HL2) He2) as Hold. destruct (env_clist e) as [|a l]; [by apply not_elem_of_nil in Hc|].
    apply elem_of_cons in Hc as [->|Hc]; [done|]. apply Hold. by right. }
  apply wlp_bind, wp_wlp, wp_modify, wlp_bind, wp_wlp. eapply wp_mod_env; [exact He2|]. apply wlp_bind, wp_wlp. eapply wp_mod_env; [apply lookup_insert_eq|].
  apply wlp_bind, wp_wlp. eapply wp_vm_env; [apply lookup_insert_eq|]. apply wlp_bind, wlp_assert, wp_wlp, wp_modify.
  match goal with |- life_ok (set_vm (set_et ?E _) _) /\ _ => set (et := E) end.
  assert (envs et = envs (vm_et (lf_vm (put_life i e2 L2)))) as Ee by (unfold et; cbn; by rewrite insert_insert_eq). split.
  - apply (life_et et (put_life i e2 L2) HL3 Ee). reflexivity.
  - eapply (ids_same i e e2); try done. rewrite <- Eet. exact Ee.
Qed.

(** ** Runs *)

(** A call that changes one record and leaves its place in the system alone. *)
Lemma record_ok i e e' et L :
  life_ok L -> envs (vm_et (lf_vm L)) !! i = Some e -> envs et = <[i := e']> (envs (vm_et (lf_vm L))) -> curenv et = curenv (vm_et (lf_vm L)) ->
  env_status e' = env_status e -> env_pd e' = env_pd e -> env_id e' = env_id e -> (forall c, c ∈ env_clist e' -> c_isptr c = false) ->
  let L' := set_vm (set_et et (lf_vm L)) L in life_ok L' /\ ids_step L L'.
Proof.
  intros HL He Ee Ec Hs Hp Hid Hc. cbv zeta. pose proof HL as [[T Hv] Ha Ht]. split.
  - split; [|done|].
    + exists T. cbn. assert (set_et et (lf_vm L) = set_et et (set_et (put i e' (vm_et (lf_vm L))) (lf_vm L))) as -> by (by destruct (lf_vm L)).
      apply et_inv; [|done|done]. apply put_inv with e; try done; [by rewrite Hs|by right].
    + destruct Ht as [ND SL RG FR NX ID CP]. split; cbn; unfold caps_ok; rewrite ?Ee; try done.
      * intros j. rewrite SL. destruct (decide (i = j)) as [<-|Hne]; [rewrite lookup_insert_eq, He; split; eauto|by rewrite lookup_insert_ne].
      * intros j ej Hj Hej. destruct (decide (i = j)) as [<-|Hne]; [|rewrite lookup_insert_ne in Hej by done; eauto].
        rewrite lookup_insert_eq in Hej. injection Hej as <-. rewrite Hs. eauto.
      * intros j ej Hej. destruct (decide (i = j)) as [<-|Hne]; [|rewrite lookup_insert_ne in Hej by done; eauto].
        rewrite lookup_insert_eq in Hej. injection Hej as <-. rewrite Hs, Hid. eauto.
      * intros j ej c Hej. destruct (decide (i = j)) as [<-|Hne]; [|rewrite lookup_insert_ne in Hej by done; eauto].
        rewrite lookup_insert_eq in Hej. injection Hej as <-. auto.
  - split; [done|]. intros j ej Hej Hsj. cbn in Hej. rewrite Ee in Hej. left. destruct (decide (i = j)) as [<-|Hne]; [|rewrite lookup_insert_ne in Hej by done; eauto].
    rewrite lookup_insert_eq in Hej. injection Hej as <-. exists e. by rewrite <- Hs.
Qed.

Lemma record_same et L : life_ok L -> envs et = envs (vm_et (lf_vm L)) -> curenv et = curenv (vm_et (lf_vm L)) ->
  let L' := set_vm (set_et et (lf_vm L)) L in life_ok L' /\ ids_step L L'.
Proof. intros HL Ee Ec. split; [by apply life_et|by apply ids_refl]. Qed.

Lemma clist_write_ok i k c et L :
  life_ok L -> clist_write (vm_et (lf_vm L)) et i k c -> curenv et = curenv (vm_et (lf_vm L)) -> c_isptr c = false ->
  let L' := set_vm (set_et et (lf_vm L)) L in life_ok L' /\ ids_step L L'.
Proof.
  intros HL (e & He & Hk & Ee) Ec Hc. eapply record_ok; [done|exact He|exact Ee|done..|]. cbn. intros c' Hc'.
  apply list_elem_of_lookup in Hc' as [j Hj]. destruct (decide (j = Z.to_nat k)) as [->|Hne].
  - destruct (decide (Z.to_nat k < length (env_clist e))%nat).
    + rewrite list_lookup_insert_eq in Hj by done. by injection Hj as <-.
    + rewrite list_insert_ge in Hj by lia. apply list_elem_of_lookup_2 in Hj. by apply (clist_free i e L c' (lo_tab _ HL)).
  - rewrite list_lookup_insert_ne in Hj by done. apply list_elem_of_lookup_2 in Hj. by apply (clist_free i e L c' (lo_tab _ HL)).
Qed.

Lemma sys_forge_cur h sn k kd np n ke envid s r s' : sys_forge h sn k kd np n ke envid s = Ret r s' -> curenv s' = curenv s.
Proof.
  unfold sys_forge, get_curenv, get_env, upd_env, mbind_, gets, modify. destruct (curenv s) as [cur|] eqn:Ec; cbn [of_option mreturn]; [|done].
  destruct ((match sn return M envtab (Z + Z) with SYS_self_forge => mreturn (inl cur) | SYS_forge => env_access h ke envid ACL_W end) s) as [r0 s0|] eqn:Er0; [|done].
  assert (s0 = s) as -> by (destruct sn; [by apply env_access_ret in Er0 as [-> _]|by injection Er0]).
  destruct r0 as [ei|]; [|by intros [= _ <-]]. destruct (envs s !! ei); cbn [of_option mreturn]; [|done]. destruct (_ <=? _); [by intros [= _ <-]|].
  destruct (envs s !! cur); cbn [of_option mreturn]; [|done]. destruct (env_getcap _ k); [|by intros [= _ <-]].
  destruct (_ && _); [by intros [= _ <-]|]. destruct (_ || _); [by intros [= _ <-]|]. destruct (_ || _); by intros [= _ <-].
Qed.

Lemma sys_self_acquire_cur k genvid s r s' : sys_self_acquire k genvid s = Ret r s' -> curenv s' = curenv s.
Proof.
  unfold sys_self_acquire, get_curenv, get_env, get_uarea, upd_env, upd_uarea, mbind_, get, modify.
  destruct (curenv s) as [cur|] eqn:Ec; cbn [of_option mreturn]; [|done]. destruct (envs s !! cur) as [ce|]; cbn [of_option mreturn]; [|done].
  destruct (_ || _); [by intros [= _ <-]|]. destruct (env_id2env s genvid); [|by intros [= _ <-]]. destruct (envs s !! _) as [e|]; cbn [of_option mreturn]; [|done].
  destruct (_ =? 0); [by intros [= _ <-]|]. destruct (uareas s !! env_u e) as [u|]; cbn [of_option mreturn]; [|done].
  destruct (negb _); [by intros [= _ <-]|]. destruct (env_getcap _ _); [|by intros [= _ <-]]. destruct (_ || _); by intros [= _ <-].
Qed.

(** The system calls on environments and memory, and what the kernel itself
    does.  Memory calls are those of [vm_step]: ranges do not wrap, no page is
    close to 2^16 references, [num_completed] points to user memory and [PG_P] is
    not cleared.  Otherwise the arguments are arbitrary; the conditions are what
    the allocator promises about the addresses it returns, that the pages a
    destroyed environment holds are pinned, and that fewer than 2^21
    environments were created (the counter of names has that many values). *)
Inductive life_step (L L' : life) : Prop :=
  | ls_memory s' : is_Some (curenv (vm_et (lf_vm L))) -> vm_step (lf_vm L) s' -> L' = set_vm s' L -> life_step L L'
  | ls_switch i e : envs (vm_et (lf_vm L)) !! i = Some e -> env_status e <> ENV_FREE ->
      L' = set_vm (set_et (set_curenv (Some i) (vm_et (lf_vm L))) (lf_vm L)) L -> life_step L L'
  | ls_forge sn k kd np n ke envid r : 0 <= kd ->
      in_vm (in_et (sys_forge (vm_heap (lf_vm L)) sn k kd np n ke envid)) L = Ret r L' -> life_step L L'
  | ls_acquire k genvid r : 0 <= k -> in_vm (in_et (sys_self_acquire k genvid)) L = Ret r L' -> life_step L L'
  | ls_wru k envid ue r : in_vm (in_et (sys_wru (vm_heap (lf_vm L)) k envid ue)) L = Ret r L' -> life_step L L'
  | ls_wrenv k envid ue r : in_vm (in_et (sys_wrenv (vm_heap (lf_vm L)) k envid ue)) L = Ret r L' -> life_step L L'
  | ls_alloc b m_pd m_np m_vp clone k r : next_env_id L < 2 ^ 21 -> fresh_mem m_pd m_vp L ->
      sys_env_alloc b m_pd m_np m_vp clone k L = Ret r L' -> life_step L L'
  | ls_free held k envid r : held_pins held (lf_vm L) -> sys_env_free held k envid L = Ret r L' -> life_step L L'
  | ls_boot b m_pd m_np m_vp r : next_env_id L < 2 ^ 21 -> fresh_mem m_pd m_vp L ->
      env_alloc b m_pd m_np m_vp true 0 L = Ret r L' -> life_step L L'
  | ls_load mems size i e r : envs (vm_et (lf_vm L)) !! i = Some e -> env_status e <> ENV_FREE -> loadable mems size (lf_vm L) ->
      in_vm (load_idle_env mems size i) L = Ret r L' -> life_step L L'.

Lemma in_et_ret {A} (m : M envtab A) r L L' : in_vm (in_et m) L = Ret r L' ->
  exists et, m (vm_et (lf_vm L)) = Ret r et /\ L' = set_vm (set_et et (lf_vm L)) L.
Proof. unfold in_vm, in_et, zoom. destruct (m _) as [a et|]; [|done]. intros [= <- <-]. eauto. Qed.

(** The calls that need somebody to be running. *)
Lemma needs_cur {A} (k : Z -> M life A) r L L' : (cur <- in_vm (in_et get_curenv) ;; k cur) L = Ret r L' ->
  exists cur, curenv (vm_et (lf_vm L)) = Some cur.
Proof. unfold mbind_, in_vm, in_et, zoom, get_curenv, of_option. destruct (curenv (vm_et (lf_vm L))); [eauto|done]. Qed.

Lemma cur_record cur L : life_ok L -> curenv (vm_et (lf_vm L)) = Some cur -> exists ce, envs (vm_et (lf_vm L)) !! cur = Some ce.
Proof. intros [[T Hv] _ _] Hc. destruct (vi_cur _ _ _ _ Hv cur Hc) as (ce & Hce & _). eauto. Qed.

(** The caller's capability number [k] gives every right over environment [i],
    whose name is [envid]. *)
Definition owns (h : aclheap) (s : envtab) (k envid i : Z) (e : Env) : Prop :=
  exists cur ce c, curenv s = Some cur /\ envs s !! cur = Some ce /\ env_getcap ce k = inl c /\
    env_id2env s envid = inl i /\ envs s !! i = Some e /\ acl_access h c (take 1 (env_clist e)) ACL_ALL = Some 0.

Lemma sys_wru_ret h k envid ue s r s' : sys_wru h k envid ue s = Ret r s' -> envs s' = envs s /\ curenv s' = curenv s.
Proof.
  unfold sys_wru, mbind_. destruct (env_access h k envid ACL_ALL s) as [r0 s0|] eqn:E; [|done].
  apply env_access_ret in E as [-> _]. destruct r0 as [i|]; [|by intros [= _ <-]]. unfold get_env, of_option.
  destruct (envs s !! i) as [e|]; [|done]. cbn. destruct (env_u e =? 0); by intros [= _ <-].
Qed.

Lemma sys_wrenv_ret h k envid ue s r s' : sys_wrenv h k envid ue s = Ret r s' ->
  s' = s \/ exists i e, owns h s k envid i e /\ r = 0 /\ s' = put i (wrenv ue e) s.
Proof.
  unfold sys_wrenv, mbind_. destruct (env_access h k envid ACL_ALL s) as [r0 s0|] eqn:E; [|done].
  apply env_access_ret in E as [-> E]. destruct r0 as [i|]; [|intros [= _ <-]; by left].
  destruct (E i eq_refl) as (cur & ce & c & e & H1 & H2 & H3 & H4 & H5 & H6). cbn. intros [= <- <-]. right. exists i, e.
  split; [by exists cur, ce, c|]. split; [done|]. unfold put, set_envs, set_pfm. cbn. f_equal. by apply alter_write.
Qed.

Lemma life_step_ok L L' : life_ok L -> life_step L L' -> life_ok L' /\ ids_step L L'.
Proof.
  intros HL Hst. destruct Hst as [s' Hc Hv ->|i e He Hs ->|sn k kd np n ke envid r Hkd E|k genvid r Hk E|k envid ue r E|k envid ue r E|
    b m_pd m_np m_vp clone k r Hn Hf E|held k envid r Hh E|b m_pd m_np m_vp r Hn (Hm & Hpd & Hvp) E|mems size i e r He Hs Hl E].
  - pose proof HL as [[T Hi] Ha Ht].
    assert (running (closed T) (lf_vm L)) as Hr by (split; [by split|]; split; [apply (ta_caps _ Ht)|done]).
    pose proof (vm_step_sys (closed T) _ _ Hr Hv) as ([Hi' Ha'] & Ee & _). split.
    + split; [by exists T|done|]. destruct Ht as [ND SL RG FR NX ID CP]. split; cbn; unfold caps_ok; rewrite ?Ee; done.
    + by apply ids_refl.
  - pose proof HL as [[T Hi] Ha [ND SL RG FR NX ID CP]]. split; [|by apply ids_refl]. split; [exists T; by eapply switch_inv|done|by split].
  - apply in_et_ret in E as (et & E & ->). pose proof (sys_forge_cur _ _ _ _ _ _ _ _ _ _ _ E) as Ec.
    apply sys_forge_ret in E as [Ee|(ei & cur & ce & c & x & _ & Hce & Hg & Hw & _ & _ & Hx)]; [by apply record_same| |done].
    eapply clist_write_ok; [done|exact Hw|done|]. destruct Hx as [(-> & _)|(-> & _ & _ & Hd & _)]; [done|]. by apply cap_dominates_spec in Hd as (_ & _ & _ & ? & _).
  - apply in_et_ret in E as (et & E & ->). pose proof (sys_self_acquire_cur _ _ _ _ _ E) as Ec.
    apply sys_self_acquire_ret in E as [Ee|(cur & gi & g & u & c & _ & _ & Hg & _ & Hc & Hd & _ & _ & Hw & _)]; [by apply record_same| |done].
    eapply clist_write_ok; [done|exact Hw|done|]. by apply cap_dominates_spec in Hd as (_ & _ & _ & ? & _).
  - apply in_et_ret in E as (et & [Ee Ec]%sys_wru_ret & ->). by apply record_same.
  - apply in_et_ret in E as (et & E & ->). apply sys_wrenv_ret in E as [->|(i & e & (cur & ce & c & _ & _ & _ & _ & He & _) & _ & ->)]; [by apply record_same|].
    eapply (record_ok i e (wrenv ue e)); try done. intros c' Hc'. by apply (clist_free i e L c' (lo_tab _ HL)).
  - destruct (needs_cur _ _ _ _ E) as [cur Hcur]. destruct (cur_record cur L HL Hcur) as [ce Hce].
    refine (match wp_run _ _ _ _ _ (sys_env_alloc_spec b m_pd m_np m_vp clone k cur ce L HL Hcur Hce Hn Hf) E with conj H1 (conj H2 _) => conj H1 H2 end).
  - assert (is_Some (curenv (vm_et (lf_vm L)))) as [cur Hcur].
    { destruct (curenv (vm_et (lf_vm L))) eqn:Ec; [done|]. unfold sys_env_free, mbind_, in_vm, in_et, zoom, env_access, get_curenv, gets in E. cbn in E. unfold mbind_ at 1 in E. by rewrite Ec in E. }
    destruct (cur_record cur L HL Hcur) as [ce Hce].
    refine (match wp_run _ _ _ _ _ (sys_env_free_spec held k envid cur ce L HL Hcur Hce Hh) E with conj H1 (conj H2 _) => conj H1 H2 end).
  - refine (match wp_run _ _ _ _ _ (env_alloc_spec b m_pd m_np m_vp 0 L HL Hn Hm Hpd Hvp _) E with conj H1 (conj H2 _) => conj H1 H2 end). done.
  - exact (wlp_run _ _ _ _ _ (load_idle_spec mems size i e L HL He Hs Hl) E).
Qed.

Lemma life_steps_ok L L' : life_ok L -> rtc life_step L L' -> life_ok L' /\ ids_step L L'.
Proof.
  intros HL Hst. induction Hst as [L|L1 L2 L3 H12 _ IH]; [split; [done|by apply ids_refl]|].
  destruct (life_step_ok _ _ HL H12) as [HL2 Hi]. destruct (IH HL2) as [HL3 Hi']. split; [done|by eapply ids_trans].
Qed.

(** ** Properties *)

(** C2: memory isolation while environments come and go.  After any run of the
    steps of [life_step], which create, clone, destroy and change environments,
    move capabilities and map memory, a present entry of a user page table maps a
    page that is in use, is not the kernel's, is no page table and is on no free
    list, and that is counted as having a writer if the entry is writable; and
    the table belongs to one directory entry of one address space.  The calls of a
    run are limited: no range of addresses wraps, no page comes to 2^16
    references, [num_completed] points to user memory, [PG_P] is not removed from
    an entry, fewer than 2^21 names have been given out, the allocator returns
    fresh addresses, and the pages a destroyed environment holds are pinned.
    (Pmap.v has runs of what happens without the first four.) *)
Theorem life_isolation L L' d n t i :
  life_ok L -> rtc life_step L L' -> has_table (lf_vm L') d n t ->
  (forall d' n', has_table (lf_vm L') d' n' t -> d' = d /\ n' = n) /\
  (tst (pte_at (lf_vm L') (t, i)) PG_P = true ->
   let p := Z.shiftr (pte_at (lf_vm L') (t, i)) PGSHIFT in
   exists pp, ppages (vm_pool (lf_vm L')) !! p = Some pp /\ pp_status pp <> PP_FREE /\
     pp_status pp <> PP_KERNEL /\ pp_status pp <> PP_KERNRO /\ (forall d' n', ~ has_table (lf_vm L') d' n' p) /\
     (p ∉ free_list (vm_pool (lf_vm L'))) /\ (p ∉ free_bufs (vm_pool (lf_vm L'))) /\
     (tst (pte_at (lf_vm L') (t, i)) PG_W = true -> 0 < pp_writers pp)).
Proof.
  intros HL Hst Ht. destruct (life_steps_ok L L' HL Hst) as [[[T Hi] _ _] _]. split.
  - intros d' n' Ht'. by eapply (vi_inj _ _ _ _ Hi).
  - intros HP. by apply (present_isolated (closed T)) with d n.
Qed.

(** C10: the name of an environment is not used again while fewer than 2^21 names
    have been given out: a name given out before (below the counter) that does not
    resolve any more, because its environment was destroyed, does not resolve in
    any state that the steps of [life_step] reach, whatever environments they
    create.  (A name has 21 bits of the counter, which wraps after that.) *)
Theorem env_ids_never_reused L L' envid r i :
  life_ok L -> rtc life_step L L' -> envid < Z.shiftl (next_env_id L) (1 + LOG2NENV) ->
  env_id2env (vm_et (lf_vm L)) envid = inr r -> env_id2env (vm_et (lf_vm L')) envid <> inl i.
Proof.
  intros HL Hst Hlt Hr (-> & e' & He' & Hs' & Hid)%env_id2env_inl. destruct (life_steps_ok L L' HL Hst) as [_ [_ Hids]].
  destruct (Hids _ e' He' Hs') as [(e & He & Hs & E)|Hge]; [|lia].
  assert (env_id2env (vm_et (lf_vm L)) envid = inl (envidx envid)) as H by (apply env_id2env_inl; split; [done|]; exists e; split_and!; congruence).
  congruence.
Qed.

(** C11: what [sys_env_alloc] creates, by copying the caller's address space or
    with a new one, when fewer than 2^21 names have been given out and the
    allocator has memory for the record of the directory (the code follows the
    null pointer otherwise) and returns fresh addresses.  The call returns; it
    needs a capability with every permission; a slot that was free holds an
    environment whose name says the slot and is above all names given before, and
    whose first capability is the caller's; nobody else's record changes.
    Otherwise there is an error and the invariant holds all the same. *)
Theorem sys_env_alloc_creates b m_pd m_np m_vp clone k cur ce L :
  life_ok L -> curenv (vm_et (lf_vm L)) = Some cur -> envs (vm_et (lf_vm L)) !! cur = Some ce -> next_env_id L < 2 ^ 21 -> fresh_mem m_pd m_vp L ->
  wp (sys_env_alloc b m_pd m_np m_vp clone k) L (fun r L' => life_ok L' /\
    match snd r with
    | Some err => err < 0
    | None => exists c i e, env_getcap ce k = inl c /\ Z.land (c_perm c) CL_ALL = CL_ALL /\ fst r = env_id e /\
        (exists e0, envs (vm_et (lf_vm L)) !! i = Some e0 /\ env_status e0 = ENV_FREE) /\
        vm_et (lf_vm L') = put i e (vm_et (lf_vm L)) /\ env_status e = ENV_OK /\ head (env_clist e) = Some c /\
        envidx (env_id e) = i /\ Z.shiftl (next_env_id L) (1 + LOG2NENV) <= env_id e
    end).
Proof.
  intros HL Hc Hce Hn Hf. eapply wp_mono; [by apply (sys_env_alloc_spec b m_pd m_np m_vp clone k cur ce L)|].
  intros r L' (H1 & _ & _ & H2). done.
Qed.

Lemma nlive_one d i e et :
  envs et !! i = Some e -> uses d (i, e) = true -> (forall j ej, envs et !! j = Some ej -> j <> i -> env_status ej <> ENV_FREE -> env_pd ej <> d) ->
  nlive d et = 1.
Proof.
  intros He Hu Hno. unfold nlive. rewrite (kcount_delete _ _ i e He), Hu. assert (kcount (uses d) (delete i (envs et)) = 0) as ->; [|done].
  apply kcount_zero. intros j ej [Hne Hj]%lookup_delete_Some. unfold uses. cbn. destruct (Z.eqb_spec (env_status ej) ENV_FREE); [done|]. cbn.
  apply Z.eqb_neq. by eapply Hno.
Qed.

(** C5: what [sys_env_free] destroys: only an environment whose owner
    capability the caller's dominates with every right.  [held] are the pages
    its wakeup predicate and its message ring pin, one occurrence for each pin.
    The slot is free and the first on the free list, the processor does not run
    it, every page has lost the pins in [held] and no other, and when no other
    environment uses the address space, the directory is gone and every page
    table, the directory page and the table of the u-area are free pages again.
    Without the right nothing changes. *)
Theorem sys_env_free_reclaims held k envid cur ce L :
  life_ok L -> curenv (vm_et (lf_vm L)) = Some cur -> envs (vm_et (lf_vm L)) !! cur = Some ce -> held_pins held (lf_vm L) ->
  wp (sys_env_free held k envid) L (fun r L' => life_ok L' /\
    (fst r < 0 /\ L' = L \/ fst r = 0 /\ exists i e x, owns (vm_heap (lf_vm L)) (vm_et (lf_vm L)) k envid i e /\
       vm_et (lf_vm L') = bury i (env_dead e) (vm_et (lf_vm L)) /\ env_free_list L' = i :: env_free_list L /\
       (forall q, pins (lf_vm L') q = (fun n => n - Z.of_nat (count_occ Z.eq_dec held q)) <$> pins (lf_vm L) q) /\
       vm_pds (lf_vm L) !! env_pd e = Some x /\
       ((forall j ej, envs (vm_et (lf_vm L)) !! j = Some ej -> j <> i -> env_status ej <> ENV_FREE -> env_pd ej <> env_pd e) ->
        vm_pds (lf_vm L') = delete (env_pd e) (vm_pds (lf_vm L)) /\
        forall q, q ∈ own_pages x \/ (exists n, has_table (lf_vm L) (env_pd e) n q) -> is_free (lf_vm L') q))).
Proof.
  intros HL Hc Hce Hh. eapply wp_mono; [by apply (sys_env_free_spec held k envid cur ce L)|].
  intros [r g] L' (HL' & _ & [H|(i & e & c & x & -> & He & Hs & Hid & Hg & Hacc & Eet & _ & Hfl & Hx & Hpin & Hdir)]); split; try done; [by left|]. right. split; [done|].
  exists i, e, x. split; [exists cur, ce, c; split_and!; try done|].
  { apply env_id2env_inl. destruct (ta_id _ (lo_tab _ HL) i e He Hs) as [Hix _]. rewrite Hid in Hix. split; [done|]. eauto. }
  split_and!; try done. intros Hno. pose proof HL as [[T Hi] _ _].
  pose proof (sp_rc _ _ _ _ (proj1 (vi_spaces _ _ _ _ Hi) _ x Hx)) as Hrc. cbn in Hrc.
  rewrite (nlive_one (env_pd e) i e) in Hrc; [|done| |done]; [by rewrite (proj2 (Z.eqb_eq _ _)) in Hdir by lia|].
  unfold uses. cbn. by rewrite (proj2 (Z.eqb_neq _ _) Hs), Z.eqb_refl.
Qed.

(** C31: [sys_wrenv] is confined: it changes at most the record of one
    environment, which the caller owns; and of that record neither the segment
    registers and the flags register, nor the name, the status, the address
    space or the capabilities. *)
Theorem sys_wrenv_confined h k envid ue s r s' :
  sys_wrenv h k envid ue s = Ret r s' ->
  s' = s \/ exists i e e', owns h s k envid i e /\ s' = put i e' s /\
    (tf_cs (env_tf e') = tf_cs (env_tf e) /\ tf_ds (env_tf e') = tf_ds (env_tf e) /\ tf_es (env_tf e') = tf_es (env_tf e) /\
     tf_ss (env_tf e') = tf_ss (env_tf e) /\ tf_eflags (env_tf e') = tf_eflags (env_tf e)) /\
    env_id e' = env_id e /\ env_status e' = env_status e /\ env_pd e' = env_pd e /\ env_clist e' = env_clist e /\ env_clen e' = env_clen e /\
    (tf_eip (env_tf e') = tf_eip (env_tf ue) /\ tf_esp (env_tf e') = tf_esp (env_tf ue) /\ tf_eax (env_tf e') = tf_eax (env_tf ue)).
Proof. intros [->|(i & e & Ho & _ & ->)]%sys_wrenv_ret; [by left|]. right. exists i, e, (wrenv ue e). by split_and!. Qed.

(** ** Witnesses: a machine with 300 pages boots *)

(** Nothing is mapped and no environment is in use. *)
Lemma boot_vm_ok s :
  pool_ok (vm_pool s) -> forallb (fun kv => fresh_page (snd kv)) (map_to_list (ppages (vm_pool s))) = true ->
  vm_pds s = ∅ -> vm_pts s = ∅ -> vm_vps s = ∅ -> (forall i e, envs (vm_et s) !! i = Some e -> env_status e = ENV_FREE) ->
  curenv (vm_et s) = None -> pp_status <$> ppages (vm_pool s) !! 0 = Some PP_INVAL -> vm_ok (closed ∅) s /\ acls_ok s.
Proof.
  intros Hok Hf Hpd Hpt Hvp He Hc Hz.
  assert (forall p pp, ppages (vm_pool s) !! p = Some pp -> fresh_page pp = true) as Hfp by (intros; by eapply fresh_pages).
  assert (forall d x, ~ vm_pds s !! d = Some x) as Hno by (intros d x; rewrite Hpd; by rewrite lookup_empty).
  assert (forall d n t, ~ has_table s d n t) as Ht by (intros d n t (x & Hx & _); by eapply Hno). split; [split; try done|].
  - intros p pp Hp. unfold nmaps, nwmaps. rewrite Hpt. apply (fresh_page_spec (vm_heap s) pp (Hfp p pp Hp)).
  - intros d x Hx. by destruct (Hno d x).
  - intros d n t H. by destruct (Ht d n t).
  - intros d n d' n' t H. by destruct (Ht d n t).
  - intros k w H. by rewrite Hpt in H.
  - split; intros p; intros; destruct (fresh_page_spec (vm_heap s) _ (Hfp p _ ltac:(eassumption))) as (_ & Hv & _);
      rewrite Hv in *; by match goal with H : _ ∈ [] |- _ => apply not_elem_of_nil in H end.
  - intros i e Hi Hs. by destruct Hs; eapply He.
  - intros i Hi. congruence.
  - split; [intros d x Hx|intros d d' x y q Hx]; by destruct (Hno _ _ Hx).
  - apply fmap_Some in Hz as (pz & Hp & E). by exists pz.
  - intros p pp Hp. destruct (fresh_page_spec (vm_heap s) pp (Hfp p pp Hp)) as (_ & _ & H & _). exact H.
Qed.

Definition env_zero : Env := mkEnv tf_zero 0 0 0 ENV_FREE 0 0 0 ∅ 0 0 0 0 0 0 (repeat cap_null (Z.to_nat MAX_CAPNO)).
Definition ex_slots : gmap Z Env := gset_to_gmap env_zero (list_to_set (zseq 0 (Z.to_nat NENV))).
Definition ex_boot : life := mkLife (mkVm ex_booted (mkET ex_slots None ∅ 0) ∅ ∅ ∅ ∅ []) [] [] 0 0.
Definition ex_L0 : life := env_init_lists ex_boot.

Lemma boot_table s l :
  NoDup l -> (forall i, i ∈ l <-> is_Some (envs (vm_et s) !! i)) -> (forall i, i ∈ l -> 0 <= i < NENV) ->
  (forall i e, envs (vm_et s) !! i = Some e -> e = env_zero) -> table_ok (mkLife s l [] 0 0).
Proof.
  intros Hnd Hsl Hr Hz. split; cbn [env_free_list env_used_list lf_vm next_env_id]; rewrite ?app_nil_r; try assumption; [..|reflexivity| |].
  - intros i e _ ->%Hz. reflexivity.
  - intros i e ->%Hz Hs. by destruct Hs.
  - intros i e c ->%Hz Hc. apply list_elem_of_In, repeat_spec in Hc. by subst c.
Qed.

Lemma slots_elem i e : ex_slots !! i = Some e <-> i ∈ zseq 0 (Z.to_nat NENV) /\ e = env_zero.
Proof. unfold ex_slots. rewrite lookup_gset_to_gmap_Some, elem_of_list_to_set. naive_solver. Qed.

Lemma ex_L0_ok : life_ok ex_L0.
Proof.
  destruct (boot_vm_ok (lf_vm ex_L0)) as [Hv Ha].
  - exact ex_booted_ok.
  - vm_compute. reflexivity.
  - reflexivity.
  - reflexivity.
  - reflexivity.
  - intros i e He. change (ex_slots !! i = Some e) in He. apply slots_elem in He as [_ ->]. reflexivity.
  - reflexivity.
  - vm_compute. reflexivity.
  - split; [by exists ∅|exact Ha|]. apply (boot_table (lf_vm ex_boot)).
    + apply zseq_NoDup.
    + intros i. change (envs (vm_et (lf_vm ex_boot))) with ex_slots. split.
      * intros Hi. exists env_zero. by apply slots_elem.
      * intros [e [Hi _]%slots_elem]. exact Hi.
    + intros i Hi%zseq_elem. unfold NENV in *. lia.
    + intros i e He. by apply slots_elem in He as [_ ->].
Qed.

Lemma run_to {S A} (m : M S A) s d r : ret_val (m s) = Some r -> m s = Ret r (default d (ret_state (m s))).
Proof. destruct (m s); [|done]. cbn. by intros [= ->]. Qed.

Definition ex_b : boot_maps := mkBoot ∅ 0x101000 0x102000 0x103000 0x104000 0x105000.
Definition ex_recs (va : Z) : Z := 0xf0400000 + Z.shiftr va 8.

(** Booting for real: environment 0 is idle and running, 1 is the first one. *)
Example env_init_boots :
  match env_init ex_b (0xf0200000, 0xf0201000, 0xf0202000) (0xf0210000, 0xf0211000, 0xf0212000) ex_recs 100 256 ex_boot with
  | Ret j L => Some (j, next_env_id L, curenv (vm_et (lf_vm L)), take 2 (env_used_list L))
  | Panic => None
  end = Some (1, 2, Some 0, [1; 0]).
Proof. vm_compute. reflexivity. Qed.

(** Environment 0 is made and loaded, creates another one, destroys it, and
    creates a third, in the same slot. *)
Definition ex_L1 : life := default ex_L0 (ret_state (env_alloc ex_b 0xf0200000 0xf0201000 0xf0202000 true 0 ex_L0)).
Definition ex_L2 : life := default ex_L0 (ret_state (in_vm (load_idle_env ex_recs 100 0) ex_L1)).
Definition ex_L3 : life := default ex_L0 (ret_state (sys_env_alloc ex_b 0xf0210000 0xf0211000 0xf0212000 false 0 ex_L2)).
Definition ex_L4 : life := default ex_L0 (ret_state (sys_env_free [] 0 2049 ex_L3)).
Definition ex_L5 : life := default ex_L0 (ret_state (sys_env_alloc ex_b 0xf0220000 0xf0221000 0xf0222000 true 0 ex_L4)).

Lemma ex_run1 : env_alloc ex_b 0xf0200000 0xf0201000 0xf0202000 true 0 ex_L0 = Ret (0, Some 0) ex_L1.
Proof. apply run_to. vm_compute. reflexivity. Qed.
Lemma ex_run2 : in_vm (load_idle_env ex_recs 100 0) ex_L1 = Ret tt ex_L2.
Proof. apply run_to. vm_compute. reflexivity. Qed.
Lemma ex_run3 : sys_env_alloc ex_b 0xf0210000 0xf0211000 0xf0212000 false 0 ex_L2 = Ret (2049, None) ex_L3.
Proof. apply run_to. vm_compute. reflexivity. Qed.
Lemma ex_run4 : sys_env_free [] 0 2049 ex_L3 = Ret (0, false) ex_L4.
Proof. apply run_to. vm_compute. reflexivity. Qed.
Lemma ex_run5 : sys_env_alloc ex_b 0xf0220000 0xf0221000 0xf0222000 true 0 ex_L4 = Ret (4097, None) ex_L5.
Proof. apply run_to. vm_compute. reflexivity. Qed.

Lemma fresh_mem_test m_pd m_vp L :
  negb (m_pd =? 0) && match vm_pds (lf_vm L) !! m_pd with None => true | _ => false end &&
    match vm_vps (lf_vm L) !! m_vp with None => true | _ => false end = true -> fresh_mem m_pd m_vp L.
Proof.
  intros [[H1%negb_true_iff%Z.eqb_neq H2]%andb_true_iff H3]%andb_true_iff. unfold fresh_mem.
  destruct (vm_pds (lf_vm L) !! m_pd); [done|]. destruct (vm_vps (lf_vm L) !! m_vp); [done|]. auto.
Qed.

Lemma loadable_test mems size s :
  let vas := text_vas (S (Z.to_nat size)) 0 UTEXT size ++ stack_vas in
  (size + 0x20 <? USTACKTOP - USTKSIZE - UTEXT) && forallb (fun va => match vm_vps s !! mems va with None => true | _ => false end) vas &&
    forallb (fun v => forallb (fun w => negb (mems v =? mems w) || (v =? w)) vas) vas = true -> loadable mems size s.
Proof.
  cbv zeta. intros [[H1%Z.ltb_lt H2]%andb_true_iff H3]%andb_true_iff. rewrite forallb_forall in H2, H3. split; [done|]. split.
  - intros va Hva%list_elem_of_In%H2. right. by destruct (vm_vps s !! mems va).
  - intros v w Hv%list_elem_of_In Hw%list_elem_of_In E _. pose proof (proj1 (forallb_forall _ _) (H3 v Hv) w Hw) as H.
    rewrite E, Z.eqb_refl in H. by apply Z.eqb_eq in H.
Qed.

Lemma live_test i et : match envs et !! i with Some e => negb (env_status e =? ENV_FREE) | None => false end = true ->
  exists e, envs et !! i = Some e /\ env_status e <> ENV_FREE.
Proof. destruct (envs et !! i) as [e|]; [|done]. intros H%negb_true_iff%Z.eqb_neq. eauto. Qed.

Lemma ex_step1 : life_step ex_L0 ex_L1.
Proof.
  apply (ls_boot ex_L0 ex_L1 ex_b 0xf0200000 0xf0201000 0xf0202000 (0, Some 0)); [done| |exact ex_run1].
  apply fresh_mem_test. vm_compute. reflexivity.
Qed.

Lemma ex_step2 : life_step ex_L1 ex_L2.
Proof.
  destruct (live_test 0 (vm_et (lf_vm ex_L1))) as (e & He & Hs); [vm_compute; reflexivity|].
  apply (ls_load ex_L1 ex_L2 ex_recs 100 0 e tt); [exact He|exact Hs| |exact ex_run2]. apply loadable_test. vm_compute. reflexivity.
Qed.

Lemma ex_step3 : life_step ex_L2 ex_L3.
Proof.
  apply (ls_alloc ex_L2 ex_L3 ex_b 0xf0210000 0xf0211000 0xf0212000 false 0 (2049, None)); [vm_compute; reflexivity| |exact ex_run3].
  apply fresh_mem_test. vm_compute. reflexivity.
Qed.

Lemma ex_step4 : life_step ex_L3 ex_L4.
Proof. apply (ls_free ex_L3 ex_L4 [] 0 2049 (0, false)); [|exact ex_run4]. intros q Hq. by apply not_elem_of_nil in Hq. Qed.

Lemma ex_step5 : life_step ex_L4 ex_L5.
Proof.
  apply (ls_alloc ex_L4 ex_L5 ex_b 0xf0220000 0xf0221000 0xf0222000 true 0 (4097, None)); [vm_compute; reflexivity| |exact ex_run5].
  apply fresh_mem_test. vm_compute. reflexivity.
Qed.

Lemma ex_steps3 : rtc life_step ex_L0 ex_L3.
Proof. eapply rtc_l; [exact ex_step1|]. eapply rtc_l; [exact ex_step2|]. apply rtc_once. exact ex_step3. Qed.

Lemma ex_L2_ok : life_ok ex_L2.
Proof. apply (life_steps_ok ex_L0); [exact ex_L0_ok|]. eapply rtc_l; [exact ex_step1|]. apply rtc_once. exact ex_step2. Qed.

Lemma ex_L3_ok : life_ok ex_L3.
Proof. apply (life_steps_ok ex_L0); [exact ex_L0_ok|exact ex_steps3]. Qed.

Lemma ex_L4_ok : life_ok ex_L4.
Proof. apply (life_step_ok ex_L3); [exact ex_L3_ok|exact ex_step4]. Qed.

Lemma has_table_test s d n t :
  upde n -> match vm_pds s !! d with
    | Some x => tst (pde_at x (envpd_active x) n) PG_P && (Z.shiftr (pde_at x (envpd_active x) n) PGSHIFT =? t)
    | None => false end = true -> has_table s d n t.
Proof. intros Hn. destruct (vm_pds s !! d) as [x|] eqn:Hx; [|done]. intros [H1 H2%Z.eqb_eq]%andb_true_iff. by exists x. Qed.

(** The table of the u-areas of the environment created second. *)
Definition ex_utab : Z :=
  match vm_pds (lf_vm ex_L3) !! 0xf0210000 with Some x => Z.shiftr (uaddrs_pde x) PGSHIFT | None => 0 end.

Lemma ex_has_utab : has_table (lf_vm ex_L3) 0xf0210000 (PDENO UADDRS) ex_utab.
Proof. apply has_table_test; [by right|]. vm_compute. reflexivity. Qed.

(** Its u-area, entry 1 of that table, is a page of its own. *)
Lemma life_isolation_witness :
  exists pp, ppages (vm_pool (lf_vm ex_L3)) !! Z.shiftr (pte_at (lf_vm ex_L3) (ex_utab, 1)) PGSHIFT = Some pp /\ pp_status pp <> PP_KERNEL.
Proof.
  assert (tst (pte_at (lf_vm ex_L3) (ex_utab, 1)) PG_P = true) as HP by (vm_compute; reflexivity).
  destruct (life_isolation ex_L0 ex_L3 0xf0210000 (PDENO UADDRS) ex_utab 1 ex_L0_ok ex_steps3 ex_has_utab) as [_ H].
  destruct (H HP) as (pp & Hp & _ & Hk & _). exists pp. split; [exact Hp|exact Hk].
Defined.

(** Slot 1 is in use again and its old name is not. *)
Lemma env_ids_never_reused_witness :
  env_id2env (vm_et (lf_vm ex_L5)) 4097 = inl 1 /\ env_id2env (vm_et (lf_vm ex_L5)) 2049 <> inl 1.
Proof.
  split; [vm_compute; reflexivity|].
  apply (env_ids_never_reused ex_L4 ex_L5 2049 (- E_BAD_ENV) 1 ex_L4_ok (rtc_once _ _ ex_step5)); vm_compute; reflexivity.
Defined.

Lemma sys_env_alloc_creates_witness : life_ok ex_L3 /\ sys_env_alloc ex_b 0xf0210000 0xf0211000 0xf0212000 false 0 ex_L2 = Ret (2049, None) ex_L3.
Proof.
  assert (curenv (vm_et (lf_vm ex_L2)) = Some 0) as Hc by (vm_compute; reflexivity). destruct (cur_record 0 ex_L2 ex_L2_ok Hc) as [ce Hce].
  assert (next_env_id ex_L2 < 2 ^ 21) as Hn by (vm_compute; reflexivity).
  assert (fresh_mem 0xf0210000 0xf0212000 ex_L2) as Hf by (apply fresh_mem_test; vm_compute; reflexivity).
  pose proof (sys_env_alloc_creates ex_b 0xf0210000 0xf0211000 0xf0212000 false 0 0 ce ex_L2 ex_L2_ok Hc Hce Hn Hf) as H.
  split; [exact (proj1 (wp_run _ _ _ _ _ H ex_run3))|exact ex_run3].
Defined.

Lemma others_test i d et :
  forallb (fun kv => (fst kv =? i) || (env_status (snd kv) =? ENV_FREE) || negb (env_pd (snd kv) =? d)) (map_to_list (envs et)) = true ->
  forall j ej, envs et !! j = Some ej -> j <> i -> env_status ej <> ENV_FREE -> env_pd ej <> d.
Proof.
  rewrite forallb_forall. intros H j ej Hj%elem_of_map_to_list Hne Hs Hd. specialize (H (j, ej) (proj1 (list_elem_of_In _ _) Hj)). cbn in H.
  rewrite Hd, Z.eqb_refl, (proj2 (Z.eqb_neq _ _) Hne), (proj2 (Z.eqb_neq _ _) Hs) in H. discriminate H.
Qed.

Lemma name_test et envid i j e d :
  env_id2env et envid = inl i -> envs et !! i = Some e -> env_id2env et envid = inl j -> env_pd <$> envs et !! j = Some d -> i = j /\ env_pd e = d.
Proof. intros H1 H2 H3 H4. assert (i = j) as -> by congruence. rewrite H2 in H4. by injection H4 as <-. Qed.

(** Destroying environment 2049 frees the table of its u-area. *)
Lemma sys_env_free_reclaims_witness : is_free (lf_vm ex_L4) ex_utab /\ vm_pds (lf_vm ex_L4) = delete 0xf0210000 (vm_pds (lf_vm ex_L3)).
Proof.
  assert (curenv (vm_et (lf_vm ex_L3)) = Some 0) as Hc by (vm_compute; reflexivity). destruct (cur_record 0 ex_L3 ex_L3_ok Hc) as [ce Hce].
  destruct (wp_run _ _ _ _ _ (sys_env_free_reclaims [] 0 2049 0 ce ex_L3 ex_L3_ok Hc Hce (fun q Hq => match not_elem_of_nil q Hq with end)) ex_run4) as [_ [[Hlt _]|(_ & i & e & x & Ho & _ & _ & _ & _ & H)]].
  { exfalso. revert Hlt. apply Z.lt_irrefl. }
  destruct Ho as (cur & ce' & c & _ & _ & _ & Hid & He & _).
  destruct (name_test (vm_et (lf_vm ex_L3)) 2049 i 1 e 0xf0210000 Hid He) as [-> Hd]; [vm_compute; reflexivity..|]. rewrite Hd in H.
  destruct H as [Epd Hfr]; [apply others_test; vm_compute; reflexivity|]. split; [|exact Epd]. apply Hfr. right. exists (PDENO UADDRS). exact ex_has_utab.
Defined.

(** Environment 0 writes the registers of environment 2049. *)
Definition ex_wr : Env := set_env_tf (mkTf 1 2 3 4 5 6 7 8 9 10 11 12 13 14 15) env_zero.

Lemma sys_wrenv_confined_witness : exists s',
  sys_wrenv (vm_heap (lf_vm ex_L3)) 0 2049 ex_wr (vm_et (lf_vm ex_L3)) = Ret 0 s' /\
  (s' = vm_et (lf_vm ex_L3) \/ exists i e e', owns (vm_heap (lf_vm ex_L3)) (vm_et (lf_vm ex_L3)) 0 2049 i e /\ s' = put i e' (vm_et (lf_vm ex_L3)) /\
     tf_eflags (env_tf e') = tf_eflags (env_tf e)).
Proof.
  pose proof (run_to (sys_wrenv (vm_heap (lf_vm ex_L3)) 0 2049 ex_wr) (vm_et (lf_vm ex_L3)) (vm_et (lf_vm ex_L3)) 0 ltac:(vm_compute; reflexivity)) as E.
  eexists. split; [exact E|]. destruct (sys_wrenv_confined _ _ _ _ _ _ _ E) as [H|(i & e & e' & H1 & H2 & H3 & _)]; [left; exact H|].
  right. exists i, e, e'. split; [exact H1|]. split; [exact H2|exact (proj2 (proj2 (proj2 (proj2 H3))))].
Defined.

(** ** What fails on the way *)

(** When there is no page for the directory, the slot stays on the list of used
    ones for ever, and the record of the directory is lost. *)
Example env_alloc_loses_slot :
  let L := mkLife (mkVm (boot_pool 300) (mkET ex_slots None ∅ 0) ∅ ∅ ∅ ∅ []) [0; 1; 2] [] 0 0 in
  match env_alloc ex_b 0xf0200000 0xf0201000 0xf0202000 true 0 L with
  | Ret r L' => Some (r, env_free_list L', env_used_list L', env_pd <$> envs (vm_et (lf_vm L')) !! 0)
  | Panic => None
  end = Some ((- E_NO_MEM, None), [1; 2], [0], Some 0xf0200000).
Proof. vm_compute. reflexivity. Qed.

(** When a clone cannot record the mapping of its u-area, the page taken for it
    is not given back: one page less is free, and nothing uses it. *)
Example env_clone_loses_page :
  match sys_env_alloc ex_b 0xf0210000 0 0 true 0 ex_L2 with
  | Ret r L' => Some (r, zlen (free_list (vm_pool (lf_vm ex_L2))) - zlen (free_list (vm_pool (lf_vm L'))))
  | Panic => None
  end = Some ((0, Some (- E_NO_MEM)), 1).
Proof. vm_compute. reflexivity. Qed.
