(* ===== verification/Ring.v ===== *)
(** * Rings of receive buffers

    What message rings (sys/kern/msgring.c) and packet rings (sys/kern/pktring.c)
    share: an entry holds the kernel addresses of an owner word and of the pieces
    of a buffer in user pages, which stay pinned while the entry lives; entries
    form circular lists; data is copied into the pieces (sys/xok/ae_recv.h).
    Here are the state, the copying and its specification, the shape of the
    circular lists, and the accounting of the pins. *)

From Stdlib Require Import ZArith Lia.
From stdpp Require Import functions.
From stdpp Require Import base numbers option list gmap.
From S2P Require Import Prelude Capability EnvTable PageState PageAlloc PageTable.

Definition AE_RECV_MAXSCATTER := 8.
Definition READ_MASK := Z.lor PG_P PG_U.
Definition WRITE_MASK := Z.lor PG_P (Z.lor PG_U PG_W).

(** ** State *)

(** [struct rec]: a piece of a buffer. *)
Record rec := mkRec { r_sz : Z; r_data : Z }.

(** An entry in the kernel ([struct msgringent], [struct pktringent]); the count
    [n] of its [struct ae_recv] is the length of the list. *)
Record ringent := mkRe { re_next : Z; re_owner : Z; re_appaddr : Z; re_recv : list rec }.

(** The entry a user hands in, copied from its memory; [ur_r i] for an index
    past the array is what lies behind it. *)
Record uringent := mkUr { ur_next : Z; ur_owner : Z; ur_n : Z; ur_r : Z -> rec }.

(** [r_ents] are the entries on the kernel heap at their addresses, [r_mem] the
    bytes of the buffers at their kernel addresses. *)
Record rst := mkR { r_vm : vm; r_ents : gmap Z ringent; r_mem : gmap Z Z }.

Definition r_set_vm (x : vm) (s : rst) : rst := mkR x (r_ents s) (r_mem s).
Definition r_set_ents (x : gmap Z ringent) (s : rst) : rst := mkR (r_vm s) x (r_mem s).
Definition r_set_mem (x : gmap Z Z) (s : rst) : rst := mkR (r_vm s) (r_ents s) x.

Definition in_rvm {A} (m : M vm A) : M rst A := zoom r_vm r_set_vm m.
Definition in_mem {A} (m : M (gmap Z Z) A) : M rst A := zoom r_mem r_set_mem m.

Definition get_ent (a : Z) : M rst ringent := fun s => of_option (r_ents s !! a) s.
Definition put_ent (a : Z) (e : ringent) : M rst unit := modify (fun s => r_set_ents (<[a := e]> (r_ents s)) s).
Definition upd_ent (a : Z) (f : ringent -> ringent) : M rst unit := e <- get_ent a ;; put_ent a (f e).
Definition del_ent (a : Z) : M rst unit := get_ent a ;; modify (fun s => r_set_ents (delete a (r_ents s)) s).

Definition re_set_next (x : Z) (e : ringent) : ringent := mkRe x (re_owner e) (re_appaddr e) (re_recv e).
Definition re_set_owner (x : Z) (e : ringent) : ringent := mkRe (re_next e) x (re_appaddr e) (re_recv e).
Definition re_add_rec (x : rec) (e : ringent) : ringent := mkRe (re_next e) (re_owner e) (re_appaddr e) (re_recv e ++ [x]).

(** ** Bytes *)

Definition rdb (m : gmap Z Z) (a : Z) : Z := default 0 (m !! a).
Definition rd_bytes (rd : Z -> Z) (a n : Z) : list Z := (fun i => rd (a + i)) <$> zseq 0 (Z.to_nat n).
Fixpoint wr_bytes (a : Z) (l : list Z) (m : gmap Z Z) : gmap Z Z :=
  match l with [] => m | b :: l' => wr_bytes (a + 1) l' (<[a := b]> m) end.

(** [bcopy] between kernel addresses and [copyin] from the memory of the user. *)
Definition bcopy (src dst n : Z) : M (gmap Z Z) unit := fun m => Ret tt (wr_bytes dst (rd_bytes (rdb m) src n) m).
Definition copyin (umem : Z -> Z) (src dst n : Z) : M (gmap Z Z) unit := fun m => Ret tt (wr_bytes dst (rd_bytes umem src n) m).

(** A [u_int] in memory, the low byte first. *)
Definition ld32 (m : gmap Z Z) (a : Z) : Z := rdb m a + 2 ^ 8 * rdb m (a + 1) + 2 ^ 16 * rdb m (a + 2) + 2 ^ 24 * rdb m (a + 3).
Definition bytes32 (w : Z) : list Z := [u8 w; u8 (Z.shiftr w 8); u8 (Z.shiftr w 16); u8 (Z.shiftr w 24)].
Definition st32 (a w : Z) : M (gmap Z Z) unit := modify (wr_bytes a (bytes32 w)).

(** ** sys/xok/ae_recv.h *)

Definition ae_recv_datacnt (r : list rec) : Z := foldl (fun cnt x => s32 (cnt + r_sz x)) 0 r.

(** The first loop of [ae_recv_datacpy]: skip the pieces before [startoff]. *)
Fixpoint skip_recs (r : list rec) (startoff : Z) : list rec * Z :=
  match r with
  | [] => ([], startoff)
  | x :: r' => if r_sz x <=? startoff then skip_recs r' (startoff - Z.min (r_sz x) startoff) else (r, startoff)
  end.

Section datacpy.
Context (copy : Z -> Z -> Z -> M (gmap Z Z) unit).

(** The second loop: copy piece by piece until [maxlen] bytes are there. *)
Fixpoint copy_recs (r : list rec) (startoff buf len maxlen : Z) : M (gmap Z Z) Z :=
  match r with
  | [] => mreturn len
  | x :: r' =>
      if len <? maxlen then
        let cnt := Z.min (r_sz x - startoff) (maxlen - len) in
        copy (r_data x + startoff) (buf + len) cnt ;;
        copy_recs r' 0 buf (len + cnt) maxlen
      else mreturn len
  end.

Definition datacpy (recv : list rec) (buf startoff maxlen : Z) : M (gmap Z Z) Z :=
  let '(r, off) := skip_recs recv startoff in copy_recs r off buf 0 maxlen.

(** The loop over the pieces of an entry that both kinds of ring have: [len]
    bytes of [recv] are spread over the pieces [body], up to their size. *)
Fixpoint fill_recs (recv body : list rec) (len runlen : Z) : M (gmap Z Z) Z :=
  match body with
  | [] => mreturn runlen
  | x :: body' =>
      let tmplen := Z.min (len - runlen) (r_sz x) in
      datacpy recv (r_data x) runlen tmplen ;;
      if len <=? runlen + tmplen then mreturn (runlen + tmplen)
      else fill_recs recv body' len (runlen + tmplen)
  end.
End datacpy.

Definition ae_recv_datacpy : list rec -> Z -> Z -> Z -> M (gmap Z Z) Z := datacpy bcopy.
Definition ae_recv_datacpy_in (umem : Z -> Z) : list rec -> Z -> Z -> Z -> M (gmap Z Z) Z := datacpy (copyin umem).

(** ** Pages of the entries *)

(** [pa2kva] and [kva2pp] panic beyond the memory of the machine. *)
Definition pa2kva (pa : Z) : M vm Z :=
  n <- gets (fun s => nppage (vm_pool s)) ;;
  assert_ (PGNO pa <? n) ;; mreturn (u32 (pa + KERNBASE)).
Definition pin_kva (kva : Z) : M rst unit := in_rvm (in_pool (p <- kva2pp kva ;; ppage_pin p)).
Definition unpin_kva (kva : Z) : M rst unit := in_rvm (in_pool (p <- kva2pp kva ;; ppage_unpin p)).

(** [va] has a page-table entry with all the bits of [mask]. *)
Definition va_has (mask va : Z) : M rst bool :=
  cur <- in_rvm (in_et get_curenv) ;;
  o <- in_rvm (env_va2ptep cur va) ;;
  match o with
  | None => mreturn false
  | Some k => pte <- in_rvm (pte_read k) ;; mreturn (Z.land pte mask =? mask)
  end.
(** [pa2kva (va2pa (va))]. *)
Definition va2kva (va : Z) : M rst Z :=
  cur <- in_rvm (in_et get_curenv) ;; pa <- in_rvm (env_va2pa cur va) ;; in_rvm (pa2kva pa).

(** ** Facts on bytes *)

Lemma rd_bytes_len rd a n : 0 <= n -> zlen (rd_bytes rd a n) = n.
Proof. intros. unfold rd_bytes, zlen. rewrite length_fmap, zseq_length. lia. Qed.

Lemma zseq_shift a n : zseq a n = Z.add a <$> zseq 0 n.
Proof. unfold zseq. rewrite <- list_fmap_compose. apply list_fmap_ext. intros. cbn. lia. Qed.

Lemma zseq_app a n k : zseq a (n + k) = zseq a n ++ zseq (a + Z.of_nat n) k.
Proof.
  unfold zseq. rewrite seq_app, fmap_app. f_equal. rewrite Nat.add_0_l. replace (seq n k) with (Nat.add n <$> seq 0 k) by (rewrite fmap_add_seq; f_equal; lia).
  rewrite <- list_fmap_compose.
  apply list_fmap_ext. intros. cbn. lia.
Qed.

Lemma rd_bytes_app rd a n k : 0 <= n -> 0 <= k -> rd_bytes rd a (n + k) = rd_bytes rd a n ++ rd_bytes rd (a + n) k.
Proof.
  intros. unfold rd_bytes. rewrite Z2Nat.inj_add, zseq_app, fmap_app, Z.add_0_l, Z2Nat.id by done. f_equal.
  rewrite (zseq_shift n), <- list_fmap_compose. apply list_fmap_ext. intros. cbn. f_equal. lia.
Qed.

Lemma rd_bytes_ext rd rd' a n : (forall i, 0 <= i < n -> rd (a + i) = rd' (a + i)) -> rd_bytes rd a n = rd_bytes rd' a n.
Proof.
  intros E. unfold rd_bytes. apply list_fmap_ext. intros j i Hi. apply E.
  apply list_elem_of_lookup_2, zseq_elem in Hi. lia.
Qed.

(** The prefix and the rest of the bytes of a piece. *)
Lemma rd_bytes_take rd a n k : 0 <= k <= n -> take (Z.to_nat k) (rd_bytes rd a n) = rd_bytes rd a k.
Proof.
  intros. replace n with (k + (n - k)) by lia. rewrite rd_bytes_app by lia. apply take_app_length'.
  unfold rd_bytes. rewrite length_fmap, zseq_length. lia.
Qed.
Lemma rd_bytes_drop rd a n k : 0 <= k <= n -> drop (Z.to_nat k) (rd_bytes rd a n) = rd_bytes rd (a + k) (n - k).
Proof.
  intros. replace n with (k + (n - k)) at 1 by lia. rewrite rd_bytes_app by lia. apply drop_app_length'.
  unfold rd_bytes. rewrite length_fmap, zseq_length. lia.
Qed.

Lemma wr_bytes_app l k a m : wr_bytes a (l ++ k) m = wr_bytes (a + zlen l) k (wr_bytes a l m).
Proof.
  revert a m. induction l as [|b l IH]; intros a m; cbn [app wr_bytes].
  - by rewrite zlen_nil, Z.add_0_r.
  - rewrite IH, zlen_cons. f_equal. lia.
Qed.

Lemma rdb_wr_out l a m x : ~ a <= x < a + zlen l -> rdb (wr_bytes a l m) x = rdb m x.
Proof.
  revert a m. induction l as [|b l IH]; intros a m; cbn [wr_bytes]; [done|]. rewrite zlen_cons. pose proof (zlen_nonneg l). intros Hx.
  rewrite IH by lia. unfold rdb. by rewrite lookup_insert_ne by lia.
Qed.

Lemma rdb_wr_in l a m i b : l !! i = Some b -> rdb (wr_bytes a l m) (a + Z.of_nat i) = b.
Proof.
  revert a m i. induction l as [|c l IH]; intros a m [|i]; cbn; [done..| |].
  - intros [= ->]. rewrite Z.add_0_r, rdb_wr_out by lia. unfold rdb. by rewrite lookup_insert_eq.
  - intros Hi. replace (a + Z.of_nat (S i)) with (a + 1 + Z.of_nat i) by lia. by apply IH.
Qed.

Lemma rd_bytes_same l a m : rd_bytes (rdb (wr_bytes a l m)) a (zlen l) = l.
Proof.
  apply list_eq. intros i. unfold rd_bytes, zseq, zlen. rewrite !list_lookup_fmap, Nat2Z.id.
  destruct (l !! i) as [b|] eqn:E.
  - rewrite lookup_seq_lt by (by apply lookup_lt_Some in E). cbn. f_equal. by apply rdb_wr_in.
  - rewrite lookup_seq_ge by (by apply lookup_ge_None in E). done.
Qed.

(** Byte ranges that do not meet. *)
Definition apart (a n b k : Z) : Prop := a + n <= b \/ b + k <= a \/ n <= 0 \/ k <= 0.

Lemma rd_bytes_apart l a m b k : apart a (zlen l) b k -> rd_bytes (rdb (wr_bytes a l m)) b k = rd_bytes (rdb m) b k.
Proof. intros Ha. apply rd_bytes_ext. intros i Hi. apply rdb_wr_out. unfold apart in Ha. lia. Qed.

Lemma bytes32_val w : 0 <= w < 2 ^ 32 -> u8 w + 2 ^ 8 * u8 (Z.shiftr w 8) + 2 ^ 16 * u8 (Z.shiftr w 16) + 2 ^ 24 * u8 (Z.shiftr w 24) = w.
Proof.
  intros Hw. rewrite !Z.shiftr_div_pow2 by lia. unfold u8, wrapu.
  pose proof (Z.div_mod w (2 ^ 8) ltac:(lia)). pose proof (Z.div_mod (w / 2 ^ 8) (2 ^ 8) ltac:(lia)). pose proof (Z.div_mod (w / 2 ^ 16) (2 ^ 8) ltac:(lia)).
  assert (w / 2 ^ 16 = w / 2 ^ 8 / 2 ^ 8) by (rewrite Z.div_div by lia; done).
  assert (w / 2 ^ 24 = w / 2 ^ 16 / 2 ^ 8) by (rewrite Z.div_div by lia; done).
  rewrite (Z.mod_small (w / 2 ^ 24)); [lia|]. split; [apply Z.div_pos; lia|apply Z.div_lt_upper_bound; lia].
Qed.

Lemma ld32_st32 a w m : 0 <= w < 2 ^ 32 -> ld32 (wr_bytes a (bytes32 w) m) a = w.
Proof.
  intros Hw. unfold ld32. assert (forall i b, bytes32 w !! Z.to_nat i = Some b -> 0 <= i -> rdb (wr_bytes a (bytes32 w) m) (a + i) = b) as E.
  { intros i b Hb Hi. rewrite <- (Z2Nat.id i) by done. by apply rdb_wr_in. }
  rewrite (E 1 (u8 (Z.shiftr w 8))), (E 2 (u8 (Z.shiftr w 16))), (E 3 (u8 (Z.shiftr w 24))) by done.
  rewrite <- (Z.add_0_r a) at 2. rewrite (E 0 (u8 w)) by done. by apply bytes32_val.
Qed.

Lemma ld32_ext m m' a : rd_bytes (rdb m) a 4 = rd_bytes (rdb m') a 4 -> ld32 m a = ld32 m' a.
Proof.
  intros E. change (((fun i => rdb m (a + i)) <$> [0; 1; 2; 3]) = ((fun i => rdb m' (a + i)) <$> [0; 1; 2; 3])) in E. cbn [fmap list_fmap] in E. rewrite Z.add_0_r in E.
  injection E as E0 E1 E2 E3. unfold ld32. congruence.
Qed.

(** ** What copying does *)

Definition bytes_of (rd : Z -> Z) (r : list rec) : list Z := r ≫= (fun x => rd_bytes rd (r_data x) (r_sz x)).
(** The pieces [body] filled with the bytes [l], from the first on. *)
Fixpoint wr_pieces (body : list rec) (l : list Z) (m : gmap Z Z) : gmap Z Z :=
  match body with
  | [] => m
  | x :: body' => wr_pieces body' (drop (Z.to_nat (r_sz x)) l) (wr_bytes (r_data x) (take (Z.to_nat (r_sz x)) l) m)
  end.
Definition sizes (r : list rec) : Z := foldr (fun x n => r_sz x + n) 0 r.

Lemma wr_pieces_nil body m : wr_pieces body [] m = m.
Proof. revert m. induction body as [|x body IH]; intros m; cbn; [done|]. by rewrite drop_nil, take_nil, IH. Qed.

(** What reading the pieces gives, when they do not overlap. *)
Definition pieces_apart (x y : rec) : Prop := apart (r_data x) (r_sz x) (r_data y) (r_sz y).

(** Copying from the pieces [recv], whose bytes are those of [rd] as long as [I]
    holds of the memory, to addresses that satisfy [fb]. *)
Section copying.
Context (copy : Z -> Z -> Z -> M (gmap Z Z) unit) (rd : Z -> Z) (recv : list rec) (I : gmap Z Z -> Prop) (fb : Z -> Prop).
Hypothesis Hcopy : forall x a d n m, x ∈ recv -> r_data x <= a -> 0 <= n -> a + n <= r_data x + r_sz x -> I m ->
  copy a d n m = Ret tt (wr_bytes d (rd_bytes rd a n) m).
Hypothesis Hkeep : forall d l m, I m -> (forall i, 0 <= i < zlen l -> fb (d + i)) -> I (wr_bytes d l m).
Hypothesis Hsz : forall x, x ∈ recv -> 0 <= r_sz x.

Lemma copy_recs_spec r : forall off buf len maxlen m, (forall x, x ∈ r -> x ∈ recv) -> 0 <= off ->
  (match r with x :: _ => off <= r_sz x | [] => True end) -> 0 <= len ->
  (forall i, 0 <= i < maxlen -> fb (buf + i)) -> I m ->
  let sl := take (Z.to_nat (maxlen - len)) (drop (Z.to_nat off) (bytes_of rd r)) in
  copy_recs copy r off buf len maxlen m = Ret (len + zlen sl) (wr_bytes (buf + len) sl m).
Proof.
  induction r as [|x r IH]; intros off buf len maxlen m Hin Hoff Hfst Hlen Hfb HI sl; subst sl; cbn [copy_recs].
  - cbn [bytes_of mbind list_bind]. rewrite drop_nil, take_nil, zlen_nil, Z.add_0_r. done.
  - pose proof (Hsz x (Hin x ltac:(left))) as Hs. destruct (Z.ltb_spec len maxlen).
    2: { replace (Z.to_nat (maxlen - len)) with 0%nat by lia. rewrite take_0, zlen_nil, Z.add_0_r. done. }
    set (cnt := Z.min (r_sz x - off) (maxlen - len)). assert (0 <= cnt) by lia.
    unfold mbind_. rewrite (Hcopy x) by (try apply Hin; try (left; done); lia || done).
    cbn [bytes_of mbind list_bind]. rewrite drop_app_le by (unfold rd_bytes; rewrite length_fmap, zseq_length; lia). rewrite rd_bytes_drop by lia.
    rewrite IH; try lia; [|set_solver|by destruct r; [|apply Hsz, Hin; right; left]|done|].
    2: { apply Hkeep; [done|]. intros i Hi. rewrite rd_bytes_len in Hi by lia. replace (buf + len + i) with (buf + (len + i)) by lia. apply Hfb. lia. }
    rewrite drop_0. change (r ≫= (fun x0 : rec => rd_bytes rd (r_data x0) (r_sz x0))) with (bytes_of rd r).
    rewrite (take_app (rd_bytes rd (r_data x + off) (r_sz x - off))).
    assert (length (rd_bytes rd (r_data x + off) (r_sz x - off)) = Z.to_nat (r_sz x - off)) as -> by (unfold rd_bytes; by rewrite length_fmap, zseq_length).
    assert (take (Z.to_nat (maxlen - len)) (rd_bytes rd (r_data x + off) (r_sz x - off)) = rd_bytes rd (r_data x + off) cnt) as ->.
    { subst cnt. destruct (Z.leb_spec (r_sz x - off) (maxlen - len)).
      - rewrite take_ge by (unfold rd_bytes; rewrite length_fmap, zseq_length; lia). f_equal. lia.
      - rewrite rd_bytes_take by lia. f_equal. lia. }
    replace (Z.to_nat (maxlen - len) - Z.to_nat (r_sz x - off))%nat with (Z.to_nat (maxlen - (len + cnt))) by lia.
    rewrite zlen_app, wr_bytes_app, rd_bytes_len by lia. f_equal; [lia|]. f_equal. lia.
Qed.

Lemma skip_recs_spec r : forall off, (forall x, x ∈ r -> x ∈ recv) -> 0 <= off ->
  let '(r', off') := skip_recs r off in
  drop (Z.to_nat off) (bytes_of rd r) = drop (Z.to_nat off') (bytes_of rd r') /\ (forall x, x ∈ r' -> x ∈ recv) /\ 0 <= off' /\
  match r' with x :: _ => off' <= r_sz x | [] => True end.
Proof.
  induction r as [|x r IH]; intros off Hin Hoff; cbn [skip_recs]; [done|].
  pose proof (Hsz x (Hin x ltac:(left))) as Hs. destruct (Z.leb_spec (r_sz x) off); [|split_and!; [done..|lia]].
  specialize (IH (off - Z.min (r_sz x) off) ltac:(set_solver) ltac:(lia)). destruct (skip_recs r _) as [r' off'].
  destruct IH as (E & H1 & H2 & H3). split_and!; [|done..]. rewrite <- E. cbn [bytes_of mbind list_bind].
  rewrite drop_app_ge by (unfold rd_bytes; rewrite length_fmap, zseq_length; lia). unfold rd_bytes. rewrite length_fmap, zseq_length.
  f_equal. lia.
Qed.

Lemma datacpy_spec buf off maxlen m : 0 <= off -> (forall i, 0 <= i < maxlen -> fb (buf + i)) -> I m ->
  let sl := take (Z.to_nat maxlen) (drop (Z.to_nat off) (bytes_of rd recv)) in
  datacpy copy recv buf off maxlen m = Ret (zlen sl) (wr_bytes buf sl m).
Proof.
  intros Hoff Hfb HI sl. unfold datacpy. pose proof (skip_recs_spec recv off ltac:(done) Hoff) as H. destruct (skip_recs recv off) as [r off'].
  destruct H as (E & H1 & H2 & H3). rewrite copy_recs_spec by (done || lia). subst sl. rewrite E, Z.sub_0_r, Z.add_0_r. done.
Qed.

Lemma fill_recs_spec body : forall runlen m, let len := zlen (bytes_of rd recv) in 0 <= runlen <= len ->
  (forall x, x ∈ body -> 0 <= r_sz x) -> (forall x i, x ∈ body -> 0 <= i < r_sz x -> fb (r_data x + i)) -> I m ->
  fill_recs copy recv body len runlen m =
    Ret (Z.min len (runlen + sizes body)) (wr_pieces body (drop (Z.to_nat runlen) (bytes_of rd recv)) m).
Proof.
  set (L := bytes_of rd recv). induction body as [|x body IH]; intros runlen m len Hr Hb Hfb HI; cbn [fill_recs wr_pieces sizes foldr].
  - f_equal. lia.
  - pose proof (Hb x ltac:(left)). set (t := Z.min (len - runlen) (r_sz x)).
    assert (0 <= sizes body) as Hpos. { clear -Hb. induction body as [|y b IH]; cbn; [lia|]. pose proof (Hb y ltac:(set_solver)). unfold sizes in IH. assert (forall z, z ∈ x :: b -> 0 <= r_sz z) as H0 by set_solver. specialize (IH H0). lia. }
    unfold mbind_. rewrite datacpy_spec by (lia || done || (intros; apply Hfb; [left|]; lia)). fold L.
    assert (take (Z.to_nat t) (drop (Z.to_nat runlen) L) = take (Z.to_nat (r_sz x)) (drop (Z.to_nat runlen) L)) as Et.
    { subst t len. unfold zlen. destruct (Z.leb_spec (r_sz x) (Z.of_nat (length L) - runlen)); [f_equal; lia|].
      rewrite !take_ge by (rewrite length_drop; unfold zlen in *; lia). done. }
    rewrite Et, drop_drop. destruct (Z.leb_spec len (runlen + t)).
    + rewrite (drop_ge L (Z.to_nat runlen + Z.to_nat (r_sz x))) by (subst t len; unfold zlen in *; lia). rewrite wr_pieces_nil. unfold mreturn. f_equal. unfold sizes in Hpos. lia.
    + rewrite IH; [|lia|set_solver|intros; apply Hfb; [by right|done]|].
      * fold len. change (foldr (fun (x0 : rec) (n : Z) => r_sz x0 + n) 0 body) with (sizes body). f_equal; [lia|]. f_equal. f_equal. lia.
      * apply Hkeep; [done|]. intros i Hi. apply Hfb; [left|]. unfold zlen in Hi. rewrite length_take in Hi. lia.
Qed.
End copying.

(** Copying between kernel buffers: the source keeps its bytes as long as only
    addresses off it are written. *)
Definition src_kept (recv : list rec) (m0 m : gmap Z Z) : Prop := forall x i, x ∈ recv -> 0 <= i < r_sz x -> rdb m (r_data x + i) = rdb m0 (r_data x + i).
Definition off_src (recv : list rec) (b : Z) : Prop := forall x, x ∈ recv -> ~ r_data x <= b < r_data x + r_sz x.

Lemma bcopy_reads recv m0 x a d n m : x ∈ recv -> r_data x <= a -> 0 <= n -> a + n <= r_data x + r_sz x -> src_kept recv m0 m ->
  bcopy a d n m = Ret tt (wr_bytes d (rd_bytes (rdb m0) a n) m).
Proof.
  intros Hx Ha Hn Hle HI. unfold bcopy. do 2 f_equal. apply rd_bytes_ext. intros i Hi.
  replace (a + i) with (r_data x + (a - r_data x + i)) by lia. apply HI; [done|lia].
Qed.
Lemma src_kept_wr recv m0 d l m : src_kept recv m0 m -> (forall i, 0 <= i < zlen l -> off_src recv (d + i)) -> src_kept recv m0 (wr_bytes d l m).
Proof. intros HI Hfb x i Hx Hi. rewrite rdb_wr_out; [by apply HI|]. intros Hb. apply (Hfb (r_data x + i - d) ltac:(lia) x Hx). lia. Qed.

(** ** Circular lists *)

(** The entries [l] lead from [a] to [b]. *)
Fixpoint path (m : gmap Z ringent) (a : Z) (l : list Z) (b : Z) : Prop :=
  match l with
  | [] => a = b
  | x :: l' => a = x /\ exists e, m !! x = Some e /\ path m (re_next e) l' b
  end.
Definition circ (m : gmap Z ringent) (l : list Z) : Prop := match l with [] => False | h :: _ => path m h l h end.

Lemma path_app m l1 l2 : forall a b, path m a (l1 ++ l2) b <-> exists c, path m a l1 c /\ path m c l2 b.
Proof.
  induction l1 as [|x l1 IH]; intros a b; cbn [app path]; [naive_solver|]. setoid_rewrite IH. naive_solver.
Qed.

Lemma path_keep m m' l : forall a b, (forall x e, x ∈ l -> m !! x = Some e -> exists e', m' !! x = Some e' /\ re_next e' = re_next e) ->
  path m a l b -> path m' a l b.
Proof.
  induction l as [|x l IH]; intros a b Hk; cbn [path]; [done|]. intros (-> & e & He & Hp). split; [done|].
  destruct (Hk x e ltac:(left) He) as (e' & He' & En). exists e'. rewrite En. split; [done|]. apply IH; [|done]. intros y ey Hy. apply Hk. by right.
Qed.

Lemma path_other m l a b x e : x ∉ l -> path m a l b -> path (<[x := e]> m) a l b.
Proof. intros Hx. apply path_keep. intros y ey Hy Hm. rewrite lookup_insert_ne by set_solver. eauto. Qed.

Lemma path_other2 m l a b x e y e' : x ∉ l -> y ∉ l -> path m a l b -> path (<[x := e]> (<[y := e']> m)) a l b.
Proof. intros. by apply path_other, path_other. Qed.

Lemma path_delete m l a b x : x ∉ l -> path m a l b -> path (delete x m) a l b.
Proof. intros Hx. apply path_keep. intros y ey Hy Hm. rewrite lookup_delete_ne by set_solver. eauto. Qed.

Lemma path_in m l a b x : path m a l b -> x ∈ l -> is_Some (m !! x).
Proof.
  revert a. induction l as [|y l IH]; intros a; cbn [path]; [set_solver|]. intros (-> & e & He & Hp) [->|Hx]%elem_of_cons; [eauto|]. by eapply IH.
Qed.

(** Following the links from a given entry. *)
Lemma path_step m l1 x l2 a b : path m a (l1 ++ x :: l2) b -> exists e, m !! x = Some e /\ path m a l1 x /\ path m (re_next e) l2 b.
Proof. intros (c & H1 & <- & e & He & H2)%path_app. eauto. Qed.

(** Redirecting the last link. *)
Lemma path_redirect m l x e a b c : x ∉ l -> m !! x = Some e -> path m a (l ++ [x]) b -> path (<[x := re_set_next c e]> m) a (l ++ [x]) c.
Proof.
  intros Hx He (d & H1 & -> & e' & He' & _)%path_app. apply path_app. exists x. split; [by apply path_other|].
  cbn. split; [done|]. exists (re_set_next c e). rewrite lookup_insert_eq. done.
Qed.

Lemma circ_rotate m h l : circ m (h :: l) -> circ m (l ++ [h]).
Proof.
  intros Hc. destruct l as [|x l]; [done|]. cbn [circ path app] in *. destruct Hc as (_ & e & He & En & e' & He' & Hp).
  split; [done|]. exists e'. split; [done|]. apply path_app. exists h. split; [done|]. cbn. split; [done|]. eauto.
Qed.

(** ** Pins *)

(** The pages an entry holds, and how often the entries hold page [p]. *)
Definition refs (e : ringent) : list Z :=
  (if re_owner e =? 0 then [] else [kva2ppn (re_owner e)]) ++ ((fun r => kva2ppn (r_data r)) <$> re_recv e).
Definition pinsum (p : Z) (m : gmap Z ringent) : Z := map_fold (fun _ e n => count p (refs e) + n) 0 m.

Lemma pinsum_new p m a e : m !! a = None -> pinsum p (<[a := e]> m) = count p (refs e) + pinsum p m.
Proof. intros Ha. unfold pinsum. apply (map_fold_insert_L (fun _ e n => count p (refs e) + n)); [intros; lia|done]. Qed.

Lemma pinsum_delete p m a e : m !! a = Some e -> pinsum p m = count p (refs e) + pinsum p (delete a m).
Proof. intros Ha. rewrite <- (pinsum_new p (delete a m) a e) by apply lookup_delete_eq. by rewrite insert_delete_id. Qed.

Lemma pinsum_insert p m a e e' : m !! a = Some e -> pinsum p (<[a := e']> m) = pinsum p m - count p (refs e) + count p (refs e').
Proof.
  intros Ha. rewrite (pinsum_delete p m a e Ha), (pinsum_delete p (<[a := e']> m) a e') by apply lookup_insert_eq. rewrite delete_insert_eq. lia.
Qed.

Lemma pinsum_nonneg p m : 0 <= pinsum p m.
Proof.
  induction m as [|a e m Ha IH] using map_ind; [done|]. rewrite pinsum_new by done. pose proof (count_le p (refs e)). lia.
Qed.

Lemma pinsum_le p m a e : m !! a = Some e -> count p (refs e) <= pinsum p m.
Proof. intros Ha. rewrite (pinsum_delete p m a e Ha). pose proof (pinsum_nonneg p (delete a m)). lia. Qed.

Lemma pinsum_mono p m : forall m', m ⊆ m' -> pinsum p m <= pinsum p m'.
Proof.
  induction m as [|a e m Ha IH] using map_ind; intros m' Hs; [apply pinsum_nonneg|].
  assert (m' !! a = Some e) as Ha' by (eapply lookup_weaken; [apply lookup_insert_eq|done]). rewrite pinsum_new, (pinsum_delete p m' a e) by done.
  specialize (IH (delete a m')). enough (m ⊆ delete a m') by (specialize (IH ltac:(done)); lia).
  rewrite <- (delete_insert_id m a e) by done. by apply delete_mono.
Qed.

(** Two memory systems that differ in pins only. *)
Definition pin_eq (P P' : pool) : Prop :=
  (exists x m, P' = set_si x (set_ppages m P)) /\ forall p, pp_set_pinned 0 <$> ppages P' !! p = pp_set_pinned 0 <$> ppages P !! p.
Definition vsame (v v' : vm) : Prop := exists P, v' = set_pool P v /\ pin_eq (vm_pool v) P.

Lemma pin_eq_refl P : pin_eq P P.
Proof. split; [exists (si P), (ppages P); by destruct P|done]. Qed.

Lemma pin_eq_trans P Q R : pin_eq P Q -> pin_eq Q R -> pin_eq P R.
Proof. intros [(x & m & ->) H1] [(y & k & ->) H2]. split; [by exists y, k|]. intros p. by rewrite H2, H1. Qed.

#[export] Instance vsame_preorder : PreOrder vsame.
Proof.
  split.
  - intros v. exists (vm_pool v). split; [by destruct v|apply pin_eq_refl].
  - intros v v' v'' (P & -> & H1) (Q & -> & H2). exists Q. split; [done|]. by eapply pin_eq_trans.
Qed.

Lemma vsame_page v v' p : vsame v v' -> is_Some (ppages (vm_pool v') !! p) <-> is_Some (ppages (vm_pool v) !! p).
Proof. intros (P & -> & _ & E). cbn. specialize (E p). destruct (ppages P !! p), (ppages (vm_pool v) !! p); cbn in E; try done; split; intros _; eauto. Qed.

Lemma vsame_rest v v' : vsame v v' -> vm_et v' = vm_et v /\ vm_pds v' = vm_pds v /\ vm_pts v' = vm_pts v /\ nppage (vm_pool v') = nppage (vm_pool v).
Proof. intros (P & -> & (x & m & ->) & _). done. Qed.

Lemma vsame_repin v p n pp : ppages (vm_pool v) !! p = Some pp -> vsame v (set_pool (repinned p n pp (vm_pool v)) v).
Proof.
  intros Hp. eexists. split; [done|]. split; [by eexists _, _|]. intros q. cbn. destruct (decide (p = q)) as [<-|Hne].
  - by rewrite lookup_insert_eq, Hp.
  - by rewrite lookup_insert_ne.
Qed.

Section pins.
Context (g : ghost) (base : Z -> Z).

Lemma repin_inv v p n pp : vm_ok g v -> ppages (vm_pool v) !! p = Some pp -> 0 <= n < 2 ^ 31 ->
  vm_ok g (set_pool (repinned p n pp (vm_pool v)) v).
Proof.
  intros Hi Hp Hn. destruct (vi_pages _ _ _ _ Hi p pp Hp) as [R W U C N].
  apply (vm_inv_change g _ _ _ _ v _ p pp (pp_set_pinned n pp) Hi Hp); try done; [by right| |].
  - by apply repinned_ok; [apply Hi|..].
  - apply (vps_ok_sub v); [apply Hi|done|]. intros q pq Hq. cbn in Hq. destruct (decide (p = q)) as [<-|Hne].
    + rewrite lookup_insert_eq in Hq. injection Hq as <-. right. by exists pp.
    + rewrite lookup_insert_ne in Hq by done. right. eauto.
Qed.

Lemma page_lt v p : vm_ok g v -> is_Some (ppages (vm_pool v) !! p) -> 0 <= p < nppage (vm_pool v).
Proof. intros Hi. apply (pg_dom _ _ (proj1 (vi_pool _ _ _ _ Hi))). Qed.

Lemma pin_kva_run kva pp s (Q : unit -> rst -> Prop) :
  vm_ok g (r_vm s) -> ppages (vm_pool (r_vm s)) !! kva2ppn kva = Some pp -> pp_pinned pp < 2 ^ 31 - 1 ->
  Q tt (r_set_vm (set_pool (repinned (kva2ppn kva) (pp_pinned pp + 1) pp (vm_pool (r_vm s))) (r_vm s)) s) -> wp (pin_kva kva) s Q.
Proof.
  intros Hi Hp Hn HQ. apply wp_zoom, wp_zoom, wp_bind, kva2pp_run; [apply (page_lt _ _ Hi); eauto|].
  eapply wp_mono; [apply (ppage_pin_run _ pp); [apply Hi|done..]|]. intros [] ? ->. exact HQ.
Qed.

Lemma unpin_kva_run kva pp s (Q : unit -> rst -> Prop) :
  vm_ok g (r_vm s) -> ppages (vm_pool (r_vm s)) !! kva2ppn kva = Some pp -> 0 < pp_pinned pp ->
  Q tt (r_set_vm (set_pool (repinned (kva2ppn kva) (pp_pinned pp - 1) pp (vm_pool (r_vm s))) (r_vm s)) s) -> wp (unpin_kva kva) s Q.
Proof.
  intros Hi Hp Hn HQ. apply wp_zoom, wp_zoom, wp_bind, kva2pp_run; [apply (page_lt _ _ Hi); eauto|].
  eapply wp_mono; [apply (ppage_unpin_run _ pp); [apply Hi|done..]|]. intros [] ? ->. exact HQ.
Qed.

(** Every page is pinned as often as the entries hold it, besides the [base]
    pins of others; [gone] pins were given back already. *)
Record ring_vm (gone : list Z) (s : rst) : Prop := mkRv {
  rv_vm : vm_ok g (r_vm s);
  rv_base : forall p, 0 <= base p;
  rv_pins : forall p pp, ppages (vm_pool (r_vm s)) !! p = Some pp -> pp_pinned pp = base p + pinsum p (r_ents s) - count p gone;
  rv_refs : forall a e p, r_ents s !! a = Some e -> p ∈ refs e -> is_Some (ppages (vm_pool (r_vm s)) !! p) }.

(** [s'] differs from [s] in the entries and the pins. *)
Definition rsame (s s' : rst) : Prop := vsame (r_vm s) (r_vm s') /\ r_mem s' = r_mem s.

#[export] Instance rsame_preorder : PreOrder rsame.
Proof.
  split; [by intros s|]. intros s1 s2 s3 [H1 E1] [H2 E2]. split; [by etrans|congruence].
Qed.

Lemma ring_vm_ents gone gone' m s : ring_vm gone s ->
  (forall p, pinsum p m - count p gone' = pinsum p (r_ents s) - count p gone) ->
  (forall a e p, m !! a = Some e -> p ∈ refs e -> is_Some (ppages (vm_pool (r_vm s)) !! p)) -> ring_vm gone' (r_set_ents m s).
Proof. intros [H1 H2 H3 H4] Hc Hr. split; cbn; try done. intros p pp Hp. specialize (Hc p). rewrite (H3 p pp Hp). lia. Qed.

Lemma ring_vm_perm gone gone' s : ring_vm gone s -> (forall p, count p gone' = count p gone) -> ring_vm gone' s.
Proof. intros [H1 H2 H3 H4] Hc. split; try done. intros p pp Hp. rewrite (H3 p pp Hp), Hc. done. Qed.

Lemma repin_ring kva n pp gone gone' s : ring_vm gone s -> ppages (vm_pool (r_vm s)) !! kva2ppn kva = Some pp -> 0 <= n < 2 ^ 31 ->
  n - pp_pinned pp = count (kva2ppn kva) gone - count (kva2ppn kva) gone' -> (forall p, p <> kva2ppn kva -> count p gone' = count p gone) ->
  let s' := r_set_vm (set_pool (repinned (kva2ppn kva) n pp (vm_pool (r_vm s))) (r_vm s)) s in ring_vm gone' s' /\ rsame s s' /\ r_ents s' = r_ents s.
Proof.
  intros [H1 H2 H3 H4] Hp Hn Hd Ho. cbn. assert (vsame (r_vm s) (set_pool (repinned (kva2ppn kva) n pp (vm_pool (r_vm s))) (r_vm s))) as Hv by by apply vsame_repin.
  split_and!; [|by split|done]. split; cbn [r_vm r_set_vm r_ents]; [by apply repin_inv|done| |].
  - intros q qq Hq. cbn in Hq. destruct (decide (kva2ppn kva = q)) as [<-|Hne].
    + rewrite lookup_insert_eq in Hq. injection Hq as <-. cbn. rewrite (H3 _ _ Hp) in Hd. lia.
    + rewrite lookup_insert_ne in Hq by done. rewrite Ho by done. by apply H3.
  - intros a e p Ha Hin. apply (vsame_page _ _ p Hv). eauto.
Qed.

Lemma pin_more kva s : ring_vm [kva2ppn kva] s -> is_Some (ppages (vm_pool (r_vm s)) !! kva2ppn kva) ->
  (forall p pp, ppages (vm_pool (r_vm s)) !! p = Some pp -> pp_pinned pp < 2 ^ 31 - 1) ->
  wp (pin_kva kva) s (fun _ s' => ring_vm [] s' /\ rsame s s' /\ r_ents s' = r_ents s).
Proof.
  intros Hr [pp Hp] Hroom. specialize (Hroom _ _ Hp). pose proof (pg_pin _ _ (proj1 (vi_pool _ _ _ _ (rv_vm _ _ Hr))) _ _ Hp).
  eapply pin_kva_run; [apply Hr|exact Hp|done|]. apply (repin_ring _ _ _ _ _ _ Hr Hp); [lia| |].
  - rewrite count_cons, Z.eqb_refl. cbn. lia.
  - intros p Hne. rewrite count_cons. by rewrite (proj2 (Z.eqb_neq _ _)) by done.
Qed.

Lemma unpin_more kva gone s : ring_vm gone s -> is_Some (ppages (vm_pool (r_vm s)) !! kva2ppn kva) ->
  count (kva2ppn kva) gone < base (kva2ppn kva) + pinsum (kva2ppn kva) (r_ents s) ->
  wp (unpin_kva kva) s (fun _ s' => ring_vm (kva2ppn kva :: gone) s' /\ rsame s s' /\ r_ents s' = r_ents s).
Proof.
  intros Hr [pp Hp] Hlt. pose proof (rv_pins _ _ Hr _ _ Hp) as E. pose proof (pg_pin _ _ (proj1 (vi_pool _ _ _ _ (rv_vm _ _ Hr))) _ _ Hp).
  eapply unpin_kva_run; [apply Hr|exact Hp|lia|]. apply (repin_ring _ _ _ _ _ _ Hr Hp); [lia| |].
  - rewrite count_cons, Z.eqb_refl. cbn. lia.
  - intros p Hne. rewrite count_cons. by rewrite (proj2 (Z.eqb_neq _ _)) by done.
Qed.

(** The loop that unpins the pieces [l] of an entry at [a]. *)
Lemma unpin_pieces a e l : forall gone s, ring_vm gone s -> r_ents s !! a = Some e ->
  (forall p, count p gone + count p ((fun r => kva2ppn (r_data r)) <$> l) <= count p (refs e)) ->
  wp (mfor (fun r => unpin_kva (r_data r)) l) s (fun _ s' =>
    ring_vm (((fun r => kva2ppn (r_data r)) <$> l) ++ gone) s' /\ rsame s s' /\ r_ents s' = r_ents s).
Proof.
  induction l as [|x l IH]; intros gone s Hr Ha Hle; cbn [mfor fmap list_fmap app].
  - apply wp_ret. split_and!; [done|reflexivity|done].
  - pose proof (Hle (kva2ppn (r_data x))) as Hx. cbn [fmap list_fmap] in Hx. rewrite count_cons, Z.eqb_refl in Hx.
    pose proof (count_le (kva2ppn (r_data x)) ((fun r => kva2ppn (r_data r)) <$> l)). pose proof (pinsum_le (kva2ppn (r_data x)) _ _ _ Ha).
    pose proof (rv_base _ _ Hr (kva2ppn (r_data x))). cbn [b2z] in Hx.
    apply wp_bind. eapply wp_mono; [apply unpin_more; [exact Hr| |lia]|].
    { apply (rv_refs _ _ Hr a e); [done|]. assert (0 < count (kva2ppn (r_data x)) (refs e)) as Hc by (pose proof (count_le (kva2ppn (r_data x)) gone); lia).
      destruct (decide (kva2ppn (r_data x) ∈ refs e)) as [|Hn]; [done|]. by rewrite count_out in Hc. }
    intros [] s1 (Hr1 & Hs1 & E1). eapply wp_mono; [apply (IH _ s1 Hr1); [by rewrite E1|]|].
    + intros p. specialize (Hle p). cbn [fmap list_fmap] in Hle. rewrite count_cons in *. lia.
    + intros [] s2 (Hr2 & Hs2 & E2). split_and!; [|by etrans|congruence]. eapply ring_vm_perm; [exact Hr2|]. intros p.
      cbn [app]. rewrite count_cons, !count_both, count_cons. lia.
Qed.
End pins.

(** ** Translations *)

Definition cur_pd (v : vm) : option EnvPD := i ← curenv (vm_et v); e ← envs (vm_et v) !! i; vm_pds v !! env_pd e.
(** The page-table entry of [va] in the current address space. *)
Definition va_pte (v : vm) (va : Z) : option Z :=
  x ← cur_pd v; let pde := va_pde x va in if negb (tst pde PG_P) || tst pde PG_PS then None else Some (pte_at v (Z.shiftr pde PGSHIFT, PTENO va)).
Definition has_bits (v : vm) (mask va : Z) : bool := match va_pte v va with Some w => Z.land w mask =? mask | None => false end.
(** The kernel address of [va] under the entry [w]. *)
Definition kva_of (w va : Z) : Z := u32 (Z.lor (clr w PGMASK) (Z.land va PGMASK) + KERNBASE).
Definition va_kva (v : vm) (va : Z) : Z := match va_pte v va with Some w => kva_of w va | None => 0 end.

(** Translations are of pages of the memory, which the kernel sees whole above
    [KERNBASE]. *)
Record ringable (v : vm) : Prop := mkRingable {
  rb_cur : is_Some (cur_pd v);
  rb_ram : nppage (vm_pool v) <= 65536;
  rb_maps : forall k w, vm_pts v !! k = Some w -> 0 <= w < 2 ^ 32 /\ (tst w PG_P = true -> Z.shiftr w PGSHIFT < nppage (vm_pool v)) }.

(** The same translations. *)
Definition tsame (v v' : vm) : Prop := cur_pd v' = cur_pd v /\ vm_pts v' = vm_pts v /\ nppage (vm_pool v') = nppage (vm_pool v).

#[export] Instance tsame_preorder : PreOrder tsame.
Proof. split; [done|]. intros v1 v2 v3 (?&?&?) (?&?&?). split_and!; congruence. Qed.

Lemma vsame_t v v' : vsame v v' -> tsame v v'.
Proof. intros (P & -> & (x & m & ->) & _). done. Qed.
Lemma va_pte_same v v' va : tsame v v' -> va_pte v' va = va_pte v va.
Proof. intros (E1 & E2 & _). unfold va_pte, pte_at. by rewrite E1, E2. Qed.
Lemma ringable_same v v' : tsame v v' -> ringable v -> ringable v'.
Proof. intros (E1 & E2 & E3) []. split; rewrite ?E1, ?E2, ?E3; done. Qed.
Lemma has_bits_same v v' mask va : tsame v v' -> has_bits v' mask va = has_bits v mask va.
Proof. intros H. unfold has_bits. by rewrite (va_pte_same v v'). Qed.
Lemma va_kva_same v v' va : tsame v v' -> va_kva v' va = va_kva v va.
Proof. intros H. unfold va_kva. by rewrite (va_pte_same v v'). Qed.

Lemma va_has_run mask va s : is_Some (cur_pd (r_vm s)) -> va_has mask va s = Ret (has_bits (r_vm s) mask va) s.
Proof.
  intros [x Hx]. unfold va_has, has_bits, va_pte. rewrite Hx. unfold cur_pd in Hx. cbn [mbind option_bind].
  destruct (curenv (vm_et (r_vm s))) as [i|] eqn:Ei; [|done]. cbn in Hx. destruct (envs (vm_et (r_vm s)) !! i) as [e|] eqn:Ee; [|done]. cbn in Hx.
  destruct s as [[P et pds pts vps h f] ents m]. cbn in *. unfold mbind_, in_rvm, zoom, in_et, zoom, get_curenv, env_va2ptep, mbind_, in_et, zoom, get_env, get_pd. cbn.
  rewrite Ei. cbn. rewrite Ee. cbn. rewrite Hx. cbn. destruct (_ || _); reflexivity.
Qed.

Lemma pgmask_bits k : 0 <= k -> Z.testbit PGMASK k = (k <? 12).
Proof.
  intros Hk. change PGMASK with (Z.ones 12). destruct (Z.ltb_spec k 12); [by rewrite Z.ones_spec_low by lia|by rewrite Z.ones_spec_high by lia].
Qed.

(** The page and the range of a translated address. *)
Lemma pa_page w va : 0 <= w < 2 ^ 32 -> let pa := Z.lor (clr w PGMASK) (Z.land va PGMASK) in Z.shiftr pa PGSHIFT = Z.shiftr w PGSHIFT /\ 0 <= pa < 2 ^ 32.
Proof.
  intros Hw pa. assert (Z.shiftr pa PGSHIFT = Z.shiftr w PGSHIFT) as E.
  { apply Z.bits_inj'. intros k Hk. unfold PGSHIFT. rewrite !Z.shiftr_spec by done. unfold pa, clr. rewrite Z.lor_spec, !Z.land_spec, Z.lxor_spec, pgmask_bits by lia.
    rewrite (proj2 (Z.ltb_ge _ _)) by lia. rewrite andb_false_r, orb_false_r, xorb_false_l. change (2 ^ 32 - 1) with (Z.ones 32).
    destruct (decide (k + 12 < 32)); [by rewrite Z.ones_spec_low, andb_true_r by lia|]. rewrite Z.ones_spec_high, andb_false_r by lia.
    symmetry. apply Z.bits_above_log2; [lia|]. destruct (decide (w = 0)) as [->|]; [cbn; lia|]. apply Z.log2_lt_pow2; [lia|]. apply Z.lt_le_trans with (2 ^ 32); [lia|]. apply Z.pow_le_mono_r; lia. }
  split; [done|]. assert (0 <= pa) as Hpos.
  { unfold pa. apply Z.lor_nonneg. split; apply Z.land_nonneg; [by left; lia|by right]. }
  unfold PGSHIFT in E. rewrite !Z.shiftr_div_pow2 in E by done. pose proof (Z.div_mod pa (2 ^ 12) ltac:(lia)) as Ed. pose proof (Z.mod_pos_bound pa (2 ^ 12) ltac:(lia)).
  assert (w / 2 ^ 12 < 2 ^ 20) by (apply Z.div_lt_upper_bound; lia). lia.
Qed.

Lemma kva_of_page w va : 0 <= w < 2 ^ 32 -> Z.shiftr w PGSHIFT < 65536 -> kva2ppn (kva_of w va) = Z.shiftr w PGSHIFT /\ kva_of w va <> 0.
Proof.
  intros Hw Hp. destruct (pa_page w va Hw) as [E Hr]. unfold kva_of, kva2ppn. set (pa := Z.lor (clr w PGMASK) (Z.land va PGMASK)) in *.
  assert (pa < 2 ^ 28) as Hlt.
  { rewrite <- E in Hp. unfold PGSHIFT in Hp. rewrite Z.shiftr_div_pow2 in Hp by done. pose proof (Z.div_mod pa (2 ^ 12) ltac:(lia)). pose proof (Z.mod_pos_bound pa (2 ^ 12) ltac:(lia)). lia. }
  unfold KERNBASE. rewrite (u32_small (pa + _)) by lia. rewrite (u32_small (pa + 4026531840 - 4026531840)) by lia.
  replace (pa + 4026531840 - 4026531840) with pa by lia. split; [done|lia].
Qed.

Lemma va2kva_run va w s : ringable (r_vm s) -> va_pte (r_vm s) va = Some w -> tst w PG_P = true ->
  va2kva va s = Ret (va_kva (r_vm s) va) s.
Proof.
  intros [[x Hx] Hn Hm] Hw Hp. unfold va_kva. rewrite Hw. unfold va_pte in Hw. rewrite Hx in Hw. cbn [mbind option_bind] in Hw. unfold cur_pd in Hx.
  destruct (curenv (vm_et (r_vm s))) as [i|] eqn:Ei; [|done]. cbn in Hx. destruct (envs (vm_et (r_vm s)) !! i) as [e|] eqn:Ee; [|done]. cbn in Hx.
  destruct (tst (va_pde x va) PG_P) eqn:E1; [|done]. destruct (tst (va_pde x va) PG_PS) eqn:E2; [done|]. cbn in Hw. injection Hw as Hw.
  assert (exists k, vm_pts (r_vm s) !! k = Some w) as [k Hk]. { unfold pte_at in Hw. destruct (vm_pts (r_vm s) !! _) as [w'|] eqn:Ek; cbn in Hw; [subst; eauto|subst; done]. }
  destruct (Hm k w Hk) as [Hr Hlt]. destruct (pa_page w va Hr) as [Epg _].
  destruct s as [[P et pds pts vps h f] ents m]. cbn in *. unfold va2kva, mbind_, in_rvm, zoom, in_et, zoom, get_curenv, env_va2pa, mbind_, in_et, zoom, get_env, get_pd, pte_read, gets, pa2kva. cbn.
  rewrite Ei. cbn. rewrite Ee. cbn. rewrite Hx. cbn. rewrite E1, E2. cbn. unfold pte_at in Hw. cbn in Hw. rewrite Hw, Hp. cbn.
  unfold gets, mbind_, assert_. cbn. unfold PGNO. rewrite Epg. rewrite (proj2 (Z.ltb_lt _ _)) by auto. reflexivity.
Qed.

(** An address whose entry has all the bits of a mask with [PG_P]. *)
Lemma has_bits_page g v mask va : vm_ok g v -> ringable v -> tst mask PG_P = true -> has_bits v mask va = true ->
  exists w, va_pte v va = Some w /\ tst w PG_P = true /\ kva2ppn (va_kva v va) = Z.shiftr w PGSHIFT /\ va_kva v va <> 0 /\ is_Some (ppages (vm_pool v) !! kva2ppn (va_kva v va)).
Proof.
  intros Hi Hb Hmask. unfold has_bits, va_kva. destruct (va_pte v va) as [w|] eqn:Ew; [|done]. intros Hbits%Z.eqb_eq. exists w.
  assert (tst w PG_P = true) as Hp.
  { unfold tst, PG_P in *. rewrite <- Hbits in Hmask. rewrite negb_true_iff, Z.eqb_neq in *. intros E. apply Hmask.
    rewrite <- Z.land_assoc, (Z.land_comm mask), Z.land_assoc, E. done. }
  assert (exists k, vm_pts v !! k = Some w) as [k Hk].
  { unfold va_pte in Ew. destruct (cur_pd v) as [x|]; [|done]. cbn in Ew. destruct (_ || _); [done|]. injection Ew as Ew. unfold pte_at in Ew.
    destruct (vm_pts v !! _) as [w'|] eqn:Ek; cbn in Ew; subst; [eauto|done]. }
  destruct (rb_maps v Hb k w Hk) as [Hr Hlt]. specialize (Hlt Hp). pose proof (rb_ram v Hb). destruct (kva_of_page w va Hr ltac:(lia)) as [E1 E2].
  split_and!; [done..|]. rewrite E1. apply (pg_dom _ _ (proj1 (vi_pool _ _ _ _ Hi))). split; [apply Z.shiftr_nonneg; lia|done].
Qed.

(** ** Rules for entries *)

Lemma wp_get_ent a e s (Q : ringent -> rst -> Prop) : r_ents s !! a = Some e -> Q e s -> wp (get_ent a) s Q.
Proof. intros He HQ. unfold wp, get_ent. rewrite He. exact HQ. Qed.
Lemma wp_put_ent a e s (Q : unit -> rst -> Prop) : Q tt (r_set_ents (<[a := e]> (r_ents s)) s) -> wp (put_ent a e) s Q.
Proof. done. Qed.
Lemma wp_upd_ent a e f s (Q : unit -> rst -> Prop) : r_ents s !! a = Some e -> Q tt (r_set_ents (<[a := f e]> (r_ents s)) s) -> wp (upd_ent a f) s Q.
Proof. intros He HQ. apply wp_bind. by apply (wp_get_ent a e). Qed.
Lemma wp_del_ent a e s (Q : unit -> rst -> Prop) : r_ents s !! a = Some e -> Q tt (r_set_ents (delete a (r_ents s)) s) -> wp (del_ent a) s Q.
Proof. intros He HQ. apply wp_bind. by apply (wp_get_ent a e). Qed.
Lemma wp_eq {S A} (m : M S A) s a s' (Q : A -> S -> Prop) : m s = Ret a s' -> Q a s' -> wp m s Q.
Proof. intros E HQ. unfold wp. by rewrite E. Qed.

(** ** Families of rings

    [heads k] is the head of ring [k], 0 if there is none, and [ch k] the list of
    its entries from the head on; every entry is on one ring. *)
Record rings (heads : Z -> Z) (ch : Z -> list Z) (m : gmap Z ringent) : Prop := mkRings {
  rg_head : forall k, if heads k =? 0 then ch k = [] else exists l, ch k = heads k :: l /\ circ m (ch k);
  rg_nd : forall k, NoDup (ch k);
  rg_dis : forall j k a, a ∈ ch j -> a ∈ ch k -> j = k;
  rg_dom : forall a, is_Some (m !! a) <-> exists k, a ∈ ch k;
  rg_nz : m !! 0 = None }.

Lemma rings_ext heads heads' ch ch' m : (forall k, heads' k = heads k) -> (forall k, ch' k = ch k) -> rings heads ch m -> rings heads' ch' m.
Proof.
  intros Eh E [G1 G2 G3 G4 G5]. split; [|setoid_rewrite E; done..|done]. intros k. specialize (G1 k). by rewrite Eh, E.
Qed.

(** Ring [k] becomes [l], the others keep their entries. *)
Lemma rings_change heads heads' ch m m' k l : rings heads ch m ->
  (forall j, j <> k -> heads' j = heads j) ->
  (if heads' k =? 0 then l = [] else exists t, l = heads' k :: t /\ circ m' l) -> NoDup l ->
  (forall a, a ∈ l -> (a ∈ ch k) \/ m !! a = None) ->
  (forall a, (a ∉ ch k) -> (a ∉ l) -> m' !! a = m !! a) ->
  (forall a, a ∈ ch k -> (a ∉ l) -> m' !! a = None) -> (forall a, a ∈ l -> is_Some (m' !! a)) -> (0 ∉ l) ->
  rings heads' (<[k := l]> ch) m'.
Proof.
  intros [Hh Hnd Hdis Hdom Hnz] Ho Hk Hl Hnew Hkeep Hgone Hin H0.
  assert (forall j a, j <> k -> a ∈ ch j -> (a ∉ ch k) /\ (a ∉ l)) as Hother.
  { intros j a Hj Ha. assert (a ∉ ch k) by (intros ?; by apply Hj, (Hdis j k a)). split; [done|]. intros [?|Hn]%Hnew; [done|].
    destruct (proj2 (Hdom a) (ex_intro _ j Ha)). congruence. }
  split.
  - intros j. destruct (decide (j = k)) as [->|Hj]; [by rewrite fn_lookup_insert|]. rewrite fn_lookup_insert_ne, Ho by done. specialize (Hh j).
    destruct (heads j =? 0); [done|]. destruct Hh as (t & E & Hc). exists t. split; [done|]. rewrite E in Hc |- *. eapply path_keep; [|exact Hc].
    intros x e Hx He. destruct (Hother j x Hj ltac:(by rewrite E)) as [H1 H2]. exists e. by rewrite Hkeep.
  - intros j. destruct (decide (j = k)) as [->|Hj]; [by rewrite fn_lookup_insert|]. by rewrite fn_lookup_insert_ne.
  - intros j j' a. destruct (decide (j = k)) as [->|Hj], (decide (j' = k)) as [->|Hj']; rewrite ?fn_lookup_insert, ?(fn_lookup_insert_ne _ k) by done; try done.
    + intros H1 H2. by destruct (Hother j' a Hj' H2).
    + intros H1 H2. by destruct (Hother j a Hj H1).
    + apply Hdis.
  - intros a. split.
    + intros Ha. destruct (decide (a ∈ l)); [exists k; by rewrite fn_lookup_insert|]. destruct (decide (a ∈ ch k)); [rewrite Hgone in Ha by done; by destruct Ha|].
      rewrite Hkeep in Ha by done. apply Hdom in Ha as [j Hj]. exists j. rewrite fn_lookup_insert_ne; [done|]. by intros <-.
    + intros [j Hj]. destruct (decide (j = k)) as [->|Hne]; [rewrite fn_lookup_insert in Hj; auto|]. rewrite fn_lookup_insert_ne in Hj by done.
      destruct (Hother j a Hne Hj). rewrite Hkeep by done. apply Hdom. eauto.
  - destruct (decide (0 ∈ ch k)) as [Hz|Hz]; [|by rewrite Hkeep]. destruct (proj2 (Hdom 0) (ex_intro _ k Hz)). congruence.
Qed.

Lemma rings_chain heads ch m k : rings heads ch m -> heads k <> 0 -> exists l, ch k = heads k :: l /\ circ m (ch k) /\ NoDup (ch k) /\ (0 ∉ ch k).
Proof.
  intros H Hk. pose proof (rg_head _ _ _ H k) as Hh. rewrite (proj2 (Z.eqb_neq _ _)) in Hh by done. destruct Hh as (l & E & Hc). exists l. split_and!; [done..|apply H|].
  intros Hz. destruct (proj2 (rg_dom _ _ _ H 0) (ex_intro _ k Hz)). pose proof (rg_nz _ _ _ H). congruence.
Qed.

Lemma circ_in m l a : circ m l -> a ∈ l -> is_Some (m !! a).
Proof. destruct l as [|h l]; [done|]. apply path_in. Qed.

Lemma rings_in heads ch m k a : rings heads ch m -> a ∈ ch k -> is_Some (m !! a).
Proof. intros H Ha. apply (rg_dom _ _ _ H). eauto. Qed.

(** The ring is gone. *)
Lemma rings_drop heads heads' ch m m' k : rings heads ch m -> (forall j, j <> k -> heads' j = heads j) -> heads' k = 0 ->
  (forall a, (a ∉ ch k) -> m' !! a = m !! a) -> (forall a, a ∈ ch k -> m' !! a = None) -> rings heads' (<[k := []]> ch) m'.
Proof. intros H Ho Hk Hkeep Hgone. apply (rings_change heads heads' ch m); try done; [by rewrite Hk|constructor|set_solver..]. Qed.

(** The head moves on. *)
Lemma rings_rotate heads heads' ch m k h l e : rings heads ch m -> ch k = h :: l -> m !! h = Some e -> (forall j, j <> k -> heads' j = heads j) ->
  heads' k = re_next e -> rings heads' (<[k := l ++ [h]]> ch) m.
Proof.
  intros H E He Ho Hk. assert (heads k <> 0) as Hnz. { intros E0. pose proof (rg_head _ _ _ H k) as Hh. rewrite E0, E in Hh. done. }
  destruct (rings_chain _ _ _ _ H Hnz) as (l' & E' & Hc & Hnd & Hz). rewrite E in *. injection E' as _ <-.
  assert (hd 0 (l ++ [h]) = re_next e /\ l ++ [h] <> []) as [Ehd Hne].
  { cbn in Hc. destruct Hc as (_ & e' & He' & Hp). assert (e' = e) as -> by congruence. destruct l as [|x l]; cbn in *; [done|]. by destruct Hp as [-> _]. }
  apply circ_rotate in Hc. assert (forall a, a ∈ l ++ [h] <-> a ∈ h :: l) as Hio by set_solver.
  apply (rings_change heads heads' ch m m k); [done|done| | |rewrite E; set_solver|done|rewrite E; intros ? ?%Hio ?; done| |by rewrite Hio].
  - destruct (l ++ [h]) as [|x t] eqn:El; [done|]. cbn in Ehd. subst x. rewrite Hk. rewrite (proj2 (Z.eqb_neq _ _)); [eauto|].
    intros Ez. rewrite Ez in Hio. apply Hz, Hio. left.
  - apply NoDup_app. apply NoDup_cons in Hnd as [H1 H2]. split_and!; [done|set_solver|apply NoDup_singleton].
  - intros a Ha. by eapply circ_in.
Qed.

(** The first entry of a new ring. *)
Lemma rings_first heads heads' ch m k a e : rings heads ch m -> heads k = 0 -> m !! a = None -> a <> 0 -> re_next e = a ->
  (forall j, j <> k -> heads' j = heads j) -> heads' k = a -> rings heads' (<[k := [a]]> ch) (<[a := e]> m).
Proof.
  intros H H0 Ha Hz Hn Ho Hk. assert (ch k = []) as Hc. { pose proof (rg_head _ _ _ H k) as Hh. by rewrite H0 in Hh. }
  apply (rings_change heads heads' ch m); [done|done| |apply NoDup_singleton|set_solver| |rewrite Hc; set_solver| |set_solver].
  - rewrite Hk, (proj2 (Z.eqb_neq _ _)) by done. exists []. split; [done|]. cbn. split; [done|]. exists e. by rewrite lookup_insert_eq.
  - intros b _ Hb. rewrite lookup_insert_ne; [done|]. set_solver.
  - intros b ->%list_elem_of_singleton. rewrite lookup_insert_eq. eauto.
Qed.

(** A new entry [a] after [x]. *)
Lemma rings_after heads ch m k l1 x ex l2 a e : rings heads ch m -> ch k = l1 ++ x :: l2 -> m !! x = Some ex -> m !! a = None -> a <> 0 ->
  re_next e = re_next ex -> rings heads (<[k := l1 ++ x :: a :: l2]> ch) (<[x := re_set_next a ex]> (<[a := e]> m)).
Proof.
  intros H E Hx Ha Hz Hn. assert (heads k <> 0) as Hnz. { intros E0. pose proof (rg_head _ _ _ H k) as Hh. rewrite E0, E in Hh. by destruct l1. }
  destruct (rings_chain _ _ _ _ H Hnz) as (l' & E' & Hc & Hnd & H0). rewrite E in Hc, Hnd, H0.
  assert (a ∉ l1 ++ x :: l2) as Hal. { intros Hin. destruct (circ_in _ _ _ Hc Hin). congruence. }
  assert ((x ∉ l1) /\ (x ∉ l2)) as [Hx1 Hx2]. { apply NoDup_app in Hnd as (_ & H1 & [H2 _]%NoDup_cons). split; [intros ?; by apply (H1 x); [|left]|done]. }
  apply (rings_change heads heads ch m); [done|done| | | | | | |set_solver].
  - rewrite (proj2 (Z.eqb_neq _ _)) by done. assert (exists t, l1 ++ x :: l2 = heads k :: t) as [t Et] by (exists l'; congruence).
    assert (path m (heads k) (l1 ++ x :: l2) (heads k)) as Hp by (rewrite Et in Hc |- *; exact Hc). destruct (path_step _ _ _ _ _ _ Hp) as (ex' & Hex & P1 & P2).
    assert (ex' = ex) as -> by congruence. exists (tail (l1 ++ x :: a :: l2)). destruct l1 as [|y l1]; cbn [app tail] in *.
    + injection Et as -> <-. split; [done|]. cbn. split; [done|]. exists (re_set_next a ex). rewrite lookup_insert_eq. split; [done|]. cbn. split; [done|]. exists e.
      rewrite lookup_insert_ne, lookup_insert_eq by set_solver. split; [done|]. rewrite Hn. by apply path_other2; [set_solver..|].
    + injection Et as -> <-. split; [done|]. apply (path_app _ (heads k :: l1)). exists x. split; [by apply path_other2; [set_solver..|]|]. cbn. split; [done|].
      exists (re_set_next a ex). rewrite lookup_insert_eq. split; [done|]. cbn. split; [done|]. exists e.
      rewrite lookup_insert_ne, lookup_insert_eq by set_solver. split; [done|]. rewrite Hn. by apply path_other2; [set_solver..|].
  - assert (l1 ++ x :: a :: l2 ≡ₚ a :: l1 ++ x :: l2) as ->. { change (l1 ++ x :: a :: l2) with (l1 ++ [x] ++ a :: l2). rewrite app_assoc, <- Permutation_middle, <- app_assoc. done. }
    by apply NoDup_cons.
  - intros b Hb. destruct (decide (b = a)) as [->|]; [by right|]. left. rewrite E. set_solver.
  - intros b Hb Hb'. rewrite !lookup_insert_ne by set_solver. done.
  - intros b Hb Hb'. rewrite E in Hb. set_solver.
  - intros b Hb. destruct (decide (b = x)) as [->|]; [rewrite lookup_insert_eq; eauto|]. rewrite lookup_insert_ne by done.
    destruct (decide (b = a)) as [->|]; [rewrite lookup_insert_eq; eauto|]. rewrite lookup_insert_ne by done. eapply circ_in; [exact Hc|]. set_solver.
Qed.

Section replace.
Context (heads : Z -> Z) (ch : Z -> list Z) (m : gmap Z ringent) (k x y a : Z) (ex ey e : ringent).
Context (H : rings heads ch m) (Hx : m !! x = Some ex) (Hy : m !! y = Some ey) (Ha : m !! a = None) (Hz : a <> 0) (Hn : re_next e = re_next ex).
Let m' : gmap Z ringent := <[y := re_set_next a ey]> (delete x (<[a := e]> m)).

(** What [m'] does to paths that avoid the three entries. *)
Lemma replace_path l b c : (a ∉ l) -> (x ∉ l) -> (y ∉ l) -> path m b l c -> path m' b l c.
Proof. intros. apply path_other; [done|]. apply path_delete; [done|]. by apply path_other. Qed.

Lemma replace_change heads' l l' : ch k = l -> NoDup l -> NoDup l' -> x <> y -> (forall b, b ∈ l' <-> b = a \/ (b ∈ l) /\ b <> x) -> x ∈ l -> y ∈ l ->
  (forall j, j <> k -> heads' j = heads j) -> (exists t, l' = heads' k :: t /\ circ m' l') -> rings heads' (<[k := l']> ch) m'.
Proof.
  intros El Hnd Hnd' Hxy Hl' Hxl Hyl Ho (t & Et & Hc).
  assert (forall b, b ∈ l -> is_Some (m !! b)) as Hdom by (intros; subst l; by eapply rings_in).
  assert (a ∉ l) as Hal by (intros [? ?]%Hdom; congruence).
  assert (0 ∉ l) as H0. { intros [? ?]%Hdom. pose proof (rg_nz _ _ _ H). congruence. }
  assert (forall b, b <> a -> b <> x -> b <> y -> m' !! b = m !! b) as Hm'.
  { intros. unfold m'. rewrite lookup_insert_ne, lookup_delete_ne, lookup_insert_ne by done. done. }
  apply (rings_change heads heads' ch m); [done|done| |done| | | | |].
  - rewrite (proj2 (Z.eqb_neq _ _)); [eauto|]. intros E. assert (0 ∈ l') as [?|[? _]]%Hl' by (rewrite Et, E; left); congruence.
  - intros b [->|[Hb _]]%Hl'; [by right|left; by rewrite El].
  - rewrite El. intros b Hb Hb'. apply Hm'; [|set_solver..]. intros ->. apply Hb', Hl'. by left.
  - rewrite El. intros b Hb Hb'. assert (b = x) as ->. { destruct (decide (b = x)); [done|]. destruct Hb'. apply Hl'. by right. }
    unfold m'. by rewrite lookup_insert_ne, lookup_delete_eq by done.
  - intros b [->|[Hb Hbx]]%Hl'.
    + unfold m'. destruct (decide (y = a)) as [->|]; [done|]. rewrite lookup_insert_ne, lookup_delete_ne, lookup_insert_eq by (done || set_solver). eauto.
    + destruct (decide (b = y)) as [->|]; [unfold m'; rewrite lookup_insert_eq; eauto|]. rewrite Hm' by (done || set_solver). auto.
  - rewrite Hl'. naive_solver.
Qed.

(** [a] takes the place of [x] behind [y]. *)
Lemma rings_replace l1 l2 : ch k = l1 ++ y :: x :: l2 -> rings heads (<[k := l1 ++ y :: a :: l2]> ch) m'.
Proof.
  intros E. assert (heads k <> 0) as Hnz. { intros E0. pose proof (rg_head _ _ _ H k) as Hh. rewrite E0, E in Hh. by destruct l1. }
  destruct (rings_chain _ _ _ _ H Hnz) as (l' & E' & Hc & Hnd & H0). rewrite E in Hc, Hnd.
  assert (a ∉ l1 ++ y :: x :: l2) as Hal. { intros Hin. destruct (circ_in _ _ _ Hc Hin). congruence. }
  pose proof Hnd as (Hnd1 & Hd1 & [Hy2 [Hx2 Hnd2]%NoDup_cons]%NoDup_cons)%NoDup_app. assert ((x ∉ l1) /\ (y ∉ l1)) as [Hx1 Hy1] by set_solver.
  assert (exists t, l1 ++ y :: x :: l2 = heads k :: t) as [t Et] by (exists l'; congruence).
  assert (path m (heads k) (l1 ++ y :: x :: l2) (heads k)) as Hp by (rewrite Et in Hc |- *; exact Hc).
  destruct (path_step _ _ _ _ _ _ Hp) as (ey' & Hey & P1 & (E1 & ex' & Hex & P2)). assert (ex' = ex) as -> by congruence.
  apply (replace_change heads (l1 ++ y :: x :: l2)); [done|done| |set_solver| |set_solver|set_solver|done|].
  - apply NoDup_app. split_and!; [done|set_solver|]. rewrite !NoDup_cons. split_and!; [set_solver..|done].
  - set_solver.
  - assert (path m' (heads k) (l1 ++ y :: a :: l2) (heads k)) as Hp'.
    { apply path_app. exists y. split; [apply replace_path; [set_solver..|done]|]. cbn. split; [done|]. exists (re_set_next a ey). unfold m' at 1. rewrite lookup_insert_eq. split; [done|].
      cbn. split; [done|]. exists e. unfold m' at 1. rewrite lookup_insert_ne, lookup_delete_ne, lookup_insert_eq by set_solver. split; [done|]. rewrite Hn. apply replace_path; [set_solver..|done]. }
    destruct l1 as [|z l1]; cbn [app] in *; injection Et as -> _; eauto.
Qed.

(** The same at the head. *)
Lemma rings_replace_head heads' l : ch k = x :: l ++ [y] -> (forall j, j <> k -> heads' j = heads j) -> heads' k = a ->
  rings heads' (<[k := a :: l ++ [y]]> ch) m'.
Proof.
  intros E Ho Hk. assert (heads k <> 0) as Hnz. { intros E0. pose proof (rg_head _ _ _ H k) as Hh. by rewrite E0, E in Hh. }
  destruct (rings_chain _ _ _ _ H Hnz) as (l' & E' & Hc & Hnd & H0). rewrite E in Hc, Hnd. cbn in Hc. destruct Hc as (_ & ex' & Hex & Hp). assert (ex' = ex) as -> by congruence.
  apply path_app in Hp as (c & Hp & -> & _). apply NoDup_cons in Hnd as [Hxl Hnd]. pose proof Hnd as (Hndl & Hd & _)%NoDup_app.
  assert (y ∉ l) by set_solver.
  assert (a ∉ x :: l ++ [y]) as Hal. { intros Hin. rewrite <- E in Hin. destruct (rings_in _ _ _ _ _ H Hin). congruence. }
  apply (replace_change heads' (x :: l ++ [y])); [done|by apply NoDup_cons| |set_solver|set_solver|left|set_solver|done|].
  - apply NoDup_cons. split; [set_solver|done].
  - exists (l ++ [y]). rewrite Hk. split; [done|]. cbn. split; [done|]. exists e. unfold m' at 1. rewrite lookup_insert_ne, lookup_delete_ne, lookup_insert_eq by set_solver. split; [done|].
    rewrite Hn. apply path_app. exists y. split; [apply replace_path; [set_solver..|done]|]. cbn. split; [done|]. exists (re_set_next a ey). unfold m' at 1. by rewrite lookup_insert_eq.
Qed.
End replace.

(** ** Holding and releasing pages *)

Section holding.
Context (g : ghost) (base : Z -> Z).
Local Abbreviation rvm := (ring_vm g base).

(** There is room for [n] more pins of any page. *)
Definition room (n : Z) (m : gmap Z ringent) : Prop := forall p, base p + pinsum p m + n < 2 ^ 31.

Lemma room_le n k m : room n m -> k <= n -> room k m.
Proof. intros H Hk p. specialize (H p). lia. Qed.

(** Entries change without changing what they hold. *)
Lemma ring_vm_next a e f s : rvm [] s -> r_ents s !! a = Some e -> refs (f e) = refs e -> rvm [] (r_set_ents (<[a := f e]> (r_ents s)) s).
Proof.
  intros Hr Ha Hf. apply (ring_vm_ents g base [] [] _ s Hr).
  - intros p. rewrite (pinsum_insert p _ _ e) by done. rewrite Hf. lia.
  - intros b e' p Hb Hin. destruct (decide (a = b)) as [<-|]; [rewrite lookup_insert_eq in Hb; injection Hb as <-|rewrite lookup_insert_ne in Hb by done].
    + apply (rv_refs _ _ _ _ Hr a e); [done|]. by rewrite <- Hf.
    + by apply (rv_refs _ _ _ _ Hr b e').
Qed.

Lemma ring_vm_new a e s : rvm [] s -> r_ents s !! a = None -> refs e = [] -> rvm [] (r_set_ents (<[a := e]> (r_ents s)) s).
Proof.
  intros Hr Ha He. apply (ring_vm_ents g base [] [] _ s Hr).
  - intros p. rewrite pinsum_new, He by done. done.
  - intros b e' p Hb Hin. destruct (decide (a = b)) as [<-|]; [rewrite lookup_insert_eq in Hb; injection Hb as <-|rewrite lookup_insert_ne in Hb by done].
    + rewrite He in Hin. set_solver.
    + by apply (rv_refs _ _ _ _ Hr b e').
Qed.

(** An entry takes hold of the page of [kva]. *)
Lemma hold_run a e f kva s : rvm [] s -> r_ents s !! a = Some e -> (forall p, count p (refs (f e)) = count p (refs e) + b2z (kva2ppn kva =? p)) ->
  is_Some (ppages (vm_pool (r_vm s)) !! kva2ppn kva) -> room 1 (r_ents s) ->
  wp (upd_ent a f ;; pin_kva kva) s (fun _ s' => rvm [] s' /\ rsame s s' /\ r_ents s' = <[a := f e]> (r_ents s)).
Proof.
  intros Hr Ha Hf Hp Hroom. apply wp_bind, (wp_upd_ent a e); [done|]. set (s1 := r_set_ents _ _).
  assert (rvm [kva2ppn kva] s1) as Hr1.
  { apply (ring_vm_ents g base [] _ _ s Hr).
    - intros p. rewrite (pinsum_insert p _ _ e), Hf, count_cons by done. cbn. lia.
    - intros b e' p Hb Hin. destruct (decide (a = b)) as [<-|]; [rewrite lookup_insert_eq in Hb; injection Hb as <-|rewrite lookup_insert_ne in Hb by done; by apply (rv_refs _ _ _ _ Hr b e')].
      destruct (decide (kva2ppn kva = p)) as [<-|Hne]; [done|]. apply (rv_refs _ _ _ _ Hr a e); [done|].
      apply count_in in Hin. rewrite Hf, (proj2 (Z.eqb_neq _ _)) in Hin by done. destruct (decide (p ∈ refs e)); [done|]. rewrite count_out in Hin by done. cbn in Hin. lia. }
  eapply wp_mono; [apply (pin_more g base kva s1 Hr1 Hp)|].
  - intros p pp Hpp. rewrite (rv_pins _ _ _ _ Hr1 p pp Hpp). cbn. rewrite (pinsum_insert p _ _ e), Hf, count_cons by done. specialize (Hroom p). change (count p []) with 0. lia.
  - intros [] s2 (H1 & H2 & H3). split_and!; [done|exact H2|done].
Qed.

(** The last step of releasing an entry whose pages were given back. *)
Lemma release_run a e gone s : rvm gone s -> r_ents s !! a = Some e -> (forall p, count p gone = count p (refs e)) ->
  wp (del_ent a) s (fun _ s' => rvm [] s' /\ rsame s s' /\ r_ents s' = delete a (r_ents s)).
Proof.
  intros Hr Ha Hc. apply (wp_del_ent a e); [done|]. split_and!; [|done..]. apply (ring_vm_ents g base gone _ _ s Hr).
  - intros p. rewrite (pinsum_delete p (r_ents s) a e), Hc by done. change (count p []) with 0. lia.
  - intros b e' p Hb Hin. apply lookup_delete_Some in Hb as [_ Hb]. by apply (rv_refs _ _ _ _ Hr b e').
Qed.

Lemma wp_assoc {S A B C} (m : M S A) (k : A -> M S B) (h : B -> M S C) s (Q : C -> S -> Prop) :
  wp (mbind_ (mbind_ m k) h) s Q -> wp (mbind_ m (fun a => mbind_ (k a) h)) s Q.
Proof. unfold wp, mbind_. by destruct (m s). Qed.
End holding.

(** ** Translating a whole buffer *)

Lemma land_pgmask va : Z.land va PGMASK = va mod NBPG.
Proof. change PGMASK with (Z.ones 12). rewrite Z.land_ones by lia. done. Qed.

Lemma kva_of_eq w va : 0 <= w < 2 ^ 32 -> Z.shiftr w PGSHIFT < 65536 -> kva_of w va = pp2va (Z.shiftr w PGSHIFT) + va mod NBPG.
Proof.
  intros Hw Hp. unfold kva_of, pp2va. rewrite land_pgmask. assert (clr w PGMASK = NBPG * Z.shiftr w PGSHIFT) as ->.
  { unfold clr, NBPG, PGSHIFT. rewrite Z.mul_comm. change 4096 with (2 ^ 12). rewrite <- Z.shiftl_mul_pow2 by lia. apply Z.bits_inj'. intros k Hk.
    rewrite Z.land_spec, Z.lxor_spec, pgmask_bits by lia. change (2 ^ 32 - 1) with (Z.ones 32). rewrite Z.shiftl_spec by done. destruct (decide (k < 12)).
    - rewrite (proj2 (Z.ltb_lt _ _)), (Z.testbit_neg_r _ (k - 12)) by lia. rewrite Z.ones_spec_low by lia. cbn. by rewrite andb_false_r.
    - rewrite (proj2 (Z.ltb_ge _ _)), Z.shiftr_spec by lia. replace (k - 12 + 12) with k by lia. rewrite xorb_false_l.
      destruct (decide (k < 32)); [by rewrite Z.ones_spec_low, andb_true_r by lia|]. rewrite Z.ones_spec_high, andb_false_r by lia.
      symmetry. apply Z.bits_above_log2; [lia|]. destruct (decide (w = 0)) as [->|]; [cbn; lia|]. apply Z.log2_lt_pow2; [lia|]. apply Z.lt_le_trans with (2 ^ 32); [lia|]. apply Z.pow_le_mono_r; lia. }
  pose proof (Z.mod_pos_bound va NBPG ltac:(done)) as Hm. assert (0 <= Z.shiftr w PGSHIFT) by (apply Z.shiftr_nonneg; lia).
  assert (Z.lor (NBPG * Z.shiftr w PGSHIFT) (va mod NBPG) = NBPG * Z.shiftr w PGSHIFT + va mod NBPG) as ->.
  { assert (Z.land (NBPG * Z.shiftr w PGSHIFT) (va mod NBPG) = 0) as E0; [|by rewrite <- Z.lxor_lor, <- Z.add_nocarry_lxor].
    apply Z.bits_inj'. intros k Hk. unfold NBPG. rewrite Z.land_spec, Z.bits_0, Z.mul_comm. change 4096 with (2 ^ 12).
    destruct (decide (k < 12)); [by rewrite Z.mul_pow2_bits_low by lia|]. rewrite Z.mod_pow2_bits_high by lia. apply andb_false_r. }
  unfold NBPG in *. rewrite u32_small; [lia|]. unfold KERNBASE. lia.
Qed.

(** The addresses of the bytes of a list of pieces. *)
Definition addrs (l : list rec) : list Z := l ≫= (fun x => Z.add (r_data x) <$> zseq 0 (Z.to_nat (r_sz x))).

(** The bytes of one page are translated together. *)
Lemma va_kva_page v va i : ringable v -> 0 <= va -> 0 <= i -> va mod NBPG + i < NBPG -> has_bits v READ_MASK va = true ->
  has_bits v READ_MASK (va + i) = true /\ va_kva v (va + i) = va_kva v va + i.
Proof.
  intros Hb Hva Hi Hlt Hbits. assert (Z.shiftr (va + i) 12 = Z.shiftr va 12) as Esh.
  { rewrite !Z.shiftr_div_pow2 by done. unfold NBPG in *. change (2 ^ 12) with 4096. pose proof (Z.div_mod va 4096 ltac:(lia)). pose proof (Z.mod_pos_bound va 4096 ltac:(lia)).
    symmetry. apply (Z.div_unique_pos _ _ _ (va mod 4096 + i)); lia. }
  assert ((va + i) mod NBPG = va mod NBPG + i) as Emod.
  { unfold NBPG in *. pose proof (Z.div_mod va 4096 ltac:(lia)). pose proof (Z.mod_pos_bound va 4096 ltac:(lia)). symmetry. apply (Z.mod_unique_pos _ _ (va / 4096)); lia. }
  assert (va_pte v (va + i) = va_pte v va) as Epte.
  { unfold va_pte, va_pde, PTENO, PDENO, PGSHIFT, PDSHIFT. rewrite Esh. change 22 with (12 + 10). rewrite <- !Z.shiftr_shiftr, Esh by lia. done. }
  unfold has_bits, va_kva in *. rewrite Epte. destruct (va_pte v va) as [w|] eqn:Ew; [|done]. split; [done|].
  apply Z.eqb_eq in Hbits. assert (tst w PG_P = true) as Hp.
  { unfold tst, PG_P. assert (Z.land (Z.land w READ_MASK) 1 = 1) as E by (by rewrite Hbits). rewrite <- Z.land_assoc in E. change (Z.land READ_MASK 1) with 1 in E. by rewrite E. }
  assert (exists k, vm_pts v !! k = Some w) as [k Hk].
  { unfold va_pte in Ew. destruct (cur_pd v) as [x|]; [|done]. cbn in Ew. destruct (_ || _); [done|]. injection Ew as Ew. unfold pte_at in Ew.
    destruct (vm_pts v !! _) as [w'|] eqn:Ek; cbn in Ew; subst; [eauto|done]. }
  destruct (rb_maps v Hb k w Hk) as [Hr Hlt']. specialize (Hlt' Hp). pose proof (rb_ram v Hb). rewrite !kva_of_eq by lia. lia.
Qed.

(** ** Copying as a specification *)

(** C40: [ae_recv_datacpy] and [ae_recv_datacpy_in] copy a slice: of the bytes of
    the pieces, laid end to end, those from [startoff] on, at most [maxlen] of
    them, are written to the buffer, and their number is returned.  (For the copy
    within the kernel the buffer and the pieces must not overlap.) *)
Theorem ae_recv_datacpy_slices umem recv buf startoff maxlen m :
  (forall x, x ∈ recv -> 0 <= r_sz x) -> 0 <= startoff ->
  let slice rd := take (Z.to_nat maxlen) (drop (Z.to_nat startoff) (bytes_of rd recv)) in
  ae_recv_datacpy_in umem recv buf startoff maxlen m = Ret (zlen (slice umem)) (wr_bytes buf (slice umem) m) /\
  ((forall x, x ∈ recv -> apart buf maxlen (r_data x) (r_sz x)) ->
   ae_recv_datacpy recv buf startoff maxlen m = Ret (zlen (slice (rdb m))) (wr_bytes buf (slice (rdb m)) m)).
Proof.
  intros Hsz Hoff slice. split.
  - apply (datacpy_spec (copyin umem) umem recv (fun _ => True) (fun _ => True)); done.
  - intros Ha. apply (datacpy_spec bcopy (rdb m) recv (src_kept recv m) (off_src recv) (bcopy_reads recv m) (src_kept_wr recv m) Hsz); [done| |done]. intros i Hi x Hx. specialize (Ha x Hx). unfold apart in Ha. lia.
Qed.

Definition ex_umem (a : Z) : Z := a mod 256.
Definition ex_recv : list rec := [mkRec 3 100; mkRec 0 50; mkRec 4 200].

Lemma ae_recv_datacpy_slices_witness :
  ae_recv_datacpy_in ex_umem ex_recv 1000 2 3 ∅ = Ret 3 (wr_bytes 1000 [102; 200; 201] ∅).
Proof.
  refine (proj1 (ae_recv_datacpy_slices ex_umem ex_recv 1000 2 3 ∅ _ _)); [|lia].
  intros x Hx. unfold ex_recv in Hx. rewrite !elem_of_cons in Hx. destruct Hx as [->|[->|[->|Hx]]]; cbn; [lia..|]. by apply not_elem_of_nil in Hx.
Defined.
