(* ===== verification/Msgring.v ===== *)
(** * Message rings

    sys/kern/msgring.c: an environment gives the kernel a ring of buffers
    ([sys_msgring_setring]), changes and removes it ([sys_msgring_modring],
    [sys_msgring_delring]), and others send it messages ([sys_ipc_sendmsg]),
    which the kernel copies into the next buffer of the ring whose owner word
    says that it is free. *)

From Stdlib Require Import ZArith Lia.
From stdpp Require Import functions.
From stdpp Require Import base numbers option list gmap.
From S2P Require Import Prelude Capability EnvTable PageState PageAlloc PageTable EnvSafe Ring.

Definition IPC_MSGRINGENT_OWNEDBY_APP := 0.
Definition IPC_MAX_MSG_SIZE := 64.
Definition IPC_MAX_SCATTER_PTR := 2.

(** ** Entries *)

Definition msgringent_free (ktmp : Z) : M rst unit :=
  e <- get_ent ktmp ;;
  mfor (fun r => unpin_kva (r_data r)) (re_recv e) ;;
  (if negb (re_owner e =? 0) then unpin_kva (re_owner e) else mreturn tt) ;;
  del_ent ktmp.

(** The [while (len > 0)] loop of [msgringent_setup]; [false] is the error exit,
    after which the entry is gone.  The limits stop it after three rounds. *)
Fixpoint setup_body (fuel : nat) (ktmp len addr pagebound scatptr total_len : Z) : M rst bool :=
  if negb (0 <? len) then mreturn true
  else
    match fuel with
    | O => panic
    | S fuel' =>
        let slen := Z.min len pagebound in
        ok <- va_has READ_MASK addr ;;
        if negb ok then msgringent_free ktmp ;; mreturn false
        else
          data <- va2kva addr ;;
          upd_ent ktmp (re_add_rec (mkRec slen data)) ;;
          pin_kva data ;;
          let scatptr := scatptr + 1 in
          let total_len := total_len + slen in
          if (IPC_MAX_SCATTER_PTR <? scatptr) || (IPC_MAX_MSG_SIZE <? total_len) then
            msgringent_free ktmp ;; mreturn false
          else setup_body fuel' ktmp (len - slen) (u32 (addr + slen)) NBPG scatptr total_len
    end.

(** [mem] is what [malloc] returns, [self] the address of the kernel's copy [u]
    of the entry, which is what is stored as its address. *)
Definition msgringent_setup (mem self : Z) (u : uringent) : M rst Z :=
  if mem =? 0 then mreturn 0
  else
    put_ent mem (mkRe 0 0 self []) ;;
    ok <- (if negb (ur_owner u mod 4 =? 0) then mreturn false else va_has WRITE_MASK (ur_owner u)) ;;
    if negb ok then msgringent_free mem ;; mreturn 0
    else
      owner <- va2kva (ur_owner u) ;;
      upd_ent mem (re_set_owner owner) ;;
      pin_kva owner ;;
      if 1 <? ur_n u then msgringent_free mem ;; mreturn 0
      else
        let addr := r_data (ur_r u 0) in
        ok <- setup_body 3 mem (s32 (r_sz (ur_r u 0))) addr (NBPG - Z.land addr (NBPG - 1)) 0 0 ;;
        mreturn (if ok : bool then mem else 0).

(** One round unlinks and frees the entry after the head. *)
Fixpoint msgring_free (fuel : nat) (ringhead : Z) : M rst unit :=
  if ringhead =? 0 then mreturn tt
  else
    match fuel with
    | O => panic
    | S fuel' =>
        h <- get_ent ringhead ;;
        let ktmp := re_next h in
        k <- get_ent ktmp ;;
        upd_ent ringhead (re_set_next (re_next k)) ;;
        k <- get_ent ktmp ;;
        let ringhead := if ktmp =? re_next k then 0 else ringhead in
        msgringent_free ktmp ;;
        msgring_free fuel' ringhead
    end.

(** The head is [curenv->msgring]. *)
Definition cur_env : M rst (Z * Env) :=
  cur <- in_rvm (in_et get_curenv) ;; e <- in_rvm (in_et (get_env cur)) ;; mreturn (cur, e).
Definition put_msgring (cur x : Z) : M rst unit := in_rvm (in_et (upd_env cur (set_msgring x))).
Definition ring_fuel : M rst nat := gets (fun s => size (r_ents s)).

(** [msgring_free (curenv->msgring); curenv->msgring = 0L]. *)
Definition drop_msgring : M rst unit :=
  ce <- cur_env ;; fuel <- ring_fuel ;;
  msgring_free fuel (msgring (snd ce)) ;;
  put_msgring (fst ce) 0.

(** The new entry becomes the last of the ring; [kprev] is the one before it. *)
Definition link (ktmp kprev : Z) : M rst unit :=
  if negb (kprev =? 0) then
    kp <- get_ent kprev ;; upd_ent ktmp (re_set_next (re_next kp)) ;; upd_ent kprev (re_set_next ktmp)
  else upd_ent ktmp (re_set_next ktmp) ;; ce <- cur_env ;; put_msgring (fst ce) ktmp.

(** ** System calls *)

Section setring.
(** The entries in the memory of the user, what [malloc] returns in round [i],
    and the address of [ringhead_kernel]. *)
Context (umem : Z -> uringent) (mems : Z -> Z) (self : Z).

(** The [do ... while] loop; [fuel] bounds the rounds. *)
Fixpoint setring_loop (fuel : nat) (head utmp kprev ringentries : Z) : M rst Z :=
  match fuel with
  | O => panic
  | S fuel' =>
      if utmp =? 0 then drop_msgring ;; mreturn (- E_FAULT)
      else
        let ringhead_kernel := umem utmp in
        ktmp <- msgringent_setup (mems ringentries) self ringhead_kernel ;;
        if ktmp =? 0 then drop_msgring ;; mreturn (- E_FAULT)
        else
          link ktmp kprev ;;
          let utmp := ur_next ringhead_kernel in
          if negb (utmp =? head) then setring_loop fuel' head utmp ktmp (ringentries + 1)
          else mreturn 0
  end.

Definition sys_msgring_setring (fuel : nat) (ringhead_user : Z) : M rst Z :=
  ce <- cur_env ;;
  (if negb (msgring (snd ce) =? 0) then drop_msgring else mreturn tt) ;;
  setring_loop fuel ringhead_user ringhead_user 0 0.
End setring.

(** The search of [sys_msgring_modring]: the entry before the one wanted, or
    the head again. *)
Fixpoint find_prev (fuel : nat) (head oldentry kprev : Z) : M rst Z :=
  match fuel with
  | O => panic
  | S fuel' =>
      kp <- get_ent kprev ;;
      kn <- get_ent (re_next kp) ;;
      if re_appaddr kn =? oldentry then mreturn kprev
      else
        let kprev := re_next kp in
        if negb (kprev =? head) then find_prev fuel' head oldentry kprev else mreturn kprev
  end.

(** The three changes, behind the entry [kprev], whose value is [kp]; [kn] is that
    of the entry after it.  Replace it by [ktmp]: *)
Definition mod_replace (cur head kprev ktmp : Z) (kp kn : ringent) : M rst Z :=
  upd_ent ktmp (re_set_next (re_next kn)) ;;
  (if head =? re_next kp then put_msgring cur ktmp else mreturn tt) ;;
  msgringent_free (re_next kp) ;;
  upd_ent kprev (re_set_next ktmp) ;;
  mreturn 0.
(** insert [ktmp] after it: *)
Definition mod_insert (ktmp : Z) (kp kn : ringent) : M rst Z :=
  upd_ent ktmp (re_set_next (re_next kn)) ;;
  upd_ent (re_next kp) (re_set_next ktmp) ;;
  mreturn 0.
(** remove it, with the assignment [if (curenv->msgring = ktmp)]: *)
Definition mod_remove (cur kprev : Z) (kp kn : ringent) : M rst Z :=
  let ktmp := re_next kp in
  upd_ent kprev (re_set_next (re_next kn)) ;;
  put_msgring cur ktmp ;;
  (if negb (ktmp =? 0) then k <- get_ent ktmp ;; put_msgring cur (re_next k) else mreturn tt) ;;
  kp <- get_ent kprev ;;
  msgringent_free (re_next kp) ;;
  mreturn 0.

(** [newentry] is the entry the user points at ([None] for a null pointer),
    [self] the address of its copy in the kernel. *)
Definition sys_msgring_modring (mem self : Z) (newentry : option uringent) (oldentry replace : Z) : M rst Z :=
  if oldentry =? 0 then mreturn (- E_INVAL)
  else
    ce <- cur_env ;;
    let head := msgring (snd ce) in
    if head =? 0 then mreturn (- E_NO_MSGRING)
    else
      fuel <- ring_fuel ;;
      kprev <- find_prev fuel head oldentry head ;;
      kp <- get_ent kprev ;;
      kn <- get_ent (re_next kp) ;;
      if negb (re_appaddr kn =? oldentry) then mreturn (- E_NOT_FOUND)
      else
        match newentry with
        | Some u =>
            ktmp <- msgringent_setup mem self u ;;
            if ktmp =? 0 then mreturn (- E_INVAL)
            else if negb (replace =? 0) then mod_replace (fst ce) head kprev ktmp kp kn
            else mod_insert ktmp kp kn
        | None => if negb (replace =? 0) then mod_remove (fst ce) kprev kp kn else mreturn 0
        end.

Definition sys_msgring_delring : M rst Z :=
  ce <- cur_env ;;
  if msgring (snd ce) =? 0 then mreturn (- E_NOT_FOUND)
  else drop_msgring ;; mreturn 0.

(** ** Sending *)

(** [umem] is the memory of the sender, [data] the address of the message; all of
    it can be read (a fault in [copyin] is not modelled).  The bytes written are
    those of [r_mem], a map of its own: page tables and descriptors do not change
    with it, also where the buffer was on a page the kernel shows read-only. *)
Definition msgring_handlemsg (umem : Z -> Z) (ei len data : Z) : M rst Z :=
  e <- in_rvm (in_et (get_env ei)) ;;
  k <- get_ent (msgring e) ;;
  own <- in_mem (gets (fun m => ld32 m (re_owner k))) ;;
  if negb (own =? IPC_MSGRINGENT_OWNEDBY_APP) then mreturn (- E_MSGRING_FULL)
  else
    put_msgring ei (re_next k) ;;
    in_mem (fill_recs (copyin umem) [mkRec len data] (re_recv k) len 0) ;;
    in_mem (st32 (re_owner k) len) ;;
    mreturn 0.

Definition sys_ipc_sendmsg (umem : Z -> Z) (envid sz addr : Z) : M rst Z :=
  if sz =? 0 then mreturn (- E_INVAL)
  else if IPC_MAX_MSG_SIZE <? sz then mreturn (- E_INVAL)
  else
    et <- in_rvm (gets vm_et) ;;
    match env_id2env et envid with
    | inr _ => mreturn (- E_BAD_ENV)
    | inl ei =>
        e <- in_rvm (in_et (get_env ei)) ;;
        if msgring e =? 0 then mreturn (- E_NO_MSGRING)
        else msgring_handlemsg umem ei sz addr
    end.

(** ** Entries and their pages *)

Section entries.
Context (g : ghost) (base : Z -> Z).
Local Abbreviation rvm := (ring_vm g base).

Lemma msgringent_free_run a e s : rvm [] s -> r_ents s !! a = Some e ->
  wp (msgringent_free a) s (fun _ s' => rvm [] s' /\ rsame s s' /\ r_ents s' = delete a (r_ents s)).
Proof.
  intros Hr Ha. apply wp_bind, (wp_get_ent a e); [done|]. apply wp_bind. eapply wp_mono.
  { apply (unpin_pieces g base a e _ [] s Hr Ha). intros p. unfold refs. rewrite count_both. pose proof (count_le p (if re_owner e =? 0 then [] else [kva2ppn (re_owner e)])). change (count p []) with 0. lia. }
  intros [] s1 (Hr1 & Hs1 & E1). rewrite app_nil_r in Hr1. apply wp_bind. destruct (Z.eqb_spec (re_owner e) 0) as [E0|E0]; cbn [negb].
  - apply wp_ret. eapply wp_mono; [apply (release_run g base a e _ s1 Hr1); [by rewrite E1|]|].
    + intros p. unfold refs. by rewrite E0.
    + intros [] s2 (H1 & H2 & H3). rewrite E1 in H3. split_and!; [done|by etrans|done].
  - assert (refs e = kva2ppn (re_owner e) :: ((fun r => kva2ppn (r_data r)) <$> re_recv e)) as Er by (unfold refs; by rewrite (proj2 (Z.eqb_neq _ _))).
    eapply wp_mono; [apply (unpin_more g base (re_owner e) _ s1 Hr1)|].
    + apply (vsame_page _ _ _ (proj1 Hs1)), (rv_refs _ _ _ _ Hr a e); [done|]. rewrite Er. left.
    + rewrite E1. pose proof (pinsum_le (kva2ppn (re_owner e)) _ _ _ Ha) as Hle. rewrite Er, count_cons, Z.eqb_refl in Hle. cbn in Hle. pose proof (rv_base _ _ _ _ Hr (kva2ppn (re_owner e))). lia.
    + intros [] s2 (Hr2 & Hs2 & E2). eapply wp_mono; [apply (release_run g base a e _ s2 Hr2); [congruence|]|].
      * intros p. by rewrite Er.
      * intros [] s3 (H1 & H2 & H3). split_and!; [done| |congruence]. etrans; [exact Hs1|]. by etrans.
Qed.

(** The pieces of a buffer as the loop finds them. *)
Fixpoint pieces (v : vm) (fuel : nat) (len addr pagebound scatptr total_len : Z) : option (list rec) :=
  if negb (0 <? len) then Some []
  else
    match fuel with
    | O => None
    | S fuel' =>
        let slen := Z.min len pagebound in
        if negb (has_bits v READ_MASK addr) || (IPC_MAX_SCATTER_PTR <? scatptr + 1) || (IPC_MAX_MSG_SIZE <? total_len + slen) then None
        else cons (mkRec slen (va_kva v addr)) <$> pieces v fuel' (len - slen) (u32 (addr + slen)) NBPG (scatptr + 1) (total_len + slen)
    end.

Lemma pieces_same v v' fuel : tsame v v' -> forall len addr pb sc tot, pieces v' fuel len addr pb sc tot = pieces v fuel len addr pb sc tot.
Proof.
  intros H. induction fuel as [|fuel IH]; intros; cbn [pieces]; [done|]. by rewrite (has_bits_same v v'), (va_kva_same v v'), IH.
Qed.

Definition re_add (l : list rec) (e : ringent) : ringent := mkRe (re_next e) (re_owner e) (re_appaddr e) (re_recv e ++ l).

Lemma refs_add x e p : count p (refs (re_add_rec x e)) = count p (refs e) + b2z (kva2ppn (r_data x) =? p).
Proof. unfold refs. cbn. rewrite fmap_app, !count_both. cbn [fmap list_fmap]. rewrite count_cons. change (count p []) with 0. lia. Qed.

Lemma setup_body_run a fuel : forall e len addr pb sc tot s, rvm [] s -> ringable (r_vm s) -> r_ents s !! a = Some e ->
  3 <= sc + Z.of_nat fuel -> 0 <= sc <= IPC_MAX_SCATTER_PTR -> room base (3 - sc) (r_ents s) ->
  wp (setup_body fuel a len addr pb sc tot) s (fun ok s' => rvm [] s' /\ rsame s s' /\
    match pieces (r_vm s) fuel len addr pb sc tot with
    | Some l => ok = true /\ r_ents s' = <[a := re_add l e]> (r_ents s)
    | None => ok = false /\ r_ents s' = delete a (r_ents s)
    end).
Proof.
  induction fuel as [|fuel IH]; intros e len addr pb sc tot s Hr Hb Ha Hf Hsc Hroom; cbn [setup_body pieces]; (destruct (Z.ltb_spec 0 len); cbn [negb];
    [|apply wp_ret; split_and!; [done|reflexivity|done|]; unfold re_add; rewrite app_nil_r, insert_id; [done|by destruct e]]).
  - unfold IPC_MAX_SCATTER_PTR in *. lia.
  - apply wp_bind. eapply wp_eq; [apply va_has_run, Hb|]. destruct (has_bits (r_vm s) READ_MASK addr) eqn:Eb; cbn [negb orb].
    2: { apply wp_bind. eapply wp_mono; [by apply (msgringent_free_run a e)|]. intros [] s1 (H1 & H2 & H3). apply wp_ret. done. }
    destruct (has_bits_page g (r_vm s) READ_MASK addr (rv_vm _ _ _ _ Hr) Hb eq_refl Eb) as (w & Ew & Hw & Epg & Hnz & Hpg).
    apply wp_bind. eapply wp_eq; [by eapply va2kva_run|]. set (kva := va_kva (r_vm s) addr) in *. set (slen := Z.min len pb).
    apply wp_assoc, wp_bind. eapply wp_mono; [apply (hold_run g base a e _ kva s Hr Ha); [intros p; apply refs_add|done|eapply room_le; [done|unfold IPC_MAX_SCATTER_PTR in *; lia]]|].
    intros [] s1 (Hr1 & Hs1 & E1). assert (r_ents s1 !! a = Some (re_add_rec (mkRec slen kva) e)) as Ha1 by (rewrite E1; apply lookup_insert_eq).
    destruct (_ || _) eqn:Elim; cbn [orb].
    { apply wp_bind. eapply wp_mono; [by apply (msgringent_free_run a _ s1 Hr1 Ha1)|]. intros [] s2 (H1 & H2 & H3). apply wp_ret. split_and!; [done|by etrans|done|].
      rewrite H3, E1. by rewrite delete_insert_eq. }
    apply orb_false_iff in Elim as [El1%Z.ltb_ge El2]. eapply wp_mono; [apply (IH (re_add_rec (mkRec slen kva) e) _ _ _ (sc + 1) _ s1 Hr1)|].
    + apply (ringable_same _ _ (vsame_t _ _ (proj1 Hs1)) Hb).
    + exact Ha1.
    + lia.
    + lia.
    + intros p. rewrite E1, (pinsum_insert p _ _ e), refs_add by done. specialize (Hroom p). unfold b2z. case_match; lia.
    + intros ok s2 (Hr2 & Hs2 & H2). split_and!; [done|by etrans|]. rewrite (pieces_same (r_vm s)) in H2 by apply vsame_t, Hs1.
      destruct (pieces _ fuel _ _ _ _ _) as [l|]; cbn; destruct H2 as [-> E2]; (split; [done|]); rewrite E2, E1.
      * rewrite insert_insert_eq. f_equal. unfold re_add, re_add_rec. cbn. by rewrite <- app_assoc.
      * by rewrite delete_insert_eq.
Qed.

(** The entry the kernel makes of a user's, [None] if it is refused. *)
Definition entry_of (v : vm) (self : Z) (u : uringent) : option ringent :=
  if negb (ur_owner u mod 4 =? 0) || negb (has_bits v WRITE_MASK (ur_owner u)) || (1 <? ur_n u) then None
  else
    let addr := r_data (ur_r u 0) in
    mkRe 0 (va_kva v (ur_owner u)) self <$> pieces v 3 (s32 (r_sz (ur_r u 0))) addr (NBPG - Z.land addr (NBPG - 1)) 0 0.

Lemma entry_of_same v v' self u : tsame v v' -> entry_of v' self u = entry_of v self u.
Proof. intros H. unfold entry_of. by rewrite (has_bits_same v v'), (va_kva_same v v'), (pieces_same v v'). Qed.

Lemma msgringent_setup_run mem self u s : rvm [] s -> ringable (r_vm s) -> room base 4 (r_ents s) -> r_ents s !! mem = None ->
  wp (msgringent_setup mem self u) s (fun r s' => rvm [] s' /\ rsame s s' /\
    match (if mem =? 0 then None else entry_of (r_vm s) self u) with
    | Some e => r = mem /\ r_ents s' = <[mem := e]> (r_ents s)
    | None => r = 0 /\ r_ents s' = r_ents s
    end).
Proof.
  intros Hr Hb Hroom Hm. unfold msgringent_setup. destruct (mem =? 0) eqn:E0; [by apply wp_ret|].
  apply wp_bind, wp_put_ent. set (e0 := mkRe 0 0 self []). assert (rvm [] (r_set_ents (<[mem := e0]> (r_ents s)) s)) as Hr0 by by apply ring_vm_new.
  set (s0 := r_set_ents _ s) in *. assert (r_ents s0 !! mem = Some e0) as Hm0 by apply lookup_insert_eq.
  assert (forall (b : bool) s1, rvm [] s1 -> rsame s s1 -> (exists e, r_ents s1 = <[mem := e]> (r_ents s)) ->
    wp (msgringent_free mem ;; mreturn 0) s1 (fun r s' => rvm [] s' /\ rsame s s' /\ r = 0 /\ r_ents s' = r_ents s)) as Hfail.
  { intros b s1 Hr1 Hs1 [e E1]. apply wp_bind. eapply wp_mono; [apply (msgringent_free_run mem e s1 Hr1); rewrite E1; apply lookup_insert_eq|].
    intros [] s2 (H1 & H2 & H3). apply wp_ret. split_and!; [done|by etrans|done|]. rewrite H3, E1. by apply delete_insert_id. }
  apply wp_bind. unfold entry_of. destruct (ur_owner u mod 4 =? 0) eqn:Ea; cbn [negb orb].
  2: { apply wp_ret. cbn [negb]. apply (Hfail true); [done|done|]. by eexists. }
  eapply wp_eq; [apply (va_has_run WRITE_MASK _ s0), Hb|]. change (r_vm s0) with (r_vm s). destruct (has_bits (r_vm s) WRITE_MASK (ur_owner u)) eqn:Eb; cbn [negb orb].
  2: { apply (Hfail true); [done|done|]. by eexists. }
  destruct (has_bits_page g (r_vm s) WRITE_MASK (ur_owner u) (rv_vm _ _ _ _ Hr) Hb eq_refl Eb) as (w & Ew & Hw & Epg & Hnz & Hpg).
  apply wp_bind. eapply wp_eq; [by apply (va2kva_run _ w s0)|]. change (r_vm s0) with (r_vm s). set (owner := va_kva (r_vm s) (ur_owner u)) in *.
  apply wp_assoc, wp_bind. eapply wp_mono; [apply (hold_run g base mem e0 _ owner s0 Hr0 Hm0)|].
  { intros p. unfold refs, e0. cbn. rewrite (proj2 (Z.eqb_neq _ _)) by done. cbn. rewrite count_cons. cbn. lia. }
  { done. }
  { intros p. cbn. rewrite pinsum_new by done. specialize (Hroom p). cbn. change (count p []) with 0. lia. }
  intros [] s1 (Hr1 & Hs1 & E1). cbn in E1. rewrite insert_insert_eq in E1. set (e1 := re_set_owner owner e0) in *.
  destruct (1 <? ur_n u) eqn:En; cbn [orb]. { apply (Hfail true); [done|exact Hs1|]. by eexists. }
  apply wp_bind. eapply wp_mono; [apply (setup_body_run mem 3 e1 _ _ _ 0 0 s1 Hr1)|].
  { apply (ringable_same _ _ (vsame_t _ _ (proj1 Hs1)) Hb). } { rewrite E1. apply lookup_insert_eq. } { lia. } { done. }
  { intros p. rewrite E1, pinsum_new by done. specialize (Hroom p). unfold refs, e1. cbn. case_match; cbn; rewrite ?count_cons; change (count p []) with 0; unfold b2z; try case_match; lia. }
  intros ok s2 (Hr2 & Hs2 & H2). apply wp_ret. rewrite (pieces_same (r_vm s)) in H2 by apply vsame_t, Hs1.
  destruct (pieces _ 3 _ _ _ _ _) as [l|]; cbn; destruct H2 as [-> E2]; split_and!; [done|etrans; [exact Hs1|done]|done| |done|etrans; [exact Hs1|done]|done|]; rewrite E2, E1.
  - by rewrite insert_insert_eq.
  - by apply delete_insert_id, Hm.
Qed.
End entries.

(** ** What a buffer becomes *)

Lemma u32_mod a b : u32 (u32 a + b) = u32 (a + b).
Proof. unfold u32, wrapu. apply Zplus_mod_idemp_l. Qed.

Lemma addrs_cons x l : addrs (x :: l) = (Z.add (r_data x) <$> zseq 0 (Z.to_nat (r_sz x))) ++ addrs l.
Proof. done. Qed.

(** The pieces are the pages of the buffer, in order: byte [i] of the pieces is
    byte [i] of the buffer, which the environment may read. *)
Lemma pieces_spec v fuel : ringable v -> forall len addr sc tot l, 0 <= addr < 2 ^ 32 -> tot <= IPC_MAX_MSG_SIZE ->
  pieces v fuel len addr (NBPG - Z.land addr (NBPG - 1)) sc tot = Some l ->
  Forall (fun x => 0 < r_sz x) l /\ sizes l = Z.max 0 len /\ tot + sizes l <= IPC_MAX_MSG_SIZE /\
  addrs l = (fun i => va_kva v (u32 (addr + i))) <$> zseq 0 (Z.to_nat len) /\
  (forall i, 0 <= i < len -> has_bits v READ_MASK (u32 (addr + i)) = true).
Proof.
  intros Hb. induction fuel as [|fuel IH]; intros len addr sc tot l Haddr Htot; cbn [pieces]; (destruct (Z.ltb_spec 0 len); cbn [negb];
    [|intros [= <-]; split_and!; [constructor|cbn; lia|cbn; lia|by replace (Z.to_nat len) with 0%nat by lia|lia]]); [done|].
  change (NBPG - 1) with PGMASK. rewrite land_pgmask. pose proof (Z.mod_pos_bound addr NBPG ltac:(done)) as Hm. set (slen := Z.min len (NBPG - addr mod NBPG)).
  destruct (has_bits v READ_MASK addr) eqn:Ebits; cbn [negb orb]; [|done]. destruct (_ <? sc + 1) eqn:E1; cbn [orb]; [done|].
  destruct (Z.ltb_spec IPC_MAX_MSG_SIZE (tot + slen)); [done|]. destruct (pieces v fuel _ _ _ _ _) as [l'|] eqn:Ep; cbn; [|done]. intros [= <-].
  assert (forall i, 0 <= i < slen -> u32 (addr + i) = addr + i /\ has_bits v READ_MASK (addr + i) = true /\ va_kva v (addr + i) = va_kva v addr + i) as Hpage.
  { intros i Hi. destruct (va_kva_page v addr i Hb ltac:(lia) ltac:(lia) ltac:(lia) Ebits) as [? ?]. split; [|done]. apply u32_small.
    unfold NBPG in *. pose proof (Z.div_mod addr 4096 ltac:(lia)). assert (addr / 4096 < 2 ^ 20) by (apply Z.div_lt_upper_bound; lia). lia. }
  assert (pieces v fuel (len - slen) (u32 (addr + slen)) (NBPG - Z.land (u32 (addr + slen)) (NBPG - 1)) (sc + 1) (tot + slen) = Some l') as Ep'.
  { destruct (decide (slen = len)) as [Es|Es].
    - rewrite Es, Z.sub_diag in Ep |- *. by destruct fuel.
    - assert (Z.land (u32 (addr + slen)) (NBPG - 1) = 0) as ->; [|by rewrite Z.sub_0_r]. change (NBPG - 1) with PGMASK. rewrite land_pgmask.
      assert (slen = NBPG - addr mod NBPG) as -> by lia. unfold u32, wrapu, NBPG. pose proof (Z.div_mod addr 4096 ltac:(lia)).
      replace (addr + (4096 - addr mod 4096)) with ((addr / 4096 + 1) * 4096) by lia. change (2 ^ 32) with (1048576 * 4096). rewrite Zmult_mod_distr_r. apply Z_mod_mult. }
  destruct (IH _ _ _ _ _ (u32_range _) H0 Ep') as (I1 & I2 & I3 & I4 & I5). change (sizes (mkRec slen (va_kva v addr) :: l')) with (slen + sizes l'). split_and!.
  - constructor; [cbn; lia|done].
  - lia.
  - lia.
  - rewrite addrs_cons, I4. cbn [r_sz r_data]. replace (Z.to_nat len) with (Z.to_nat slen + Z.to_nat (len - slen))%nat by lia. rewrite zseq_app, fmap_app. f_equal.
    + apply list_fmap_ext. intros j i Hi. apply list_elem_of_lookup_2, zseq_elem in Hi. destruct (Hpage i ltac:(lia)) as (-> & _ & ->). done.
    + rewrite (zseq_shift (0 + _)), <- list_fmap_compose. apply list_fmap_ext. intros j i Hi. cbn. rewrite u32_mod. do 2 f_equal. lia.
  - intros i Hi. destruct (decide (i < slen)); [destruct (Hpage i ltac:(lia)) as (-> & ? & _); done|]. specialize (I5 (i - slen) ltac:(lia)). rewrite u32_mod in I5.
    by replace (addr + slen + (i - slen)) with (addr + i) in I5 by lia.
Qed.

(** ** Releasing a ring *)

Section release.
Context (g : ghost) (base : Z -> Z).
Local Abbreviation rvm := (ring_vm g base).

Lemma msgring_free_run l : forall fuel h s, rvm [] s -> circ (r_ents s) (h :: l) -> NoDup (h :: l) -> h <> 0 -> (S (length l) <= fuel)%nat ->
  wp (msgring_free fuel h) s (fun _ s' => rvm [] s' /\ rsame s s' /\
    (forall a, a ∈ h :: l -> r_ents s' !! a = None) /\ (forall a, (a ∉ h :: l) -> r_ents s' !! a = r_ents s !! a)).
Proof.
  induction l as [|x l IH]; intros [|fuel] h s Hr Hc Hnd H0 Hf; cbn [length] in Hf; try lia; cbn [msgring_free]; rewrite (proj2 (Z.eqb_neq _ _)) by done.
  - cbn in Hc. destruct Hc as (_ & e & He & Hn). apply wp_bind, (wp_get_ent h e); [done|]. rewrite Hn. apply wp_bind, (wp_get_ent h e); [done|]. rewrite Hn.
    apply wp_bind, (wp_upd_ent h e); [done|]. set (s1 := r_set_ents _ s). assert (rvm [] s1) as Hr1 by by apply ring_vm_next.
    apply wp_bind, (wp_get_ent h (re_set_next h e)); [apply lookup_insert_eq|]. cbn [re_next re_set_next]. rewrite Z.eqb_refl. apply wp_bind. eapply wp_mono; [apply (msgringent_free_run g base h (re_set_next h e) s1 Hr1); apply lookup_insert_eq|].
    intros [] s2 (H1 & H2 & H3). assert (msgring_free fuel 0 = mreturn tt) as -> by by destruct fuel. apply wp_ret. split_and!; [done|exact H2|..].
    + intros a ->%list_elem_of_singleton. rewrite H3. apply lookup_delete_eq.
    + intros a Ha. rewrite H3. cbn. rewrite lookup_delete_ne, lookup_insert_ne by set_solver. done.
  - cbn [circ path] in Hc. destruct Hc as (_ & e & He & Hn & ex & Hx & Hp). apply NoDup_cons in Hnd as [Hh Hnd]. pose proof Hnd as [Hxl Hndl]%NoDup_cons. assert (h <> x) as Hhx by set_solver.
    apply wp_bind, (wp_get_ent h e); [done|]. rewrite Hn. apply wp_bind, (wp_get_ent x ex); [done|]. apply wp_bind, (wp_upd_ent h e); [done|]. set (s1 := r_set_ents _ s).
    assert (rvm [] s1) as Hr1 by by apply ring_vm_next. assert (r_ents s1 !! x = Some ex) as Hx1 by (cbn; by rewrite lookup_insert_ne).
    apply wp_bind, (wp_get_ent x ex); [done|]. rewrite (proj2 (Z.eqb_neq x (re_next ex))).
    2: { destruct l as [|y l]; cbn in Hp; [congruence|]. destruct Hp as [-> _]. set_solver. }
    apply wp_bind. eapply wp_mono; [apply (msgringent_free_run g base x _ s1 Hr1 Hx1)|]. intros [] s2 (Hr2 & Hs2 & E2).
    eapply wp_mono; [apply (IH fuel h s2 Hr2)|].
    + rewrite E2. cbn. split; [done|]. exists (re_set_next (re_next ex) e). rewrite lookup_delete_ne, lookup_insert_eq by done. split; [done|]. cbn.
      apply path_delete; [done|]. apply path_other; [set_solver|done].
    + apply NoDup_cons. split; [set_solver|done].
    + done.
    + lia.
    + intros [] s3 (Hr3 & Hs3 & H1 & H2). split_and!; [done|etrans; [exact Hs2|done]|..].
      * intros a [->|[->|Ha]%elem_of_cons]%elem_of_cons; [apply H1; left| |apply H1; by right]. destruct (decide (x ∈ h :: l)); [by apply H1|]. rewrite H2 by done. rewrite E2. apply lookup_delete_eq.
      * intros a Ha. rewrite H2 by set_solver. rewrite E2. cbn. rewrite lookup_delete_ne, lookup_insert_ne by set_solver. done.
Qed.
End release.

(** ** The rings of all environments *)

Definition msg_heads (v : vm) (i : Z) : Z := from_option msgring 0 (envs (vm_et v) !! i).

(** [s'] is [s] but for entries, pins and the ring of environment [i]. *)
Definition esame (i : Z) (s s' : rst) : Prop :=
  r_mem s' = r_mem s /\ tsame (r_vm s) (r_vm s') /\ curenv (vm_et (r_vm s')) = curenv (vm_et (r_vm s)) /\
  (forall j, j <> i -> envs (vm_et (r_vm s')) !! j = envs (vm_et (r_vm s)) !! j) /\
  (forall e, envs (vm_et (r_vm s)) !! i = Some e -> exists x, envs (vm_et (r_vm s')) !! i = Some (set_msgring x e)) /\
  (forall p, pp_set_pinned 0 <$> ppages (vm_pool (r_vm s')) !! p = pp_set_pinned 0 <$> ppages (vm_pool (r_vm s)) !! p).

#[export] Instance esame_preorder i : PreOrder (esame i).
Proof.
  split.
  - intros s. split_and!; try done. intros e He. exists (msgring e). rewrite He. by destruct e.
  - intros s1 s2 s3 (A1 & A2 & A3 & A4 & A5 & A6) (B1 & B2 & B3 & B4 & B5 & B6). split; [congruence|]. split; [by etrans|]. split; [congruence|]. split; [|split].
    + intros j Hj. by rewrite B4, A4.
    + intros e He. destruct (A5 e He) as [x Hx]. destruct (B5 _ Hx) as [y Hy]. by exists y.
    + intros p. by rewrite B6, A6.
Qed.

Lemma rsame_e i s s' : rsame s s' -> esame i s s'.
Proof.
  intros [Hv Em]. pose proof (vsame_t _ _ Hv) as Ht. destruct Hv as (P & E & _ & Hp). rewrite E in *. split_and!; try done; rewrite E; try done.
  intros e He. exists (msgring e). cbn. rewrite He. by destruct e.
Qed.

Record msg_ok (g : ghost) (base : Z -> Z) (ch : Z -> list Z) (s : rst) : Prop := mkMsgOk {
  mo_vm : ring_vm g base [] s;
  mo_rings : rings (msg_heads (r_vm s)) ch (r_ents s) }.

Lemma msg_ok_ext g base ch ch' s : (forall k, ch' k = ch k) -> msg_ok g base ch s -> msg_ok g base ch' s.
Proof. intros E [H1 H2]. split; [done|]. by eapply rings_ext. Qed.

Lemma NoDup_size (m : gmap Z ringent) l : NoDup l -> (forall a, a ∈ l -> is_Some (m !! a)) -> (length l <= size m)%nat.
Proof.
  intros Hnd Hin. rewrite <- size_dom. rewrite <- (size_list_to_set (C := gset Z) l) by done. apply subseteq_size. intros a Ha.
  apply elem_of_list_to_set in Ha. by apply elem_of_dom, Hin.
Qed.

(** The entries without those of a ring. *)
Lemma without_chain (m m' : gmap Z ringent) (l : list Z) : (forall a, (a ∉ l) -> m' !! a = m !! a) -> (forall a, a ∈ l -> m' !! a = None) -> m' = filter (fun kv => kv.1 ∉ l) m.
Proof.
  intros H1 H2. apply map_eq. intros a. destruct (decide (a ∈ l)) as [Ha|Ha].
  - rewrite H2 by done. symmetry. apply map_lookup_filter_None. right. intros x _ Hx. by apply Hx.
  - rewrite H1 by done. destruct (m !! a) as [x|] eqn:Ex; symmetry; [by apply map_lookup_filter_Some|apply map_lookup_filter_None; by left].
Qed.

Section rings_of_envs.
Context (g : ghost) (base : Z -> Z).
Local Abbreviation rvm := (ring_vm g base).

(** The current environment is [i]. *)
Definition cur_is (i : Z) (e : Env) (s : rst) : Prop := curenv (vm_et (r_vm s)) = Some i /\ envs (vm_et (r_vm s)) !! i = Some e.

Lemma cur_env_run i e s : cur_is i e s -> cur_env s = Ret (i, e) s.
Proof.
  intros [Hc He]. destruct s as [[P et pds pts vps h f] ents m]. unfold cur_env, mbind_, in_rvm, zoom, in_et, zoom, get_curenv, get_env. cbn in *. rewrite Hc. cbn. rewrite He. done.
Qed.

Definition with_ring (i x : Z) (e : Env) (s : rst) : rst := r_set_vm (set_et (put i (set_msgring x e) (vm_et (r_vm s))) (r_vm s)) s.

Lemma put_msgring_run i x e s : envs (vm_et (r_vm s)) !! i = Some e -> put_msgring i x s = Ret tt (with_ring i x e s).
Proof.
  intros He. unfold put_msgring, in_rvm, zoom, in_et, zoom, upd_env, modify, with_ring, put. cbn. do 4 f_equal. apply map_eq. intros j.
  destruct (decide (i = j)) as [<-|]; [by rewrite lookup_alter_eq, He, lookup_insert_eq|by rewrite lookup_alter_ne, lookup_insert_ne].
Qed.

Lemma with_ring_vm i x e s gone : envs (vm_et (r_vm s)) !! i = Some e -> ring_vm g base gone s -> ring_vm g base gone (with_ring i x e s).
Proof.
  intros He [H1 H2 H3 H4]. split; cbn; try done. apply (put_inv g i e); [done|done|by destruct e|right; by destruct e].
Qed.

Lemma with_ring_e i x e s : envs (vm_et (r_vm s)) !! i = Some e -> esame i s (with_ring i x e s).
Proof.
  intros He. split_and!; try done.
  - split_and!; try done. unfold cur_pd. cbn. destruct (curenv (vm_et (r_vm s))) as [j|]; [|done]. cbn. destruct (decide (i = j)) as [<-|Hne].
    + rewrite lookup_insert_eq, He. by destruct e.
    + by rewrite lookup_insert_ne.
  - intros j Hj. cbn. by rewrite lookup_insert_ne.
  - intros e' He'. assert (e' = e) as -> by congruence. exists x. cbn. apply lookup_insert_eq.
Qed.

Lemma with_ring_head i x e s : msg_heads (r_vm (with_ring i x e s)) i = x.
Proof. unfold msg_heads. cbn. rewrite lookup_insert_eq. by destruct e. Qed.
Lemma with_ring_other i x e s j : j <> i -> msg_heads (r_vm (with_ring i x e s)) j = msg_heads (r_vm s) j.
Proof. intros Hj. unfold msg_heads. cbn. by rewrite lookup_insert_ne. Qed.
Lemma heads_e i s s' j : esame i s s' -> j <> i -> msg_heads (r_vm s') j = msg_heads (r_vm s) j.
Proof. intros (_ & _ & _ & H & _) Hj. unfold msg_heads. by rewrite H. Qed.
Lemma heads_r s s' j : rsame s s' -> msg_heads (r_vm s') j = msg_heads (r_vm s) j.
Proof. intros [Hv _]. unfold msg_heads. destruct (vsame_rest _ _ Hv) as (-> & _). done. Qed.
Lemma cur_is_r i e s s' : rsame s s' -> cur_is i e s -> cur_is i e s'.
Proof. intros [Hv _]. unfold cur_is. destruct (vsame_rest _ _ Hv) as (-> & _). done. Qed.

(** [msgring_free (curenv->msgring); curenv->msgring = 0]. *)
Lemma drop_msgring_run i e ch s : msg_ok g base ch s -> cur_is i e s ->
  wp drop_msgring s (fun _ s' => msg_ok g base (<[i := []]> ch) s' /\ esame i s s' /\
    (forall a, (a ∉ ch i) -> r_ents s' !! a = r_ents s !! a) /\ (forall a, a ∈ ch i -> r_ents s' !! a = None)).
Proof.
  intros [Hr Hg] Hc. unfold drop_msgring. apply wp_bind. eapply wp_eq; [by apply cur_env_run|]. cbn [fst snd]. apply wp_bind, wp_gets.
  assert (msg_heads (r_vm s) i = msgring e) as Eh by (unfold msg_heads; by rewrite (proj2 Hc)).
  apply wp_bind. eapply wp_mono with (Q := fun _ s' => rvm [] s' /\ rsame s s' /\ (forall a, (a ∉ ch i) -> r_ents s' !! a = r_ents s !! a) /\ (forall a, a ∈ ch i -> r_ents s' !! a = None)).
  { destruct (decide (msgring e = 0)) as [E0|E0].
    - pose proof (rg_head _ _ _ Hg i) as Hh. rewrite Eh, E0 in Hh. cbn in Hh. rewrite E0, Hh. assert (forall f, msgring_free f 0 = mreturn tt) as -> by by intros []. apply wp_ret. split_and!; [done|done|done|set_solver].
    - destruct (rings_chain _ _ _ i Hg ltac:(congruence)) as (l & El & Hci & Hnd & Hz). rewrite Eh in El. rewrite El in *.
      eapply wp_mono; [apply (msgring_free_run g base l _ (msgring e) s Hr Hci Hnd E0)|].
      + apply (NoDup_size _ (msgring e :: l)); [done|]. intros a Ha. by eapply circ_in.
      + intros [] s1 (H1 & H2 & H3 & H4). done. }
  intros [] s1 (Hr1 & Hs1 & H1 & H2). destruct (cur_is_r _ _ _ _ Hs1 Hc) as [Hc1 He1]. eapply wp_eq; [by apply put_msgring_run|]. split_and!.
  - split; [by apply with_ring_vm|]. cbn [r_ents with_ring r_set_vm]. apply (rings_drop _ _ _ _ _ _ Hg); [|apply with_ring_head|done|done].
    intros j Hj. rewrite with_ring_other by done. by apply heads_r.
  - etrans; [by apply rsame_e|]. by apply with_ring_e.
  - done.
  - done.
Qed.
End rings_of_envs.

(** ** Setting a ring *)

Lemma pieces_length v fuel : forall len addr pb sc tot l, sc <= IPC_MAX_SCATTER_PTR -> pieces v fuel len addr pb sc tot = Some l -> zlen l + sc <= IPC_MAX_SCATTER_PTR.
Proof.
  induction fuel as [|fuel IH]; intros len addr pb sc tot l Hsc; cbn [pieces]; (destruct (0 <? len); cbn [negb]; [|intros [= <-]; rewrite zlen_nil; lia]); [done|].
  destruct (negb _); cbn [orb]; [done|]. destruct (Z.ltb_spec IPC_MAX_SCATTER_PTR (sc + 1)); cbn [orb]; [done|]. destruct (_ <? tot + _); [done|].
  destruct (pieces v fuel _ _ _ _ _) as [l'|] eqn:E; cbn; [|done]. intros [= <-]. apply IH in E; [|done]. rewrite zlen_cons. lia.
Qed.

Lemma entry_of_refs v self u e p : entry_of v self u = Some e -> re_next e = 0 /\ 0 <= count p (refs e) <= 3.
Proof.
  unfold entry_of. destruct (_ || _); [done|]. destruct (pieces _ _ _ _ _ _ _) as [l|] eqn:E; cbn; [|done]. intros [= <-]. split; [done|].
  apply pieces_length in E; [|done]. unfold IPC_MAX_SCATTER_PTR in E. pose proof (count_le p (refs (mkRe 0 (va_kva v (ur_owner u)) self l))) as H. split; [lia|].
  apply Z.le_trans with (1 := proj2 H). unfold refs. cbn [re_owner re_recv]. rewrite zlen_app. unfold zlen in *. rewrite length_fmap. case_match; cbn; lia.
Qed.

Section set_ring.
Context (g : ghost) (base : Z -> Z) (umem : Z -> uringent) (mems : Z -> Z) (self : Z).
Local Abbreviation rvm := (ring_vm g base).

(** The rounds of the loop: the entries [us] of the user, from [utmp] on, are
    taken in, the first of them as number [j]; then the list is back at [head],
    or an entry is refused ([ok] is [false]). *)
Fixpoint rounds (v : vm) (head utmp j : Z) (us : list Z) (ok : bool) : Prop :=
  match us with
  | [] => ok = false /\ (utmp = 0 \/ mems j = 0 \/ entry_of v self (umem utmp) = None)
  | u :: us' =>
      utmp = u /\ u <> 0 /\ mems j <> 0 /\ is_Some (entry_of v self (umem u)) /\
      if ur_next (umem u) =? head then us' = [] /\ ok = true else rounds v head (ur_next (umem u)) (j + 1) us' ok
  end.

Lemma rounds_same v v' head us ok : tsame v v' -> forall utmp j, rounds v head utmp j us ok -> rounds v' head utmp j us ok.
Proof.
  intros H. induction us as [|u us IH]; intros utmp j; cbn [rounds].
  - by rewrite (entry_of_same v v').
  - rewrite (entry_of_same v v') by done. intros (? & ? & ? & ? & Hr). split_and!; [done..|]. case_match; [done|]. by apply IH.
Qed.

(** Entry [a] of the ring is the user's entry [u], translated. *)
Definition translates (v : vm) (m : gmap Z ringent) (u a : Z) : Prop :=
  exists e e', entry_of v self (umem u) = Some e /\ m !! a = Some e' /\ e' = re_set_next (re_next e') e.

(** What [malloc] returns in rounds [j] to [j + n]: addresses of nothing, and
    each once. *)
Definition fresh_mems (m : gmap Z ringent) (j n : Z) : Prop :=
  (forall i, j <= i <= j + n -> mems i <> 0 -> m !! mems i = None) /\
  (forall i k, j <= i <= j + n -> j <= k <= j + n -> mems i = mems k -> mems i <> 0 -> i = k).

Lemma fresh_mems_0 m j n : m !! 0 = None -> fresh_mems m j n -> 0 <= n -> m !! mems j = None.
Proof. intros H0 [H _] Hn. destruct (decide (mems j = 0)) as [->|]; [done|]. apply H; [lia|done]. Qed.

Lemma link_run i e0 ch L a e s s1 : msg_ok g base ch s -> cur_is i e0 s -> ch i = L -> a <> 0 -> r_ents s !! a = None ->
  rvm [] s1 -> rsame s s1 -> r_ents s1 = <[a := e]> (r_ents s) ->
  wp (link a (default 0 (last L))) s1 (fun _ s' => msg_ok g base (<[i := L ++ [a]]> ch) s' /\ esame i s s' /\ (exists e1, cur_is i e1 s') /\
    (exists n, r_ents s' !! a = Some (re_set_next n e)) /\ (forall b eb, b ∈ L -> r_ents s !! b = Some eb -> exists n, r_ents s' !! b = Some (re_set_next n eb)) /\
    (forall b, (b ∉ L) -> b <> a -> r_ents s' !! b = r_ents s !! b) /\ (forall p, pinsum p (r_ents s') = pinsum p (r_ents s) + count p (refs e))).
Proof.
  intros [Hr Hg] Hc HL Ha0 Ha Hr1 Hs1 E1. assert (r_ents s1 !! a = Some e) as Ha1 by (rewrite E1; apply lookup_insert_eq). unfold link. destruct (decide (L = [])) as [HL0|HL0].
  - rewrite HL0. cbn [last default negb Z.eqb]. apply wp_bind, (wp_upd_ent a e); [done|]. set (s2 := r_set_ents _ s1). assert (rvm [] s2) as Hr2 by by apply ring_vm_next.
    assert (rsame s s2) as Hs2 by exact Hs1. pose proof (cur_is_r _ _ _ _ Hs2 Hc) as Hc2.
    apply wp_bind. eapply wp_eq; [by apply cur_env_run|]. cbn [fst]. eapply wp_eq; [apply put_msgring_run, Hc2|].
    assert (r_ents s2 = <[a := re_set_next a e]> (r_ents s)) as E2 by (cbn; by rewrite E1, insert_insert_eq).
    split_and!.
    + split; [apply with_ring_vm; [apply Hc2|done]|]. change (r_ents (with_ring i a e0 s2)) with (r_ents s2). rewrite E2. apply (rings_first (msg_heads (r_vm s))); [done| |done|done|done| |apply with_ring_head].
      * pose proof (rg_head _ _ _ Hg i) as Hh. destruct (Z.eqb_spec (msg_heads (r_vm s) i) 0); [done|]. destruct Hh as (l & El & _). congruence.
      * intros k Hk. rewrite with_ring_other by done. by apply heads_r.
    + etrans; [by apply rsame_e|]. apply with_ring_e, Hc2.
    + exists (set_msgring a e0). destruct Hc2 as [? ?]. split; [done|]. cbn. apply lookup_insert_eq.
    + exists a. change (r_ents (with_ring i a e0 s2)) with (r_ents s2). rewrite E2. apply lookup_insert_eq.
    + set_solver.
    + intros b _ Hb. change (r_ents (with_ring i a e0 s2)) with (r_ents s2). rewrite E2. by rewrite lookup_insert_ne.
    + intros p. change (r_ents (with_ring i a e0 s2)) with (r_ents s2). rewrite E2, pinsum_new by done. change (refs (re_set_next a e)) with (refs e). lia.
  - destruct (exists_last HL0) as (l1 & x & EL). rewrite EL, last_snoc. cbn [default]. assert (is_Some (r_ents s !! x)) as [ex Hx] by (eapply rings_in; [exact Hg|]; rewrite HL, EL; set_solver).
    assert (x <> 0) as Hx0 by (intros ->; pose proof (rg_nz _ _ _ Hg); congruence). rewrite (proj2 (Z.eqb_neq _ _)) by done. cbn [negb]. assert (x <> a) as Hxa by congruence.
    assert (r_ents s1 !! x = Some ex) as Hx1 by (rewrite E1; by rewrite lookup_insert_ne).
    apply wp_bind, (wp_get_ent x ex); [done|]. apply wp_bind, (wp_upd_ent a e); [done|]. set (s2 := r_set_ents _ s1). assert (rvm [] s2) as Hr2 by by apply ring_vm_next.
    assert (r_ents s2 !! x = Some ex) as Hx2 by (cbn; by rewrite lookup_insert_ne). apply (wp_upd_ent x ex); [done|]. set (s3 := r_set_ents _ s2). assert (rvm [] s3) as Hr3 by by apply ring_vm_next.
    assert (rsame s s3) as Hs3 by exact Hs1.
    assert (r_ents s3 = <[x := re_set_next a ex]> (<[a := re_set_next (re_next ex) e]> (r_ents s))) as E3 by (cbn; by rewrite E1, insert_insert_eq).
    split_and!.
    + split; [done|]. rewrite E3, <- app_assoc. cbn [app]. assert (rings (msg_heads (r_vm s)) (<[i := l1 ++ x :: a :: []]> ch) (<[x := re_set_next a ex]> (<[a := re_set_next (re_next ex) e]> (r_ents s)))) as Hg'.
      { apply (rings_after (msg_heads (r_vm s)) ch (r_ents s) i l1 x ex []); try done. congruence. }
      eapply rings_ext; [|done|exact Hg']. intros k. by apply heads_r.
    + by apply rsame_e.
    + exists e0. by apply (cur_is_r _ _ _ _ Hs3).
    + exists (re_next ex). rewrite E3, lookup_insert_ne, lookup_insert_eq by done. done.
    + intros b eb Hb Heb. rewrite E3. destruct (decide (b = x)) as [->|Hbx]; [rewrite lookup_insert_eq; exists a; congruence|]. assert (b <> a) by congruence.
      rewrite !lookup_insert_ne by done. exists (re_next eb). rewrite Heb. by destruct eb.
    + intros b Hb Hba. rewrite E3, !lookup_insert_ne; [done|done|]. intros <-. apply Hb. set_solver.
    + intros p. rewrite E3, (pinsum_insert p _ x ex) by (by rewrite lookup_insert_ne). rewrite pinsum_new by done. change (refs (re_set_next a ex)) with (refs ex). change (refs (re_set_next (re_next ex) e)) with (refs e). lia.
Qed.

Lemma setring_loop_run i head us : forall fuel utmp j ok ch e0 s, msg_ok g base ch s -> cur_is i e0 s -> ringable (r_vm s) ->
  rounds (r_vm s) head utmp j us ok -> fresh_mems (r_ents s) j (zlen us) -> room base (4 * zlen us + 4) (r_ents s) -> (length us < fuel)%nat ->
  wp (setring_loop umem mems self fuel head utmp (default 0 (last (ch i))) j) s (fun r s' => esame i s s' /\
    (forall a, (a ∉ ch i) -> (a ∉ mems <$> zseq j (length us)) -> r_ents s' !! a = r_ents s !! a) /\
    if ok then r = 0 /\ msg_ok g base (<[i := ch i ++ (mems <$> zseq j (length us))]> ch) s' /\ Forall2 (translates (r_vm s) (r_ents s')) us (mems <$> zseq j (length us)) /\
      (forall a e, a ∈ ch i -> r_ents s !! a = Some e -> exists n, r_ents s' !! a = Some (re_set_next n e))
    else r = - E_FAULT /\ msg_ok g base (<[i := []]> ch) s').
Proof.
  induction us as [|u us IH]; intros [|fuel] utmp j ok ch e0 s Hok Hc Hb Hw Hfr Hroom Hf; cbn [length] in Hf; try lia; cbn [setring_loop rounds] in *.
  - destruct Hw as [-> Hw]. rewrite zlen_nil in *. assert (forall s1, rsame s s1 -> rvm [] s1 -> r_ents s1 = r_ents s -> wp (drop_msgring ;; mreturn (- E_FAULT)) s1 (fun r s' => esame i s s' /\
      (forall a, (a ∉ ch i) -> (a ∉ mems <$> zseq j 0) -> r_ents s' !! a = r_ents s !! a) /\ r = - E_FAULT /\ msg_ok g base (<[i := []]> ch) s')) as Hdrop.
    { intros s1 Hs1 Hr1 E1. assert (msg_ok g base ch s1) as Hok1.
      { split; [done|]. rewrite E1. eapply rings_ext; [|done|apply Hok]. intros k. by apply heads_r. }
      apply wp_bind. eapply wp_mono; [apply (drop_msgring_run g base i e0 ch s1 Hok1 (cur_is_r _ _ _ _ Hs1 Hc))|]. intros [] s2 (H1 & H2 & H3 & H4). apply wp_ret.
      split_and!; [etrans; [by apply rsame_e|done]| |done|done]. intros a Ha _. by rewrite H3, E1. }
    destruct (Z.eqb_spec utmp 0) as [E0|E0]; [apply Hdrop; [done|apply Hok|done]|]. apply wp_bind. eapply wp_mono; [apply (msgringent_setup_run g base (mems j) self (umem utmp) s (mo_vm _ _ _ _ Hok) Hb)|].
    + eapply room_le; [done|lia].
    + eapply fresh_mems_0; [apply (rg_nz _ _ _ (mo_rings _ _ _ _ Hok))|done|done].
    + intros r s1 (Hr1 & Hs1 & H1). assert (r = 0 /\ r_ents s1 = r_ents s) as [-> E1]. { destruct (Z.eqb_spec (mems j) 0); [done|]. destruct Hw as [?|[?|Hw]]; [done..|]. by rewrite Hw in H1. }
      cbn. by apply Hdrop.
  - destruct Hw as (-> & Hu0 & Hm0 & [e Ee] & Hw). rewrite (proj2 (Z.eqb_neq _ _)) by done. rewrite zlen_cons in *. pose proof (zlen_nonneg us). apply wp_bind. eapply wp_mono; [apply (msgringent_setup_run g base (mems j) self (umem u) s (mo_vm _ _ _ _ Hok) Hb)|].
    + eapply room_le; [done|lia].
    + eapply fresh_mems_0; [apply (rg_nz _ _ _ (mo_rings _ _ _ _ Hok))|done|lia].
    + intros r s1 (Hr1 & Hs1 & H1). rewrite (proj2 (Z.eqb_neq _ _)), Ee in H1 by done. destruct H1 as [-> E1]. rewrite (proj2 (Z.eqb_neq _ _)) by done.
      apply wp_bind. eapply wp_mono; [apply (link_run i e0 ch (ch i) (mems j) e s s1); try done|].
      { apply Hfr; [lia|done]. }
      intros [] s2 (Hok2 & He2 & (e1 & Hc2) & (n & Ha2) & HL2 & Ho2 & Hp2). cbn [length]. rewrite zseq_S. cbn [fmap list_fmap]. destruct (Z.eqb_spec (ur_next (umem u)) head) as [Eh|Eh]; cbn [negb].
      * destruct Hw as [-> ->]. apply wp_ret. cbn [length]. rewrite zseq_0. cbn [fmap list_fmap]. split_and!; [done| |done|done| |].
        -- intros a Ha Hn. apply Ho2; [done|]. set_solver.
        -- constructor; [|constructor]. exists e, (re_set_next n e). done.
        -- intros a ea Ha Hea. by apply HL2.
      * assert (default 0 (last ((<[i := ch i ++ [mems j]]> ch : Z -> list Z) i)) = mems j) as El by (rewrite fn_lookup_insert, last_snoc; done). assert (tsame (r_vm s) (r_vm s2)) as Ht by apply He2.
        eapply wp_mono; [rewrite <- El; apply (IH fuel (ur_next (umem u)) (j + 1) ok _ e1 s2 Hok2 Hc2)|].
        -- by eapply ringable_same.
        -- by eapply rounds_same.
        -- destruct Hfr as [F1 F2]. split; [|intros; apply F2; (done || lia)]. intros k Hk Hk0. assert (mems k <> mems j) by (intros Ek; assert (k = j) by (apply F2; (done || lia)); lia).
           assert (mems k ∉ ch i). { intros Hin. destruct (rings_in _ _ _ _ _ (mo_rings _ _ _ _ Hok) Hin) as [? ?]. rewrite F1 in *; (done || lia). }
           rewrite Ho2 by done. apply F1; [lia|done].
        -- intros p. rewrite Hp2. destruct (entry_of_refs _ _ _ _ p Ee) as [_ ?]. specialize (Hroom p). lia.
        -- lia.
        -- intros r s3 (He3 & Ho3 & H3). rewrite fn_lookup_insert in *. split_and!; [by etrans| |].
           ++ intros a Ha Hn. rewrite Ho3; [apply Ho2|..]; set_solver.
           ++ destruct ok.
              ** destruct H3 as (-> & H3 & H4 & H5). split_and!; [done|..].
                 --- eapply msg_ok_ext; [|exact H3]. intros k. destruct (decide (k = i)) as [->|Hk]; [by rewrite !fn_lookup_insert, <- app_assoc|by rewrite !fn_lookup_insert_ne].
                 --- constructor; [|eapply Forall2_impl; [exact H4|]].
                     +++ destruct (H5 (mems j) _ ltac:(set_solver) Ha2) as [n' Hn']. by exists e, (re_set_next n' e).
                     +++ intros x a (ex & ex' & Hx & Ha & En). exists ex, ex'. split_and!; [|done..]. by rewrite (entry_of_same (r_vm s)) in Hx.
                 --- intros a ea Ha Hea. destruct (HL2 a ea Ha Hea) as [n1 H6]. destruct (H5 a _ ltac:(set_solver) H6) as [n2 H7]. by exists n2.
              ** destruct H3 as [-> H3]. split; [done|]. eapply msg_ok_ext; [|exact H3]. intros k. destruct (decide (k = i)) as [->|Hk]; [by rewrite !fn_lookup_insert|by rewrite !fn_lookup_insert_ne].
Qed.

Lemma setring_run i e head us ok fuel ch s : msg_ok g base ch s -> cur_is i e s -> ringable (r_vm s) -> rounds (r_vm s) head head 0 us ok ->
  fresh_mems (filter (fun kv => kv.1 ∉ ch i) (r_ents s)) 0 (zlen us) -> room base (4 * zlen us + 4) (r_ents s) -> (length us < fuel)%nat ->
  wp (sys_msgring_setring umem mems self fuel head) s (fun r s' => esame i s s' /\
    (forall a, (a ∉ ch i) -> (a ∉ mems <$> zseq 0 (length us)) -> r_ents s' !! a = r_ents s !! a) /\
    if ok then r = 0 /\ msg_ok g base (<[i := mems <$> zseq 0 (length us)]> ch) s' /\ Forall2 (translates (r_vm s) (r_ents s')) us (mems <$> zseq 0 (length us))
    else r = - E_FAULT /\ msg_ok g base (<[i := []]> ch) s').
Proof.
  intros Hok Hc Hb Hw Hfr Hroom Hf. unfold sys_msgring_setring. apply wp_bind. eapply wp_eq; [by apply cur_env_run|]. cbn [snd]. apply wp_bind.
  assert (msg_heads (r_vm s) i = msgring e) as Eh by (unfold msg_heads; by rewrite (proj2 Hc)).
  eapply wp_mono with (Q := fun _ s' => msg_ok g base (<[i := []]> ch) s' /\ esame i s s' /\ (forall a, (a ∉ ch i) -> r_ents s' !! a = r_ents s !! a) /\ (forall a, a ∈ ch i -> r_ents s' !! a = None)).
  { destruct (Z.eqb_spec (msgring e) 0) as [E0|E0]; cbn [negb].
    - apply wp_ret. pose proof (rg_head _ _ _ (mo_rings _ _ _ _ Hok) i) as Hh. rewrite Eh, E0 in Hh. cbn in Hh. rewrite Hh. split_and!; [|done|done|set_solver].
      eapply msg_ok_ext; [|exact Hok]. intros k. destruct (decide (k = i)) as [->|]; [by rewrite fn_lookup_insert|by rewrite fn_lookup_insert_ne].
    - by apply (drop_msgring_run g base i e). }
  intros [] s1 (Hok1 & He1 & H1 & H2). assert (r_ents s1 = filter (fun kv => kv.1 ∉ ch i) (r_ents s)) as E1 by by apply without_chain.
  pose proof He1 as (Em & Ht & Ecur & Eo & Ei & Ep). destruct (Ei e (proj2 Hc)) as [x Hx]. assert (cur_is i (set_msgring x e) s1) as Hc1 by (split; [by rewrite Ecur; apply Hc|done]).
  assert (default 0 (last ((<[i := []]> ch : Z -> list Z) i)) = 0) as El by by rewrite fn_lookup_insert.
  eapply wp_mono; [rewrite <- El at 1; eapply (setring_loop_run i head us fuel head 0 ok _ _ s1 Hok1 Hc1)|].
  - by eapply ringable_same.
  - by eapply rounds_same.
  - by rewrite E1.
  - intros p. rewrite E1. specialize (Hroom p). pose proof (pinsum_mono p (filter (fun kv => kv.1 ∉ ch i) (r_ents s)) (r_ents s) (map_filter_subseteq _ _)). lia.
  - done.
  - intros r s2 (He2 & Ho2 & H3). rewrite fn_lookup_insert in *. split_and!; [by etrans| |].
    + intros a Ha Hn. rewrite Ho2, H1 by set_solver. done.
    + destruct ok; [destruct H3 as (-> & H3 & H4 & _)|destruct H3 as [-> H3]]; (split; [done|]); [split|].
      * eapply msg_ok_ext; [|exact H3]. intros k. destruct (decide (k = i)) as [->|]; [by rewrite !fn_lookup_insert|by rewrite !fn_lookup_insert_ne].
      * eapply Forall2_impl; [exact H4|]. intros u a (eu & eu' & Hu & Ha & En). exists eu, eu'. split_and!; [|done..]. by rewrite (entry_of_same (r_vm s)) in Hu.
      * eapply msg_ok_ext; [|exact H3]. intros k. destruct (decide (k = i)) as [->|]; [by rewrite !fn_lookup_insert|by rewrite !fn_lookup_insert_ne].
Qed.
End set_ring.

(** ** Delivering a message *)

Lemma fill_copyin umem addr sz body m : 0 <= sz -> Forall (fun x => 0 < r_sz x) body ->
  fill_recs (copyin umem) [mkRec sz addr] body sz 0 m = Ret (Z.min sz (sizes body)) (wr_pieces body (rd_bytes umem addr sz) m).
Proof.
  intros Hsz Hb. rewrite Forall_forall in Hb. pose proof (fill_recs_spec (copyin umem) umem [mkRec sz addr] (fun _ => True) (fun _ => True)) as H.
  assert (bytes_of umem [mkRec sz addr] = rd_bytes umem addr sz) as E by (unfold bytes_of; cbn; apply app_nil_r). rewrite E, rd_bytes_len in H by done.
  rewrite H; [by rewrite drop_0|done|done| |lia| |done|done].
  - intros x ->%list_elem_of_singleton. done.
  - intros x Hx. specialize (Hb x Hx). cbn in Hb. lia.
Qed.

(** The memory after a message [msg] was put into the entry [k]. *)
Definition delivered (k : ringent) (msg : list Z) (m : gmap Z Z) : gmap Z Z := wr_bytes (re_owner k) (bytes32 (zlen msg)) (wr_pieces (re_recv k) msg m).

(** What entries of message rings are like. *)
Record ment_ok (e : ringent) : Prop := mkMentOk {
  me_pos : Forall (fun x => 0 < r_sz x) (re_recv e);
  me_max : sizes (re_recv e) <= IPC_MAX_MSG_SIZE;
  me_own : re_owner e <> 0 }.
Definition ments_ok (m : gmap Z ringent) : Prop := map_Forall (fun _ e => ment_ok e) m.

Section send.
Context (g : ghost) (base : Z -> Z).

Lemma handlemsg_run umem ei len data ch e h l k s : msg_ok g base ch s -> envs (vm_et (r_vm s)) !! ei = Some e -> ch ei = h :: l -> r_ents s !! h = Some k -> ment_ok k -> 0 <= len ->
  wp (msgring_handlemsg umem ei len data) s (fun r s' =>
    if ld32 (r_mem s) (re_owner k) =? 0 then
      r = 0 /\ msg_ok g base (<[ei := l ++ [h]]> ch) s' /\ s' = r_set_mem (delivered k (rd_bytes umem data len) (r_mem s)) (with_ring ei (re_next k) e s)
    else r = - E_MSGRING_FULL /\ s' = s).
Proof.
  intros Hok He Hch Hk Hmk Hlen. assert (msgring e = h) as Eh.
  { assert (msg_heads (r_vm s) ei = msgring e) as E by (unfold msg_heads; by rewrite He). pose proof (rg_head _ _ _ (mo_rings _ _ _ _ Hok) ei) as Hh. rewrite E, Hch in Hh.
    destruct (msgring e =? 0); [done|]. by destruct Hh as (t & [= -> _] & _). }
  unfold msgring_handlemsg. apply wp_bind, wp_zoom, wp_zoom. unfold get_env. eapply wp_eq; [rewrite He; reflexivity|].
  rewrite set_et_id. replace (r_set_vm (r_vm s) s) with s by (by destruct s).
  rewrite Eh. apply wp_bind, (wp_get_ent h k); [done|]. apply wp_bind, wp_zoom, wp_gets. replace (r_set_mem (r_mem s) s) with s by (by destruct s).
  unfold IPC_MSGRINGENT_OWNEDBY_APP. destruct (Z.eqb_spec (ld32 (r_mem s) (re_owner k)) 0) as [E0|E0]; cbn [negb]; [|by apply wp_ret].
  apply wp_bind. eapply wp_eq; [by apply put_msgring_run|]. apply wp_bind, wp_zoom. eapply wp_eq; [apply fill_copyin; [done|apply Hmk]|].
  apply wp_bind, wp_zoom, wp_modify, wp_ret. split_and!; [done| |].
  - split; [|].
    + destruct (with_ring_vm g base ei (re_next k) e s [] He (mo_vm _ _ _ _ Hok)). by split.
    + cbn [r_ents r_vm r_set_mem]. apply (rings_rotate _ _ _ _ _ _ _ k (mo_rings _ _ _ _ Hok) Hch Hk); [|apply with_ring_head]. intros j Hj. by apply with_ring_other.
  - unfold delivered. rewrite rd_bytes_len by done. done.
Qed.
End send.

(** ** Reading what was delivered *)

Definition rng_apart (x y : Z * Z) : Prop := apart x.1 x.2 y.1 y.2.
Definition ranges (e : ringent) : list (Z * Z) := (re_owner e, 4) :: ((fun x => (r_data x, r_sz x)) <$> re_recv e).
Fixpoint all_apart (l : list (Z * Z)) : Prop := match l with [] => True | x :: l' => Forall (rng_apart x) l' /\ all_apart l' end.
(** The message in an entry: the owner word tells how long it is. *)
Definition message (m : gmap Z Z) (e : ringent) : list Z := take (Z.to_nat (ld32 m (re_owner e))) (bytes_of (rdb m) (re_recv e)).

Lemma bytes_of_ext rd rd' r : Forall (fun x => rd_bytes rd (r_data x) (r_sz x) = rd_bytes rd' (r_data x) (r_sz x)) r -> bytes_of rd r = bytes_of rd' r.
Proof. unfold bytes_of. induction 1 as [|x r Hx _ IH]; [done|]. cbn. by rewrite Hx, IH. Qed.

Lemma wr_pieces_frame body a n : forall l m, Forall (fun x => 0 < r_sz x) body -> Forall (fun x => rng_apart (r_data x, r_sz x) (a, n)) body -> rd_bytes (rdb (wr_pieces body l m)) a n = rd_bytes (rdb m) a n.
Proof.
  induction body as [|x body IH]; intros l m Hp Ha; cbn [wr_pieces]; [done|]. apply Forall_cons in Hp as [Hx Hp]. apply Forall_cons in Ha as [Hxa Ha].
  rewrite IH by done. apply rd_bytes_apart. unfold rng_apart, apart in *. cbn in Hxa. unfold zlen. rewrite length_take. lia.
Qed.

Lemma wr_pieces_read body : forall l m, Forall (fun x => 0 < r_sz x) body -> all_apart ((fun x => (r_data x, r_sz x)) <$> body) -> zlen l <= sizes body ->
  take (length l) (bytes_of (rdb (wr_pieces body l m)) body) = l.
Proof.
  induction body as [|x body IH]; intros l m Hp Ha Hl.
  - cbn in Hl. unfold zlen in Hl. destruct l; [done|cbn in Hl; lia].
  - apply Forall_cons in Hp as [Hx Hp]. cbn [fmap list_fmap all_apart] in Ha. destruct Ha as [Hxa Ha]. rewrite Forall_fmap in Hxa.
    cbn [wr_pieces]. change (sizes (x :: body)) with (r_sz x + sizes body) in Hl. set (m1 := wr_bytes (r_data x) (take (Z.to_nat (r_sz x)) l) m).
    change (bytes_of (rdb (wr_pieces body (drop (Z.to_nat (r_sz x)) l) m1)) (x :: body)) with
      (rd_bytes (rdb (wr_pieces body (drop (Z.to_nat (r_sz x)) l) m1)) (r_data x) (r_sz x) ++ bytes_of (rdb (wr_pieces body (drop (Z.to_nat (r_sz x)) l) m1)) body).
    rewrite wr_pieces_frame; [|done|]. 2: { eapply Forall_impl; [exact Hxa|]. intros y. unfold rng_apart, apart. cbn. lia. }
    unfold zlen in Hl. destruct (decide (r_sz x <= zlen l)) as [Hle|Hgt]; unfold zlen in *.
    + assert (zlen (take (Z.to_nat (r_sz x)) l) = r_sz x) as El by (unfold zlen; rewrite length_take; lia).
      pose proof (rd_bytes_same (take (Z.to_nat (r_sz x)) l) (r_data x) m) as E. rewrite El in E. fold m1 in E. rewrite E. rewrite take_app, length_take, Nat.min_l by lia.
      rewrite (take_ge (take _ l)) by (rewrite length_take; lia). specialize (IH (drop (Z.to_nat (r_sz x)) l) m1 Hp Ha). rewrite length_drop in IH. rewrite IH; [apply take_drop|].
      lia.
    + rewrite take_app_le by (unfold rd_bytes; rewrite length_fmap, zseq_length; lia). rewrite <- (Nat2Z.id (length l)), rd_bytes_take by lia.
      subst m1. rewrite (take_ge l) by lia. change (Z.of_nat (length l)) with (zlen l). apply rd_bytes_same.
Qed.

(** The message that was put into an entry is there. *)
Lemma delivered_message e msg m : ment_ok e -> all_apart (ranges e) -> 0 <= zlen msg < 2 ^ 32 -> zlen msg <= sizes (re_recv e) -> message (delivered e msg m) e = msg /\ ld32 (delivered e msg m) (re_owner e) = zlen msg.
Proof.
  intros He [Ho Ha] Hl Hs. unfold message, delivered. rewrite ld32_st32 by done. split; [|done]. unfold zlen. rewrite Nat2Z.id.
  rewrite (bytes_of_ext _ (rdb (wr_pieces (re_recv e) msg m))); [apply wr_pieces_read; [apply He|done|done]|].
  rewrite Forall_fmap in Ho. eapply Forall_impl; [exact Ho|]. intros x Hx. apply rd_bytes_apart. exact Hx.
Qed.

(** Entries apart from it are left alone. *)
Definition ents_apart (e f : ringent) : Prop := Forall (fun x => Forall (rng_apart x) (ranges f)) (ranges e).

Lemma delivered_other e f msg m : ment_ok e -> ents_apart e f -> message (delivered e msg m) f = message m f /\ ld32 (delivered e msg m) (re_owner f) = ld32 m (re_owner f).
Proof.
  intros He Hef. assert (forall r, r ∈ ranges f -> rd_bytes (rdb (delivered e msg m)) r.1 r.2 = rd_bytes (rdb m) r.1 r.2) as Hr.
  { intros r Hr. unfold delivered. apply Forall_cons in Hef as [Ho Hp]. rewrite rd_bytes_apart.
    - apply wr_pieces_frame; [apply He|]. rewrite Forall_fmap in Hp. eapply Forall_impl; [exact Hp|]. intros x Hx. cbn in Hx. rewrite Forall_forall in Hx. exact (Hx r Hr).
    - rewrite Forall_forall in Ho. exact (Ho r Hr). }
  assert (ld32 (delivered e msg m) (re_owner f) = ld32 m (re_owner f)) as El by (apply ld32_ext; apply (Hr (re_owner f, 4)); left).
  split; [|done]. unfold message. rewrite El. f_equal. apply bytes_of_ext, Forall_forall. intros x Hx. apply (Hr (r_data x, r_sz x)). right. apply list_elem_of_fmap. eauto.
Qed.

(** ** Changing a ring *)

(** The rings after a replacement, at the head or elsewhere. *)
Lemma replaced_rings heads heads' ch m i h t mem kprev kp kn en l1 l2 : rings heads ch m -> ch i = h :: t -> NoDup (ch i) -> ch i = l1 ++ kprev :: l2 ->
  m !! kprev = Some kp -> m !! re_next kp = Some kn -> re_next kp = default h (head l2) -> mem <> 0 -> m !! mem = None -> re_next en = re_next kn -> kprev <> re_next kp ->
  (forall j, j <> i -> heads' j = heads j) -> heads i = h -> (heads' i = if h =? re_next kp then mem else h) ->
  exists ch', (forall j, j <> i -> ch' j = ch j) /\ rings heads' ch' (<[kprev := re_set_next mem kp]> (delete (re_next kp) (<[mem := en]> m))).
Proof.
  intros Hg Et Hnd Ech Hkp Hkn Hn Hm0 Hm Een Hne Hho Eh Hhi. destruct l2 as [|y l2]; cbn [head default] in Hn.
  - destruct l1 as [|z l1]; [rewrite Ech in Et; cbn in Et; injection Et as E _; congruence|].
    assert (z = re_next kp) as -> by (rewrite Ech in Et; cbn in Et; injection Et; congruence). exists (<[i := mem :: l1 ++ [kprev]]> ch). split; [intros j Hj; by rewrite fn_lookup_insert_ne|].
    apply (rings_replace_head heads ch m i (re_next kp) kprev mem kn kp en); try done. by rewrite Hhi, Hn, Z.eqb_refl.
  - assert (h <> re_next kp) as Hh.
    { rewrite Hn. intros Ey. rewrite Ech in Hnd, Et. destruct l1 as [|z l1]; cbn in Et; injection Et as Ez _; cbn in Hnd; apply NoDup_cons in Hnd as [Hnd _]; apply Hnd; rewrite Ez, Ey; set_solver. }
    exists (<[i := l1 ++ kprev :: mem :: l2]> ch). split; [intros j Hj; by rewrite fn_lookup_insert_ne|].
    eapply rings_ext; [|done|apply (rings_replace heads ch m i (re_next kp) kprev mem kn kp en); try done; by rewrite Hn].
    intros j. destruct (decide (j = i)) as [->|]; [|by apply Hho]. by rewrite Hhi, Eh, (proj2 (Z.eqb_neq _ _)).
Qed.

Section change_ring.
Context (g : ghost) (base : Z -> Z).
Local Abbreviation rvm := (ring_vm g base).

(** The search ends on an entry of the ring. *)
Lemma find_prev_run c h old s : circ (r_ents s) c -> head c = Some h -> NoDup c -> forall l fuel kprev l1, c = l1 ++ kprev :: l -> (length l < fuel)%nat ->
  wp (find_prev fuel h old kprev) s (fun k s' => s' = s /\ k ∈ c).
Proof.
  intros Hc Hh Hnd. induction l as [|x l IH]; intros [|fuel] kprev l1 Ec Hf; cbn [length] in Hf; try lia; cbn [find_prev].
  all: assert (path (r_ents s) h c h) as Hp by (destruct c; [done|]; cbn in Hh; injection Hh as ->; exact Hc); rewrite Ec in Hp; destruct (path_step _ _ _ _ _ _ Hp) as (kp & Hkp & _ & Hn).
  all: apply wp_bind, (wp_get_ent kprev kp); [done|]; cbn [path] in Hn.
  - assert (h ∈ c) as Hin by (destruct c; [done|]; cbn in Hh; injection Hh as ->; left). destruct (circ_in _ _ _ Hc Hin) as [kh Hkh]. rewrite Hn.
    apply wp_bind, (wp_get_ent h kh); [done|]. destruct (_ =? old); [apply wp_ret; split; [done|]; rewrite Ec; set_solver|]. rewrite Z.eqb_refl. cbn [negb]. apply wp_ret. done.
  - destruct Hn as [En Hn]. assert (x ∈ c) as Hin by (rewrite Ec; set_solver). destruct (circ_in _ _ _ Hc Hin) as [kx Hkx]. rewrite En. apply wp_bind, (wp_get_ent x kx); [done|].
    destruct (_ =? old); [apply wp_ret; split; [done|]; rewrite Ec; set_solver|]. destruct (negb (x =? h)); [|apply wp_ret; done]. apply (IH fuel x (l1 ++ [kprev])); [by rewrite <- app_assoc|lia].
Qed.

(** The entry after [kprev]. *)
Lemma succ_in m c h l1 x l2 e : circ m c -> head c = Some h -> c = l1 ++ x :: l2 -> m !! x = Some e -> re_next e = default h (head l2).
Proof.
  intros Hc Hh Ec He. assert (path m h c h) as Hp by (destruct c; [done|]; cbn in Hh; injection Hh as ->; exact Hc). rewrite Ec in Hp.
  destruct (path_step _ _ _ _ _ _ Hp) as (e' & He' & _ & Hn). assert (e' = e) as -> by congruence. destruct l2 as [|y l2]; cbn in *; [done|]. by destruct Hn.
Qed.

(** The entries after a change are entries from before, perhaps with another
    successor, or the new one. *)
Definition ents_from (v : vm) (mem self : Z) (u : uringent) (m m' : gmap Z ringent) : Prop :=
  forall a e', m' !! a = Some e' -> (exists e n, m !! a = Some e /\ e' = re_set_next n e) \/ (exists e n, entry_of v self u = Some e /\ e' = re_set_next n e).

Lemma ents_from_refl v mem self u m : ents_from v mem self u m m.
Proof. intros a e' He. left. exists e', (re_next e'). split; [done|]. by destruct e'. Qed.

Section at_entry.
Context (i : Z) (e : Env) (ch : Z -> list Z) (mem self : Z) (u : uringent) (s s1 : rst) (en kp kn : ringent) (kprev : Z) (t l1 l2 : list Z).
Let x := re_next kp.
Context (Hok : msg_ok g base ch s) (Hc : cur_is i e s) (Et : ch i = msgring e :: t) (Hnd : NoDup (ch i)) (Ech : ch i = l1 ++ kprev :: l2).
Context (Hkp : r_ents s !! kprev = Some kp) (Hkn : r_ents s !! x = Some kn) (Hn : x = default (msgring e) (head l2)).
Context (Em0 : mem <> 0) (Hmem : r_ents s !! mem = None) (Een : entry_of (r_vm s) self u = Some en).
Context (Hr1 : rvm [] s1) (Hs1 : rsame s s1) (E1 : r_ents s1 = <[mem := en]> (r_ents s)).

Definition changed (r : Z) (s' : rst) : Prop := exists ch', msg_ok g base ch' s' /\ esame i s s' /\ (forall j, j <> i -> ch' j = ch j) /\
  ents_from (r_vm s) mem self u (r_ents s) (r_ents s') /\ (r <> 0 -> ch' i = ch i /\ r_ents s' = r_ents s).

Lemma at_entry_facts : mem <> x /\ mem <> kprev /\ r_ents s1 !! mem = Some en /\ r_ents s1 !! x = Some kn /\ (x ∈ ch i) /\ msg_heads (r_vm s) i = msgring e.
Proof.
  assert (mem <> x) as Hmx by congruence. assert (mem <> kprev) by congruence. split_and!; [done|done|rewrite E1; apply lookup_insert_eq|rewrite E1; by rewrite lookup_insert_ne| |unfold msg_heads; by rewrite (proj2 Hc)].
  rewrite Hn. destruct l2 as [|y l2']; cbn; [rewrite Et; left|rewrite Ech; set_solver].
Qed.

Lemma mod_replace_run : wlp (mod_replace i (msgring e) kprev mem kp kn) s1 changed.
Proof.
  destruct at_entry_facts as (Hmx & Hmk & Hm1 & Hx1 & Hkin & Eh). unfold mod_replace. fold x.
  apply wlp_bind, wp_wlp, (wp_upd_ent mem en); [done|]. set (s2 := r_set_ents _ s1). assert (rvm [] s2) as Hr2 by by apply ring_vm_next.
  assert (rsame s s2) as Hs2 by exact Hs1. pose proof (cur_is_r _ _ _ _ Hs2 Hc) as Hc2.
  assert (r_ents s2 = <[mem := re_set_next (re_next kn) en]> (r_ents s)) as E2 by (cbn; by rewrite E1, insert_insert_eq).
  (* the head moves to the new entry if the old one was the head *)
  set (s3 := if msgring e =? x then with_ring i mem e s2 else s2). apply wlp_bind, wp_wlp. eapply wp_mono with (Q := fun _ s' => s' = s3).
  { unfold s3. destruct (msgring e =? x); [|by apply wp_ret]. eapply wp_eq; [apply put_msgring_run, Hc2|done]. }
  intros [] ? ->. assert (rvm [] s3) as Hr3 by (unfold s3; destruct (msgring e =? x); [apply with_ring_vm; [apply Hc2|done]|done]). assert (r_ents s3 = r_ents s2) as E3 by (unfold s3; by destruct (msgring e =? x)).
  assert (esame i s s3) as Hs3. { unfold s3. destruct (msgring e =? x); [|by apply rsame_e]. etrans; [by apply rsame_e|]. apply with_ring_e, Hc2. }
  assert (r_ents s3 !! x = Some kn) as Hx3 by (rewrite E3, E2; by rewrite lookup_insert_ne).
  apply wlp_bind, wp_wlp. eapply wp_mono; [apply (msgringent_free_run g base x kn s3 Hr3 Hx3)|]. intros [] s4 (Hr4 & Hs4 & E4). rewrite E3, E2 in E4.
  destruct (decide (kprev = x)) as [Ekx|Ekx].
  { unfold upd_ent, wlp, mbind_, get_ent. rewrite E4, Ekx, lookup_delete_eq. done. }
  assert (r_ents s4 !! kprev = Some kp) as Hk4 by (rewrite E4, lookup_delete_ne, lookup_insert_ne by done; done).
  apply wlp_bind, wp_wlp, (wp_upd_ent kprev kp); [done|]. set (s5 := r_set_ents _ s4). assert (rvm [] s5) as Hr5 by by apply ring_vm_next. apply wp_wlp, wp_ret.
  assert (r_ents s5 = <[kprev := re_set_next mem kp]> (delete x (<[mem := re_set_next (re_next kn) en]> (r_ents s)))) as E5 by (cbn; by rewrite E4).
  assert (esame i s s5) as Hs5. { etrans; [exact Hs3|]. by apply rsame_e. }
  assert (forall j, j <> i -> msg_heads (r_vm s5) j = msg_heads (r_vm s) j) as Hho by (intros; by eapply heads_e).
  assert (msg_heads (r_vm s5) i = if msgring e =? x then mem else msgring e) as Hhi.
  { change (msg_heads (r_vm s5) i) with (msg_heads (r_vm s4) i). rewrite (heads_r _ _ _ Hs4). unfold s3. destruct (msgring e =? x); [apply with_ring_head|]. by rewrite (heads_r _ _ _ Hs2). }
  assert (ents_from (r_vm s) mem self u (r_ents s) (r_ents s5)) as Hfrom.
  { intros a e' Ha. rewrite E5 in Ha. destruct (decide (a = kprev)) as [->|]; [rewrite lookup_insert_eq in Ha; injection Ha as <-; left; eauto|]. rewrite lookup_insert_ne in Ha by done.
    apply lookup_delete_Some in Ha as [_ Ha]. destruct (decide (a = mem)) as [->|]; [rewrite lookup_insert_eq in Ha; injection Ha as <-; right; eauto|]. rewrite lookup_insert_ne in Ha by done.
    by apply (ents_from_refl (r_vm s) mem self u). }
  destruct (replaced_rings (msg_heads (r_vm s)) (msg_heads (r_vm s5)) ch (r_ents s) i (msgring e) t mem kprev kp kn (re_set_next (re_next kn) en) l1 l2) as (ch' & H1 & H2); try done; [apply Hok|].
  exists ch'. split_and!; [|done..]. split; [done|]. by rewrite E5.
Qed.

Lemma mod_insert_run : wlp (mod_insert mem kp kn) s1 changed.
Proof.
  destruct at_entry_facts as (Hmx & Hmk & Hm1 & Hx1 & Hkin & Eh). pose proof (mo_rings _ _ _ _ Hok) as Hg. unfold mod_insert. fold x.
  apply wlp_bind, wp_wlp, (wp_upd_ent mem en); [done|]. set (s2 := r_set_ents _ s1). assert (rvm [] s2) as Hr2 by by apply ring_vm_next.
  assert (r_ents s2 = <[mem := re_set_next (re_next kn) en]> (r_ents s)) as E2 by (cbn; by rewrite E1, insert_insert_eq).
  assert (r_ents s2 !! x = Some kn) as Hx2 by (rewrite E2; by rewrite lookup_insert_ne).
  apply wlp_bind, wp_wlp, (wp_upd_ent x kn); [done|]. set (s3 := r_set_ents _ s2). assert (rvm [] s3) as Hr3 by by apply ring_vm_next. apply wp_wlp, wp_ret. assert (rsame s s3) as Hs3 by exact Hs1.
  assert (r_ents s3 = <[x := re_set_next mem kn]> (<[mem := re_set_next (re_next kn) en]> (r_ents s))) as E3 by (cbn; by rewrite E1, insert_insert_eq).
  apply list_elem_of_split in Hkin as (k1 & k2 & Ekin). exists (<[i := k1 ++ x :: mem :: k2]> ch).
  split_and!; [|by apply rsame_e|intros j Hj; by rewrite fn_lookup_insert_ne| |done].
  - split; [done|]. eapply rings_ext; [|done|rewrite E3; by apply (rings_after (msg_heads (r_vm s)) ch (r_ents s) i k1 x kn k2)]. intros k. by apply heads_r.
  - intros a e' Ha. rewrite E3 in Ha. destruct (decide (a = x)) as [->|]; [rewrite lookup_insert_eq in Ha; injection Ha as <-; left; eauto|]. rewrite lookup_insert_ne in Ha by done.
    destruct (decide (a = mem)) as [->|]; [rewrite lookup_insert_eq in Ha; injection Ha as <-; right; eauto|]. rewrite lookup_insert_ne in Ha by done. by apply (ents_from_refl (r_vm s) mem self u).
Qed.
End at_entry.

Lemma modring_new_run i e ch mem self u old rep s : msg_ok g base ch s -> cur_is i e s -> ringable (r_vm s) -> room base 4 (r_ents s) -> r_ents s !! mem = None ->
  wlp (sys_msgring_modring mem self (Some u) old rep) s (changed i ch mem self u s).
Proof.
  intros Hok Hc Hb Hroom Hmem. pose proof (mo_rings _ _ _ _ Hok) as Hg. unfold sys_msgring_modring.
  assert (forall r s', rsame s s' -> rvm [] s' -> r_ents s' = r_ents s -> wlp (mreturn (- r)) s' (changed i ch mem self u s)) as Hsame.
  { intros r s' Hs Hr E. exists ch. split_and!; [|by apply rsame_e|done|rewrite E; apply ents_from_refl|done]. split; [done|]. rewrite E. eapply rings_ext; [|done|exact Hg]. intros k. by apply heads_r. }
  destruct (old =? 0); [apply Hsame; [done|apply Hok|done]|]. apply wlp_bind, wp_wlp. eapply wp_eq; [by apply cur_env_run|]. cbn [fst snd].
  assert (msg_heads (r_vm s) i = msgring e) as Eh by (unfold msg_heads; by rewrite (proj2 Hc)).
  destruct (Z.eqb_spec (msgring e) 0) as [E0|E0]; [apply Hsame; [done|apply Hok|done]|].
  destruct (rings_chain _ _ _ i Hg ltac:(congruence)) as (t & Et & Hci & Hnd & Hz). rewrite Eh in Et. apply wlp_bind, wp_wlp, wp_gets. apply wlp_bind, wp_wlp. eapply wp_mono.
  { apply (find_prev_run (ch i) (msgring e) old s Hci ltac:(by rewrite Et) Hnd t _ (msgring e) [] Et).
    assert (length (ch i) <= size (r_ents s))%nat as Hle by (apply NoDup_size; [done|]; intros a Ha; by eapply circ_in). rewrite Et in Hle. cbn in Hle. lia. }
  intros kprev s' [-> Hk]. destruct (circ_in _ _ _ Hci Hk) as [kp Hkp]. apply list_elem_of_split in Hk as (l1 & l2 & Ech).
  assert (head (ch i) = Some (msgring e)) as Hhd by by rewrite Et. pose proof (succ_in _ _ _ _ _ _ _ Hci Hhd Ech Hkp) as Hn.
  assert (re_next kp ∈ ch i) as Hkin. { rewrite Hn. destruct l2 as [|y l2]; cbn; [rewrite Et; left|rewrite Ech; set_solver]. }
  destruct (circ_in _ _ _ Hci Hkin) as [kn Hkn]. apply wlp_bind, wp_wlp, (wp_get_ent kprev kp); [done|]. apply wlp_bind, wp_wlp, (wp_get_ent (re_next kp) kn); [done|].
  destruct (negb (_ =? old)); [apply Hsame; [done|apply Hok|done]|]. apply wlp_bind, wp_wlp. eapply wp_mono; [by apply (msgringent_setup_run g base mem self u s (mo_vm _ _ _ _ Hok))|].
  intros r s1 (Hr1 & Hs1 & H1). destruct (mem =? 0) eqn:Em0; [destruct H1 as [-> E1]; by apply Hsame|]. destruct (entry_of (r_vm s) self u) as [en|] eqn:Een; [|destruct H1 as [-> E1]; by apply Hsame].
  destruct H1 as [-> E1]. rewrite Em0. apply Z.eqb_neq in Em0. destruct (negb (rep =? 0)).
  - by eapply (mod_replace_run i e ch mem self u s s1 en kp kn kprev t l1 l2).
  - by eapply (mod_insert_run i e ch mem self u s s1 en kp kn kprev t l1 l2).
Qed.
End change_ring.
