(* ===== verification/MsgRun.v ===== *)
(** * Message rings in use

    The theorems on message rings: whatever calls are made, the rings stay
    circular lists of entries whose pages are pinned as often as they are held;
    setting a ring translates the user's list; messages arrive in order until
    the ring is full.  Runs at the end show where the code departs from this. *)

From Stdlib Require Import ZArith Lia.
From stdpp Require Import functions.
From stdpp Require Import base numbers option list gmap.
From S2P Require Import Prelude Capability EnvTable PageState PageAlloc PageTable Pmap EnvSafe Ring Msgring.

(** ** Entries the kernel makes *)

Lemma pieces_ok v fuel : forall len addr pb sc tot l, 0 < pb -> tot <= IPC_MAX_MSG_SIZE -> pieces v fuel len addr pb sc tot = Some l ->
  Forall (fun x => 0 < r_sz x) l /\ tot + sizes l <= IPC_MAX_MSG_SIZE.
Proof.
  induction fuel as [|fuel IH]; intros len addr pb sc tot l Hpb Htot; cbn [pieces]; (destruct (Z.ltb_spec 0 len); cbn [negb]; [|intros [= <-]; split; [constructor|cbn; lia]]); [done|].
  destruct (negb _); cbn [orb]; [done|]. destruct (_ <? sc + 1); cbn [orb]; [done|]. destruct (Z.ltb_spec IPC_MAX_MSG_SIZE (tot + Z.min len pb)); [done|].
  destruct (pieces v fuel _ _ _ _ _) as [l'|] eqn:E; cbn; [|done]. intros [= <-]. apply IH in E as [H1 H2]; [|done|done].
  change (sizes (mkRec (Z.min len pb) (va_kva v addr) :: l')) with (Z.min len pb + sizes l'). split; [constructor; [cbn; lia|done]|lia].
Qed.

Lemma pagebound_pos addr : 0 < NBPG - Z.land addr (NBPG - 1).
Proof. change (NBPG - 1) with PGMASK. rewrite land_pgmask. pose proof (Z.mod_pos_bound addr NBPG ltac:(done)). lia. Qed.

Lemma entry_of_ok g v self u e : vm_ok g v -> ringable v -> entry_of v self u = Some e -> ment_ok e.
Proof.
  intros Hi Hb. unfold entry_of. destruct (_ mod 4 =? 0); [|done]. destruct (has_bits v WRITE_MASK (ur_owner u)) eqn:Ew; [|done]. destruct (1 <? ur_n u); [done|].
  destruct (pieces v 3 _ _ _ _ _) as [l|] eqn:E; cbn; [|done]. intros [= <-]. apply pieces_ok in E as [H1 H2]; [|apply pagebound_pos|done].
  split; [exact H1|exact H2|]. by destruct (has_bits_page g v WRITE_MASK (ur_owner u) Hi Hb eq_refl Ew) as (? & _ & _ & _ & ? & _).
Qed.

(** What the entry is to the user: its owner word, which the user can write, and
    byte by byte its buffer, which it can read. *)
Record entry_means (v : vm) (u : uringent) (e : ringent) : Prop := mkMeans {
  en_owner : re_owner e = va_kva v (ur_owner u) /\ ur_owner u mod 4 = 0 /\ has_bits v WRITE_MASK (ur_owner u) = true;
  en_body : addrs (re_recv e) = (fun i => va_kva v (u32 (r_data (ur_r u 0) + i))) <$> zseq 0 (Z.to_nat (s32 (r_sz (ur_r u 0))));
  en_read : forall i, 0 <= i < s32 (r_sz (ur_r u 0)) -> has_bits v READ_MASK (u32 (r_data (ur_r u 0) + i)) = true }.

Lemma entry_of_means v self u e : ringable v -> 0 <= r_data (ur_r u 0) < 2 ^ 32 -> entry_of v self u = Some e -> entry_means v u e.
Proof.
  intros Hb Ha. unfold entry_of. destruct (Z.eqb_spec (ur_owner u mod 4) 0) as [Ho|]; [|done]. destruct (has_bits v WRITE_MASK (ur_owner u)) eqn:Ew; [|done]. destruct (1 <? ur_n u); [done|].
  destruct (pieces v 3 _ _ _ _ _) as [l|] eqn:E; cbn; [|done]. intros [= <-]. apply pieces_spec in E as (_ & _ & _ & H1 & H2); [|done..]. by split.
Qed.

(** ** Runs *)

Section runs.
Context (g : ghost) (base : Z -> Z).


Definition run_ok (s : rst) : Prop := exists ch, msg_ok g base ch s /\ ments_ok (r_ents s).


Lemma ments_set_next e n : ment_ok e -> ment_ok (re_set_next n e).
Proof. by intros []. Qed.

(** Entries on rings other than [i] are as before, so the entries are sound if
    those of ring [i] are. *)
Lemma ments_change ch l i s s' : msg_ok g base ch s -> ments_ok (r_ents s) -> msg_ok g base (<[i := l]> ch) s' ->
  (forall a, (a ∉ ch i) -> is_Some (r_ents s !! a) -> (a ∉ l) -> r_ents s' !! a = r_ents s !! a) -> (forall a e, a ∈ l -> r_ents s' !! a = Some e -> ment_ok e) -> ments_ok (r_ents s').
Proof.
  intros Hok Hm Hok' Ho Hl a e He. destruct (proj1 (rg_dom _ _ _ (mo_rings _ _ _ _ Hok') a) (mk_is_Some _ _ He)) as [k Hk].
  destruct (decide (k = i)) as [->|Hne]; [rewrite fn_lookup_insert in Hk; by eapply Hl|]. rewrite fn_lookup_insert_ne in Hk by done.
  pose proof (rings_in _ _ _ _ _ (mo_rings _ _ _ _ Hok) Hk) as Hs. rewrite Ho in He; [by apply (Hm a)| |done|].
  - intros Hi. by apply Hne, (rg_dis _ _ _ (mo_rings _ _ _ _ Hok) k i a).
  - intros Hi. apply Hne, (rg_dis _ _ _ (mo_rings _ _ _ _ Hok') k i a); [by rewrite fn_lookup_insert_ne|by rewrite fn_lookup_insert].
Qed.

Lemma setring_keeps umem mems self fuel head us ok i e ch s : msg_ok g base ch s -> ments_ok (r_ents s) -> cur_is i e s -> ringable (r_vm s) -> rounds umem mems self (r_vm s) head head 0 us ok ->
  fresh_mems mems (filter (fun kv => kv.1 ∉ ch i) (r_ents s)) 0 (zlen us) -> room base (4 * zlen us + 4) (r_ents s) -> (length us < fuel)%nat ->
  wp (sys_msgring_setring umem mems self fuel head) s (fun _ s' => run_ok s').
Proof.
  intros Hok Hm Hc Hb Hw Hfr Hroom Hf. eapply wp_mono; [by apply (setring_run g base umem mems self i e head us ok fuel ch s)|]. intros r s' (He & Ho & H).
  assert (forall a, (a ∉ ch i) -> is_Some (r_ents s !! a) -> a ∉ mems <$> zseq 0 (length us)) as Hnew.
  { intros a Ha [x Hx] (k & -> & Hk)%list_elem_of_fmap. apply zseq_elem in Hk. destruct Hfr as [F _]. assert (mems k <> 0) as H0 by (intros E; rewrite E in Hx; pose proof (rg_nz _ _ _ (mo_rings _ _ _ _ Hok)); congruence).
    specialize (F k ltac:(unfold zlen; lia) H0). apply map_lookup_filter_None in F as [F|F]; [congruence|]. by apply (F x). }
  destruct ok; [destruct H as (-> & Hok' & HF)|destruct H as [-> Hok']]; (eexists; split; [exact Hok'|]); (eapply ments_change; [exact Hok|done|exact Hok'| |]).
  - intros a Ha Hs _. apply Ho; auto.
  - intros a x Ha Hx. apply list_elem_of_lookup in Ha as [k Hk]. destruct (Forall2_lookup_r _ _ _ _ _ HF Hk) as (u & _ & (e1 & e2 & E1 & E2 & E3)). assert (x = e2) as -> by congruence. rewrite E3.
    by eapply ments_set_next, entry_of_ok; [apply Hok|..].
  - intros a Ha Hs _. apply Ho; auto.
  - set_solver.
Qed.


End runs.

(** ** Messages in order *)

Record msg := mkMsg { m_mem : Z -> Z; m_addr : Z; m_sz : Z }.
Definition m_bytes (x : msg) : list Z := rd_bytes (m_mem x) (m_addr x) (m_sz x).
Fixpoint send_all (envid : Z) (ms : list msg) : M rst (list Z) :=
  match ms with
  | [] => mreturn []
  | x :: ms' => r <- sys_ipc_sendmsg (m_mem x) envid (m_sz x) (m_addr x) ;; rs <- send_all envid ms' ;; mreturn (r :: rs)
  end.

(** The buffers of a ring do not overlap. *)
Fixpoint ring_apart (es : list ringent) : Prop :=
  match es with [] => True | e :: es' => all_apart (ranges e) /\ Forall (ents_apart e) es' /\ Forall (fun f => ents_apart f e) es' /\ ring_apart es' end.
(** A message that fits into the buffer of an entry. *)
Definition fits (x : msg) (e : ringent) : Prop := 0 < m_sz x <= sizes (re_recv e).
Definition holds_msg (m : gmap Z Z) (x : msg) (e : ringent) : Prop := message m e = m_bytes x /\ ld32 m (re_owner e) = m_sz x.

Section fifo.
Context (g : ghost) (base : Z -> Z) (envid ei : Z).

Definition owns_ring (ch : Z -> list Z) (L : list Z) (s : rst) : Prop := msg_ok g base ch s /\ ments_ok (r_ents s) /\ env_id2env (vm_et (r_vm s)) envid = inl ei /\ ch ei = L.

Lemma id2env_ring x e et : envs et !! ei = Some e -> env_id2env et envid = inl ei -> env_id2env (put ei (set_msgring x e) et) envid = inl ei.
Proof.
  intros He H. unfold env_id2env in *. cbn. destruct (decide (ei = envidx envid)) as [E|Hne]; [|by rewrite lookup_insert_ne]. rewrite E in *. rewrite lookup_insert_eq. rewrite He in H. by destruct e.
Qed.

(** A message of a proper size gets to [msgring_handlemsg]. *)
Lemma send_head ch h l x s Q : owns_ring ch (h :: l) s -> 0 < m_sz x <= IPC_MAX_MSG_SIZE ->
  (forall e, envs (vm_et (r_vm s)) !! ei = Some e -> msgring e <> 0 -> wp (msgring_handlemsg (m_mem x) ei (m_sz x) (m_addr x)) s Q) ->
  wp (sys_ipc_sendmsg (m_mem x) envid (m_sz x) (m_addr x)) s Q.
Proof.
  intros (Hok & Hm & Hid & Hch) Hsz HQ. unfold sys_ipc_sendmsg.
  rewrite (proj2 (Z.eqb_neq _ _)), (proj2 (Z.ltb_ge _ _)) by lia. apply wp_bind, wp_zoom, wp_gets. replace (r_set_vm (r_vm s) s) with s by (by destruct s). rewrite Hid.
  assert (exists e, envs (vm_et (r_vm s)) !! ei = Some e) as [e He]. { unfold env_id2env in Hid. destruct (envs (vm_et (r_vm s)) !! envidx envid) as [e|] eqn:E; [|done]. destruct (_ =? ENV_FREE); [done|]. destruct (negb _); [done|]. injection Hid as <-. eauto. }
  apply wp_bind, wp_zoom, wp_zoom. unfold get_env. eapply wp_eq; [rewrite He; reflexivity|]. rewrite set_et_id. replace (r_set_vm (r_vm s) s) with s by (by destruct s).
  assert (msgring e <> 0) as Hnz. { pose proof (rg_head _ _ _ (mo_rings _ _ _ _ Hok) ei) as Hh. rewrite Hch in Hh. unfold msg_heads in Hh. rewrite He in Hh. cbn in Hh. destruct (Z.eqb_spec (msgring e) 0); done. }
  rewrite (proj2 (Z.eqb_neq _ _)) by done. by apply (HQ e).
Qed.

(** One message, to the entry at the head. *)
Lemma send_run ch h l k x s : owns_ring ch (h :: l) s -> r_ents s !! h = Some k -> fits x k ->
  wp (sys_ipc_sendmsg (m_mem x) envid (m_sz x) (m_addr x)) s (fun r s' =>
    if ld32 (r_mem s) (re_owner k) =? 0 then r = 0 /\ owns_ring (<[ei := l ++ [h]]> ch) (l ++ [h]) s' /\ r_ents s' = r_ents s /\ r_mem s' = delivered k (m_bytes x) (r_mem s)
    else r = - E_MSGRING_FULL /\ s' = s).
Proof.
  intros Ho Hk [H0 Hle]. pose proof Ho as (Hok & Hm & Hid & Hch). pose proof (Hm h k Hk) as Hmk. pose proof (me_max _ Hmk) as Hmax.
  eapply send_head; [done|lia|]. intros e He _. eapply wp_mono; [apply (handlemsg_run g base (m_mem x) ei (m_sz x) (m_addr x) ch e h l k s); (done || lia)|].
  intros r s' H. destruct (_ =? 0); [|done]. destruct H as (-> & Hok' & ->). split_and!; [done| |done|done]. split; [done|]. split; [done|]. split; [by apply id2env_ring|by rewrite fn_lookup_insert].
Qed.

(** A message is refused when the entry at the head is not free. *)
Lemma full_run ch h l k x s : owns_ring ch (h :: l) s -> r_ents s !! h = Some k -> ld32 (r_mem s) (re_owner k) <> 0 -> 0 < m_sz x <= IPC_MAX_MSG_SIZE ->
  sys_ipc_sendmsg (m_mem x) envid (m_sz x) (m_addr x) s = Ret (- E_MSGRING_FULL) s.
Proof.
  intros (Hok & Hm & Hid & Hch) Hk Hfull Hx. assert (wp (sys_ipc_sendmsg (m_mem x) envid (m_sz x) (m_addr x)) s (fun r s' => r = - E_MSGRING_FULL /\ s' = s)) as H.
  2: { unfold wp in H. destruct (sys_ipc_sendmsg _ _ _ _ s); [|done]. by destruct H as [-> ->]. }
  eapply send_head; [done..|]. intros e He Hr. eapply wp_mono; [apply (handlemsg_run g base (m_mem x) ei (m_sz x) (m_addr x) ch e h l k s); (done || (by apply (Hm h)) || lia)|].
  intros r s' H. by rewrite (proj2 (Z.eqb_neq _ _)) in H.
Qed.

(** Messages one after the other, to the entries [A] at the front of the ring. *)
Lemma send_all_run ms : forall A es B ch s, owns_ring ch (A ++ B) s -> Forall2 (fun a e => r_ents s !! a = Some e) A es -> ring_apart es -> Forall2 fits ms es ->
  Forall (fun e => ld32 (r_mem s) (re_owner e) = 0) es ->
  wp (send_all envid ms) s (fun rs s' => rs = repeat 0 (length ms) /\ (exists ch', owns_ring ch' (B ++ A) s') /\ r_ents s' = r_ents s /\ Forall2 (holds_msg (r_mem s')) ms es /\
    (forall f, Forall (fun e => ents_apart e f) es -> message (r_mem s') f = message (r_mem s) f /\ ld32 (r_mem s') (re_owner f) = ld32 (r_mem s) (re_owner f))).
Proof.
  induction ms as [|x ms IH]; intros A es B ch s Ho HA Hap Hfit Hz; cbn [send_all length repeat].
  - inversion Hfit; subst. apply Forall2_nil_inv_r in HA as ->. apply wp_ret. split_and!; [done| |done|constructor|done]. exists ch. by rewrite app_nil_r.
  - apply Forall2_cons_inv_l in Hfit as (e & es' & Hx & Hfit & ->). apply Forall2_cons_inv_r in HA as (a & A' & Ha & HA & ->). destruct Hap as (Hap1 & Hap2 & Hap3 & Hap4). apply Forall_cons in Hz as [Hz0 Hz].
    assert (ment_ok e) as Hme by (by apply (proj1 (proj2 Ho) a)). cbn [app] in Ho. apply wp_bind. eapply wp_mono; [apply (send_run ch a (A' ++ B) e x s Ho Ha Hx)|]. intros r s1 H1. rewrite Hz0, Z.eqb_refl in H1.
    destruct H1 as (-> & Ho1 & E1 & Em1). apply wp_bind. rewrite <- app_assoc in Ho1. eapply wp_mono; [apply (IH A' es' (B ++ [a]) _ s1 Ho1)|].
    + by rewrite E1.
    + done.
    + done.
    + rewrite Em1. apply Forall_forall. intros f Hf. rewrite Forall_forall in Hap2, Hz. destruct (delivered_other e f (m_bytes x) (r_mem s) Hme (Hap2 f Hf)) as [_ ->]. by apply Hz.
    + intros rs s2 (-> & (ch2 & Ho2) & E2 & Hh & Hoth). apply wp_ret. split_and!; [done|exists ch2; by rewrite <- app_assoc in Ho2|congruence| |].
      * constructor; [|done]. destruct (Hoth e Hap3) as [Hm1 Hm2]. unfold holds_msg. rewrite Hm1, Hm2, Em1. pose proof (me_max _ Hme). unfold fits, IPC_MAX_MSG_SIZE in *.
        assert (zlen (m_bytes x) = m_sz x) as El by (apply rd_bytes_len; lia). rewrite <- El. apply delivered_message; [done|done|lia|lia].
      * intros f Hf. apply Forall_cons in Hf as [Hf1 Hf2]. destruct (Hoth f Hf2) as [-> ->]. rewrite Em1. by apply delivered_other.
Qed.
End fifo.

(** ** The theorems *)

(** No rings and no entries. *)
Lemma msg_ok_init g base s : vm_ok g (r_vm s) -> r_ents s = ∅ -> (forall i, msg_heads (r_vm s) i = 0) -> (forall p, 0 <= base p) ->
  (forall p pp, ppages (vm_pool (r_vm s)) !! p = Some pp -> pp_pinned pp = base p) -> msg_ok g base (fun _ => []) s.
Proof.
  intros Hi He Hh Hb Hp. split; [split; rewrite ?He; try done|rewrite He].
  - intros p pp Hpp. rewrite (Hp p pp Hpp). unfold pinsum. rewrite map_fold_empty. change (count p []) with 0. lia.
  - split; [intros k; by rewrite Hh|intros; apply NoDup_nil_2|intros j k a Ha; by apply not_elem_of_nil in Ha| |done].
    intros a. rewrite lookup_empty. split; [by intros []|]. intros [k Hk]. by apply not_elem_of_nil in Hk.
Qed.


(** C27: [sys_msgring_setring] replaces the ring of the caller.  If the user's list
    comes back to its head before an entry is refused, the ring consists of the
    entries in that order, each made of a user's: its owner word, which the user
    can write, and its buffer translated byte by byte.  Otherwise the caller has
    no ring and the call fails.  No other ring changes, and every page is pinned
    as often as entries hold it. *)
Theorem sys_msgring_setring_builds g base umem mems self fuel head us ok i e ch s :
  msg_ok g base ch s -> cur_is i e s -> ringable (r_vm s) -> rounds umem mems self (r_vm s) head head 0 us ok ->
  fresh_mems mems (filter (fun kv => kv.1 ∉ ch i) (r_ents s)) 0 (zlen us) -> room base (4 * zlen us + 4) (r_ents s) -> (length us < fuel)%nat ->
  (forall u, 0 <= r_data (ur_r (umem u) 0) < 2 ^ 32) ->
  let L := mems <$> zseq 0 (length us) in
  wp (sys_msgring_setring umem mems self fuel head) s (fun r s' => esame i s s' /\
    if ok then r = 0 /\ msg_ok g base (<[i := L]> ch) s' /\ Forall2 (fun u a => exists x, r_ents s' !! a = Some x /\ entry_means (r_vm s) (umem u) x) us L
    else r = - E_FAULT /\ msg_ok g base (<[i := []]> ch) s').
Proof.
  intros Hok Hc Hb Hw Hfr Hroom Hf Hu L. eapply wp_mono; [by apply (setring_run g base umem mems self i e head us ok fuel ch s)|]. intros r s' (He & _ & H). split; [done|].
  destruct ok; [|done]. destruct H as (-> & Hok' & HF). split_and!; [done|done|]. eapply Forall2_impl; [exact HF|]. intros u a (x & x' & Hx & Ha & E).
  exists x'. split; [done|]. rewrite E. destruct (entry_of_means _ _ _ _ Hb (Hu u) Hx). by split.
Qed.

(** C18: messages arrive in order.  Sent to an environment whose ring of
    non-overlapping buffers is free, as many messages as there are entries, each
    no longer than its buffer (a longer one would be cut), all succeed: entry
    after entry holds its message and its length.  The next message, of a legal
    size, is refused, and changes nothing. *)
Theorem msgring_fifo g base envid ei ch A es ms x s :
  owns_ring g base envid ei ch A s -> Forall2 (fun a e => r_ents s !! a = Some e) A es -> ring_apart es ->
  Forall (fun e => ld32 (r_mem s) (re_owner e) = 0) es -> Forall2 fits ms es -> ms <> [] -> 0 < m_sz x <= IPC_MAX_MSG_SIZE ->
  wp (send_all envid ms) s (fun rs s' => rs = repeat 0 (length ms) /\ Forall2 (holds_msg (r_mem s')) ms es /\
    sys_ipc_sendmsg (m_mem x) envid (m_sz x) (m_addr x) s' = Ret (- E_MSGRING_FULL) s').
Proof.
  intros Ho HA Hap Hz Hfit Hne Hx. eapply wp_mono; [eapply (send_all_run g base envid ei ms A es []); [by rewrite app_nil_r|done..]|].
  intros rs s' (-> & (ch' & Ho') & E & Hh & _). split_and!; [done|done|]. cbn [app] in Ho'. destruct ms as [|y ms]; [done|].
  apply Forall2_cons_inv_l in Hfit as (k & es' & Hy & _ & ->). apply Forall2_cons_inv_r in HA as (a & A' & Ha & _ & ->). apply Forall2_cons in Hh as [[_ Hl] _].
  apply (full_run g base envid ei ch' a A' k x s' Ho'); [by rewrite E|rewrite Hl; unfold fits in Hy; lia|done].
Qed.

(** ** Example runs *)

(** The environment of [ex_mapped] has one writable page at 0x1000.  Its list of
    two entries: owner words at the start of the page, buffers of 16 bytes. *)
Definition ex_list (a : Z) : uringent :=
  if a =? 0x1100 then mkUr 0x1180 0x1000 1 (fun _ => mkRec 16 0x1010)
  else mkUr 0x1100 0x1004 1 (fun _ => mkRec 16 0x1020).
Definition ex_entry (i : Z) : Z := 0xf0400000 + 128 * i.
Definition kstk : Z := 0xefbfe000.
Definition ex_r : rst := mkR ex_mapped ∅ ∅.
Definition ex_ring : rst := default ex_r (ret_state (sys_msgring_setring ex_list ex_entry kstk 3 0x1100 ex_r)).
Definition ex_text (l : list Z) (a : Z) : Z := default 0 (l !! Z.to_nat (a - 0x2000)).
Definition ex_msg (l : list Z) : msg := mkMsg (ex_text l) 0x2000 (Z.of_nat (length l)).

(** Each entry as (owner, pieces), and what the ring says in order. *)
Definition ring_view (s : rst) : list (option (Z * list (Z * Z))) :=
  (fun i => (fun e => (re_owner e, (fun x => (r_data x, r_sz x)) <$> re_recv e)) <$> r_ents s !! ex_entry i) <$> [0; 1].

Example ex_ring_view : ring_view ex_ring = [Some (pp2va 297, [(pp2va 297 + 16, 16)]); Some (pp2va 297 + 4, [(pp2va 297 + 32, 16)])].
Proof. vm_compute. reflexivity. Qed.

Example ex_sends : ret_val (send_all 2049 [ex_msg [7; 8; 9]; ex_msg [1; 2]; ex_msg [5]] ex_ring) = Some [0; 0; - E_MSGRING_FULL].
Proof. vm_compute. reflexivity. Qed.

Lemma map_test {K A} `{Countable K} (f : K * A -> bool) (m : gmap K A) : forallb f (map_to_list m) = true -> forall k x, m !! k = Some x -> f (k, x) = true.
Proof. intros Hf k x Hk. rewrite forallb_forall in Hf. apply Hf, list_elem_of_In. by apply elem_of_map_to_list. Qed.

#[local] Opaque ex_mapped.

Lemma ex_mapped_ringable : ringable ex_mapped.
Proof.
  split; [vm_compute; eauto|vm_compute; discriminate|].
  set (f := fun kv : Z * Z * Z => (0 <=? snd kv) && (snd kv <? 2 ^ 32) && (Z.shiftr (snd kv) PGSHIFT <? nppage (vm_pool ex_mapped))).
  assert (forallb f (map_to_list (vm_pts ex_mapped)) = true) as Hf by (vm_compute; reflexivity).
  intros k w Hk. pose proof (map_test f (vm_pts ex_mapped) Hf k w Hk) as H. unfold f in H. cbn [snd] in H.
  apply andb_prop in H as [H H3]. apply andb_prop in H as [H1 H2]. apply Z.leb_le in H1. apply Z.ltb_lt in H2, H3.
  split; [split; [exact H1|exact H2]|intros _; exact H3].
Qed.

Lemma ex_r_ok : msg_ok ghost0 (fun _ => 0) (fun _ => []) ex_r.
Proof.
  apply msg_ok_init; [exact ex_mapped_ok|done| |done|].
  - intros i. unfold msg_heads, ex_r. cbn [r_vm]. assert (envs (vm_et ex_mapped) = {[ 1 := ex_e ]}) as -> by (vm_compute; reflexivity).
    destruct (decide (i = 1)) as [->|]; [by rewrite lookup_singleton_eq|by rewrite lookup_singleton_ne].
  - assert (forallb (fun kv => pp_pinned (snd kv) =? 0) (map_to_list (ppages (vm_pool ex_mapped))) = true) as H by (vm_compute; reflexivity).
    intros p pp Hp. apply Z.eqb_eq. exact (map_test (fun kv => pp_pinned (snd kv) =? 0) (ppages (vm_pool ex_mapped)) H p pp Hp).
Qed.

Lemma ex_r_cur : cur_is 1 ex_e ex_r.
Proof. split; [exact ex_mapped_cur|exact ex_mapped_env]. Qed.

Lemma ex_rounds : rounds ex_list ex_entry kstk ex_mapped 0x1100 0x1100 0 [0x1100; 0x1180] true.
Proof.
  assert (is_Some (entry_of ex_mapped kstk (ex_list 0x1100)) /\ is_Some (entry_of ex_mapped kstk (ex_list 0x1180))) as [H1 H2] by (split; vm_compute; eexists; reflexivity).
  cbn [rounds]. split; [reflexivity|]. split; [lia|]. split; [unfold ex_entry; lia|]. split; [exact H1|]. change (ur_next (ex_list 4352) =? 4352) with false. cbn iota.
  split; [reflexivity|]. split; [vm_compute; discriminate|]. split; [unfold ex_entry; lia|]. split; [exact H2|]. change (ur_next (ex_list (ur_next (ex_list 4352))) =? 4352) with true. cbn iota.
  split; reflexivity.
Qed.

Lemma ex_room n : 0 <= n < 2 ^ 31 -> room (fun _ => 0) n (r_ents ex_r).
Proof. intros Hn p. unfold ex_r. cbn [r_ents]. unfold pinsum. rewrite map_fold_empty. lia. Qed.

Lemma ex_fresh (m : gmap Z ringent) : (forall a, m !! a = None) -> fresh_mems ex_entry m 0 2.
Proof. intros Hm. split; [intros; apply Hm|]. unfold ex_entry. intros. lia. Qed.

Lemma ex_fresh_new : fresh_mems ex_entry (filter (fun kv => kv.1 ∉ (fun _ : Z => @nil Z) 1) (r_ents ex_r)) 0 (zlen [0x1100; 0x1180]).
Proof. apply ex_fresh. intros a. apply map_lookup_filter_None. left. apply lookup_empty. Qed.

Lemma ex_ring_run : sys_msgring_setring ex_list ex_entry kstk 3 0x1100 ex_r = Ret 0 ex_ring.
Proof.
  assert (ret_val (sys_msgring_setring ex_list ex_entry kstk 3 0x1100 ex_r) = Some 0) as E by (vm_compute; reflexivity).
  unfold ex_ring. destruct (sys_msgring_setring ex_list ex_entry kstk 3 0x1100 ex_r); cbn in *; congruence.
Qed.


Lemma ex_list_range u : 0 <= r_data (ur_r (ex_list u) 0) < 2 ^ 32.
Proof. unfold ex_list. destruct (u =? 4352); cbn; lia. Qed.

Lemma sys_msgring_setring_builds_witness :
  msg_ok ghost0 (fun _ => 0) (<[1 := [ex_entry 0; ex_entry 1]]> (fun _ => [])) ex_ring /\
  Forall2 (fun u a => exists x, r_ents ex_ring !! a = Some x /\ entry_means ex_mapped (ex_list u) x) [0x1100; 0x1180] [ex_entry 0; ex_entry 1].
Proof.
  destruct (wp_run _ _ _ _ _ (sys_msgring_setring_builds ghost0 (fun _ => 0) ex_list ex_entry kstk 3 0x1100 [0x1100; 0x1180] true 1 ex_e (fun _ => []) ex_r
    ex_r_ok ex_r_cur ex_mapped_ringable ex_rounds ex_fresh_new (ex_room 12 ltac:(lia)) ltac:(cbn; lia) ex_list_range) ex_ring_run)
    as (_ & _ & H1 & H2). split; [exact H1|exact H2].
Defined.

Definition ent0 : ringent := mkRe (ex_entry 1) (pp2va 297) kstk [mkRec 16 (pp2va 297 + 16)].
Definition ent1 : ringent := mkRe (ex_entry 0) (pp2va 297 + 4) kstk [mkRec 16 (pp2va 297 + 32)].

Lemma ex_ring_ents : r_ents ex_ring !! ex_entry 0 = Some ent0 /\ r_ents ex_ring !! ex_entry 1 = Some ent1.
Proof. split; vm_compute; reflexivity. Qed.

Lemma ex_ring_owned : exists ch, owns_ring ghost0 (fun _ => 0) 2049 1 ch [ex_entry 0; ex_entry 1] ex_ring.
Proof.
  destruct (wp_run _ _ _ _ _ (setring_run ghost0 (fun _ => 0) ex_list ex_entry kstk 1 ex_e 0x1100 [0x1100; 0x1180] true 3 (fun _ => []) ex_r
    ex_r_ok ex_r_cur ex_mapped_ringable ex_rounds ex_fresh_new (ex_room 12 ltac:(lia)) ltac:(cbn; lia)) ex_ring_run) as (_ & _ & _ & Hok & _).
  destruct (wp_run _ _ _ _ _ (setring_keeps ghost0 (fun _ => 0) ex_list ex_entry kstk 3 0x1100 [0x1100; 0x1180] true 1 ex_e (fun _ => []) ex_r ex_r_ok (map_Forall_empty _) ex_r_cur
    ex_mapped_ringable ex_rounds ex_fresh_new (ex_room 12 ltac:(lia)) ltac:(cbn; lia)) ex_ring_run) as (_ & _ & Hm).
  eexists. split; [exact Hok|]. split; [exact Hm|]. split; [vm_compute; reflexivity|reflexivity].
Qed.

Definition two_msgs : list msg := [ex_msg [7; 8; 9]; ex_msg [1; 2]].

Lemma msgring_fifo_witness : ring_apart [ent0; ent1] /\
  wp (send_all 2049 two_msgs) ex_ring (fun rs s' => rs = repeat 0 (length two_msgs) /\ Forall2 (holds_msg (r_mem s')) two_msgs [ent0; ent1] /\
    sys_ipc_sendmsg (m_mem (ex_msg [5])) 2049 (m_sz (ex_msg [5])) (m_addr (ex_msg [5])) s' = Ret (- E_MSGRING_FULL) s').
Proof.
  assert (ring_apart [ent0; ent1]) as Hap.
  { unfold ring_apart, ents_apart, ranges, all_apart, ent0, ent1. cbn -[rng_apart pp2va Z.add].
    repeat match goal with
    | |- _ /\ _ => split
    | |- Forall _ (_ :: _) => apply Forall_cons
    | |- Forall _ [] => apply Forall_nil_2
    | |- True => exact I
    | |- Forall _ (_ <$> _) => cbn [fmap list_fmap re_recv r_data r_sz]
    | |- rng_apart _ _ => unfold rng_apart, apart; cbn [fst snd re_owner r_data r_sz]; lia
    end. }
  split; [exact Hap|]. destruct ex_ring_owned as [ch Ho]. destruct ex_ring_ents as [E0 E1].
  apply (msgring_fifo ghost0 (fun _ => 0) 2049 1 ch [ex_entry 0; ex_entry 1] [ent0; ent1] two_msgs (ex_msg [5]) ex_ring Ho).
  - apply Forall2_cons; split; [exact E0|]. apply Forall2_cons; split; [exact E1|apply Forall2_nil_2].
  - exact Hap.
  - apply Forall_cons; split; [vm_compute; reflexivity|]. apply Forall_cons; split; [vm_compute; reflexivity|apply Forall_nil_2].
  - unfold two_msgs. apply Forall2_cons; split; [unfold fits; cbn; lia|]. apply Forall2_cons; split; [unfold fits; cbn; lia|apply Forall2_nil_2].
  - discriminate.
  - cbn. unfold IPC_MAX_MSG_SIZE. lia.
Defined.

(** ** Where the code departs from its intention *)

(** A buffer need only be readable: the kernel writes messages to a page that the
    environment maps without [PG_W]. *)
Definition ex_readonly : rst := mkR (set_pts (<[(298, 2) := Z.lor (296 * NBPG) (Z.lor PG_P PG_U)]> (vm_pts ex_mapped)) ex_mapped) ∅ ∅.
Definition ex_ro_list (_ : Z) : uringent := mkUr 0x1100 0x1000 1 (fun _ => mkRec 16 0x2010).

Example msgring_writes_readonly :
  match (r <- sys_msgring_setring ex_ro_list ex_entry kstk 2 0x1100 ;; rs <- send_all 2049 [ex_msg [7; 8; 9]] ;; mreturn (r :: rs)) ex_readonly with
  | Ret rs s => rs = [0; 0] /\ has_bits (r_vm s) WRITE_MASK 0x2010 = false /\ rdb (r_mem s) (pp2va 296 + 16) = 7
  | Panic => False
  end.
Proof. vm_compute. auto. Qed.

(** The kernel remembers the address of its own copy of the entry, so the user's
    address of it is not found. *)
Example modring_finds_no_user_address : ret_val (sys_msgring_modring 0xf0500000 kstk (Some (ex_list 0x1100)) 0x1100 1 ex_ring) = Some (- E_NOT_FOUND).
Proof. vm_compute. reflexivity. Qed.

(** Removal, by the address it does find, frees the wrong entry and leaves the
    ring at it: the next message makes the kernel use freed memory. *)
Example modring_remove_dangles :
  match sys_msgring_modring 0 kstk None kstk 1 ex_ring with
  | Ret r s => r = 0 /\ sys_ipc_sendmsg (m_mem (ex_msg [5])) 2049 1 0x2000 s = Panic
  | Panic => False
  end.
Proof. vm_compute. auto. Qed.

(** Replacing the entry of a ring of one writes to the entry after freeing it. *)
Definition ex_one (_ : Z) : uringent := mkUr 0x1100 0x1000 1 (fun _ => mkRec 16 0x1010).
Example modring_replace_one_panics :
  (sys_msgring_setring ex_one ex_entry kstk 2 0x1100 ;; sys_msgring_modring 0xf0500000 kstk (Some (ex_list 0x1100)) kstk 1) ex_r = Panic.
Proof. vm_compute. reflexivity. Qed.
