(* ===== verification/Malloc.v ===== *)
(** * The kernel heap

    sys/kern/malloc.c: power-of-two size classes of 16 to 4096 bytes carved
    from single pages, and runs of whole pages for larger requests.  The free
    blocks of a class are linked through their first word; the memory words the
    allocator writes are part of the state, so that the pointer surgery of
    [free] is modelled as it is.  The block size and the number of free blocks
    of a page live in its descriptor ([pp_bs], an alias of the reference count,
    and [pp_pcfc]). *)

From Stdlib Require Import ZArith Lia.
From stdpp Require Import base numbers option list gmap.
From S2P Require Import Prelude Capability PageState PageAlloc.

Definition LOG2MINALLOC := 4.
Definition MAXBS := 9.

(** [bsrl] leaves its destination, [0xffffffff], when no bit is set. *)
Definition fls (v : Z) : Z := u32 ((if v =? 0 then 0xffffffff else Z.log2 v) + 1).

(** The macro's case for constants. *)
Definition fls_const (v : Z) : Z :=
  if tst v 0x80000000 then 32 else if tst v 0x40000000 then 31
  else if tst v 0x20000000 then 30 else if tst v 0x10000000 then 29
  else if tst v 0x08000000 then 28 else if tst v 0x04000000 then 27
  else if tst v 0x02000000 then 26 else if tst v 0x01000000 then 25
  else if tst v 0x00800000 then 24 else if tst v 0x00400000 then 23
  else if tst v 0x00200000 then 22 else if tst v 0x00100000 then 21
  else if tst v 0x00080000 then 20 else if tst v 0x00040000 then 19
  else if tst v 0x00020000 then 18 else if tst v 0x00010000 then 17
  else if tst v 0x00008000 then 16 else if tst v 0x00004000 then 15
  else if tst v 0x00002000 then 14 else if tst v 0x00001000 then 13
  else if tst v 0x00000800 then 12 else if tst v 0x00000400 then 11
  else if tst v 0x00000200 then 10 else if tst v 0x00000100 then 9
  else if tst v 0x00000080 then 8 else if tst v 0x00000040 then 7
  else if tst v 0x00000020 then 6 else if tst v 0x00000010 then 5
  else if tst v 0x00000008 then 4 else if tst v 0x00000004 then 3
  else if tst v 0x00000002 then 2 else if tst v 0x00000001 then 1
  else 0.

Record blocksize := mkBs { bs_list : Z; bs_free : Z; bs_bppg : Z }.

(** [h_bs] and [h_mask] are the arrays [bs] and [size_mask]; [h_mem] is the
    memory of the blocks, a word at each address that was written. *)
Record kheap := mkHeap {
  h_pool : pool;
  h_bs : gmap Z blocksize;
  h_mask : gmap Z Z;
  h_mem : gmap Z Z }.

Definition set_hpool (x : pool) (s : kheap) : kheap := mkHeap x (h_bs s) (h_mask s) (h_mem s).
Definition set_hbs (x : gmap Z blocksize) (s : kheap) : kheap := mkHeap (h_pool s) x (h_mask s) (h_mem s).
Definition set_hmem (x : gmap Z Z) (s : kheap) : kheap := mkHeap (h_pool s) (h_bs s) (h_mask s) x.

Definition in_hp {A} (m : M pool A) : M kheap A := zoom h_pool set_hpool m.

(** Array accesses; the arrays have [MAXBS] entries. *)
Definition get_bs (i : Z) : M kheap blocksize := fun s => of_option (h_bs s !! i) s.
Definition put_bs (i : Z) (b : blocksize) : M kheap unit := modify (fun s => set_hbs (<[i := b]> (h_bs s)) s).
Definition load (a : Z) : M kheap Z := fun s => of_option (h_mem s !! a) s.
Definition store (a w : Z) : M kheap unit := modify (fun s => set_hmem (<[a := w]> (h_mem s)) s).

(** [pp_bs] and [pp_pcfc]: the same member of the union as the reference count;
    on a free page the access is an error. *)
Definition pp_counts (p : Z) : M kheap (Z * Z) :=
  pp <- in_hp (get_pp p) ;;
  match pp_u pp with PV _ n c => mreturn (n, c) | PLink => panic end.
Definition pp_bs_set (p n : Z) : M kheap unit :=
  pp <- in_hp (get_pp p) ;;
  match pp_u pp with
  | PV l _ c => in_hp (upd_pp p (pp_set_u (PV l (u16 n) c)))
  | PLink => panic
  end.
Definition pp_pcfc_set (p c : Z) : M kheap unit :=
  pp <- in_hp (get_pp p) ;;
  match pp_u pp with
  | PV l n _ => in_hp (upd_pp p (pp_set_u (PV l n (u16 c))))
  | PLink => panic
  end.
Definition pp_pcfc_add (p d : Z) : M kheap unit :=
  nc <- pp_counts p ;; pp_pcfc_set p (snd nc + d).

Definition malloc_init : M kheap unit :=
  mfor (fun i => modify (fun s =>
          mkHeap (h_pool s) (<[i := mkBs 0 0 (Z.shiftl 1 (PGSHIFT - (i + LOG2MINALLOC)))]> (h_bs s))
            (<[i := Z.shiftl 1 (i + LOG2MINALLOC) - 1]> (h_mask s)) (h_mem s)))
    (zseq 0 (Z.to_nat MAXBS)).

Definition bsnum (size : Z) : M kheap Z :=
  let bsn := Z.max 0 (fls size - (LOG2MINALLOC + 1)) in
  if MAXBS <=? bsn then mreturn (32 - LOG2MINALLOC + 1)
  else
    m <- (fun s => of_option (h_mask s !! bsn) s) ;;
    let bsn := if tst size m then bsn + 1 else bsn in
    if MAXBS <=? bsn then mreturn (32 - LOG2MINALLOC + 1)
    else mreturn bsn.

(** The loop that links the blocks of a new page from [p] on, [n] more after
    it. *)
Fixpoint carve_blocks (n : nat) (p size : Z) : M kheap unit :=
  match n with
  | O => store p 0
  | S n' => let q := u32 (p + size) in store p q ;; carve_blocks n' q size
  end.

Definition malloc (size : Z) : M kheap Z :=
  if size =? 0 then mreturn 0
  else if NBPG <? size then
    let bsn := u32 (size + NBPG - 1) / NBPG in
    rp <- in_hp (ppage_alloc_n PP_KERNEL bsn) ;;
    match rp with
    | (r, Some p) =>
        if r <? 0 then mreturn 0
        else
          pp_bs_set p (Z.lor (Z.shiftl bsn 8) MAXBS) ;;
          mfor (fun q => pp_bs_set q MAXBS) (zseq (p + 1) (Z.to_nat (bsn - 1))) ;;
          mreturn (pp2va p)
    | (r, None) => if r <? 0 then mreturn 0 else panic
    end
  else
    bsn <- bsnum size ;;
    b <- get_bs bsn ;;
    let size := Z.shiftl 1 (bsn + LOG2MINALLOC) in
    let r := bs_list b in
    if negb (r =? 0) then
      n <- load r ;;
      put_bs bsn (mkBs n (u32 (bs_free b - 1)) (bs_bppg b)) ;;
      p <- in_hp (kva2pp r) ;;
      pp_pcfc_add p (-1) ;;
      mreturn r
    else
      rp <- in_hp (ppage_alloc PP_KERNEL 0) ;;
      match rp with
      | (r, Some p) =>
          if r <? 0 then mreturn 0
          else
            pp_bs_set p bsn ;;
            pp_pcfc_set p (bs_bppg b - 1) ;;
            let r := pp2va p in
            (if size <? NBPG then carve_blocks (Z.to_nat (bs_bppg b - 2)) (u32 (r + size)) size
             else mreturn tt) ;;
            (if size <? NBPG then
               put_bs bsn (mkBs (u32 (r + size)) (u32 (bs_free b + bs_bppg b - 1)) (bs_bppg b))
             else mreturn tt) ;;
            mreturn r
      | (r, None) => if r <? 0 then mreturn 0 else panic
      end.

(** The cell [r2] points at: the list head ([None]) or the first word of a
    block. *)
Definition cell_write (bsn : Z) (r2 : option Z) (w : Z) : M kheap unit :=
  match r2 with
  | None => b <- get_bs bsn ;; put_bs bsn (mkBs w (bs_free b) (bs_bppg b))
  | Some a => store a w
  end.

(** The [while (r)] loop; [fuel] bounds the number of iterations and running
    out of it is [Panic]. *)
Fixpoint recycle (fuel : nat) (bsn ptr r : Z) (r2 : option Z) : M kheap unit :=
  if r =? 0 then mreturn tt
  else
    match fuel with
    | O => panic
    | S fuel' =>
        if PGNO r =? PGNO ptr then
          n <- load r ;; cell_write bsn r2 n ;; n <- load r ;; recycle fuel' bsn ptr n r2
        else n <- load r ;; recycle fuel' bsn ptr n (Some r)
    end.

Definition free (ptr : Z) : M kheap unit :=
  if ptr =? 0 then mreturn tt
  else
    p <- in_hp (kva2pp ptr) ;;
    nc <- pp_counts p ;;
    let bs := fst nc in
    if Z.land bs 0xff =? MAXBS then
      mfor (fun q => pp_bs_set q 0 ;; in_hp (ppage_free q)) (zseq p (Z.to_nat (Z.shiftr bs 8)))
    else
      pp <- in_hp (get_pp p) ;;
      if negb (pp_status pp =? PP_KERNEL) then mreturn tt
      else
        b <- get_bs bs ;;
        pp_pcfc_add p 1 ;;
        store ptr (bs_list b) ;;
        put_bs bs (mkBs ptr (u32 (bs_free b + 1)) (bs_bppg b)) ;;
        nc <- pp_counts p ;;
        b <- get_bs bs ;;
        if (snd nc =? bs_bppg b) && (u32 (3 * bs_bppg b) <=? bs_free b) then
          fuel <- gets (fun s => size (h_mem s)) ;;
          recycle fuel bs ptr (bs_list b) None ;;
          b <- get_bs bs ;;
          put_bs bs (mkBs (bs_list b) (u32 (bs_free b - bs_bppg b)) (bs_bppg b)) ;;
          pp_bs_set p 0 ;;
          in_hp (ppage_free p)
        else mreturn tt.

(** ** Size classes *)

Definition bsz (i : Z) : Z := 2 ^ (i + LOG2MINALLOC).
Definition nblk (i : Z) : Z := 2 ^ (PGSHIFT - (i + LOG2MINALLOC)).

Lemma class_cases (P : Z -> Prop) :
  P 0 -> P 1 -> P 2 -> P 3 -> P 4 -> P 5 -> P 6 -> P 7 -> P 8 -> forall i, 0 <= i < MAXBS -> P i.
Proof.
  unfold MAXBS. intros. assert (i = 0 \/ i = 1 \/ i = 2 \/ i = 3 \/ i = 4 \/ i = 5 \/ i = 6 \/ i = 7 \/ i = 8) as Hi by lia.
  repeat (destruct Hi as [->|Hi]; [assumption|]). by subst.
Qed.

Lemma class_size i : 0 <= i < MAXBS ->
  nblk i * bsz i = NBPG /\ 1 <= nblk i <= 256 /\ 16 <= bsz i <= 4096 /\
  Z.shiftl 1 (i + LOG2MINALLOC) = bsz i /\ Z.shiftl 1 (PGSHIFT - (i + LOG2MINALLOC)) = nblk i.
Proof. revert i. apply class_cases; vm_compute; intuition discriminate. Qed.

Lemma fls_log2 v : 0 < v < 2 ^ 32 -> fls v = Z.log2 v + 1.
Proof.
  intros Hv. unfold fls. destruct (Z.eqb_spec v 0); [lia|]. apply u32_small.
  pose proof (Z.log2_nonneg v). assert (Z.log2 v < 32) by (apply Z.log2_lt_pow2; lia). lia.
Qed.

Lemma tst_pow2 v k : 0 <= k -> tst v (2 ^ k) = Z.testbit v k.
Proof.
  intros Hk. unfold tst. destruct (Z.testbit v k) eqn:E.
  - apply negb_true_iff, Z.eqb_neq. intros H0. apply (f_equal (fun x => Z.testbit x k)) in H0.
    rewrite Z.land_spec, Z.pow2_bits_true, E, Z.bits_0 in H0 by done. done.
  - apply negb_false_iff, Z.eqb_eq, Z.bits_inj'. intros n Hn. rewrite Z.land_spec, Z.bits_0, Z.pow2_bits_eqb by done.
    destruct (Z.eqb_spec k n); [subst; by rewrite E|by rewrite andb_false_r].
Qed.

(** The chain of tests, from bit [k - 1] down. *)
Fixpoint fls_chain (k : nat) (v : Z) : Z :=
  match k with
  | O => 0
  | S k' => if tst v (2 ^ Z.of_nat k') then Z.of_nat k else fls_chain k' v
  end.

Lemma fls_chain_log2 k v : 0 <= v < 2 ^ Z.of_nat k -> fls_chain k v = if v =? 0 then 0 else Z.log2 v + 1.
Proof.
  induction k as [|k IH]; intros Hv; [assert (v = 0) as -> by (cbn in Hv; lia); done|].
  cbn [fls_chain]. rewrite tst_pow2 by lia.
  destruct (Z.ltb_spec v (2 ^ Z.of_nat k)) as [Hlt|Hge].
  - replace (Z.testbit v (Z.of_nat k)) with false; [apply IH; lia|]. destruct (decide (v = 0)) as [E0|E0].
    + by rewrite E0, Z.bits_0.
    + symmetry. apply Z.bits_above_log2; [lia|]. apply Z.log2_lt_pow2; lia.
  - assert (Z.log2 v = Z.of_nat k) as El.
    { apply Z.log2_unique; [lia|]. rewrite <- Nat2Z.inj_succ. lia. }
    pose proof (Z.pow_pos_nonneg 2 (Z.of_nat k)). rewrite <- El at 1. rewrite Z.bit_log2 by lia.
    destruct (Z.eqb_spec v 0); lia.
Qed.

Lemma fls_const_chain v : fls_const v = fls_chain 32 v.
Proof. reflexivity. Qed.

(** The class [bsnum] computes with the masks of [malloc_init]. *)
Definition bsnum_ref (size : Z) : Z :=
  let bsn := Z.max 0 (fls size - (LOG2MINALLOC + 1)) in
  if tst size (bsz bsn - 1) then bsn + 1 else bsn.

Definition class_fits (size i : Z) : bool :=
  (0 <=? i) && (i <? MAXBS) && (size <=? bsz i) && ((bsz i <? 2 * size) || ((i =? 1) && (size <? 16))).

Lemma bsnum_ref_fits size : 0 < size <= NBPG -> class_fits size (bsnum_ref size) = true.
Proof.
  intros Hs. assert (forallb (fun x => class_fits x (bsnum_ref x)) (zseq 1 4096) = true) as H by (vm_compute; reflexivity).
  rewrite forallb_forall in H. apply H, list_elem_of_In, zseq_elem. unfold NBPG in Hs. lia.
Qed.

Definition masks_ok (s : kheap) : Prop := forall i, 0 <= i < MAXBS -> h_mask s !! i = Some (bsz i - 1).

Lemma bsnum_run size s :
  0 < size <= NBPG -> masks_ok s ->
  wp (bsnum size) s (fun i s' => s' = s /\ i = bsnum_ref size /\ 0 <= i < MAXBS /\ size <= bsz i /\
    (bsz i < 2 * size \/ i = 1 /\ size < 16)).
Proof.
  intros Hs Hm. pose proof (bsnum_ref_fits size Hs) as Hf. unfold class_fits in Hf.
  rewrite !andb_true_iff, orb_true_iff, andb_true_iff, Z.leb_le, Z.ltb_lt, Z.leb_le, Z.ltb_lt, Z.eqb_eq, Z.ltb_lt in Hf.
  assert (0 <= Z.max 0 (fls size - (LOG2MINALLOC + 1)) < MAXBS) as Hk.
  { unfold bsnum_ref in Hf. revert Hf. destruct (tst _ _); lia. }
  unfold bsnum. destruct (Z.leb_spec MAXBS (Z.max 0 (fls size - (LOG2MINALLOC + 1)))); [lia|].
  apply wp_bind, wp_of_option. eexists. split; [by apply Hm|].
  change (if tst size (bsz _ - 1) then _ else _) with (bsnum_ref size).
  destruct (Z.leb_spec MAXBS (bsnum_ref size)); [lia|]. apply wp_ret. intuition.
Qed.

(** ** Blocks and their addresses *)

Definition blk (p i k : Z) : Z := pp2va p + k * bsz i.

Lemma blk_page p i k :
  0 <= i < MAXBS -> 0 <= p <= 65535 -> 0 <= k < nblk i ->
  kva2ppn (blk p i k) = p /\ PGNO (blk p i k) = 0xf0000 + p /\ 0 < blk p i k < 2 ^ 32 /\
  pp2va p <= blk p i k /\ blk p i k + bsz i <= pp2va p + NBPG.
Proof.
  intros Hi Hp Hk. destruct (class_size i Hi) as (E & Hn & Hb & _).
  assert (0 <= k * bsz i /\ k * bsz i + bsz i <= NBPG) as Hr by nia.
  unfold blk, kva2ppn, PGNO, pp2va, PGSHIFT. unfold NBPG, KERNBASE in *.
  rewrite !Z.shiftr_div_pow2 by done. change (2 ^ 12) with 4096.
  rewrite u32_small by lia. split_and!; try lia; symmetry; apply Z.div_unique with (k * bsz i); lia.
Qed.

Lemma blk_inj p i k k' : 0 <= i < MAXBS -> blk p i k = blk p i k' -> k = k'.
Proof. intros Hi H. destruct (class_size i Hi) as (_ & _ & Hb & _). unfold blk in H. nia. Qed.

(** The free list of a class in memory: from [r], the blocks [l]. *)
Fixpoint chain (m : gmap Z Z) (r : Z) (l : list Z) : Prop :=
  match l with
  | [] => r = 0
  | a :: l' => r = a /\ a <> 0 /\ exists n, m !! a = Some n /\ chain m n l'
  end.

Lemma chain_frame m m' r l : chain m r l -> (forall a, a ∈ l -> m' !! a = m !! a) -> chain m' r l.
Proof.
  revert r. induction l as [|a l IH]; intros r; cbn; [done|].
  intros (-> & Ha & n & Hn & Hc) Hf. split_and!; [done..|]. exists n. split; [rewrite Hf; [done|set_solver]|].
  apply IH; [done|]. intros. apply Hf. set_solver.
Qed.

Lemma chain_size m r l : NoDup l -> chain m r l -> (length l <= size m)%nat.
Proof.
  intros Hnd Hc. rewrite <- (size_list_to_set (C := gset Z) l Hnd), <- size_dom.
  apply subseteq_size. clear Hnd. revert r Hc. induction l as [|a l IH]; intros r; cbn; [set_solver|].
  intros (_ & _ & n & Hn & Hc). apply IH in Hc. apply elem_of_dom_2 in Hn. set_solver.
Qed.

(** ** The invariant

    [G] gives the class of the pages that are carved into blocks, [L] the
    number of pages of each run, [F] the free blocks of each class. *)
Definition in_page (p a : Z) : bool := kva2ppn a =? p.
Definition nfree (p : Z) (l : list Z) : Z := zlen (filter (fun a => in_page p a = true) l).

Record class_ok (G : gmap Z Z) (i : Z) (l : list Z) (s : kheap) : Prop := mkClassOk {
  co_bs : exists r, h_bs s !! i = Some (mkBs r (zlen l) (nblk i)) /\ chain (h_mem s) r l;
  co_nd : NoDup l;
  co_blk : forall a, a ∈ l -> exists p k, G !! p = Some i /\ 0 <= k < nblk i /\ a = blk p i k }.

Definition kpage (p bs : Z) (c : Z -> Prop) (s : kheap) : Prop :=
  exists pp l n, ppages (h_pool s) !! p = Some pp /\ pp_status pp = PP_KERNEL /\ pp_u pp = PV l bs n /\ c n.

Record heap_ok (G L : gmap Z Z) (F : Z -> list Z) (s : kheap) : Prop := mkHeapOk {
  ho_pool : pool_ok (h_pool s);
  ho_np : nppage (h_pool s) <= 65536;
  ho_mask : masks_ok s;
  ho_class : forall i, 0 <= i < MAXBS -> class_ok G i (F i) s;
  ho_small : forall p i, G !! p = Some i -> 0 <= i < MAXBS /\ kpage p i (fun c => c = nfree p (F i)) s;
  ho_large : forall p n, L !! p = Some n -> 2 <= n <= 255 /\
    forall j, 0 <= j < n -> kpage (p + j) (if j =? 0 then 256 * n + MAXBS else MAXBS) (fun _ => True) s;
  ho_sl : forall p n j, L !! p = Some n -> 0 <= j < n -> G !! (p + j) = None;
  ho_ll : forall p n j p' n' j', L !! p = Some n -> L !! p' = Some n' -> 0 <= j < n -> 0 <= j' < n' ->
    p + j = p' + j' -> p = p' }.

(** A block in use, and its size. *)
Definition live (G L : gmap Z Z) (F : Z -> list Z) (a n : Z) : Prop :=
  (exists p i k, G !! p = Some i /\ 0 <= k < nblk i /\ a = blk p i k /\ (a ∉ F i) /\ n = bsz i) \/
  (exists p m, L !! p = Some m /\ a = pp2va p /\ n = m * NBPG).

(** The heap holds the blocks [A], address to size. *)
Definition heap_inv (A : gmap Z Z) (s : kheap) : Prop :=
  exists G L F, heap_ok G L F s /\ forall a n, A !! a = Some n <-> live G L F a n.

Section facts.
Context (G L : gmap Z Z) (F : Z -> list Z) (s : kheap) (H : heap_ok G L F s).

Lemma kpage_range p bs c : kpage p bs c s -> 0 <= p <= 65535.
Proof.
  intros (pp & _ & _ & Hp & _). destruct (ho_pool _ _ _ _ H) as [Hpg _].
  assert (0 <= p < nppage (h_pool s)) by (apply (pg_dom _ _ Hpg); eauto). pose proof (ho_np _ _ _ _ H). lia.
Qed.

Lemma small_page p i : G !! p = Some i -> 0 <= i < MAXBS /\ 0 <= p <= 65535.
Proof. intros Hp. destruct (ho_small _ _ _ _ H p i Hp) as [Hi Hk]. eauto using kpage_range. Qed.

Lemma small_blk p i k : G !! p = Some i -> 0 <= k < nblk i -> kva2ppn (blk p i k) = p.
Proof. intros Hp Hk. destruct (small_page p i Hp) as [Hi Hr]. exact (proj1 (blk_page p i k Hi Hr Hk)). Qed.

Lemma large_range p n : L !! p = Some n -> 0 <= p /\ p + n <= 65536 /\ 2 <= n.
Proof.
  intros Hp. destruct (ho_large _ _ _ _ H p n Hp) as [Hn Hk].
  pose proof (kpage_range _ _ _ (Hk 0 ltac:(lia))). pose proof (kpage_range _ _ _ (Hk (n - 1) ltac:(lia))). lia.
Qed.

(** The page of a block in use says what it is. *)
Lemma live_page a n : live G L F a n ->
  (exists i k, G !! kva2ppn a = Some i /\ 0 <= k < nblk i /\ a = blk (kva2ppn a) i k /\ (a ∉ F i) /\ n = bsz i) \/
  (exists m, L !! kva2ppn a = Some m /\ a = pp2va (kva2ppn a) /\ n = m * NBPG).
Proof.
  intros [(p & i & k & Hp & Hk & -> & Hf & ->)|(p & m & Hp & -> & ->)].
  - left. rewrite (small_blk p i k Hp Hk). eauto 8.
  - right. pose proof (large_range p m Hp). destruct (pp2va_range p) as [-> _]; [lia|]. eauto.
Qed.

Lemma free_blk i a : 0 <= i < MAXBS -> a ∈ F i ->
  exists k, G !! kva2ppn a = Some i /\ 0 <= k < nblk i /\ a = blk (kva2ppn a) i k.
Proof.
  intros Hi Ha. destruct (co_blk _ _ _ _ (ho_class _ _ _ _ H i Hi) a Ha) as (p & k & Hp & Hk & ->).
  rewrite (small_blk p i k Hp Hk). eauto.
Qed.

Lemma free_not_live i a n : 0 <= i < MAXBS -> a ∈ F i -> ~ live G L F a n.
Proof.
  intros Hi Ha. destruct (free_blk i a Hi Ha) as (k & Hp & Hk & E).
  intros [(i' & k' & Hp' & _ & _ & Hf & _)|(m & Hp' & _)]%live_page.
  - congruence.
  - pose proof (large_range _ _ Hp'). pose proof (ho_sl _ _ _ _ H _ _ 0 Hp' ltac:(lia)) as Hn.
    rewrite Z.add_0_r in Hn. congruence.
Qed.

Lemma class_len i : 0 <= i < MAXBS -> 0 <= zlen (F i) < 2 ^ 31.
Proof.
  intros Hi. split; [apply zlen_nonneg|].
  assert (zlen (F i) <= 2 ^ 28); [|lia].
  assert (length (F i) <= length (zseq KERNBASE (Z.to_nat (2 ^ 28))))%nat as Hle.
  { apply NoDup_incl_length; [apply NoDup_ListNoDup, (ho_class _ _ _ _ H i Hi)|].
    intros a Ha%list_elem_of_In. apply list_elem_of_In, zseq_elem.
    destruct (free_blk i a Hi Ha) as (k & Hp & Hk & E). destruct (small_page _ _ Hp) as [_ Hr].
    destruct (blk_page _ _ _ Hi Hr Hk) as (_ & _ & [_ Hb] & Hlo & _). rewrite <- E in Hb, Hlo.
    unfold pp2va, KERNBASE, NBPG in *. lia. }
  rewrite zseq_length in Hle. unfold zlen. lia.
Qed.

Lemma small_not_run p i : G !! p = Some i -> forall r n j, L !! r = Some n -> 0 <= j < n -> r + j <> p.
Proof. intros Hp r n j Hr Hj E. pose proof (ho_sl _ _ _ _ H _ _ _ Hr Hj) as Hn. rewrite E in Hn. congruence. Qed.

(** Pages that are on a free list belong to no block. *)
Lemma free_page_unused p pp :
  ppages (h_pool s) !! p = Some pp -> pp_status pp = PP_FREE ->
  G !! p = None /\ forall r n j, L !! r = Some n -> 0 <= j < n -> r + j <> p.
Proof.
  intros Hp Hs. split.
  - destruct (G !! p) as [i|] eqn:E; [|done]. destruct (ho_small _ _ _ _ H p i E) as (_ & pq & ? & ? & Hq & Hk & _).
    unfold PP_FREE, PP_KERNEL in *. congruence.
  - intros r n j Hr Hj <-. destruct (ho_large _ _ _ _ H r n Hr) as [_ Hk].
    destruct (Hk j Hj) as (pq & ? & ? & Hq & Hst & _). unfold PP_FREE, PP_KERNEL in *. congruence.
Qed.
End facts.

(** A block, in use or free. *)
Definition block (G L : gmap Z Z) (a n : Z) : Prop :=
  (exists p i k, G !! p = Some i /\ 0 <= k < nblk i /\ a = blk p i k /\ n = bsz i) \/
  (exists p m, L !! p = Some m /\ a = pp2va p /\ n = m * NBPG).

Lemma live_block G L F a n : live G L F a n -> block G L a n.
Proof. intros [(p & i & k & ? & ? & ? & _ & ?)|?]; [left; by exists p, i, k|by right]. Qed.

Lemma block_disjoint G L F s a n b m :
  heap_ok G L F s -> block G L a n -> block G L b m -> a <> b -> a + n <= b \/ b + m <= a.
Proof.
  intros H. assert (forall p i k, G !! p = Some i -> 0 <= k < nblk i ->
    pp2va p <= blk p i k /\ blk p i k + bsz i <= pp2va p + NBPG) as Hin.
  { intros p i k Hp Hk. destruct (small_page _ _ _ _ H p i Hp) as [Hi Hr]. by apply blk_page. }
  assert (forall p i k r j, G !! p = Some i -> 0 <= k < nblk i -> L !! r = Some j ->
    blk p i k + bsz i <= pp2va r \/ pp2va r + j * NBPG <= blk p i k) as Hsl.
  { intros p i k r j Hp Hk Hr. pose proof (Hin p i k Hp Hk). unfold pp2va, NBPG in *.
    destruct (decide (0 <= p - r < j)) as [Hc|]; [|lia].
    pose proof (ho_sl _ _ _ _ H r j (p - r) Hr Hc) as Hn. replace (r + (p - r)) with p in Hn by lia. congruence. }
  intros [(p & i & k & Hp & Hk & -> & ->)|(p & i & Hp & -> & ->)]
         [(q & j & k' & Hq & Hk' & -> & ->)|(q & j & Hq & -> & ->)] Hne.
  - destruct (decide (p = q)) as [<-|Hpq].
    + assert (i = j) as <- by congruence. destruct (small_page _ _ _ _ H p i Hp) as [Hi _].
      destruct (class_size i Hi) as (_ & _ & Hb & _). assert (k <> k') by congruence. unfold blk. nia.
    + pose proof (Hin p i k Hp Hk). pose proof (Hin q j k' Hq Hk'). unfold pp2va, NBPG in *. lia.
  - by apply Hsl.
  - destruct (Hsl q j k' p i Hq Hk' Hp); auto.
  - pose proof (large_range _ _ _ _ H p i Hp). pose proof (large_range _ _ _ _ H q j Hq). unfold pp2va, NBPG in *.
    destruct (decide (p <= q < p + i)).
    { assert (p = q); [|congruence]. apply (ho_ll _ _ _ _ H p i (q - p) q j 0); done || lia. }
    destruct (decide (q <= p < q + j)); [|lia].
    assert (p = q); [|congruence]. apply (ho_ll _ _ _ _ H p i 0 q j (p - q)); done || lia.
Qed.

(** ** Changing one page and one class *)

Definition fupd (F : Z -> list Z) (i : Z) (l : list Z) : Z -> list Z := fun j => if j =? i then l else F j.

Lemma fupd_eq F i l : fupd F i l i = l.
Proof. unfold fupd. by rewrite Z.eqb_refl. Qed.
Lemma fupd_ne F i l j : j <> i -> fupd F i l j = F j.
Proof. intros. unfold fupd. by destruct (Z.eqb_spec j i). Qed.

Lemma kpage_other p bs c s s' :
  ppages (h_pool s') !! p = ppages (h_pool s) !! p -> kpage p bs c s -> kpage p bs c s'.
Proof. intros E (pp & l & n & Hp & ?). exists pp, l, n. by rewrite E. Qed.

(** Only page [p] and the list of class [i] change, [p] being of that class
    before or after, or both. *)
Lemma heap_ok_upd G L F s G' s' i l p :
  heap_ok G L F s -> 0 <= i < MAXBS -> pool_ok (h_pool s') -> nppage (h_pool s') = nppage (h_pool s) ->
  h_mask s' = h_mask s ->
  (forall q, q <> p -> G' !! q = G !! q) -> (G !! p = Some i \/ G !! p = None) ->
  (forall r n j, L !! r = Some n -> 0 <= j < n -> r + j <> p) ->
  (G' !! p = None \/ G' !! p = Some i /\ kpage p i (fun c => c = nfree p l) s') ->
  class_ok G' i l s' -> (forall j, j <> i -> h_bs s' !! j = h_bs s !! j) ->
  (forall j a, 0 <= j < MAXBS -> j <> i -> a ∈ F j -> h_mem s' !! a = h_mem s !! a) ->
  (forall q, q <> p -> ppages (h_pool s') !! q = ppages (h_pool s) !! q) ->
  (forall q, q <> p -> nfree q l = nfree q (F i)) ->
  heap_ok G' L (fupd F i l) s'.
Proof.
  intros H Hi Hok Hnp Hm HG Hp Hrun Hp' Hcl Hbs Hmem Hpg Hnf. split; try done.
  - rewrite Hnp. apply H.
  - unfold masks_ok. rewrite Hm. apply H.
  - intros j Hj. destruct (decide (j = i)) as [->|Hji]; [by rewrite fupd_eq|]. rewrite fupd_ne by done.
    destruct (ho_class _ _ _ _ H j Hj) as [(r & Hb & Hc) Hnd Hblk]. split; [|done|].
    + exists r. rewrite Hbs by done. split; [done|]. eapply chain_frame; [exact Hc|]. intros a Ha. by eapply Hmem.
    + intros a Ha. destruct (Hblk a Ha) as (q & k & Hq & ?). exists q, k. rewrite HG; [done|]. intros ->.
      destruct Hp; congruence.
  - intros q j Hq. destruct (decide (q = p)) as [->|Hqp].
    + destruct Hp' as [?|[Hp' Hk]]; [congruence|]. assert (j = i) as -> by congruence. by rewrite fupd_eq.
    + rewrite HG in Hq by done. destruct (ho_small _ _ _ _ H q j Hq) as [Hj Hk]. split; [done|].
      assert (nfree q (fupd F i l j) = nfree q (F j)) as ->.
      { unfold fupd. destruct (Z.eqb_spec j i) as [->|]; [by apply Hnf|done]. }
      eapply kpage_other; [|exact Hk]. by apply Hpg.
  - intros r n Hr. destruct (ho_large _ _ _ _ H r n Hr) as [Hn Hk]. split; [done|]. intros j Hj.
    eapply kpage_other; [|by apply Hk]. apply Hpg. by eapply Hrun.
  - intros r n j Hr Hj. rewrite HG by (by eapply Hrun). by eapply (ho_sl _ _ _ _ H).
  - apply H.
Qed.

(** ** The blocks in use *)

Lemma inv_add G L F G' L' F' (A : gmap Z Z) a n :
  (forall x m, A !! x = Some m <-> live G L F x m) -> (forall m, ~ live G L F a m) ->
  (forall x m, live G' L' F' x m <-> live G L F x m \/ x = a /\ m = n) ->
  A !! a = None /\ forall x m, <[a := n]> A !! x = Some m <-> live G' L' F' x m.
Proof.
  intros HA Ha Hl. assert (A !! a = None) as Hn.
  { destruct (A !! a) eqn:E; [|done]. by apply HA, Ha in E. }
  split; [done|]. intros x m. rewrite Hl, <- HA. destruct (decide (a = x)) as [<-|Hne].
  - rewrite lookup_insert_eq, Hn. naive_solver.
  - rewrite lookup_insert_ne by done. naive_solver.
Qed.

Lemma inv_del G L F G' L' F' (A : gmap Z Z) a :
  (forall x m, A !! x = Some m <-> live G L F x m) ->
  (forall x m, live G' L' F' x m <-> live G L F x m /\ x <> a) ->
  forall x m, delete a A !! x = Some m <-> live G' L' F' x m.
Proof. intros HA Hl x m. rewrite Hl, lookup_delete_Some, HA. naive_solver. Qed.

(** ** Rules *)

Section heap_rules.
Context (s : kheap).

Lemma wp_get_bs i b (Q : blocksize -> kheap -> Prop) : h_bs s !! i = Some b -> Q b s -> wp (get_bs i) s Q.
Proof. intros Hb HQ. apply wp_of_option. eauto. Qed.

Lemma wp_load a w (Q : Z -> kheap -> Prop) : h_mem s !! a = Some w -> Q w s -> wp (load a) s Q.
Proof. intros Hb HQ. apply wp_of_option. eauto. Qed.

Lemma wp_hpage p pp (Q : Ppage -> kheap -> Prop) :
  ppages (h_pool s) !! p = Some pp -> Q pp s -> wp (in_hp (get_pp p)) s Q.
Proof. intros Hp HQ. apply wp_zoom, wp_get_pp. exists pp. split; [done|]. by destruct s. Qed.

Lemma wp_kva2pp a (Q : Z -> kheap -> Prop) :
  kva2ppn a < nppage (h_pool s) -> Q (kva2ppn a) s -> wp (in_hp (kva2pp a)) s Q.
Proof. intros Hp HQ. apply wp_zoom, kva2pp_run; [done|]. by destruct s. Qed.

Definition upd_kpage (p : Z) (pp : Ppage) : kheap := set_hpool (put_page p pp (h_pool s)) s.

Lemma wp_pp_counts p pp l n c (Q : Z * Z -> kheap -> Prop) :
  ppages (h_pool s) !! p = Some pp -> pp_u pp = PV l n c -> Q (n, c) s -> wp (pp_counts p) s Q.
Proof. intros Hp Hu HQ. apply wp_bind. eapply wp_hpage; [done|]. by rewrite Hu. Qed.

Lemma wp_pp_bs_set p pp l n n0 c (Q : unit -> kheap -> Prop) :
  ppages (h_pool s) !! p = Some pp -> pp_u pp = PV l n0 c ->
  Q tt (upd_kpage p (pp_set_u (PV l (u16 n) c) pp)) -> wp (pp_bs_set p n) s Q.
Proof.
  intros Hp Hu HQ. apply wp_bind. eapply wp_hpage; [done|]. rewrite Hu. apply wp_zoom, wp_upd_pp. eauto.
Qed.

Lemma wp_pp_pcfc_set p pp l n c c0 (Q : unit -> kheap -> Prop) :
  ppages (h_pool s) !! p = Some pp -> pp_u pp = PV l n c0 ->
  Q tt (upd_kpage p (pp_set_u (PV l n (u16 c)) pp)) -> wp (pp_pcfc_set p c) s Q.
Proof.
  intros Hp Hu HQ. apply wp_bind. eapply wp_hpage; [done|]. rewrite Hu. apply wp_zoom, wp_upd_pp. eauto.
Qed.

Lemma wp_pp_pcfc_add p pp l n c d (Q : unit -> kheap -> Prop) :
  ppages (h_pool s) !! p = Some pp -> pp_u pp = PV l n c ->
  Q tt (upd_kpage p (pp_set_u (PV l n (u16 (c + d))) pp)) -> wp (pp_pcfc_add p d) s Q.
Proof.
  intros Hp Hu HQ. apply wp_bind. eapply wp_pp_counts; [done..|]. by eapply wp_pp_pcfc_set.
Qed.
End heap_rules.

(** A kernel page whose counters change. *)
Lemma counts_pool_ok p pp u s :
  pool_ok (h_pool s) -> ppages (h_pool s) !! p = Some pp -> pp_status pp = PP_KERNEL -> u <> PLink ->
  pool_ok (put_page p (pp_set_u u pp) (h_pool s)).
Proof. intros Hok Hp Hs Hu. eapply pool_ok_page; try done. by rewrite Hs. Qed.

(** The allocator does not touch the pins, nor the access lists but to clear
    them. *)
Definition keeps_page (pp pp' : Ppage) : Prop :=
  pp_pinned pp' = pp_pinned pp /\ (pp_acl pp' = pp_acl pp \/ pp_acl pp' = repeat cap_null (Z.to_nat PP_ACL_LEN)).

Definition same_pins (s s' : kheap) : Prop :=
  forall q, option_Forall2 keeps_page (ppages (h_pool s) !! q) (ppages (h_pool s') !! q).

Lemma keeps_page_eq pp pp' : pp_pinned pp' = pp_pinned pp -> pp_acl pp' = pp_acl pp -> keeps_page pp pp'.
Proof. by split; [|left]. Qed.

Lemma same_pins_refl s : same_pins s s.
Proof. intros q. destruct (ppages _ !! q); constructor. by apply keeps_page_eq. Qed.

Lemma same_pins_trans s s' s'' : same_pins s s' -> same_pins s' s'' -> same_pins s s''.
Proof.
  intros H1 H2 q. specialize (H1 q). specialize (H2 q). destruct H1 as [pp pp' [E1 A1]|]; inversion H2 as [? pp'' [E2 A2]|]; subst; constructor.
  split; [congruence|]. destruct A2 as [A2|A2]; [rewrite A2|]; auto.
Qed.

Lemma same_pins_put p pp pp' s s' :
  ppages (h_pool s') = <[p := pp']> (ppages (h_pool s)) -> ppages (h_pool s) !! p = Some pp ->
  keeps_page pp pp' -> same_pins s s'.
Proof.
  intros Es Hp E q. rewrite Es. destruct (decide (p = q)) as [<-|Hne].
  - rewrite lookup_insert_eq, Hp. by constructor.
  - rewrite lookup_insert_ne by done. apply same_pins_refl.
Qed.

Lemma nfree_cons p a l : nfree p (a :: l) = nfree p l + b2z (in_page p a).
Proof.
  unfold nfree. destruct (in_page p a) eqn:E.
  - rewrite filter_cons_True by done. rewrite zlen_cons. done.
  - rewrite filter_cons_False by congruence. cbn. lia.
Qed.

Lemma nfree_all p l : (forall a, a ∈ l -> kva2ppn a = p) -> nfree p l = zlen l.
Proof.
  induction l as [|a l IH]; intros Hl; [done|]. rewrite nfree_cons, zlen_cons, IH by (intros; apply Hl; set_solver).
  unfold in_page. rewrite (Hl a) by set_solver. by rewrite Z.eqb_refl.
Qed.

Lemma nfree_none p l : (forall a, a ∈ l -> kva2ppn a <> p) -> nfree p l = 0.
Proof.
  induction l as [|a l IH]; intros Hl; [done|]. rewrite nfree_cons, IH by (intros; apply Hl; set_solver).
  unfold in_page. destruct (Z.eqb_spec (kva2ppn a) p) as [E|]; [|done]. by destruct (Hl a); [set_solver|].
Qed.

(** The free blocks of one page. *)
Lemma nfree_bound G L F s p i :
  heap_ok G L F s -> G !! p = Some i ->
  0 <= nfree p (F i) <= nblk i /\ (nfree p (F i) = nblk i -> forall k, 0 <= k < nblk i -> blk p i k ∈ F i).
Proof.
  intros H Hp. destruct (small_page _ _ _ _ H p i Hp) as [Hi _]. destruct (class_size i Hi) as (_ & Hn & _).
  set (l := filter (fun a => in_page p a = true) (F i)). set (all := blk p i <$> zseq 0 (Z.to_nat (nblk i))).
  assert (NoDup l) as Hnd by (apply NoDup_filter, (ho_class _ _ _ _ H i Hi)).
  assert (incl l all) as Hincl.
  { intros a Ha%list_elem_of_In. apply list_elem_of_In. apply list_elem_of_filter in Ha as [Hpa%Z.eqb_eq Ha].
    destruct (free_blk _ _ _ _ H i a Hi Ha) as (k & _ & Hk & E). rewrite Hpa in E. rewrite E.
    apply list_elem_of_fmap_2, zseq_elem. lia. }
  assert (length all = Z.to_nat (nblk i)) as Hlen by (unfold all; by rewrite length_fmap, zseq_length).
  split.
  - split; [apply zlen_nonneg|]. pose proof (NoDup_incl_length (proj1 (NoDup_ListNoDup _) Hnd) Hincl).
    unfold nfree, zlen. fold l. lia.
  - intros Hall k Hk. unfold nfree, zlen in Hall. fold l in Hall.
    assert (incl all l) as Hback.
    { apply NoDup_length_incl; [by apply NoDup_ListNoDup|lia|done]. }
    assert (blk p i k ∈ l) as Hin.
    { apply list_elem_of_In, Hback, list_elem_of_In, list_elem_of_fmap_2, zseq_elem. lia. }
    by apply list_elem_of_filter in Hin as [_ ?].
Qed.

(** ** Allocating from the free list *)

Lemma malloc_pop G L F s size i a l :
  heap_ok G L F s -> 0 < size <= NBPG -> i = bsnum_ref size -> 0 <= i < MAXBS -> F i = a :: l ->
  wp (malloc size) s (fun r s' => r = a /\ heap_ok G L (fupd F i l) s' /\ h_mem s' = h_mem s /\ same_pins s s').
Proof.
  intros H Hs Ei Hi HF. destruct (ho_class _ _ _ _ H i Hi) as [(r & Hb & Hc) Hnd Hblk]. rewrite HF in Hb, Hc, Hnd, Hblk.
  destruct Hc as (-> & Ha0 & n & Hn & Hc). apply NoDup_cons in Hnd as [Hal Hnd].
  destruct (free_blk _ _ _ _ H i a Hi ltac:(rewrite HF; set_solver)) as (k & Hp & Hk & Ea). set (p := kva2ppn a) in *.
  destruct (ho_small _ _ _ _ H p i Hp) as (_ & pp & vl & c & Hpp & Hst & Hu & Hcn).
  pose proof (nfree_bound _ _ _ _ p i H Hp) as [Hnf _]. destruct (class_size i Hi) as (_ & Hnb & _).
  pose proof (class_len _ _ _ _ H i Hi) as Hlen. rewrite HF, nfree_cons in *. rewrite zlen_cons in *.
  assert (in_page p a = true) as Hin by apply Z.eqb_refl. rewrite Hin in *. cbn [b2z] in *.
  pose proof (zlen_nonneg (filter (fun a => in_page p a = true) l)) as Hf0. fold (nfree p l) in Hf0.
  unfold malloc. destruct (Z.eqb_spec size 0); [lia|]. destruct (Z.ltb_spec NBPG size); [lia|].
  apply wp_bind. eapply wp_mono; [by apply bsnum_run; [|apply H]|]. intros j s1 (-> & Hj & _). rewrite <- Ei in Hj. subst j.
  apply wp_bind. eapply wp_get_bs; [exact Hb|]. cbn [bs_list bs_free bs_bppg].
  destruct (Z.eqb_spec a 0); [done|]. cbn [negb].
  apply wp_bind. eapply wp_load; [exact Hn|]. apply wp_bind, wp_modify, wp_bind. 
  destruct (ho_pool _ _ _ _ H) as [Hpg _].
  apply wp_kva2pp; [fold p; cbn; apply (pg_dom _ _ Hpg); eauto|]. fold p.
  apply wp_bind. eapply wp_pp_pcfc_add; [exact Hpp|exact Hu|]. apply wp_ret. split; [done|].
  replace (zlen l + 1 - 1) with (zlen l) by lia. rewrite u32_small by (pose proof (zlen_nonneg l); lia).
  replace (c + -1) with (nfree p l) by lia. rewrite u16_small by lia.
  split; [|split; [done|by eapply same_pins_put, keeps_page_eq]].
  eapply (heap_ok_upd G L F s G _ i l p); try done.
  - by eapply counts_pool_ok; [apply H|..].
  - by left.
  - by eapply small_not_run.
  - right. split; [done|]. eexists _, vl, _. split_and!; [apply lookup_insert_eq|done..].
  - split.
    + exists n. cbn. rewrite lookup_insert_eq. done.
    + done.
    + intros b Hb'. apply Hblk. set_solver.
  - intros j Hj. cbn. by rewrite lookup_insert_ne.
  - intros q Hq. cbn. by rewrite lookup_insert_ne.
  - intros q Hq. rewrite HF, nfree_cons. unfold in_page. fold p. destruct (Z.eqb_spec p q); [congruence|]. cbn. lia.
Qed.

Lemma pop_live G L F s i a l :
  heap_ok G L F s -> 0 <= i < MAXBS -> F i = a :: l ->
  forall x m, live G L (fupd F i l) x m <-> live G L F x m \/ x = a /\ m = bsz i.
Proof.
  intros H Hi HF x m. assert (a ∈ F i) as Ha by (rewrite HF; set_solver).
  destruct (free_blk _ _ _ _ H i a Hi Ha) as (ka & Hpa & Hka & Ea).
  pose proof (co_nd _ _ _ _ (ho_class _ _ _ _ H i Hi)) as Hnd. rewrite HF in Hnd. apply NoDup_cons in Hnd as [Hal _].
  split.
  - intros [(p & j & k & Hp & Hk & -> & Hf & ->)|Hl]; [|left; by right].
    destruct (decide (j = i)) as [->|Hji].
    + rewrite fupd_eq in Hf. destruct (decide (blk p i k = a)) as [->|Hne]; [by right|].
      left. left. exists p, i, k. rewrite HF. split_and!; try done; try lia. set_solver.
    + rewrite fupd_ne in Hf by done. left. left. exists p, j, k. done.
  - intros [[(p & j & k & Hp & Hk & -> & Hf & ->)|Hl]|[-> ->]]; [left|by right|left].
    + exists p, j, k. split_and!; try done; try lia. unfold fupd. destruct (Z.eqb_spec j i) as [->|]; [|done]. rewrite HF in Hf. set_solver.
    + exists (kva2ppn a), i, ka. rewrite fupd_eq. done.
Qed.

(** ** Allocating a new page of blocks *)

Lemma blk_next p i k :
  0 <= i < MAXBS -> 0 <= p <= 65535 -> 0 <= k -> k + 1 < nblk i -> u32 (blk p i k + bsz i) = blk p i (k + 1).
Proof.
  intros Hi Hp Hk Hk1. replace (blk p i k + bsz i) with (blk p i (k + 1)) by (unfold blk; lia).
  apply u32_small. destruct (blk_page p i (k + 1)) as (_ & _ & ? & _); [done|done|lia|lia].
Qed.

Lemma carve_blocks_run p i n k s :
  0 <= i < MAXBS -> 0 <= p <= 65535 -> 0 <= k -> k + Z.of_nat n < nblk i ->
  wp (carve_blocks n (blk p i k) (bsz i)) s (fun _ s' => exists m', s' = set_hmem m' s /\
    chain m' (blk p i k) (blk p i <$> zseq k (S n)) /\
    forall a, (forall j, k <= j <= k + Z.of_nat n -> a <> blk p i j) -> m' !! a = h_mem s !! a).
Proof.
  intros Hi Hp. revert k s. induction n as [|n IH]; intros k s Hk Hn.
  - apply wp_modify. eexists. split; [done|]. split.
    + rewrite zseq_S, zseq_0, fmap_cons. cbn [chain fmap list_fmap]. destruct (blk_page p i k) as (_ & _ & ? & _); [done|done|lia|]. split_and!; [done|lia|].
      exists 0. by rewrite lookup_insert_eq.
    + intros a Ha. apply lookup_insert_ne. intros <-. by apply (Ha k); [lia|].
  - cbn [carve_blocks]. rewrite blk_next by (done || lia). apply wp_bind, wp_modify.
    eapply wp_mono; [apply IH; lia|]. intros [] s' (m' & -> & Hc & Hf). exists m'. split; [done|]. split.
    + rewrite zseq_S. rewrite fmap_cons. destruct (blk_page p i k) as (_ & _ & ? & _); [done|done|lia|].
      cbn [chain]. split_and!; [done|lia|]. exists (blk p i (k + 1)). split; [|done].
      rewrite Hf; [apply lookup_insert_eq|]. intros j Hj E. apply blk_inj in E; [lia|done].
    + intros a Ha. rewrite Hf by (intros j Hj; apply Ha; lia). apply lookup_insert_ne. intros <-. by apply (Ha k); [lia|].
Qed.

Definition rest_of_page (p i : Z) : list Z := blk p i <$> zseq 1 (Z.to_nat (nblk i - 1)).

Lemma rest_of_page_elem p i a : 0 <= i < MAXBS -> a ∈ rest_of_page p i <-> exists k, 1 <= k < nblk i /\ a = blk p i k.
Proof.
  intros Hi. destruct (class_size i Hi) as (_ & Hn & _). unfold rest_of_page. rewrite list_elem_of_fmap.
  split; intros (k & H1 & H2); exists k; [rewrite zseq_elem in H2|rewrite zseq_elem]; split; (done || lia).
Qed.

Lemma rest_of_page_ok p i : 0 <= i < MAXBS -> 0 <= p <= 65535 ->
  NoDup (rest_of_page p i) /\ zlen (rest_of_page p i) = nblk i - 1 /\
  forall q, nfree q (rest_of_page p i) = if q =? p then nblk i - 1 else 0.
Proof.
  intros Hi Hp. destruct (class_size i Hi) as (_ & Hn & _).
  assert (zlen (rest_of_page p i) = nblk i - 1) as Hlen.
  { unfold zlen, rest_of_page. rewrite length_fmap, zseq_length. lia. }
  assert (forall a, a ∈ rest_of_page p i -> kva2ppn a = p) as Hpg.
  { intros a (k & Hk & ->)%rest_of_page_elem; [|done]. exact (proj1 (blk_page p i k Hi Hp ltac:(lia))). }
  split_and!; [|done|].
  - unfold rest_of_page, zseq. rewrite <- list_fmap_compose. apply NoDup_fmap_2_strong; [|apply NoDup_seq].
    intros x y _ _ E%blk_inj; [lia|done].
  - intros q. destruct (Z.eqb_spec q p) as [->|Hq].
    + by rewrite <- Hlen, <- (nfree_all p).
    + apply nfree_none. intros a Ha E. apply Hpg in Ha. congruence.
Qed.

(** The list of a class after a page was carved: the blocks after the first. *)
Lemma carve_run p i s :
  0 <= i < MAXBS -> 0 <= p <= 65535 -> h_bs s !! i = Some (mkBs 0 0 (nblk i)) ->
  wp ((if bsz i <? NBPG then carve_blocks (Z.to_nat (nblk i - 2)) (u32 (pp2va p + bsz i)) (bsz i) else mreturn tt) ;;
      (if bsz i <? NBPG then put_bs i (mkBs (u32 (pp2va p + bsz i)) (u32 (0 + nblk i - 1)) (nblk i)) else mreturn tt)) s
    (fun _ s' => h_pool s' = h_pool s /\ h_mask s' = h_mask s /\
      (exists r, h_bs s' !! i = Some (mkBs r (zlen (rest_of_page p i)) (nblk i)) /\ chain (h_mem s') r (rest_of_page p i)) /\
      (forall j, j <> i -> h_bs s' !! j = h_bs s !! j) /\
      (forall a, a ∉ rest_of_page p i -> h_mem s' !! a = h_mem s !! a)).
Proof.
  intros Hi Hp Hb. destruct (class_size i Hi) as (E & Hn & Hsz & _).
  destruct (rest_of_page_ok p i Hi Hp) as (_ & Hlen & _). destruct (Z.ltb_spec (bsz i) NBPG) as [Hlt|Hge].
  - assert (2 <= nblk i) by nia.
    replace (pp2va p) with (blk p i 0) by (unfold blk; lia). rewrite blk_next by (done || lia). cbn [Z.add].
    assert (rest_of_page p i = blk p i <$> zseq 1 (S (Z.to_nat (nblk i - 2)))) as Er.
    { unfold rest_of_page. do 2 f_equal. lia. }
    apply wp_bind. eapply wp_mono; [apply carve_blocks_run; done || lia|].
    intros [] s' (m' & -> & Hc & Hf). apply wp_modify. cbn. split_and!; try done.
    + exists (blk p i 1). rewrite lookup_insert_eq, Hlen. rewrite u32_small by lia. by rewrite Er.
    + intros j Hj. by rewrite lookup_insert_ne.
    + intros a Ha. apply Hf. intros j Hj ->. apply Ha. apply rest_of_page_elem; [done|]. exists j. split; [lia|done].
  - assert (nblk i = 1) by nia. apply wp_bind, wp_ret, wp_ret. split_and!; try done.
    assert (rest_of_page p i = []) as Er by (apply nil_length_inv; unfold zlen in Hlen; lia).
    exists 0. rewrite Er. done.
Qed.

Lemma malloc_fresh G L F s size i :
  heap_ok G L F s -> 0 < size <= NBPG -> i = bsnum_ref size -> 0 <= i < MAXBS -> F i = [] ->
  wp (malloc size) s (fun r s' => (r = 0 /\ s' = s /\ find_free_ref 0 (h_pool s) = None) \/
    exists p, r = blk p i 0 /\ 0 <= p <= 65535 /\ G !! p = None /\ (forall r n j, L !! r = Some n -> 0 <= j < n -> r + j <> p) /\
      heap_ok (<[p := i]> G) L (fupd F i (rest_of_page p i)) s' /\
      (forall a, (a ∉ rest_of_page p i) -> h_mem s' !! a = h_mem s !! a) /\ same_pins s s').
Proof.
  intros H Hs Ei Hi HF. destruct (ho_class _ _ _ _ H i Hi) as [(r & Hb & Hc) _ _]. rewrite HF in Hb, Hc. cbn in Hc. subst r.
  destruct (class_size i Hi) as (E & Hn & Hsz & Esz & _). pose proof (ho_pool _ _ _ _ H) as [Hpg _].
  unfold malloc. destruct (Z.eqb_spec size 0); [lia|]. destruct (Z.ltb_spec NBPG size); [lia|].
  apply wp_bind. eapply wp_mono; [by apply bsnum_run; [|apply H]|]. intros j s1 (-> & Hj & _). rewrite <- Ei in Hj. subst j.
  apply wp_bind. eapply wp_get_bs; [exact Hb|]. cbn [bs_list bs_free bs_bppg negb Z.eqb]. rewrite Esz.
  apply wp_bind, wp_zoom. eapply wp_mono; [apply ppage_alloc_spec; [apply H|done]|].
  intros rp P [HokP HP]. destruct (find_free_ref 0 (h_pool s)) as [p|] eqn:Ef; destruct HP as [-> HP].
  2: { apply wp_ret. left. subst P. by destruct s. }
  destruct HP as (pp & Hp & [_ _ Rpp Rn _ _ _ _ _ _]). cbn [Z.ltb Z.compare].
  apply find_free_ref_sound in Ef; [|done]. apply reclaimable_free in Ef as (pp0 & Hp0 & Hst). assert (pp0 = pp) as -> by congruence.
  destruct (free_page_unused _ _ _ _ H p pp Hp Hst) as [HGp HLp].
  assert (0 <= p <= 65535) as Hpr.
  { assert (0 <= p < nppage (h_pool s)) by (apply (pg_dom _ _ Hpg); eauto). pose proof (ho_np _ _ _ _ H). lia. }
  destruct (rest_of_page_ok p i Hi Hpr) as (Hnd & Hlen & Hnf).
  apply wp_bind. eapply wp_pp_bs_set; [cbn; rewrite Rpp; apply lookup_insert_eq|reflexivity|].
  apply wp_bind. eapply wp_pp_pcfc_set; [apply lookup_insert_eq|reflexivity|].
  rewrite (u16_small i), (u16_small (nblk i - 1)) by (unfold MAXBS in Hi; lia).
  match goal with |- wp _ ?st _ => set (s2 := st) end.
  assert (pool_ok (h_pool s2)) as Hok2.
  { unfold s2, upd_kpage. cbn [h_pool set_hpool].
    eapply (pool_ok_page p (pp_set_u (PV [] i 0) (initpp PP_KERNEL pp))); try done.
    - eapply (pool_ok_page p (initpp PP_KERNEL pp)); try done. by rewrite Rpp, lookup_insert_eq.
    - apply lookup_insert_eq. }
  pose proof (carve_run p i s2 Hi Hpr Hb) as Hcarve. apply wp_bind in Hcarve. apply wp_bind.
  eapply wp_mono; [exact Hcarve|]. intros [] s3 H3. apply wp_bind. eapply wp_mono; [exact H3|].
  intros [] s4 (Ep & Em & Hbs & Hbo & Hmo). apply wp_ret. right. exists p. split_and!; try done; try lia; [unfold blk; lia| |].
  2: { apply (same_pins_put p pp (pp_set_u (PV [] i (nblk i - 1)) (initpp PP_KERNEL pp))); [|done|by split; [|right]].
       rewrite Ep. unfold s2, upd_kpage. cbn. by rewrite !insert_insert_eq, Rpp, insert_insert_eq. }
  eapply (heap_ok_upd G L F s _ _ i _ p); try done.
  - by rewrite Ep.
  - by rewrite Ep.
  - intros q Hq. by rewrite lookup_insert_ne.
  - by right.
  - right. split; [apply lookup_insert_eq|]. eexists _, [], _. rewrite Ep.
    split_and!; [apply lookup_insert_eq|done|done|]. by rewrite Hnf, Z.eqb_refl.
  - split; [done|done|]. intros a (k & Hk & ->)%rest_of_page_elem; [|done]. exists p, k. rewrite lookup_insert_eq. split_and!; done || lia.
  - intros j a Hj Hji Ha. rewrite Hmo; [done|]. intros (k & Hk & ->)%rest_of_page_elem; [|done].
    destruct (free_blk _ _ _ _ H j _ Hj Ha) as (k' & Hq & _). rewrite (proj1 (blk_page p i k Hi Hpr ltac:(lia))) in Hq. congruence.
  - intros q Hq. rewrite Ep. unfold s2, upd_kpage. cbn. by rewrite !lookup_insert_ne, Rpp, lookup_insert_ne by done.
  - intros q Hq. rewrite Hnf, HF. by destruct (Z.eqb_spec q p).
Qed.

Lemma fresh_live G L F s i p :
  heap_ok G L F s -> 0 <= i < MAXBS -> 0 <= p <= 65535 -> G !! p = None ->
  (forall r n j, L !! r = Some n -> 0 <= j < n -> r + j <> p) -> F i = [] ->
  (forall m, ~ live G L F (blk p i 0) m) /\
  forall x m, live (<[p := i]> G) L (fupd F i (rest_of_page p i)) x m <-> live G L F x m \/ x = blk p i 0 /\ m = bsz i.
Proof.
  intros H Hi Hp HG HL HF. destruct (class_size i Hi) as (_ & Hn & _).
  assert (forall k, 0 <= k < nblk i -> kva2ppn (blk p i k) = p) as Hpg by (intros k Hk; exact (proj1 (blk_page p i k Hi Hp Hk))).
  split.
  - intros m Hl. apply (live_page _ _ _ _ H) in Hl. rewrite Hpg in Hl by lia.
    destruct Hl as [(j & k & Hq & _)|(n & Hr & _)]; [congruence|]. pose proof (large_range _ _ _ _ H _ _ Hr).
    apply (HL p n 0 Hr); lia.
  - intros x m. split.
    + intros [(q & j & k & Hq & Hk & -> & Hf & ->)|Hl]; [|left; by right]. destruct (decide (q = p)) as [->|Hqp].
      * rewrite lookup_insert_eq in Hq. injection Hq as <-. rewrite fupd_eq, rest_of_page_elem in Hf by done.
        destruct (decide (k = 0)) as [->|]; [by right|]. destruct Hf. exists k. split; [lia|done].
      * rewrite lookup_insert_ne in Hq by done. left. left. exists q, j, k. split_and!; try done; try lia.
        unfold fupd in Hf. destruct (Z.eqb_spec j i) as [->|]; [rewrite HF; set_solver|done].
    + intros [[(q & j & k & Hq & Hk & -> & Hf & ->)|Hl]|[-> ->]]; [left|by right|left].
      * assert (q <> p) by congruence. exists q, j, k. rewrite lookup_insert_ne by done. split_and!; try done; try lia.
        unfold fupd. destruct (Z.eqb_spec j i) as [->|]; [|done]. rewrite rest_of_page_elem by done. intros (k' & Hk' & E).
        apply (f_equal kva2ppn) in E. rewrite Hpg, (small_blk _ _ _ _ H q i k Hq Hk) in E by lia. done.
      * exists p, i, 0. rewrite lookup_insert_eq, fupd_eq, rest_of_page_elem by done. split_and!; try done; try lia.
        intros (k & Hk & E%blk_inj); [lia|done].
Qed.

(** ** Runs of pages *)

(** What a loop over pages [a .. a + k - 1] leaves alone. *)
Record run_frame (a k : Z) (s s' : kheap) : Prop := mkRunFrame {
  rf_ok : pool_ok (h_pool s');
  rf_np : nppage (h_pool s') = nppage (h_pool s);
  rf_rest : h_bs s' = h_bs s /\ h_mask s' = h_mask s /\ h_mem s' = h_mem s;
  rf_out : forall q, ~ (a <= q < a + k) -> ppages (h_pool s') !! q = ppages (h_pool s) !! q;
  rf_pins : same_pins s s' }.

Definition counted (q : Z) (s : kheap) : Prop := exists bs, kpage q bs (fun _ => True) s.

Lemma run_frame_step a k s s1 s' :
  run_frame a 1 s s1 -> run_frame (a + 1) k s1 s' -> 0 <= k -> run_frame a (k + 1) s s'.
Proof.
  intros [_ N1 (B1 & M1 & E1) O1 S1] [K2 N2 (B2 & M2 & E2) O2 S2] Hk.
  split; [done|congruence|by rewrite B2, M2, E2| |by eapply same_pins_trans]. intros q Hq. rewrite O2, O1 by lia. done.
Qed.

(** A loop that treats each page of the run by itself. *)
Lemma run_loop (body : Z -> M kheap unit) (R : Z -> kheap -> Prop) k a s :
  (forall q t t', R q t -> ppages (h_pool t') !! q = ppages (h_pool t) !! q -> R q t') ->
  (forall q t, pool_ok (h_pool t) -> counted q t -> wp (body q) t (fun _ t' => run_frame q 1 t t' /\ R q t')) ->
  pool_ok (h_pool s) -> (forall q, a <= q < a + Z.of_nat k -> counted q s) ->
  wp (mfor body (zseq a k)) s (fun _ s' => run_frame a (Z.of_nat k) s s' /\ forall q, a <= q < a + Z.of_nat k -> R q s').
Proof.
  intros HR Hbody. revert a s. induction k as [|k IH]; intros a s Hok Hq.
  - apply wp_ret. split; [|lia]. split; try done. apply same_pins_refl.
  - rewrite zseq_S. cbn [mfor]. apply wp_bind. eapply wp_mono; [apply Hbody; [done|]; apply Hq; lia|].
    intros [] s1 [H1 R1]. eapply wp_mono; [apply IH; [apply H1|]|].
    { intros q Hr. destruct (Hq q ltac:(lia)) as [bs Hk]. exists bs. eapply kpage_other; [|exact Hk]. apply H1. lia. }
    intros [] s' [H2 R2]. replace (Z.of_nat (S k)) with (Z.of_nat k + 1) by lia.
    split; [eapply run_frame_step; [done..|lia]|].
    intros q Hr. destruct (decide (q = a)) as [->|]; [|apply R2; lia]. eapply HR; [exact R1|]. apply H2. lia.
Qed.

Lemma mark_page v q s : pool_ok (h_pool s) -> counted q s ->
  wp (pp_bs_set q v) s (fun _ s' => run_frame q 1 s s' /\ kpage q (u16 v) (fun _ => True) s').
Proof.
  intros Hok (bs & pp & l & n & Hp & Hst & Hu & _). eapply wp_pp_bs_set; [done..|]. split.
  - split; [by eapply counts_pool_ok|done|done| |by eapply same_pins_put, keeps_page_eq]. intros x Hx. cbn. rewrite lookup_insert_ne; [done|lia].
  - eexists _, l, n. split_and!; [apply lookup_insert_eq|done..].
Qed.

Lemma release_page q s : pool_ok (h_pool s) -> counted q s ->
  wp (pp_bs_set q 0 ;; in_hp (ppage_free q)) s (fun _ s' => run_frame q 1 s s' /\ True).
Proof.
  intros Hok (bs & pp & l & n & Hp & Hst & Hu & _). apply wp_bind. eapply wp_pp_bs_set; [done..|].
  apply wp_zoom. eapply ppage_free_run; [apply lookup_insert_eq|reflexivity|]. cbn [Z.eqb u16 wrapu].
  change (u16 0) with 0. set (pp' := pp_set_u (PV l 0 n) pp). cbn [h_pool set_hpool upd_kpage].
  pose proof (freed_ppages q pp' (put_page q pp' (h_pool s))) as [Ep En].
  split; [|done]. split; [|exact En|done| |].
  - change (pool_ok (unref q pp' 0 (h_pool s))). eapply (unref_pool_ok q pp); try done; by rewrite Hst.
  - intros x Hx. change (ppages (freed q pp' (put_page q pp' (h_pool s))) !! x = ppages (h_pool s) !! x).
    rewrite Ep. cbn. rewrite !lookup_insert_ne; [done|lia..].
  - apply (same_pins_put q pp (pp_set_status PP_FREE (pp_set_u PLink pp'))); [|done|by apply keeps_page_eq].
    change (ppages (freed q pp' (put_page q pp' (h_pool s))) = <[q := pp_set_status PP_FREE (pp_set_u PLink pp')]> (ppages (h_pool s))).
    rewrite Ep. cbn. by rewrite insert_insert_eq.
Qed.

(** Pages outside [G] and [L] change, the run [p] is added or dropped. *)
Lemma heap_ok_run G L F s L' s' a k :
  heap_ok G L F s -> run_frame a k s s' -> (forall q, a <= q < a + k -> G !! q = None) ->
  (forall r n, L' !! r = Some n -> L !! r = Some n /\ (forall j, 0 <= j < n -> ~ (a <= r + j < a + k)) \/
     r = a /\ n = k /\ 2 <= n <= 255 /\ (forall r' n' j, L !! r' = Some n' -> 0 <= j < n' -> ~ (a <= r' + j < a + k)) /\
     forall j, 0 <= j < n -> kpage (r + j) (if j =? 0 then 256 * n + MAXBS else MAXBS) (fun _ => True) s') ->
  heap_ok G L' F s'.
Proof.
  intros H [Hok Hnp (Hbs & Hm & Hmem) Hout _] HG HL. split.
  - done.
  - rewrite Hnp. apply H.
  - unfold masks_ok. rewrite Hm. apply H.
  - intros i Hi. destruct (ho_class _ _ _ _ H i Hi) as [Hb Hnd Hblk]. split; [by rewrite Hbs, Hmem|done|done].
  - intros p i Hp. destruct (ho_small _ _ _ _ H p i Hp) as [Hi Hk]. split; [done|]. eapply kpage_other; [|exact Hk].
    apply Hout. intros Hr. rewrite (HG p Hr) in Hp. done.
  - intros r n Hr. destruct (HL r n Hr) as [[Hr0 Hd]|(-> & -> & Hn & _ & Hk)]; [|done].
    destruct (ho_large _ _ _ _ H r n Hr0) as [Hn Hk]. split; [done|]. intros j Hj. eapply kpage_other; [|by apply Hk].
    apply Hout, Hd, Hj.
  - intros r n j Hr Hj. destruct (HL r n Hr) as [[Hr0 _]|(-> & -> & _)]; [by eapply (ho_sl _ _ _ _ H)|apply HG; lia].
  - intros r n j r' n' j' Hr Hr' Hj Hj' E.
    destruct (HL r n Hr) as [[Hr0 Hd]|(-> & -> & _ & Hd & _)], (HL r' n' Hr') as [[Hr0' Hd']|(-> & -> & _ & Hd' & _)]; [..|done].
    + by eapply (ho_ll _ _ _ _ H).
    + by destruct (Hd' r n j Hr0 Hj); lia.
    + by destruct (Hd r' n' j' Hr0' Hj'); lia.
Qed.

Definition npages (size : Z) : Z := (size + NBPG - 1) / NBPG.

Lemma npages_range size : NBPG < size <= 255 * NBPG -> 2 <= npages size <= 255 /\ size <= npages size * NBPG.
Proof.
  intros Hs. unfold npages, NBPG in *. pose proof (Z.div_mod (size + 4096 - 1) 4096 ltac:(lia)).
  pose proof (Z.mod_pos_bound (size + 4096 - 1) 4096 ltac:(lia)). lia.
Qed.

Lemma run_word n : 2 <= n <= 255 ->
  u16 (Z.lor (Z.shiftl n 8) MAXBS) = 256 * n + MAXBS /\ Z.land (256 * n + MAXBS) 0xff = MAXBS /\ Z.shiftr (256 * n + MAXBS) 8 = n.
Proof.
  intros Hn. assert (forallb (fun n => (u16 (Z.lor (Z.shiftl n 8) MAXBS) =? 256 * n + MAXBS) &&
    (Z.land (256 * n + MAXBS) 0xff =? MAXBS) && (Z.shiftr (256 * n + MAXBS) 8 =? n)) (zseq 2 254) = true) as H
    by (vm_compute; reflexivity).
  rewrite forallb_forall in H. specialize (H n ltac:(apply list_elem_of_In, zseq_elem; lia)).
  rewrite !andb_true_iff, !Z.eqb_eq in H. tauto.
Qed.

(** The pages [ppage_alloc_n] hands out. *)
Lemma run_taken_counted p n P s :
  run_ok (h_pool s) p (Z.to_nat n) = true -> 0 <= n -> run_taken p n PP_KERNEL (h_pool s) P ->
  forall q, p <= q < p + n -> (exists pp, ppages (h_pool s) !! q = Some pp /\ pp_status pp = PP_FREE) /\ counted q (set_hpool P s).
Proof.
  intros Hrun Hn [_ Hq] q Hr. rewrite run_ok_spec in Hrun.
  destruct (reclaimable_free _ _ (Hrun q ltac:(lia))) as (pp & Hp & Hst). split; [eauto|].
  exists 0, (initpp PP_KERNEL pp), [], 0. cbn. rewrite Hq, Hp, bool_decide_true by lia. done.
Qed.

Lemma malloc_run G L F s size :
  heap_ok G L F s -> NBPG < size <= 255 * NBPG ->
  wp (malloc size) s (fun r s' => (r = 0 /\ s' = s /\ forall p, run_ok (h_pool s) p (Z.to_nat (npages size)) = false) \/
    exists p, r = pp2va p /\ 0 <= p <= 65535 /\
      (forall q, p <= q < p + npages size -> G !! q = None /\
         forall r n j, L !! r = Some n -> 0 <= j < n -> r + j <> q) /\
      heap_ok G (<[p := npages size]> L) F s' /\ h_mem s' = h_mem s /\ same_pins s s').
Proof.
  intros H Hs. destruct (npages_range size Hs) as [Hn Hfit]. destruct (run_word _ Hn) as (Ew & _).
  unfold malloc. destruct (Z.eqb_spec size 0); [unfold NBPG in *; lia|]. destruct (Z.ltb_spec NBPG size); [|lia].
  rewrite u32_small by (unfold NBPG in *; lia). fold (npages size). set (k := npages size) in *.
  apply wp_bind, wp_zoom. eapply wp_mono; [apply ppage_alloc_n_spec; [apply H|done]|].
  rewrite Z.max_r by lia. intros rp P [HokP [(p & -> & Hrun & Htk)|(-> & -> & Hno)]]; cbn [Z.ltb Z.compare].
  2: { apply wp_ret. left. by destruct s. }
  pose proof (run_taken_counted p k P s Hrun ltac:(lia) Htk) as Hc. destruct Htk as [Hnp Hq].
  assert (forall q, p <= q < p + k -> G !! q = None /\ forall r n j, L !! r = Some n -> 0 <= j < n -> r + j <> q) as Hun.
  { intros q Hr. destruct (Hc q Hr) as [(pp & Hp & Hst) _]. by apply (free_page_unused _ _ _ _ H q pp). }
  assert (run_frame p k s (set_hpool P s)) as F0.
  { split; [done|done|done| |].
    - intros q Hr. cbn. rewrite Hq, bool_decide_false by done. by rewrite option_fmap_id.
    - intros q. cbn. rewrite Hq. destruct (bool_decide _), (ppages (h_pool s) !! q); constructor; by split; [|auto]. }
  apply wp_bind. eapply wp_mono; [apply mark_page; [done|]; apply Hc; lia|]. intros [] s1 [F1 K1]. rewrite Ew in K1.
  apply wp_bind. eapply wp_mono; [apply (run_loop _ (fun q => kpage q MAXBS (fun _ => True)))|].
  - intros q t t' Hk E. by eapply kpage_other.
  - intros q t Hok Hct. change MAXBS with (u16 MAXBS) at 2. by apply mark_page.
  - apply F1.
  - intros q Hr. destruct (Hc q ltac:(lia)) as [_ [bs Hk]]. exists bs. eapply kpage_other; [|exact Hk]. apply F1. lia.
  - intros [] s2 [F2 K2]. apply wp_ret. right. exists p. rewrite Z2Nat.id in F2, K2 by lia.
    assert (0 <= p <= 65535) as Hpr.
    { destruct (Hc p ltac:(lia)) as [(pp & Hp & _) _]. pose proof (ho_pool _ _ _ _ H) as [Hpg _].
      assert (0 <= p < nppage (h_pool s)) by (apply (pg_dom _ _ Hpg); eauto). pose proof (ho_np _ _ _ _ H). lia. }
    assert (run_frame p k s s2) as Ft.
    { destruct F0 as [_ N0 (B0 & M0 & E0) O0 S0], F1 as [_ N1 (B1 & M1 & E1) O1 S1], F2 as [K N2 (B2 & M2 & E2) O2 S2].
      split; [done|congruence|split_and!; congruence| |by eauto using same_pins_trans].
      intros q Hr. rewrite O2, O1, O0 by lia. done. }
    split_and!; try done; try lia; [|apply Ft|apply Ft].
    eapply (heap_ok_run _ _ _ s _ _ p k); [done|done|by intros; apply Hun|].
    intros r n1 Hr. destruct (decide (p = r)) as [<-|Hne].
    + rewrite lookup_insert_eq in Hr. injection Hr as <-. right. split_and!; try done; try lia.
      { intros r' n' j Hr' Hj Hin. by apply (proj2 (Hun _ Hin) r' n' j). }
      intros j Hj. destruct (Z.eqb_spec j 0) as [->|]; [|apply K2; lia].
      rewrite Z.add_0_r. eapply kpage_other; [|exact K1]. apply F2. lia.
    + rewrite lookup_insert_ne in Hr by done. left. split; [done|]. intros j Hj Hin. by apply (proj2 (Hun _ Hin) r n1 j).
Qed.

Lemma run_live G L F s p n :
  heap_ok G L F s -> 0 <= p <= 65535 -> 0 < n -> (forall q, p <= q < p + n -> G !! q = None /\
    forall r n j, L !! r = Some n -> 0 <= j < n -> r + j <> q) ->
  (forall m, ~ live G L F (pp2va p) m) /\
  forall x m, live G (<[p := n]> L) F x m <-> live G L F x m \/ x = pp2va p /\ m = n * NBPG.
Proof.
  intros H Hp Hn Hun. destruct (Hun p ltac:(lia)) as [HG HL]. destruct (pp2va_range p Hp) as [Ek _].
  assert (L !! p = None) as HLp.
  { destruct (L !! p) as [k|] eqn:E; [|done]. pose proof (large_range _ _ _ _ H _ _ E). destruct (HL p k 0 E); lia. }
  split.
  - intros m Hl. apply (live_page _ _ _ _ H) in Hl. rewrite Ek in Hl. destruct Hl as [(? & ? & ? & _)|(? & ? & _)]; congruence.
  - intros x m. unfold live. split.
    + intros [Hl|(r & k & Hr & -> & ->)]; [by left; left|]. destruct (decide (p = r)) as [<-|Hne].
      * rewrite lookup_insert_eq in Hr. injection Hr as <-. by right.
      * rewrite lookup_insert_ne in Hr by done. left. right. eauto.
    + intros [[Hl|(r & k & Hr & -> & ->)]|[-> ->]]; [by left|right; exists r, k|right; exists p, n].
      * rewrite lookup_insert_ne by congruence. done.
      * by rewrite lookup_insert_eq.
Qed.

Lemma free_run G L F s p n :
  heap_ok G L F s -> L !! p = Some n ->
  wp (free (pp2va p)) s (fun _ s' => heap_ok G (delete p L) F s' /\ h_mem s' = h_mem s /\ same_pins s s').
Proof.
  intros H Hp. destruct (large_range _ _ _ _ H p n Hp) as (Hp0 & Hpn & _).
  destruct (ho_large _ _ _ _ H p n Hp) as [Hn Hk]. destruct (pp2va_range p ltac:(lia)) as [Ek _].
  destruct (Hk 0 ltac:(lia)) as (pp & l & c & Hpp & Hst & Hu & _). rewrite Z.add_0_r in Hpp. cbn [Z.eqb] in Hu.
  destruct (run_word n Hn) as (_ & Em & Es). pose proof (ho_pool _ _ _ _ H) as [Hpg _].
  unfold free. destruct (Z.eqb_spec (pp2va p) 0); [unfold pp2va, KERNBASE, NBPG in *; lia|].
  apply wp_bind, wp_kva2pp; rewrite Ek; [apply (pg_dom _ _ Hpg); eauto|].
  apply wp_bind. eapply wp_pp_counts; [done..|]. cbn [fst]. rewrite Em, Es, Z.eqb_refl.
  eapply wp_mono; [apply (run_loop _ (fun _ _ => True))|].
  - done.
  - intros q t Hok Hc. by apply release_page.
  - apply H.
  - intros q Hr. replace q with (p + (q - p)) by lia. eexists. apply Hk. lia.
  - intros [] s' [Hf _]. rewrite Z2Nat.id in Hf by lia. split; [|split; apply Hf]. eapply heap_ok_run; [done..| |].
    + intros q Hr. replace q with (p + (q - p)) by lia. apply (ho_sl _ _ _ _ H p n); [done|lia].
    + intros r m [Hr Hne]%lookup_delete_Some. left. split; [done|]. intros j Hj Hin.
      apply Hr. eapply (ho_ll _ _ _ _ H p n (r + j - p) r m j); done || lia.
Qed.

Lemma free_run_live G L F s p n :
  heap_ok G L F s -> L !! p = Some n ->
  forall x m, live G (delete p L) F x m <-> live G L F x m /\ x <> pp2va p.
Proof.
  intros H Hp x m. destruct (large_range _ _ _ _ H p n Hp) as (Hp0 & Hpn & Hn).
  assert (G !! p = None) as HG.
  { rewrite <- (Z.add_0_r p). apply (ho_sl _ _ _ _ H p n); [done|lia]. }
  split.
  - intros [(q & i & k & Hq & Hk & -> & Hf & ->)|(q & k & [Hne Hq]%lookup_delete_Some & -> & ->)].
    + split; [left; by exists q, i, k|]. intros E. apply (f_equal kva2ppn) in E.
      rewrite (small_blk _ _ _ _ H q i k Hq Hk), (proj1 (pp2va_range p ltac:(lia))) in E. congruence.
    + split; [right; eauto|]. unfold pp2va, NBPG. lia.
  - intros [[Hl|(q & k & Hq & -> & ->)] Hne]; [by left|right]. exists q, k. rewrite lookup_delete_ne by congruence. done.
Qed.

(** ** Giving back a page whose blocks are all free *)

Definition off_page (ptr : Z) (l : list Z) : list Z := filter (fun a => PGNO a <> PGNO ptr) l.

(** The cell that holds the pointer under the cursor. *)
Definition cell (i : Z) (r2 : option Z) (s : kheap) : option Z :=
  match r2 with None => bs_list <$> h_bs s !! i | Some a => h_mem s !! a end.

(** The loop unlinks exactly the blocks on the page, without running out of
    fuel, and touches no other word. *)
Record unlinked (i : Z) (r2 : option Z) (l : list Z) (b : blocksize) (s s' : kheap) : Prop := mkUnlinked {
  ul_rest : h_pool s' = h_pool s /\ h_mask s' = h_mask s;
  ul_bs : exists r, h_bs s' = <[i := mkBs r (bs_free b) (bs_bppg b)]> (h_bs s);
  ul_head : r2 <> None -> h_bs s' = h_bs s;
  ul_mem : forall a, a ∉ l -> r2 <> Some a -> h_mem s' !! a = h_mem s !! a }.

Lemma recycle_run i ptr b fuel l r r2 s :
  (length l <= fuel)%nat -> NoDup l -> chain (h_mem s) r l -> cell i r2 s = Some r ->
  (forall a, r2 = Some a -> a ∉ l) -> h_bs s !! i = Some b ->
  wp (recycle fuel i ptr r r2) s (fun _ s' => unlinked i r2 l b s s' /\
    exists r', cell i r2 s' = Some r' /\ chain (h_mem s') r' (off_page ptr l)).
Proof.
  revert l r r2 s b. induction fuel as [|fuel IH]; intros l r r2 s b Hlen Hnd Hc Hr2 Hn2 Hb.
  all: assert (unlinked i r2 [] b s s) as Hid by (split; [done|exists (bs_list b); by rewrite insert_id by (by destruct b)|done|done]).
  - destruct l; [|cbn in Hlen; lia]. cbn in Hc. subst r. apply wp_ret. split; [done|]. by exists 0.
  - destruct l as [|a l]; [cbn in Hc; subst r; apply wp_ret; split; [done|]; by exists 0|].
    destruct Hc as (-> & Ha & n & Hn & Hc). apply NoDup_cons in Hnd as [Hal Hnd]. cbn [recycle]. cbn in Hlen.
    destruct (Z.eqb_spec a 0); [done|]. unfold off_page. rewrite filter_cons.
    destruct (Z.eqb_spec (PGNO a) (PGNO ptr)) as [Epg|Epg].
    + rewrite decide_False by naive_solver. apply wp_bind. eapply wp_load; [done|]. apply wp_bind.
      assert (r2 <> Some a) as Hr2a by (intros ->; by destruct (Hn2 a eq_refl); set_solver).
      assert (wp (cell_write i r2 n) s (fun _ s1 => unlinked i r2 [] b s s1 /\ cell i r2 s1 = Some n)) as Hw.
      { destruct r2 as [c|]; cbn [cell_write].
        - apply wp_modify. split; [|apply lookup_insert_eq]. split; [done| |done|].
          + exists (bs_list b). cbn. rewrite insert_id; [done|]. by destruct b.
          + intros x _ Hx. cbn. apply lookup_insert_ne. congruence.
        - apply wp_bind. eapply wp_get_bs; [done|]. apply wp_modify. cbn. rewrite lookup_insert_eq. split; [|done].
          split; try done. cbn. eauto. }
      eapply wp_mono; [exact Hw|]. intros [] s1 [[[Hp1 Hm1] [r1 Hb1] Hh1 Hmem1] Hc1].
      apply wp_bind. eapply wp_load; [rewrite Hmem1; [done|set_solver|done]|].
      eapply wp_mono; [apply (IH l n r2 s1 (mkBs r1 (bs_free b) (bs_bppg b))); try done; [lia| | |]|].
      * eapply chain_frame; [exact Hc|]. intros x Hx. apply Hmem1; [set_solver|]. intros ->. destruct (Hn2 x eq_refl). set_solver.
      * intros x ->. specialize (Hn2 x eq_refl). set_solver.
      * rewrite Hb1. apply lookup_insert_eq.
      * intros [] s2 [[[Hp2 Hm2] [r3 Hb2] Hh2 Hmem2] Hc2]. split; [|done]. split.
        { split; congruence. }
        { exists r3. rewrite Hb2, Hb1. cbn. by rewrite insert_insert_eq. }
        { intros Hr. rewrite Hh2, Hh1; done. }
        { intros x Hx Hx2. rewrite Hmem2, Hmem1; [done|set_solver|done|set_solver|done]. }
    + rewrite decide_True by done. apply wp_bind. eapply wp_load; [done|].
      eapply wp_mono; [apply (IH l n (Some a) s b); try done; [lia|intros ? [= <-]; done]|].
      intros [] s2 [[[Hp2 Hm2] [r3 Hb2] Hh2 Hmem2] (r' & Hr' & Hc')]. specialize (Hh2 ltac:(done)). split.
      * split; [done|eauto|done|]. intros x Hx Hx2. apply Hmem2; [set_solver|]. intros [= ->]. set_solver.
      * exists a. split; [|cbn [chain]; split_and!; eauto].
        destruct r2 as [c|]; cbn in *; [|by rewrite Hh2]. specialize (Hn2 c eq_refl).
        rewrite Hmem2; [done|set_solver|]. intros [= ->]. set_solver.
Qed.

Lemma off_page_facts G L F s p i ptr :
  heap_ok G L F s -> G !! p = Some i -> PGNO ptr = 0xf0000 + p ->
  (forall a, a ∈ off_page ptr (F i) <-> a ∈ F i /\ kva2ppn a <> p) /\
  zlen (off_page ptr (F i)) = zlen (F i) - nfree p (F i) /\
  forall q, q <> p -> nfree q (off_page ptr (F i)) = nfree q (F i).
Proof.
  intros H Hp Hptr. destruct (small_page _ _ _ _ H p i Hp) as [Hi _].
  assert (forall a, a ∈ F i -> PGNO a <> PGNO ptr <-> kva2ppn a <> p) as Hpg.
  { intros a Ha. destruct (free_blk _ _ _ _ H i a Hi Ha) as (k & Hq & Hk & E).
    destruct (small_page _ _ _ _ H _ i Hq) as [_ Hr]. destruct (blk_page _ _ _ Hi Hr Hk) as (_ & Eg & _).
    rewrite <- E in Eg. rewrite Eg, Hptr. lia. }
  split; [intros a; unfold off_page; rewrite list_elem_of_filter; naive_solver|].
  assert (forall l, (forall a, a ∈ l -> a ∈ F i) -> zlen (off_page ptr l) = zlen l - nfree p l /\
            forall q, q <> p -> nfree q (off_page ptr l) = nfree q l) as Hl; [|by apply Hl].
  induction l as [|a l IH]; intros Hin; [done|].
  destruct IH as [IH1 IH2]; [intros; apply Hin; set_solver|]. pose proof (Hpg a (Hin a ltac:(set_solver))) as Ha.
  unfold off_page. rewrite filter_cons. fold (off_page ptr l). rewrite zlen_cons, nfree_cons. unfold in_page.
  destruct (decide (PGNO a <> PGNO ptr)) as [Hne|Heq].
  - rewrite zlen_cons, IH1. destruct (Z.eqb_spec (kva2ppn a) p); [naive_solver|]. cbn [b2z]. split; [lia|].
    intros q Hq. by rewrite !nfree_cons, IH2.
  - rewrite IH1. assert (kva2ppn a = p) as -> by (destruct (decide (kva2ppn a = p)); naive_solver).
    rewrite Z.eqb_refl. cbn [b2z]. split; [lia|]. intros q Hq. rewrite nfree_cons, IH2 by done.
    unfold in_page. destruct (Z.eqb_spec (kva2ppn a) q); cbn; [naive_solver|lia].
Qed.

Lemma give_back G L F s p i ptr b :
  heap_ok G L F s -> G !! p = Some i -> PGNO ptr = 0xf0000 + p -> nfree p (F i) = nblk i -> h_bs s !! i = Some b ->
  wp (fuel <- gets (fun s => size (h_mem s)) ;;
      recycle fuel i ptr (bs_list b) None ;;
      b <- get_bs i ;;
      put_bs i (mkBs (bs_list b) (u32 (bs_free b - bs_bppg b)) (bs_bppg b)) ;;
      pp_bs_set p 0 ;; in_hp (ppage_free p)) s
    (fun _ s' => heap_ok (delete p G) L (fupd F i (off_page ptr (F i))) s' /\
       (forall a, (a ∉ F i) -> h_mem s' !! a = h_mem s !! a) /\ same_pins s s').
Proof.
  intros H Hp Hptr Hall Hb. destruct (small_page _ _ _ _ H p i Hp) as [Hi Hpr].
  destruct (off_page_facts _ _ _ _ p i ptr H Hp Hptr) as (Hel & Hlen & Hnf). rewrite Hall in Hlen.
  destruct (ho_class _ _ _ _ H i Hi) as [(r & Hb0 & Hc) Hnd Hblk]. assert (b = mkBs r (zlen (F i)) (nblk i)) as -> by congruence.
  destruct (ho_small _ _ _ _ H p i Hp) as (_ & pp & vl & c & Hpp & Hst & Hu & _).
  pose proof (class_len _ _ _ _ H i Hi) as Hcl. pose proof (zlen_nonneg (off_page ptr (F i))).
  destruct (class_size i Hi) as (_ & Hnb & _).
  apply wp_bind, wp_gets, wp_bind. cbn [bs_list].
  eapply wp_mono; [eapply (recycle_run i ptr _ _ (F i) r None s); [by eapply chain_size|done|done|by cbn; rewrite Hb|done|exact Hb]|].
  intros [] s1 [[[Hp1 Hm1] [r1 Hb1] _ Hmem1] (r' & Hr' & Hc')]. cbn in Hr'. rewrite Hb1, lookup_insert_eq in Hr'.
  injection Hr' as ->. cbn [bs_free bs_bppg] in Hb1.
  apply wp_bind. eapply wp_get_bs; [rewrite Hb1; apply lookup_insert_eq|]. cbn [bs_list bs_free bs_bppg].
  rewrite <- Hlen, u32_small by lia. apply wp_bind, wp_modify.
  match goal with |- wp _ ?st _ => set (s2 := st) end.
  assert (counted p s2) as Hct by (exists i, pp, vl, c; unfold s2; cbn; by rewrite Hp1).
  eapply wp_mono; [apply release_page; [unfold s2; cbn; rewrite Hp1; apply H|done]|].
  intros [] s3 [[Hok3 Hn3 (Hb3 & Hm3 & He3) Ho3 Hs3] _].
  split; [|split].
  2: { intros a Ha. rewrite He3. unfold s2. cbn. by apply Hmem1. }
  2: { intros q. specialize (Hs3 q). unfold s2 in Hs3. cbn in Hs3. by rewrite Hp1 in Hs3. }
  eapply (heap_ok_upd G L F s _ _ i _ p); try done.
  - rewrite Hn3. unfold s2. cbn. by rewrite Hp1.
  - rewrite Hm3. done.
  - intros q Hq. by rewrite lookup_delete_ne.
  - by left.
  - by eapply small_not_run.
  - left. apply lookup_delete_eq.
  - split; [|by apply NoDup_filter|].
    + exists r'. rewrite Hb3, He3. unfold s2. cbn. rewrite lookup_insert_eq. done.
    + intros a [Ha Hne]%Hel. destruct (free_blk _ _ _ _ H i a Hi Ha) as (k & Hq & Hk & E).
      exists (kva2ppn a), k. rewrite lookup_delete_ne by done. done.
  - intros j Hj. rewrite Hb3. unfold s2. cbn. rewrite Hb1, !lookup_insert_ne by done. done.
  - intros j a Hj Hji Ha. rewrite He3. unfold s2. cbn. apply Hmem1; [|done]. intros Hai.
    destruct (free_blk _ _ _ _ H j a Hj Ha) as (? & ? & _), (free_blk _ _ _ _ H i a Hi Hai) as (? & ? & _). congruence.
  - intros q Hq. rewrite Ho3 by lia. unfold s2. cbn. by rewrite Hp1.
Qed.

Lemma give_back_live G L F s p i ptr :
  heap_ok G L F s -> G !! p = Some i -> PGNO ptr = 0xf0000 + p -> nfree p (F i) = nblk i ->
  forall x m, live (delete p G) L (fupd F i (off_page ptr (F i))) x m <-> live G L F x m.
Proof.
  intros H Hp Hptr Hall x m. destruct (small_page _ _ _ _ H p i Hp) as [Hi Hpr].
  destruct (off_page_facts _ _ _ _ p i ptr H Hp Hptr) as (Hel & _).
  destruct (nfree_bound _ _ _ _ p i H Hp) as [_ Hfull]. specialize (Hfull Hall).
  unfold live. apply or_iff_compat_r. split.
  - intros (q & j & k & [Hne Hq]%lookup_delete_Some & Hk & -> & Hf & ->). exists q, j, k. split_and!; try done; try lia.
    unfold fupd in Hf. destruct (Z.eqb_spec j i) as [->|]; [|done]. rewrite Hel, (small_blk _ _ _ _ H q i k Hq Hk) in Hf. naive_solver.
  - intros (q & j & k & Hq & Hk & -> & Hf & ->). exists q, j, k. rewrite lookup_delete_ne.
    2: { intros ->. assert (j = i) as -> by congruence. by apply Hf, Hfull. }
    split_and!; try done; try lia. unfold fupd. destruct (Z.eqb_spec j i) as [->|]; [|done]. rewrite Hel. naive_solver.
Qed.

(** ** Freeing one block *)

(** The block is on its list and the page counts it. *)
Lemma push_ok G L F s p i k a pp vl c r :
  heap_ok G L F s -> G !! p = Some i -> 0 <= k < nblk i -> a = blk p i k -> (a ∉ F i) ->
  ppages (h_pool s) !! p = Some pp -> pp_status pp = PP_KERNEL -> pp_u pp = PV vl i c -> c = nfree p (F i) ->
  h_bs s !! i = Some (mkBs r (zlen (F i)) (nblk i)) -> chain (h_mem s) r (F i) ->
  let s1 := upd_kpage s p (pp_set_u (PV vl i (u16 (c + 1))) pp) in
  let s2 := set_hmem (<[a := r]> (h_mem s1)) s1 in
  heap_ok G L (fupd F i (a :: F i)) (set_hbs (<[i := mkBs a (u32 (zlen (F i) + 1)) (nblk i)]> (h_bs s2)) s2).
Proof.
  intros H Hp Hk -> Ha Hpp Hst Hu -> Hb Hc s1 s2. destruct (small_page _ _ _ _ H p i Hp) as [Hi Hpr].
  destruct (blk_page p i k Hi Hpr Hk) as (Ek & _ & Hpos & _). pose proof (class_len _ _ _ _ H i Hi) as Hcl.
  destruct (nfree_bound _ _ _ _ p i H Hp) as [Hnf _]. destruct (class_size i Hi) as (_ & Hnb & _).
  assert (in_page p (blk p i k) = true) as Hin by (apply Z.eqb_eq; done).
  eapply (heap_ok_upd G L F s G _ i _ p); try done.
  - by eapply counts_pool_ok; [apply H|..].
  - by left.
  - by eapply small_not_run.
  - right. split; [done|]. eexists _, vl, _. split_and!; [apply lookup_insert_eq|done|done|].
    rewrite nfree_cons, Hin. cbn [b2z]. apply u16_small. lia.
  - split.
    + exists (blk p i k). cbn. rewrite lookup_insert_eq, zlen_cons, u32_small by lia. split; [done|].
      split_and!; [done|lia|]. exists r. rewrite lookup_insert_eq. split; [done|].
      eapply chain_frame; [exact Hc|]. intros x Hx. apply lookup_insert_ne. set_solver.
    + apply NoDup_cons. split; [done|]. apply (ho_class _ _ _ _ H i Hi).
    + intros x [->|Hx]%elem_of_cons; [by exists p, k|]. by apply (ho_class _ _ _ _ H i Hi).
  - intros j Hj. cbn. by rewrite lookup_insert_ne.
  - intros j x Hj Hji Hx. cbn. apply lookup_insert_ne. intros <-.
    destruct (free_blk _ _ _ _ H j _ Hj Hx) as (? & Hq & _). rewrite Ek in Hq. congruence.
  - intros q Hq. cbn. by rewrite lookup_insert_ne.
  - intros q Hq. rewrite nfree_cons. unfold in_page. rewrite Ek. destruct (Z.eqb_spec p q); [congruence|]. cbn. lia.
Qed.

Lemma push_live G L F s p i k :
  heap_ok G L F s -> G !! p = Some i -> 0 <= k < nblk i ->
  forall x m, live G L (fupd F i (blk p i k :: F i)) x m <-> live G L F x m /\ x <> blk p i k.
Proof.
  intros H Hp Hk x m. split.
  - intros [(q & j & k' & Hq & Hk' & -> & Hf & ->)|(r & n & Hr & -> & ->)].
    + unfold fupd in Hf. destruct (Z.eqb_spec j i) as [->|Hji].
      * apply not_elem_of_cons in Hf as [Hne Hf]. split; [left; by exists q, i, k'|done].
      * split; [left; by exists q, j, k'|]. intros E. apply (f_equal kva2ppn) in E.
        rewrite (small_blk _ _ _ _ H q j k' Hq Hk'), (small_blk _ _ _ _ H p i k Hp Hk) in E. congruence.
    + split; [right; eauto|]. intros E. apply (f_equal kva2ppn) in E. pose proof (large_range _ _ _ _ H r n Hr).
      rewrite (small_blk _ _ _ _ H p i k Hp Hk), (proj1 (pp2va_range r ltac:(lia))) in E.
      apply (small_not_run _ _ _ _ H p i Hp r n 0 Hr); lia.
  - intros [[(q & j & k' & Hq & Hk' & -> & Hf & ->)|Hl] Hne]; [left|by right].
    exists q, j, k'. split_and!; try done; try lia. unfold fupd. destruct (Z.eqb_spec j i) as [->|]; [set_solver|done].
Qed.

Lemma free_block G L F s p i k :
  heap_ok G L F s -> G !! p = Some i -> 0 <= k < nblk i -> (blk p i k ∉ F i) ->
  wp (free (blk p i k)) s (fun _ s' => (exists G' F', heap_ok G' L F' s' /\
    forall x m, live G' L F' x m <-> live G L F x m /\ x <> blk p i k) /\
    (forall a, (a ∉ blk p i k :: F i) -> h_mem s' !! a = h_mem s !! a) /\ same_pins s s').
Proof.
  intros H Hp Hk Ha. destruct (small_page _ _ _ _ H p i Hp) as [Hi Hpr]. set (a := blk p i k) in *.
  destruct (blk_page p i k Hi Hpr Hk) as (Ek & Eg & Hpos & _). fold a in Ek, Eg, Hpos.
  destruct (ho_small _ _ _ _ H p i Hp) as (_ & pp & vl & c & Hpp & Hst & Hu & Hcn).
  destruct (ho_class _ _ _ _ H i Hi) as [(r & Hb & Hc) _ _]. pose proof (ho_pool _ _ _ _ H) as [Hpg _].
  destruct (class_size i Hi) as (_ & Hnb & _).
  assert (Z.land i 0xff = i) as Em by (change 0xff with (Z.ones 8); rewrite Z.land_ones, Z.mod_small by (unfold MAXBS in Hi; lia); done).
  unfold free. destruct (Z.eqb_spec a 0); [lia|]. apply wp_bind, wp_kva2pp; rewrite Ek; [apply (pg_dom _ _ Hpg); eauto|].
  apply wp_bind. eapply wp_pp_counts; [done..|]. cbn [fst]. rewrite Em. destruct (Z.eqb_spec i MAXBS); [lia|].
  apply wp_bind. eapply wp_hpage; [done|]. rewrite Hst, Z.eqb_refl. cbn [negb].
  apply wp_bind. eapply wp_get_bs; [exact Hb|]. apply wp_bind. eapply wp_pp_pcfc_add; [done..|].
  apply wp_bind, wp_modify, wp_bind, wp_modify. cbn [bs_list bs_free bs_bppg].
  pose proof (push_ok _ _ _ _ p i k a pp vl c r H Hp Hk eq_refl Ha Hpp Hst Hu Hcn Hb Hc) as H2. cbv zeta in H2.
  match type of H2 with heap_ok _ _ _ ?st => set (s2 := st) in * end.
  pose proof (push_live _ _ _ _ p i k H Hp Hk) as Hl2. fold a in Hl2.
  assert (forall x, (x ∉ a :: F i) -> h_mem s2 !! x = h_mem s !! x) as Hm2.
  { intros x Hx. unfold s2. cbn. apply lookup_insert_ne. set_solver. }
  assert (same_pins s s2) as Hs2 by (by apply (same_pins_put p pp (pp_set_u (PV vl i (u16 (c + 1))) pp)), keeps_page_eq).
  apply wp_bind. eapply wp_pp_counts; [apply lookup_insert_eq|reflexivity|].
  apply wp_bind. eapply wp_get_bs; [apply lookup_insert_eq|]. cbn [snd bs_bppg bs_free].
  destruct (Z.eqb_spec (u16 (c + 1)) (nblk i)) as [Eall|]; cbn [andb]; [|apply wp_ret; eauto 6].
  destruct (_ <=? _); [|apply wp_ret; eauto 6].
  assert (nfree p (fupd F i (a :: F i) i) = nblk i) as Hfull.
  { destruct (ho_small _ _ _ _ H2 p i Hp) as (_ & pp2 & vl2 & c2 & Hpp2 & _ & Hu2 & <-).
    unfold s2 in Hpp2. cbn in Hpp2. rewrite lookup_insert_eq in Hpp2. injection Hpp2 as <-. cbn in Hu2. congruence. }
  eapply wp_mono; [apply (give_back _ _ _ s2 p i a _ H2 Hp Eg Hfull), lookup_insert_eq|].
  intros [] s' (H' & Hm & Hsp). split; [|split; [|by eapply same_pins_trans]].
  - exists (delete p G). eexists. split; [exact H'|]. intros x m.
    rewrite (give_back_live _ _ _ s2 p i a H2 Hp Eg Hfull). apply Hl2.
  - intros x Hx. rewrite Hm; [by apply Hm2|]. by rewrite fupd_eq.
Qed.

(** ** The allocator *)

(** The size of the block a request gets. *)
Definition alloc_size (size : Z) : Z :=
  if size <=? NBPG then bsz (bsnum_ref size) else npages size * NBPG.

(** Nothing in the pool serves the request. *)
Definition no_room (size : Z) (s : kheap) : Prop :=
  if size <=? NBPG then find_free_ref 0 (h_pool s) = None
  else forall p, run_ok (h_pool s) p (Z.to_nat (npages size)) = false.

(** The contents of the blocks [A] and all pins are as before. *)
Definition kept (A : gmap Z Z) (s s' : kheap) : Prop :=
  (forall b n x, A !! b = Some n -> b <= x < b + n -> h_mem s' !! x = h_mem s !! x) /\ same_pins s s'.

Lemma kept_trans A s s' s'' : kept A s s' -> kept A s' s'' -> kept A s s''.
Proof. intros [M1 S1] [M2 S2]. split; [|by eapply same_pins_trans]. intros. rewrite (M2 b n) by done. by eapply M1. Qed.

(** No word of a block in use is the head of a free block. *)
Lemma live_not_free G L F s b n x i :
  heap_ok G L F s -> live G L F b n -> b <= x < b + n -> 0 <= i < MAXBS -> x ∉ F i.
Proof.
  intros H Hl Hx Hi Hf. destruct (free_blk _ _ _ _ H i x Hi Hf) as (k & Hp & Hk & E).
  assert (b <> x) by (intros ->; by apply (free_not_live _ _ _ _ H i x n Hi Hf)). destruct (class_size i Hi) as (_ & _ & ? & _).
  destruct (block_disjoint _ _ _ _ b n x (bsz i) H (live_block _ _ _ _ _ Hl)); [by left; exists (kva2ppn x), i, k|done|lia|lia].
Qed.

Lemma malloc_spec A s size :
  heap_inv A s -> 0 <= size <= 255 * NBPG ->
  wp (malloc size) s (fun a s' =>
    (a = 0 /\ s' = s /\ (size = 0 \/ no_room size s)) \/
    (0 < size /\ size <= alloc_size size /\ a <> 0 /\ A !! a = None /\ heap_inv (<[a := alloc_size size]> A) s' /\ kept A s s')).
Proof.
  intros (G & L & F & H & HA) Hs. destruct (decide (size = 0)) as [->|Hs0]; [apply wp_ret; auto|].
  unfold alloc_size, no_room. destruct (Z.leb_spec size NBPG) as [Hle|Hgt].
  - pose proof (bsnum_run size s ltac:(lia) (ho_mask _ _ _ _ H)) as Hbs. apply wp_returns in Hbs as (i & _ & _ & _ & Ei & Hi & Hfit & _).
    rewrite <- Ei. destruct (F i) as [|a l] eqn:HF.
    + eapply wp_mono; [apply (malloc_fresh _ _ _ _ size i H); done || lia|].
      intros r s' [(-> & -> & Hno)|(p & -> & Hp & HG & HL & H' & Hm & Hsp)]; [auto|right].
      destruct (fresh_live _ _ _ _ i p H Hi Hp HG HL HF) as [Hnl Hl]. destruct (inv_add _ _ _ _ _ _ A _ _ HA Hnl Hl) as [HAn HA'].
      destruct (class_size i Hi) as (_ & Hn & _). destruct (blk_page p i 0 Hi Hp ltac:(lia)) as (_ & _ & ? & _).
      split_and!; try done; try lia; [by eexists _, _, _|]. split; [|done]. intros b n x Hb Hx. apply Hm. intros Hr.
      pose proof (proj2 (HA' b n) ltac:(apply Hl; left; by apply HA)) as Hb'. apply HA' in Hb'.
      apply (live_not_free _ _ _ _ b n x i H' Hb' Hx Hi). by rewrite fupd_eq.
    + eapply wp_mono; [apply (malloc_pop _ _ _ _ size i a l H); done || lia|]. intros r s' (-> & H' & Em & Hsp). right.
      assert (a ∈ F i) as Ha by (rewrite HF; set_solver).
      destruct (inv_add G L F G L (fupd F i l) A a (bsz i) HA) as [HAn HA'].
      { intros m. by apply (free_not_live _ _ _ _ H i). }
      { by apply (pop_live _ _ _ _ i a l H). }
      destruct (co_bs _ _ _ _ (ho_class _ _ _ _ H i Hi)) as (r & _ & Hc). rewrite HF in Hc. destruct Hc as (_ & Ha0 & _).
      split_and!; try done; try lia; [by eexists _, _, _|]. split; [|done]. intros. by rewrite Em.
  - destruct (npages_range size ltac:(lia)) as [Hn Hfit].
    eapply wp_mono; [apply (malloc_run _ _ _ _ size H); lia|].
    intros r s' [(-> & -> & Hno)|(p & -> & Hp & Hun & H' & Em & Hsp)]; [auto|right].
    destruct (run_live _ _ _ _ p (npages size) H Hp ltac:(lia) Hun) as [Hnl Hl].
    destruct (inv_add _ _ _ _ _ _ A _ _ HA Hnl Hl) as [HAn HA'].
    split_and!; try done; try lia; [unfold pp2va, KERNBASE, NBPG; lia|by eexists _, _, _|]. split; [|done]. intros. by rewrite Em.
Qed.

Lemma free_spec A s a n :
  heap_inv A s -> A !! a = Some n -> wp (free a) s (fun _ s' => heap_inv (delete a A) s' /\ kept (delete a A) s s').
Proof.
  intros (G & L & F & H & HA) [(p & i & k & Hp & Hk & -> & Hf & ->)|(p & m & Hp & -> & ->)]%HA.
  - eapply wp_mono; [by apply (free_block _ _ _ _ p i k H)|]. intros [] s' ((G' & F' & H' & Hl) & Hm & Hsp).
    split; [exists G', L, F'; split; [done|]; by eapply inv_del|]. split; [|done].
    intros b n x [Hne Hb%HA]%lookup_delete_Some Hx. apply Hm. destruct (small_page _ _ _ _ H p i Hp) as [Hi _].
    apply not_elem_of_cons. split; [|by eapply live_not_free]. intros ->. destruct (class_size i Hi) as (_ & _ & ? & _).
    destruct (block_disjoint _ _ _ _ b n (blk p i k) (bsz i) H (live_block _ _ _ _ _ Hb)); [by left; exists p, i, k|done|lia|lia].
  - eapply wp_mono; [by eapply free_run|]. intros [] s' (H' & Em & Hsp). split; [|split; [intros; by rewrite Em|done]].
    exists G, (delete p L), F. split; [done|]. eapply inv_del; [exact HA|]. by eapply free_run_live.
Qed.

(** The owner of a block may write anywhere in it. *)
Lemma client_write A s a n x w :
  heap_inv A s -> A !! a = Some n -> a <= x < a + n -> heap_inv A (set_hmem (<[x := w]> (h_mem s)) s).
Proof.
  intros (G & L & F & H & HA) Ha Hx. exists G, L, F. split; [|done]. apply HA in Ha. destruct H as [? ? ? Hc ? ? ? ?] eqn:EH.
  split; try done. intros i Hi. destruct (Hc i Hi) as [(r & Hb & Hch) Hnd Hblk]. split; [|done|done].
  exists r. split; [done|]. eapply chain_frame; [exact Hch|]. intros b Hbl. apply lookup_insert_ne. intros <-.
  by apply (live_not_free _ _ _ _ a n x i H Ha Hx Hi).
Qed.

(** ** Boot *)

Lemma malloc_init_run s : wp malloc_init s (fun _ s' => h_pool s' = h_pool s /\
  forall i, 0 <= i < MAXBS -> h_bs s' !! i = Some (mkBs 0 0 (nblk i)) /\ h_mask s' !! i = Some (bsz i - 1)).
Proof.
  apply (wp_mfor _ _ _ (fun l s' => h_pool s' = h_pool s /\ (forall i, i ∈ l -> 0 <= i < MAXBS) /\
    forall i, 0 <= i < MAXBS -> (i ∉ l) -> h_bs s' !! i = Some (mkBs 0 0 (nblk i)) /\ h_mask s' !! i = Some (bsz i - 1))).
  - split; [done|]. split; intros i; [rewrite zseq_elem|rewrite zseq_elem]; unfold MAXBS; lia.
  - intros i l s' (Ep & Hl & Hd). apply wp_modify. cbn. destruct (class_size i) as (_ & _ & _ & -> & ->); [apply Hl; set_solver|].
    split; [done|]. split; [intros; apply Hl; set_solver|]. intros j Hj Hjl. destruct (decide (i = j)) as [<-|Hne].
    + by rewrite !lookup_insert_eq.
    + rewrite !lookup_insert_ne by done. apply Hd; [done|set_solver].
  - intros s' (Ep & _ & Hd). split; [done|]. intros i Hi. apply Hd; [done|set_solver].
Qed.

Lemma malloc_init_ok s : pool_ok (h_pool s) -> nppage (h_pool s) <= 65536 -> wp malloc_init s (fun _ s' => heap_inv ∅ s').
Proof.
  intros Hok Hnp. eapply wp_mono; [apply malloc_init_run|]. intros [] s' (Ep & Hi).
  exists ∅, ∅, (fun _ => []). split.
  - split; try done; try (by rewrite Ep); [|].
    + intros i Hr. by apply Hi.
    + intros i Hr. split; [|constructor|set_solver]. exists 0. split; [by apply Hi|done].
  - intros a n. split; [done|]. intros [(? & ? & ? & ? & _)|(? & ? & ? & _)]; done.
Qed.

(** ** Properties *)

(** What can happen to the heap; [A] records the blocks in use.  Their owners
    write in them as they like. *)
Inductive heap_step : gmap Z Z * kheap -> gmap Z Z * kheap -> Prop :=
  | hs_malloc A s size a s' :
      0 <= size <= 255 * NBPG -> malloc size s = Ret a s' ->
      heap_step (A, s) (if a =? 0 then A else <[a := alloc_size size]> A, s')
  | hs_free A s a n s' : A !! a = Some n -> free a s = Ret tt s' -> heap_step (A, s) (delete a A, s')
  | hs_write A s a n x w : A !! a = Some n -> a <= x < a + n ->
      heap_step (A, s) (A, set_hmem (<[x := w]> (h_mem s)) s).

Lemma heap_step_inv x y : heap_step x y -> heap_inv (fst x) (snd x) -> heap_inv (fst y) (snd y).
Proof.
  intros [A s size a s' Hs E|A s a n s' Ha E|A s a n b w Ha Hb] H; cbn in *.
  - destruct (wp_run _ _ _ _ _ (malloc_spec A s size H Hs) E) as [(-> & -> & _)|(_ & _ & Ha & _ & H' & _)]; [done|].
    by destruct (Z.eqb_spec a 0).
  - apply (wp_run _ _ _ s' (fun _ s' => heap_inv (delete a A) s' /\ kept (delete a A) s s') (free_spec A s a n H Ha) E).
  - by eapply client_write.
Qed.

(** C3: the kernel heap is an allocator, for requests of up to 255 pages: [malloc]
    returns.  It returns 0 for a size of 0 or when the page pool cannot serve the
    request, leaving the heap as it was; else a block that is at least as large as
    asked and was not in use, and every block already in use stays in use, with
    its contents.  (Beyond 255 pages see [malloc_size_wraps] and
    [malloc_big_leaks].) *)
Theorem malloc_correct A s size :
  heap_inv A s -> 0 <= size <= 255 * NBPG ->
  wp (malloc size) s (fun a s' =>
    (a = 0 /\ s' = s /\ (size = 0 \/ no_room size s)) \/
    (0 < size /\ size <= alloc_size size /\ a <> 0 /\ A !! a = None /\ heap_inv (<[a := alloc_size size]> A) s' /\ kept A s s')).
Proof. apply malloc_spec. Qed.

(** C22: [free] returns on every block in use, whatever its owner wrote in it (the
    loop that gives a page back terminates); afterwards exactly that block is no
    longer in use, and the contents of the others are as before.  (In a heap whose
    blocks come from requests of up to 255 pages: [heap_inv].) *)
Theorem free_correct A s a n :
  heap_inv A s -> A !! a = Some n -> wp (free a) s (fun _ s' => heap_inv (delete a A) s' /\ kept (delete a A) s s').
Proof. apply free_spec. Qed.

(** C21: on a machine of at most 65536 pages, after any sequence of [malloc] of up to
    255 pages, [free] of blocks in use and writes of the owners into their blocks,
    two blocks in use never overlap, and they lie in the kernel's physical memory
    map. *)
Theorem heap_blocks_disjoint s0 s A s' a n b m :
  pool_ok (h_pool s0) -> nppage (h_pool s0) <= 65536 -> malloc_init s0 = Ret tt s -> rtc heap_step (∅, s) (A, s') ->
  A !! a = Some n -> A !! b = Some m -> a <> b ->
  (a + n <= b \/ b + m <= a) /\ KERNBASE <= a /\ 0 < n /\ a + n <= 2 ^ 32.
Proof.
  intros Hok Hnp E0 Hst Ha Hb Hne.
  assert (heap_inv ∅ s) as H0 by exact (wp_run _ _ _ s (fun _ s => heap_inv ∅ s) (malloc_init_ok s0 Hok Hnp) E0).
  assert (forall x y, rtc heap_step x y -> heap_inv (fst x) (snd x) -> heap_inv (fst y) (snd y)) as Hrtc.
  { intros x y Hxy. induction Hxy; eauto using heap_step_inv. }
  destruct (Hrtc _ _ Hst H0) as (G & L & F & H & HA). cbn in HA. apply HA in Ha, Hb.
  split; [eapply block_disjoint; eauto using live_block|].
  destruct Ha as [(p & i & k & Hp & Hk & -> & _ & ->)|(p & j & Hp & -> & ->)].
  - destruct (small_page _ _ _ _ H p i Hp) as [Hi Hr]. destruct (blk_page p i k Hi Hr Hk) as (_ & _ & _ & ? & ?).
    destruct (class_size i Hi) as (_ & _ & ? & _). unfold pp2va, KERNBASE, NBPG in *. lia.
  - pose proof (large_range _ _ _ _ H p j Hp). unfold pp2va, KERNBASE, NBPG in *. lia.
Qed.

(** C39: [bsnum] stays inside the array of size classes for every request of up
    to a page; the class is large enough, and less than twice as large as
    needed, except that requests below 16 bytes get 32. *)
Theorem bsnum_bounds size s :
  0 < size <= NBPG -> masks_ok s ->
  wp (bsnum size) s (fun i s' => s' = s /\ 0 <= i < MAXBS /\ size <= bsz i /\
    (bsz i < 2 * size \/ size < 16 /\ bsz i = 32)).
Proof.
  intros Hs Hm. eapply wp_mono; [by apply bsnum_run|]. intros i s' (-> & _ & Hi & Hf & Ht). split_and!; try done; try lia.
  destruct Ht as [?|[-> ?]]; [by left|by right].
Qed.

(** the two forms of [fls], the chain of tests for constants and the [bsrl]
    instruction, agree on every word. *)
Theorem fls_const_agrees v : 0 <= v < 2 ^ 32 -> fls_const v = fls v.
Proof.
  intros Hv. rewrite fls_const_chain, fls_chain_log2 by done. destruct (Z.eqb_spec v 0) as [->|]; [done|].
  symmetry. apply fls_log2. lia.
Qed.

(** ** Witnesses *)

Definition ex_raw : kheap := mkHeap ex_booted ∅ ∅ ∅.
Definition ex_heap0 : kheap := default ex_raw (ret_state (malloc_init ex_raw)).

Lemma ex_booted_small : nppage (h_pool ex_raw) <= 65536.
Proof. vm_compute. discriminate. Qed.

Lemma ex_heap0_run : malloc_init ex_raw = Ret tt ex_heap0.
Proof.
  pose proof (malloc_init_ok ex_raw ex_booted_ok ex_booted_small) as H. unfold wp in H. unfold ex_heap0.
  destruct (malloc_init ex_raw) as [[] s|]; [reflexivity|contradiction H].
Qed.

Lemma ex_heap0_inv : heap_inv ∅ ex_heap0.
Proof.
  exact (wp_run _ _ _ ex_heap0 (fun _ s => heap_inv ∅ s) (malloc_init_ok ex_raw ex_booted_ok ex_booted_small) ex_heap0_run).
Qed.

(** A block of 64 bytes: the first of page 299, the rest of the page is linked. *)
Lemma malloc_correct_witness :
  exists s', malloc 50 ex_heap0 = Ret (pp2va 299) s' /\ heap_inv {[ pp2va 299 := 64 ]} s'.
Proof.
  destruct (wp_returns_val _ _ (pp2va 299) _ (malloc_correct ∅ ex_heap0 50 ex_heap0_inv ltac:(done)))
    as (s' & E & H); [vm_compute; reflexivity|]. exists s'. split; [exact E|].
  destruct H as [(H & _)|(_ & _ & _ & _ & H & _)]; [discriminate H|exact H].
Defined.

Definition ex_heap1 : kheap := default ex_heap0 (ret_state (malloc 50 ex_heap0)).

Lemma ex_heap1_run : malloc 50 ex_heap0 = Ret (pp2va 299) ex_heap1.
Proof.
  assert (ret_val (malloc 50 ex_heap0) = Some (pp2va 299)) as E by (vm_compute; reflexivity).
  unfold ex_heap1. destruct (malloc 50 ex_heap0); [|discriminate E]. injection E as ->. reflexivity.
Qed.

Lemma ex_heap1_inv : heap_inv {[ pp2va 299 := 64 ]} ex_heap1.
Proof.
  destruct (wp_run _ _ _ _ _ (malloc_spec ∅ ex_heap0 50 ex_heap0_inv ltac:(done)) ex_heap1_run)
    as [(H & _)|(_ & _ & _ & _ & H & _)]; [discriminate H|exact H].
Qed.

Lemma free_correct_witness : exists s', free (pp2va 299) ex_heap1 = Ret tt s' /\ heap_inv (delete (pp2va 299) {[ pp2va 299 := 64 ]}) s'.
Proof.
  destruct (wp_returns _ _ _ (free_correct _ ex_heap1 (pp2va 299) 64 ex_heap1_inv (lookup_singleton_eq _ _)))
    as ([] & s' & E & H & _). exists s'. split; [exact E|exact H].
Defined.

Definition ex_heap2 : kheap := default ex_heap1 (ret_state (malloc 9000 ex_heap1)).

Lemma ex_heap2_run : malloc 9000 ex_heap1 = Ret (pp2va 296) ex_heap2.
Proof.
  assert (ret_val (malloc 9000 ex_heap1) = Some (pp2va 296)) as E by (vm_compute; reflexivity).
  unfold ex_heap2. destruct (malloc 9000 ex_heap1); [|discriminate E]. injection E as ->. reflexivity.
Qed.

Lemma heap_blocks_disjoint_witness : pp2va 296 + 3 * NBPG <= pp2va 299.
Proof.
  destruct (heap_blocks_disjoint ex_raw ex_heap0 (<[ pp2va 296 := 3 * NBPG ]> (<[ pp2va 299 := 64 ]> ∅)) ex_heap2
    (pp2va 296) (3 * NBPG) (pp2va 299) 64) as (_ & _).
  - exact ex_booted_ok.
  - exact ex_booted_small.
  - exact ex_heap0_run.
  - eapply rtc_l; [exact (hs_malloc ∅ ex_heap0 50 _ _ ltac:(done) ex_heap1_run)|].
    apply rtc_once. exact (hs_malloc _ ex_heap1 9000 _ _ ltac:(done) ex_heap2_run).
  - reflexivity.
  - reflexivity.
  - discriminate.
  - vm_compute. discriminate.
Defined.

Lemma bsnum_bounds_witness : exists i, ret_val (bsnum 50 ex_heap0) = Some i /\ bsz i = 64.
Proof.
  destruct (wp_returns_val _ _ 2 _ (bsnum_bounds 50 ex_heap0 ltac:(done)
    ltac:(destruct ex_heap0_inv as (G & L & F & H & _); exact (ho_mask _ _ _ _ H)))) as (s' & E & _); [vm_compute; reflexivity|].
  exists 2. rewrite E. split; reflexivity.
Defined.

Lemma fls_const_agrees_witness : fls_const 0x1234 = 13 /\ fls 0x1234 = 13.
Proof. rewrite <- (fls_const_agrees 0x1234 ltac:(done)). split; reflexivity. Defined.

(** ** Requests the header word cannot describe *)

(** [size + NBPG - 1] is computed in 32 bits: a request of nearly 4 GB gets two
    pages. *)
Example malloc_size_wraps : ret_val (malloc 0xfffff002 ex_heap0) = Some (pp2va 298).
Proof. vm_compute. reflexivity. Qed.

(** The number of pages is kept in eight bits of [pp_bs]: a run of 256 pages
    records 0, and freeing it gives nothing back. *)
Definition ex_big : kheap :=
  let P := default (boot_pool 700) (ret_state (ppage_init_pages 0xa0000 0xf0110000 0xf0120000 (boot_pool 700))) in
  default (mkHeap P ∅ ∅ ∅) (ret_state (malloc_init (mkHeap P ∅ ∅ ∅))).

Example malloc_big_leaks :
  match (a <- malloc (256 * NBPG) ;; free a ;; mreturn a) ex_big with
  | Ret a s => negb (a =? 0) = true /\ si_nfreepages (si (h_pool ex_big)) - si_nfreepages (si (h_pool s)) = 256
  | Panic => False
  end.
Proof. vm_compute. auto. Qed.
