(* ===== verification/Wk.v ===== *)
(** * Wakeup predicates

    sys/kern/wk.c: an environment hands the kernel a predicate over words of
    physical memory, a sum of products of comparisons; [wk_compile] checks and
    pins the pages it reads and compiles it with VCODE, the scheduler runs the
    code, [wk_free] releases everything.  Of VCODE (sys/vcode) the label table
    and the meaning of the instructions used here are modelled; the numbers of
    bytes that instructions, prologue and epilogue take are parameters, and code
    that would run past the end of its block stops the model. *)

From Stdlib Require Import ZArith Lia.
From stdpp Require Import base numbers option list gmap.
From S2P Require Import Prelude Capability EnvTable PageState PageAlloc Malloc.

Definition WK_GT := 0.
Definition WK_LT := 1.
Definition WK_GTE := 2.
Definition WK_LTE := 3.
Definition WK_EQ := 4.
Definition WK_NEQ := 5.
Definition WK_OR := 6.
Definition WK_MAX_PP := 128.
Definition WK_MAX_CODE_BYTES := 4096.
Definition OVERRUN_SAFETY := 20.
Definition MAX_LABELS := 256.
Definition MAX_REFS := 128.

(** [struct wk_term] with its tag; [WK_BAD] is a term of no known type. *)
Inductive wk_term :=
  | WK_VAR (p k : Z)
  | WK_IMM (i : Z)
  | WK_TAG (t : Z)
  | WK_OP (op : Z)
  | WK_BAD (ty : Z).

(** ** VCODE *)

Inductive v_reg := r1 | r2 | z | tag.
Inductive v_cond := bleu | bltu | bgeu | bgtu | bneu | bequ.
Inductive vinstr :=
  | v_setu (r : v_reg) (imm : Z)
  | v_ldui (rd rs : v_reg) (off : Z)
  | v_b (c : v_cond) (rs1 rs2 : v_reg) (l : Z)
  | v_retu (r : v_reg)
  | v_retui (imm : Z).

(** A label: the number of references recorded, and where it was placed, as
    the index of an instruction. *)
Record v_label_rec := mkLab { num_refs : Z; l_addr : option nat }.

(** The code under construction; [v_bytes] is [v_ip - code]. *)
Record vstate := mkV {
  v_code : list vinstr;
  v_bytes : Z;
  v_labels : gmap Z v_label_rec;
  last_label : Z }.

(** ** State *)

(** [wk_preds] holds the finished predicates, at the address of their buffer. *)
Record wkst := mkWk {
  wk_h : kheap;
  wk_et : envtab;
  wk_acl : aclheap;
  wk_v : vstate;
  next_pp : Z;
  cleanup_code : Z;
  cleanup_pred_pages : Z;
  wk_preds : gmap Z vstate }.

Definition wk_set_h (x : kheap) (s : wkst) : wkst :=
  mkWk x (wk_et s) (wk_acl s) (wk_v s) (next_pp s) (cleanup_code s) (cleanup_pred_pages s) (wk_preds s).
Definition wk_set_et (x : envtab) (s : wkst) : wkst :=
  mkWk (wk_h s) x (wk_acl s) (wk_v s) (next_pp s) (cleanup_code s) (cleanup_pred_pages s) (wk_preds s).
Definition wk_set_v (x : vstate) (s : wkst) : wkst :=
  mkWk (wk_h s) (wk_et s) (wk_acl s) x (next_pp s) (cleanup_code s) (cleanup_pred_pages s) (wk_preds s).
Definition wk_set_pp (x : Z) (s : wkst) : wkst :=
  mkWk (wk_h s) (wk_et s) (wk_acl s) (wk_v s) x (cleanup_code s) (cleanup_pred_pages s) (wk_preds s).
Definition wk_set_cleanup (c p : Z) (s : wkst) : wkst :=
  mkWk (wk_h s) (wk_et s) (wk_acl s) (wk_v s) (next_pp s) c p (wk_preds s).
Definition wk_set_preds (x : gmap Z vstate) (s : wkst) : wkst :=
  mkWk (wk_h s) (wk_et s) (wk_acl s) (wk_v s) (next_pp s) (cleanup_code s) (cleanup_pred_pages s) x.

Definition in_kh {A} (m : M kheap A) : M wkst A := zoom wk_h wk_set_h m.
Definition in_wet {A} (m : M envtab A) : M wkst A := zoom wk_et wk_set_et m.
Definition in_v {A} (m : M vstate A) : M wkst A := zoom wk_v wk_set_v m.

(** The words of an array of [u_int] on the heap. *)
Definition arr_set (a i w : Z) : M wkst unit := in_kh (store (a + 4 * i) w).
Definition arr_get (a i : Z) : M wkst Z := in_kh (load (a + 4 * i)).

(** ** Emitting code *)

Section emit.
Context (ilen : vinstr -> Z) (prologue epilogue : Z).

Definition get_label (l : Z) : M vstate v_label_rec := fun s => of_option (v_labels s !! l) s.
Definition put_label (l : Z) (r : v_label_rec) : M vstate unit :=
  modify (fun s => mkV (v_code s) (v_bytes s) (<[l := r]> (v_labels s)) (last_label s)).

Definition v_genlabel : M vstate Z :=
  n <- gets last_label ;;
  assert_ (n <? MAX_LABELS) ;;
  put_label n (mkLab 0 None) ;;
  modify (fun s => mkV (v_code s) (v_bytes s) (v_labels s) (n + 1)) ;;
  mreturn n.

Definition v_label (l : Z) : M vstate unit :=
  assert_ (l <? MAX_LABELS) ;;
  r <- get_label l ;;
  n <- gets (fun s => length (v_code s)) ;;
  put_label l (mkLab (num_refs r) (Some n)).

Definition v_dmark (l : Z) : M vstate unit :=
  assert_ (l <? MAX_LABELS) ;;
  r <- get_label l ;;
  assert_ (num_refs r <? MAX_REFS) ;;
  put_label l (mkLab (num_refs r + 1) (l_addr r)).

(** The code is written to a block of [WK_MAX_CODE_BYTES] bytes, and nothing here
    checks that it fits: a store past the end stops the model. *)
Definition emit (i : vinstr) : M vstate unit :=
  b <- gets v_bytes ;;
  assert_ (b + ilen i <=? WK_MAX_CODE_BYTES) ;;
  modify (fun s => mkV (v_code s ++ [i]) (v_bytes s + ilen i) (v_labels s) (last_label s)).

(** Branches and returns are jumps to a label; returns go to the epilogue,
    label 0. *)
Definition emit_branch (c : v_cond) (l : Z) : M vstate unit := emit (v_b c r1 r2 l) ;; v_dmark l.
Definition emit_ret (i : vinstr) : M vstate unit := emit i ;; v_dmark 0.

Definition v_lambda : M vstate unit :=
  modify (fun s => mkV [] prologue (v_labels s) 0) ;; v_genlabel ;; mreturn tt.

(** [proc_epilogue] and [labels_end]. *)
Definition v_end : M vstate unit :=
  v_label 0 ;;
  b <- gets v_bytes ;;
  assert_ (b + epilogue <=? WK_MAX_CODE_BYTES) ;;
  modify (fun s => mkV (v_code s) (v_bytes s + epilogue) (v_labels s) (last_label s)).

(** ** Compiling *)

(** The locals of [wk_compile]; [end_of_term] is not initialised. *)
Record cst := mkCst { start_term : bool; op1 : bool; end_of_term : option Z }.

Definition load_reg (op1 : bool) : v_reg := if op1 then r1 else r2.

Definition ptov (pa : Z) : Z := u32 (pa + KERNBASE).

(** The checks of a variable: its page is pinned and recorded, or readable by
    everyone. *)
Definition wk_var_page (pred_pages p k : Z) : M wkst Z :=
  np <- gets next_pp ;;
  if WK_MAX_PP - 1 <=? np then mreturn (- E_INVAL)
  else
    cur <- in_wet get_curenv ;; e <- in_wet (get_env cur) ;;
    match env_getcap e k with
    | inr r => mreturn r
    | inl c =>
        let ppn := PGNO p in
        n <- gets (fun s => nppage (h_pool (wk_h s))) ;;
        if (ppn =? 0) || (n <=? ppn) then mreturn (- E_INVAL)
        else
          pp <- in_kh (in_hp (get_pp ppn)) ;;
          if pp_status pp =? PP_USER then
            h <- gets wk_acl ;;
            r <- in_kh (in_hp (ppage_acl_check h ppn c PP_ACL_LEN 0)) ;;
            if r <? 0 then mreturn r
            else
              in_kh (in_hp (ppage_pin ppn)) ;;
              arr_set pred_pages np ppn ;;
              modify (wk_set_pp (np + 1)) ;;
              mreturn 0
          else if pp_status pp =? PP_KERNRO then mreturn 0
          else mreturn (- E_INVAL)
    end.

(** The branch out of the product when a comparison fails. *)
Definition wk_branch (op : Z) : option v_cond :=
  if op =? WK_GT then Some bleu
  else if op =? WK_GTE then Some bltu
  else if op =? WK_LT then Some bgeu
  else if op =? WK_LTE then Some bgtu
  else if op =? WK_EQ then Some bneu
  else if op =? WK_NEQ then Some bequ
  else None.

Definition overrun : M wkst bool :=
  b <- gets (fun s => v_bytes (wk_v s)) ;; mreturn (WK_MAX_CODE_BYTES - OVERRUN_SAFETY <? b).

(** One term: the new locals, or the error. *)
Definition compile_term (pred_pages : Z) (t : wk_term) (c : cst) : M wkst (cst + Z) :=
  c <- (if start_term c then l <- in_v v_genlabel ;; mreturn (mkCst false (op1 c) (Some l)) else mreturn c) ;;
  o <- overrun ;;
  if o then mreturn (inr (- E_INVAL))
  else
    match t with
    | WK_VAR p k =>
        r <- wk_var_page pred_pages p k ;;
        if r <? 0 then mreturn (inr r)
        else
          in_v (emit (v_ldui (load_reg (op1 c)) z (ptov p))) ;;
          mreturn (inl (mkCst (start_term c) (negb (op1 c)) (end_of_term c)))
    | WK_IMM i =>
        in_v (emit (v_setu (load_reg (op1 c)) (u32 i))) ;;
        mreturn (inl (mkCst (start_term c) (negb (op1 c)) (end_of_term c)))
    | WK_TAG t => in_v (emit (v_setu tag (u32 t))) ;; mreturn (inl c)
    | WK_OP op =>
        l <- of_option (end_of_term c) ;;
        if op =? WK_OR then
          in_v (emit_ret (v_retu tag)) ;; in_v (v_label l) ;; mreturn (inl (mkCst true (op1 c) (end_of_term c)))
        else
          match wk_branch op with
          | Some b => in_v (emit_branch b l) ;; mreturn (inl c)
          | None => mreturn (inr (- E_INVAL))
          end
    | WK_BAD _ => mreturn (inr (- E_INVAL))
    end.

Fixpoint compile_loop (pred_pages : Z) (ts : list wk_term) (c : cst) : M wkst (cst + Z) :=
  match ts with
  | [] => mreturn (inl c)
  | t :: ts' =>
      r <- compile_term pred_pages t c ;;
      match r with inl c' => compile_loop pred_pages ts' c' | inr e => mreturn (inr e) end
  end.

(** After the loop: end the last product, return 0, patch the labels. *)
Definition compile_end (c : cst) : M wkst Z :=
  o <- overrun ;;
  if o then mreturn (- E_INVAL)
  else
    in_v (emit_ret (v_retu tag)) ;;
    l <- of_option (end_of_term c) ;;
    in_v (v_label l) ;;
    in_v (emit_ret (v_retui 0)) ;;
    in_v v_end ;;
    mreturn 0.

(** The lines after [error:]. *)
Definition compile_exit (code pred_pages : Z) : M wkst unit :=
  np <- gets next_pp ;;
  arr_set pred_pages np 0 ;;
  cur <- in_wet get_curenv ;;
  in_wet (upd_env cur (set_env_pred_pgs pred_pages)) ;;
  in_wet (upd_env cur (set_env_pred code)) ;;
  modify (fun s => wk_set_preds (<[code := wk_v s]> (wk_preds s)) s).

Definition wk_compile (ts : list wk_term) (code pred_pages : Z) : M wkst Z :=
  modify (wk_set_pp 0) ;;
  in_v v_lambda ;;
  in_v (emit (v_setu tag (u32 (-1)))) ;;
  in_v (emit (v_setu z 0)) ;;
  r <- compile_loop pred_pages ts (mkCst true true None) ;;
  ret <- match r with inl c => compile_end c | inr e => mreturn e end ;;
  compile_exit code pred_pages ;;
  mreturn ret.

(** ** Releasing *)

(** [for (i = 0; pgs[i]; i++) ppage_unpin (...)]; the array has [WK_MAX_PP]
    words, so running out of fuel means reading past its end. *)
Fixpoint unpin_pages (fuel : nat) (pgs i : Z) : M wkst unit :=
  match fuel with
  | O => panic
  | S fuel' =>
      w <- arr_get pgs i ;;
      if w =? 0 then mreturn tt
      else in_kh (in_hp (ppage_unpin w)) ;; unpin_pages fuel' pgs (i + 1)
  end.

Definition wk_free (ei : Z) : M wkst unit :=
  e <- in_wet (get_env ei) ;;
  (if negb (env_pred e =? 0) then
     in_kh (free (env_pred e)) ;;
     modify (fun s => wk_set_preds (delete (env_pred e) (wk_preds s)) s) ;;
     in_wet (upd_env ei (set_env_pred 0))
   else mreturn tt) ;;
  if env_pred_pgs e =? 0 then mreturn tt
  else
    unpin_pages (Z.to_nat WK_MAX_PP) (env_pred_pgs e) 0 ;;
    in_kh (free (env_pred_pgs e)) ;;
    in_wet (upd_env ei (set_env_pred_pgs 0)).

(** Run by the fault handler when reading the user's terms faults. *)
Definition wk_pfcleanup : M wkst unit :=
  pgs <- gets cleanup_pred_pages ;;
  code <- gets cleanup_code ;;
  np <- gets next_pp ;;
  arr_set pgs np 0 ;;
  cur <- in_wet get_curenv ;;
  in_wet (upd_env cur (set_env_pred_pgs pgs)) ;;
  in_wet (upd_env cur (set_env_pred code)) ;;
  wk_free cur.

(** [ts] is the user's array ([None] for a null pointer). *)
Definition sys_wkpred (ts : option (list wk_term)) : M wkst Z :=
  cur <- in_wet get_curenv ;;
  e <- in_wet (get_env cur) ;;
  (if negb (env_pred e =? 0) then wk_free cur else mreturn tt) ;;
  match ts with
  | None => mreturn 0
  | Some ts =>
      code <- in_kh (malloc WK_MAX_CODE_BYTES) ;;
      if code =? 0 then mreturn (- E_NO_MEM)
      else
        pred_pages <- in_kh (malloc (WK_MAX_PP * 4)) ;;
        if pred_pages =? 0 then in_kh (free code) ;; mreturn (- E_NO_MEM)
        else
          m <- in_wet (gets page_fault_mode) ;;
          in_wet (modify (set_pfm PFM_PROP)) ;;
          modify (wk_set_cleanup code pred_pages) ;;
          ret <- wk_compile ts code pred_pages ;;
          if ret <? 0 then
            wk_free cur ;; in_wet (modify (set_pfm m)) ;; mreturn ret
          else in_wet (modify (set_pfm m)) ;; mreturn 0
  end.
End emit.

(** ** Running *)

Record regs := mkRegs { g_r1 : Z; g_r2 : Z; g_z : Z; g_tag : Z }.
Definition rget (r : v_reg) (g : regs) : Z :=
  match r with r1 => g_r1 g | r2 => g_r2 g | z => g_z g | tag => g_tag g end.
Definition rset (r : v_reg) (v : Z) (g : regs) : regs :=
  match r with
  | r1 => mkRegs v (g_r2 g) (g_z g) (g_tag g)
  | r2 => mkRegs (g_r1 g) v (g_z g) (g_tag g)
  | z => mkRegs (g_r1 g) (g_r2 g) v (g_tag g)
  | tag => mkRegs (g_r1 g) (g_r2 g) (g_z g) v
  end.

Definition vtest (c : v_cond) (x y : Z) : bool :=
  match c with
  | bleu => x <=? y | bltu => x <? y | bgeu => y <=? x | bgtu => y <? x
  | bneu => negb (x =? y) | bequ => x =? y
  end.

(** The value the code returns from instruction [pc] on, in a memory where the
    word at address [a] is [rd a]; [None] if it does not return within [fuel]
    steps. *)
Fixpoint vrun (rd : Z -> Z) (v : vstate) (fuel : nat) (pc : nat) (g : regs) : option Z :=
  match fuel with
  | O => None
  | S fuel' =>
      match v_code v !! pc with
      | Some (v_setu r n) => vrun rd v fuel' (S pc) (rset r n g)
      | Some (v_ldui r s off) => vrun rd v fuel' (S pc) (rset r (rd (u32 (rget s g + off))) g)
      | Some (v_b c a b l) =>
          if vtest c (rget a g) (rget b g)
          then match v_labels v !! l ≫= l_addr with Some pc' => vrun rd v fuel' pc' g | None => None end
          else vrun rd v fuel' (S pc) g
      | Some (v_retu r) => Some (rget r g)
      | Some (v_retui n) => Some n
      | None => None
      end
  end.

(** ** What a predicate means

    Terms are read from left to right; [op1] tells which operand the next value
    is.  [skip] holds after a comparison of the current product failed: the rest
    of the product has no effect. *)
Definition wk_cmp (op x y : Z) : bool :=
  if op =? WK_GT then y <? x
  else if op =? WK_GTE then y <=? x
  else if op =? WK_LT then x <? y
  else if op =? WK_LTE then x <=? y
  else if op =? WK_EQ then x =? y
  else negb (x =? y).

Fixpoint wk_eval (rd : Z -> Z) (ts : list wk_term) (skip op1 : bool) (x y t : Z) : Z :=
  match ts with
  | [] => if skip then 0 else t
  | WK_VAR p _ :: ts' =>
      if skip then wk_eval rd ts' true (negb op1) x y t
      else if op1 then wk_eval rd ts' false false (rd (ptov p)) y t
      else wk_eval rd ts' false true x (rd (ptov p)) t
  | WK_IMM i :: ts' =>
      if skip then wk_eval rd ts' true (negb op1) x y t
      else if op1 then wk_eval rd ts' false false (u32 i) y t
      else wk_eval rd ts' false true x (u32 i) t
  | WK_TAG n :: ts' => wk_eval rd ts' skip op1 x y (if skip then t else u32 n)
  | WK_OP op :: ts' =>
      if op =? WK_OR then
        if skip then match ts' with [] => 0 | _ => wk_eval rd ts' false op1 x y t end else t
      else wk_eval rd ts' (skip || negb (wk_cmp op x y)) op1 x y t
  | WK_BAD _ :: ts' => wk_eval rd ts' skip op1 x y t
  end.

Definition is_or (t : wk_term) : bool := match t with WK_OP op => op =? WK_OR | _ => false end.
Definition is_val (t : wk_term) : bool := match t with WK_VAR _ _ | WK_IMM _ => true | _ => false end.

(** The one instruction of a term. *)
Definition term_instr (t : wk_term) (op1 : bool) (l : Z) : vinstr :=
  match t with
  | WK_VAR p _ => v_ldui (load_reg op1) z (ptov p)
  | WK_IMM i => v_setu (load_reg op1) (u32 i)
  | WK_TAG n => v_setu tag (u32 n)
  | WK_OP op => if op =? WK_OR then v_retu tag
                else match wk_branch op with Some b => v_b b r1 r2 l | None => v_retui 0 end
  | WK_BAD _ => v_retui 0
  end.

Definition addr_of (v : vstate) (l : Z) : option nat := v_labels v !! l ≫= l_addr.

(** The label table has room: a label never has more references than there are
    instructions of the predicate. *)
Record v_ok (v : vstate) : Prop := mkVOk {
  vo_len : (2 <= length (v_code v))%nat;
  vo_last : 1 <= last_label v;
  vo_dom : forall l, 0 <= l < last_label v -> exists r, v_labels v !! l = Some r /\ 0 <= num_refs r <= zlen (v_code v) - 2 }.

Definition end_label (c : cst) (v : vstate) : option Z := if start_term c then Some (last_label v) else end_of_term c.

Definition term_ok (t : wk_term) : Prop :=
  match t with WK_OP op => op = WK_OR \/ is_Some (wk_branch op) | WK_BAD _ => False | _ => True end.

(** Sizes for which 126 terms fit the block: no instruction takes more than 24
    bytes, prologue and epilogue together not more than 512.  (On the i386 they
    take at most 10 and 37.) *)
Definition max_ilen := 24.
Definition sizes_ok (ilen : vinstr -> Z) (prologue epilogue : Z) : Prop :=
  (forall i, 0 <= ilen i <= max_ilen) /\ 0 <= prologue /\ 0 <= epilogue /\ prologue + epilogue <= 512.

(** What compiling one term does to the code and the labels. *)
Record emitted (t : wk_term) (l : Z) (c c' : cst) (v v' : vstate) : Prop := mkEmitted {
  em_lab : end_label c v = Some l;
  em_code : v_code v' = v_code v ++ [term_instr t (op1 c) l];
  em_c : c' = mkCst (is_or t) (if is_val t then negb (op1 c) else op1 c) (Some l);
  em_last : last_label v' = last_label v + b2z (start_term c);
  em_addr : addr_of v' l = (if is_or t then Some (length (v_code v')) else if start_term c then None else addr_of v l);
  em_other : forall l', l' <> l -> l' < last_label v -> addr_of v' l' = addr_of v l';
  em_bytes : v_bytes v' <= v_bytes v + max_ilen;
  em_lt : 0 < l < last_label v';
  em_ok : v_ok v';
  em_valid : term_ok t }.

(** The finished code [v'] behaves, from where [v] ends, like the terms [ts]. *)
Record behaves (ts : list wk_term) (c : cst) (v v' : vstate) : Prop := mkBehaves {
  be_prefix : exists k, v_code v' = v_code v ++ k;
  be_keep : forall l, 0 < l < last_label v -> (end_of_term c <> Some l \/ start_term c = true /\ ts <> []) -> addr_of v' l = addr_of v l;
  be_go : forall rd fuel g, (length ts + 2 <= fuel)%nat -> g_z g = 0 ->
    vrun rd v' fuel (length (v_code v)) g = Some (wk_eval rd ts false (op1 c) (g_r1 g) (g_r2 g) (g_tag g));
  be_skip : forall l, end_of_term c = Some l -> (start_term c = false \/ ts = []) ->
    exists a, addr_of v' l = Some a /\ forall rd fuel g, (length ts + 2 <= fuel)%nat -> g_z g = 0 ->
      vrun rd v' fuel a g = Some (wk_eval rd ts true (op1 c) (g_r1 g) (g_r2 g) (g_tag g)) }.

Lemma vtest_cmp op b x y : wk_branch op = Some b -> vtest b x y = negb (wk_cmp op x y).
Proof.
  unfold wk_branch, wk_cmp. repeat case_match; intros [= <-]; cbn; try done.
  - apply Z.leb_antisym.
  - apply Z.ltb_antisym.
  - apply Z.leb_antisym.
  - apply Z.ltb_antisym.
  - by rewrite negb_involutive.
Qed.

Lemma ptov_word p : u32 (0 + ptov p) = ptov p.
Proof. unfold ptov. rewrite Z.add_0_l. apply u32_small, u32_range. Qed.

(** One instruction of the finished code. *)
Lemma code_at v v1 v' i :
  v_code v1 = v_code v ++ [i] -> (exists k, v_code v' = v_code v1 ++ k) ->
  v_code v' !! length (v_code v) = Some i /\ length (v_code v1) = S (length (v_code v)).
Proof.
  intros E1 [k Ek]. rewrite Ek, E1, <- app_assoc. split; [|rewrite length_app; cbn; lia]. by apply list_lookup_middle.
Qed.

Lemma behaves_cons t ts l c c' v v1 v' :
  emitted t l c c' v v1 -> behaves ts c' v1 v' -> behaves (t :: ts) c v v'.
Proof.
  intros [Hlab Hcode -> Hlast Haddr Hother _ Hlt Hok1 Hval] [Hpre Hkeep Hgo Hskip]. cbn [start_term end_of_term op1] in *.
  destruct (code_at v v1 v' _ Hcode Hpre) as [Hat Hlen]. rewrite Hlen in Hgo.
  split.
  - destruct Hpre as [k Ek]. exists (term_instr t (op1 c) l :: k). by rewrite Ek, Hcode, <- app_assoc.
  - intros l0 Hl0 Hc. assert (l0 <> l) as Hne.
    { unfold end_label in Hlab. destruct (start_term c); [injection Hlab as <-; lia|]. naive_solver. }
    rewrite Hkeep; [apply Hother; [done|lia]| |left; congruence]. rewrite Hlast. destruct (start_term c); cbn; lia.
  - intros rd [|fuel] g Hf Hz; [lia|]. cbn [vrun]. rewrite Hat. cbn [length] in Hf.
    destruct t as [p k|i|n|op|ty]; cbn [term_instr is_or is_val wk_eval] in *; [..|done].
    + rewrite Hgo by (lia || by destruct (op1 c)). cbn [rget]. rewrite Hz, ptov_word. by destruct (op1 c).
    + rewrite Hgo by (lia || by destruct (op1 c)). by destruct (op1 c).
    + rewrite Hgo by (lia || done). done.
    + destruct (Z.eqb_spec op WK_OR) as [->|Hor]; [done|]. destruct Hval as [?|[b Hb]]; [done|]. rewrite Hb.
      cbn [rget]. rewrite (vtest_cmp op b) by done. destruct (wk_cmp op (g_r1 g) (g_r2 g)); cbn [negb orb].
      * rewrite Hgo by (lia || done). done.
      * destruct (Hskip l eq_refl) as (a & Ha & Hrun); [by left|]. unfold addr_of in Ha. rewrite Ha, Hrun by (lia || done). done.
  - intros l0 Hl0 [Hst|?]; [|done]. unfold end_label in Hlab. rewrite Hst, Hl0 in Hlab. injection Hlab as ->. cbn [length].
    destruct (is_or t) eqn:Hor.
    + destruct t as [| | |op|]; try done. cbn [is_or is_val] in *. cbn [wk_eval]. rewrite Hor. destruct ts as [|t' ts].
      * destruct (Hskip l eq_refl) as (a & Ha & Hrun); [by right|]. exists a. split; [done|].
        intros rd fuel g Hf Hz. cbn [length] in Hf. rewrite Hrun by (cbn; lia || done). done.
      * exists (length (v_code v1)). split; [rewrite Hkeep; [done|done|by right]|].
        intros rd fuel g Hf Hz. rewrite Hlen. rewrite Hgo by (cbn in *; lia || done). done.
    + destruct (Hskip l eq_refl) as (a & Ha & Hrun); [by left|]. exists a. split; [done|].
      intros rd fuel g Hf Hz. rewrite Hrun by (lia || done).
      destruct t as [p k|i|n|op|ty]; cbn [is_or is_val wk_eval] in *; try done. by rewrite Hor.
Qed.

(** ** Emitting *)

Section compile.
Context (ilen : vinstr -> Z) (prologue epilogue : Z).
Context (Hsz : sizes_ok ilen prologue epilogue).

Lemma get_label_run l r v (Q : v_label_rec -> vstate -> Prop) :
  v_labels v !! l = Some r -> Q r v -> wp (get_label l) v Q.
Proof. intros Hl HQ. apply wp_of_option. eauto. Qed.

Definition with_label (l : Z) (r : v_label_rec) (v : vstate) : vstate :=
  mkV (v_code v) (v_bytes v) (<[l := r]> (v_labels v)) (last_label v).
Definition with_instr (i : vinstr) (v : vstate) : vstate :=
  mkV (v_code v ++ [i]) (v_bytes v + ilen i) (v_labels v) (last_label v).

Lemma v_label_run l r v (Q : unit -> vstate -> Prop) :
  l < MAX_LABELS -> v_labels v !! l = Some r ->
  Q tt (with_label l (mkLab (num_refs r) (Some (length (v_code v)))) v) -> wp (v_label l) v Q.
Proof.
  intros Hl Hr HQ. apply wp_bind, wp_assert. split; [by apply Z.ltb_lt|]. apply wp_bind. by eapply get_label_run.
Qed.

Lemma v_dmark_run l r v (Q : unit -> vstate -> Prop) :
  l < MAX_LABELS -> v_labels v !! l = Some r -> num_refs r < MAX_REFS ->
  Q tt (with_label l (mkLab (num_refs r + 1) (l_addr r)) v) -> wp (v_dmark l) v Q.
Proof.
  intros Hl Hr Hn HQ. apply wp_bind, wp_assert. split; [by apply Z.ltb_lt|]. apply wp_bind. eapply get_label_run; [done|].
  apply wp_bind, wp_assert. split; [by apply Z.ltb_lt|done].
Qed.

(** An instruction that refers to a label. *)
Definition marked (i : vinstr) (l : Z) (r : v_label_rec) (v : vstate) : vstate :=
  with_label l (mkLab (num_refs r + 1) (l_addr r)) (with_instr i v).

Lemma emit_run i v (Q : unit -> vstate -> Prop) :
  v_bytes v + max_ilen <= WK_MAX_CODE_BYTES -> Q tt (with_instr i v) -> wp (emit ilen i) v Q.
Proof.
  intros Hb HQ. apply wp_bind, wp_gets, wp_bind, wp_assert. split; [|exact HQ]. apply Z.leb_le. pose proof (proj1 Hsz i). lia.
Qed.

Lemma emit_mark_run i l r v (Q : unit -> vstate -> Prop) :
  v_bytes v + max_ilen <= WK_MAX_CODE_BYTES ->
  l < MAX_LABELS -> v_labels v !! l = Some r -> num_refs r < MAX_REFS -> Q tt (marked i l r v) ->
  wp (emit ilen i ;; v_dmark l) v Q.
Proof. intros Hb Hl Hr Hn HQ. apply wp_bind, emit_run; [done|]. by eapply (v_dmark_run l r). Qed.

Lemma addr_with_label l r v l' : addr_of (with_label l r v) l' = if l' =? l then l_addr r else addr_of v l'.
Proof.
  unfold addr_of. cbn. destruct (Z.eqb_spec l' l) as [->|]; [by rewrite lookup_insert_eq|by rewrite lookup_insert_ne].
Qed.

Lemma addr_marked i l r v l' : addr_of (marked i l r v) l' = if l' =? l then l_addr r else addr_of v l'.
Proof. unfold marked. by rewrite addr_with_label. Qed.

Lemma v_ok_label l r r0 v :
  v_ok v -> v_labels v !! l = Some r0 -> 0 <= l < last_label v -> 0 <= num_refs r <= zlen (v_code v) - 2 -> v_ok (with_label l r v).
Proof.
  intros [H1 H2 H3] Hr Hl Hn. split; [done|done|]. intros l' Hl'. cbn. destruct (decide (l = l')) as [<-|].
  - rewrite lookup_insert_eq. eauto.
  - rewrite lookup_insert_ne by done. by apply H3.
Qed.

Lemma instr_len i v : zlen (v_code (with_instr i v)) = zlen (v_code v) + 1.
Proof. unfold zlen. cbn. rewrite length_app. cbn. lia. Qed.

Lemma v_ok_instr i v : v_ok v -> v_ok (with_instr i v).
Proof.
  intros [H1 H2 H3]. split; [cbn; rewrite length_app; lia|cbn; lia|].
  intros l Hl. destruct (H3 l Hl) as (r & Hr & ?). exists r. rewrite instr_len. split; [done|lia].
Qed.

Lemma v_ok_marked i l r v :
  v_ok v -> v_labels v !! l = Some r -> 0 <= l < last_label v -> v_ok (marked i l r v).
Proof.
  intros Hok Hr Hl. eapply v_ok_label; [by apply v_ok_instr|exact Hr|done|].
  destruct (vo_dom v Hok l Hl) as (r' & Hr' & ?). rewrite Hr in Hr'. injection Hr' as <-.
  rewrite instr_len. cbn. lia.
Qed.

(** ** Pages held by a predicate *)

Definition wk_pool (s : wkst) : pool := h_pool (wk_h s).

Definition pin_by (q n : Z) (pp : Ppage) : Ppage := pp_set_pinned (pp_pinned pp + n) pp.

(** From [s0], the pages [pages] were pinned and recorded in the array [pgs]. *)
Record holds (A : gmap Z Z) (pgs : Z) (pages : list Z) (s0 s : wkst) : Prop := mkHolds {
  hd_inv : heap_inv A (wk_h s);
  hd_blk : exists n, A !! pgs = Some n /\ 4 * WK_MAX_PP <= n;
  hd_pool : forall q, ppages (wk_pool s) !! q = pin_by q (count q pages) <$> ppages (wk_pool s0) !! q;
  hd_num : nppage (wk_pool s) = nppage (wk_pool s0);
  hd_np : next_pp s = zlen pages /\ zlen pages <= WK_MAX_PP - 1;
  hd_words : forall i w, pages !! i = Some w -> h_mem (wk_h s) !! (pgs + 4 * Z.of_nat i) = Some w;
  hd_pages : forall q, q ∈ pages -> q <> 0 /\ is_Some (ppages (wk_pool s0) !! q);
  hd_kept : forall b n x, A !! b = Some n -> b <> pgs -> b <= x < b + n -> h_mem (wk_h s) !! x = h_mem (wk_h s0) !! x;
  hd_rest : wk_et s = wk_et s0 /\ wk_acl s = wk_acl s0 /\ wk_preds s = wk_preds s0 }.

Lemma holds_v A pgs pages s0 s v : holds A pgs pages s0 s -> holds A pgs pages s0 (wk_set_v v s).
Proof. intros []. by split. Qed.

(** A change of pages that the heap does not look at. *)
Lemma heap_inv_pool A h P :
  heap_inv A h -> pool_ok P -> nppage P = nppage (h_pool h) ->
  (forall q pp, ppages (h_pool h) !! q = Some pp ->
     exists pp', ppages P !! q = Some pp' /\ pp_u pp' = pp_u pp /\ pp_status pp' = pp_status pp) ->
  heap_inv A (set_hpool P h).
Proof.
  intros (G & L & F & [H1 H2 H3 H4 H5 H6 H7 H8] & HA) Hok Hn HP. exists G, L, F. split; [|done].
  assert (forall p bs c, kpage p bs c h -> kpage p bs c (set_hpool P h)) as Hk.
  { intros p bs c (pp & l & n & Hp & Hst & Hu & Hc). destruct (HP p pp Hp) as (pp' & Hp' & Eu & Es).
    exists pp', l, n. rewrite Es, Eu. done. }
  split; try done.
  - cbn. by rewrite Hn.
  - intros i Hi. destruct (H4 i Hi) as [? ? ?]. by split.
  - intros p i Hp. destruct (H5 p i Hp). auto.
  - intros p n Hp. destruct (H6 p n Hp). auto.
Qed.

Lemma heap_inv_repinned A h p n pp :
  heap_inv A h -> ppages (h_pool h) !! p = Some pp -> 0 <= n < 2 ^ 31 ->
  heap_inv A (set_hpool (repinned p n pp (h_pool h)) h).
Proof.
  intros H Hp Hn. apply heap_inv_pool; [done| |done|].
  - destruct H as (G & L & F & H & _). by apply repinned_ok; [apply H|..].
  - intros q pq Hq. cbn. destruct (decide (p = q)) as [<-|Hne].
    + rewrite lookup_insert_eq. assert (pq = pp) as -> by congruence. by eexists.
    + rewrite lookup_insert_ne by done. eauto.
Qed.

Definition acls_wf (s : wkst) : Prop :=
  forall q pp, ppages (wk_pool s) !! q = Some pp -> acl_wf (wk_acl s) (pp_acl pp).
Definition pins_low (s : wkst) : Prop :=
  forall q pp, ppages (wk_pool s) !! q = Some pp -> 0 <= pp_pinned pp /\ pp_pinned pp + WK_MAX_PP < 2 ^ 31.

Lemma holds_pin A pgs pages s0 s p pp0 :
  holds A pgs pages s0 s -> ppages (wk_pool s0) !! p = Some pp0 -> p <> 0 -> zlen pages < WK_MAX_PP - 1 -> pins_low s0 ->
  let pp := pin_by p (count p pages) pp0 in
  let h := set_hpool (repinned p (pp_pinned pp + 1) pp (wk_pool s)) (wk_h s) in
  holds A pgs (pages ++ [p]) s0
    (wk_set_pp (zlen pages + 1) (wk_set_h (set_hmem (<[pgs + 4 * zlen pages := p]> (h_mem h)) h) s)).
Proof.
  intros [Hinv (n & Hblk & Hn) Hpool Hnum [Hnp Hlen] Hw Hpgs Hkp Hrest] Hp Hp0 Hroom Hlow pp h.
  pose proof (count_le p pages). destruct (Hlow p pp0 Hp) as [Hlo Hhi]. pose proof (Hpool p) as Hpp. rewrite Hp in Hpp. cbn in Hpp.
  assert (heap_inv A h) as Hh by (apply heap_inv_repinned; [done..|]; subst pp; cbn; unfold WK_MAX_PP in *; lia).
  assert (0 <= zlen pages) by (unfold zlen; lia).
  split; try done.
  - eapply client_write; [done|done|]. unfold WK_MAX_PP in *. lia.
  - eauto.
  - intros q. cbn. rewrite count_app. destruct (Z.eqb_spec p q) as [<-|Hne].
    + rewrite lookup_insert_eq, Hp. subst pp. unfold pin_by. cbn. by rewrite Z.add_assoc.
    + rewrite lookup_insert_ne by done. rewrite Z.add_0_r. apply Hpool.
  - rewrite zlen_app. split; [done|]. unfold zlen at 2. cbn. lia.
  - intros i w Hi. cbn. apply lookup_app_Some in Hi as [Hi|[Hge Hi]].
    + rewrite lookup_insert_ne; [by apply Hw|]. apply lookup_lt_Some in Hi. unfold zlen. lia.
    + assert (i = length pages) as -> by (apply list_lookup_singleton_Some in Hi; lia).
      rewrite Nat.sub_diag in Hi. injection Hi as ->. apply lookup_insert_eq.
  - intros q [Hq|Hq]%elem_of_app; [by apply Hpgs|]. apply list_elem_of_singleton in Hq as ->. eauto.
  - intros b m x Hb Hne Hx. cbn. rewrite lookup_insert_ne; [by eapply Hkp|].
    destruct Hinv as (G & L & F & HH & HA). intros <-. apply HA in Hb, Hblk.
    destruct (block_disjoint _ _ _ _ b m pgs n HH (live_block _ _ _ _ _ Hb) (live_block _ _ _ _ _ Hblk)); [done|unfold WK_MAX_PP in *; lia..].
Qed.

Lemma wk_var_page_spec A pgs pages s0 s cur e p k :
  holds A pgs pages s0 s -> curenv (wk_et s0) = Some cur -> envs (wk_et s0) !! cur = Some e ->
  acls_wf s0 -> pins_low s0 -> pages_ok None (wk_pool s0) -> 0 <= p ->
  wp (wk_var_page pgs p k) s (fun r s' => wk_v s' = wk_v s /\ exists pages', holds A pgs pages' s0 s').
Proof.
  intros H Hcur He Hacl Hlow Hpg Hp. pose proof H as [Hinv (n & Hblk & Hn) Hpool Hnum [Hnp Hlen] Hw Hpgs Hkp (Eet & Eacl & Epr)].
  unfold wk_var_page. apply wp_bind, wp_gets. rewrite Hnp.
  destruct (Z.leb_spec (WK_MAX_PP - 1) (zlen pages)); [apply wp_ret; eauto|].
  apply wp_bind, wp_zoom, wp_of_option. exists cur. rewrite Eet. split; [done|].
  replace (wk_set_et (wk_et s0) s) with s by (destruct s; cbn in *; by rewrite <- Eet).
  apply wp_bind, wp_zoom, wp_of_option. exists e. rewrite Eet. split; [done|].
  replace (wk_set_et (wk_et s0) s) with s by (destruct s; cbn in *; by rewrite <- Eet).
  destruct (env_getcap e k) as [c|r] eqn:Ec; [|apply wp_ret; eauto].
  apply wp_bind, wp_gets. change (nppage (h_pool (wk_h s))) with (nppage (wk_pool s)). rewrite Hnum.
  destruct ((PGNO p =? 0) || (nppage (wk_pool s0) <=? PGNO p)) eqn:Er; [apply wp_ret; eauto|].
  apply orb_false_iff in Er as [Er0%Z.eqb_neq Er1%Z.leb_gt].
  assert (0 <= PGNO p) by (apply Z.shiftr_nonneg; done).
  destruct (proj2 (pg_dom _ _ Hpg (PGNO p))) as [pp0 Hpp0]; [lia|].
  pose proof (Hpool (PGNO p)) as Hpp. rewrite Hpp0 in Hpp. cbn in Hpp. set (pp := pin_by _ _ _) in Hpp.
  apply wp_bind, wp_zoom, wp_zoom, wp_get_pp. exists pp. split; [done|].
  assert (wk_set_h (set_hpool (h_pool (wk_h s)) (wk_h s)) s = s) as Es by (by destruct s as [[]]). rewrite Es.
  destruct (pp_status pp =? PP_USER).
  2: { destruct (pp_status pp =? PP_KERNRO); apply wp_ret; eauto. }
  apply wp_bind, wp_gets, wp_bind, wp_zoom, wp_zoom, wp_bind, wp_get_pp. exists pp. split; [done|].
  apply wp_of_option. eexists. split; [apply acl_access_ok; rewrite Eacl; apply Forall_take; exact (Hacl _ _ Hpp0)|]. rewrite Es.
  destruct (_ <? 0); [apply wp_ret; eauto|].
  apply wp_bind, wp_zoom, wp_zoom. eapply wp_mono; [apply (ppage_pin_run _ pp); [|done|]|].
  - destruct Hinv as (G & L & F & HH & _). apply HH.
  - destruct (Hlow _ _ Hpp0) as [? ?]. pose proof (count_le (PGNO p) pages). subst pp. cbn. unfold WK_MAX_PP in *. lia.
  - intros [] P ->. apply wp_bind, wp_zoom, wp_modify, wp_bind, wp_modify, wp_ret. split; [done|].
    exists (pages ++ [PGNO p]). by apply (holds_pin A pgs pages s0 s (PGNO p) pp0).
Qed.

(** ** One term *)

(** The label of the product is ready. *)
Record started (c : cst) (l : Z) (v v1 : vstate) : Prop := mkStarted {
  sd_lab : end_label c v = Some l;
  sd_code : v_code v1 = v_code v;
  sd_bytes : v_bytes v1 = v_bytes v;
  sd_last : last_label v1 = last_label v + b2z (start_term c);
  sd_addr : addr_of v1 l = if start_term c then None else addr_of v l;
  sd_other : forall l', l' <> l -> addr_of v1 l' = addr_of v l';
  sd_lt : 0 < l < last_label v1;
  sd_ok : v_ok v1 }.

Definition cst_ok (c : cst) (v : vstate) : Prop :=
  start_term c = false -> exists l, end_of_term c = Some l /\ 0 < l < last_label v.

Lemma genlabel_started c v :
  v_ok v -> start_term c = true ->
  started c (last_label v) v (mkV (v_code v) (v_bytes v) (<[last_label v := mkLab 0 None]> (v_labels v)) (last_label v + 1)).
Proof.
  intros [H1 H2 H3] Hst. split; unfold end_label; rewrite ?Hst; cbn; try done; try lia.
  - unfold addr_of. cbn. by rewrite lookup_insert_eq.
  - intros l' Hl'. unfold addr_of. cbn. by rewrite lookup_insert_ne.
  - split; cbn; [done|lia|]. intros l Hl. destruct (decide (last_label v = l)) as [<-|Hne].
    + rewrite lookup_insert_eq. eexists. split; [done|]. cbn. unfold zlen. lia.
    + rewrite lookup_insert_ne by done. apply H3. lia.
Qed.

Lemma start_run c s (Q : cst -> wkst -> Prop) :
  v_ok (wk_v s) -> cst_ok c (wk_v s) -> last_label (wk_v s) < MAX_LABELS ->
  (forall l v1, started c l (wk_v s) v1 -> Q (mkCst false (op1 c) (Some l)) (wk_set_v v1 s)) ->
  wp (if start_term c then l <- in_v v_genlabel ;; mreturn (mkCst false (op1 c) (Some l)) else mreturn c) s Q.
Proof.
  intros Hok Hc Hlast HQ. destruct (start_term c) eqn:Hst.
  - apply wp_bind, wp_zoom, wp_bind, wp_gets, wp_bind, wp_assert. split; [by apply Z.ltb_lt|].
    apply wp_bind, wp_modify, wp_bind, wp_modify, wp_ret, wp_ret. apply HQ. by apply genlabel_started.
  - apply wp_ret. destruct (Hc Hst) as (l & Hl & Hlt). destruct c as [st o e]. cbn in *. subst.
    specialize (HQ l (wk_v s)). replace (wk_set_v (wk_v s) s) with s in HQ by (by destruct s). apply HQ.
    split; cbn; try done; lia.
Qed.

Lemma emitted_plain t l c v v1 :
  started c l v v1 -> term_ok t -> is_or t = false ->
  emitted t l c (mkCst false (if is_val t then negb (op1 c) else op1 c) (Some l)) v (with_instr (term_instr t (op1 c) l) v1).
Proof.
  intros [H1 H2 H2b H3 H4 H5 H6 H7] Ht Hor. split; cbn; rewrite ?Hor, ?H2; try done.
  - intros l' Hne _. by apply H5.
  - rewrite H2b. pose proof (proj1 Hsz (term_instr t (op1 c) l)). lia.
  - by apply v_ok_instr.
Qed.

Lemma emitted_branch op b l c r v v1 :
  started c l v v1 -> wk_branch op = Some b -> v_labels v1 !! l = Some r ->
  emitted (WK_OP op) l c (mkCst false (op1 c) (Some l)) v (marked (v_b b r1 r2 l) l r v1).
Proof.
  intros [H1 H2 H2b H3 H4 H5 H6 H7] Hb Hr.
  assert ((op =? WK_OR) = false) as Hor by (apply Z.eqb_neq; intros ->; discriminate Hb).
  split; cbn [is_or is_val term_instr start_term]; rewrite ?Hor, ?Hb; try done.
  - cbn. by rewrite H2.
  - unfold marked. rewrite addr_with_label, Z.eqb_refl. rewrite <- H4. unfold addr_of. by rewrite Hr.
  - intros l' Hne _. unfold marked. rewrite addr_with_label. destruct (Z.eqb_spec l' l) as [->|]; [done|]. by apply H5.
  - cbn. rewrite H2b. pose proof (proj1 Hsz (v_b b r1 r2 l)). lia.
  - eapply v_ok_marked; [done|done|lia].
  - right. eauto.
Qed.

Lemma emitted_or l c v v1 ra :
  started c l v v1 -> v_labels v1 !! 0 = Some ra ->
  forall r, v_labels v1 !! l = Some r ->
  emitted (WK_OP WK_OR) l c (mkCst true (op1 c) (Some l)) v
    (with_label l (mkLab (num_refs r) (Some (length (v_code v1 ++ [v_retu tag])))) (marked (v_retu tag) 0 ra v1)).
Proof.
  intros [H1 H2 H2b H3 H4 H5 H6 H7] Hra r Hr. pose proof (vo_last v1 H7).
  split; cbn [is_or is_val term_instr start_term]; rewrite ?Z.eqb_refl; try done.
  - cbn. by rewrite H2.
  - by rewrite addr_with_label, Z.eqb_refl.
  - intros l' Hne _. rewrite addr_with_label. destruct (Z.eqb_spec l' l) as [->|]; [done|].
    unfold marked. rewrite addr_with_label. destruct (Z.eqb_spec l' 0) as [->|]; [|by apply H5].
    rewrite <- H5 by done. unfold addr_of. by rewrite Hra.
  - cbn. rewrite H2b. pose proof (proj1 Hsz (v_retu tag)). lia.
  - destruct (vo_dom v1 H7 l) as (r' & Hr' & ?); [lia|]. rewrite Hr in Hr'. injection Hr' as <-.
    eapply (v_ok_label l _ r); [eapply v_ok_marked; [done|done|lia]| |cbn; lia|].
    + cbn. by rewrite lookup_insert_ne by lia.
    + cbn. unfold zlen in *. rewrite length_app. cbn. lia.
  - by left.
Qed.

Section terms.
Context (A : gmap Z Z) (pgs : Z) (s0 : wkst) (cur : Z) (e : Env).
Context (Hcur : curenv (wk_et s0) = Some cur) (He : envs (wk_et s0) !! cur = Some e).
Context (Hacl : acls_wf s0) (Hlow : pins_low s0) (Hpg : pages_ok None (wk_pool s0)).

(** The state between two terms. *)
Record mid (n : Z) (c : cst) (s : wkst) : Prop := mkMid {
  mi_v : v_ok (wk_v s);
  mi_c : cst_ok c (wk_v s);
  mi_len : zlen (v_code (wk_v s)) = n + 2;
  mi_last : last_label (wk_v s) <= n + 1;
  mi_bytes : v_bytes (wk_v s) <= prologue + max_ilen * (n + 2);
  mi_holds : exists pages, holds A pgs pages s0 s }.

Definition term_words (t : wk_term) : Prop := match t with WK_VAR p _ => 0 <= p | _ => True end.

Definition compiled_term (n : Z) (t : wk_term) (c : cst) (s : wkst) (r : cst + Z) (s' : wkst) : Prop :=
  match r with
  | inl c' => (exists l, emitted t l c c' (wk_v s) (wk_v s')) /\ exists pages, holds A pgs pages s0 s'
  | inr err => err < 0 /\ exists pages, holds A pgs pages s0 s'
  end.

Lemma compile_term_spec n t c s :
  mid n c s -> 0 <= n < 126 -> term_words t ->
  wp (compile_term ilen pgs t c) s (compiled_term n t c s).
Proof.
  intros [Hv Hc Hlen Hlast Hby [pages Hh]] Hn Hw. apply wp_bind. apply start_run; [done|done|unfold MAX_LABELS; lia|].
  intros l v1 Hsd. assert (v_bytes v1 + max_ilen <= WK_MAX_CODE_BYTES) as Hroom.
  { rewrite (sd_bytes _ _ _ _ Hsd). destruct Hsz as (_ & ? & ? & ?). unfold max_ilen, WK_MAX_CODE_BYTES in *. lia. }
  pose proof (sd_ok _ _ _ _ Hsd) as Hok1. pose proof (sd_lt _ _ _ _ Hsd) as Hlt1.
  apply (holds_v _ _ _ _ _ v1) in Hh. destruct (vo_dom v1 Hok1 l) as (r & Hr & Hnr); [lia|].
  pose proof (sd_code _ _ _ _ Hsd) as Ec. rewrite Ec, Hlen in Hnr.
  assert (l < MAX_LABELS) as Hlm.
  { pose proof (sd_last _ _ _ _ Hsd). unfold MAX_LABELS. destruct (start_term c); cbn in *; lia. }
  apply wp_bind, wp_bind, wp_gets, wp_ret.
  destruct (_ <? _); [apply wp_ret; split; [elia|eauto]|]. cbn [op1 end_of_term start_term].
  destruct t as [p k|i|m|op|ty].
  - apply wp_bind. eapply wp_mono; [by eapply wk_var_page_spec|]. intros r0 s1 (Ev & pages' & Hh1).
    destruct (Z.ltb_spec r0 0); [apply wp_ret; split; eauto|].
    apply wp_bind, wp_zoom. rewrite Ev. apply emit_run; [done|]. apply wp_ret. split; [|exists pages'; by apply holds_v].
    exists l. by apply (emitted_plain (WK_VAR p k) l c).
  - apply wp_bind, wp_zoom, emit_run; [done|]. apply wp_ret. split; [|exists pages; by apply holds_v].
    exists l. by apply (emitted_plain (WK_IMM i) l c).
  - apply wp_bind, wp_zoom, emit_run; [done|]. apply wp_ret. split; [|exists pages; by apply holds_v].
    exists l. by apply (emitted_plain (WK_TAG m) l c).
  - apply wp_bind, wp_ret. destruct (Z.eqb_spec op WK_OR) as [->|Hor].
    + destruct (vo_dom v1 Hok1 0) as (ra & Hra & Hna); [pose proof (vo_last _ Hok1); lia|]. rewrite Ec, Hlen in Hna.
      apply wp_bind, wp_zoom. eapply emit_mark_run; [done|done|exact Hra|unfold MAX_REFS; lia|].
      apply wp_bind, wp_zoom. eapply (v_label_run l r); [done|cbn; rewrite lookup_insert_ne by lia; exact Hr|].
      apply wp_ret. split; [|exists pages; exact (holds_v _ _ _ _ _ _ (holds_v _ _ _ _ _ _ Hh))]. exists l. by eapply emitted_or.
    + destruct (wk_branch op) as [b|] eqn:Hb; [|apply wp_ret; split; [elia|eauto]].
      apply wp_bind, wp_zoom. eapply emit_mark_run; [done|done|exact Hr|unfold MAX_REFS; lia|].
      apply wp_ret. split; [|exists pages; exact (holds_v _ _ _ _ _ _ Hh)]. exists l. by eapply emitted_branch.
  - apply wp_ret. split; [elia|eauto].
Qed.

Lemma emitted_mid n t l c c' s s' :
  mid n c s -> emitted t l c c' (wk_v s) (wk_v s') -> (exists pages, holds A pgs pages s0 s') -> mid (n + 1) c' s'.
Proof.
  intros [Hv Hc Hlen Hlast Hby _] [H1 H2 -> H4 H5 H6 Hb H7 H8 H9] Hh. split; [done| | | | |done].
  - intros Hst. cbn in *. eauto.
  - rewrite H2, zlen_app. unfold zlen in *. cbn. lia.
  - rewrite H4. destruct (start_term c); cbn; lia.
  - lia.
Qed.

(** ** The whole predicate *)

Definition ended (c : cst) (v : vstate) : Prop := exists l, end_of_term c = Some l /\ 0 < l < last_label v.

Definition compiled (ts : list wk_term) (c : cst) (s : wkst) (r : Z) (s' : wkst) : Prop :=
  (exists pages, holds A pgs pages s0 s') /\ (r < 0 \/ r = 0 /\ behaves ts c (wk_v s) (wk_v s')).

(** The code that ends a predicate. *)
Definition finished (l : Z) (ra r : v_label_rec) (v : vstate) : vstate :=
  let v1 := with_label l (mkLab (num_refs r) (Some (S (length (v_code v))))) (marked (v_retu tag) 0 ra v) in
  let ra1 := mkLab (num_refs ra + 1) (l_addr ra) in
  let v2 := marked (v_retui 0) 0 ra1 v1 in
  let v3 := with_label 0 (mkLab (num_refs ra1 + 1) (Some (length (v_code v2)))) v2 in
  mkV (v_code v3) (v_bytes v3 + epilogue) (v_labels v3) (last_label v3).

Lemma addr_bytes v b l : addr_of (mkV (v_code v) b (v_labels v) (last_label v)) l = addr_of v l.
Proof. done. Qed.

Lemma finished_behaves l ra r c v : ended c v -> end_of_term c = Some l -> behaves [] c v (finished l ra r v).
Proof.
  intros (l0 & El & Hlt) Hl. assert (l0 = l) as -> by congruence.
  assert (v_code (finished l ra r v) = v_code v ++ [v_retu tag; v_retui 0]) as Ec by (cbn; by rewrite <- app_assoc).
  split.
  - eauto.
  - intros l' Hl' [Hne|[_ ?]]; [|done]. unfold finished. cbv zeta. rewrite addr_bytes, addr_with_label, addr_marked, addr_with_label, addr_marked.
    assert (l' <> l) by congruence. by rewrite (proj2 (Z.eqb_neq l' 0)), (proj2 (Z.eqb_neq l' l)) by (done || lia).
  - intros rd [|fuel] g Hf _; [cbn in Hf; lia|]. cbn [vrun]. rewrite Ec, list_lookup_middle by done. done.
  - intros l' Hl' _. assert (l' = l) as -> by congruence. exists (S (length (v_code v))). split.
    + unfold finished. cbv zeta. rewrite addr_bytes, addr_with_label, addr_marked, addr_with_label, Z.eqb_refl.
      by rewrite (proj2 (Z.eqb_neq l 0)) by lia.
    + intros rd [|fuel] g Hf _; [cbn in Hf; lia|]. cbn [vrun].
      rewrite Ec, lookup_app_r by lia. replace (S _ - _)%nat with 1%nat by lia. done.
Qed.

Lemma compile_end_spec n c s :
  mid n c s -> 0 <= n <= 126 -> ended c (wk_v s) -> wp (compile_end ilen epilogue c) s (compiled [] c s).
Proof.
  intros [Hv Hc Hlen Hlast Hby [pages Hh]] Hn Hend. pose proof Hsz as (Hi & Hp0 & Hp1 & Hp2). unfold max_ilen in *. pose proof Hend as (l & El & Hl).
  apply wp_bind, wp_bind, wp_gets, wp_ret. destruct (_ <? _); [apply wp_ret; split; [eauto|left; elia]|].
  destruct (vo_dom _ Hv 0) as (ra & Hra & Hna); [lia|]. destruct (vo_dom _ Hv l) as (r & Hr & Hnr); [lia|]. rewrite Hlen in *.
  apply wp_bind, wp_zoom. eapply emit_mark_run; [unfold max_ilen, WK_MAX_CODE_BYTES; lia|done|exact Hra|unfold MAX_REFS; lia|].
  apply wp_bind. rewrite El. apply wp_ret.
  apply wp_bind, wp_zoom. eapply (v_label_run l r); [unfold MAX_LABELS; lia|cbn; rewrite lookup_insert_ne by lia; exact Hr|].
  apply wp_bind, wp_zoom. eapply (emit_mark_run _ 0 (mkLab (num_refs ra + 1) (l_addr ra))); [cbn; pose proof (Hi (v_retu tag)); unfold max_ilen, WK_MAX_CODE_BYTES; lia|done| |unfold MAX_REFS; cbn; lia|].
  { cbn. rewrite lookup_insert_ne by lia. apply lookup_insert_eq. }
  apply wp_bind, wp_zoom, wp_bind. eapply v_label_run; [done|cbn; apply lookup_insert_eq|]. apply wp_bind, wp_gets, wp_bind, wp_assert.
  split; [apply Z.leb_le; cbn; pose proof (Hi (v_retu tag)); pose proof (Hi (v_retui 0)); unfold WK_MAX_CODE_BYTES; lia|].
  apply wp_modify, wp_ret. split.
  - exists pages. exact (holds_v _ _ _ _ _ _ Hh).
  - right. split; [done|].
    match goal with |- behaves _ _ _ ?x => assert (x = finished l ra r (wk_v s)) as -> end; [|by apply finished_behaves].
    unfold finished. cbn. rewrite !length_app. cbn. by rewrite !Nat.add_1_r.
Qed.

Lemma compile_rest n ts c s :
  mid n c s -> 0 <= n -> n + zlen ts <= 126 -> Forall term_words ts -> (ts = [] -> ended c (wk_v s)) ->
  wp (r <- compile_loop ilen pgs ts c ;; match r with inl c' => compile_end ilen epilogue c' | inr err => mreturn err end) s
     (compiled ts c s).
Proof.
  revert n c s. induction ts as [|t ts IH]; intros n c s Hmid Hn Hlen Hw Hend.
  - apply wp_bind, wp_ret. apply (compile_end_spec n); [done|unfold zlen in *; cbn in *; lia|auto].
  - apply Forall_cons in Hw as [Ht Hw]. unfold zlen in Hlen. cbn [length] in Hlen. apply wp_bind. cbn [compile_loop]. apply wp_bind.
    eapply wp_mono; [apply (compile_term_spec n); [done|lia|done]|]. intros [c'|err] s1.
    + intros [[l Hem] Hh]. pose proof (emitted_mid n t l c c' s s1 Hmid Hem Hh) as Hmid1.
      apply (wp_bind (compile_loop ilen pgs ts c')). eapply wp_mono; [apply (IH (n + 1)); [done|lia|unfold zlen; lia|done|]|].
      * intros _. exists l. destruct Hem as [? ? -> ? ? ? ? ? ?]. done.
      * intros r s' [Hh' [Hr|[-> Hb]]]; (split; [done|]); [by left|right]. split; [done|]. by eapply behaves_cons.
    + intros [Herr Hh]. apply wp_ret, wp_ret. split; [done|]. by left.
Qed.

Definition init_v (v : vstate) : vstate :=
  mkV [v_setu tag (u32 (-1)); v_setu z 0] (prologue + ilen (v_setu tag (u32 (-1))) + ilen (v_setu z 0))
      (<[0 := mkLab 0 None]> (v_labels v)) 1.

Definition returns (ts : list wk_term) (v : vstate) : Prop :=
  forall rd g, vrun rd v (length ts + 4) 0 g = Some (wk_eval rd ts false true (g_r1 g) (g_r2 g) (u32 (-1))).

Lemma behaves_returns ts v v' : behaves ts (mkCst true true None) (init_v v) v' -> returns ts v'.
Proof.
  intros [[k Ek] _ Hgo _] rd g. replace (length ts + 4)%nat with (S (S (length ts + 2))) by lia. cbn [vrun].
  rewrite Ek. cbn [lookup list_lookup init_v v_code app rset]. apply (Hgo rd _ (mkRegs (g_r1 g) (g_r2 g) 0 (u32 (-1)))); [lia|done].
Qed.

(** The predicate of environment [cur] is the code at [code], its pages are
    recorded at [pgs]. *)
Record installed (code : Z) (pages : list Z) (s : wkst) : Prop := mkInstalled {
  in_inv : heap_inv A (wk_h s);
  in_cur : curenv (wk_et s) = Some cur;
  in_env : exists e', envs (wk_et s) !! cur = Some e' /\ env_pred e' = code /\ env_pred_pgs e' = pgs;
  in_blk : exists n, A !! pgs = Some n /\ 4 * WK_MAX_PP <= n;
  in_len : zlen pages <= WK_MAX_PP - 1;
  in_words : forall i w, pages !! i = Some w -> h_mem (wk_h s) !! (pgs + 4 * Z.of_nat i) = Some w;
  in_end : h_mem (wk_h s) !! (pgs + 4 * zlen pages) = Some 0;
  in_pages : forall q, q ∈ pages -> q <> 0;
  in_pins : forall q, q ∈ pages -> exists pp, ppages (wk_pool s) !! q = Some pp /\ count q pages <= pp_pinned pp }.

Definition pins_of (s : wkst) (q : Z) : option Z := pp_pinned <$> ppages (wk_pool s) !! q.

(** What [wk_compile] leaves, with and without an error. *)
Definition compiles (ts : list wk_term) (code r : Z) (s' : wkst) : Prop :=
  exists pages v, installed code pages s' /\ wk_preds s' = <[code := v]> (wk_preds s0) /\ (r < 0 \/ r = 0 /\ returns ts v) /\
    (forall q, pins_of s' q = Z.add (count q pages) <$> pins_of s0 q) /\
    wk_et s' = set_envs (<[cur := set_env_pred code (set_env_pred_pgs pgs e)]> (envs (wk_et s0))) (wk_et s0) /\
    (forall b n x, A !! b = Some n -> b <> pgs -> b <= x < b + n -> h_mem (wk_h s') !! x = h_mem (wk_h s0) !! x).

Context (Hinv : heap_inv A (wk_h s0)) (Hblk : exists n, A !! pgs = Some n /\ 4 * WK_MAX_PP <= n).

Lemma holds_nil v : holds A pgs [] s0 (wk_set_v v (wk_set_pp 0 s0)).
Proof.
  split; try done.
  - intros q. cbn. change (count q []) with 0. destruct (ppages _ !! q) as [pp|]; [|done]. cbn. unfold pin_by.
    rewrite Z.add_0_r. by destruct pp.
  - intros q Hq. by apply not_elem_of_nil in Hq.
Qed.

(** Storing the mark that ends the list of pages. *)
Lemma holds_end pages s b n x :
  holds A pgs pages s0 s -> A !! b = Some n -> b <> pgs -> b <= x < b + n -> pgs + 4 * zlen pages <> x.
Proof.
  intros [_ (m & Hm & Hm4) _ _ [_ Hlen] _ _ _ _] Hb Hne Hx Heq. destruct Hinv as (G & L & F & HH & HA). apply HA in Hb, Hm.
  assert (0 <= zlen pages) by (unfold zlen; lia).
  destruct (block_disjoint _ _ _ _ b n pgs m HH (live_block _ _ _ _ _ Hb) (live_block _ _ _ _ _ Hm)); [done|unfold WK_MAX_PP in *; lia..].
Qed.

Lemma compile_exit_spec ts code r pages s :
  holds A pgs pages s0 s -> (r < 0 \/ r = 0 /\ returns ts (wk_v s)) ->
  wp (compile_exit code pgs) s (fun _ s' => compiles ts code r s').
Proof.
  intros Hh Hr. pose proof Hh as [Hi (n & Hn & Hn4) Hp Hnum [Hnp Hlen] Hw Hpgs Hk (Eet & Eacl & Epr)].
  assert (0 <= zlen pages) by (unfold zlen; lia).
  apply wp_bind, wp_gets. rewrite Hnp. apply wp_bind, wp_zoom, wp_modify.
  apply wp_bind, wp_zoom, wp_of_option. exists cur. cbn [wk_et wk_set_h]. rewrite Eet. split; [done|].
  apply wp_bind, wp_zoom, wp_modify, wp_bind, wp_zoom, wp_modify, wp_modify.
  exists pages, (wk_v s). split_and!.
  - split; cbn [wk_h wk_et wk_set_h wk_set_et wk_set_preds]; [|done|..].
    + eapply client_write; [done|done|unfold WK_MAX_PP in *; lia].
    + cbn. rewrite !lookup_alter_eq, He. eexists. split; [done|]. by destruct e.
    + eauto.
    + done.
    + intros i w Hiw. cbn. rewrite lookup_insert_ne; [by apply Hw|]. apply lookup_lt_Some in Hiw. unfold zlen. lia.
    + cbn. apply lookup_insert_eq.
    + intros q Hq. by apply Hpgs.
    + intros q Hq. destruct (Hpgs q Hq) as [_ [pp Hpp]]. unfold wk_pool in *. cbn. rewrite Hp, Hpp. eexists. split; [done|].
      cbn. destruct (Hlow q pp Hpp). lia.
  - cbn. by rewrite Epr.
  - done.
  - intros q. unfold pins_of, wk_pool in *. cbn. rewrite Hp. destruct (ppages _ !! q); [|done]. cbn. f_equal. lia.
  - cbn. unfold set_envs. cbn. f_equal. apply map_eq. intros i. destruct (decide (cur = i)) as [<-|].
    + by rewrite !lookup_alter_eq, lookup_insert_eq, He.
    + by rewrite !lookup_alter_ne, lookup_insert_ne.
  - intros b m x Hb Hne Hx. cbn. rewrite lookup_insert_ne; [by eapply Hk|]. by eapply holds_end.
Qed.

Lemma wk_compile_spec ts code :
  ts <> [] -> zlen ts <= 126 -> Forall term_words ts ->
  wp (wk_compile ilen prologue epilogue ts code pgs) s0 (compiles ts code).
Proof.
  intros Hne Hlen Hw. apply wp_bind, wp_modify, wp_bind, wp_zoom, wp_bind, wp_modify, wp_bind.
  apply wp_bind, wp_gets, wp_bind, wp_assert. split; [done|]. apply wp_bind, wp_modify, wp_bind, wp_modify, wp_ret, wp_ret.
  pose proof Hsz as (Hi & Hq0 & Hq1 & Hq2). pose proof (Hi (v_setu tag (u32 (-1)))) as Hi1. pose proof (Hi (v_setu z 0)) as Hi2. unfold max_ilen in Hi1, Hi2.
  apply wp_bind, wp_zoom, emit_run; [cbn; unfold max_ilen, WK_MAX_CODE_BYTES; lia|].
  apply wp_bind, wp_zoom, emit_run; [cbn; unfold max_ilen, WK_MAX_CODE_BYTES; lia|].
  match goal with |- wp _ ?s _ => assert (s = wk_set_v (init_v (wk_v s0)) (wk_set_pp 0 s0)) as -> by done end.
  set (s1 := wk_set_v _ _).
  assert (mid 0 (mkCst true true None) s1) as Hmid.
  { split; try done; [|cbn; unfold max_ilen; lia|exists []; apply holds_nil]. split; cbn; [done|lia|]. intros l Hl. assert (l = 0) as -> by lia.
    rewrite lookup_insert_eq. eexists. split; [done|]. cbn. unfold zlen. cbn. lia. }
  pose proof (compile_rest 0 ts _ s1 Hmid ltac:(lia) Hlen Hw ltac:(done)) as Hrest. apply wp_bind in Hrest.
  apply wp_bind. eapply wp_mono; [exact Hrest|]. intros x s2 Hx. cbv beta in Hx. apply wp_bind. eapply wp_mono; [exact Hx|].
  intros r s3 [[pages Hh] Hr]. apply wp_bind. eapply wp_mono; [apply (compile_exit_spec ts code r pages s3 Hh)|].
  - destruct Hr as [?|[-> Hb]]; [by left|right]. split; [done|]. exact (behaves_returns ts (wk_v s0) _ Hb).
  - intros [] s' Hc. by apply wp_ret.
Qed.
End terms.
End compile.

(** ** Releasing a predicate *)

Definition unpinned (pages : list Z) (s s' : wkst) : Prop :=
  forall q, pins_of s' q = (fun n => n - count q pages) <$> pins_of s q.

Lemma unpin_pages_spec A pgs pages k fuel s :
  heap_inv A (wk_h s) ->
  (forall i w, pages !! i = Some w -> h_mem (wk_h s) !! (pgs + 4 * (k + Z.of_nat i)) = Some w) ->
  h_mem (wk_h s) !! (pgs + 4 * (k + zlen pages)) = Some 0 ->
  (forall q, q ∈ pages -> q <> 0 /\ exists pp, ppages (wk_pool s) !! q = Some pp /\ count q pages <= pp_pinned pp) ->
  (length pages < fuel)%nat ->
  wp (unpin_pages fuel pgs k) s (fun _ s' =>
    heap_inv A (wk_h s') /\ h_mem (wk_h s') = h_mem (wk_h s) /\ unpinned pages s s' /\ s' = wk_set_h (wk_h s') s).
Proof.
  revert k fuel s. induction pages as [|p pages IH]; intros k [|fuel] s Hinv Hw Hend Hp Hf; cbn in Hf; try lia.
  - apply wp_bind, wp_zoom, wp_of_option. exists 0. unfold zlen in Hend. cbn in Hend. rewrite Z.add_0_r in Hend. split; [done|].
    apply wp_ret. replace (wk_set_h (wk_h s) s) with s by (by destruct s). split_and!; try done; [|by destruct s].
    intros q. change (count q []) with 0. destruct (pins_of s q); cbn; [|done]. by rewrite Z.sub_0_r.
  - apply wp_bind, wp_zoom, wp_of_option. exists p. specialize (Hw 0%nat p eq_refl) as Hw0. rewrite Z.add_0_r in Hw0. split; [done|].
    replace (wk_set_h (wk_h s) s) with s by (by destruct s).
    destruct (Hp p) as (Hp0 & pp & Hpp & Hcnt); [left|]. rewrite (proj2 (Z.eqb_neq p 0)) by done.
    rewrite count_cons, Z.eqb_refl in Hcnt. cbn in Hcnt. pose proof (count_le p pages).
    assert (pool_ok (wk_pool s)) as Hok by (destruct Hinv as (G & L & F & HH & _); apply HH).
    assert (0 <= pp_pinned pp - 1 < 2 ^ 31) as Hr by (pose proof (pg_pin _ _ (proj1 Hok) p pp Hpp); lia).
    apply wp_bind, wp_zoom, wp_zoom. eapply wp_mono; [apply (ppage_unpin_run p pp); [done|done|lia]|]. intros [] P ->.
    eapply wp_mono; [apply IH|].
    + by apply heap_inv_repinned.
    + intros i w Hi. specialize (Hw (S i) w Hi). cbn. by replace (k + 1 + Z.of_nat i) with (k + Z.of_nat (S i)) by lia.
    + cbn. unfold zlen in *. cbn [length] in Hend. by replace (k + 1 + Z.of_nat (length pages)) with (k + Z.of_nat (S (length pages))) by lia.
    + intros q Hq. destruct (Hp q) as (Hq0 & qq & Hqq & Hc); [by right|]. split; [done|]. rewrite count_cons in Hc. cbn.
      destruct (Z.eqb_spec p q) as [<-|Hne]; cbn in Hc.
      * rewrite lookup_insert_eq. assert (qq = pp) as -> by congruence. eexists. split; [done|]. cbn. lia.
      * rewrite lookup_insert_ne by done. eauto.
    + lia.
    + intros [] s' (Hi' & Em & Hun & Es'). split_and!; [done|done| |rewrite Es'; by destruct s].
      intros q. rewrite Hun, count_cons. unfold pins_of. cbn. destruct (Z.eqb_spec p q) as [<-|Hne].
      * rewrite lookup_insert_eq. unfold wk_pool in Hpp. unfold wk_pool. rewrite Hpp. cbn. f_equal. lia.
      * rewrite lookup_insert_ne by done. by rewrite Z.add_0_l.
Qed.

(** What is left when the predicate of [cur] is released. *)
Record released (A : gmap Z Z) (cur : Z) (pages : list Z) (s s' : wkst) : Prop := mkReleased {
  rl_inv : heap_inv A (wk_h s');
  rl_pins : unpinned pages s s';
  rl_mem : forall b n x, A !! b = Some n -> b <= x < b + n -> h_mem (wk_h s') !! x = h_mem (wk_h s) !! x;
  rl_env : exists e, envs (wk_et s) !! cur = Some e /\
    wk_et s' = set_envs (<[cur := set_env_pred 0 (set_env_pred_pgs 0 e)]> (envs (wk_et s))) (wk_et s);
  rl_rest : wk_acl s' = wk_acl s /\ cleanup_code s' = cleanup_code s }.

Lemma same_pins_of s s' : same_pins (wk_h s) (wk_h s') -> forall q, pins_of s' q = pins_of s q.
Proof. intros H q. unfold pins_of, wk_pool. destruct (H q) as [pp pp' [E _]|]; cbn; [by rewrite E|done]. Qed.

Lemma same_pins_acls s s' : same_pins (wk_h s) (wk_h s') -> wk_acl s' = wk_acl s -> acls_wf s -> acls_wf s'.
Proof.
  intros H Ea Hw q pp' Hq. unfold wk_pool in Hq. specialize (H q). rewrite Hq in H. inversion H as [pp ? [_ Hacl]|]. subst.
  rewrite Ea. destruct Hacl as [-> | ->]; [by eapply Hw|]. apply Forall_forall. intros a Ha%list_elem_of_In%repeat_spec. by subst.
Qed.

Lemma same_pins_low s s' : same_pins (wk_h s) (wk_h s') -> pins_low s -> pins_low s'.
Proof.
  intros H Hw q pp' Hq. unfold wk_pool in Hq. specialize (H q). rewrite Hq in H. inversion H as [pp ? [E _]|]. subst. rewrite E. by eapply Hw.
Qed.

Lemma wk_free_spec A pgs cur code pages s n :
  installed A pgs cur code pages s -> A !! code = Some n -> code <> pgs -> code <> 0 -> pgs <> 0 ->
  wp (wk_free cur) s (fun _ s' => released (delete pgs (delete code A)) cur pages s s' /\ wk_preds s' = delete code (wk_preds s)).
Proof.
  intros [Hinv Hcur (e & He & Ec & Ep) (m & Hm & Hm4) Hlen Hw Hend Hpgs Hpins] Hn Hne Hc0 Hp0.
  assert (0 <= zlen pages) by (unfold zlen; lia).
  apply wp_bind, wp_zoom, wp_of_option. exists e. split; [done|]. replace (wk_set_et (wk_et s) s) with s by (by destruct s).
  rewrite Ec, (proj2 (Z.eqb_neq code 0)) by done. cbn [negb].
  apply wp_bind, wp_bind, wp_zoom. eapply wp_mono; [by eapply free_spec|]. intros [] h1 (Hinv1 & Hmem1 & Hpin1).
  apply wp_bind, wp_modify, wp_zoom, wp_modify. rewrite Ep, (proj2 (Z.eqb_neq pgs 0)) by done. set (s1 := wk_set_et _ _).
  assert (delete code A !! pgs = Some m) as Hm1 by (by rewrite lookup_delete_ne).
  assert (forall i, 0 <= i < WK_MAX_PP -> h_mem h1 !! (pgs + 4 * i) = h_mem (wk_h s) !! (pgs + 4 * i)) as Hk.
  { intros i Hi. eapply Hmem1; [done|]. lia. }
  assert (forall q, pins_of s1 q = pins_of s q) as Hps by (by apply same_pins_of).
  apply wp_bind. eapply wp_mono; [apply (unpin_pages_spec (delete code A) pgs pages)|].
  - done.
  - intros i w Hi. change (h_mem (wk_h s1)) with (h_mem h1). rewrite Z.add_0_l, Hk; [by apply Hw|].
    apply lookup_lt_Some in Hi. unfold zlen in Hlen. lia.
  - change (h_mem (wk_h s1)) with (h_mem h1). rewrite Z.add_0_l, Hk; [done|lia].
  - intros q Hq. split; [by apply Hpgs|]. destruct (Hpins q Hq) as (pp & Hpp & Hcnt). specialize (Hps q).
    unfold pins_of in Hps. rewrite Hpp in Hps. destruct (ppages (wk_pool s1) !! q) as [pp1|] eqn:Hpp1; [|done].
    injection Hps as E. exists pp1. split; [done|]. by rewrite E.
  - unfold zlen, WK_MAX_PP in *. lia.
  - intros [] s2 (Hinv2 & Hmem2 & Hun2 & Es2). apply wp_bind, wp_zoom. eapply wp_mono; [by eapply free_spec|].
    intros [] h3 (Hinv3 & Hmem3 & Hpin3). apply wp_zoom, wp_modify. rewrite Es2. split; [|done]. split.
    + done.
    + intros q. rewrite <- Hps, <- Hun2. by apply (same_pins_of s2 (wk_set_h h3 s2)).
    + intros b k x Hb Hx. cbn [wk_h wk_set_h wk_set_et]. erewrite Hmem3, Hmem2 by done.
      apply lookup_delete_Some in Hb as [_ Hb]. by eapply Hmem1.
    + exists e. split; [done|]. cbn. unfold set_envs. cbn. f_equal. apply map_eq. intros i. destruct (decide (cur = i)) as [<-|].
      * rewrite !lookup_alter_eq, lookup_insert_eq, He. by destruct e.
      * by rewrite !lookup_alter_ne, lookup_insert_ne.
    + done.
Qed.

(** ** Installing a predicate *)

Record wk_ready (A : gmap Z Z) (cur : Z) (e : Env) (s : wkst) : Prop := mkReady {
  rd_inv : heap_inv A (wk_h s);
  rd_cur : curenv (wk_et s) = Some cur;
  rd_env : envs (wk_et s) !! cur = Some e;
  rd_acl : acls_wf s;
  rd_low : pins_low s }.

Definition terms_ok (ts : list wk_term) : Prop := ts <> [] /\ zlen ts <= 126 /\ Forall term_words ts.

(** Nothing is held: blocks, pins and the environments are those of [s]. *)
Definition restored (A : gmap Z Z) (s s' : wkst) : Prop :=
  heap_inv A (wk_h s') /\ (forall q, pins_of s' q = pins_of s q) /\ envs (wk_et s') = envs (wk_et s) /\
  (forall b n x, A !! b = Some n -> b <= x < b + n -> h_mem (wk_h s') !! x = h_mem (wk_h s) !! x).

(** The predicate is installed; releasing it leads back to [s]. *)
Definition pred_set (A : gmap Z Z) (cur : Z) (e : Env) (ts : list wk_term) (s s' : wkst) : Prop :=
  exists code pgs n m pages v,
    installed (<[pgs := m]> (<[code := n]> A)) pgs cur code pages s' /\ code <> pgs /\ code <> 0 /\ pgs <> 0 /\
    A !! code = None /\ A !! pgs = None /\
    wk_preds s' !! code = Some v /\ returns ts v /\ (forall q, pins_of s' q = Z.add (count q pages) <$> pins_of s q) /\
    envs (wk_et s') = <[cur := set_env_pred code (set_env_pred_pgs pgs e)]> (envs (wk_et s)) /\
    (forall b n x, A !! b = Some n -> b <= x < b + n -> h_mem (wk_h s') !! x = h_mem (wk_h s) !! x).

Lemma set_pred_back code pgs e :
  env_pred e = 0 -> env_pred_pgs e = 0 -> set_env_pred 0 (set_env_pred_pgs 0 (set_env_pred code (set_env_pred_pgs pgs e))) = e.
Proof. intros. destruct e. cbn in *. by subst. Qed.

(** Releasing what was installed on top of [A]. *)
Lemma release_restores A A' cur e code pgs pages s s1 n m :
  A' = <[pgs := m]> (<[code := n]> A) -> A !! code = None -> A !! pgs = None -> code <> pgs -> code <> 0 -> pgs <> 0 ->
  installed A' pgs cur code pages s1 ->
  env_pred e = 0 -> env_pred_pgs e = 0 -> envs (wk_et s) !! cur = Some e ->
  (forall q, pins_of s1 q = Z.add (count q pages) <$> pins_of s q) ->
  envs (wk_et s1) = <[cur := set_env_pred code (set_env_pred_pgs pgs e)]> (envs (wk_et s)) ->
  (forall b n x, A !! b = Some n -> b <= x < b + n -> h_mem (wk_h s1) !! x = h_mem (wk_h s) !! x) ->
  wp (wk_free cur) s1 (fun _ s' => restored A s s' /\ page_fault_mode (wk_et s') = page_fault_mode (wk_et s1)).
Proof.
  intros -> Hc Hp Hne Hc0 Hp0 Hin He0 He1 He Hpins Henv Hmem. eapply wp_mono; [eapply wk_free_spec; [exact Hin|..|done|done|done]|].
  - rewrite lookup_insert_ne by done. apply lookup_insert_eq.
  - intros [] s' [[Hinv Hun Hm (e1 & He1' & Het) _] _].
    assert (delete pgs (delete code (<[pgs := m]> (<[code := n]> A))) = A) as EA.
    { rewrite delete_insert_ne by done. rewrite (delete_insert_id _ code) by done. by apply delete_insert_id. }
    rewrite EA in Hinv, Hm.
    rewrite Henv, lookup_insert_eq in He1'. injection He1' as <-. split; [|by rewrite Het]. split_and!; [done|..].
    + intros q. rewrite Hun, Hpins. destruct (pins_of s q); [|done]. cbn. f_equal. lia.
    + rewrite Het. cbn. rewrite Henv, insert_insert_eq. rewrite set_pred_back by done. by apply insert_id.
    + intros b k x Hb Hx. rewrite (Hm b k) by done. by eapply Hmem.
Qed.

Lemma kept_fresh A a n h h1 h2 :
  A !! a = None -> kept A h h1 -> kept (<[a := n]> A) h1 h2 -> kept A h h2.
Proof.
  intros Ha H1 [M2 S2]. eapply kept_trans; [exact H1|]. split; [|done].
  intros b m x Hb. apply M2. rewrite lookup_insert_ne; [done|]. congruence.
Qed.

Lemma kept_restored A s s' h :
  heap_inv A h -> kept A (wk_h s) h -> wk_h s' = h -> envs (wk_et s') = envs (wk_et s) -> restored A s s'.
Proof.
  intros Hi [Hm Hp] <- He. split_and!; [done| |done|done]. by apply same_pins_of.
Qed.

Section install.
Context (ilen : vinstr -> Z) (prologue epilogue : Z) (Hsz : sizes_ok ilen prologue epilogue) (A : gmap Z Z) (cur : Z) (e : Env).
Context (Hp0 : env_pred e = 0) (Hg0 : env_pred_pgs e = 0).

(** The two buffers are allocated: compile, and release on an error. *)
Lemma wkpred_tail ts code pgs n m s s1 :
  wk_ready A cur e s -> terms_ok ts -> A !! code = None -> A !! pgs = None -> code <> pgs -> code <> 0 -> pgs <> 0 ->
  4 * WK_MAX_PP <= m -> heap_inv (<[pgs := m]> (<[code := n]> A)) (wk_h s1) -> kept A (wk_h s) (wk_h s1) ->
  wk_acl s1 = wk_acl s -> envs (wk_et s1) = envs (wk_et s) -> curenv (wk_et s1) = Some cur ->
  wp (ret <- wk_compile ilen prologue epilogue ts code pgs ;;
      if ret <? 0 then wk_free cur ;; in_wet (modify (set_pfm (page_fault_mode (wk_et s)))) ;; mreturn ret
      else in_wet (modify (set_pfm (page_fault_mode (wk_et s)))) ;; mreturn 0) s1
     (fun r s' => page_fault_mode (wk_et s') = page_fault_mode (wk_et s) /\
        (r < 0 /\ restored A s s' \/ r = 0 /\ pred_set A cur e ts s s')).
Proof.
  intros [Hi Hcur He Hacl Hlow] (Hne & Hlen & Hw) Hc Hp Hcp Hc0 Hpg0 Hm Hi1 [Hk Hs] Ea Ee Ecur.
  apply wp_bind. eapply wp_mono; [eapply (wk_compile_spec ilen prologue epilogue Hsz _ pgs s1 cur e)|].
  - done.
  - by rewrite Ee.
  - by eapply same_pins_acls.
  - by eapply same_pins_low.
  - destruct Hi1 as (G & L & F & HH & _). apply HH.
  - exact Hi1.
  - exists m. by rewrite lookup_insert_eq.
  - done.
  - done.
  - done.
  - intros r s2 (pages & v & Hin & Hpr & Hr & Hpins & Het & Hmem).
    assert (forall q, pins_of s2 q = Z.add (count q pages) <$> pins_of s q) as Hpins2.
    { intros q. by rewrite Hpins, (same_pins_of s s1). }
    assert (envs (wk_et s2) = <[cur := set_env_pred code (set_env_pred_pgs pgs e)]> (envs (wk_et s))) as Henv2.
    { rewrite Het. cbn. by rewrite Ee. }
    assert (forall b n x, A !! b = Some n -> b <= x < b + n -> h_mem (wk_h s2) !! x = h_mem (wk_h s) !! x) as Hmem2.
    { intros b k x Hb Hx. rewrite (Hmem b k); [by eapply Hk| |congruence|done]. rewrite !lookup_insert_ne by congruence. done. }
    destruct Hr as [Hr|[-> Hret]].
    + rewrite (proj2 (Z.ltb_lt r 0)) by done. apply wp_bind.
      eapply wp_mono; [eapply (release_restores A _ cur e code pgs pages s s2 n m); done|].
      intros [] s3 [Hres _]. apply wp_bind, wp_zoom, wp_modify, wp_ret. split; [done|]. left. split; [done|exact Hres].
    + cbn [Z.ltb Z.compare]. apply wp_bind, wp_zoom, wp_modify, wp_ret. split; [done|]. right. split; [done|].
      exists code, pgs, n, m, pages, v. split_and!; try done.
      * destruct Hin. by split.
      * cbn. rewrite Hpr. apply lookup_insert_eq.
Qed.

Lemma restored_refl s : heap_inv A (wk_h s) -> restored A s s.
Proof. intros H. split_and!; done. Qed.

Lemma sys_wkpred_spec ts s :
  wk_ready A cur e s -> terms_ok ts ->
  wp (sys_wkpred ilen prologue epilogue (Some ts)) s (fun r s' => page_fault_mode (wk_et s') = page_fault_mode (wk_et s) /\
    (r < 0 /\ restored A s s' \/ r = 0 /\ pred_set A cur e ts s s')).
Proof.
  intros Hr Hts. pose proof Hr as [Hi Hcur He Hacl Hlow].
  assert (wk_set_et (wk_et s) s = s) as Es by (by destruct s).
  apply wp_bind, wp_zoom, wp_of_option. exists cur. split; [done|]. rewrite Es.
  apply wp_bind, wp_zoom, wp_of_option. exists e. split; [done|]. rewrite Es.
  rewrite Hp0. apply wp_bind, wp_ret, wp_bind, wp_zoom.
  eapply wp_mono; [apply (malloc_spec A); [done|unfold WK_MAX_CODE_BYTES, NBPG; lia]|].
  intros code h1 [(-> & -> & _)|(_ & _ & Hc0 & Hc & Hi1 & Hk1)].
  { apply wp_ret. split; [done|]. left. split; [elia|]. by apply (restored_refl s). }
  rewrite (proj2 (Z.eqb_neq code 0)) by done. set (n := alloc_size _) in Hi1. apply wp_bind, wp_zoom.
  eapply wp_mono; [apply (malloc_spec (<[code := n]> A)); [done|unfold WK_MAX_PP, NBPG; lia]|].
  intros pgs h2 [(-> & -> & _)|(_ & Hsize & Hg & Hgn & Hi2 & Hk2)].
  - apply wp_bind, wp_zoom. eapply wp_mono; [eapply (free_spec _ _ code n); [exact Hi1|apply lookup_insert_eq]|].
    intros [] h3 [Hi3 Hk3]. rewrite delete_insert_id in Hi3, Hk3 by done. apply wp_ret. split; [done|]. left. split; [elia|].
    eapply kept_restored; [exact Hi3|by eapply kept_trans|done|done].
  - rewrite (proj2 (Z.eqb_neq pgs 0)) by done. set (m := alloc_size (WK_MAX_PP * 4)) in *.
    apply lookup_insert_None in Hgn as [Hgn Hne]. unfold WK_MAX_PP in Hsize.
    apply wp_bind, wp_zoom, wp_gets, wp_bind, wp_zoom, wp_modify, wp_bind, wp_modify.
    apply (wkpred_tail ts code pgs n m s); try done. by eapply (kept_fresh A code n).
Qed.

(** Passing no terms removes the predicate. *)
Lemma sys_wkpred_none_spec ts s s1 :
  wk_ready A cur e s -> pred_set A cur e ts s s1 ->
  wp (sys_wkpred ilen prologue epilogue None) s1 (fun r s' => r = 0 /\ restored A s s').
Proof.
  intros [_ _ He _ _] (code & pgs & n & m & pages & v & Hin & Hcp & Hc0 & Hg0' & Hc & Hg & _ & _ & Hpins & Henv & Hmem). pose proof (in_cur _ _ _ _ _ _ Hin) as Hcur.
  assert (wk_set_et (wk_et s1) s1 = s1) as Es by (by destruct s1).
  apply wp_bind, wp_zoom, wp_of_option. exists cur. split; [done|]. rewrite Es.
  apply wp_bind, wp_zoom, wp_of_option. eexists. split; [rewrite Henv; apply lookup_insert_eq|]. rewrite Es.
  change (env_pred (set_env_pred code ?x)) with code. rewrite (proj2 (Z.eqb_neq code 0)) by done. cbn [negb].
  apply wp_bind. eapply wp_mono; [eapply (release_restores A _ cur e code pgs pages s s1 n m); done|].
  intros [] s' [Hres _]. apply wp_ret. done.
Qed.
End install.

(** ** Sums of products

    The predicates a library builds: products of comparisons, each with the
    tag it returns, joined by [WK_OR]. *)
Inductive operand := Ovar (p k : Z) | Oimm (i : Z).
Record comparison := mkCmp { cmp_op : Z; cmp_l : operand; cmp_r : operand }.
Record product := mkProd { prod_tag : Z; prod_cmps : list comparison }.

Definition operand_term (o : operand) : wk_term := match o with Ovar p k => WK_VAR p k | Oimm i => WK_IMM i end.
Definition cmp_terms (c : comparison) : list wk_term := [operand_term (cmp_l c); operand_term (cmp_r c); WK_OP (cmp_op c)].
Definition product_terms (p : product) : list wk_term := WK_TAG (prod_tag p) :: (prod_cmps p ≫= cmp_terms).
Fixpoint sum_terms (ps : list product) : list wk_term :=
  match ps with
  | [] => []
  | [p] => product_terms p
  | p :: ps' => product_terms p ++ WK_OP WK_OR :: sum_terms ps'
  end.

(** Their meaning: the tag of the first product all of whose comparisons hold,
    0 if there is none. *)
Definition operand_value (rd : Z -> Z) (o : operand) : Z := match o with Ovar p _ => rd (ptov p) | Oimm i => u32 i end.
Definition cmp_holds (rd : Z -> Z) (c : comparison) : bool :=
  wk_cmp (cmp_op c) (operand_value rd (cmp_l c)) (operand_value rd (cmp_r c)).
Definition product_holds (rd : Z -> Z) (p : product) : bool := forallb (cmp_holds rd) (prod_cmps p).
Definition sum_value (rd : Z -> Z) (ps : list product) : Z :=
  match List.find (product_holds rd) ps with Some p => u32 (prod_tag p) | None => 0 end.

Definition cmp_ok (c : comparison) : Prop := 0 <= cmp_op c < WK_OR.
Definition products_ok (ps : list product) : Prop := Forall (fun p => Forall cmp_ok (prod_cmps p)) ps.

Lemma eval_operand rd o b ts skip x y t :
  wk_eval rd (operand_term o :: ts) skip b x y t =
  wk_eval rd ts skip (negb b) (if negb skip && b then operand_value rd o else x) (if negb skip && negb b then operand_value rd o else y) t.
Proof. destruct o, skip, b; reflexivity. Qed.

Lemma eval_cmp rd c ts skip x y t :
  cmp_ok c -> exists x' y', wk_eval rd (cmp_terms c ++ ts) skip true x y t = wk_eval rd ts (skip || negb (cmp_holds rd c)) true x' y' t.
Proof.
  intros Hc. unfold cmp_terms. cbn [app]. rewrite !eval_operand. cbn [negb wk_eval]. unfold cmp_ok in Hc.
  rewrite (proj2 (Z.eqb_neq (cmp_op c) WK_OR)) by lia. destruct skip; cbn [negb andb orb]; eauto.
Qed.

Lemma eval_cmps rd cs ts skip x y t :
  Forall cmp_ok cs -> exists x' y', wk_eval rd ((cs ≫= cmp_terms) ++ ts) skip true x y t =
    wk_eval rd ts (skip || negb (forallb (cmp_holds rd) cs)) true x' y' t.
Proof.
  intros H. revert skip x y. induction H as [|c cs Hc Hcs IH]; intros skip x y.
  - exists x, y. cbn. by rewrite orb_false_r.
  - cbn [mbind list_bind forallb]. rewrite <- app_assoc. destruct (eval_cmp rd c ((cs ≫= cmp_terms) ++ ts) skip x y t Hc) as (x1 & y1 & ->).
    destruct (IH (skip || negb (cmp_holds rd c)) x1 y1) as (x2 & y2 & ->). exists x2, y2. f_equal.
    by destruct skip, (cmp_holds rd c).
Qed.

Lemma eval_product rd p ts x y t :
  Forall cmp_ok (prod_cmps p) -> exists x' y', wk_eval rd (product_terms p ++ ts) false true x y t =
    wk_eval rd ts (negb (product_holds rd p)) true x' y' (u32 (prod_tag p)).
Proof. intros H. unfold product_terms. cbn [app wk_eval]. by apply eval_cmps. Qed.

Lemma eval_sum rd ps x y t :
  ps <> [] -> products_ok ps -> wk_eval rd (sum_terms ps) false true x y t = sum_value rd ps.
Proof.
  intros Hne H. unfold sum_value. revert x y t Hne. induction H as [|p ps Hp Hps IH]; intros x y t Hne; [done|]. cbn [sum_terms List.find].
  destruct ps as [|p' ps].
  - destruct (eval_product rd p [] x y t Hp) as (x' & y' & E). rewrite app_nil_r in E. rewrite E. by destruct (product_holds rd p).
  - destruct (eval_product rd p (WK_OP WK_OR :: sum_terms (p' :: ps)) x y t Hp) as (x' & y' & ->).
    destruct (product_holds rd p); [done|]. cbn [negb wk_eval]. change (WK_OR =? WK_OR) with true. cbv iota.
    assert (exists u us, sum_terms (p' :: ps) = u :: us) as (u & us & Eu) by (cbn; destruct ps; eexists _, _; done).
    rewrite Eu, <- Eu. by apply IH.
Qed.

(** ** Theorems *)

(** C8: installing a canonical sum of products (each a tag and comparisons of a
    variable or constant with another, joined by [WK_OR]) of at most 126 terms
    for an environment that has no predicate always ends, with an error or with
    code installed; that code runs, in every memory and from every register
    contents, in at most four steps more than there are terms, and returns the
    tag of the first product all of whose comparisons hold, 0 if none does.  The
    instruction sizes are any within [sizes_ok]; a longer predicate can overrun
    its buffer ([wkpred_overruns]). *)
Theorem wkpred_computes_sum ilen prologue epilogue A cur e ps s :
  sizes_ok ilen prologue epilogue -> wk_ready A cur e s -> env_pred e = 0 -> env_pred_pgs e = 0 ->
  ps <> [] -> products_ok ps -> zlen (sum_terms ps) <= 126 -> Forall term_words (sum_terms ps) ->
  wp (sys_wkpred ilen prologue epilogue (Some (sum_terms ps))) s (fun r s' => r < 0 \/ r = 0 /\
    exists code v, env_pred <$> envs (wk_et s') !! cur = Some code /\ code <> 0 /\ wk_preds s' !! code = Some v /\
      forall rd g, vrun rd v (length (sum_terms ps) + 4) 0 g = Some (sum_value rd ps)).
Proof.
  intros Hsz Hr H0 H1 Hne Hok Hlen Hw.
  assert (sum_terms ps <> []) as Hts by (destruct ps as [|p [|]]; done).
  eapply wp_mono; [by apply (sys_wkpred_spec ilen prologue epilogue Hsz A cur e)|].
  intros r s' [_ [[? _]|[-> (code & pgs & n & m & pages & v & Hin & _ & Hc0 & _ & _ & _ & Hv & Hret & _ & Henv & _)]]]; [by left|right].
  split; [done|]. exists code, v. rewrite Henv, lookup_insert_eq. split_and!; try done.
  intros rd g. rewrite (Hret rd g). f_equal. by apply eval_sum.
Qed.

(** C29: predicates hold no resources for ever.  For an environment that has no
    predicate, and a non-empty list of at most 126 terms, whatever they are
    (sizes within [sizes_ok]): an installation that fails, on any term, and one
    that succeeds and is then removed, both leave the kernel heap, the contents
    of its blocks, the pin counts and the environments as they were. *)
Theorem wkpred_restores ilen prologue epilogue A cur e ts s :
  sizes_ok ilen prologue epilogue -> wk_ready A cur e s -> env_pred e = 0 -> env_pred_pgs e = 0 -> terms_ok ts ->
  wp (r <- sys_wkpred ilen prologue epilogue (Some ts) ;; if r <? 0 then mreturn r else sys_wkpred ilen prologue epilogue None) s
     (fun r s' => r <= 0 /\ restored A s s').
Proof.
  intros Hsz Hr H0 H1 Hts. apply wp_bind. eapply wp_mono; [by apply (sys_wkpred_spec ilen prologue epilogue Hsz A cur e)|].
  intros r s1 [_ [[Hlt Hres]|[-> Hset]]].
  - rewrite (proj2 (Z.ltb_lt r 0)) by done. apply wp_ret. split; [lia|done].
  - cbn [Z.ltb Z.compare]. eapply wp_mono; [by eapply (sys_wkpred_none_spec ilen prologue epilogue A cur e H0 H1 ts s)|].
    intros r s' [-> ?]. done.
Qed.

(** ** Witnesses and concrete runs *)

Definition ex_ilen (_ : vinstr) : Z := 6.
Lemma ex_sizes : sizes_ok ex_ilen 13 12.
Proof. unfold sizes_ok, ex_ilen, max_ilen. split_and!; intros; lia. Qed.

Definition ex_v0 : vstate := mkV [] 0 ∅ 0.
Definition ex_wk : wkst := mkWk ex_heap0 ex_tab ∅ ex_v0 0 0 0 ∅.

(** No page of the example has an extended access list or a pin. *)
Definition page_plain (pp : Ppage) : bool := forallb (fun a => negb (c_isptr a)) (pp_acl pp) && (pp_pinned pp =? 0).

Lemma ex_pages_plain : forallb (fun x => page_plain (snd x)) (map_to_list (ppages (wk_pool ex_wk))) = true.
Proof. vm_compute. reflexivity. Qed.

Lemma pages_plain_lookup (m : gmap Z Ppage) q pp :
  forallb (fun x => page_plain (snd x)) (map_to_list m) = true -> m !! q = Some pp -> page_plain pp = true.
Proof.
  intros H Hq. rewrite forallb_forall in H. apply (H (q, pp)). by apply list_elem_of_In, elem_of_map_to_list.
Qed.

Lemma ex_page_plain q pp : ppages (wk_pool ex_wk) !! q = Some pp -> page_plain pp = true.
Proof. exact (pages_plain_lookup _ q pp ex_pages_plain). Qed.

Lemma ex_wk_ready : wk_ready ∅ 1 (ex_env 2049 50 [ex_root; ex_disk]) ex_wk.
Proof.
  split; [exact ex_heap0_inv|reflexivity|reflexivity|..]; intros q pp Hq%ex_page_plain; apply andb_true_iff in Hq as [Ha Hp].
  - rewrite forallb_forall in Ha. apply Forall_forall. intros a Hin _ Hptr. apply list_elem_of_In, Ha in Hin. by rewrite Hptr in Hin.
  - apply Z.eqb_eq in Hp. rewrite Hp. done.
Qed.

(** Wake up with tag 5 when the word at 0x110000 (a page all may read) is
    greater than 100, with tag 9 when it equals 7 and that at 0x110004 does not
    exceed 3. *)
Definition ex_sum : list product :=
  [ mkProd 5 [mkCmp WK_GT (Ovar 0x110000 0) (Oimm 100)];
    mkProd 9 [mkCmp WK_EQ (Ovar 0x110000 0) (Oimm 7); mkCmp WK_LTE (Ovar 0x110004 0) (Oimm 3)] ].
Definition ex_mem (w0 w1 a : Z) : Z := if a =? ptov 0x110000 then w0 else if a =? ptov 0x110004 then w1 else 0.
Definition ex_regs : regs := mkRegs 1 2 3 4.

Lemma ex_wk_val : ret_val (sys_wkpred ex_ilen 13 12 (Some (sum_terms ex_sum)) ex_wk) = Some 0.
Proof. vm_compute. reflexivity. Qed.

Lemma wkpred_computes_sum_witness :
  exists s', sys_wkpred ex_ilen 13 12 (Some (sum_terms ex_sum)) ex_wk = Ret 0 s' /\ exists code v, wk_preds s' !! code = Some v /\
    vrun (ex_mem 101 0) v 16 0 ex_regs = Some 5 /\ vrun (ex_mem 7 3) v 16 0 ex_regs = Some 9 /\
    vrun (ex_mem 7 4) v 16 0 ex_regs = Some 0.
Proof.
  destruct (wp_returns_val _ _ 0 _ (wkpred_computes_sum ex_ilen 13 12 ∅ 1 _ ex_sum ex_wk ex_sizes ex_wk_ready eq_refl eq_refl
    ltac:(discriminate) ltac:(repeat constructor; discriminate) ltac:(vm_compute; discriminate) ltac:(repeat constructor; discriminate)) ex_wk_val)
    as (s' & E & [H|(_ & code & v & _ & _ & Hv & Hrun)]); [discriminate H|].
  exists s'. split; [exact E|]. exists code, v. split; [exact Hv|]. rewrite !(Hrun _ ex_regs). split_and!; reflexivity.
Defined.

(** An unknown comparison fails after the buffers are allocated. *)
Lemma wkpred_restores_witness :
  exists s', (r <- sys_wkpred ex_ilen 13 12 (Some [WK_IMM 1; WK_IMM 2; WK_OP 9]) ;;
              if r <? 0 then mreturn r else sys_wkpred ex_ilen 13 12 None) ex_wk = Ret (- E_INVAL) s' /\ restored ∅ ex_wk s'.
Proof.
  destruct (wp_returns_val _ _ (- E_INVAL) _ (wkpred_restores ex_ilen 13 12 ∅ 1 _ [WK_IMM 1; WK_IMM 2; WK_OP 9] ex_wk ex_sizes ex_wk_ready eq_refl eq_refl
    ltac:(split; [discriminate|split; [vm_compute; discriminate|repeat constructor; discriminate]]))) as (s' & E & _ & H);
    [vm_compute; reflexivity|].
  exists s'. split; [exact E|exact H].
Defined.

(** ** Limits of the compiler *)

(** 128 products overflow the list of references to the epilogue: the assertion
    in [v_dmark] stops the kernel. *)
Example wkpred_panics : sys_wkpred ex_ilen 13 12 (Some (repeat (WK_OP WK_OR) 129)) ex_wk = Panic.
Proof. vm_compute. reflexivity. Qed.

(** An empty predicate places a label that was never made. *)
Example wkpred_empty_label : sys_wkpred ex_ilen 13 12 (Some []) ex_wk = Panic.
Proof. vm_compute. reflexivity. Qed.

(** A true product whose tag is 0 cannot be told from a false predicate. *)
Example wkpred_tag_zero rd : sum_value rd [mkProd 0 []] = sum_value rd [mkProd 1 [mkCmp WK_NEQ (Oimm 1) (Oimm 1)]].
Proof. reflexivity. Qed.

(** Sizes of the i386 code: [movl $imm,%reg] 5, a load 6, a comparison and a long
    branch 8, a return 7 or 10; prologue 22, epilogue 15. *)
Definition i386_ilen (i : vinstr) : Z :=
  match i with v_setu _ _ => 5 | v_ldui _ _ _ => 6 | v_b _ _ _ _ => 8 | v_retu _ => 7 | v_retui _ => 10 end.

Lemma i386_sizes : sizes_ok i386_ilen 22 15.
Proof. unfold sizes_ok, max_ilen. split_and!; try lia. intros []; cbn; lia. Qed.

(** The last check lets [OVERRUN_SAFETY] = 20 bytes follow, but two returns and
    the epilogue are written after it: 808 constants pass every check and the
    code runs over the end of its block. *)
Example wkpred_overruns :
  sys_wkpred i386_ilen 22 15 (Some (repeat (WK_IMM 1) 808)) ex_wk = Panic /\
  ret_val (sys_wkpred i386_ilen 22 15 (Some (repeat (WK_IMM 1) 806)) ex_wk) = Some 0 /\
  ret_val (sys_wkpred i386_ilen 22 15 (Some (repeat (WK_IMM 1) 809)) ex_wk) = Some (- E_INVAL).
Proof. split_and!; vm_compute; reflexivity. Qed.
