(* ===== verification/Pxn.v ===== *)
(** * Disk protection

    sys/kern/pxn.c: a pxn guards extents of disk blocks with an access list, and
    may refer to other pxns.  Pxns are found by name; an environment that may
    read an extent of one pxn can forge a copy of it in another, and whoever may
    write the first pxn can revoke the copies.

    Pxns are kernel objects at their addresses; [mem] is the result of the call
    of [malloc] (0 for NULL, else an unused address), [junk] what the new memory
    holds. *)

From Stdlib Require Import ZArith Lia.
From stdpp Require Import base numbers option list gmap.
From S2P Require Import Prelude Capability EnvTable.

Definition MAX_DISKS := 8.
Definition PXN_NUM_QS := 256.
Definition PXN_MASK_QS := 255.

Record Xn_name := mkXn { xa_dev : Z; xa_name : Z }.

(** [xtnt_forged_to] and [xtnt_forged_from] hold pairs of a pxn and the index of
    a bptr; [None] is the null pointer. *)
Record Xn_xtnt := mkXt {
  xtnt_block : Z;
  xtnt_size : Z;
  xtnt_forged_to : list (Z * Z);
  xtnt_forged_from : option (Z * Z) }.

Inductive Xn_bptr := BPTR_EMPTY | BPTR_XTNT (x : Xn_xtnt) | BPTR_PXN (p : Z).

(** The lengths of the three arrays are [pxn_xtnt_acl_max], [pxn_pxn_acl_max]
    and [pxn_bptr_sz]. *)
Record Pxn := mkPxn {
  pxn_name : Xn_name;
  pxn_xtnt_acl : list cap;
  pxn_pxn_acl : list cap;
  pxn_bptrs : list Xn_bptr;
  pxn_refcnt : Z;
  pxn_frozen : bool }.

Record pxnst := mkPx {
  px_et : envtab;
  px_acl : aclheap;
  pxns : gmap Z Pxn;
  pxn_qs : gmap Z (list Z);
  pxn_lru : list Z }.

Definition px_set_pxns (m : gmap Z Pxn) (s : pxnst) : pxnst := mkPx (px_et s) (px_acl s) m (pxn_qs s) (pxn_lru s).
Definition px_set_cache (q : gmap Z (list Z)) (l : list Z) (s : pxnst) : pxnst := mkPx (px_et s) (px_acl s) (pxns s) q l.

Definition set_bptrs (l : list Xn_bptr) (p : Pxn) : Pxn :=
  mkPxn (pxn_name p) (pxn_xtnt_acl p) (pxn_pxn_acl p) l (pxn_refcnt p) (pxn_frozen p).
Definition set_bptr (i : nat) (b : Xn_bptr) (p : Pxn) : Pxn := set_bptrs (<[i := b]> (pxn_bptrs p)) p.
Definition set_refcnt (n : Z) (p : Pxn) : Pxn :=
  mkPxn (pxn_name p) (pxn_xtnt_acl p) (pxn_pxn_acl p) (pxn_bptrs p) n (pxn_frozen p).
Definition set_frozen (p : Pxn) : Pxn :=
  mkPxn (pxn_name p) (pxn_xtnt_acl p) (pxn_pxn_acl p) (pxn_bptrs p) (pxn_refcnt p) true.
Definition set_acls (x p : list cap) (n : Pxn) : Pxn :=
  mkPxn (pxn_name n) x p (pxn_bptrs n) (pxn_refcnt n) (pxn_frozen n).

Definition get_pxn (p : Z) : M pxnst Pxn := fun s => of_option (pxns s !! p) s.
Definition upd_pxn (p : Z) (f : Pxn -> Pxn) : M pxnst unit :=
  x <- get_pxn p ;; modify (fun s => px_set_pxns (<[p := f x]> (pxns s)) s).
Definition my_env : M pxnst Env :=
  cur <- (fun s => of_option (curenv (px_et s)) s) ;; (fun s => of_option (envs (px_et s) !! cur) s).

(** ** Extents *)

(** u64 arithmetic. *)
Definition xtnt_dominates (x1 x2 : Xn_xtnt) : bool :=
  (xtnt_block x1 <=? xtnt_block x2) &&
  (xtnt_block x2 <? u64 (xtnt_block x1 + xtnt_size x1)) &&
  (xtnt_block x1 <? u64 (xtnt_block x2 + xtnt_size x2)) &&
  (u64 (xtnt_block x2 + xtnt_size x2) <=? u64 (xtnt_block x1 + xtnt_size x1)).

Definition is_empty (b : Xn_bptr) : bool := match b with BPTR_EMPTY => true | _ => false end.

(** The first index at which the test holds. *)
Fixpoint find_bptr (f : Xn_bptr -> bool) (l : list Xn_bptr) : option nat :=
  match l with
  | [] => None
  | b :: l' => if f b then Some 0%nat else S <$> find_bptr f l'
  end.

Definition find_free_bptr (p : Pxn) : nat + Z :=
  match find_bptr is_empty (pxn_bptrs p) with Some i => inl i | None => inr (- E_XTNT_SIZE) end.
Definition has_xtnt (x : Xn_xtnt) (b : Xn_bptr) : bool :=
  match b with BPTR_XTNT y => xtnt_dominates y x | _ => false end.
Definition find_dominating_xtnt (p : Pxn) (x : Xn_xtnt) : nat + Z :=
  match find_bptr (has_xtnt x) (pxn_bptrs p) with Some i => inl i | None => inr (- E_NOT_FOUND) end.

(** A stub in the source. *)
Definition pxn_has_write_caps (p : Pxn) : bool := false.

(** ** The cache of pxns *)

Definition pxn_hash (n : Xn_name) : Z := Z.land (u64 (xa_dev n + xa_name n)) PXN_MASK_QS.
Definition is_pxn_disk_dev (n : Xn_name) : bool := xa_dev n <? MAX_DISKS.
Definition queue (h : Z) (s : pxnst) : list Z := default [] (pxn_qs s !! h).
Definition same_name (n m : Xn_name) : bool := (xa_dev n =? xa_dev m) && (xa_name n =? xa_name m).

(** Every queue is empty. *)
Definition pxn_init : M pxnst unit := modify (px_set_cache ∅ []).

Definition remember_pxn (p : Z) : M pxnst unit :=
  x <- get_pxn p ;;
  modify (fun s => let h := pxn_hash (pxn_name x) in
    px_set_cache (<[h := p :: queue h s]> (pxn_qs s)) (pxn_lru s ++ [p]) s).

Definition forget_pxn (p : Z) : M pxnst unit :=
  x <- get_pxn p ;;
  let h := pxn_hash (pxn_name x) in
  q <- (fun s => of_option (unlink p (queue h s)) s) ;;
  l <- (fun s => of_option (unlink p (pxn_lru s)) s) ;;
  modify (fun s => px_set_cache (<[h := q]> (pxn_qs s)) l s).

(** The walk of a queue. *)
Fixpoint find_name (n : Xn_name) (l : list Z) : M pxnst (option Z) :=
  match l with
  | [] => mreturn None
  | p :: l' => x <- get_pxn p ;; if same_name (pxn_name x) n then mreturn (Some p) else find_name n l'
  end.

Definition lookup_pxn (n : Xn_name) : M pxnst (option Z) :=
  q <- gets (queue (pxn_hash n)) ;;
  o <- find_name n q ;;
  match o with
  | None => mreturn None
  | Some p =>
      l <- (fun s => of_option (unlink p (pxn_lru s)) s) ;;
      modify (fun s => px_set_cache (pxn_qs s) (l ++ [p]) s) ;;
      mreturn (Some p)
  end.

Fixpoint dev_in (dev : Z) (l : list Z) : M pxnst bool :=
  match l with
  | [] => mreturn false
  | p :: l' => x <- get_pxn p ;; if xa_dev (pxn_name x) =? dev then mreturn true else dev_in dev l'
  end.
Definition is_dev_used (dev : Z) : M pxnst bool :=
  s <- get ;; dev_in dev (zseq 0 (Z.to_nat PXN_NUM_QS) ≫= fun h => queue h s).

(** ** Access *)

(** The result of [acl_access]; the C functions return 1 for 0 and store a
    negative one in [*error]. *)
Definition xtnt_verify_access (p : Pxn) (c : cap) (access : Z) : M pxnst Z :=
  h <- gets px_acl ;; of_option (acl_access h c (pxn_xtnt_acl p) access).
Definition pxn_verify_access (p : Pxn) (c : cap) (access : Z) : M pxnst Z :=
  h <- gets px_acl ;; of_option (acl_access h c (pxn_pxn_acl p) access).

(** 1 as [0], 0 as the value of [*error].  [fuel] bounds the depth of the
    recursion. *)
Section authorize.
Context (rec : Z -> M pxnst Z).
Fixpoint authorize_subs (l : list Xn_bptr) : M pxnst Z :=
  match l with
  | [] => mreturn (- E_NOT_FOUND)
  | BPTR_PXN q :: l' =>
      r <- rec q ;;
      if r =? 0 then mreturn 0 else if negb (r =? - E_NOT_FOUND) then mreturn r else authorize_subs l'
  | _ :: l' => authorize_subs l'
  end.
End authorize.

Fixpoint pxn_authorizes_xtnt (fuel : nat) (p : Z) (c : cap) (x : Xn_xtnt) (access : Z) : M pxnst Z :=
  match fuel with
  | O => panic
  | S fuel' =>
      n <- get_pxn p ;;
      match find_bptr (has_xtnt x) (pxn_bptrs n) with
      | Some _ => xtnt_verify_access n c access
      | None => authorize_subs (fun q => pxn_authorizes_xtnt fuel' q c x access) (pxn_bptrs n)
      end
  end.

(** ** Creating *)

Definition new_pxn (n : Xn_name) (jx jp : list cap) (bptrs : Z) : Pxn :=
  mkPxn n (acl_init jx (zlen jx)) (acl_init jp (zlen jp)) (repeat BPTR_EMPTY (Z.to_nat bptrs)) 1 false.

(** The size of the structure, its lists and its array; the code keeps it in a
    u16. *)
Definition pxn_size (caps bptrs : Z) : Z := 52 + caps * 8 + bptrs * 40.

(** [jx] and [jp] are the junk in the memory of the two lists.  When the size
    does not fit the u16 the stores run past the block that was allocated:
    nothing is known of the kernel then, and the model stops. *)
Definition pxn_alloc (mem : Z) (jx jp : list cap) (bptrs : Z) (c_pxn c_xtnt : cap) (n : Xn_name) : M pxnst Z :=
  used <- (if is_pxn_disk_dev n then o <- lookup_pxn n ;; mreturn (bool_decide (is_Some o)) else is_dev_used (xa_dev n)) ;;
  if (used : bool) then mreturn (- E_EXISTS)
  else if mem =? 0 then mreturn (- E_NO_MEM)
  else
    assert_ (pxn_size (zlen jx + zlen jp) bptrs <? two_p 16) ;;
    let p := new_pxn n jx jp bptrs in
    let '(r, pa) := acl_add (pxn_pxn_acl p) (zlen jp) c_pxn in
    if negb (r =? 0) then mreturn r
    else
      let '(r, xa) := acl_add (pxn_xtnt_acl p) (zlen jx) c_xtnt in
      if negb (r =? 0) then mreturn r
      else
        modify (fun s => px_set_pxns (<[mem := set_acls xa pa p]> (pxns s)) s) ;;
        remember_pxn mem ;;
        mreturn 0.

Definition sys_pxn_alloc (mem : Z) (jx jp : list cap) (bptrs k_pxn k_xtnt : Z) (n : Xn_name) : M pxnst Z :=
  e <- my_env ;;
  match env_getcap e k_pxn with
  | inr r => mreturn r
  | inl c_pxn =>
      match env_getcap e k_xtnt with
      | inr r => mreturn r
      | inl c_xtnt => pxn_alloc mem jx jp bptrs c_pxn c_xtnt n
      end
  end.

(** ** Revoking *)

Definition bptr_at (p : Z) (i : Z) : M pxnst (option Xn_bptr) :=
  n <- get_pxn p ;; mreturn (pxn_bptrs n !! Z.to_nat i).

(** Drop the first record of (p, i); a missing one is only reported. *)
Fixpoint drop_ref (r : Z * Z) (l : list (Z * Z)) : list (Z * Z) :=
  match l with
  | [] => []
  | r' :: l' => if bool_decide (r' = r) then l' else r' :: drop_ref r l'
  end.
Definition set_forged_to (l : list (Z * Z)) (x : Xn_xtnt) : Xn_xtnt := mkXt (xtnt_block x) (xtnt_size x) l (xtnt_forged_from x).
Definition upd_xtnt (i : Z) (f : Xn_xtnt -> Xn_xtnt) (p : Pxn) : Pxn :=
  set_bptrs (alter (fun b => match b with BPTR_XTNT x => BPTR_XTNT (f x) | _ => b end) (Z.to_nat i) (pxn_bptrs p)) p.

(** Lines 325-352: take the extent out of its parent's list. *)
Definition unforge (p i : Z) (x : Xn_xtnt) : M pxnst unit :=
  match xtnt_forged_from x with
  | None => mreturn tt
  | Some (q, j) => upd_pxn q (upd_xtnt j (fun y => set_forged_to (drop_ref (p, i) (xtnt_forged_to y)) y))
  end.

Definition bptr_ids (n : Pxn) : list Z := zseq 0 (length (pxn_bptrs n)).

(** One bptr of the loop; [rec] is the recursive call on a forged extent.  A
    record whose bptr is already empty names an extent that an earlier call
    removed together with everything it contains. *)
Definition remove_at (rec : Z -> Xn_xtnt -> M pxnst unit) (p : Z) (x : Xn_xtnt) (i : Z) : M pxnst unit :=
  b <- bptr_at p i ;;
  match b with
  | Some (BPTR_XTNT y) =>
      if xtnt_dominates x y then
        mfor (fun r : Z * Z => c <- bptr_at (fst r) (snd r) ;;
                match c with Some (BPTR_XTNT y') => rec (fst r) y' | _ => mreturn tt end) (xtnt_forged_to y) ;;
        unforge p i y ;;
        upd_pxn p (set_bptr (Z.to_nat i) BPTR_EMPTY)
      else mreturn tt
  | _ => mreturn tt
  end.

Fixpoint pxn_remove_xtnt (fuel : nat) (p : Z) (x : Xn_xtnt) : M pxnst unit :=
  match fuel with
  | O => panic
  | S fuel' => n <- get_pxn p ;; mfor (remove_at (pxn_remove_xtnt fuel') p x) (bptr_ids n)
  end.

Fixpoint pxn_dealloc (fuel : nat) (p : Z) : M pxnst unit :=
  match fuel with
  | O => panic
  | S fuel' =>
      upd_pxn p (fun n => set_refcnt (s32 (pxn_refcnt n - 1)) n) ;;
      n <- get_pxn p ;;
      if negb (pxn_refcnt n =? 0) then mreturn tt
      else
        mfor (fun i => b <- bptr_at p i ;;
                match b with
                | Some (BPTR_XTNT x) => pxn_remove_xtnt fuel p x
                | Some (BPTR_PXN q) => pxn_dealloc fuel' q
                | _ => mreturn tt
                end) (bptr_ids n) ;;
        forget_pxn p ;;
        modify (fun s => px_set_pxns (delete p (pxns s)) s)
  end.

(** Find the pxn and the capability, check for write access: the start of the
    revoking calls (they differ in the order of the first two). *)
Definition sys_pxn_remove_xtnt (fuel : nat) (n : Xn_name) (x : Xn_xtnt) (k : Z) : M pxnst Z :=
  o <- lookup_pxn n ;;
  match o with
  | None => mreturn (- E_NOT_FOUND)
  | Some p =>
      e <- my_env ;;
      match env_getcap e k with
      | inr r => mreturn r
      | inl c =>
          q <- get_pxn p ;;
          r <- pxn_verify_access q c ACL_W ;;
          if r <? 0 then mreturn r else pxn_remove_xtnt fuel p x ;; mreturn 0
      end
  end.

Definition sys_pxn_dealloc (fuel : nat) (k : Z) (n : Xn_name) : M pxnst Z :=
  e <- my_env ;;
  match env_getcap e k with
  | inr r => mreturn r
  | inl c =>
      o <- lookup_pxn n ;;
      match o with
      | None => mreturn (- E_NOT_FOUND)
      | Some p =>
          q <- get_pxn p ;;
          r <- pxn_verify_access q c ACL_W ;;
          if r <? 0 then mreturn r else pxn_dealloc fuel p ;; mreturn 0
      end
  end.

Definition pxn_remove_pxn (fuel : nat) (p1 p2 : Z) (c : cap) : M pxnst Z :=
  n <- get_pxn p1 ;;
  r <- pxn_verify_access n c ACL_W ;;
  if r <? 0 then mreturn r
  else
    mfor (fun i => b <- bptr_at p1 i ;;
            match b with
            | Some (BPTR_PXN q) =>
                if q =? p2 then pxn_dealloc fuel p2 ;; upd_pxn p1 (set_bptr (Z.to_nat i) BPTR_EMPTY) else mreturn tt
            | _ => mreturn tt
            end) (bptr_ids n) ;;
    mreturn 0.

Definition sys_pxn_remove_pxn (xn1 xn2 : Xn_name) (k : Z) : M pxnst Z := panic.

(** ** Granting *)

Definition pxn_add_cap (n : Xn_name) (c_new c_pxn : cap) (flag : bool) : M pxnst Z :=
  o <- lookup_pxn n ;;
  match o with
  | None => mreturn (- E_NOT_FOUND)
  | Some p =>
      x <- get_pxn p ;;
      r <- pxn_verify_access x c_pxn ACL_W ;;
      if r <? 0 then mreturn r
      else if pxn_frozen x then mreturn (- E_XTNT_RDONLY)
      else
        let '(r, l) := acl_add (if flag then pxn_pxn_acl x else pxn_xtnt_acl x)
                               (zlen (if flag then pxn_pxn_acl x else pxn_xtnt_acl x)) c_new in
        if negb (r =? 0) then mreturn r
        else upd_pxn p (if flag then set_acls (pxn_xtnt_acl x) l else set_acls l (pxn_pxn_acl x)) ;; mreturn 0
  end.

Definition sys_pxn_add_cap (n : Xn_name) (k_new k_pxn : Z) (flag : bool) : M pxnst Z :=
  e <- my_env ;;
  match env_getcap e k_pxn with
  | inr r => mreturn r
  | inl c_pxn =>
      match env_getcap e k_new with
      | inr r => mreturn r
      | inl c_new => pxn_add_cap n c_new c_pxn flag
      end
  end.

(** The new extent: the links the caller supplied are not used. *)
Definition fresh_xtnt (x : Xn_xtnt) (from : option (Z * Z)) : Xn_xtnt := mkXt (xtnt_block x) (xtnt_size x) [] from.

Definition pxn_kernel_add_xtnt (n : Xn_name) (x : Xn_xtnt) : M pxnst Z :=
  o <- lookup_pxn n ;;
  match o with
  | None => mreturn (- E_NOT_FOUND)
  | Some p =>
      q <- get_pxn p ;;
      match find_free_bptr q with
      | inr r => mreturn r
      | inl i => upd_pxn p (set_bptr i (BPTR_XTNT (fresh_xtnt x None))) ;; mreturn 0
      end
  end.

(** [src] is [None] for a null pointer; the capabilities for it are then not
    used. *)
Definition pxn_add_xtnt (mem : Z) (src : option Z) (dst : Z) (x : Xn_xtnt) (c_dst c_src_pxn c_src_xtnt : cap) : M pxnst Z :=
  d <- get_pxn dst ;;
  r <- pxn_verify_access d c_dst ACL_W ;;
  if r <? 0 then mreturn r
  else if negb (is_pxn_disk_dev (pxn_name d)) then
    assert_ (negb (bool_decide (is_Some src))) ;; pxn_kernel_add_xtnt (pxn_name d) x
  else
    src <- of_option src ;;
    s <- get_pxn src ;;
    r <- pxn_verify_access s c_src_pxn ACL_R ;;
    if r <? 0 then mreturn r
    else
      match find_dominating_xtnt s x with
      | inr r => mreturn r
      | inl j =>
          r <- xtnt_verify_access s c_src_xtnt ACL_R ;;
          if r <? 0 then mreturn r
          else
            w <- xtnt_verify_access s c_src_xtnt ACL_W ;;
            if (w <? 0) && pxn_has_write_caps d then mreturn (- E_XTNT_RDONLY)
            else
              match find_free_bptr d with
              | inr r => mreturn r
              | inl i =>
                  if mem =? 0 then mreturn (- E_NO_MEM)
                  else
                    upd_pxn dst (set_bptr i (BPTR_XTNT (fresh_xtnt x (Some (src, Z.of_nat j))))) ;;
                    upd_pxn src (upd_xtnt (Z.of_nat j) (fun y => set_forged_to ((dst, Z.of_nat i) :: xtnt_forged_to y) y)) ;;
                    (if w <? 0 then upd_pxn dst set_frozen else mreturn tt) ;;
                    mreturn 0
              end
      end.

(** [src_xn] is [None] for a null pointer. *)
Definition sys_pxn_add_xtnt (mem : Z) (src_xn : option Xn_name) (dst_xn : Xn_name) (x : Xn_xtnt)
    (k_dst_pxn k_src_pxn k_src_xtnt : Z) : M pxnst Z :=
  if negb (bool_decide (is_Some src_xn)) && is_pxn_disk_dev dst_xn then mreturn (- E_NOT_FOUND)
  else
    src <- match src_xn with None => mreturn (Some None) | Some n => o <- lookup_pxn n ;; mreturn (Some <$> o) end ;;
    match src with
    | None => mreturn (- E_NOT_FOUND)
    | Some src =>
        o <- lookup_pxn dst_xn ;;
        match o with
        | None => mreturn (- E_NOT_FOUND)
        | Some dst =>
            e <- my_env ;;
            match env_getcap e k_dst_pxn with
            | inr r => mreturn r
            | inl c_dst =>
                match src with
                | None => pxn_add_xtnt mem None dst x c_dst cap_null cap_null
                | Some p =>
                    match env_getcap e k_src_pxn with
                    | inr r => mreturn r
                    | inl c_sp =>
                        match env_getcap e k_src_xtnt with
                        | inr r => mreturn r
                        | inl c_sx => pxn_add_xtnt mem (Some p) dst x c_dst c_sp c_sx
                        end
                    end
                end
            end
        end
    end.

Definition pxn_add_pxn (dst src : Z) (c_dst c_src : cap) : M pxnst Z :=
  s <- get_pxn src ;;
  r <- pxn_verify_access s c_src ACL_R ;;
  if r <? 0 then mreturn r
  else
    d <- get_pxn dst ;;
    r <- pxn_verify_access d c_dst ACL_W ;;
    if r <? 0 then mreturn r
    else
      match find_free_bptr d with
      | inr r => mreturn r
      | inl i =>
          upd_pxn src (fun n => set_refcnt (s32 (pxn_refcnt n + 1)) n) ;;
          upd_pxn dst (set_bptr i (BPTR_PXN src)) ;;
          mreturn 0
      end.

Definition sys_pxn_add_pxn (dst_xn src_xn : Xn_name) (k_dst k_src : Z) : M pxnst Z :=
  o <- lookup_pxn src_xn ;;
  match o with
  | None => mreturn (- E_NOT_FOUND)
  | Some src =>
      o <- lookup_pxn dst_xn ;;
      match o with
      | None => mreturn (- E_NOT_FOUND)
      | Some dst =>
          e <- my_env ;;
          match env_getcap e k_dst with
          | inr r => mreturn r
          | inl c_dst =>
              match env_getcap e k_src with
              | inr r => mreturn r
              | inl c_src => pxn_add_pxn dst src c_dst c_src
              end
          end
      end
  end.

(** ** What authorisation means *)

(** The pxns below [p], in the order they are looked at. *)
Definition subs (n : Pxn) : list Z := pxn_bptrs n ≫= fun b => match b with BPTR_PXN q => [q] | _ => [] end.
Fixpoint below (fuel : nat) (m : gmap Z Pxn) (p : Z) : list Pxn :=
  match fuel with
  | O => []
  | S fuel' => match m !! p with None => [] | Some n => n :: (subs n ≫= below fuel' m) end
  end.

Definition guards (x : Xn_xtnt) (n : Pxn) : bool := existsb (has_xtnt x) (pxn_bptrs n).

(** The first pxn that has an extent around [x] decides. *)
Definition verdict (h : aclheap) (c : cap) (x : Xn_xtnt) (access : Z) (l : list Pxn) : Z :=
  match List.find (guards x) l with
  | Some n => acl_access_ref h c (pxn_xtnt_acl n) access
  | None => - E_NOT_FOUND
  end.

(** References lead down, to pxns that exist. *)
Record pxn_ok (rank : Z -> nat) (s : pxnst) : Prop := mkPxnOk {
  pk_sub : forall p n q, pxns s !! p = Some n -> BPTR_PXN q ∈ pxn_bptrs n -> is_Some (pxns s !! q) /\ (rank q < rank p)%nat;
  pk_acl : forall p n, pxns s !! p = Some n -> acl_wf (px_acl s) (pxn_xtnt_acl n) }.

Lemma find_bptr_existsb f l : bool_decide (is_Some (find_bptr f l)) = existsb f l.
Proof.
  induction l as [|b l IH]; [done|]. cbn. destruct (f b); cbn; [done|]. rewrite <- IH. destruct (find_bptr f l); done.
Qed.

Lemma find_bptr_Some f l i : find_bptr f l = Some i -> exists b, l !! i = Some b /\ f b = true.
Proof.
  revert i. induction l as [|b l IH]; intros i; cbn; [done|]. destruct (f b) eqn:E; [intros [= <-]; eauto|].
  destruct (find_bptr f l) as [j|]; [|done]. intros [= <-]. cbn. by apply IH.
Qed.

Lemma acl_ref_not_nf h c acl perm : acl_access_ref h c acl perm <> - E_NOT_FOUND.
Proof. unfold acl_access_ref. repeat case_match; elia. Qed.

Lemma find_app {A} (f : A -> bool) l k :
  List.find f (l ++ k) = match List.find f l with Some a => Some a | None => List.find f k end.
Proof. induction l as [|a l IH]; [done|]. cbn. by destruct (f a). Qed.

Lemma verdict_app h c x a l k :
  verdict h c x a (l ++ k) = if verdict h c x a l =? - E_NOT_FOUND then verdict h c x a k else verdict h c x a l.
Proof.
  unfold verdict. rewrite find_app. destruct (List.find (guards x) l) as [n|]; [|done].
  by rewrite (proj2 (Z.eqb_neq _ _)) by apply acl_ref_not_nf.
Qed.

Section authority.
Context (rank : Z -> nat) (c : cap) (x : Xn_xtnt) (access : Z) (s : pxnst) (Hok : pxn_ok rank s).

Lemma authorize_subs_run fuel l :
  (forall q, BPTR_PXN q ∈ l -> pxn_authorizes_xtnt fuel q c x access s = Ret (verdict (px_acl s) c x access (below fuel (pxns s) q)) s) ->
  authorize_subs (fun q => pxn_authorizes_xtnt fuel q c x access) l s =
  Ret (verdict (px_acl s) c x access ((l ≫= fun b => match b with BPTR_PXN q => [q] | _ => [] end) ≫= below fuel (pxns s))) s.
Proof.
  induction l as [|b l IH]; intros H; [done|]. destruct b as [|y|q]; cbn [authorize_subs mbind list_bind].
  1,2: apply IH; intros q Hq; apply H; by right.
  unfold mbind_ at 1. rewrite (H q) by left. cbn [app]. cbn [mbind list_bind]. rewrite verdict_app.
  set (v := verdict (px_acl s) c x access (below fuel (pxns s) q)). destruct (Z.eqb_spec v (- E_NOT_FOUND)) as [->|Hn]; cbn [negb].
  - apply IH. intros q' Hq'. apply H. by right.
  - by destruct (Z.eqb_spec v 0) as [->|].
Qed.

Lemma pxn_authorizes_run fuel p :
  is_Some (pxns s !! p) -> (rank p < fuel)%nat ->
  pxn_authorizes_xtnt fuel p c x access s = Ret (verdict (px_acl s) c x access (below fuel (pxns s) p)) s.
Proof.
  revert p. induction fuel as [|fuel IH]; intros p [n Hn] Hr; [lia|]. cbn [pxn_authorizes_xtnt below].
  unfold mbind_, get_pxn, of_option. rewrite Hn. cbn [mreturn]. cbn beta iota.
  unfold verdict. cbn [List.find]. unfold guards at 1. rewrite <- find_bptr_existsb.
  destruct (find_bptr (has_xtnt x) (pxn_bptrs n)) as [i|] eqn:Ef; cbn [bool_decide].
  - unfold xtnt_verify_access, mbind_, gets, of_option. rewrite (acl_access_ok _ c _ access) by (by eapply pk_acl). done.
  - apply (authorize_subs_run fuel (pxn_bptrs n)). intros q Hq. destruct (pk_sub _ _ Hok p n q Hn Hq) as [Hex Hlt]. apply IH; [done|lia].
Qed.
End authority.

(** ** Who can add to a pxn *)

(** What a bptr refers to, without the bookkeeping of forged extents. *)
Definition bptr_key (b : Xn_bptr) : option (Z * Z + Z) :=
  match b with
  | BPTR_EMPTY => None
  | BPTR_XTNT x => Some (inl (xtnt_block x, xtnt_size x))
  | BPTR_PXN q => Some (inr q)
  end.

(** [n'] grants nothing that [n] does not. *)
Definition lesser (n n' : Pxn) : Prop :=
  pxn_name n' = pxn_name n /\ pxn_pxn_acl n' = pxn_pxn_acl n /\ pxn_xtnt_acl n' = pxn_xtnt_acl n /\
  length (pxn_bptrs n') = length (pxn_bptrs n) /\
  forall i b b', pxn_bptrs n !! i = Some b -> pxn_bptrs n' !! i = Some b' -> bptr_key b' = None \/ bptr_key b' = bptr_key b.

Lemma lesser_refl n : lesser n n.
Proof. split_and!; try done. intros i b b' H1 H2. right. congruence. Qed.

Lemma lesser_trans n1 n2 n3 : lesser n1 n2 -> lesser n2 n3 -> lesser n1 n3.
Proof.
  intros (A1 & A2 & A3 & A4 & A5) (B1 & B2 & B3 & B4 & B5). split_and!; try congruence. intros i b b' H1 H3.
  destruct (lookup_lt_is_Some_2 (pxn_bptrs n2) i) as [b2 H2]; [rewrite A4; by eapply lookup_lt_Some|].
  destruct (B5 i b2 b' H2 H3) as [?|E]; [by left|]. rewrite E. by eapply A5.
Qed.

(** The pxns for which [P] holds have only lost something, the access lists of
    the heap and the environments are as they were. *)
Definition shrink (P : Z -> Prop) (s s' : pxnst) : Prop :=
  px_et s' = px_et s /\ px_acl s' = px_acl s /\
  forall p n', P p -> pxns s' !! p = Some n' -> exists n, pxns s !! p = Some n /\ lesser n n'.

Lemma shrink_refl P s : shrink P s s.
Proof. split_and!; try done. intros p n' _ H. exists n'. split; [done|apply lesser_refl]. Qed.

Lemma shrink_trans P s1 s2 s3 : shrink P s1 s2 -> shrink P s2 s3 -> shrink P s1 s3.
Proof.
  intros (A1 & A2 & A3) (B1 & B2 & B3). split_and!; [congruence..|]. intros p n3 HP H3.
  destruct (B3 p n3 HP H3) as (n2 & H2 & L2). destruct (A3 p n2 HP H2) as (n1 & H1 & L1). eauto using lesser_trans.
Qed.

(** Programs that only shrink, whatever they return. *)
Definition shrinks (P : Z -> Prop) {A} (m : M pxnst A) : Prop := forall s a s', m s = Ret a s' -> shrink P s s'.

Section shrinks.
Context (P : Z -> Prop).

Lemma shrinks_ret {A} (a : A) : shrinks P (mreturn a).
Proof. intros s a' s' [= <- <-]. apply shrink_refl. Qed.

Lemma shrinks_panic {A} : shrinks P (panic (A := A)).
Proof. by intros s a s'. Qed.

Lemma shrinks_bind {A B} (m : M pxnst A) (k : A -> M pxnst B) :
  shrinks P m -> (forall a, shrinks P (k a)) -> shrinks P (mbind_ m k).
Proof.
  intros Hm Hk s b s' E. unfold mbind_ in E. destruct (m s) as [a s1|] eqn:E1; [|done].
  eapply shrink_trans; [by eapply Hm|by eapply Hk].
Qed.

Lemma shrinks_gets {A} (f : pxnst -> A) : shrinks P (gets f).
Proof. intros s a s' [= <- <-]. apply shrink_refl. Qed.

Lemma shrinks_get : shrinks P get.
Proof. intros s a s' [= <- <-]. apply shrink_refl. Qed.

Lemma shrinks_of_option {A} (o : option A) : shrinks P (of_option o).
Proof. intros s a s' E. destruct o; [|done]. injection E as <- <-. apply shrink_refl. Qed.

Lemma shrinks_state {A} (f : pxnst -> option A) : shrinks P (fun s => of_option (f s) s).
Proof. intros s a s' E. by apply (shrinks_of_option (f s)) in E. Qed.

Lemma shrinks_assert b : shrinks P (assert_ b).
Proof. intros s a s' E. destruct b; [|done]. injection E as <- <-. apply shrink_refl. Qed.

Lemma shrinks_mfor {I} (f : I -> M pxnst unit) l : (forall i, shrinks P (f i)) -> shrinks P (mfor f l).
Proof. intros Hf. induction l as [|i l IH]; cbn; [apply shrinks_ret|]. by apply shrinks_bind. Qed.

Lemma shrinks_upd p f : (P p -> forall n, lesser n (f n)) -> shrinks P (upd_pxn p f).
Proof.
  intros Hf s [] s' E. unfold upd_pxn, mbind_, get_pxn, of_option, modify in E.
  destruct (pxns s !! p) as [n|] eqn:Hp; [|done]. injection E as <-. split_and!; try done. intros q n' HP Hq. cbn in Hq.
  destruct (decide (p = q)) as [<-|Hne].
  - rewrite lookup_insert_eq in Hq. injection Hq as <-. eauto.
  - rewrite lookup_insert_ne in Hq by done. exists n'. split; [done|apply lesser_refl].
Qed.

Lemma shrinks_cache f g : shrinks P (modify (fun s => px_set_cache (f s) (g s) s)).
Proof. intros s a s' [= <- <-]. split_and!; try done. intros p n' _ H. exists n'. split; [done|apply lesser_refl]. Qed.
End shrinks.

Create HintDb pxn.
#[export] Hint Resolve shrinks_ret shrinks_panic shrinks_gets shrinks_get shrinks_of_option shrinks_assert shrinks_cache : pxn.
#[export] Hint Extern 1 (shrinks _ (get_pxn _)) => apply shrinks_state : pxn.
#[export] Hint Extern 1 (shrinks _ (fun s => of_option _ s)) => apply shrinks_state : pxn.

(** Go through a program, stopping at the calls that are no plain step. *)
Ltac shrink_step :=
  lazymatch goal with
  | |- shrinks _ (mbind_ _ _) => apply shrinks_bind; [|intros ?]
  | |- shrinks _ (mfor _ _) => apply shrinks_mfor; intros ?
  | |- shrinks _ (match ?x with _ => _ end) => destruct x
  | |- shrinks _ _ => solve [auto with pxn]
  end.
Ltac shrink_steps := repeat (cbn beta iota; shrink_step).

Section revoke.
Context (P : Z -> Prop).

Lemma set_bptr_empty_lesser i n : lesser n (set_bptr i BPTR_EMPTY n).
Proof.
  split_and!; try done; cbn; [apply length_insert|]. intros j b b' H1 H2. destruct (decide (i = j)) as [<-|Hne].
  - rewrite list_lookup_insert_eq in H2 by (by eapply lookup_lt_Some). injection H2 as <-. by left.
  - rewrite list_lookup_insert_ne in H2 by done. right. congruence.
Qed.

Lemma upd_xtnt_lesser i f n :
  (forall x, xtnt_block (f x) = xtnt_block x /\ xtnt_size (f x) = xtnt_size x) -> lesser n (upd_xtnt i f n).
Proof.
  intros Hf. split_and!; try done; cbn; [apply length_alter|]. intros j b b' H1 H2. right.
  destruct (decide (Z.to_nat i = j)) as [<-|Hne].
  - rewrite list_lookup_alter_eq, H1 in H2. injection H2 as <-. destruct b as [|x|]; [done| |done]. cbn. destruct (Hf x) as [-> ->]. done.
  - rewrite list_lookup_alter_ne in H2 by done. congruence.
Qed.

Lemma lookup_shrinks n : shrinks P (lookup_pxn n).
Proof.
  unfold lookup_pxn. shrink_steps.
  match goal with |- shrinks _ (find_name _ ?l) => induction l as [|q l IH] end; cbn; shrink_steps.
Qed.

Lemma bptr_at_shrinks p i : shrinks P (bptr_at p i).
Proof. unfold bptr_at. shrink_steps. Qed.

Lemma remove_xtnt_shrinks fuel p x : shrinks P (pxn_remove_xtnt fuel p x).
Proof.
  revert p x. induction fuel as [|fuel IH]; intros p x; cbn [pxn_remove_xtnt]; [auto with pxn|].
  unfold remove_at, unforge. shrink_steps; auto using bptr_at_shrinks.
  - apply shrinks_upd. intros _ n. by apply upd_xtnt_lesser.
  - apply shrinks_upd. intros _ n. apply set_bptr_empty_lesser.
Qed.
End revoke.

Lemma forget_shrinks P p : shrinks P (forget_pxn p).
Proof. unfold forget_pxn. shrink_steps. Qed.

Lemma remember_shrinks P p : shrinks P (remember_pxn p).
Proof. unfold remember_pxn. shrink_steps. Qed.

Lemma delete_shrinks P p : shrinks P (modify (fun s => px_set_pxns (delete p (pxns s)) s)).
Proof.
  intros s [] s' [= <-]. split_and!; try done. intros q n' _ H. cbn in H. apply lookup_delete_Some in H as [_ H].
  exists n'. split; [done|apply lesser_refl].
Qed.

Lemma refcnt_lesser k n : lesser n (set_refcnt k n).
Proof. split_and!; try done. intros i b b' H1 H2. right. cbn in H2. congruence. Qed.

Lemma dealloc_shrinks P fuel p : shrinks P (pxn_dealloc fuel p).
Proof.
  revert p. induction fuel as [|fuel IH]; intros p; [cbn; auto with pxn|].
  cbn [pxn_dealloc]. shrink_steps; auto using bptr_at_shrinks, remove_xtnt_shrinks, forget_shrinks, delete_shrinks.
  apply shrinks_upd. intros _ n. apply refcnt_lesser.
Qed.

(** ** The calls *)

Inductive pxn_call :=
  | Call_alloc (mem : Z) (jx jp : list cap) (bptrs k_pxn k_xtnt : Z) (n : Xn_name)
  | Call_remove_xtnt (fuel : nat) (n : Xn_name) (x : Xn_xtnt) (k : Z)
  | Call_dealloc (fuel : nat) (k : Z) (n : Xn_name)
  | Call_add_cap (n : Xn_name) (k_new k_pxn : Z) (flag : bool)
  | Call_add_xtnt (mem : Z) (src : option Xn_name) (dst : Xn_name) (x : Xn_xtnt) (k_dst k_sp k_sx : Z)
  | Call_add_pxn (dst src : Xn_name) (k_dst k_src : Z).

Definition run_call (c : pxn_call) : M pxnst Z :=
  match c with
  | Call_alloc mem jx jp b k1 k2 n => sys_pxn_alloc mem jx jp b k1 k2 n
  | Call_remove_xtnt fuel n x k => sys_pxn_remove_xtnt fuel n x k
  | Call_dealloc fuel k n => sys_pxn_dealloc fuel k n
  | Call_add_cap n k1 k2 f => sys_pxn_add_cap n k1 k2 f
  | Call_add_xtnt mem src dst x k1 k2 k3 => sys_pxn_add_xtnt mem src dst x k1 k2 k3
  | Call_add_pxn dst src k1 k2 => sys_pxn_add_pxn dst src k1 k2
  end.

(** New objects get unused addresses. *)
Definition call_fresh (c : pxn_call) (s : pxnst) : Prop :=
  match c with Call_alloc mem _ _ _ _ _ _ => pxns s !! mem = None | _ => True end.

(** The caller has a capability that may write pxn [p]. *)
Definition may_write (e : Env) (s : pxnst) (p : Z) : Prop :=
  exists k c n, env_getcap e k = inl c /\ pxns s !! p = Some n /\ acl_access (px_acl s) c (pxn_pxn_acl n) ACL_W = Some 0.

Lemma wlp_shrinks P {A} (m : M pxnst A) s0 s : shrinks P m -> shrink P s0 s -> wlp m s (fun _ s' => shrink P s0 s').
Proof. intros Hm H. unfold wlp. destruct (m s) eqn:E; [|done]. by eapply shrink_trans, Hm. Qed.

(** Only the order of the lru list differs. *)
Definition same_pxns (s s' : pxnst) : Prop :=
  px_et s' = px_et s /\ px_acl s' = px_acl s /\ pxns s' = pxns s /\ pxn_qs s' = pxn_qs s.

Lemma same_shrink P s s' : same_pxns s s' -> shrink P s s'.
Proof. intros (E1 & E2 & E3 & _). split_and!; try done. intros p n' _ H. rewrite E3 in H. exists n'. split; [done|apply lesser_refl]. Qed.

(** The pxn that is found under a name. *)
Fixpoint name_at (m : gmap Z Pxn) (n : Xn_name) (l : list Z) : option Z :=
  match l with
  | [] => None
  | p :: l' => match m !! p with Some x => if same_name (pxn_name x) n then Some p else name_at m n l' | None => None end
  end.
Definition found (s : pxnst) (n : Xn_name) : option Z := name_at (pxns s) n (queue (pxn_hash n) s).

Lemma same_name_eq n m : same_name n m = true -> n = m.
Proof. destruct n, m. unfold same_name. cbn. rewrite andb_true_iff, !Z.eqb_eq. by intros [-> ->]. Qed.

Lemma name_at_name m n l p x : name_at m n l = Some p -> m !! p = Some x -> pxn_name x = n.
Proof.
  induction l as [|q l IH]; cbn; [done|]. destruct (m !! q) as [y|] eqn:Hq; [|done]. destruct (same_name _ _) eqn:En; [|done].
  intros [= ->]. rewrite Hq. intros [= ->]. by apply same_name_eq.
Qed.

(** Programs that read. *)
Lemma find_name_reads n l s : wlp (find_name n l) s (fun o s' => s' = s /\ o = name_at (pxns s) n l).
Proof.
  induction l as [|p l IH]; cbn; [done|]. apply wlp_bind, wlp_of_option. intros x Hx. rewrite Hx. by destruct (same_name _ _).
Qed.

Lemma lookup_reads n s : wlp (lookup_pxn n) s (fun o s' => same_pxns s s' /\ o = found s n).
Proof.
  apply wlp_bind, wlp_bind. eapply wlp_mono; [apply find_name_reads|]. intros [p|] s' [-> Hp]; [|done].
  apply wlp_bind, wlp_of_option. by intros l _.
Qed.

Lemma my_env_reads e cur s Q :
  curenv (px_et s) = Some cur -> envs (px_et s) !! cur = Some e -> Q e s -> wlp my_env s Q.
Proof. intros Hc He HQ. unfold wlp, my_env, mbind_, of_option. rewrite Hc. cbn. by rewrite He. Qed.

Section guarded.
Context (e : Env) (cur : Z) (s0 : pxnst).
Context (Hcur : curenv (px_et s0) = Some cur) (He : envs (px_et s0) !! cur = Some e).

(** The pxns the caller may not write. *)
Definition locked (p : Z) : Prop := is_Some (pxns s0 !! p) /\ ~ may_write e s0 p.
Definition done_ok {A} (_ : A) (s : pxnst) : Prop := shrink locked s0 s.

Lemma env_read s (Q : Env -> pxnst -> Prop) : same_pxns s0 s -> Q e s -> wlp my_env s Q.
Proof. intros (E & _) HQ. apply (my_env_reads e cur); [by rewrite E..|done]. Qed.

Lemma lookup_step {A} n (k : option Z -> M pxnst A) s Q :
  same_pxns s0 s ->
  (forall o s', same_pxns s0 s' -> o = found s0 n -> wlp (k o) s' Q) ->
  wlp (mbind_ (lookup_pxn n) k) s Q.
Proof.
  intros (E1 & E2 & E3 & E4) Hk. apply wlp_bind. eapply wlp_mono; [apply lookup_reads|]. intros o s' [(F1 & F2 & F3 & F4) Hp].
  apply Hk; [split_and!; congruence|]. rewrite Hp. unfold found, queue. by rewrite E3, E4.
Qed.

Lemma get_step {A} p (k : Pxn -> M pxnst A) s Q :
  same_pxns s0 s -> (forall n, pxns s0 !! p = Some n -> wlp (k n) s Q) -> wlp (mbind_ (get_pxn p) k) s Q.
Proof. intros (_ & _ & E & _) Hk. apply wlp_bind, wlp_of_option. rewrite E. auto. Qed.

(** A check for write access that succeeds names a pxn the caller may write. *)
Lemma verify_step {A} p n k c (body : M pxnst A) (fail : Z -> M pxnst A) s Q :
  same_pxns s0 s -> pxns s0 !! p = Some n -> env_getcap e k = inl c ->
  (forall r, wlp (fail r) s Q) -> (may_write e s0 p -> wlp body s Q) ->
  wlp (mbind_ (pxn_verify_access n c ACL_W) (fun r => if r <? 0 then fail r else body)) s Q.
Proof.
  intros (_ & E & _ & _) Hn Hc Hf Hb. apply wlp_bind. unfold pxn_verify_access. apply wlp_bind. unfold wlp at 1, gets.
  apply wlp_of_option. intros r Hr. rewrite E in Hr. destruct (Z.ltb_spec r 0); [done|]. apply Hb. exists k, c, n. split_and!; try done.
  apply acl_access_result in Hr as Hr'. destruct Hr' as [->|[->| ->]]; [done|elia..].
Qed.

Lemma read_only {A} (a : A) s : same_pxns s0 s -> wlp (mreturn a) s done_ok.
Proof. intros H. by apply same_shrink. Qed.

Lemma upd_written p f s : may_write e s0 p -> shrink locked s0 s -> wlp (upd_pxn p f) s (fun _ s' => shrink locked s0 s').
Proof. intros Hw. apply wlp_shrinks, shrinks_upd. intros [_ Hl] n. destruct (Hl Hw). Qed.

Lemma remove_xtnt_guarded fuel n x k : wlp (sys_pxn_remove_xtnt fuel n x k) s0 done_ok.
Proof.
  apply lookup_step; [done|]. intros [p|] s Hs Hnm; [|by apply read_only]. apply wlp_bind, env_read; [done|].
  destruct (env_getcap e k) as [c|r] eqn:Hc; [|by apply read_only]. apply get_step; [done|]. intros q Hq.
  eapply verify_step; [done|done|done|intros r; by apply read_only|]. intros _. apply wlp_bind.
  by apply wlp_mono with (1 := wlp_shrinks locked _ s0 s (remove_xtnt_shrinks _ _ _ _) (same_shrink _ _ _ Hs)).
Qed.

Lemma dealloc_guarded fuel k n : wlp (sys_pxn_dealloc fuel k n) s0 done_ok.
Proof.
  apply wlp_bind, env_read; [done|]. destruct (env_getcap e k) as [c|r] eqn:Hc; [|by apply read_only].
  apply lookup_step; [done|]. intros [p|] s Hs Hnm; [|by apply read_only]. apply get_step; [done|]. intros q Hq.
  eapply verify_step; [done|done|done|intros r; by apply read_only|]. intros _. apply wlp_bind.
  by apply wlp_mono with (1 := wlp_shrinks locked _ s0 s (dealloc_shrinks _ _ _) (same_shrink _ _ _ Hs)).
Qed.

Lemma add_cap_guarded n k_new k_pxn flag : wlp (sys_pxn_add_cap n k_new k_pxn flag) s0 done_ok.
Proof.
  apply wlp_bind, env_read; [done|]. destruct (env_getcap e k_pxn) as [c|r] eqn:Hc; [|by apply read_only].
  destruct (env_getcap e k_new) as [c'|r]; [|by apply read_only].
  apply lookup_step; [done|]. intros [p|] s Hs Hnm; [|by apply read_only]. apply get_step; [done|]. intros q Hq.
  eapply verify_step; [done|done|done|intros r; by apply read_only|]. intros Hw. destruct (pxn_frozen q); [by apply read_only|].
  destruct (acl_add _ _ _) as [r l]. destruct (negb _); [by apply read_only|]. apply wlp_bind.
  eapply wlp_mono; [apply upd_written; [done|by apply same_shrink]|]. done.
Qed.

Lemma kernel_add_guarded p n x s :
  same_pxns s0 s -> found s0 n = Some p -> may_write e s0 p -> wlp (pxn_kernel_add_xtnt n x) s done_ok.
Proof.
  intros Hs Hp Hw. apply lookup_step; [done|]. rewrite Hp. intros o s1 Hs1 ->.
  apply get_step; [done|]. intros m' _. destruct (find_free_bptr m') as [i|r]; [|by apply read_only]. apply wlp_bind.
  eapply wlp_mono; [apply upd_written; [done|by apply same_shrink]|]. done.
Qed.

Lemma verify_reads n c a s Q : (forall r, Q r s) -> wlp (pxn_verify_access n c a) s Q.
Proof. intros H. apply wlp_bind. unfold wlp at 1, gets. apply wlp_of_option. auto. Qed.
Lemma xverify_reads n c a s Q : (forall r, Q r s) -> wlp (xtnt_verify_access n c a) s Q.
Proof. intros H. apply wlp_bind. unfold wlp at 1, gets. apply wlp_of_option. auto. Qed.

Lemma add_xtnt_guarded mem src dst x k c_dst c_sp c_sx s :
  same_pxns s0 s -> env_getcap e k = inl c_dst -> (exists n, found s0 n = Some dst) -> wlp (pxn_add_xtnt mem src dst x c_dst c_sp c_sx) s done_ok.
Proof.
  intros Hs Hc [n Hn]. apply get_step; [done|]. intros d Hd. pose proof (name_at_name _ _ _ _ _ Hn Hd) as Hnd. eapply verify_step; [done|done|done|intros r; by apply read_only|]. intros Hw.
  destruct (negb (is_pxn_disk_dev _)).
  { apply wlp_bind. unfold wlp, assert_. destruct (negb _); [|done]. rewrite Hnd. by eapply kernel_add_guarded. }
  apply wlp_bind, wlp_of_option. intros src' _. apply get_step; [done|]. intros sp Hsp. apply wlp_bind, verify_reads. intros r.
  destruct (r <? 0); [by apply read_only|]. destruct (find_dominating_xtnt sp x) as [j|r1]; [|by apply read_only].
  apply wlp_bind, xverify_reads. intros r1. destruct (r1 <? 0); [by apply read_only|].
  apply wlp_bind, xverify_reads. intros w. destruct (_ && _); [by apply read_only|].
  destruct (find_free_bptr d) as [i|r2]; [|by apply read_only]. destruct (mem =? 0); [by apply read_only|].
  apply wlp_bind. eapply wlp_mono; [apply upd_written; [done|by apply same_shrink]|]. intros [] s1 H1.
  apply wlp_bind. eapply wlp_mono; [apply (wlp_shrinks locked); [|exact H1]|].
  { apply shrinks_upd. intros _ m. by apply upd_xtnt_lesser. }
  intros [] s2 H2. apply wlp_bind. destruct (w <? 0); [|done]. eapply wlp_mono; [by apply upd_written|]. done.
Qed.

Lemma sys_add_xtnt_guarded mem src dst x k1 k2 k3 : wlp (sys_pxn_add_xtnt mem src dst x k1 k2 k3) s0 done_ok.
Proof.
  unfold sys_pxn_add_xtnt. destruct (_ && _); [by apply read_only|]. apply wlp_bind.
  eapply wlp_mono with (fun _ s => same_pxns s0 s).
  { destruct src as [n|]; [|done]. apply wlp_bind. eapply wlp_mono; [apply lookup_reads|]. by intros o s [H _]. }
  intros [sp|] s Hs; [|by apply read_only]. apply lookup_step; [done|]. intros [d|] s1 Hs1 Hd; [|by apply read_only].
  apply wlp_bind, env_read; [done|]. destruct (env_getcap e k1) as [c1|r] eqn:Hc1; [|by apply read_only].
  destruct sp as [p|]; [|by eapply add_xtnt_guarded; eauto].
  destruct (env_getcap e k2) as [c2|r]; [|by apply read_only]. destruct (env_getcap e k3) as [c3|r]; [|by apply read_only].
  by eapply add_xtnt_guarded; eauto.
Qed.

Lemma add_pxn_guarded dst src k1 k2 : wlp (sys_pxn_add_pxn dst src k1 k2) s0 done_ok.
Proof.
  apply lookup_step; [done|]. intros [sp|] s Hs _; [|by apply read_only]. apply lookup_step; [done|]. intros [d|] s1 Hs1 _; [|by apply read_only].
  apply wlp_bind, env_read; [done|]. destruct (env_getcap e k1) as [c1|r] eqn:Hc1; [|by apply read_only].
  destruct (env_getcap e k2) as [c2|r]; [|by apply read_only].
  apply get_step; [done|]. intros n Hn. apply wlp_bind, verify_reads. intros r. destruct (r <? 0); [by apply read_only|].
  apply get_step; [done|]. intros m Hm. eapply verify_step; [done|done|done|intros r1; by apply read_only|]. intros Hw.
  destruct (find_free_bptr m) as [i|r1]; [|by apply read_only].
  apply wlp_bind. eapply wlp_mono; [apply (wlp_shrinks locked); [|by apply same_shrink]|].
  { apply shrinks_upd. intros _ x. apply refcnt_lesser. }
  intros [] s2 H2. apply wlp_bind. eapply wlp_mono; [by apply upd_written|]. done.
Qed.

Lemma dev_in_reads dev l s : wlp (dev_in dev l) s (fun _ s' => s' = s).
Proof. induction l as [|p l IH]; cbn; [done|]. apply wlp_bind, wlp_of_option. intros x _. by destruct (_ =? _). Qed.

Lemma is_dev_used_reads dev s : wlp (is_dev_used dev) s (fun _ s' => s' = s).
Proof. apply wlp_bind. apply dev_in_reads. Qed.

Lemma insert_new mem n s : pxns s0 !! mem = None -> same_pxns s0 s -> shrink locked s0 (px_set_pxns (<[mem := n]> (pxns s)) s).
Proof.
  intros Hm (E1 & E2 & E3 & _). split_and!; [done..|]. intros p n' [[x Hx] _] Hp. cbn in Hp. rewrite E3, lookup_insert_ne in Hp by congruence.
  exists n'. split; [done|apply lesser_refl].
Qed.

Lemma alloc_guarded mem jx jp b k1 k2 n : pxns s0 !! mem = None -> wlp (sys_pxn_alloc mem jx jp b k1 k2 n) s0 done_ok.
Proof.
  intros Hm. apply wlp_bind, env_read; [done|]. destruct (env_getcap e k1) as [c1|r]; [|by apply read_only].
  destruct (env_getcap e k2) as [c2|r]; [|by apply read_only]. apply wlp_bind. eapply wlp_mono with (fun _ s => same_pxns s0 s).
  { destruct (is_pxn_disk_dev n).
    - apply wlp_bind. eapply wlp_mono; [apply lookup_reads|]. by intros o s [H _].
    - eapply wlp_mono; [apply is_dev_used_reads|]. by intros u s ->. }
  intros [|] s Hs; [by apply read_only|]. destruct (mem =? 0); [by apply read_only|].
  apply wlp_bind. unfold wlp at 1, assert_. destruct (_ <? _); [|done]. cbn beta iota zeta.
  destruct (acl_add _ _ _) as [r pa]. destruct (negb _); [by apply read_only|].
  destruct (acl_add _ _ _) as [r1 xa]. destruct (negb _); [by apply read_only|].
  apply wlp_bind. unfold wlp at 1, modify. apply wlp_bind.
  by apply wlp_mono with (1 := wlp_shrinks locked _ s0 _ (remember_shrinks _ _) (insert_new _ _ _ Hm Hs)).
Qed.

Lemma call_guarded c : call_fresh c s0 -> wlp (run_call c) s0 done_ok.
Proof.
  destruct c; cbn [call_fresh run_call]; intros Hf.
  - by apply alloc_guarded.
  - apply remove_xtnt_guarded.
  - apply dealloc_guarded.
  - apply add_cap_guarded.
  - apply sys_add_xtnt_guarded.
  - apply add_pxn_guarded.
Qed.
End guarded.

(** C30: When references between pxns lead down, the search for an authorisation
    ends, and the first pxn with an extent around the given one, in the order of
    the references, decides: its access list grants the access or the answer is
    no, without a look at the pxns after it. *)
Theorem pxn_authorizes_correct rank s p c x access fuel :
  pxn_ok rank s -> is_Some (pxns s !! p) -> (rank p < fuel)%nat ->
  pxn_authorizes_xtnt fuel p c x access s = Ret (verdict (px_acl s) c x access (below fuel (pxns s) p)) s.
Proof. intros Hok Hp Hr. by apply (pxn_authorizes_run rank). Qed.

(** C7: no system call of this part that returns lets the caller add anything to a
    pxn it holds no capability to write: such a pxn keeps its name and both access
    lists, and each of its pointers is the one it was or empty.  The access lists
    kept elsewhere and the environments do not change.  A new pxn gets an unused
    address.  The model does not return where the size of a new pxn does not fit
    16 bits (the code then writes past the block) and where a removal recurs
    deeper than its fuel. *)
Theorem pxn_growth_authorized s call r s' cur e p n n' :
  curenv (px_et s) = Some cur -> envs (px_et s) !! cur = Some e -> call_fresh call s ->
  run_call call s = Ret r s' ->
  pxns s !! p = Some n -> ~ may_write e s p -> pxns s' !! p = Some n' ->
  lesser n n' /\ px_acl s' = px_acl s /\ px_et s' = px_et s.
Proof.
  intros Hc He Hf Hr Hn Hw Hn'. pose proof (call_guarded e cur s Hc He call Hf) as H. unfold wlp in H. rewrite Hr in H.
  destruct H as (E1 & E2 & E3). destruct (E3 p n') as (m & Hm & L); [split; [by rewrite Hn|done]|done|].
  rewrite Hn in Hm. by injection Hm as <-.
Qed.

(** ** Concrete runs *)

Definition ex_px0 : pxnst :=
  mkPx (mkET {[ 1 := ex_env 2049 50 [ex_root] ]} (Some 1) ∅ 0) ∅ ∅ ∅ [].
Definition disk_pxn (n : Z) : Xn_name := mkXn 0 n.
Definition blocks (b n : Z) : Xn_xtnt := mkXt b n [] None.
Definition junk : list cap := [cap_null].

(** Three pxns of disk 0 at 0x1000, 0x2000 and 0x3000; the first guards the blocks
    from 0 to 99. *)
Definition ex_three : M pxnst Z :=
  sys_pxn_alloc 0x1000 junk junk 3 0 0 (disk_pxn 1) ;;
  sys_pxn_alloc 0x2000 junk junk 3 0 0 (disk_pxn 2) ;;
  sys_pxn_alloc 0x3000 junk junk 3 0 0 (disk_pxn 3) ;;
  pxn_kernel_add_xtnt (disk_pxn 1) (blocks 0 100).

Definition run_from (m : M pxnst Z) : pxnst := default ex_px0 (ret_state (m ex_px0)).

(** [pxn_ok] as a test, for lists without pointers. *)
Definition pxn_ok_b (rank : Z -> nat) (s : pxnst) : bool :=
  forallb (fun pn => let '(p, n) := pn in
    forallb (fun q => bool_decide (is_Some (pxns s !! q)) && (rank q <? rank p)%nat) (subs n) &&
    forallb (fun c => negb (c_isptr c)) (pxn_xtnt_acl n)) (map_to_list (pxns s)).

Lemma subs_elem n q : q ∈ subs n <-> BPTR_PXN q ∈ pxn_bptrs n.
Proof.
  unfold subs. rewrite list_elem_of_bind. split.
  - intros (b & Hq & Hb). destruct b; [by apply elem_of_nil in Hq..|]. by apply list_elem_of_singleton in Hq as ->.
  - intros H. exists (BPTR_PXN q). split; [left|done].
Qed.

Lemma pxn_ok_b_ok rank s : pxn_ok_b rank s = true -> pxn_ok rank s.
Proof.
  intros H. unfold pxn_ok_b in H. rewrite forallb_forall in H.
  assert (forall p n, pxns s !! p = Some n ->
    (forall q, q ∈ subs n -> is_Some (pxns s !! q) /\ (rank q < rank p)%nat) /\ Forall (fun c => c_isptr c = false) (pxn_xtnt_acl n)) as K.
  { intros p n Hp. specialize (H (p, n) (proj1 (list_elem_of_In _ _) (proj2 (elem_of_map_to_list _ _ _) Hp))). cbn beta iota in H.
    apply andb_true_iff in H as [H1 H2]. rewrite forallb_forall in H1, H2. split.
    - intros q Hq. specialize (H1 q (proj1 (list_elem_of_In _ _) Hq)). by rewrite andb_true_iff, bool_decide_eq_true, Nat.ltb_lt in H1.
    - apply Forall_forall. intros c Hc. by apply negb_true_iff, H2, list_elem_of_In. }
  split.
  - intros p n q Hp Hq. apply (proj1 (K p n Hp)). by apply subs_elem.
  - intros p n Hp. eapply Forall_impl; [apply (proj2 (K p n Hp))|]. cbn. congruence.
Qed.

(** The second pxn refers to the first, which has the extent. *)
Definition ex_refer : M pxnst Z := ex_three ;; sys_pxn_add_pxn (disk_pxn 2) (disk_pxn 1) 0 0.

Lemma pxn_authorizes_correct_witness :
  pxn_authorizes_xtnt 2 0x2000 ex_root (blocks 5 2) ACL_W (run_from ex_refer) = Ret 0 (run_from ex_refer).
Proof.
  rewrite (pxn_authorizes_correct (fun p => if p =? 0x2000 then 1%nat else 0%nat)).
  - vm_compute. reflexivity.
  - apply pxn_ok_b_ok. vm_compute. reflexivity.
  - vm_compute. eexists. reflexivity.
  - vm_compute. lia.
Defined.

(** The same pxns, the first one guarded by the disk capability, seen by an
    environment that holds another one. *)
Definition ex_first : Pxn := mkPxn (disk_pxn 1) [ex_disk] [ex_disk] [BPTR_XTNT (blocks 0 100); BPTR_EMPTY] 1 false.
Definition with_first (n : Pxn) : pxnst :=
  let s := run_from ex_three in
  mkPx (mkET {[ 2 := ex_env 4098 60 [ex_net] ]} (Some 2) ∅ 0) (px_acl s) (<[ 0x1000 := n ]> (pxns s)) (pxn_qs s) (pxn_lru s).
Definition ex_other : pxnst := with_first ex_first.

Lemma ex_other_locked : ~ may_write (ex_env 4098 60 [ex_net]) ex_other 0x1000.
Proof.
  intros (k & c & n & Hc & Hn & Ha). apply env_getcap_inl in Hc as [Hin Hv].
  assert (c = ex_net \/ c = cap_null) as [-> | ->].
  { cbn in Hin. rewrite !elem_of_cons, elem_of_nil in Hin. intuition. }
  2: discriminate Hv.
  vm_compute in Hn. injection Hn as <-. vm_compute in Ha. discriminate Ha.
Qed.

Lemma pxn_growth_authorized_witness :
  exists s', run_call (Call_alloc 0x5000 junk junk 2 0 0 (disk_pxn 5)) ex_other = Ret 0 s' /\ px_acl s' = px_acl ex_other.
Proof.
  destruct (run_call (Call_alloc 0x5000 junk junk 2 0 0 (disk_pxn 5)) ex_other) as [r s'|] eqn:E; [|vm_compute in E; discriminate E].
  assert (r = 0 /\ pxns s' !! 0x1000 = Some ex_first) as [-> Hn].
  { vm_compute in E. injection E as <- <-. vm_compute. split; reflexivity. }
  exists s'. split; [reflexivity|].
  exact (proj1 (proj2 (pxn_growth_authorized ex_other (Call_alloc 0x5000 junk junk 2 0 0 (disk_pxn 5)) 0 s' 2 (ex_env 4098 60 [ex_net]) 0x1000 ex_first ex_first
    eq_refl eq_refl eq_refl E eq_refl ex_other_locked Hn))).
Defined.

(** An environment that may only read the extents of the first pxn forges one
    into a pxn of its own and may then write it. *)
Definition net_ro : cap := mkCap ACL_R true false 1 [192; 0; 0; 0; 0; 0; 0].
Definition ex_readable : pxnst := with_first (mkPxn (disk_pxn 1) [net_ro] [net_ro] [BPTR_XTNT (blocks 0 100); BPTR_EMPTY] 1 false).

Example pxn_read_becomes_write :
  ret_val (pxn_authorizes_xtnt 1 0x1000 ex_net (blocks 0 100) ACL_W ex_readable) = Some (- E_CAP_INSUFF) /\
  ret_val ((sys_pxn_alloc 0x5000 junk junk 2 0 0 (disk_pxn 5) ;;
            sys_pxn_add_xtnt 0x4000 (Some (disk_pxn 1)) (disk_pxn 5) (blocks 0 100) 0 0 0 ;;
            pxn_authorizes_xtnt 1 0x5000 ex_net (blocks 0 100) ACL_W) ex_readable) = Some 0.
Proof. vm_compute. split; reflexivity. Qed.

(** An environment that has no access to any extent makes a pxn of a pseudo
    device, adds the blocks it wants, and forges them into a pxn of disk 0. *)
Example pxn_pseudo_device_to_disk :
  ret_val ((sys_pxn_alloc 0x5000 junk junk 2 0 0 (mkXn 100 1) ;;
            sys_pxn_add_xtnt 0 None (mkXn 100 1) (blocks 0 100) 0 0 0 ;;
            sys_pxn_alloc 0x6000 junk junk 2 0 0 (disk_pxn 6) ;;
            sys_pxn_add_xtnt 0x4000 (Some (mkXn 100 1)) (disk_pxn 6) (blocks 0 100) 0 0 0 ;;
            pxn_authorizes_xtnt 1 0x6000 ex_net (blocks 0 100) ACL_W) ex_other) = Some 0.
Proof. vm_compute. reflexivity. Qed.

(** With a source the same call on a pseudo device stops the kernel. *)
Example pxn_pseudo_device_asserts :
  (sys_pxn_alloc 0x5000 junk junk 2 0 0 (mkXn 100 1) ;;
   sys_pxn_add_xtnt 0x4000 (Some (disk_pxn 1)) (mkXn 100 1) (blocks 0 100) 0 0 0) ex_other = Panic.
Proof. vm_compute. reflexivity. Qed.

(** A search that goes on at the pxn it started from fails at every depth. *)
Lemma authorize_fails fuel p n c x access l s :
  pxns s !! p = Some n -> pxn_bptrs n = BPTR_PXN p :: l -> existsb (has_xtnt x) l = false ->
  pxn_authorizes_xtnt fuel p c x access s = Panic.
Proof.
  intros Hp Hl Hx. induction fuel as [|fuel IH]; [done|]. cbn [pxn_authorizes_xtnt]. unfold mbind_, get_pxn. rewrite Hp. cbn [of_option mreturn].
  rewrite Hl. assert (find_bptr (has_xtnt x) (BPTR_PXN p :: l) = None) as ->.
  { cbn. rewrite <- find_bptr_existsb in Hx. destruct (find_bptr (has_xtnt x) l); done. }
  cbn [authorize_subs]. unfold mbind_. by rewrite IH.
Qed.

(** Nothing prevents a pxn from referring to itself. *)
Example pxn_authorizes_cycle_diverges :
  let s := run_from (ex_three ;; sys_pxn_add_pxn (disk_pxn 2) (disk_pxn 2) 0 0) in
  forall fuel, pxn_authorizes_xtnt fuel 0x2000 ex_root (blocks 5 2) ACL_R s = Panic.
Proof. intros s fuel. eapply authorize_fails; [vm_compute; reflexivity..]. Qed.

(** The end of an extent is computed modulo 2^64: an extent that wraps around
    counts as part of one of 100 blocks. *)
Example xtnt_dominates_wraps : xtnt_dominates (blocks 10 100) (blocks 20 18446744073709551611) = true.
Proof. vm_compute. reflexivity. Qed.
