(* ===== verification/PxnRevoke.v ===== *)
(** * Revocation of disk extents

    [pxn_remove_xtnt] of sys/kern/pxn.c removes the extents of a pxn that lie
    within a given one, and with each of them every copy that was forged from
    it, in whatever pxn.  Exactly those extents go, and the recursion ends when
    copies are only forged into lower pxns. *)

From Stdlib Require Import ZArith Lia.
From stdpp Require Import base numbers option list gmap.
From S2P Require Import Prelude Capability EnvTable Pxn.

(** ** Extents and their copies *)

Definition xt_of (b : Xn_bptr) : option Xn_xtnt := match b with BPTR_XTNT x => Some x | _ => None end.

(** The extent at a bptr, given as pxn and index. *)
Definition ext (s : pxnst) (a : Z * Z) : option Xn_xtnt :=
  if snd a <? 0 then None else pxns s !! fst a ≫= fun n => pxn_bptrs n !! Z.to_nat (snd a) ≫= xt_of.
Definition blen (s : pxnst) (p : Z) : option nat := (fun n => length (pxn_bptrs n)) <$> pxns s !! p.

Definition same_range (x y : Xn_xtnt) : Prop := xtnt_block x = xtnt_block y /\ xtnt_size x = xtnt_size y.

(** What the removal of [x] from [p] revokes: the extents of [p] within [x], and
    what the removal of their copies revokes. *)
Inductive revoked (s : pxnst) : Z -> Xn_xtnt -> Z * Z -> Prop :=
  | rev_here p x i y :
      ext s (p, i) = Some y -> xtnt_dominates x y = true -> revoked s p x (p, i)
  | rev_copy p x i y b z a :
      ext s (p, i) = Some y -> xtnt_dominates x y = true -> b ∈ xtnt_forged_to y -> ext s b = Some z ->
      revoked s (fst b) z a -> revoked s p x a.

(** Extents are not empty and end below 2^64, the links between them lead to
    pxns that exist, and copies are in lower pxns than their originals. *)
Record forest (rank : Z -> nat) (s : pxnst) : Prop := mkForest {
  fo_size : forall a x, ext s a = Some x -> 0 <= xtnt_block x /\ 0 < xtnt_size x /\ xtnt_block x + xtnt_size x < 18446744073709551616;
  fo_to : forall a x b, ext s a = Some x -> b ∈ xtnt_forged_to x -> is_Some (pxns s !! fst b) /\ 0 <= snd b /\ (rank (fst b) < rank (fst a))%nat;
  fo_from : forall a x b, ext s a = Some x -> xtnt_forged_from x = Some b -> is_Some (pxns s !! fst b) /\ 0 <= snd b }.

Lemma dominates_trans x y z : xtnt_dominates x y = true -> xtnt_dominates y z = true -> xtnt_dominates x z = true.
Proof. unfold xtnt_dominates. rewrite !andb_true_iff, !Z.leb_le, !Z.ltb_lt. lia. Qed.

Lemma dominates_range x x' y y' : same_range x x' -> same_range y y' -> xtnt_dominates x y = xtnt_dominates x' y'.
Proof. unfold xtnt_dominates. by intros [-> ->] [-> ->]. Qed.

Lemma range_refl x : same_range x x.
Proof. done. Qed.
Lemma range_sym x y : same_range x y -> same_range y x.
Proof. unfold same_range. intuition. Qed.
Lemma range_trans x y z : same_range x y -> same_range y z -> same_range x z.
Proof. unfold same_range. intuition congruence. Qed.
#[local] Hint Resolve range_refl range_sym range_trans : pxn.

Lemma revoked_range s p x x' a : same_range x x' -> revoked s p x a -> revoked s p x' a.
Proof.
  intros Hr H. destruct H as [p x i y H1 H2|p x i y b z a H1 H2 H3 H4 H5];
    rewrite (dominates_range x x' y y) in H2 by auto with pxn; [by eapply rev_here|by eapply rev_copy].
Qed.

(** ** How the two kinds of update act on extents *)

Lemma ext_upd_xtnt s q n j f a :
  pxns s !! q = Some n -> 0 <= j ->
  ext (px_set_pxns (<[q := upd_xtnt j f n]> (pxns s)) s) a = if decide (a = (q, j)) then f <$> ext s a else ext s a.
Proof.
  intros Hq Hj. destruct a as [p i]. unfold ext. cbn. destruct (Z.ltb_spec i 0); [by case_decide|].
  destruct (decide (q = p)) as [->|Hne]. 2: { rewrite lookup_insert_ne by done. by rewrite decide_False by congruence. }
  rewrite lookup_insert_eq, Hq. cbn. destruct (decide (i = j)) as [->|E].
  - rewrite decide_True, list_lookup_alter_eq by done. by destruct (pxn_bptrs n !! Z.to_nat j) as [[| |]|].
  - rewrite decide_False by congruence. by rewrite list_lookup_alter_ne by lia.
Qed.

Lemma ext_clear s p n i a :
  pxns s !! p = Some n -> 0 <= i ->
  ext (px_set_pxns (<[p := set_bptr (Z.to_nat i) BPTR_EMPTY n]> (pxns s)) s) a = if decide (a = (p, i)) then None else ext s a.
Proof.
  intros Hp Hi. destruct a as [q j]. unfold ext. cbn. destruct (Z.ltb_spec j 0); [by case_decide|].
  destruct (decide (p = q)) as [->|Hne]. 2: { rewrite lookup_insert_ne by done. by rewrite decide_False by congruence. }
  rewrite lookup_insert_eq, Hp. cbn. destruct (decide (i = j)) as [->|E].
  - rewrite decide_True by done. destruct (<[_:=_]> _ !! _) as [b|] eqn:El; [|done].
    pose proof (lookup_lt_Some _ _ _ El) as Hlt. rewrite length_insert in Hlt.
    rewrite list_lookup_insert_eq in El by done. by injection El as <-.
  - rewrite decide_False by congruence. by rewrite list_lookup_insert_ne by lia.
Qed.

Lemma blen_insert s q n m p : pxns s !! q = Some n -> length (pxn_bptrs m) = length (pxn_bptrs n) ->
  blen (px_set_pxns (<[q := m]> (pxns s)) s) p = blen s p.
Proof.
  intros Hq Hl. unfold blen. cbn. destruct (decide (q = p)) as [<-|Hne]; [|by rewrite lookup_insert_ne].
  rewrite lookup_insert_eq, Hq. cbn. by rewrite Hl.
Qed.

Lemma wp_upd_pxn p f s Q n : pxns s !! p = Some n -> Q tt (px_set_pxns (<[p := f n]> (pxns s)) s) -> wp (upd_pxn p f) s Q.
Proof. intros Hp HQ. unfold upd_pxn, get_pxn. apply wp_bind, wp_of_option. exists n. split; [done|]. by apply wp_modify. Qed.

Lemma wp_bptr_at p i s n (Q : option Xn_bptr -> pxnst -> Prop) :
  pxns s !! p = Some n -> 0 <= i -> (forall o, (o ≫= xt_of) = ext s (p, i) -> Q o s) -> wp (bptr_at p i) s Q.
Proof.
  intros Hp Hi HQ. apply wp_bind, wp_of_option. exists n. split; [done|]. apply wp_ret, HQ. unfold ext. cbn.
  by rewrite (proj2 (Z.ltb_ge _ _) Hi), Hp.
Qed.

(** What the links look like is only lost on the way. *)
Definition pruned (s s' : pxnst) : Prop :=
  forall a x', ext s' a = Some x' -> exists x, ext s a = Some x /\ same_range x' x /\
    xtnt_forged_from x' = xtnt_forged_from x /\ (forall b, b ∈ xtnt_forged_to x' -> b ∈ xtnt_forged_to x).

Lemma pruned_refl s : pruned s s.
Proof. intros a x H. exists x. split_and!; auto with pxn. Qed.

Lemma pruned_trans s1 s2 s3 : pruned s1 s2 -> pruned s2 s3 -> pruned s1 s3.
Proof.
  intros H12 H23 a x3 E3. destruct (H23 a x3 E3) as (x2 & E2 & R2 & F2 & T2). destruct (H12 a x2 E2) as (x1 & E1 & R1 & F1 & T1).
  exists x1. split_and!; [done|eauto with pxn|congruence|auto].
Qed.

Lemma pruned_None s s' a : pruned s s' -> ext s a = None -> ext s' a = None.
Proof. intros H E. destruct (ext s' a) as [x|] eqn:E'; [|done]. destruct (H a x E') as (? & ? & _). congruence. Qed.

Lemma blen_Some s p : is_Some (blen s p) <-> is_Some (pxns s !! p).
Proof. unfold blen. apply fmap_is_Some. Qed.

(** ** The pass *)

Section pass.
Context (rank : Z -> nat) (s0 : pxnst) (Hfo : forest rank s0).

(** Nothing within [x] is left in [p]. *)
Definition cleared (s : pxnst) (p : Z) (x : Xn_xtnt) : Prop :=
  forall i y, ext s (p, i) = Some y -> xtnt_dominates x y = false.
Definition gone (s : pxnst) (b : Z * Z) : Prop := forall z, ext s0 b = Some z -> cleared s (fst b) z.

(** The state in the middle of the removal.  A copy that was dropped from the
    list of its original is removed; with a removed extent everything within it
    went, unless the pass that removed it is [pend]ing. *)
Record midway (pend : Z * Z -> Prop) (s : pxnst) : Prop := mkMid {
  mi_len : forall p, blen s p = blen s0 p;
  mi_pruned : pruned s0 s;
  mi_edge : forall a x b, ext s0 a = Some x -> b ∈ xtnt_forged_to x ->
    ext s b = None \/ exists x', ext s a = Some x' /\ b ∈ xtnt_forged_to x';
  mi_gone : forall b, is_Some (ext s0 b) -> ext s b = None -> gone s b \/ pend b }.

Definition only (s s' : pxnst) (p : Z) (x : Xn_xtnt) : Prop :=
  forall a, is_Some (ext s a) -> ext s' a = None -> revoked s0 p x a.

Lemma only_trans s1 s2 s3 p x : only s1 s2 p x -> only s2 s3 p x -> only s1 s3 p x.
Proof. intros H1 H2 a Ha E3. destruct (ext s2 a) as [y|] eqn:E2; [apply H2; [by rewrite E2|done]|by apply H1]. Qed.

Lemma cleared_pruned s s' p x : pruned s s' -> cleared s p x -> cleared s' p x.
Proof.
  intros Hp Hc i y E. destruct (Hp _ _ E) as (y0 & E0 & R & _). rewrite (dominates_range x x y y0) by auto with pxn. by eapply Hc.
Qed.

(** The pass over [p] for [x] is pending. *)
Definition also (pend : Z * Z -> Prop) (p : Z) (x : Xn_xtnt) (b : Z * Z) : Prop :=
  pend b \/ fst b = p /\ exists z, ext s0 b = Some z /\ xtnt_dominates x z = true.

Lemma midway_mono (pend pend' : Z * Z -> Prop) s : (forall b, pend b -> pend' b) -> midway pend s -> midway pend' s.
Proof. intros H [H1 H2 H3 H4]. split; try done. intros b Hb E. destruct (H4 b Hb E); auto. Qed.

(** When the pass is over, nothing waits for it any more. *)
Lemma midway_end pend p x s : midway (also pend p x) s -> cleared s p x -> midway pend s.
Proof.
  intros [H1 H2 H3 H4] Hc. split; try done. intros b Hb E. destruct (H4 b Hb E) as [?|[?|(Hp & z & Hz & Hd)]]; [by left|by right|].
  left. intros z' Hz'. rewrite Hz in Hz'. injection Hz' as <-. rewrite Hp. intros i y Ey.
  destruct (xtnt_dominates z y) eqn:E2; [|done]. pose proof (dominates_trans _ _ _ Hd E2). by rewrite (Hc i y Ey) in *.
Qed.

Lemma dominates_self a x : ext s0 a = Some x -> xtnt_dominates x x = true.
Proof.
  intros H. destruct (fo_size _ _ Hfo a x H) as (? & ? & ?). unfold xtnt_dominates.
  rewrite !u64_small by lia. rewrite !andb_true_iff, !Z.leb_le, !Z.ltb_lt. lia.
Qed.

Lemma drop_ref_in r b l : b ∈ drop_ref r l -> b ∈ l.
Proof.
  induction l as [|c l IH]; cbn; [done|]. case_bool_decide; rewrite !elem_of_cons; tauto.
Qed.

Lemma in_drop_ref r b l : b ∈ l -> b = r \/ b ∈ drop_ref r l.
Proof.
  induction l as [|c l IH]; cbn; [by intros ?%elem_of_nil|]. rewrite elem_of_cons. intros [->|Hb].
  - case_bool_decide; [by left|right; left].
  - case_bool_decide; [by right|]. destruct (IH Hb); [by left|right; by right].
Qed.

(** The states after the two updates at the end of an iteration. *)
Definition unlinked (s s' : pxnst) (p i : Z) : Prop :=
  (forall q, blen s' q = blen s q) /\ pruned s s' /\
  forall a x b, ext s a = Some x -> b ∈ xtnt_forged_to x -> exists x', ext s' a = Some x' /\ (b = (p, i) \/ b ∈ xtnt_forged_to x').

Lemma unforge_unlinks s p i x :
  (forall b, xtnt_forged_from x = Some b -> is_Some (pxns s !! fst b) /\ 0 <= snd b) ->
  wp (unforge p i x) s (fun _ s' => unlinked s s' p i /\ forall a, ext s' a = None <-> ext s a = None).
Proof.
  intros Hf. unfold unforge. destruct (xtnt_forged_from x) as [[q j]|].
  2: { apply wp_ret. split; [|done]. split_and!; [done|apply pruned_refl|]. eauto. }
  destruct (Hf _ eq_refl) as [[n Hn] Hj]. cbn in Hn, Hj. eapply wp_upd_pxn; [done|].
  pose proof (fun f a => ext_upd_xtnt s q n j f a Hn Hj) as Hext. split.
  2: { intros a. rewrite Hext. case_decide; [|done]. apply fmap_None. }
  split_and!.
  - intros r. apply (blen_insert s q n); [done|]. apply length_alter.
  - intros a x'. rewrite Hext. case_decide; [|intros E; by apply pruned_refl].
    intros (y & E & ->)%fmap_Some. exists y. split; [done|]. split; [by split|]. split; [done|]. intros b. apply drop_ref_in.
  - intros a y b Ey Hb. rewrite Hext, Ey. case_decide; [|eauto]. eexists. split; [done|]. cbn. destruct (in_drop_ref (p, i) b _ Hb); auto.
Qed.

(** The end of an iteration: the copies are gone, the extent is unlinked and
    removed. *)
Lemma finish pend p i y s Q :
  midway pend s -> is_Some (pxns s0 !! p) -> 0 <= i ->
  (forall b, xtnt_forged_from y = Some b -> is_Some (pxns s !! fst b) /\ 0 <= snd b) ->
  pend (p, i) -> (forall z b, ext s (p, i) = Some z -> b ∈ xtnt_forged_to z -> ext s b = None) ->
  (forall s', midway pend s' -> pruned s s' -> (forall a, ext s' a = None <-> a = (p, i) \/ ext s a = None) -> Q tt s') ->
  wp (mbind_ (unforge p i y) (fun _ => upd_pxn p (set_bptr (Z.to_nat i) BPTR_EMPTY))) s Q.
Proof.
  intros [M1 M2 M3 M4] Hp Hi Hf Hpend Hcopies HQ. apply wp_bind. eapply wp_mono; [by apply unforge_unlinks|].
  intros [] s1 [(L1 & P1 & E1) N1]. destruct (proj1 (blen_Some s1 p)) as [n Hn].
  { rewrite L1, M1. by apply blen_Some. }
  eapply wp_upd_pxn; [done|]. set (s2 := px_set_pxns _ s1).
  assert (forall a, ext s2 a = if decide (a = (p, i)) then None else ext s1 a) as Hext by (intros a; by apply ext_clear).
  assert (pruned s s2) as P2.
  { eapply pruned_trans; [exact P1|]. intros a x'. rewrite Hext. case_decide; [done|]. intros E. by apply pruned_refl. }
  assert (forall a, ext s2 a = None <-> a = (p, i) \/ ext s a = None) as N2.
  { intros a. rewrite Hext, <- N1. case_decide; intuition. }
  apply HQ; [|done..]. split.
  - intros q. rewrite <- M1, <- L1. apply (blen_insert s1 p n); [done|]. apply length_insert.
  - by eapply pruned_trans.
  - intros a x b Ha Hb. destruct (decide (b = (p, i))) as [->|Hne]; [left; apply N2; by left|].
    destruct (M3 a x b Ha Hb) as [E|(z & Ez & Hz)]; [left; apply N2; by right|].
    destruct (decide (a = (p, i))) as [->|Hna]; [left; apply N2; right; by eapply Hcopies|].
    destruct (E1 a z b Ez Hz) as (z' & Ez' & [?|Hz']); [done|]. right. exists z'. by rewrite Hext, decide_False.
  - intros b Hb E. apply N2 in E as [->|E]; [by right|]. destruct (M4 b Hb E) as [G|?]; [|by right]. left. intros z Hz.
    eapply cleared_pruned; [exact P2|by apply G].
Qed.

Section iteration.
Context (pend : Z * Z -> Prop) (p : Z) (x : Xn_xtnt) (rec : Z -> Xn_xtnt -> M pxnst unit).
Context (Hp : is_Some (pxns s0 !! p)).
(** The recursive calls go to lower pxns and keep what the pass keeps. *)
Context (Hrec : forall q y s, midway (also pend p x) s -> is_Some (pxns s0 !! q) -> (rank q < rank p)%nat ->
  wp (rec q y) s (fun _ s' => midway (also pend p x) s' /\ pruned s s' /\ cleared s' q y /\ only s s' q y)).

Lemma in_range s a y : midway (also pend p x) s -> ext s a = Some y ->
  exists y0, ext s0 a = Some y0 /\ same_range y y0 /\ xtnt_forged_from y = xtnt_forged_from y0 /\
    (forall b, b ∈ xtnt_forged_to y -> b ∈ xtnt_forged_to y0).
Proof. intros M. apply (mi_pruned _ _ M). Qed.

Lemma midway_pxn s q : midway (also pend p x) s -> is_Some (pxns s0 !! q) -> is_Some (pxns s !! q).
Proof. intros M H. apply blen_Some. rewrite (mi_len _ _ M). by apply blen_Some. Qed.

(** The loop over the copies. *)
Lemma copies_removed i y s :
  midway (also pend p x) s -> ext s (p, i) = Some y -> xtnt_dominates x y = true ->
  wp (mfor (fun r : Z * Z => c <- bptr_at (fst r) (snd r) ;;
              match c with Some (BPTR_XTNT y') => rec (fst r) y' | _ => mreturn tt end) (xtnt_forged_to y)) s
    (fun _ s' => midway (also pend p x) s' /\ pruned s s' /\ only s s' p x /\ forall b, b ∈ xtnt_forged_to y -> ext s' b = None).
Proof.
  intros M Hy Hd. destruct (in_range s _ y M Hy) as (y0 & Hy0 & Ry & _ & Ty). pose proof Hd as Hd0.
  rewrite (dominates_range x x y y0) in Hd0 by auto with pxn.
  apply wp_mfor with (fun l s' => (forall b, b ∈ l -> b ∈ xtnt_forged_to y) /\ midway (also pend p x) s' /\ pruned s s' /\ only s s' p x /\
    forall b, b ∈ xtnt_forged_to y -> b ∈ l \/ ext s' b = None).
  - split_and!; [done..|apply pruned_refl| |by left]. intros a [z Hz] E. congruence.
  - intros [q j] l s1 (Hl & M1 & P1 & O1 & D1). destruct (fo_to _ _ Hfo (p, i) y0 (q, j)) as (Hq & Hj & Hrk); [done|apply Ty, Hl; left|].
    destruct (midway_pxn s1 q M1 Hq) as [n Hn]. cbn in *. apply wp_bind. eapply wp_bptr_at; [done..|]. intros o Ho.
    assert (forall s2, midway (also pend p x) s2 -> pruned s1 s2 -> only s1 s2 p x -> ext s2 (q, j) = None ->
      (forall b, b ∈ l -> b ∈ xtnt_forged_to y) /\ midway (also pend p x) s2 /\ pruned s s2 /\ only s s2 p x /\
      (forall b, b ∈ xtnt_forged_to y -> b ∈ l \/ ext s2 b = None)) as Hnext.
    { intros s2 M2 P2 O2 E2. split_and!; [intros b Hb; apply Hl; by right|done|by eapply pruned_trans|by eapply only_trans|].
      intros b Hb. destruct (D1 b Hb) as [[-> | ?]%elem_of_cons|E]; [by right|by left|right; by eapply pruned_None]. }
    destruct (ext s1 (q, j)) as [z|] eqn:Ez.
    2: { assert (match o with Some (BPTR_XTNT _) => False | _ => True end) as Hno by (destruct o as [[| |]|]; done).
         assert (only s1 s1 p x) as Hid by (intros a [w Hw] E; congruence).
         destruct o as [[| |]|]; [| done | |]; apply wp_ret, Hnext; auto using pruned_refl. }
    destruct o as [[|z'|]|]; try done. cbn in Ho. injection Ho as ->.
    destruct (in_range s1 _ z M1 Ez) as (z0 & Hz0 & Rz & _).
    eapply wp_mono; [by apply Hrec|]. intros [] s2 (M2 & P2 & C2 & O2). apply Hnext; [done..| |].
    + intros a Ha E. eapply (rev_copy s0 p x i y0 (q, j) z0); [done..|apply Ty, Hl; left|done|].
      eapply revoked_range; [exact Rz|by apply O2].
    + destruct (ext s2 (q, j)) as [w|] eqn:Ew; [|done]. destruct (P2 _ _ Ew) as (z' & Ez' & Rw & _).
      assert (z' = z) as -> by congruence. pose proof (C2 j w Ew) as Hc. rewrite (dominates_range z z0 w z0) in Hc by eauto with pxn.
      by rewrite (dominates_self (q, j) z0 Hz0) in Hc.
  - intros s1 (_ & M1 & P1 & O1 & D1). split_and!; [done..|]. intros b Hb. by destruct (D1 b Hb) as [?%elem_of_nil|].
Qed.

Lemma remove_at_step i s : 0 <= i -> midway (also pend p x) s ->
  wp (remove_at rec p x i) s (fun _ s' => midway (also pend p x) s' /\ pruned s s' /\ only s s' p x /\
    forall y, ext s' (p, i) = Some y -> xtnt_dominates x y = false).
Proof.
  intros Hi M. assert (only s s p x) as Hid by (intros a [w Hw] E; congruence).
  destruct (midway_pxn s p M Hp) as [n Hn]. apply wp_bind. eapply wp_bptr_at; [done..|]. intros o Ho.
  destruct (ext s (p, i)) as [y|] eqn:Ey.
  2: { destruct o as [[| |]|]; [|done| |]; apply wp_ret; split_and!; auto using pruned_refl; by rewrite Ey. }
  destruct o as [[|y'|]|]; try done. cbn in Ho. injection Ho as ->. destruct (xtnt_dominates x y) eqn:Hd.
  2: { apply wp_ret. split_and!; auto using pruned_refl. intros z. rewrite Ey. by intros [= <-]. }
  apply wp_bind. eapply wp_mono; [by apply (copies_removed i y)|]. intros [] s1 (M1 & P1 & O1 & D1).
  destruct (in_range s _ y M Ey) as (y0 & Hy0 & Ry & Fy & _). rewrite (dominates_range x x y y0) in Hd by auto with pxn.
  eapply finish; [exact M1|done|done|..].
  - intros b Hb. rewrite Fy in Hb. destruct (fo_from _ _ Hfo _ _ b Hy0 Hb) as [Hex ?]. split; [by apply midway_pxn|done].
  - right. split; [done|]. eauto.
  - intros z b Ez Hb. destruct (P1 _ _ Ez) as (y' & Ey' & _ & _ & T). apply D1. assert (y' = y) as -> by congruence. by apply T.
  - intros s2 M2 P2 N2. split_and!; [done|by eapply pruned_trans| |].
    + eapply only_trans; [exact O1|]. intros a Ha E. apply N2 in E as [->|E]; [by eapply rev_here|]. destruct Ha. congruence.
    + intros z Ez. rewrite (proj2 (N2 (p, i))) in Ez by (by left). done.
Qed.
End iteration.

Lemma ext_index s p i y n : ext s (p, i) = Some y -> pxns s !! p = Some n -> i ∈ bptr_ids n.
Proof.
  unfold ext, bptr_ids. cbn. destruct (Z.ltb_spec i 0); [done|]. intros E Hn. rewrite Hn in E. cbn in E.
  destruct (pxn_bptrs n !! Z.to_nat i) as [b|] eqn:Eb; [|done]. apply lookup_lt_Some in Eb. apply zseq_elem. lia.
Qed.

Lemma remove_pass fuel : forall p x s pend, midway pend s -> is_Some (pxns s0 !! p) -> (rank p < fuel)%nat ->
  wp (pxn_remove_xtnt fuel p x) s (fun _ s' => midway pend s' /\ pruned s s' /\ cleared s' p x /\ only s s' p x).
Proof.
  induction fuel as [|fuel IH]; intros p x s pend M Hp Hr; [lia|]. cbn [pxn_remove_xtnt].
  assert (midway (also pend p x) s) as M' by (eapply midway_mono; [|exact M]; by left).
  destruct (midway_pxn _ _ _ s p M' Hp) as [n Hn]. apply wp_bind. apply wp_of_option. exists n. split; [done|].
  apply wp_mfor with (fun l s' => Forall (fun i => 0 <= i) l /\ midway (also pend p x) s' /\ pruned s s' /\ only s s' p x /\
    forall i y, ext s' (p, i) = Some y -> i ∈ l \/ xtnt_dominates x y = false).
  - split_and!; [|done|apply pruned_refl| |].
    + apply Forall_forall. intros i Hi. unfold bptr_ids in Hi. apply zseq_elem in Hi. lia.
    + intros a [w Hw] E. congruence.
    + intros i y Ey. left. by eapply ext_index.
  - intros i l s1 (Hl & M1 & P1 & O1 & C1). apply Forall_cons in Hl as [Hi Hl].
    eapply wp_mono; [apply (remove_at_step pend p x _ Hp); [|done..]|].
    { intros q y s2 M2 Hq Hlt. apply IH; [done..|lia]. }
    intros [] s2 (M2 & P2 & O2 & C2). split_and!; [done..|by eapply pruned_trans|by eapply only_trans|].
    intros j y Ey. destruct (decide (j = i)) as [->|Hne]; [right; by apply C2|].
    destruct (P2 _ _ Ey) as (y1 & Ey1 & R1 & _). rewrite (dominates_range x x y y1) by auto with pxn.
    destruct (C1 j y1 Ey1) as [[?|?]%elem_of_cons|?]; [done|by left|by right].
  - intros s1 (_ & M1 & P1 & O1 & C1). assert (cleared s1 p x) as C.
    { intros i y Ey. by destruct (C1 i y Ey) as [?%elem_of_nil|]. }
    split_and!; [by eapply midway_end|done..].
Qed.

Lemma midway_start : midway (fun _ => False) s0.
Proof. split; [done|apply pruned_refl|eauto|]. intros b [z Hz] E. congruence. Qed.

Lemma cleared_None s p x i y :
  midway (fun _ => False) s -> cleared s p x -> ext s0 (p, i) = Some y -> xtnt_dominates x y = true -> ext s (p, i) = None.
Proof.
  intros M Hc Hy Hd. destruct (ext s (p, i)) as [w|] eqn:Ew; [|done]. destruct (mi_pruned _ _ M _ _ Ew) as (y' & Ey' & R & _).
  assert (y' = y) as -> by congruence. pose proof (Hc i w Ew) as E. rewrite (dominates_range x x w y) in E by auto with pxn. congruence.
Qed.

(** What is revoked is gone in the end. *)
Lemma revoked_gone s p x a : midway (fun _ => False) s -> cleared s p x -> revoked s0 p x a -> ext s a = None.
Proof.
  intros M Hc H. induction H as [p x i y Hy Hd|p x i y b z a Hy Hd Hb Hz H IH]; [by eapply cleared_None|].
  pose proof (cleared_None s p x i y M Hc Hy Hd) as E. apply IH.
  destruct (mi_edge _ _ M _ _ b Hy Hb) as [Eb|(w & Ew & _)]; [|congruence].
  destruct (mi_gone _ _ M b) as [G|[]]; [by rewrite Hz|done|]. by apply G.
Qed.
End pass.

(** C12: when copies of extents are only forged into lower pxns and extents are not
    empty and do not wrap ([forest]), the removal of an extent from a pxn ends; it
    removes exactly the extents of the pxn that lie within the given one and,
    transitively, those that lie within a copy forged from a removed one, in the
    pxn of that copy.  What remains covers the same blocks, no access list changes
    and nothing is granted anywhere. *)
Theorem pxn_remove_xtnt_revokes rank s p x fuel :
  forest rank s -> is_Some (pxns s !! p) -> (rank p < fuel)%nat ->
  exists s', pxn_remove_xtnt fuel p x s = Ret tt s' /\
    (forall a, ext s' a = None <-> ext s a = None \/ revoked s p x a) /\
    (forall a y', ext s' a = Some y' -> exists y, ext s a = Some y /\ same_range y' y) /\
    shrink (fun _ => True) s s'.
Proof.
  intros Hfo Hp Hr.
  destruct (wp_returns _ _ _ (remove_pass rank s Hfo fuel p x s _ (midway_start s) Hp Hr)) as ([] & s' & E & M & P & C & O).
  exists s'. split_and!; [done| | |by eapply remove_xtnt_shrinks].
  - intros a. split.
    + intros Ea. destruct (ext s a) as [y|] eqn:Es; [right; apply O; [by rewrite Es|done]|by left].
    + intros [Ea|Ha]; [by eapply pruned_None|by eapply revoked_gone].
  - intros a y' Ey. destruct (P a y' Ey) as (y & ? & ? & _). eauto.
Qed.

(** ** Concrete runs *)

(** A part of it is forged into the second, and a part of that into the third. *)
Definition ex_forged : M pxnst Z :=
  ex_three ;;
  sys_pxn_add_xtnt 0x4000 (Some (disk_pxn 1)) (disk_pxn 2) (blocks 10 20) 0 0 0 ;;
  sys_pxn_add_xtnt 0x4100 (Some (disk_pxn 2)) (disk_pxn 3) (blocks 15 5) 0 0 0 ;;
  sys_pxn_add_xtnt 0x4200 (Some (disk_pxn 1)) (disk_pxn 3) (blocks 50 5) 0 0 0.

Definition ranks (p : Z) : nat := if p =? 0x1000 then 2 else if p =? 0x2000 then 1 else 0.

(** [forest] as a test. *)
Definition extents (s : pxnst) : list ((Z * Z) * Xn_xtnt) :=
  map_to_list (pxns s) ≫= fun pn => zip (zseq 0 (length (pxn_bptrs (snd pn)))) (pxn_bptrs (snd pn)) ≫= fun ib =>
    match snd ib with BPTR_XTNT x => [((fst pn, fst ib), x)] | _ => [] end.
Definition there (s : pxnst) (b : Z * Z) : bool := bool_decide (is_Some (pxns s !! fst b)) && (0 <=? snd b).
Definition forest_b (rank : Z -> nat) (s : pxnst) : bool :=
  forallb (fun ax => let '(a, x) := ax in
    (0 <=? xtnt_block x) && (0 <? xtnt_size x) && (xtnt_block x + xtnt_size x <? 18446744073709551616) &&
    forallb (fun b => there s b && (rank (fst b) <? rank (fst a))%nat) (xtnt_forged_to x) &&
    match xtnt_forged_from x with Some b => there s b | None => true end) (extents s).

Lemma ext_extents s a x : ext s a = Some x -> (a, x) ∈ extents s.
Proof.
  destruct a as [p i]. unfold ext, extents. cbn. destruct (Z.ltb_spec i 0); [done|].
  destruct (pxns s !! p) as [n|] eqn:Hp; [|done]. cbn. destruct (pxn_bptrs n !! Z.to_nat i) as [b|] eqn:Eb; [|done].
  cbn. intros Ex. destruct b as [|y|]; try done. injection Ex as ->. apply list_elem_of_bind. exists (p, n).
  split; [|by apply elem_of_map_to_list]. apply list_elem_of_bind. exists (i, BPTR_XTNT x). split; [left|].
  apply list_elem_of_lookup. exists (Z.to_nat i). apply lookup_zip_with_Some. exists i, (BPTR_XTNT x). split_and!; [done| |done].
  unfold zseq. rewrite list_lookup_fmap, lookup_seq_lt by (by eapply lookup_lt_Some). cbn. f_equal. lia.
Qed.

Lemma there_ok s b : there s b = true -> is_Some (pxns s !! fst b) /\ 0 <= snd b.
Proof. unfold there. rewrite andb_true_iff, bool_decide_eq_true, Z.leb_le. done. Qed.

Lemma forest_b_ok rank s : forest_b rank s = true -> forest rank s.
Proof.
  intros H. unfold forest_b in H. rewrite forallb_forall in H.
  assert (forall a x, ext s a = Some x -> (0 <= xtnt_block x /\ 0 < xtnt_size x /\ xtnt_block x + xtnt_size x < 18446744073709551616) /\
    (forall b, b ∈ xtnt_forged_to x -> there s b = true /\ (rank (fst b) < rank (fst a))%nat) /\
    (forall b, xtnt_forged_from x = Some b -> there s b = true)) as K.
  { intros a x Hx. specialize (H (a, x) (proj1 (list_elem_of_In _ _) (ext_extents s a x Hx))). cbn beta iota in H.
    rewrite !andb_true_iff, Z.leb_le, !Z.ltb_lt in H. destruct H as [[[[H1 H2] H3] H4] H5]. split_and!; [lia..| |].
    - intros b Hb. rewrite forallb_forall in H4. specialize (H4 b (proj1 (list_elem_of_In _ _) Hb)).
      by rewrite andb_true_iff, Nat.ltb_lt in H4.
    - intros b Hb. by rewrite Hb in H5. }
  split.
  - intros a x Hx. apply (K a x Hx).
  - intros a x b Hx Hb. destruct (K a x Hx) as (_ & K2 & _). destruct (K2 b Hb) as [[? ?]%there_ok ?]. done.
  - intros a x b Hx Hb. destruct (K a x Hx) as (_ & _ & K3). by apply there_ok, K3.
Qed.

Lemma ex_second : ext (run_from ex_forged) (0x2000, 0) = Some (mkXt 10 20 [(0x3000, 0)] (Some (0x1000, 0))).
Proof. vm_compute. reflexivity. Qed.
Lemma ex_third : ext (run_from ex_forged) (0x3000, 0) = Some (mkXt 15 5 [] (Some (0x2000, 0))).
Proof. vm_compute. reflexivity. Qed.

Lemma pxn_remove_xtnt_revokes_witness :
  exists s', pxn_remove_xtnt 2 0x2000 (blocks 10 20) (run_from ex_forged) = Ret tt s' /\
    ext s' (0x2000, 0) = None /\ ext s' (0x3000, 0) = None.
Proof.
  destruct (pxn_remove_xtnt_revokes ranks (run_from ex_forged) 0x2000 (blocks 10 20) 2) as (s' & E & Hr & _).
  - apply forest_b_ok. vm_compute. reflexivity.
  - vm_compute. eexists. reflexivity.
  - vm_compute. lia.
  - exists s'. split; [exact E|]. split; apply Hr; right.
    + exact (rev_here _ 0x2000 (blocks 10 20) 0 _ ex_second eq_refl).
    + apply (rev_copy _ 0x2000 (blocks 10 20) 0 _ (0x3000, 0) _ _ ex_second eq_refl (list_elem_of_here _ _) ex_third).
      exact (rev_here _ 0x3000 (mkXt 15 5 [] (Some (0x2000, 0))) 0 _ ex_third eq_refl).
Defined.

(** The extent that the third pxn has from the first one stays. *)
Example pxn_remove_keeps_others :
  match pxn_remove_xtnt 2 0x2000 (blocks 10 20) (run_from ex_forged) with
  | Ret _ s' => ext s' (0x1000, 0) = Some (mkXt 0 100 [(0x3000, 1)] None) /\ is_Some (ext s' (0x3000, 1))
  | Panic => False
  end.
Proof. vm_compute. split; [reflexivity|eexists; reflexivity]. Qed.

(** An iteration that starts with a copy on which the recursion fails. *)
Lemma remove_fails fuel p x n y r l z m s :
  pxns s !! p = Some n -> head (pxn_bptrs n) = Some (BPTR_XTNT y) -> xtnt_dominates x y = true ->
  xtnt_forged_to y = r :: l -> pxns s !! fst r = Some m -> pxn_bptrs m !! Z.to_nat (snd r) = Some (BPTR_XTNT z) ->
  pxn_remove_xtnt fuel (fst r) z s = Panic -> pxn_remove_xtnt (S fuel) p x s = Panic.
Proof.
  intros Hp Hb Hd Hl Hm Hz Hf. cbn [pxn_remove_xtnt]. unfold mbind_ at 1, get_pxn at 1. rewrite Hp. cbn [of_option mreturn].
  unfold bptr_ids. destruct (pxn_bptrs n) as [|b bs] eqn:Ebs; [done|]. cbn in Hb. injection Hb as ->. cbn [length]. rewrite zseq_S.
  cbn [mfor]. unfold remove_at at 1, bptr_at, get_pxn, mbind_. rewrite Hp. cbn [of_option mreturn]. rewrite Ebs. change ((BPTR_XTNT y :: bs) !! Z.to_nat 0) with (Some (BPTR_XTNT y)). cbn beta iota.
  rewrite Hd, Hl. cbn [mfor]. unfold mbind_. rewrite Hm. cbn [of_option mreturn]. rewrite Hz. cbn beta iota. by rewrite Hf.
Qed.

(** A copy forged back into the pxn it came from: the extent and its copy's copy
    cover the same blocks, and the removal of one leads to that of the other
    before either is marked as removed.  No depth of recursion is enough. *)
Definition ex_back : M pxnst Z :=
  ex_three ;;
  sys_pxn_add_xtnt 0x4000 (Some (disk_pxn 1)) (disk_pxn 2) (blocks 0 100) 0 0 0 ;;
  sys_pxn_add_xtnt 0x4100 (Some (disk_pxn 2)) (disk_pxn 1) (blocks 0 100) 0 0 0.

Example pxn_remove_cycle_diverges :
  ret_val (ex_back ex_px0) = Some 0 /\
  forall fuel, pxn_remove_xtnt fuel 0x1000 (blocks 0 100) (run_from ex_back) = Panic.
Proof.
  split; [vm_compute; reflexivity|].
  assert (forall fuel, pxn_remove_xtnt fuel 0x1000 (blocks 0 100) (run_from ex_back) = Panic /\
    pxn_remove_xtnt fuel 0x1000 (mkXt 0 100 [] (Some (0x2000, 0))) (run_from ex_back) = Panic /\
    pxn_remove_xtnt fuel 0x2000 (mkXt 0 100 [(0x1000, 1)] (Some (0x1000, 0))) (run_from ex_back) = Panic) as K.
  { induction fuel as [|fuel (_ & IH1 & IH2)]; [done|].
    split_and!; (eapply remove_fails; [vm_compute; reflexivity..|first [exact IH1|exact IH2]]). }
  intros fuel. apply K.
Qed.
