(* ===== verification/Dpf.v ===== *)
(** * Packet filters

    sys/dpf: filters, sequences of atoms that compare fields of a message with
    constants, are merged into one trie; [fast_interp] walks the trie with a
    message and returns the filter that claims it.  This file translates the
    building of filters (dpf-ir.c), their optimisation (optimize.c), the ids of
    filters (pid.c), insertion and deletion (dpf.c), and the interpreter
    (fast-interp.c).

    An atom lives at an address; its children are the list that [kids] and
    [sibs] link, and [le_next] is the successor in it.  A hash table is an
    object of its own, its buckets are lists of atoms.  [calloc] returns a new
    address each time.  The union of [struct ir] is a record with the fields of
    all its members: operation, offset, width and mask are shared, as the code
    asserts. *)

From Stdlib Require Import ZArith Lia.
From stdpp Require Import base numbers option list gmap.
From S2P Require Import Prelude.

Definition DPF_MAXELEM := 256.
Definition DPF_MAXFILT := 256.
Definition DPF_MSG_ALIGN := 8.
Definition DPF_HT_USAGE := 50.
Definition DPF_INITIAL_HTSZ := 64.
Definition DPF_MAXBITS := 32.
Definition hashmult := 1737350767.

Definition DPF_TOOMANYFILTERS := -2.
Definition DPF_TOOMANYELEMS := -3.
Definition DPF_BOGUSOP := -4.
Definition DPF_BOGUSID := -5.
Definition DPF_OVERLAP := -6.
Definition DPF_NILFILTER := -7.

Definition DPF_OP_EQ := 1.
Definition DPF_OP_SHIFT := 2.
Definition DPF_OP_ACTION := 3.
Definition DPF_OP_STATEEQ := 4.

Definition DPF_REGEN := 0.
Definition DPF_NO_COLL := 1.
Definition DPF_ALL_NTERMS := 2.
Definition DPF_ALL_TERMS := 4.

(** ** Filters *)

Record ir := mkIr {
  level : Z;
  alignment : Z;
  action : Z;
  op : Z;
  offset : Z;
  nbits : Z;
  mask : Z;
  val : Z;
  shift : Z;
  align : Z;
  stateoffset : Z;
  ir_state : Z }.

Definition dpf_iseq (i : ir) : bool := op i =? DPF_OP_EQ.
Definition dpf_isshift (i : ir) : bool := op i =? DPF_OP_SHIFT.
Definition dpf_isaction (i : ir) : bool := op i =? DPF_OP_ACTION.
Definition dpf_isstateeq (i : ir) : bool := op i =? DPF_OP_STATEEQ.

Definition ir_zero : ir := mkIr 0 0 0 0 0 0 0 0 0 0 0 0.
Definition set_offset (z : Z) (i : ir) : ir :=
  mkIr (level i) (alignment i) (action i) (op i) z (nbits i) (mask i) (val i) (shift i) (align i) (stateoffset i) (ir_state i).
Definition set_alignment (z : Z) (i : ir) : ir :=
  mkIr (level i) z (action i) (op i) (offset i) (nbits i) (mask i) (val i) (shift i) (align i) (stateoffset i) (ir_state i).
Definition set_level (z : Z) (i : ir) : ir :=
  mkIr z (alignment i) (action i) (op i) (offset i) (nbits i) (mask i) (val i) (shift i) (align i) (stateoffset i) (ir_state i).
Definition set_align (z : Z) (i : ir) : ir :=
  mkIr (level i) (alignment i) (action i) (op i) (offset i) (nbits i) (mask i) (val i) (shift i) z (stateoffset i) (ir_state i).
Definition set_action (z : Z) (i : ir) : ir :=
  mkIr (level i) (alignment i) z (op i) (offset i) (nbits i) (mask i) (val i) (shift i) (align i) (stateoffset i) (ir_state i).
Definition set_ir_state (z : Z) (i : ir) : ir :=
  mkIr (level i) (alignment i) (action i) (op i) (offset i) (nbits i) (mask i) (val i) (shift i) (align i) (stateoffset i) z.

(** The x86 shift: only five bits of the count are used. *)
Definition shl32 (x n : Z) : Z := u32 (Z.shiftl x (n mod 32)).

(** A filter under construction: [irn] is the length of the list. *)
Record dpf_ir := mkDpfIr { moffset : Z; irs : list ir }.

Definition dpf_begin : dpf_ir := mkDpfIr 0 [].

(** [alloc] and the stores after it; running out of elements is fatal. *)
Definition push_ir (i : ir) (f : dpf_ir) : option dpf_ir :=
  if DPF_MAXELEM <=? Z.of_nat (length (irs f)) then None else Some (mkDpfIr (moffset f) (irs f ++ [i])).

Definition mkeq (f : dpf_ir) (nb off m v : Z) : option dpf_ir :=
  push_ir (mkIr 0 0 0 DPF_OP_EQ (u16 (off + moffset f)) nb m v 0 0 0 0) f.

(** [dpf_meq8], [dpf_meq16] and [dpf_meq32]; the arguments have their width. *)
Definition dpf_meq (nb : Z) (f : dpf_ir) (off m v : Z) : option dpf_ir :=
  if negb (Z.land m (2 ^ nb - 1) =? m) then None else mkeq f nb off m v.
Definition dpf_eq (nb : Z) (f : dpf_ir) (off v : Z) : option dpf_ir := dpf_meq nb f off (2 ^ nb - 1) v.

(** A shift resets the relative offset. *)
Definition mkshift (f : dpf_ir) (nb off m sh : Z) : option dpf_ir :=
  (fun g => mkDpfIr 0 (irs g)) <$> push_ir (mkIr 0 0 0 DPF_OP_SHIFT off nb m 0 sh 0 0 0) f.
Definition dpf_shifti (f : dpf_ir) (off : Z) : dpf_ir := mkDpfIr (u32 (moffset f + off)) (irs f).

Definition mkactioneq (f : dpf_ir) (nb off m : Z) : option dpf_ir :=
  push_ir (mkIr 0 0 0 DPF_OP_ACTION (u16 (off + moffset f)) nb m 0 0 0 0 0) f.
Definition mkstateeq (f : dpf_ir) (nb off m so : Z) : option dpf_ir :=
  push_ir (mkIr 0 0 0 DPF_OP_STATEEQ (u16 (off + moffset f)) nb m 0 0 0 so 0) f.

(** Two equality atoms that abut and fit in a word become one. *)
Definition abut (eq1 eq2 : ir) : bool :=
  (op eq1 =? DPF_OP_EQ) && (op eq2 =? DPF_OP_EQ)
  && (nbits eq1 + offset eq1 * 8 =? offset eq2 * 8) && (nbits eq1 + nbits eq2 <=? DPF_MAXBITS).
Definition join_eq (eq1 eq2 : ir) : ir :=
  mkIr (level eq1) (alignment eq1) (action eq1) (op eq1) (offset eq1) (u8 (nbits eq1 + nbits eq2))
    (Z.lor (mask eq1) (shl32 (mask eq2) (nbits eq1))) (Z.lor (val eq1) (shl32 (val eq2) (nbits eq1)))
    (shift eq1) (align eq1) (stateoffset eq1) (ir_state eq1).

(** The loop of [dpf_coalesce]; [p] is the last atom written. *)
Fixpoint coalesce_loop (p : ir) (l : list ir) : list ir :=
  match l with
  | [] => [p]
  | i :: l' => if abut p i then coalesce_loop (join_eq p i) l' else p :: coalesce_loop i l'
  end.
Definition dpf_coalesce (l : list ir) : list ir := match l with [] => [] | p :: l' => coalesce_loop p l' end.

(** The value of [dpf_compute_alignment], which it also stores in [align]. *)
Definition dpf_compute_alignment (i : ir) (al : Z) : Z :=
  let ca := Z.land (mask i) (u32 (- mask i)) in
  let ca := if ca =? 1 then 0 else ca in
  let ca := u32 (ca + shift i) in
  let ca := if ca =? 0 then 1 else ca in
  u8 (if ca <? al then ca else al).

(** returns 1 on equality, -1 on lhs equality, 0 on inequality. *)
Definition isequal (ir1 ir2 : ir) : Z :=
  if negb (op ir1 =? op ir2) then 0
  else if dpf_iseq ir1 then
    if negb (offset ir1 =? offset ir2) || negb (mask ir1 =? mask ir2) then 0
    else if val ir1 =? val ir2 then 1 else -1
  else if dpf_isshift ir1 then
    if (shift ir1 =? shift ir2) && (offset ir1 =? offset ir2) && (mask ir1 =? mask ir2) then 1 else 0
  else 0.

(** ** The trie *)

(** What the code of an atom jumps to; the label [SUPER_OP_32X_8MX], which no
    atom ever gets, is left out. *)
Inductive state_t :=
  | EQ | EQ_NO_KID | EQ_NO_PID | EQ_NO_SIB | EQ_NO_PID_NO_SIB
  | DEQ | DEQ_NO_KID | DEQ_NO_PID | DEQ_NO_SIB | DEQ_NO_PID_NO_SIB
  | SEQ | SEQ_NO_KID | SEQ_NO_PID | SEQ_NO_SIB | SEQ_NO_PID_NO_SIB
  | SHIFT | ACTION
  | EQ_X_8 | EQ_X_16 | EQ_X_32 | EQ_MX_8 | EQ_MX_16 | EQ_MX_32
  | DONE.

Record atom := mkAtom {
  parent : Z;
  kids : list Z;
  at_ht : Z;
  refcnt : Z;
  pid : Z;
  at_ir : ir;
  code : option state_t }.

Record ht := mkHt {
  htsz : Z;
  log2_sz : Z;
  ent : Z;
  coll : Z;
  term : Z;
  nterm : Z;
  ht_st : Z;
  buckets : gmap Z (list Z) }.

(** The values [struct state] remembers, before the empty last node. *)
Record action_block := mkAct { ab_state : Z; coffset : Z }.

Record dpf := mkDpf {
  atoms : gmap Z atom;
  hts : gmap Z ht;
  dpf_active : gmap Z Z;
  dpf_overlap : bool;
  highwater : Z;
  free_pids : list Z;
  blocks : gmap Z action_block;
  states : gmap Z (list Z);
  laststate : Z;
  brk : Z }.

Definition dpf_base := 1.
Definition done_atom := 2.

Definition set_atoms (x : gmap Z atom) (s : dpf) : dpf :=
  mkDpf x (hts s) (dpf_active s) (dpf_overlap s) (highwater s) (free_pids s) (blocks s) (states s) (laststate s) (brk s).
Definition set_hts (x : gmap Z ht) (s : dpf) : dpf :=
  mkDpf (atoms s) x (dpf_active s) (dpf_overlap s) (highwater s) (free_pids s) (blocks s) (states s) (laststate s) (brk s).
Definition set_active (x : gmap Z Z) (s : dpf) : dpf :=
  mkDpf (atoms s) (hts s) x (dpf_overlap s) (highwater s) (free_pids s) (blocks s) (states s) (laststate s) (brk s).
Definition set_overlap (x : bool) (s : dpf) : dpf :=
  mkDpf (atoms s) (hts s) (dpf_active s) x (highwater s) (free_pids s) (blocks s) (states s) (laststate s) (brk s).
Definition set_pids (x : Z) (l : list Z) (s : dpf) : dpf :=
  mkDpf (atoms s) (hts s) (dpf_active s) (dpf_overlap s) x l (blocks s) (states s) (laststate s) (brk s).
Definition set_blocks (x : gmap Z action_block) (s : dpf) : dpf :=
  mkDpf (atoms s) (hts s) (dpf_active s) (dpf_overlap s) (highwater s) (free_pids s) x (states s) (laststate s) (brk s).
Definition set_states (x : gmap Z (list Z)) (s : dpf) : dpf :=
  mkDpf (atoms s) (hts s) (dpf_active s) (dpf_overlap s) (highwater s) (free_pids s) (blocks s) x (laststate s) (brk s).
Definition set_laststate (x : Z) (s : dpf) : dpf :=
  mkDpf (atoms s) (hts s) (dpf_active s) (dpf_overlap s) (highwater s) (free_pids s) (blocks s) (states s) x (brk s).
Definition set_brk (x : Z) (s : dpf) : dpf :=
  mkDpf (atoms s) (hts s) (dpf_active s) (dpf_overlap s) (highwater s) (free_pids s) (blocks s) (states s) (laststate s) x.

Definition set_parent (z : Z) (a : atom) : atom := mkAtom z (kids a) (at_ht a) (refcnt a) (pid a) (at_ir a) (code a).
Definition set_kids (z : list Z) (a : atom) : atom := mkAtom (parent a) z (at_ht a) (refcnt a) (pid a) (at_ir a) (code a).
Definition set_at_ht (z : Z) (a : atom) : atom := mkAtom (parent a) (kids a) z (refcnt a) (pid a) (at_ir a) (code a).
Definition set_refcnt (z : Z) (a : atom) : atom := mkAtom (parent a) (kids a) (at_ht a) z (pid a) (at_ir a) (code a).
Definition set_pid (z : Z) (a : atom) : atom := mkAtom (parent a) (kids a) (at_ht a) (refcnt a) z (at_ir a) (code a).
Definition set_at_ir (z : ir) (a : atom) : atom := mkAtom (parent a) (kids a) (at_ht a) (refcnt a) (pid a) z (code a).
Definition set_code (z : state_t) (a : atom) : atom := mkAtom (parent a) (kids a) (at_ht a) (refcnt a) (pid a) (at_ir a) (Some z).

Definition set_counts (t n : Z) (h : ht) : ht := mkHt (htsz h) (log2_sz h) (ent h) (coll h) t n (ht_st h) (buckets h).
Definition set_ht_st (z : Z) (h : ht) : ht := mkHt (htsz h) (log2_sz h) (ent h) (coll h) (term h) (nterm h) z (buckets h).
Definition set_ent (z : Z) (h : ht) : ht := mkHt (htsz h) (log2_sz h) z (coll h) (term h) (nterm h) (ht_st h) (buckets h).
Definition set_coll (z : Z) (h : ht) : ht := mkHt (htsz h) (log2_sz h) (ent h) z (term h) (nterm h) (ht_st h) (buckets h).
Definition set_bucket (k : Z) (l : list Z) (h : ht) : ht :=
  mkHt (htsz h) (log2_sz h) (ent h) (coll h) (term h) (nterm h) (ht_st h) (<[k := l]> (buckets h)).

Definition get_atom (a : Z) : M dpf atom := s <- get ;; of_option (atoms s !! a).
Definition put_atom (a : Z) (x : atom) : M dpf unit := modify (fun s => set_atoms (<[a := x]> (atoms s)) s).
Definition upd_atom (a : Z) (f : atom -> atom) : M dpf unit := x <- get_atom a ;; put_atom a (f x).
Definition free_atom (a : Z) : M dpf unit := get_atom a ;; modify (fun s => set_atoms (delete a (atoms s)) s).
Definition get_ht (h : Z) : M dpf ht := s <- get ;; of_option (hts s !! h).
Definition put_ht (h : Z) (x : ht) : M dpf unit := modify (fun s => set_hts (<[h := x]> (hts s)) s).
Definition upd_ht (h : Z) (f : ht -> ht) : M dpf unit := x <- get_ht h ;; put_ht h (f x).
Definition free_ht (h : Z) : M dpf unit := get_ht h ;; modify (fun s => set_hts (delete h (hts s)) s).
Definition calloc : M dpf Z := n <- gets brk ;; modify (set_brk (n + 1)) ;; mreturn n.

(** ** Sibling lists *)

Fixpoint after (a : Z) (l : list Z) : Z :=
  match l with
  | [] => 0
  | b :: l' => if b =? a then default 0 (head l') else after a l'
  end.
Fixpoint insert_before (a n : Z) (l : list Z) : list Z :=
  match l with
  | [] => []
  | b :: l' => if b =? a then n :: b :: l' else b :: insert_before a n l'
  end.
Fixpoint insert_after (a n : Z) (l : list Z) : list Z :=
  match l with
  | [] => []
  | b :: l' => if b =? a then b :: n :: l' else b :: insert_after a n l'
  end.
Definition list_remove (a : Z) (l : list Z) : list Z := filter (fun b => b <> a) l.

Definition lh_first (x : atom) : Z := default 0 (head (kids x)).
(** [a->sibs.le_next], 0 when there is none or [a] is on no list. *)
Definition le_next (a : Z) : M dpf Z :=
  x <- get_atom a ;;
  if parent x =? 0 then mreturn 0 else p <- get_atom (parent x) ;; mreturn (after a (kids p)).
Definition LIST_INSERT_HEAD (p n : Z) : M dpf unit := upd_atom p (fun x => set_kids (n :: kids x) x).
Definition LIST_INSERT_BEFORE (a n : Z) : M dpf unit :=
  x <- get_atom a ;; upd_atom (parent x) (fun p => set_kids (insert_before a n (kids p)) p).
Definition LIST_INSERT_AFTER (a n : Z) : M dpf unit :=
  x <- get_atom a ;; upd_atom (parent x) (fun p => set_kids (insert_after a n (kids p)) p).
Definition LIST_REMOVE (a : Z) : M dpf unit :=
  x <- get_atom a ;; upd_atom (parent x) (fun p => set_kids (list_remove a (kids p)) p).

(** If parent has two or more kids, a is in an orlist. *)
Definition orlist_p (a : Z) : M dpf bool :=
  x <- get_atom a ;; p <- get_atom (parent x) ;;
  mreturn (match kids p with _ :: _ :: _ => true | _ => false end).

(** ** Labels *)

Definition ht_state (h : ht) : Z :=
  Z.lor (if coll h =? 0 then DPF_NO_COLL else 0)
    (if nterm h =? 0 then DPF_ALL_TERMS else if term h =? 0 then DPF_ALL_NTERMS else 0).
Definition ht_regenp (h : ht) : bool := negb (ht_st h =? ht_state h).

(** The label of an equality atom: [sib] says that it has a next sibling. *)
Definition eq_label (x : atom) (sib : bool) : state_t :=
  let i := at_ir x in
  let off := alignment i + offset i in
  let general := match sib, pid x =? 0 with
                 | true, false => EQ | true, true => EQ_NO_PID
                 | false, false => EQ_NO_SIB | false, true => EQ_NO_PID_NO_SIB end in
  match kids x with
  | [] => EQ_NO_KID
  | _ =>
      if (pid x =? 0) && negb sib then
        if nbits i =? 8 then if mask i =? 0xff then EQ_X_8 else EQ_MX_8
        else if (nbits i =? 16) && (off mod 2 =? 0) then if mask i =? 0xffff then EQ_X_16 else EQ_MX_16
        else if (nbits i =? 32) && (off mod 4 =? 0) then if mask i =? 0xffffffff then EQ_X_32 else EQ_MX_32
        else general
      else general
  end.

Definition seq_label (x : atom) (sib : bool) : state_t :=
  match kids x with
  | [] => SEQ_NO_KID
  | _ => match sib, pid x =? 0 with
         | true, false => SEQ | true, true => SEQ_NO_PID
         | false, false => SEQ_NO_SIB | false, true => SEQ_NO_PID_NO_SIB end
  end.

Definition dpf_compile_atom (a : Z) : M dpf unit :=
  x <- get_atom a ;;
  n <- le_next a ;;
  let sib := negb (n =? 0) in
  let i := at_ir x in
  o <- (if dpf_isshift i then mreturn SHIFT
        else if dpf_isaction i then
          s <- get ;; b <- of_option (blocks s !! action i) ;;
          put_atom a (set_at_ir (set_offset (u16 (coffset b)) i) x) ;; mreturn ACTION
        else if dpf_isstateeq i then mreturn (seq_label x sib)
        else if negb (at_ht x =? 0) then
          h <- get_ht (at_ht x) ;;
          mreturn (if nterm h =? 0 then DEQ_NO_KID else if sib then DEQ_NO_PID else DEQ_NO_PID_NO_SIB)
        else mreturn (eq_label x sib)) ;;
  upd_atom a (set_code o) ;;
  upd_atom done_atom (set_code DONE).

(** ** Hash tables *)

Definition hash (h : ht) (v : Z) : Z :=
  Z.land (Z.shiftr (u32 (v * hashmult)) (32 - log2_sz h)) (htsz h - 1).

(** The walk over a bucket: the atom found, if any, and whether the walk went
    past the first atom. *)
Fixpoint bucket_find (v : Z) (l : list Z) (c : Z) : M dpf (option Z * Z) :=
  match l with
  | [] => mreturn (None, c)
  | b :: l' =>
      x <- get_atom b ;;
      if val (at_ir x) =? v then mreturn (Some b, c)
      else bucket_find v l' (match l' with [] => c | _ => 1 end)
  end.
Definition bucket (h : ht) (v : Z) : list Z := default [] (buckets h !! hash h v).
Definition ht_lookup (h : ht) (v : Z) : M dpf (option Z * Z) := bucket_find v (bucket h v) 0.

(** Create an atom. *)
Definition mkatom (par p : Z) (i : ir) : M dpf Z :=
  a <- calloc ;; put_atom a (mkAtom par [] 0 0 p i None) ;; mreturn a.

Definition ht_alloc (n : Z) : M dpf Z :=
  h <- calloc ;; put_ht h (mkHt n (Z.log2 n) 0 0 0 0 0 ∅) ;; mreturn h.

Definition ht_push (h b : Z) : M dpf unit :=
  x <- get_atom b ;; t <- get_ht h ;;
  let v := val (at_ir x) in
  put_ht h (set_bucket (hash t v) (b :: bucket t v) (set_coll (match bucket t v with [] => coll t | _ => coll t + 1 end) t)).

(** Expand an existing hash table. *)
Definition ht_expand (a : Z) : M dpf unit :=
  x <- get_atom a ;; t <- get_ht (at_ht x) ;;
  h <- ht_alloc (htsz t * 2) ;;
  upd_atom a (set_at_ht h) ;;
  upd_ht h (fun n => mkHt (htsz n) (log2_sz n) (ent t) (coll n) (term t) (nterm t) (ht_st n) (buckets n)) ;;
  mfor (ht_push h) (kids x) ;;
  free_ht (at_ht x).

(** The table is reached through the pointer read before it may have grown. *)
Definition ht_insert (a p : Z) (i : ir) : M dpf Z :=
  x <- get_atom a ;; t <- get_ht (at_ht x) ;;
  f <- ht_lookup t (val i) ;;
  match fst f with
  | Some hte => mreturn hte
  | None =>
      hte <- mkatom a p i ;;
      LIST_INSERT_HEAD a hte ;;
      ht_push (at_ht x) hte ;;
      upd_ht (at_ht x) (fun t => set_ent (u32 (ent t + 1)) t) ;;
      t <- get_ht (at_ht x) ;;
      (if negb (coll t =? 0) && (DPF_HT_USAGE <=? Z.shiftr (ent t * 100) (log2_sz t)) then
         ht_expand a ;; upd_ht (at_ht x) (set_ht_st DPF_REGEN)
       else if ht_regenp t then upd_ht (at_ht x) (set_ht_st DPF_REGEN) else mreturn tt) ;;
      mreturn hte
  end.

Definition ht_delete (a v : Z) : M dpf unit :=
  x <- get_atom a ;; t <- get_ht (at_ht x) ;;
  f <- ht_lookup t v ;;
  hte <- of_option (fst f) ;;
  upd_ht (at_ht x) (fun t => set_ent (u32 (ent t - 1)) (set_bucket (hash t v) (list_remove hte (bucket t v)) t)) ;;
  assert_ (term t + nterm t =? refcnt x) ;;
  upd_ht (at_ht x) (fun t => set_coll (coll t - snd f) t) ;;
  t <- get_ht (at_ht x) ;;
  assert_ (0 <=? coll t) ;;
  if (1 <? ent t) && ht_regenp t then dpf_compile_atom a else mreturn tt.

(** Create a new hash table and insert a as its first entry. *)
Definition ht_newht (a : Z) : M dpf Z :=
  x <- get_atom a ;;
  deq <- mkatom (parent x) 0 (at_ir x) ;;
  LIST_INSERT_BEFORE a deq ;;
  LIST_REMOVE a ;;
  h <- ht_alloc DPF_INITIAL_HTSZ ;;
  upd_atom deq (fun d => set_refcnt (refcnt x) (set_at_ht h d)) ;;
  upd_ht h (fun t => mkHt (htsz t) (log2_sz t) 1 (coll t)
                       (match kids x with [] => refcnt x | _ => term t end)
                       (match kids x with [] => nterm t | _ => refcnt x end) DPF_REGEN
                       (<[hash t (val (at_ir x)) := [a]]> (buckets t))) ;;
  LIST_INSERT_HEAD deq a ;;
  upd_atom a (set_parent deq) ;;
  dpf_compile_atom (parent x) ;;
  dpf_compile_atom a ;;
  mreturn deq.

(** ** Insertion *)

(** Create a string of atoms; the result is the first and the last one, 0 when
    there is none. *)
Fixpoint swizzle_loop (l : list ir) (a first al : Z) : M dpf (Z * Z) :=
  match l with
  | [] => mreturn (first, a)
  | i :: l' =>
      n <- mkatom a 0 i ;;
      (if a =? 0 then mreturn tt else LIST_INSERT_HEAD a n) ;;
      let al' := if dpf_isshift i then dpf_compute_alignment i al else al in
      let i' := if dpf_isshift i then set_align al' i else i in
      upd_atom n (set_at_ir (set_alignment (u8 al') i')) ;;
      swizzle_loop l' n (if a =? 0 then n else first) al'
  end.
Definition swizzle (l : list ir) (p al : Z) : M dpf (Z * Z) :=
  r <- swizzle_loop l 0 0 al ;;
  if snd r =? 0 then mreturn r else upd_atom (snd r) (set_pid p) ;; mreturn r.

(** The walk of [insert_or]: the atom before the place and the one after it. *)
Fixpoint or_walk (nb : Z) (l : list Z) (succ : Z) : M dpf (Z * Z) :=
  match l with
  | [] => mreturn (succ, 0)
  | a :: l' => x <- get_atom a ;; if nbits (at_ir x) <? nb then mreturn (succ, a) else or_walk nb l' a
  end.

(** Insert before or with smaller nbits; [a] is the first of its list. *)
Definition insert_or (a new : Z) : M dpf unit :=
  x <- get_atom a ;;
  upd_atom new (set_parent (parent x)) ;;
  n <- get_atom new ;; p <- get_atom (parent x) ;;
  r <- or_walk (nbits (at_ir n)) (kids p) 0 ;;
  if negb (snd r =? 0) then
    LIST_INSERT_BEFORE (snd r) new ;;
    if fst r =? 0 then dpf_compile_atom (snd r) ;; y <- get_atom (snd r) ;; dpf_compile_atom (parent y)
    else mreturn tt
  else LIST_INSERT_AFTER (fst r) new ;; dpf_compile_atom (fst r).

(** Walk down or's, checking for match. *)
Fixpoint find_or (i : ir) (l : list Z) : M dpf (option (Z * Z)) :=
  match l with
  | [] => mreturn None
  | a :: l' =>
      x <- get_atom a ;;
      let res := isequal (at_ir x) i in
      if res =? 0 then find_or i l' else mreturn (Some (a, res))
  end.

(** The loop of [merge]: [succ] is the atom matched last, the current one is
    its first child. *)
Fixpoint merge_loop (l : list ir) (succ al p : Z) : M dpf Z :=
  s <- get_atom succ ;;
  match kids s, l with
  | [], [] => modify (set_overlap true) ;; mreturn succ
  | [], _ =>
      r <- swizzle l p al ;;
      LIST_INSERT_HEAD succ (fst r) ;;
      upd_atom (fst r) (set_parent succ) ;;
      mreturn (snd r)
  | _, [] =>
      (if negb (pid s =? 0) then modify (set_overlap true) else upd_atom succ (set_pid p)) ;;
      mreturn succ
  | first_or :: _, i :: l' =>
      f <- find_or i (kids s) ;;
      match f with
      | None =>
          r <- swizzle l p al ;;
          insert_or first_or (fst r) ;;
          mreturn (snd r)
      | Some (a, res) =>
          x <- get_atom a ;;
          let al := if dpf_isshift (at_ir x) then alignment (at_ir x) else al in
          if (res =? 1) && (at_ht x =? 0) then merge_loop l' a al p
          else
            a <- (if at_ht x =? 0 then ht_newht a else mreturn a) ;;
            x <- get_atom a ;; t <- get_ht (at_ht x) ;;
            f <- ht_lookup t (val i) ;;
            match fst f with
            | Some hte => merge_loop l' hte al p
            | None =>
                hte <- ht_insert a 0 i ;;
                r <- swizzle l' p al ;;
                if negb (snd r =? 0) then
                  upd_atom (fst r) (set_parent hte) ;;
                  LIST_INSERT_HEAD hte (fst r) ;;
                  mreturn (snd r)
                else upd_atom hte (set_pid p) ;; mreturn hte
            end
      end
  end.
Definition merge (l : list ir) (p : Z) : M dpf Z := merge_loop l dpf_base DPF_MSG_ALIGN p.

(** From an atom up to the root; [n] bounds the number of atoms. *)
Fixpoint instantiate_loop (n : nat) (a : Z) : M dpf unit :=
  if a =? dpf_base then mreturn tt
  else match n with
  | O => panic
  | S n' =>
      x <- get_atom a ;;
      if refcnt x =? 1 then dpf_compile_atom a ;; instantiate_loop n' (parent x)
      else if negb (pid x =? 0) then dpf_compile_atom a
      else instantiate_loop n' (parent x)
  end.
Definition natoms : M dpf nat := gets (fun s => size (atoms s)).
Definition instantiate_filter (last : Z) : M dpf unit :=
  dpf_compile_atom last ;;
  x <- get_atom last ;; n <- natoms ;; instantiate_loop n (parent x).

(** One more or one filter less below [a]: the counts of the table it is in. *)
Definition count_ht (p a last d : Z) : M dpf unit :=
  if p =? 0 then mreturn tt
  else
    y <- get_atom p ;;
    if at_ht y =? 0 then mreturn tt
    else upd_ht (at_ht y) (fun t => if a =? last then set_counts (u8 (term t + d)) (nterm t) t
                                    else set_counts (term t) (u8 (nterm t + d)) t).

(** incr filter's atom's refcnt. *)
Fixpoint bump_loop (n : nat) (a last : Z) : M dpf unit :=
  if a =? 0 then mreturn tt
  else match n with
  | O => panic
  | S n' =>
      upd_atom a (fun x => set_refcnt (u8 (refcnt x + 1)) x) ;;
      x <- get_atom a ;;
      count_ht (parent x) a last 1 ;;
      (if at_ht x =? 0 then mreturn tt
       else
         t <- get_ht (at_ht x) ;;
         assert_ (term t + nterm t =? refcnt x) ;;
         if ht_regenp t then dpf_compile_atom a else mreturn tt) ;;
      bump_loop n' (parent x) last
  end.
Definition dpf_merge (l : list ir) (p : Z) : M dpf Z :=
  last <- merge l p ;;
  n <- natoms ;; bump_loop n last last ;;
  instantiate_filter last ;;
  mreturn last.

(** ** Ids of filters *)

Definition dpf_allocpid : M dpf Z :=
  s <- get ;;
  match free_pids s with
  | [] => if DPF_MAXFILT <=? highwater s then mreturn (-1)
          else modify (set_pids (highwater s + 1) []) ;; mreturn (highwater s)
  | p :: l => modify (set_pids (highwater s) l) ;; mreturn p
  end.
Definition dpf_freepid (p : Z) : M dpf unit := modify (fun s => set_pids (highwater s) (p :: free_pids s) s).

(** ** Deletion *)

(** Scan backwards, decrementing ref counts; the result is the list of the
    atoms to delete, the last one found first. *)
Fixpoint unref_loop (n : nat) (a last : Z) (fl : list Z) : M dpf (list Z) :=
  if a =? dpf_base then mreturn fl
  else match n with
  | O => panic
  | S n' =>
      x <- get_atom a ;;
      put_atom a (set_refcnt (u8 (refcnt x - 1)) x) ;;
      let fl := if refcnt x =? 1 then a :: fl else fl in
      count_ht (parent x) a last (-1) ;;
      (if at_ht x =? 0 then mreturn tt
       else t <- get_ht (at_ht x) ;; assert_ (term t + nterm t =? u8 (refcnt x - 1))) ;;
      unref_loop n' (parent x) last fl
  end.

(** The last entry of the table of [p] takes the place of [p]. *)
Definition ht_demote (p : Z) : M dpf unit :=
  x <- get_atom p ;;
  let last := lh_first x in
  upd_atom last (set_parent (parent x)) ;;
  LIST_INSERT_BEFORE p last ;;
  LIST_REMOVE p ;;
  free_ht (at_ht x) ;;
  free_atom p ;;
  dpf_compile_atom last ;;
  q <- get_atom (parent x) ;;
  if lh_first q =? last then dpf_compile_atom (parent x) else mreturn tt.

(** Take [f], the topmost atom to delete, out of the trie. *)
Definition cut (f : Z) : M dpf unit :=
  x <- get_atom f ;;
  let p := parent x in
  orlist <- orlist_p f ;;
  n <- le_next f ;;
  y <- get_atom p ;;
  let first := if orlist && (lh_first y =? f) then n else 0 in
  let lastor := orlist && (n =? 0) in
  LIST_REMOVE f ;;
  if negb (at_ht y =? 0) then
    ht_delete p (val (at_ir x)) ;;
    t <- get_ht (at_ht y) ;;
    if ent t =? 1 then ht_demote p else mreturn tt
  else if orlist then
    if negb (first =? 0) then dpf_compile_atom first ;; dpf_compile_atom p
    else if lastor then y <- get_atom p ;; dpf_compile_atom (default 0 (last (kids y)))
    else mreturn tt
  else dpf_compile_atom p.

Definition free_dead (a : Z) : M dpf unit := x <- get_atom a ;; assert_ (refcnt x =? 0) ;; free_atom a.

Definition dpf_delete (p : Z) : M dpf Z :=
  s <- get ;;
  match (if DPF_MAXFILT <=? p then None else dpf_active s !! p) with
  | None => mreturn DPF_BOGUSID
  | Some a =>
      (if dpf_overlap s then mreturn tt else upd_atom a (set_pid 0)) ;;
      n <- natoms ;; fl <- unref_loop n a a [] ;;
      (match fl with [] => mreturn tt | f :: _ => cut f ;; mfor free_dead fl end) ;;
      modify (fun s => set_active (delete p (dpf_active s)) s) ;;
      dpf_freepid p ;;
      mreturn p
  end.

(** ** The entry point *)

Definition legal_op (i : ir) : bool := dpf_iseq i || dpf_isshift i || dpf_isstateeq i || dpf_isaction i.

(** The pass over the atoms: it checks the operations, numbers the atoms, and
    gives actions and state comparisons their state. *)
Fixpoint check_irs (l : list ir) (n : Z) : M dpf (option (list ir)) :=
  match l with
  | [] => mreturn (Some [])
  | i :: l' =>
      if negb (legal_op i) then mreturn None
      else
        let i := set_level n i in
        i <- (if dpf_isaction i then
                b <- calloc ;; st <- calloc ;;
                modify (fun s => set_laststate st (set_states (<[st := []]> (states s))
                                   (set_blocks (<[b := mkAct st 18]> (blocks s)) s))) ;;
                mreturn (set_action b i)
              else mreturn i) ;;
        i <- (if dpf_isstateeq i then st <- gets laststate ;; mreturn (set_ir_state st i) else mreturn i) ;;
        r <- check_irs l' (n + 1) ;;
        mreturn (cons i <$> r)
  end.

(** [l] is the array of [irn] atoms the user passed.  They are copied to an array
    of [DPF_MAXELEM + 1] on the stack before their number is tested: more of them
    write past it and stop the model (the system call tests the number itself
    before it comes here). *)
Definition dpf_insert (l : list ir) : M dpf Z :=
  p <- dpf_allocpid ;;
  if p <? 0 then mreturn DPF_TOOMANYFILTERS
  else
    assert_ (p <? DPF_MAXFILT) ;;
    assert_ (Z.of_nat (length l) <=? DPF_MAXELEM + 1) ;;
    if DPF_MAXELEM <=? Z.of_nat (length l) then mreturn DPF_TOOMANYELEMS
    else if (length l =? 0)%nat then mreturn DPF_NILFILTER
    else
      r <- check_irs l 0 ;;
      match r with
      | None => mreturn DPF_BOGUSOP
      | Some l =>
          modify (set_overlap false) ;;
          tail <- dpf_merge (dpf_coalesce l) p ;;
          modify (fun s => set_active (<[p := tail]> (dpf_active s)) s) ;;
          s <- get ;;
          if negb (dpf_overlap s) then mreturn p
          else
            r <- dpf_delete p ;;
            assert_ (0 <=? r) ;;
            modify (set_overlap false) ;;
            mreturn DPF_OVERLAP
      end.

(** The state [dpf_init_refs] leaves: an empty trie, and id 0 taken. *)
Definition dpf_init : dpf :=
  mkDpf {[ dpf_base := mkAtom 0 [] 0 0 0 ir_zero None; done_atom := mkAtom 0 [] 0 0 0 ir_zero None ]}
    ∅ ∅ false 1 [] ∅ ∅ 0 3.

(** ** The interpreter *)

(** [orstack] is the array of alternatives, shared by the nested calls;
    [headtail] and [msgid] are the result for fragments. *)
Record interp := mkIn {
  in_dpf : dpf;
  orstack : gmap Z Z;
  headtail : Z;
  msgid : Z }.

Definition set_in_dpf (x : dpf) (s : interp) : interp := mkIn x (orstack s) (headtail s) (msgid s).
Definition in_trie {A} (m : M dpf A) : M interp A := zoom in_dpf set_in_dpf m.
Definition set_frag (h m : Z) : M interp unit := modify (fun s => mkIn (in_dpf s) (orstack s) h m).
Definition or_push (sp a : Z) : M interp Z :=
  if a =? 0 then mreturn sp
  else modify (fun s => mkIn (in_dpf s) (<[sp := a]> (orstack s)) (headtail s) (msgid s)) ;; mreturn (sp + 1).

(** [*--orstack] *)
Definition or_pop (sp : Z) : M interp Z := s <- gets orstack ;; of_option (s !! (sp - 1)).

Section interp.
(** Memory, byte by byte. *)
Context (mem : Z -> Z).

Definition load8 (a : Z) : Z := mem a.
Definition load16 (a : Z) : Z := Z.lor (mem a) (Z.shiftl (mem (a + 1)) 8).
Definition load32 (a : Z) : Z := Z.lor (load16 a) (Z.shiftl (load16 (a + 2)) 16).

(** Always four bytes, wherever the message ends. *)
Definition load_lhs (msg nbytes : Z) (i : ir) : option Z :=
  if nbytes <=? offset i then None else Some (Z.land (load32 (msg + offset i)) (mask i)).

(** The test of an equality atom at its label. *)
Definition eq_test (c : state_t) (msg nbytes : Z) (i : ir) : bool :=
  let at_ f := (offset i <? nbytes) && (f (msg + offset i) =? val i) in
  match c with
  | EQ_X_8 => at_ load8
  | EQ_X_16 => at_ load16
  | EQ_X_32 => at_ load32
  | EQ_MX_8 => at_ (fun a => Z.land (load8 a) (mask i))
  | EQ_MX_16 => at_ (fun a => Z.land (load16 a) (mask i))
  | EQ_MX_32 => at_ (fun a => Z.land (load32 a) (mask i))
  | _ => match load_lhs msg nbytes i with Some lhs => lhs =? val i | None => false end
  end.

(** The entry of the table of [x] for the message. *)
Definition deq_find (msg nbytes : Z) (x : atom) : M interp (option Z) :=
  match load_lhs msg nbytes (at_ir x) with
  | None => mreturn None
  | Some lhs => t <- in_trie (get_ht (at_ht x)) ;; f <- in_trie (ht_lookup t lhs) ;; mreturn (fst f)
  end.

(** The values remembered for a state comparison; [guard] is the test that the
    label without an id makes. *)
Definition seq_values (guard : bool) (i : ir) : M interp (list Z) :=
  s <- gets (fun s => states (in_dpf s)) ;;
  if guard then
    match s !! ir_state i with
    | None => mreturn []
    | Some l => match l with 0 :: _ => mreturn [] | _ => mreturn l end
    end
  else of_option (s !! ir_state i).
Definition seq_match (lhs : Z) (i : ir) (l : list Z) : bool := existsb (fun v => lhs =? Z.land v (mask i)) l.

(** One [goto] per unit of [fuel]. *)
Fixpoint fast_interp (fuel : nat) (msg nbytes a fail_pid sp : Z) {struct fuel} : M interp Z :=
  match fuel with
  | O => panic
  | S fuel' =>
    if a =? 0 then mreturn fail_pid
    else
      let next a fail_pid sp :=
        if a =? 0 then
          if negb (fail_pid =? 0) then mreturn fail_pid
          else b <- or_pop sp ;; fast_interp fuel' msg nbytes b fail_pid (sp - 1)
        else fast_interp fuel' msg nbytes a fail_pid sp in
      x <- in_trie (get_atom a) ;;
      sib <- in_trie (le_next a) ;;
      c <- of_option (code x) ;;
      let i := at_ir x in
      let kid := lh_first x in
      match c with
      | DONE => mreturn fail_pid
      | EQ =>
          if eq_test c msg nbytes i then sp <- or_push sp sib ;; next kid (pid x) sp else next sib fail_pid sp
      | EQ_NO_KID => if eq_test c msg nbytes i then mreturn (pid x) else next sib fail_pid sp
      | EQ_NO_PID =>
          if eq_test c msg nbytes i then sp <- or_push sp sib ;; next kid fail_pid sp else next sib fail_pid sp
      | EQ_NO_SIB => if eq_test c msg nbytes i then next kid (pid x) sp else next 0 fail_pid sp
      | EQ_NO_PID_NO_SIB | EQ_X_8 | EQ_X_16 | EQ_X_32 | EQ_MX_8 | EQ_MX_16 | EQ_MX_32 =>
          if eq_test c msg nbytes i then next kid fail_pid sp else next 0 fail_pid sp
      | DEQ =>
          r <- deq_find msg nbytes x ;;
          match r with
          | None => next sib fail_pid sp
          | Some hte => y <- in_trie (get_atom hte) ;; sp <- or_push sp sib ;; next (lh_first y) (pid y) sp
          end
      | DEQ_NO_KID =>
          r <- deq_find msg nbytes x ;;
          match r with
          | None => if negb (sib =? 0) then next sib fail_pid sp else mreturn fail_pid
          | Some hte => y <- in_trie (get_atom hte) ;; mreturn (pid y)
          end
      | DEQ_NO_PID =>
          r <- deq_find msg nbytes x ;;
          match r with
          | None => next sib fail_pid sp
          | Some hte => y <- in_trie (get_atom hte) ;; sp <- or_push sp sib ;; next (lh_first y) fail_pid sp
          end
      | DEQ_NO_SIB =>
          r <- deq_find msg nbytes x ;;
          match r with
          | None => next 0 fail_pid sp
          | Some hte => y <- in_trie (get_atom hte) ;; next (lh_first y) (pid y) sp
          end
      | DEQ_NO_PID_NO_SIB =>
          r <- deq_find msg nbytes x ;;
          match r with
          | None => next 0 fail_pid sp
          | Some hte => y <- in_trie (get_atom hte) ;; next (lh_first y) fail_pid sp
          end
      | SHIFT =>
          match load_lhs msg nbytes i with
          | None => next sib fail_pid sp
          | Some lhs =>
              let off := shl32 lhs (shift i) in
              if off <=? nbytes then
                p <- fast_interp fuel' (msg + off) (nbytes - off) kid (pid x) sp ;;
                if negb (p =? 0) then mreturn p else next sib fail_pid sp
              else next sib fail_pid sp
          end
      | ACTION =>
          match load_lhs msg nbytes i with
          | None => next sib fail_pid sp
          | Some lhs =>
              b <- gets (fun s => blocks (in_dpf s) !! action i) ;; b <- of_option b ;;
              l <- gets (fun s => states (in_dpf s) !! ab_state b) ;; l <- of_option l ;;
              in_trie (modify (fun s => set_states (<[ab_state b := l ++ [lhs]]> (states s)) s)) ;;
              set_frag 1 lhs ;;
              mreturn (pid x)
          end
      | SEQ | SEQ_NO_KID | SEQ_NO_PID | SEQ_NO_SIB | SEQ_NO_PID_NO_SIB =>
          let sib' := match c with SEQ_NO_SIB | SEQ_NO_PID_NO_SIB => 0 | _ => sib end in
          match load_lhs msg nbytes i with
          | None =>
              match c with
              | SEQ_NO_KID | SEQ_NO_PID => if negb (sib =? 0) then next sib fail_pid sp else mreturn fail_pid
              | _ => next sib' fail_pid sp
              end
          | Some lhs =>
              l <- seq_values (match c with SEQ_NO_PID => true | _ => false end) i ;;
              if seq_match lhs i l then
                match c with
                | SEQ_NO_KID => mreturn (pid x)
                | SEQ => sp <- or_push sp sib ;; next kid (pid x) sp
                | SEQ_NO_PID => sp <- or_push sp sib ;; next kid fail_pid sp
                | SEQ_NO_SIB => next kid (pid x) sp
                | _ => next kid fail_pid sp
                end
              else set_frag 2 lhs ;; next sib' (- pid x) sp
          end
      end
  end.

Definition dpf_interp (fuel : nat) (msg nbytes : Z) : M interp Z :=
  modify (fun s => mkIn (in_dpf s) {[ 0 := done_atom ]} 0 (msgid s)) ;;
  b <- in_trie (get_atom dpf_base) ;;
  fast_interp fuel msg nbytes (lh_first b) 0 1.
End interp.
