(* ===== verification/DpfTrie.v ===== *)
(** * The filter trie

    What insertion and deletion of packet filters ([Dpf.v]) keep true of the
    trie.  Every atom but the root lies on the way from the end of some filter to
    the root; the number of filters whose way passes through it is its reference
    count; and the atoms on the way of a filter, the nodes of hash tables left
    out, are the atoms the filter was inserted with.  The theorems are about
    filters of comparisons ([wf_eq]); what the code does with shifts is shown by
    example. *)

From Stdlib Require Import ZArith Lia.
From stdpp Require Import base numbers option list gmap.
From S2P Require Import Prelude Dpf.

Implicit Types (h : gmap Z atom) (a b p t n q r : Z) (x y : atom) (l : list Z) (G : gmap Z (list Z)).

(** ** Ways to the root *)

(** The way from [a] up to [r], which is left out. *)
Inductive up h r : Z -> list Z -> Prop :=
  | up_root : up h r r []
  | up_step a x l : a <> r -> h !! a = Some x -> up h r (parent x) l -> up h r a (a :: l).

Lemma up_det h r a l l' : up h r a l -> up h r a l' -> l = l'.
Proof.
  intros H. revert l'. induction H as [|a x l Hr Hx _ IH]; intros l' H'; inversion H'; subst; try done.
  f_equal. apply IH. by simplify_eq.
Qed.

Lemma up_inv h r a l : up h r a l -> a <> r -> exists x l', h !! a = Some x /\ l = a :: l' /\ up h r (parent x) l'.
Proof. intros H Hr. inversion H; subst; [done|eauto]. Qed.

(** The way from an atom on the way is its end. *)
Lemma up_mem h r a l b : up h r a l -> b ∈ l -> exists l1 l2, l = l1 ++ b :: l2 /\ up h r b (b :: l2).
Proof.
  induction 1 as [|a x l Hr Hx Hup IH]; intros Hb; [by apply not_elem_of_nil in Hb|].
  apply elem_of_cons in Hb as [->|Hb].
  - exists [], l. split; [done|]. by econstructor.
  - destruct (IH Hb) as (l1 & l2 & -> & H). exists (a :: l1), l2. done.
Qed.

Lemma up_in h r a l b : up h r a l -> b ∈ l -> is_Some (h !! b) /\ b <> r.
Proof. intros H Hb. destruct (up_mem _ _ _ _ _ H Hb) as (l1 & l2 & _ & H'). inversion H'; subst; eauto. Qed.

Lemma up_len h r b l l' : up h r b l -> up h r b l' -> length l = length l'.
Proof. intros H H'. by rewrite (up_det _ _ _ _ _ H H'). Qed.

Lemma up_NoDup h r a l : up h r a l -> NoDup l.
Proof.
  induction 1 as [|a x l Hr Hx Hup IH]; [constructor|]. constructor; [|done]. intros Ha.
  destruct (up_mem _ _ _ _ _ Hup Ha) as (l1 & l2 & -> & H').
  pose proof (up_len _ _ _ _ _ H' ltac:(by eapply up_step)) as E. cbn in E. rewrite length_app in E. cbn in E. lia.
Qed.

(** Two ways that meet go on together. *)
Lemma up_meet h r a a' l l' l1 l2 b : up h r a l -> up h r a' l' -> l = l1 ++ b :: l2 -> b ∈ l' -> exists l1', l' = l1' ++ b :: l2.
Proof.
  intros H H' -> Hb. destruct (up_mem _ _ _ _ b H ltac:(set_solver)) as (k1 & k2 & E & K).
  destruct (up_mem _ _ _ _ b H' Hb) as (j1 & j2 & -> & J). pose proof (up_det _ _ _ _ _ K J) as [= ->].
  assert (l2 = j2) as ->; [|eauto]. pose proof (up_NoDup _ _ _ _ H) as ND.
  clear -E ND. revert k1 E. induction l1 as [|c l1 IH]; intros [|d k1] E; cbn in *; simplify_eq; try done.
  - apply NoDup_cons in ND as [ND _]. set_solver.
  - apply NoDup_cons in ND as [ND _]. set_solver.
  - apply NoDup_cons in ND as [_ ND]. by eapply IH.
Qed.

(** Two heaps with the same parents along the way. *)
Lemma up_same h h' r a l :
  up h r a l -> (forall b x, b ∈ l -> h !! b = Some x -> exists x', h' !! b = Some x' /\ parent x' = parent x) -> up h' r a l.
Proof.
  induction 1 as [|a x l Hr Hx Hup IH]; intros Hs; [constructor|].
  destruct (Hs a x ltac:(set_solver) Hx) as (x' & Hx' & E). econstructor; [done|done|]. rewrite E. apply IH. set_solver.
Qed.

Lemma up_app h r q a l k : up h r a l -> up h q r k -> (forall b, b ∈ l -> b <> q) -> up h q a (l ++ k).
Proof.
  induction 1 as [|a x l Hr Hx Hup IH]; intros Hk Hl; [done|]. cbn. econstructor; [set_solver|done|]. apply IH; set_solver.
Qed.

(** ** What the atoms on a way compare *)

Definition key (i : ir) : Z * Z * Z := (offset i, mask i, val i).
Definition akey h a : option (Z * Z * Z) :=
  match h !! a with Some x => if at_ht x =? 0 then Some (key (at_ir x)) else None | None => None end.
Definition keys h l : list (Z * Z * Z) := omap (akey h) (reverse l).

Arguments keys : simpl never.
Arguments akey : simpl never.

Lemma keys_cons h a l : keys h (a :: l) = keys h l ++ (match akey h a with Some k => [k] | None => [] end).
Proof.
  unfold keys. rewrite reverse_cons, omap_app. cbn. by destruct (akey h a).
Qed.

Lemma keys_app h l k : keys h (l ++ k) = keys h k ++ keys h l.
Proof. unfold keys. by rewrite reverse_app, omap_app. Qed.

Lemma keys_same h h' l : (forall b, b ∈ l -> akey h' b = akey h b) -> keys h' l = keys h l.
Proof.
  induction l as [|a l IH]; intros Hs; [done|]. rewrite !keys_cons, IH by set_solver. by rewrite (Hs a) by set_solver.
Qed.

(** ** The invariant *)

(** An equality atom whose constants fit its width. *)
Definition wf_eq (i : ir) : Prop :=
  op i = DPF_OP_EQ /\ 0 <= offset i /\ 0 < nbits i <= 32 /\ 0 <= mask i < 2 ^ nbits i /\ 0 <= val i < 2 ^ nbits i.

(** How many filters need [a]. *)
Definition cnt G a : Z := kcount (fun kv => bool_decide (a ∈ snd kv)) G.

Definition inner a : Prop := a <> dpf_base /\ a <> done_atom.

(** [R] is the first atom of a string that is not yet in the trie, 0 if there is
    none: its parent is still null. *)
Record shape h R : Prop := {
  sh_base : exists x, h !! dpf_base = Some x /\ parent x = 0 /\ at_ht x = 0 /\ pid x = 0 /\ op (at_ir x) = 0;
  sh_done : exists x, h !! done_atom = Some x /\ parent x = 0 /\ kids x = [] /\ at_ht x = 0 /\ pid x = 0 /\ op (at_ir x) = 0;
  sh_zero : h !! 0 = None;
  sh_nodup : forall a x, h !! a = Some x -> NoDup (kids x);
  sh_kids : forall a x b, h !! a = Some x -> b ∈ kids x <-> exists y, h !! b = Some y /\ parent y = a;
  sh_par : forall b y, h !! b = Some y -> inner b -> b <> R -> is_Some (h !! parent y);
  sh_root : R <> 0 -> inner R /\ exists y, h !! R = Some y /\ parent y = 0 }.

(** [G] has the way of every filter; [N] begins with that of the filter being
    inserted, whose id is [np], and has all its atoms. *)
Record routes h G N np : Prop := {
  rt_up : forall p l, G !! p = Some l -> exists t k, l = t :: k /\ up h dpf_base t l;
  rt_cov : forall a x, h !! a = Some x -> inner a -> a ∈ N \/ exists p l, G !! p = Some l /\ a ∈ l;
  rt_cnt : forall a x, h !! a = Some x -> inner a -> refcnt x = cnt G a;
  rt_end : forall p t k x, G !! p = Some (t :: k) -> h !! t = Some x -> at_ht x = 0;
  rt_pid : forall a x, h !! a = Some x -> pid x <> 0 ->
    (exists l, G !! pid x = Some (a :: l)) \/ (pid x = np /\ exists l, N = a :: l) }.

(** The table of [a] has every child of [a], by its value. *)
Record filled h a (t : ht) : Prop := {
  fl_in : forall k l b, buckets t !! k = Some l -> b ∈ l -> exists y, h !! b = Some y /\ parent y = a /\ k = hash t (val (at_ir y));
  fl_all : forall b y, h !! b = Some y -> parent y = a -> b ∈ bucket t (val (at_ir y));
  fl_val : forall b b' y y', h !! b = Some y -> h !! b' = Some y' -> parent y = a -> parent y' = a -> val (at_ir y) = val (at_ir y') -> b = b' }.

(** A node with a hash table: its children are the entries. *)
Record table h (hs : gmap Z ht) a x : Prop := {
  tb_pid : pid x = 0;
  tb_ht : exists t : ht, hs !! at_ht x = Some t /\ ent t = zlen (kids x) /\ filled h a t;
  tb_kid : forall b y, h !! b = Some y -> parent y = a ->
    at_ht y = 0 /\ offset (at_ir y) = offset (at_ir x) /\ mask (at_ir y) = mask (at_ir x) }.

Record tabs h hs : Prop := {
  tb_all : forall a x, h !! a = Some x -> at_ht x <> 0 -> table h hs a x;
  tb_inj : forall a a' x x', h !! a = Some x -> h !! a' = Some x' -> at_ht x <> 0 -> at_ht x = at_ht x' -> a = a' }.

(** A label fits the atom, though it may be out of date. *)
Definition label_ok x : Prop :=
  match code x with
  | None => True
  | Some (EQ | EQ_NO_KID | EQ_NO_PID | EQ_NO_SIB | EQ_NO_PID_NO_SIB) => at_ht x = 0
  | Some EQ_X_8 => at_ht x = 0 /\ nbits (at_ir x) = 8 /\ mask (at_ir x) = 0xff
  | Some EQ_MX_8 => at_ht x = 0 /\ nbits (at_ir x) = 8
  | Some EQ_X_16 => at_ht x = 0 /\ nbits (at_ir x) = 16 /\ mask (at_ir x) = 0xffff
  | Some EQ_MX_16 => at_ht x = 0 /\ nbits (at_ir x) = 16
  | Some EQ_X_32 => at_ht x = 0 /\ mask (at_ir x) = 0xffffffff
  | Some EQ_MX_32 => at_ht x = 0
  | Some (DEQ_NO_KID | DEQ_NO_PID | DEQ_NO_PID_NO_SIB) => at_ht x <> 0
  | _ => False
  end.

Record atoms_ok h : Prop := {
  ao_wf : forall a x, h !! a = Some x -> inner a -> wf_eq (at_ir x);
  ao_label : forall a x, h !! a = Some x -> inner a -> label_ok x;
  ao_done : forall x, h !! done_atom = Some x -> code x = None \/ code x = Some DONE }.

(** Ids: those in use, those on the free list and those not yet used. *)
Record pids_ok (s : dpf) : Prop := {
  pk_high : 1 <= highwater s <= DPF_MAXFILT;
  pk_free : forall p, p ∈ free_pids s -> 1 <= p < highwater s /\ dpf_active s !! p = None;
  pk_nodup : NoDup (free_pids s);
  pk_act : forall p, is_Some (dpf_active s !! p) -> 1 <= p < highwater s }.

(** [F] has the atoms of the filters. *)
Record trie_inv (F : gmap Z (list ir)) G N R np (s : dpf) : Prop := {
  ti_shape : shape (atoms s) R;
  ti_routes : routes (atoms s) G N np;
  ti_tabs : tabs (atoms s) (hts s);
  ti_atoms : atoms_ok (atoms s);
  ti_brk : 3 <= brk s /\ (forall a, brk s <= a -> atoms s !! a = None) /\ (forall a, brk s <= a -> hts s !! a = None);
  ti_keys : forall p l, G !! p = Some l -> exists f, F !! p = Some f /\ keys (atoms s) l = key <$> f;
  ti_size : (size G < 256)%nat }.

(** Between calls. *)
Record dpf_ok (F : gmap Z (list ir)) (s : dpf) : Prop := {
  do_inv : exists G, trie_inv F G [] 0 0 s /\ (forall p t, dpf_active s !! p = Some t <-> exists l, G !! p = Some (t :: l));
  do_pids : pids_ok s;
  do_over : dpf_overlap s = false;
  do_dom : forall p, is_Some (F !! p) <-> is_Some (dpf_active s !! p) }.

(** ** Tables *)

Lemma shape_nz h R a x : shape h R -> h !! a = Some x -> a <> 0.
Proof. intros SH Hx ->. pose proof (sh_zero _ _ SH). congruence. Qed.

(** [a] has the same children in both heaps, with the same tests. *)
Definition kidsame h h' a : Prop := forall b,
  (forall y, h !! b = Some y -> parent y = a -> exists y', h' !! b = Some y' /\ parent y' = a /\ at_ht y' = at_ht y /\ at_ir y' = at_ir y) /\
  (forall y', h' !! b = Some y' -> parent y' = a -> exists y, h !! b = Some y /\ parent y = a /\ at_ht y' = at_ht y /\ at_ir y' = at_ir y).

Lemma kidsame_refl h a : kidsame h h a.
Proof. intros b. split; eauto. Qed.

Lemma filled_keep h h' a (t t' : ht) : kidsame h h' a -> buckets t' = buckets t -> (forall v, hash t' v = hash t v) -> filled h a t -> filled h' a t'.
Proof.
  intros K Eb Eh [A B C]. split.
  - intros k l b Hl Hb. rewrite Eb in Hl. destruct (A k l b Hl Hb) as (y & Hy & Ep & ->). destruct (proj1 (K b) y Hy Ep) as (y' & Hy' & Ep' & _ & Ei).
    exists y'. by rewrite Eh, Ei.
  - intros b y' Hy' Ep'. destruct (proj2 (K b) y' Hy' Ep') as (y & Hy & Ep & _ & Ei). rewrite Ei. unfold bucket. rewrite Eb, Eh. by apply B.
  - intros b b' y y' Hy Hy' Ep Ep' Ev. destruct (proj2 (K b) y Hy Ep) as (z & Hz & Ez & _ & Ei). destruct (proj2 (K b') y' Hy' Ep') as (z' & Hz' & Ez' & _ & Ei').
    apply (C b b' z z'); try done. congruence.
Qed.

Lemma table_keep h h' (hs hs' : gmap Z ht) a x x' :
  table h hs a x -> pid x' = pid x -> kids x' = kids x -> at_ht x' = at_ht x -> at_ir x' = at_ir x -> hs' !! at_ht x = hs !! at_ht x -> kidsame h h' a ->
  table h' hs' a x'.
Proof.
  intros [A (t & Ht & B & C) D] Ep Ek Eh Ei Et K. split; [congruence| |].
  - exists t. rewrite Eh, Et, Ek. split_and!; [done|done|]. by eapply filled_keep.
  - intros b y' Hy' Ey'. destruct (proj2 (K b) y' Hy' Ey') as (y & Hy & Ey & F1 & F2). rewrite F1, F2, Ei. by apply (D b y).
Qed.

Lemma filled_kid h R a x (t : ht) k l b : shape h R -> h !! a = Some x -> filled h a t -> buckets t !! k = Some l -> b ∈ l -> b ∈ kids x.
Proof. intros SH Hx Hf Hl Hb. destruct (fl_in _ _ _ Hf k l b Hl Hb) as (y & Hy & Ep & _). apply (sh_kids _ _ SH a x b Hx). eauto. Qed.

(** ** Changes to one atom *)

(** Nothing but the count, the id and the label. *)
Record touched x x' : Prop := {
  tc_parent : parent x' = parent x;
  tc_kids : kids x' = kids x;
  tc_ht : at_ht x' = at_ht x;
  tc_ir : at_ir x' = at_ir x }.

Lemma touched_refl x : touched x x.
Proof. done. Qed.
Lemma touched_trans x y z : touched x y -> touched y z -> touched x z.
Proof. intros [] []. split; congruence. Qed.
Lemma touched_sym x y : touched x y -> touched y x.
Proof. intros []. by split. Qed.

(** Two heaps whose atoms differ in nothing else. *)
Definition touch h h' : Prop := forall a, option_Forall2 touched (h !! a) (h' !! a).

Lemma touch_get h h' a x : touch h h' -> h !! a = Some x -> exists x', h' !! a = Some x' /\ touched x x'.
Proof. intros Ht Hx. specialize (Ht a). rewrite Hx in Ht. inversion Ht; subst; eauto. Qed.
Lemma touch_sym h h' : touch h h' -> touch h' h.
Proof. intros Ht a. destruct (Ht a); constructor. by apply touched_sym. Qed.
Lemma touch_back h h' a x' : touch h h' -> h' !! a = Some x' -> exists x, h !! a = Some x /\ touched x x'.
Proof. intros Ht Hx. destruct (touch_get h' h a x') as (x & Hx' & H); [by apply touch_sym|done|]. exists x. split; [done|by apply touched_sym]. Qed.
Lemma touch_none h h' a : touch h h' -> h !! a = None -> h' !! a = None.
Proof. intros Ht Hx. specialize (Ht a). rewrite Hx in Ht. by inversion Ht. Qed.
Lemma touch_refl h : touch h h.
Proof. intros a. destruct (h !! a); by constructor. Qed.
Lemma touch_trans h1 h2 h3 : touch h1 h2 -> touch h2 h3 -> touch h1 h3.
Proof.
  intros H12 H23 a. specialize (H12 a). specialize (H23 a).
  destruct H12 as [x y E|]; inversion H23; subst; constructor. by eapply touched_trans.
Qed.
Lemma touch_insert h a x x' : h !! a = Some x -> touched x x' -> touch h (<[a := x']> h).
Proof.
  intros Hx Ht b. destruct (decide (b = a)) as [->|Hne]; [rewrite lookup_insert_eq, Hx; by constructor|].
  rewrite lookup_insert_ne by done. apply touch_refl.
Qed.

Lemma touch_up h h' r a l : touch h h' -> up h r a l -> up h' r a l.
Proof.
  intros Ht H. apply (up_same _ _ _ _ _ H). intros b x _ Hx. destruct (touch_get _ _ _ _ Ht Hx) as (x' & Hx' & []). eauto.
Qed.

Lemma touch_akey h h' a : touch h h' -> akey h' a = akey h a.
Proof.
  intros Ht. specialize (Ht a). unfold akey. destruct Ht as [x x' [_ _ E1 E2]|]; [|done]. by rewrite E1, E2.
Qed.

Lemma touch_keys h h' l : touch h h' -> keys h' l = keys h l.
Proof. intros Ht. apply keys_same. intros b _. by apply touch_akey. Qed.

Lemma touch_shape h h' R : touch h h' ->
  (forall x, h' !! dpf_base = Some x -> pid x = 0) -> (forall x, h' !! done_atom = Some x -> pid x = 0) -> shape h R -> shape h' R.
Proof.
  intros Ht Hb Hd [(xb & B1 & B2 & B3 & B4 & B5) (xd & D1 & D2 & D3 & D4 & D5 & D6) Z ND K P RT]. split.
  - destruct (touch_get _ _ _ _ Ht B1) as (x' & Hx' & [E1 E2 E3 E4]). exists x'. split_and!; try congruence. by apply Hb.
  - destruct (touch_get _ _ _ _ Ht D1) as (x' & Hx' & [E1 E2 E3 E4]). exists x'. split_and!; try congruence. by apply Hd.
  - by eapply touch_none.
  - intros a x' Hx'. destruct (touch_back _ _ _ _ Ht Hx') as (x & Hx & []). rewrite tc_kids0. eauto.
  - intros a x' b Hx'. destruct (touch_back _ _ _ _ Ht Hx') as (x & Hx & [_ E _ _]). rewrite E, (K a x b Hx). split.
    + intros (y & Hy & Hp). destruct (touch_get _ _ _ _ Ht Hy) as (y' & Hy' & []). exists y'. split; [done|congruence].
    + intros (y' & Hy' & Hp). destruct (touch_back _ _ _ _ Ht Hy') as (y & Hy & []). exists y. split; [done|congruence].
  - intros b y' Hy' Hi HR. destruct (touch_back _ _ _ _ Ht Hy') as (y & Hy & [E _ _ _]). rewrite E.
    destruct (P b y Hy Hi HR) as [z Hz]. destruct (touch_get _ _ _ _ Ht Hz) as (z' & Hz' & _). eauto.
  - intros HR. destruct (RT HR) as (Hi & y & Hy & Hp). split; [done|]. destruct (touch_get _ _ _ _ Ht Hy) as (y' & Hy' & []). exists y'.
    split; [done|congruence].
Qed.

Lemma touch_tabs h h' hs : touch h h' -> (forall a x, h' !! a = Some x -> at_ht x <> 0 -> pid x = 0) -> tabs h hs -> tabs h' hs.
Proof.
  intros Ht Hp [A I]. split.
  - intros a x' Hx' Hh. destruct (touch_back _ _ _ _ Ht Hx') as (x & Hx & [E1 E2 E3 E4]). rewrite E3 in Hh.
    eapply table_keep; [by apply (A a x)| |done|done|done|done|].
    + rewrite (Hp a x' Hx') by congruence. symmetry. apply (A a x Hx Hh).
    + intros b. split.
      * intros y Hy Ey. destruct (touch_get _ _ _ _ Ht Hy) as (y' & Hy' & []). exists y'. split_and!; congruence.
      * intros y' Hy' Ey. destruct (touch_back _ _ _ _ Ht Hy') as (y & Hy & []). exists y. split_and!; congruence.
  - intros a a' x x' Hx Hx' Hn E. destruct (touch_back _ _ _ _ Ht Hx) as (y & Hy & []). destruct (touch_back _ _ _ _ Ht Hx') as (y' & Hy' & []).
    apply (I a a' y y' Hy Hy'); congruence.
Qed.

(** Only labels change, to ones that fit. *)
Definition relabel h h' : Prop :=
  touch h h' /\ (forall a x x', h !! a = Some x -> h' !! a = Some x' -> refcnt x' = refcnt x /\ pid x' = pid x) /\
  (atoms_ok h -> atoms_ok h').

Lemma relabel_routes h h' G N np : relabel h h' -> routes h G N np -> routes h' G N np.
Proof.
  intros (Ht & Hs & _) [U C CN EN P]. split.
  - intros p l Hl. destruct (U p l Hl) as (t & k & -> & H). exists t, k. split; [done|by eapply touch_up].
  - intros a x' Hx' Hi. destruct (touch_back _ _ _ _ Ht Hx') as (x & Hx & _). by apply (C a x).
  - intros a x' Hx' Hi. destruct (touch_back _ _ _ _ Ht Hx') as (x & Hx & _). destruct (Hs a x x' Hx Hx') as [-> _]. by apply (CN a x).
  - intros p t k x' Hl Hx'. destruct (touch_back _ _ _ _ Ht Hx') as (x & Hx & [_ _ E _]). rewrite E. by apply (EN p t k x).
  - intros a x' Hx' Hi. destruct (touch_back _ _ _ _ Ht Hx') as (x & Hx & _). destruct (Hs a x x' Hx Hx') as [_ E]. rewrite E in *. by apply (P a x).
Qed.

Lemma relabel_inv F G N R np s h' :
  trie_inv F G N R np s -> relabel (atoms s) h' -> trie_inv F G N R np (set_atoms h' s).
Proof.
  intros [SH RT TB AO BK KS SZ] HR. pose proof HR as (Ht & Hs & Ha). split; cbn.
  - eapply touch_shape; [done| | |done]; intros x' Hx'; destruct (touch_back _ _ _ _ Ht Hx') as (x & Hx & _); destruct (Hs _ x x' Hx Hx') as [_ ->].
    + destruct (sh_base _ _ SH) as (y & ? & ? & ? & ? & _). by simplify_eq.
    + destruct (sh_done _ _ SH) as (y & ? & ? & ? & ? & ? & _). by simplify_eq.
  - by eapply relabel_routes.
  - eapply touch_tabs; [done| |done]. intros a x' Hx' Hh. destruct (touch_back _ _ _ _ Ht Hx') as (x & Hx & []). destruct (Hs a x x' Hx Hx') as [_ ->].
    apply (tb_all _ _ TB a x Hx). congruence.
  - by apply Ha.
  - destruct BK as (B1 & B2 & B3). split_and!; [done| |done]. intros a Hle. eapply touch_none; [done|]. by apply B2.
  - intros p l Hl. rewrite (touch_keys _ _ _ Ht). by apply KS.
  - done.
Qed.

(** ** Running the code *)

Lemma wlp_get_atom a s (Q : atom -> dpf -> Prop) : (forall x, atoms s !! a = Some x -> Q x s) -> wlp (get_atom a) s Q.
Proof. intros H. apply wlp_bind. unfold wlp at 1, get. apply wlp_of_option. exact H. Qed.
Lemma wlp_upd_atom a f s (Q : unit -> dpf -> Prop) :
  (forall x, atoms s !! a = Some x -> Q tt (set_atoms (<[a := f x]> (atoms s)) s)) -> wlp (upd_atom a f) s Q.
Proof. intros H. apply wlp_bind, wlp_get_atom. exact H. Qed.
Lemma wlp_get_ht (a : Z) s (Q : ht -> dpf -> Prop) : (forall t : ht, hts s !! a = Some t -> Q t s) -> wlp (get_ht a) s Q.
Proof. intros H. apply wlp_bind. unfold wlp at 1, get. apply wlp_of_option. exact H. Qed.
Lemma wlp_upd_ht (a : Z) f s (Q : unit -> dpf -> Prop) :
  (forall t : ht, hts s !! a = Some t -> Q tt (set_hts (<[a := f t]> (hts s)) s)) -> wlp (upd_ht a f) s Q.
Proof. intros H. apply wlp_bind, wlp_get_ht. exact H. Qed.
Lemma wlp_le_next a s (Q : Z -> dpf -> Prop) : (forall n, Q n s) -> wlp (le_next a) s Q.
Proof.
  intros H. apply wlp_bind, wlp_get_atom. intros x _. destruct (parent x =? 0); [apply H|].
  apply wlp_bind, wlp_get_atom. intros y _. apply H.
Qed.
Lemma wlp_ret {A} (v : A) (s : dpf) (Q : A -> dpf -> Prop) : Q v s -> wlp (mreturn v) s Q.
Proof. done. Qed.
Lemma wlp_modify f (s : dpf) (Q : unit -> dpf -> Prop) : Q tt (f s) -> wlp (modify f) s Q.
Proof. done. Qed.
Lemma wlp_gets {A} (f : dpf -> A) s (Q : A -> dpf -> Prop) : Q (f s) s -> wlp (gets f) s Q.
Proof. done. Qed.
Lemma wlp_get s (Q : dpf -> dpf -> Prop) : Q s s -> wlp get s Q.
Proof. done. Qed.

(** One step of a program under [wlp]. *)
Ltac wl :=
  match goal with
  | |- wlp (mbind_ _ _) _ _ => apply wlp_bind
  | |- wlp (get_atom _) _ _ => apply wlp_get_atom; intros ? ?
  | |- wlp (upd_atom _ _) _ _ => apply wlp_upd_atom; intros ? ?
  | |- wlp (get_ht _) _ _ => apply wlp_get_ht; intros ? ?
  | |- wlp (upd_ht _ _) _ _ => apply wlp_upd_ht; intros ? ?
  | |- wlp (le_next _) _ _ => apply wlp_le_next; intros ?
  | |- wlp (mreturn _) _ _ => apply wlp_ret
  | |- wlp (modify _) _ _ => apply wlp_modify
  | |- wlp (put_atom _ _) _ _ => apply wlp_modify
  | |- wlp (put_ht _ _) _ _ => apply wlp_modify
  | |- wlp (gets _) _ _ => apply wlp_gets
  | |- wlp get _ _ => apply wlp_get
  | |- wlp (assert_ _) _ _ => apply wlp_assert
  | |- wlp panic _ _ => exact I
  end.

Lemma eq_label_ok x sib : at_ht x = 0 -> label_ok (set_code (eq_label x sib) x).
Proof.
  intros Hh. unfold label_ok, eq_label. cbn. destruct (kids x); [done|].
  destruct (pid x =? 0), sib; cbn; try done.
  destruct (Z.eqb_spec (nbits (at_ir x)) 8); [by destruct (Z.eqb_spec (mask (at_ir x)) 0xff)|].
  destruct (Z.eqb_spec (nbits (at_ir x)) 16); cbn.
  - destruct ((_ + _) mod 2 =? 0); cbn; [by destruct (Z.eqb_spec (mask (at_ir x)) 0xffff)|].
    destruct (Z.eqb_spec (nbits (at_ir x)) 32); [lia|done].
  - destruct (Z.eqb_spec (nbits (at_ir x)) 32); cbn; [|done].
    destruct ((_ + _) mod 4 =? 0); cbn; [by destruct (Z.eqb_spec (mask (at_ir x)) 0xffffffff)|done].
Qed.

Lemma relabel_refl h : relabel h h.
Proof. split_and!; [apply touch_refl| |done]. intros. by simplify_eq. Qed.
Lemma relabel_trans h1 h2 h3 : relabel h1 h2 -> relabel h2 h3 -> relabel h1 h3.
Proof.
  intros (A1 & A2 & A3) (B1 & B2 & B3). split_and!; [by eapply touch_trans| |auto].
  intros a x x' Hx Hx'. destruct (touch_get _ _ _ _ A1 Hx) as (y & Hy & _).
  destruct (A2 a x y Hx Hy), (B2 a y x' Hy Hx'). split; congruence.
Qed.
Lemma relabel_touch h h' : relabel h h' -> touch h h'.
Proof. by intros []. Qed.

Lemma relabel_one h a x c :
  h !! a = Some x -> (inner a -> label_ok (set_code c x)) -> (a = done_atom -> c = DONE) -> relabel h (<[a := set_code c x]> h).
Proof.
  intros Hx Hc Hd. split_and!.
  - by eapply touch_insert.
  - intros b y y' Hy. destruct (decide (b = a)) as [->|Hne]; [rewrite lookup_insert_eq|rewrite lookup_insert_ne by done]; intros; by simplify_eq.
  - intros [W L D]. split.
    + intros b y. destruct (decide (b = a)) as [->|Hne]; [rewrite lookup_insert_eq|rewrite lookup_insert_ne by done; apply W].
      intros [= <-] Hi. cbn. by apply (W a x).
    + intros b y. destruct (decide (b = a)) as [->|Hne]; [rewrite lookup_insert_eq|rewrite lookup_insert_ne by done; apply L].
      intros [= <-] Hi. by apply Hc.
    + intros y. destruct (decide (done_atom = a)) as [<-|Hne]; [rewrite lookup_insert_eq|rewrite lookup_insert_ne by done; apply D].
      intros [= <-]. right. cbn. by rewrite Hd.
Qed.

(** No actions: the operation of the root and of [done_atom] is 0. *)
Definition eq_ops h : Prop := forall a x, h !! a = Some x -> op (at_ir x) = 0 \/ op (at_ir x) = DPF_OP_EQ.

Lemma inv_eq_ops F G N R np s : trie_inv F G N R np s -> eq_ops (atoms s).
Proof.
  intros [SH _ _ [W _ _] _ _ _] a x Hx. destruct (decide (a = dpf_base)) as [->|]; [|destruct (decide (a = done_atom)) as [->|]].
  - destruct (sh_base _ _ SH) as (y & ? & ? & ? & ? & ?). simplify_eq. by left.
  - destruct (sh_done _ _ SH) as (y & ? & ? & ? & ? & ? & ?). simplify_eq. by left.
  - right. by apply (W a x).
Qed.

Lemma touch_eq_ops h h' : touch h h' -> eq_ops h -> eq_ops h'.
Proof. intros Ht H a x' Hx'. destruct (touch_back _ _ _ _ Ht Hx') as (x & Hx & [_ _ _ ->]). eauto. Qed.

Lemma relabel_compile a s : eq_ops (atoms s) -> a <> done_atom ->
  wlp (dpf_compile_atom a) s (fun _ s' => exists h', s' = set_atoms h' s /\ relabel (atoms s) h').
Proof.
  intros Ho Hd. unfold dpf_compile_atom. wl. wl. wl. wl. wl.
  match goal with Hx : atoms s !! a = Some ?x |- _ => rename x into z, Hx into Hz end.
  assert (dpf_isshift (at_ir z) = false /\ dpf_isaction (at_ir z) = false /\ dpf_isstateeq (at_ir z) = false) as (-> & -> & ->).
  { unfold dpf_isshift, dpf_isaction, dpf_isstateeq. destruct (Ho a z Hz) as [-> | ->]; done. }
  assert (forall c, label_ok (set_code c z) -> wlp (upd_atom a (set_code c)) s (fun _ s' => wlp (upd_atom done_atom (set_code DONE)) s'
    (fun _ s' => exists h', s' = set_atoms h' s /\ relabel (atoms s) h'))) as Hgo.
  { intros c Hc. wl. simplify_eq. wl. eexists. split; [reflexivity|]. cbn [atoms set_atoms] in *.
    eapply relabel_trans; [by eapply (relabel_one _ a z c)|]. eapply relabel_one; [done|by intros []|done]. }
  destruct (Z.eqb_spec (at_ht z) 0) as [E|E]; cbn.
  - wl. apply Hgo. by apply eq_label_ok.
  - wl. wl. wl. wl. apply Hgo. unfold label_ok. cbn. by destruct (nterm _ =? 0), (n =? 0).
Qed.

(** What the operations on the trie leave alone. *)
Definition rest (s : dpf) := (dpf_active s, highwater s, free_pids s).

Lemma compile_inv F G N R np a s (Q : unit -> dpf -> Prop) :
  trie_inv F G N R np s -> a <> done_atom ->
  (forall s', trie_inv F G N R np s' -> relabel (atoms s) (atoms s') -> hts s' = hts s -> rest s' = rest s ->
     dpf_overlap s' = dpf_overlap s -> Q tt s') ->
  wlp (dpf_compile_atom a) s Q.
Proof.
  intros Hi Hd HQ. eapply wlp_mono; [apply relabel_compile; [by eapply inv_eq_ops|done]|].
  intros [] s' (h' & -> & Hr). by apply HQ; [apply relabel_inv|..].
Qed.

(** ** A new leaf *)

Lemma fresh_not_up h r a l n : up h r a l -> h !! n = None -> n ∉ l.
Proof. intros H Hn Hin. destruct (up_in _ _ _ _ _ H Hin) as [[x Hx] _]. congruence. Qed.

Lemma inv_get_ne h a b x : h !! a = Some x -> h !! b = None -> a <> b.
Proof. congruence. Qed.

Section leaf.
Context h q (xq : atom) n (y0 : atom) (K : list Z).
Hypothesis (Hq : h !! q = Some xq) (Hn : h !! n = None) (Hn0 : n <> 0) (Hin : inner n) (Hqd : q <> done_atom).
Hypothesis (HK : K ≡ₚ n :: kids xq).
Hypothesis (Hy : parent y0 = q /\ kids y0 = [] /\ refcnt y0 = 0 /\ pid y0 = 0).
Let h' := <[n := y0]> (<[q := set_kids K xq]> h).

Lemma leaf_qn : q <> n.
Proof. intros ->. congruence. Qed.
Lemma leaf_get a x : h' !! a = Some x ->
  (a = n /\ x = y0) \/ (a <> n /\ a = q /\ x = set_kids K xq) \/ (a <> n /\ a <> q /\ h !! a = Some x).
Proof.
  unfold h'. destruct (decide (a = n)) as [->|]; [rewrite lookup_insert_eq; intros [= <-]; by left|].
  rewrite lookup_insert_ne by done. destruct (decide (a = q)) as [->|]; [rewrite lookup_insert_eq; intros [= <-]; tauto|].
  rewrite lookup_insert_ne by done. tauto.
Qed.
Lemma leaf_new : h' !! n = Some y0.
Proof. apply lookup_insert_eq. Qed.
Lemma leaf_q : h' !! q = Some (set_kids K xq).
Proof. unfold h'. rewrite lookup_insert_ne by (symmetry; apply leaf_qn). apply lookup_insert_eq. Qed.
Lemma leaf_old a : a <> n -> a <> q -> h' !! a = h !! a.
Proof. intros. unfold h'. by rewrite !lookup_insert_ne by done. Qed.
(** An old atom, with its parent, table and test. *)
Lemma leaf_keep a x : h !! a = Some x -> exists x', h' !! a = Some x' /\ parent x' = parent x /\ at_ht x' = at_ht x /\ at_ir x' = at_ir x /\
  refcnt x' = refcnt x /\ pid x' = pid x /\ code x' = code x.
Proof.
  intros Hx. assert (a <> n) by congruence. destruct (decide (a = q)) as [->|].
  - simplify_eq. exists (set_kids K xq). by rewrite leaf_q.
  - exists x. by rewrite leaf_old.
Qed.
Lemma leaf_back a x' : h' !! a = Some x' -> a <> n -> exists x, h !! a = Some x /\ parent x' = parent x /\ at_ht x' = at_ht x /\ at_ir x' = at_ir x /\
  refcnt x' = refcnt x /\ pid x' = pid x /\ code x' = code x.
Proof.
  intros [[-> _]|[(_ & -> & ->)|(_ & _ & Hx)]]%leaf_get Hne; [done|by exists xq|by exists x'].
Qed.

Lemma leaf_up r a l : up h r a l -> up h' r a l.
Proof. intros H. apply (up_same _ _ _ _ _ H). intros b x _ Hx. destruct (leaf_keep b x Hx) as (x' & ? & ? & _). eauto. Qed.

Lemma leaf_akey a : a <> n -> akey h' a = akey h a.
Proof.
  intros Hne. unfold akey. destruct (h !! a) as [x|] eqn:Hx.
  - destruct (leaf_keep a x Hx) as (x' & -> & _ & -> & -> & _). done.
  - assert (a <> q) by congruence. by rewrite leaf_old, Hx.
Qed.
Lemma leaf_keys r a l : up h r a l -> keys h' l = keys h l.
Proof. intros H. apply keys_same. intros b Hb. apply leaf_akey. intros ->. by eapply fresh_not_up. Qed.

Lemma leaf_shape R : shape h R -> shape h' R.
Proof.
  intros [(xb & B1 & B2 & B3 & B4 & B5) (xd & D1 & D2 & D3 & D4 & D5 & D6) Z ND KD P RT]. destruct Hy as (Y1 & Y2 & Y3 & Y4). split.
  - destruct (leaf_keep _ _ B1) as (x' & Hx' & E1 & E2 & E3 & E4 & E5 & _). exists x'. split_and!; congruence.
  - exists xd. rewrite leaf_old; [done| |done]. intros E. by apply (proj2 Hin).
  - rewrite leaf_old; [done|congruence|]. intros E. rewrite <- E in Hq. congruence.
  - intros a x [[-> ->]|[(_ & -> & ->)|(_ & _ & Hx)]]%leaf_get; [rewrite Y2; constructor| |by eapply ND].
    cbn. rewrite HK. constructor; [|by eapply ND]. intros Hk. apply (KD q xq n Hq) in Hk as (y & Hy' & _). congruence.
  - intros a x b Hx. transitivity ((b = n /\ a = q) \/ exists y, h !! b = Some y /\ parent y = a).
    + destruct (leaf_get a x Hx) as [[-> ->]|[(_ & -> & ->)|(Hne & Hne' & Hx')]]; cbn.
      * rewrite Y2. split; [by intros ?%not_elem_of_nil|]. intros [[-> E]|(y & Hy' & E)]; [by destruct leaf_qn|].
        exfalso. destruct (decide (b = dpf_base)) as [->|]; [congruence|]. destruct (decide (b = done_atom)) as [->|]; [congruence|].
        destruct (decide (b = R)) as [->|HR].
        { destruct (RT) as (_ & z & Hz & Ez); [intros ->; congruence|]. congruence. }
        destruct (P b y Hy' (conj n0 n1) HR) as [z Hz]. congruence.
      * rewrite HK, elem_of_cons, (KD q xq b Hq). tauto.
      * rewrite (KD a x b Hx'). tauto.
    + split.
      * intros [[-> ->]|(y & Hy' & E)]; [exists y0; by rewrite leaf_new|].
        destruct (leaf_keep b y Hy') as (y' & ? & ? & _). exists y'. split; [done|congruence].
      * intros (y' & Hy' & E). destruct (decide (b = n)) as [->|Hne].
        { rewrite leaf_new in Hy'. injection Hy' as <-. left. split; congruence. }
        right. destruct (leaf_back b y' Hy' Hne) as (y & ? & ? & _). exists y. split; [done|congruence].
  - intros b y' Hy' Hi HR. assert (forall a, is_Some (h !! a) -> is_Some (h' !! a)) as Hmono.
    { intros a [x Hx]. destruct (leaf_keep a x Hx) as (x' & ? & _). eauto. }
    destruct (decide (b = n)) as [->|Hne]; [rewrite leaf_new in Hy'; injection Hy' as <-; rewrite Y1; eauto|].
    destruct (leaf_back b y' Hy' Hne) as (y & Hy0 & E & _). rewrite E. eauto.
  - intros HR. destruct (RT HR) as (Hi & y & Hy' & Hp). split; [done|]. destruct (leaf_keep R y Hy') as (y' & ? & ? & _). exists y'. split; [done|congruence].
Qed.

Lemma leaf_routes G N R k : shape h R -> routes h G N 0 -> (forall a, a ∈ N -> a ∈ k) -> routes h' G (n :: k) 0.
Proof.
  intros SH [U C CN EN P] HN. destruct Hy as (Y1 & Y2 & Y3 & Y4). split.
  - intros p l Hl. destruct (U p l Hl) as (t & j & -> & H). exists t, j. split; [done|by apply leaf_up].
  - intros a x Hx Hi. destruct (decide (a = n)) as [->|Hne]; [left; set_solver|].
    destruct (leaf_back a x Hx Hne) as (y & Hy' & _). destruct (C a y Hy' Hi) as [H|H]; [left; set_solver|by right].
  - intros a x Hx Hi. destruct (decide (a = n)) as [->|Hne].
    + rewrite leaf_new in Hx. injection Hx as <-. rewrite Y3. symmetry. apply kcount_zero. intros p l Hl. cbn. apply bool_decide_eq_false_2.
      destruct (U p l Hl) as (t & j & _ & H). by eapply fresh_not_up.
    + destruct (leaf_back a x Hx Hne) as (y & Hy' & _ & _ & _ & -> & _). by apply (CN a y).
  - intros p t j x Hl Hx. destruct (decide (t = n)) as [->|Hne].
    + destruct (U p _ Hl) as (t & j' & _ & H). exfalso. apply (fresh_not_up _ _ _ _ n H Hn). set_solver.
    + destruct (leaf_back t x Hx Hne) as (y & Hy' & _ & -> & _). by apply (EN p t j y).
  - intros a x Hx Hp. destruct (decide (a = n)) as [->|Hne]; [rewrite leaf_new in Hx; by injection Hx as <-|].
    destruct (leaf_back a x Hx Hne) as (y & Hy' & _ & _ & _ & _ & E & _). rewrite E in *.
    destruct (P a y Hy' Hp) as [H|[E0 _]]; [by left|congruence].
Qed.

Lemma leaf_atoms_ok : wf_eq (at_ir y0) -> label_ok y0 -> atoms_ok h -> atoms_ok h'.
Proof.
  intros Hw Hl [W L D]. split.
  - intros a x Hx Hi. destruct (decide (a = n)) as [->|Hne]; [rewrite leaf_new in Hx; by injection Hx as <-|].
    destruct (leaf_back a x Hx Hne) as (y & Hy' & _ & _ & -> & _). by apply (W a y).
  - intros a x Hx Hi. destruct (decide (a = n)) as [->|Hne]; [rewrite leaf_new in Hx; by injection Hx as <-|].
    destruct (leaf_back a x Hx Hne) as (y & Hy' & _ & E1 & E2 & _ & _ & E3). specialize (L a y Hy' Hi). unfold label_ok in *. by rewrite E1, E2, E3.
  - intros x Hx. assert (done_atom <> n) as Hdn by (intros E; by apply (proj2 Hin)).
    destruct (leaf_back _ x Hx Hdn) as (y & Hy' & _ & _ & _ & _ & _ & ->). by apply D.
Qed.

(** The new atom is no entry of a table. *)
Lemma leaf_tabs hs R : shape h R -> at_ht xq = 0 -> at_ht y0 = 0 -> tabs h hs -> tabs h' hs.
Proof.
  intros SH Hqh Hyh [A I]. destruct Hy as (Y1 & _). split.
  - intros a x' Hx' Hh. destruct (decide (a = n)) as [->|Hne]; [rewrite leaf_new in Hx'; by injection Hx' as <-|].
    destruct (leaf_get a x' Hx') as [[-> _]|[(_ & -> & ->)|(_ & Hne' & Hx)]]; [done|done|].
    eapply table_keep; [by apply (A a x')|done|done|done|done|done|]. intros b. split.
    + intros y Hb Hp. destruct (leaf_keep b y Hb) as (z & Hz & E1 & E2 & E3 & _). exists z. split_and!; congruence.
    + intros y Hb Hp. destruct (decide (b = n)) as [->|Hbn]; [rewrite leaf_new in Hb; injection Hb as <-; congruence|].
      destruct (leaf_back b y Hb Hbn) as (z & Hz & E1 & E2 & E3 & _). exists z. split_and!; congruence.
  - intros a a' x x' Hx Hx' Hh E.
    destruct (decide (a = n)) as [->|Hne]; [rewrite leaf_new in Hx; injection Hx as <-; congruence|].
    destruct (decide (a' = n)) as [->|Hne']; [rewrite leaf_new in Hx'; injection Hx' as <-; congruence|].
    destruct (leaf_back a x Hx Hne) as (y & Hy1 & _ & E1 & _). destruct (leaf_back a' x' Hx' Hne') as (y' & Hy2 & _ & E2 & _).
    apply (I a a' y y'); congruence.
Qed.
End leaf.

Lemma inv_fresh F G N R np s : trie_inv F G N R np s -> atoms s !! brk s = None /\ hts s !! brk s = None /\ brk s <> 0 /\ inner (brk s).
Proof.
  intros Hi. destruct (ti_brk _ _ _ _ _ _ Hi) as (B1 & B2 & B3). split_and!; [apply B2; lia|apply B3; lia|lia|].
  unfold inner, dpf_base, done_atom. lia.
Qed.

Lemma inv_live F G N R np s a x : trie_inv F G N R np s -> atoms s !! a = Some x -> a < brk s.
Proof. intros Hi Hx. destruct (ti_brk _ _ _ _ _ _ Hi) as (_ & B2 & _). destruct (decide (a < brk s)); [done|]. rewrite B2 in Hx by lia. done. Qed.

Lemma inv_up_keys F G N R np s p l : trie_inv F G N R np s -> G !! p = Some l -> exists t k, l = t :: k /\ up (atoms s) dpf_base t l.
Proof. intros Hi. apply (rt_up _ _ _ _ (ti_routes _ _ _ _ _ _ Hi)). Qed.

Definition leaf_atom q (i : ir) : atom := mkAtom q [] 0 0 0 i None.

(** A leaf below [q]. *)
Lemma inv_leaf F G N R s q xq k i K :
  trie_inv F G N R 0 s -> atoms s !! q = Some xq -> q <> done_atom -> at_ht xq = 0 -> K ≡ₚ brk s :: kids xq ->
  (forall a, a ∈ N -> a ∈ k) -> wf_eq i ->
  trie_inv F G (brk s :: k) R 0
    (set_atoms (<[brk s := leaf_atom q i]> (<[q := set_kids K xq]> (atoms s))) (set_brk (brk s + 1) s)).
Proof.
  intros Hi Hq Hd Hh HK HN Hw. destruct (inv_fresh _ _ _ _ _ _ Hi) as (F1 & F2 & F3 & F4). pose proof Hi as [SH RT TB AO (B1 & B2 & B3) KS SZ]. split; cbn.
  - by apply leaf_shape.
  - by eapply leaf_routes.
  - by eapply leaf_tabs.
  - by apply leaf_atoms_ok.
  - pose proof (inv_live _ _ _ _ _ _ _ _ Hi Hq). split_and!; [lia| |].
    + intros a Ha. rewrite !lookup_insert_ne by lia. apply B2. lia.
    + intros a Ha. apply B3. lia.
  - intros p l Hl. destruct (KS p l Hl) as (f & Hf & E). exists f. split; [done|]. rewrite <- E.
    destruct (rt_up _ _ _ _ RT p l Hl) as (t & j & _ & H). by eapply leaf_keys.
  - done.
Qed.

(** An atom that is not in the trie yet. *)
Lemma inv_root F G X s i : trie_inv F G X 0 0 s -> wf_eq i ->
  trie_inv F G (brk s :: X) (brk s) 0 (set_atoms (<[brk s := leaf_atom 0 i]> (atoms s)) (set_brk (brk s + 1) s)).
Proof.
  intros Hi Hw. destruct (inv_fresh _ _ _ _ _ _ Hi) as (F1 & F2 & F3 & F4). pose proof Hi as [SH RT TB AO (B1 & B2 & B3) KS SZ].
  assert (forall a x, atoms s !! a = Some x -> a <> brk s) as Hne by (intros; congruence).
  assert (forall a x, <[brk s := leaf_atom 0 i]> (atoms s) !! a = Some x -> (a = brk s /\ x = leaf_atom 0 i) \/ (a <> brk s /\ atoms s !! a = Some x)) as Hget.
  { intros a x. destruct (decide (a = brk s)) as [->|]; [rewrite lookup_insert_eq|rewrite lookup_insert_ne by done]; [intros [= <-]; by left|by right]. }
  assert (forall r a l, up (atoms s) r a l -> up (<[brk s := leaf_atom 0 i]> (atoms s)) r a l) as Hup.
  { intros r a l H. apply (up_same _ _ _ _ _ H). intros b x _ Hx. exists x. rewrite lookup_insert_ne; [done|]. symmetry. eauto. }
  assert (forall a, is_Some (atoms s !! a) -> is_Some (<[brk s := leaf_atom 0 i]> (atoms s) !! a)) as Hsome.
  { intros a [x Hx]. rewrite lookup_insert_ne; [eauto|]. symmetry. eauto. }
  split; cbn.
  - destruct SH as [(xb & B & B') (xd & D & D') Z ND KD P RO]. split.
    + exists xb. rewrite lookup_insert_ne by (symmetry; eauto). done.
    + exists xd. rewrite lookup_insert_ne by (symmetry; eauto). done.
    + by rewrite lookup_insert_ne.
    + intros a x [[-> ->]|[_ Hx]]%Hget; [constructor|eauto].
    + intros a x b [[-> ->]|[Hab Hx]]%Hget; cbn.
      * split; [by intros ?%not_elem_of_nil|]. intros (y & [[-> ->]|[_ Hy]]%Hget & E); [cbn in E; congruence|]. exfalso.
        destruct (decide (b = dpf_base)) as [->|]; [simplify_eq; destruct B'; lia|]. destruct (decide (b = done_atom)) as [->|]; [simplify_eq; destruct D'; lia|].
        destruct (P b y Hy (conj n n0)) as [z Hz]; [intros ->; congruence|]. congruence.
      * rewrite (KD a x b Hx). split; [intros (y & Hy & E); exists y; by rewrite lookup_insert_ne by (symmetry; eauto)|].
        intros (y & [[-> ->]|[_ Hy]]%Hget & E); [|eauto]. cbn in E. subst a. congruence.
    + intros b y [[-> ->]|[_ Hy]]%Hget Hib HR; [done|]. apply Hsome, (P b y Hy Hib). intros ->. congruence.
    + intros _. split; [done|]. exists (leaf_atom 0 i). by rewrite lookup_insert_eq.
  - destruct RT as [U C CN EN P]. split.
    + intros p l Hl. destruct (U p l Hl) as (t & k & -> & H). exists t, k. split; [done|by apply Hup].
    + intros a x [[-> ->]|[_ Hx]]%Hget Hia; [left; set_solver|]. destruct (C a x Hx Hia) as [H|H]; [left; set_solver|by right].
    + intros a x [[-> ->]|[_ Hx]]%Hget Hia; [|eauto]. cbn. symmetry. apply kcount_zero. intros p l Hl. cbn. apply bool_decide_eq_false_2.
      destruct (U p l Hl) as (t & j & _ & H). by eapply fresh_not_up.
    + intros p t k x Hl [[-> ->]|[_ Hx]]%Hget; [done|eauto].
    + intros a x [[-> ->]|[_ Hx]]%Hget Hp; [done|]. destruct (P a x Hx Hp) as [H|[E _]]; [by left|done].
  - destruct TB as [A I]. split.
    + intros a x [[-> ->]|[Hab Hx]]%Hget Hh; [done|]. eapply table_keep; [by apply (A a x)|done|done|done|done|done|]. intros b. split.
      * intros y Hy E. exists y. by rewrite lookup_insert_ne by (symmetry; eauto).
      * intros y [[-> ->]|[_ Hy]]%Hget E; [|eauto]. cbn in E. subst a. pose proof (sh_zero _ _ SH). congruence.
    + intros a a' x x' [[-> ->]|[_ Hx]]%Hget [[-> ->]|[_ Hx']]%Hget Hh E; try done; eauto.
  - destruct AO as [W L D]. split.
    + intros a x [[-> ->]|[_ Hx]]%Hget Hia; eauto.
    + intros a x [[-> ->]|[_ Hx]]%Hget Hia; [done|eauto].
    + intros x [[E _]|[_ Hx]]%Hget; [by destruct F4|eauto].
  - split_and!; [lia| |]; intros a Ha; [rewrite lookup_insert_ne by lia; apply B2; lia|apply B3; lia].
  - intros p l Hl. destruct (KS p l Hl) as (f & Hf & E). exists f. split; [done|]. rewrite <- E. apply keys_same.
    destruct (rt_up _ _ _ _ RT p l Hl) as (t & j & _ & H). intros b Hb. unfold akey. rewrite lookup_insert_ne; [done|].
    intros <-. by eapply fresh_not_up.
  - done.
Qed.

(** ** Attaching a string *)

Lemma up_retarget h h' r q t l R : up h r t (l ++ [R]) -> q ∉ l ++ [R] ->
  (forall b x, b ∈ l -> h !! b = Some x -> exists x', h' !! b = Some x' /\ parent x' = parent x) ->
  (exists y, h' !! R = Some y /\ parent y = q) -> up h' q t (l ++ [R]).
Proof.
  revert t. induction l as [|c l IH]; intros t H Hq Hs (y & Hy & Ey); cbn in *.
  - inversion H; subst. econstructor; [set_solver|done|]. constructor.
  - inversion H as [|? x ? ? Hx Hu]; subst. destruct (Hs c x ltac:(set_solver) Hx) as (x' & Hx' & E).
    econstructor; [set_solver|done|]. rewrite E. apply IH; [done|set_solver| |eauto]. intros b z Hb. apply Hs. set_solver.
Qed.

(** An atom of the trie is not on a string outside it. *)
Lemma outside h R t N q k : shape h R -> R <> 0 -> up h 0 t (N ++ [R]) -> up h dpf_base q k -> q ∉ N ++ [R].
Proof.
  intros SH HR H Hk Hq. destruct (sh_root _ _ SH HR) as ([Hb Hd] & y & Hy & Hp). destruct (sh_base _ _ SH) as (xb & B1 & B2 & _).
  destruct (up_mem _ _ _ _ q H Hq) as (l1 & l2 & E & H').
  assert (up h 0 q (k ++ [dpf_base])) as H2.
  { eapply up_app; [exact Hk| |].
    - econstructor; [done|done|]. rewrite B2. constructor.
    - intros b Hb' ->. destruct (up_in _ _ _ _ _ Hk Hb') as [[z Hz] _]. pose proof (sh_zero _ _ SH). congruence. }
  pose proof (up_det _ _ _ _ _ H' H2) as E2. rewrite E2, app_assoc in E. apply app_inj_tail in E as [_ E]. done.
Qed.

Section attach.
Context h (R : Z) (y : atom) q (xq : atom) (K : list Z) t (N k : list Z).
Hypothesis (SH : shape h R) (HR0 : R <> 0) (HR : h !! R = Some y) (Hq : h !! q = Some xq) (Hqd : q <> done_atom).
Hypothesis (HK : K ≡ₚ R :: kids xq) (Hup : up h 0 t (N ++ [R])) (Hk : up h dpf_base q k).
Let h' := <[q := set_kids K xq]> (<[R := set_parent q y]> h).

Lemma attach_ne : q <> R.
Proof. intros E. apply (outside _ _ _ _ _ _ SH HR0 Hup Hk). rewrite E. set_solver. Qed.
Lemma attach_root : y = set_parent 0 y.
Proof. destruct (sh_root _ _ SH HR0) as (_ & z & Hz & E). simplify_eq. destruct y; cbn in *. by rewrite E. Qed.
Lemma attach_R : h' !! R = Some (set_parent q y).
Proof. unfold h'. rewrite lookup_insert_ne by apply attach_ne. apply lookup_insert_eq. Qed.
Lemma attach_q : h' !! q = Some (set_kids K xq).
Proof. apply lookup_insert_eq. Qed.
Lemma attach_old a : a <> q -> a <> R -> h' !! a = h !! a.
Proof. intros. unfold h'. by rewrite !lookup_insert_ne. Qed.
Lemma attach_keep a x : h !! a = Some x -> exists x', h' !! a = Some x' /\ (a <> R -> parent x' = parent x) /\ at_ht x' = at_ht x /\ at_ir x' = at_ir x /\
  refcnt x' = refcnt x /\ pid x' = pid x /\ code x' = code x.
Proof.
  intros Hx. destruct (decide (a = q)) as [->|]; [|destruct (decide (a = R)) as [->|]].
  - simplify_eq. rewrite attach_q. eauto 10.
  - simplify_eq. rewrite attach_R. eexists. split; [done|]. done.
  - rewrite attach_old by done. eauto 10.
Qed.
Lemma attach_back a x' : h' !! a = Some x' -> exists x, h !! a = Some x /\ (a <> R -> parent x' = parent x) /\ at_ht x' = at_ht x /\ at_ir x' = at_ir x /\
  refcnt x' = refcnt x /\ pid x' = pid x /\ code x' = code x.
Proof.
  destruct (decide (a = q)) as [->|]; [rewrite attach_q; intros [= <-]; by exists xq|].
  destruct (decide (a = R)) as [->|]; [rewrite attach_R; intros [= <-]; by exists y|].
  rewrite attach_old by done. eauto 10.
Qed.

Lemma attach_akey a : akey h' a = akey h a.
Proof.
  unfold akey. destruct (h !! a) as [x|] eqn:Hx.
  - destruct (attach_keep a x Hx) as (x' & -> & _ & -> & -> & _). done.
  - destruct (h' !! a) as [x'|] eqn:Hx'; [|done]. destruct (attach_back a x' Hx') as (x & ? & _). congruence.
Qed.

Lemma attach_up a l : up h dpf_base a l -> up h' dpf_base a l.
Proof.
  intros H. apply (up_same _ _ _ _ _ H). intros b x Hb Hx. destruct (attach_keep b x Hx) as (x' & Hx' & E & _). exists x'. split; [done|].
  apply E. intros ->. destruct (up_mem _ _ _ _ _ H Hb) as (l1 & l2 & _ & H'). apply (outside _ _ _ _ _ _ SH HR0 Hup H'). set_solver.
Qed.

Lemma attach_way : up h' dpf_base t ((N ++ [R]) ++ k).
Proof.
  apply up_app with q; [|by apply attach_up|].
  - eapply up_retarget; [exact Hup|by eapply outside| |].
    + intros b x Hb Hx. destruct (attach_keep b x Hx) as (x' & Hx' & E & _). exists x'. split; [done|]. apply E. intros ->.
      apply up_NoDup in Hup. apply NoDup_app in Hup as (_ & Hup' & _). by apply (Hup' R Hb); set_solver.
    + exists (set_parent q y). split; [apply attach_R|done].
  - intros b Hb ->. destruct (sh_root _ _ SH HR0) as ([Hb' _] & z & Hz & Ez). destruct (sh_base _ _ SH) as (xb & B1 & B2 & _).
    eapply outside; [exact SH|exact HR0|exact Hup|constructor|exact Hb].
Qed.

Lemma attach_shape : shape h' 0.
Proof.
  pose proof SH as [(xb & B1 & B2 & B3 & B4 & B5) (xd & D1 & D2 & D3 & D4 & D5 & D6) Z ND KD P RT].
  destruct (RT HR0) as ([Hb Hd] & z & Hz & Ez). simplify_eq. split.
  - destruct (attach_keep _ _ B1) as (x' & Hx' & E1 & E2 & E3 & E4 & E5 & _). exists x'. rewrite E2, E3, E5, E1 by congruence. done.
  - exists xd. rewrite attach_old by congruence. done.
  - destruct (h' !! 0) as [x'|] eqn:E; [|done]. destruct (attach_back _ _ E) as (x & ? & _). congruence.
  - intros a x'. destruct (decide (a = q)) as [->|].
    + rewrite attach_q. intros [= <-]. cbn. rewrite HK. constructor; [|eauto].
      rewrite (KD q xq R Hq). intros (y' & Hy' & E). simplify_eq. congruence.
    + destruct (decide (a = R)) as [->|]; [rewrite attach_R; intros [= <-]; cbn; eauto|]. rewrite attach_old by done. eauto.
  - intros a x' b Hx'. transitivity ((b = R /\ a = q) \/ (b <> R /\ exists y, h !! b = Some y /\ parent y = a)).
    + assert (forall x, h !! a = Some x -> a <> q -> b ∈ kids x <-> (b = R /\ a = q) \/ (b <> R /\ exists y, h !! b = Some y /\ parent y = a)) as Hoth.
      { intros x Hx Hne. rewrite (KD a x b Hx). split; [|naive_solver]. intros (y' & Hy' & E). right. split; [|eauto]. intros ->. simplify_eq. congruence. }
      destruct (decide (a = q)) as [->|].
      * rewrite attach_q in Hx'. injection Hx' as <-. cbn. rewrite HK, elem_of_cons, (KD q xq b Hq). split; [|naive_solver].
        intros [->|(y' & Hy' & E)]; [by left|]. right. split; [|eauto]. intros ->. simplify_eq. congruence.
      * destruct (decide (a = R)) as [->|]; [rewrite attach_R in Hx'; injection Hx' as <-; cbn; by apply Hoth|].
        rewrite attach_old in Hx' by done. by apply Hoth.
    + split.
      * intros [[-> ->]|(Hne & y' & Hy' & E)]; [exists (set_parent q y); by rewrite attach_R|].
        destruct (attach_keep b y' Hy') as (z' & ? & E' & _). exists z'. split; [done|]. rewrite E' by done. done.
      * intros (y' & Hy' & E). destruct (decide (b = R)) as [->|Hne]; [left; rewrite attach_R in Hy'; by simplify_eq|].
        right. split; [done|]. destruct (attach_back b y' Hy') as (z' & ? & E' & _). exists z'. rewrite E' in E by done. done.
  - intros b y' Hy' Hi _. destruct (decide (b = R)) as [->|Hne].
    + rewrite attach_R in Hy'. injection Hy' as <-. cbn. rewrite attach_q. eauto.
    + destruct (attach_back b y' Hy') as (z' & Hz' & E' & _). rewrite E' by done. destruct (P b z' Hz' Hi Hne) as [w Hw].
      destruct (attach_keep _ w Hw) as (w' & ? & _). eauto.
  - done.
Qed.
End attach.

Lemma inv_attach F G X R np s y q xq K t N k :
  trie_inv F G ((N ++ [R]) ++ X) R np s -> (forall a, a ∈ X -> a ∈ k) -> R <> 0 -> atoms s !! R = Some y -> atoms s !! q = Some xq -> q <> done_atom -> at_ht xq = 0 ->
  K ≡ₚ R :: kids xq -> up (atoms s) 0 t (N ++ [R]) -> up (atoms s) dpf_base q k ->
  trie_inv F G ((N ++ [R]) ++ k) 0 np (set_atoms (<[q := set_kids K xq]> (<[R := set_parent q y]> (atoms s))) s).
Proof.
  intros [SH RT TB AO (B1 & B2 & B3) KS SZ] HE HR0 HR Hq Hd Hh HK Hup Hk.
  pose proof (attach_back _ _ _ _ _ K _ _ _ SH HR0 HR Hq Hd HK Hup Hk) as Hback. split; cbn.
  - by eapply attach_shape.
  - destruct RT as [U C CN EN P]. split.
    + intros p l Hl. destruct (U p l Hl) as (t' & j & -> & H). exists t', j. split; [done|by eapply attach_up].
    + intros a x Hx Hi. destruct (Hback a x Hx) as (z & Hz & _). destruct (C a z Hz Hi) as [H|H]; [left; set_solver|by right].
    + intros a x Hx Hi. destruct (Hback a x Hx) as (z & Hz & _ & _ & _ & -> & _). eauto.
    + intros p t' j x Hl Hx. destruct (Hback t' x Hx) as (z & Hz & _ & -> & _). eauto.
    + intros a x Hx Hi. destruct (Hback a x Hx) as (z & Hz & _ & _ & _ & _ & E & _). rewrite E in *. destruct (P a z Hz Hi) as [H|[E' [j Ej]]]; [by left|]. right. split; [done|].
      destruct N; cbn in *; simplify_eq; by eexists.
  - destruct TB as [A I]. split.
    + intros a x' Hx' Hn. assert (q <> R) as Hne by (by eapply attach_ne).
      destruct (decide (a = q)) as [->|Haq]; [rewrite lookup_insert_eq in Hx'; by injection Hx' as <-|].
      assert (exists x, atoms s !! a = Some x /\ kids x = kids x' /\ pid x = pid x' /\ at_ht x = at_ht x' /\ at_ir x = at_ir x') as (x & Hx & E1 & E2 & E3 & E4).
      { rewrite lookup_insert_ne in Hx' by done. destruct (decide (a = R)) as [->|]; [rewrite lookup_insert_eq in Hx'; injection Hx' as <-; eauto 10|].
        rewrite lookup_insert_ne in Hx' by done. eauto 10. }
      rewrite <- E3 in Hn. eapply table_keep; [by apply (A a x)|done|done|done|done|done|].
      pose proof (attach_keep _ _ _ _ _ K _ _ _ SH HR0 HR Hq Hd HK Hup Hk) as Hkeep. intros b. split.
      * intros z Hz E. destruct (Hkeep b z Hz) as (z' & Hz' & Ep & F2 & F3 & _). exists z'. assert (b <> R) as HbR.
        { intros ->. destruct (sh_root _ _ SH HR0) as (_ & w & Hw & Ew). assert (a = 0) as -> by congruence. by apply (shape_nz _ _ _ _ SH Hx). }
        split_and!; [done|rewrite Ep by done; done|done|done].
      * intros z' Hz' E. destruct (decide (b = R)) as [->|HbR].
        -- rewrite lookup_insert_ne, lookup_insert_eq in Hz' by done. injection Hz' as <-. cbn in E. congruence.
        -- destruct (Hback b z' Hz') as (z & Hz & Ep & F2 & F3 & _). exists z. rewrite <- Ep by done. done.
    + intros a a' x x' Hx Hx' Hn E. destruct (Hback a x Hx) as (z & Hz & _ & E1 & _). destruct (Hback a' x' Hx') as (z' & Hz' & _ & E2 & _).
      apply (I a a' z z'); congruence.
  - destruct AO as [W L D]. split.
    + intros a x Hx Hi. destruct (Hback a x Hx) as (z & Hz & _ & _ & -> & _). eauto.
    + intros a x Hx Hi. destruct (Hback a x Hx) as (z & Hz & _ & E1 & E2 & _ & _ & E3). specialize (L a z Hz Hi). unfold label_ok in *. by rewrite E1, E2, E3.
    + intros x Hx. destruct (Hback _ x Hx) as (z & Hz & _ & _ & _ & _ & _ & ->). eauto.
  - split_and!; [done| |done]. intros a Ha. destruct (_ !! a) as [x|] eqn:Hx; [|done]. destruct (Hback a x Hx) as (z & Hz & _). rewrite B2 in Hz by done. done.
  - intros p l Hl. destruct (KS p l Hl) as (f & Hf & E). exists f. split; [done|]. rewrite <- E. apply keys_same. intros b _. by eapply attach_akey.
  - done.
Qed.

(** ** [swizzle] *)

(** The trie is as before but for new atoms. *)
Definition frame (s s' : dpf) : Prop := hts s' = hts s /\ rest s' = rest s /\ dpf_overlap s' = dpf_overlap s.

Lemma frame_refl s : frame s s.
Proof. done. Qed.
Lemma frame_trans s1 s2 s3 : frame s1 s2 -> frame s2 s3 -> frame s1 s3.
Proof. intros (? & ? & ?) (? & ? & ?). unfold frame. split_and!; congruence. Qed.

Lemma wf_alignment z i : wf_eq i -> wf_eq (set_alignment z i).
Proof. done. Qed.

Lemma wf_noshift i : wf_eq i -> dpf_isshift i = false.
Proof. intros [E _]. unfold dpf_isshift. by rewrite E. Qed.

(** What a string is: [R] is its first atom, [N] lists it from the last one;
    [X] has the other new atoms. *)
Record string F G (X : list Z) (R : Z) (N : list Z) (ks : list (Z * Z * Z)) (last np : Z) (s : dpf) : Prop := {
  st_inv : trie_inv F G (N ++ X) R np s;
  st_R : R <> 0;
  st_end : exists k, N = k ++ [R];
  st_up : up (atoms s) 0 last N;
  st_last : inner last /\ exists x, atoms s !! last = Some x /\ at_ht x = 0;
  st_keys : keys (atoms s) N = ks }.

(** The last atom of a filter has no table. *)
Definition plain (s : dpf) a : Prop := inner a /\ exists x, atoms s !! a = Some x /\ at_ht x = 0.

Lemma plain_touch s s' a : touch (atoms s) (atoms s') -> plain s a -> plain s' a.
Proof. intros T (Ia & x & Hx & E). split; [done|]. destruct (touch_get _ _ _ _ T Hx) as (x' & Hx' & []). exists x'. split; [done|congruence]. Qed.

Lemma string_first F G X s i : trie_inv F G X 0 0 s -> wf_eq i ->
  string F G X (brk s) [brk s] [key i] (brk s) 0 (set_atoms (<[brk s := leaf_atom 0 i]> (atoms s)) (set_brk (brk s + 1) s)).
Proof.
  intros Hi Hw. destruct (inv_fresh _ _ _ _ _ _ Hi) as (F1 & F2 & F3 & F4). split; cbn; try done.
  - by apply inv_root.
  - by exists [].
  - econstructor; [done|apply lookup_insert_eq|]. constructor.
  - split; [done|]. eexists. by rewrite lookup_insert_eq.
  - rewrite keys_cons. unfold akey. by rewrite lookup_insert_eq.
Qed.

Lemma string_next F G X R N ks a s x i : string F G X R N ks a 0 s -> atoms s !! a = Some x -> wf_eq i ->
  string F G X R (brk s :: N) (ks ++ [key i]) (brk s) 0
    (set_atoms (<[brk s := leaf_atom a i]> (<[a := set_kids (brk s :: kids x) x]> (atoms s))) (set_brk (brk s + 1) s)).
Proof.
  intros [Hi HR [k Ek] Hu ([Ha Had] & x' & Hx' & Hh) Hks] Hx Hw. simplify_eq. destruct (inv_fresh _ _ _ _ _ _ Hi) as (F1 & F2 & F3 & F4).
  assert (a <> brk s) as Hne by congruence. split; cbn; try done.
  - by eapply inv_leaf.
  - exists (brk s :: k). done.
  - econstructor; [done|apply lookup_insert_eq|]. by apply leaf_up.
  - split; [done|]. eexists. by rewrite lookup_insert_eq.
  - rewrite keys_cons. erewrite leaf_keys by done. unfold akey. by rewrite lookup_insert_eq.
Qed.

Lemma insert_shadow h n a (u v w : atom) : n <> a -> <[n := u]> (<[a := v]> (<[n := w]> h)) = <[n := u]> (<[a := v]> h).
Proof. intros Hne. apply map_eq. intros c. destruct (decide (c = n)) as [->|]; [by rewrite !lookup_insert_eq|]. rewrite !(lookup_insert_ne _ n) by done.
  destruct (decide (c = a)) as [->|]; [by rewrite !lookup_insert_eq|]. by rewrite !lookup_insert_ne by done. Qed.

Lemma swizzle_loop_spec F G X R (l : list ir) : forall a first al N ks s,
  Forall wf_eq l -> string F G X R N ks a 0 s ->
  wlp (swizzle_loop l a first al) s (fun o s' => fst o = first /\ frame s s' /\
    (forall b x, atoms s !! b = Some x -> b ∉ N -> atoms s' !! b = Some x) /\
    exists N', string F G X R N' (ks ++ (key <$> l)) (snd o) 0 s' /\ forall b, b ∈ N' -> b ∈ N \/ atoms s !! b = None).
Proof.
  induction l as [|i l IH]; intros a first al N ks s Hw Hs; cbn [swizzle_loop].
  - wl. cbn. split_and!; try done. exists N. rewrite app_nil_r. split; [done|by left].
  - apply Forall_cons in Hw as [Hwi Hw]. rewrite (wf_noshift i Hwi). pose proof (st_inv _ _ _ _ _ _ _ _ _ Hs) as Hi.
    destruct (inv_fresh _ _ _ _ _ _ Hi) as (F1 & F2 & F3 & F4). pose proof (st_last _ _ _ _ _ _ _ _ _ Hs) as ([A1 A2] & x0 & Hx0 & _).
    assert (a <> brk s) as Hne by congruence. assert (a <> 0) as Ha0.
    { intros ->. pose proof (sh_zero _ _ (ti_shape _ _ _ _ _ _ Hi)). congruence. }
    unfold mkatom, calloc. wl. wl. wl. wl. wl. wl. wl. wl. wl. wl. rewrite (proj2 (Z.eqb_neq _ _) Ha0). unfold LIST_INSERT_HEAD. wl. wl. cbn in *.
    match goal with H : <[brk s := _]> _ !! a = Some ?x |- _ => rewrite lookup_insert_ne in H by done; assert (x = x0) as -> by congruence; clear H end.
    wl. wl. match goal with H : _ !! brk s = Some ?x |- _ => cbn in H; rewrite lookup_insert_ne, lookup_insert_eq in H by done; injection H as <- end.
    match goal with |- wlp (swizzle_loop _ _ _ _) ?t _ => replace t with
      (set_atoms (<[brk s := leaf_atom a (set_alignment (u8 al) i)]> (<[a := set_kids (brk s :: kids x0) x0]> (atoms s))) (set_brk (brk s + 1) s)) end.
    2: { unfold set_atoms, set_brk. cbn. f_equal. symmetry. by apply insert_shadow. }
    eapply wlp_mono; [apply IH; [done|by eapply string_next]|]. cbn. intros o s' (E1 & E2 & E3 & N' & HN' & HF). split_and!.
    + done.
    + by eapply frame_trans.
    + intros b x Hx Hb. apply E3; [|set_solver by congruence]. rewrite !lookup_insert_ne; [done| |congruence]. intros <-.
      apply Hb. pose proof (st_up _ _ _ _ _ _ _ _ _ Hs) as Hu. inversion Hu; subst; [congruence|set_solver].
    + exists N'. rewrite <- app_assoc in HN'. split; [done|]. intros b Hb. destruct (HF b Hb) as [[->|H]%elem_of_cons|H]; [by right|by left|]. right.
      cbn in H. rewrite !lookup_insert_None in H. naive_solver.
Qed.

(** The id of the new filter. *)
Lemma inv_setpid F G R p s a x k :
  trie_inv F G (a :: k) R 0 s -> atoms s !! a = Some x -> inner a -> at_ht x = 0 ->
  trie_inv F G (a :: k) R p (set_atoms (<[a := set_pid p x]> (atoms s)) s).
Proof.
  intros [SH RT TB AO (B1 & B2 & B3) KS SZ] Hx [Ha Hd] Hh. assert (touch (atoms s) (<[a := set_pid p x]> (atoms s))) as Ht by by eapply touch_insert.
  assert (forall b z, <[a := set_pid p x]> (atoms s) !! b = Some z -> (b = a /\ z = set_pid p x) \/ (b <> a /\ atoms s !! b = Some z)) as Hget.
  { intros b z. destruct (decide (b = a)) as [->|]; [rewrite lookup_insert_eq; intros [= <-]; by left|rewrite lookup_insert_ne by done; by right]. }
  split; cbn.
  - eapply touch_shape; [done| | |done]; intros z [[E _]|[_ Hz]]%Hget; try congruence.
    + destruct (sh_base _ _ SH) as (y & ? & ? & ? & ? & _). by simplify_eq.
    + destruct (sh_done _ _ SH) as (y & ? & ? & ? & ? & ? & _). by simplify_eq.
  - destruct RT as [U C CN EN P]. split.
    + intros q l Hl. destruct (U q l Hl) as (t & j & -> & H). exists t, j. split; [done|by eapply touch_up].
    + intros b z Hz. destruct (touch_back _ _ _ _ Ht Hz) as (y & Hy & _). by apply (C b y).
    + intros b z [[-> ->]|[_ Hz]]%Hget; [by apply (CN a x)|by apply CN].
    + intros q t j z Hl [[-> ->]|[_ Hz]]%Hget; [done|eauto].
    + intros b z [[-> ->]|[_ Hz]]%Hget Hp; [right; eauto|]. destruct (P b z Hz Hp) as [H|[E _]]; [by left|done].
  - eapply touch_tabs; [done| |done]. intros b z [[-> ->]|[_ Hz]]%Hget Hn; [done|]. by apply (tb_all _ _ TB b z).
  - destruct AO as [W L D]. split.
    + intros b z [[-> ->]|[_ Hz]]%Hget; [by apply (W a x)|by apply W].
    + intros b z [[-> ->]|[_ Hz]]%Hget; [by apply (L a x)|by apply L].
    + intros z [[E _]|[_ Hz]]%Hget; [congruence|by apply D].
  - split_and!; [done| |done]. intros b Hb. eapply touch_none; [done|]. by apply B2.
  - intros q l Hl. rewrite (touch_keys _ _ _ Ht). by apply KS.
  - done.
Qed.

Lemma swizzle_spec F G X p (l : list ir) al s :
  trie_inv F G X 0 0 s -> Forall wf_eq l -> l <> [] ->
  wlp (swizzle l p al) s (fun o s' => frame s s' /\ (forall b x, atoms s !! b = Some x -> atoms s' !! b = Some x) /\
    exists N, string F G X (fst o) N (key <$> l) (snd o) p s').
Proof.
  intros Hi Hw Hl. destruct l as [|i l]; [done|]. apply Forall_cons in Hw as [Hwi Hw]. destruct (inv_fresh _ _ _ _ _ _ Hi) as (F1 & F2 & F3 & F4).
  unfold swizzle. wl. cbn [swizzle_loop]. rewrite (wf_noshift i Hwi). unfold mkatom, calloc. repeat wl. cbn [Z.eqb]. repeat wl.
  match goal with H : _ !! brk s = Some ?x |- _ => cbn in H; rewrite lookup_insert_eq in H; injection H as <- end.
  match goal with |- wlp (swizzle_loop _ _ _ _) ?t _ => replace t with
    (set_atoms (<[brk s := leaf_atom 0 (set_alignment (u8 al) i)]> (atoms s)) (set_brk (brk s + 1) s)) end.
  2: { unfold set_atoms, set_brk. cbn. f_equal. by rewrite insert_insert_eq. }
  eapply wlp_mono; [apply swizzle_loop_spec; [done|by apply string_first]|]. cbn. intros o s1 (E1 & E2 & E3 & N & [Si SR Se Su (Sl & x & Hx & Hh) Sk] & HF).
  assert (snd o <> 0) as Hn0. { intros E. pose proof (sh_zero _ _ (ti_shape _ _ _ _ _ _ Si)). congruence. }
  rewrite (proj2 (Z.eqb_neq _ _) Hn0). repeat wl. simplify_eq. split_and!.
  - by eapply frame_trans.
  - intros b z Hz. cbn. assert (b <> brk s) by congruence. destruct (decide (b = snd o)) as [->|].
    + exfalso. destruct (up_inv _ _ _ _ Su Hn0) as (y & k & _ & -> & _). destruct (HF (snd o) ltac:(set_solver)) as [Hc|Hc]; [set_solver|].
      rewrite lookup_insert_ne in Hc by done. congruence.
    + rewrite lookup_insert_ne by done. apply E3; [by rewrite lookup_insert_ne|set_solver].
  - exists N. destruct (up_inv _ _ _ _ Su Hn0) as (z & k & _ & -> & _).
    assert (touch (atoms s1) (<[snd o := set_pid p x]> (atoms s1))) as Ht by by eapply touch_insert.
    split; cbn; try done.
    + rewrite E1. by apply inv_setpid.
    + by rewrite E1.
    + destruct Se as [k0 Ek]. exists k0. by rewrite E1.
    + by eapply touch_up.
    + split; [done|]. exists (set_pid p x). by rewrite lookup_insert_eq.
    + by rewrite (touch_keys _ _ _ Ht).
Qed.

(** ** [insert_or] *)

Lemma insert_before_perm a n l : a ∈ l -> insert_before a n l ≡ₚ n :: l.
Proof.
  induction l as [|b l IH]; intros Ha; [by apply not_elem_of_nil in Ha|]. cbn. destruct (Z.eqb_spec b a) as [->|Hne]; [done|].
  rewrite IH by set_solver. constructor.
Qed.
Lemma insert_after_perm a n l : a ∈ l -> insert_after a n l ≡ₚ n :: l.
Proof.
  induction l as [|b l IH]; intros Ha; [by apply not_elem_of_nil in Ha|]. cbn. destruct (Z.eqb_spec b a) as [->|Hne]; [constructor|].
  rewrite IH by set_solver. constructor.
Qed.

Lemma kid_inner h R q xq b : shape h R -> h !! q = Some xq -> b ∈ kids xq ->
  inner b /\ b <> R /\ exists y, h !! b = Some y /\ parent y = q.
Proof.
  intros SH Hq Hb. pose proof (shape_nz _ _ _ _ SH Hq) as Hq0. apply (sh_kids _ _ SH q xq b Hq) in Hb as (y & Hy & E).
  destruct (sh_base _ _ SH) as (xb & B1 & B2 & _). destruct (sh_done _ _ SH) as (xd & D1 & D2 & _).
  split_and!; [split; congruence| |eauto]. intros ->.
  destruct (decide (R = 0)) as [->|HR]; [pose proof (sh_zero _ _ SH); congruence|]. destruct (sh_root _ _ SH HR) as (_ & z & ? & ?). congruence.
Qed.

Lemma or_walk_spec nb l succ s :
  wlp (or_walk nb l succ) s (fun o s' => s' = s /\ (snd o ∈ l \/ snd o = 0 /\ (l = [] /\ fst o = succ \/ fst o ∈ l))).
Proof.
  revert succ. induction l as [|a l IH]; intros succ; cbn [or_walk]; [wl; cbn; tauto|]. repeat wl.
  destruct (_ <? nb); [wl; cbn; set_solver|]. eapply wlp_mono; [apply IH|]. cbn. intros o s' (-> & Ho). split; [done|].
  destruct Ho as [Ho|(E & [(-> & ->)|Ho])]; set_solver.
Qed.

Lemma insert_swap h (a b : Z) (u v : atom) : a <> b -> <[a := u]> (<[b := v]> h) = <[b := v]> (<[a := u]> h).
Proof. intros. by apply insert_insert_ne. Qed.

Lemma insert_or_spec F G R N ks last np s q xq a k :
  string F G [] R N ks last np s -> atoms s !! q = Some xq -> a ∈ kids xq -> q <> done_atom -> at_ht xq = 0 -> up (atoms s) dpf_base q k ->
  wlp (insert_or a R) s (fun _ s' => trie_inv F G (N ++ k) 0 np s' /\ frame s s' /\ plain s' last /\ up (atoms s') dpf_base last (N ++ k) /\
    keys (atoms s') (N ++ k) = keys (atoms s) k ++ ks).
Proof.
  intros [Si SR [N0 ->] Su Sl Sk] Hq Ha Hqd Hh Hk. pose proof (ti_shape _ _ _ _ _ _ Si) as SH.
  destruct (kid_inner _ _ _ _ _ SH Hq Ha) as (Ia & HaR & y & Hy & Ey). destruct (sh_root _ _ SH SR) as (IR & yR & HyR & ER).
  assert (q <> R) as HqR by (by eapply attach_ne). set (h2 := fun K => <[q := set_kids K xq]> (<[R := set_parent q yR]> (atoms s))).
  assert (forall K, K ≡ₚ R :: kids xq -> trie_inv F G ((N0 ++ [R]) ++ k) 0 np (set_atoms (h2 K) s) /\ plain (set_atoms (h2 K) s) last /\
    up (h2 K) dpf_base last ((N0 ++ [R]) ++ k) /\ keys (h2 K) ((N0 ++ [R]) ++ k) = keys (atoms s) k ++ ks) as Hinv.
  { intros K HK. split_and!; [eapply (inv_attach _ _ []); try done; set_solver| |by eapply attach_way|].
    { destruct Sl as (Il & z & Hz & Ez). split; [done|]. destruct (attach_keep _ _ _ _ _ K _ _ _ SH SR HyR Hq Hqd HK Su Hk last z Hz) as (z' & Hz' & _ & E & _).
      exists z'. split; [done|congruence]. }
    rewrite keys_app, <- Sk. f_equal; apply keys_same; intros; by eapply attach_akey. }
  assert (forall b K s', K ≡ₚ R :: kids xq -> b <> done_atom -> trie_inv F G ((N0 ++ [R]) ++ k) 0 np s' -> relabel (h2 K) (atoms s') -> frame s s' ->
    wlp (dpf_compile_atom b) s' (fun _ s' => trie_inv F G ((N0 ++ [R]) ++ k) 0 np s' /\ relabel (h2 K) (atoms s') /\ frame s s')) as Hcomp.
  { intros b K s' HK Hb Hi' Hr (E1 & E2 & E3). eapply compile_inv; [done|done|]. intros s2 Hi2 Hr2 F1 F2 F3. split_and!; [done|by eapply relabel_trans|].
    unfold frame. split_and!; congruence. }
  assert (forall K s', K ≡ₚ R :: kids xq -> trie_inv F G ((N0 ++ [R]) ++ k) 0 np s' -> relabel (h2 K) (atoms s') -> frame s s' ->
    trie_inv F G ((N0 ++ [R]) ++ k) 0 np s' /\ frame s s' /\ plain s' last /\ up (atoms s') dpf_base last ((N0 ++ [R]) ++ k) /\
    keys (atoms s') ((N0 ++ [R]) ++ k) = keys (atoms s) k ++ ks) as Hfin.
  { intros K s' HK Hi' Hr Hf. destruct (Hinv K HK) as (_ & Hpl & U & E). pose proof (relabel_touch _ _ Hr) as Ht.
    split_and!; [done|done|by eapply plain_touch, Hpl|by eapply touch_up|]. by rewrite (touch_keys _ _ _ Ht). }
  set (s1 := set_atoms (<[R := set_parent q yR]> (atoms s)) s).
  assert (forall b (f : list Z -> list Z) (Q : unit -> dpf -> Prop), b ∈ kids xq -> f (kids xq) ≡ₚ R :: kids xq -> Q tt (set_atoms (h2 (f (kids xq))) s) ->
    wlp (x <- get_atom b ;; upd_atom (parent x) (fun p : atom => set_kids (f (kids p)) p)) s1 Q) as Hlink.
  { intros b f Q Hb Hf HQ. destruct (kid_inner _ _ _ _ _ SH Hq Hb) as (_ & HbR & z & Hz & Ez). wl. apply wlp_get_atom. intros z' Hz'. cbn in Hz'.
    rewrite lookup_insert_ne in Hz' by congruence. assert (z' = z) as -> by congruence. rewrite Ez. apply wlp_upd_atom. intros x Hx. cbn in Hx. rewrite lookup_insert_ne in Hx by congruence. by simplify_eq. }
  unfold insert_or. wl. apply wlp_get_atom. intros x Hx. assert (x = y) as -> by congruence. rewrite Ey. wl. apply wlp_upd_atom. intros x2 Hx2. assert (x2 = yR) as -> by congruence. change (set_atoms (<[R := set_parent q yR]> (atoms s)) s) with s1.
  wl. apply wlp_get_atom. intros x _. wl. apply wlp_get_atom. intros x' Hx'. cbn in Hx'. rewrite lookup_insert_ne in Hx' by congruence. assert (x' = xq) as -> by congruence.
  wl. eapply wlp_mono; [apply or_walk_spec|]. cbn. intros o s' (-> & Ho).
  destruct (Z.eqb_spec (snd o) 0) as [E0|E0]; cbn.
  - assert (fst o ∈ kids xq) as Hfo.
    { destruct Ho as [Ho|(_ & [(E & _)|Ho])]; [|by rewrite E in Ha; apply not_elem_of_nil in Ha|done].
      destruct (kid_inner _ _ _ _ _ SH Hq Ho) as (_ & _ & z & Hz & _). rewrite E0 in Hz. pose proof (sh_zero _ _ SH). congruence. }
    destruct (kid_inner _ _ _ _ _ SH Hq Hfo) as ([_ Hfd] & _). wl. pose proof (insert_after_perm (fst o) R (kids xq) Hfo) as HK.
    apply (Hlink (fst o) (insert_after (fst o) R)); [done|done|]. eapply wlp_mono; [eapply Hcomp; [exact HK|done|by apply Hinv|apply relabel_refl|done]|].
    intros [] s' (? & ? & ?). by apply (Hfin _ s' HK).
  - assert (snd o ∈ kids xq) as Hso by tauto. destruct (kid_inner _ _ _ _ _ SH Hq Hso) as ([_ Hsd] & HsR & z & Hz & Ez).
    wl. pose proof (insert_before_perm (snd o) R (kids xq) Hso) as HK. apply (Hlink (snd o) (insert_before (snd o) R)); [done|done|].
    destruct (fst o =? 0); [|wl; apply (Hfin _ _ HK); [by apply Hinv|apply relabel_refl|done]].
    wl. eapply wlp_mono; [eapply Hcomp; [exact HK|done|by apply Hinv|apply relabel_refl|done]|]. intros [] s2 (I2 & R2 & F2).
    wl. apply wlp_get_atom. intros w Hw. destruct (touch_back _ _ _ _ (relabel_touch _ _ R2) Hw) as (w' & Hw' & [Ew _ _ _]).
    assert (parent w = q) as Epw.
    { rewrite Ew. unfold h2 in Hw'. destruct (decide (snd o = q)) as [Eo|Hne].
      - exfalso. rewrite Eo in Hz. simplify_eq. destruct (up_inv _ _ _ _ Hk) as (v & j & Hv & Ek & Hj); [|].
        + intros Eb. rewrite Eb in Hq. destruct (sh_base _ _ SH) as (xb & B1 & B2 & _). rewrite Eb in *. simplify_eq. congruence.
        + simplify_eq. rewrite Ez in Hj. pose proof (up_det _ _ _ _ _ Hj Hk) as E. apply (f_equal length) in E. cbn in E. lia.
      - rewrite !lookup_insert_ne in Hw' by done. congruence. }
    eapply wlp_mono; [eapply Hcomp; [exact HK| |done|done|done]; congruence|]. intros [] s' (? & ? & ?). by apply (Hfin _ s' HK).
Qed.

(** ** A node with a table above an atom *)

Lemma insert_after_notin a d l : a ∉ l -> insert_after a d l = l.
Proof. induction l as [|b l IH]; intros Ha; [done|]. cbn. destruct (Z.eqb_spec b a) as [->|]; [set_solver|]. f_equal. apply IH. set_solver. Qed.

Lemma insert_after_elem a d l b : b ∈ insert_after a d l <-> b ∈ l \/ (b = d /\ a ∈ l).
Proof.
  induction l as [|c l IH]; cbn; [set_solver|]. destruct (Z.eqb_spec c a) as [->|Hne]; rewrite ?elem_of_cons; [set_solver|].
  rewrite IH. set_solver.
Qed.

Lemma insert_after_cons a d t l : exists l', insert_after a d (t :: l) = t :: l'.
Proof. cbn. destruct (t =? a); eauto. Qed.

Lemma cnt_fmap G b (f : list Z -> list Z) c : (forall p l, G !! p = Some l -> b ∈ f l <-> c ∈ l) -> cnt (f <$> G) b = cnt G c.
Proof.
  unfold cnt. revert f. induction G as [|p l G Hp IH] using map_ind; intros f Hf; [by rewrite fmap_empty|].
  rewrite fmap_insert, !kcount_insert_new by (rewrite ?lookup_fmap, ?Hp; done). cbn.
  rewrite IH by (intros p' l' Hl'; apply (Hf p'); rewrite lookup_insert_ne; [done|congruence]). f_equal. f_equal.
  apply bool_decide_ext. apply (Hf p). by rewrite lookup_insert_eq.
Qed.

Section newht.
Context h a (x : atom) q (xq : atom) (d : Z) (dx : atom).
Hypothesis (SH : shape h 0) (Ha : h !! a = Some x) (Ia : inner a) (Hq : h !! q = Some xq) (Hp : parent x = q) (Hqa : q <> a).
Hypothesis (Hd : h !! d = None) (Hd0 : d <> 0) (Id : inner d).
Hypothesis (Hdx : parent dx = q /\ kids dx = [a] /\ refcnt dx = refcnt x /\ pid dx = 0 /\ at_ir dx = at_ir x /\ code dx = None /\ at_ht dx <> 0).
Let K := list_remove a (insert_before a d (kids xq)).
Let h' := <[a := set_parent d x]> (<[d := dx]> (<[q := set_kids K xq]> h)).

Lemma newht_q : q <> done_atom.
Proof.
  destruct (sh_done _ _ SH) as (xd & D1 & _ & D3 & _). intros ->. simplify_eq.
  assert (a ∈ kids xq) as Hin by (apply (sh_kids _ _ SH _ _ a Hq); eauto). rewrite D3 in Hin. by apply not_elem_of_nil in Hin.
Qed.
Lemma newht_ne : a <> d /\ q <> d.
Proof. split; congruence. Qed.
Lemma newht_a : h' !! a = Some (set_parent d x).
Proof. apply lookup_insert_eq. Qed.
Lemma newht_d : h' !! d = Some dx.
Proof. destruct newht_ne. unfold h'. rewrite lookup_insert_ne by done. apply lookup_insert_eq. Qed.
Lemma newht_qx : h' !! q = Some (set_kids K xq).
Proof. destruct newht_ne. unfold h'. rewrite !lookup_insert_ne by congruence. apply lookup_insert_eq. Qed.
Lemma newht_old b : b <> a -> b <> d -> b <> q -> h' !! b = h !! b.
Proof. intros. unfold h'. by rewrite !lookup_insert_ne by congruence. Qed.
Lemma newht_keep b y : h !! b = Some y -> exists y', h' !! b = Some y' /\ (b <> a -> parent y' = parent y) /\ at_ht y' = at_ht y /\ at_ir y' = at_ir y /\
  refcnt y' = refcnt y /\ pid y' = pid y /\ code y' = code y.
Proof.
  intros Hy. destruct (decide (b = a)) as [->|]; [rewrite newht_a; eexists; split; [done|]; by simplify_eq|].
  destruct (decide (b = q)) as [->|]; [rewrite newht_qx; eexists; split; [done|]; by simplify_eq|].
  assert (b <> d) by congruence. rewrite newht_old by done. eauto 10.
Qed.
Lemma newht_back b y' : h' !! b = Some y' -> (b = d /\ y' = dx) \/ (b <> d /\ exists y, h !! b = Some y /\ (b <> a -> parent y' = parent y) /\ at_ht y' = at_ht y /\ at_ir y' = at_ir y /\
  refcnt y' = refcnt y /\ pid y' = pid y /\ code y' = code y).
Proof.
  destruct newht_ne as [N1 N2]. intros Hy'. destruct (decide (b = a)) as [->|]; [rewrite newht_a in Hy'; injection Hy' as <-; right; split; [done|]; by exists x|].
  destruct (decide (b = d)) as [->|]; [rewrite newht_d in Hy'; injection Hy' as <-; by left|].
  destruct (decide (b = q)) as [->|]; [rewrite newht_qx in Hy'; injection Hy' as <-; right; split; [done|]; by exists xq|].
  rewrite newht_old in Hy' by done. right. eauto 10.
Qed.

Lemma newht_akey b : b <> d -> akey h' b = akey h b.
Proof.
  intros Hne. unfold akey. destruct (h !! b) as [y|] eqn:Hy.
  - destruct (newht_keep b y Hy) as (y' & -> & _ & -> & -> & _). done.
  - destruct (h' !! b) as [y'|] eqn:Hy'; [|done]. destruct (newht_back b y' Hy') as [[-> _]|(_ & y & ? & _)]; [done|congruence].
Qed.
Lemma newht_akey_d : akey h' d = None.
Proof. unfold akey. rewrite newht_d. destruct (Z.eqb_spec (at_ht dx) 0); [|done]. by destruct Hdx as (_ & _ & _ & _ & _ & _ & []). Qed.

Lemma newht_keys r t l : up h r t l -> keys h' (insert_after a d l) = keys h l.
Proof.
  intros Hu. pose proof (fresh_not_up _ _ _ _ _ Hu Hd) as Hdl. clear Hu. induction l as [|b l IH]; [done|]. cbn.
  assert (akey h' b = akey h b) as Eb by (apply newht_akey; set_solver). destruct (Z.eqb_spec b a) as [->|].
  - rewrite !keys_cons, Eb, newht_akey_d, app_nil_r. f_equal. apply keys_same. intros c Hc. apply newht_akey. set_solver.
  - rewrite !keys_cons, Eb. f_equal. apply IH. set_solver.
Qed.

(** Below [a] nothing changes. *)
Lemma newht_up_old r t l : up h r t l -> a ∉ l -> up h' r t l.
Proof.
  intros H Hn. apply (up_same _ _ _ _ _ H). intros b y Hb Hy. destruct (newht_keep b y Hy) as (y' & ? & E & _). exists y'. split; [done|]. apply E. set_solver.
Qed.

Lemma newht_up t l : up h dpf_base t l -> up h' dpf_base t (insert_after a d l).
Proof.
  destruct Hdx as (E1 & _). induction 1 as [|t y l Hr Hy Hu IH]; [constructor|]. cbn. destruct (Z.eqb_spec t a) as [->|Hne].
  - assert (a ∉ l) as Hnl. { intros Hin. pose proof (up_NoDup _ _ _ _ ltac:(by eapply up_step)) as ND. apply NoDup_cons in ND as [ND _]. done. }
    econstructor; [done|apply newht_a|]. cbn. econstructor; [apply Id|apply newht_d|]. rewrite E1. assert (y = x) as -> by congruence. rewrite Hp in Hu. by apply newht_up_old.
  - destruct (newht_keep t y Hy) as (y' & Hy' & E & _). econstructor; [done|done|]. by rewrite E.
Qed.

Lemma newht_K b : b ∈ K <-> b <> a /\ (b = d \/ b ∈ kids xq).
Proof.
  assert (a ∈ kids xq) as Hin by (apply (sh_kids _ _ SH _ _ a Hq); eauto).
  unfold K, list_remove. rewrite list_elem_of_filter, (insert_before_perm a d _ Hin). set_solver.
Qed.
Lemma newht_K_nodup : NoDup K.
Proof.
  assert (a ∈ kids xq) as Hin by (apply (sh_kids _ _ SH _ _ a Hq); eauto). unfold K, list_remove. apply NoDup_filter.
  rewrite (insert_before_perm a d _ Hin). constructor; [|by eapply sh_nodup]. intros H. apply (sh_kids _ _ SH _ _ d Hq) in H as (y & ? & _). congruence.
Qed.

Lemma newht_shape : shape h' 0.
Proof.
  pose proof newht_q as Hqd. destruct newht_ne as [N1 N2]. destruct Hdx as (E1 & E2 & E3 & E4 & E5 & E6 & E7). destruct Ia as [Ia1 Ia2]. destruct Id as [Id1 Id2].
  pose proof SH as [(xb & B1 & B2 & B3 & B4 & B5) (xd & D1 & D2 & D3 & D4 & D5 & D6) Z ND KD P RT]. split.
  - destruct (newht_keep _ _ B1) as (x' & Hx' & F1 & F2 & F3 & F4 & F5 & _). exists x'. rewrite F2, F3, F5, F1 by congruence. done.
  - exists xd. rewrite newht_old by congruence. done.
  - rewrite newht_old; try congruence; intros E; subst; congruence.
  - intros b y'. destruct (decide (b = a)) as [->|]; [rewrite newht_a; intros [= <-]; cbn; eauto|].
    destruct (decide (b = d)) as [->|]; [rewrite newht_d; intros [= <-]; rewrite E2; apply NoDup_singleton|].
    destruct (decide (b = q)) as [->|]; [rewrite newht_qx; intros [= <-]; apply newht_K_nodup|]. rewrite newht_old by done. eauto.
  - intros b y' c Hy'. transitivity ((c = a /\ b = d) \/ (c = d /\ b = q) \/ (c <> a /\ exists y, h !! c = Some y /\ parent y = b)).
    + assert (forall y, h !! b = Some y -> b <> q -> c ∈ kids y <-> c <> a /\ exists y, h !! c = Some y /\ parent y = b) as Hoth.
      { intros y Hy Hne. rewrite (KD b y c Hy). split; [|naive_solver]. intros (z & Hz & Ez). split; [|eauto]. intros ->. congruence. }
      destruct (decide (b = a)) as [->|]; [rewrite newht_a in Hy'; injection Hy' as <-; cbn; rewrite (Hoth x) by congruence; naive_solver|].
      destruct (decide (b = d)) as [->|].
      { rewrite newht_d in Hy'. injection Hy' as <-. rewrite E2, list_elem_of_singleton. split; [by left; split|]. intros [[-> _]|[[-> ?]|(_ & z & Hz & Ez)]]; [done|congruence|].
        exfalso. destruct (decide (c = dpf_base)) as [->|]; [congruence|]. destruct (decide (c = done_atom)) as [->|]; [congruence|].
        destruct (P c z Hz (conj n0 n1)) as [w Hw]; [intros ->; congruence|]. congruence. }
      destruct (decide (b = q)) as [->|].
      { rewrite newht_qx in Hy'. injection Hy' as <-. cbn. rewrite newht_K, (KD q xq c Hq). naive_solver. }
      rewrite newht_old in Hy' by done. rewrite (Hoth y') by done. naive_solver.
    + split.
      * intros [[-> ->]|[[-> ->]|(Hne & y & Hy & E)]]; [exists (set_parent d x); by rewrite newht_a|exists dx; by rewrite newht_d|].
        destruct (newht_keep c y Hy) as (z & ? & E' & _). exists z. by rewrite E'.
      * intros (y & Hy & E). destruct (decide (c = a)) as [->|Hca]; [rewrite newht_a in Hy; injection Hy as <-; left; by cbn in E|].
        destruct (newht_back c y Hy) as [[-> ->]|(Hcd & z & Hz & E' & _)]; [right; left; split; congruence|]. right; right. split; [done|]. exists z. by rewrite <- E'.
  - intros b y Hy Hi _. assert (forall c, is_Some (h !! c) -> is_Some (h' !! c)) as Hmono.
    { intros c [z Hz]. destruct (newht_keep c z Hz) as (z' & ? & _). eauto. }
    destruct (decide (b = a)) as [->|Hba]; [rewrite newht_a in Hy; injection Hy as <-; cbn; rewrite newht_d; eauto|].
    destruct (newht_back b y Hy) as [[-> ->]|(Hbd & z & Hz & E' & _)]; [rewrite E1, newht_qx; eauto|]. rewrite E' by done. apply Hmono, (P b z Hz Hi). intros ->. congruence.
  - done.
Qed.

Lemma newht_routes G : routes h G [] 0 -> routes h' (insert_after a d <$> G) [] 0.
Proof.
  intros [U C CN EN P]. destruct Hdx as (E1 & E2 & E3 & E4 & E5 & E6 & E7).
  assert (forall p l, G !! p = Some l -> d ∉ l) as Hdl. { intros p l Hl. destruct (U p l Hl) as (t & k & _ & H). by eapply fresh_not_up. }
  split.
  - intros p l. rewrite lookup_fmap. intros (l0 & Hl0 & ->)%fmap_Some. destruct (U p l0 Hl0) as (t & k & -> & H).
    destruct (insert_after_cons a d t k) as [k' Ek]. exists t, k'. split; [done|]. by apply newht_up.
  - intros b y Hy Hi. right. assert (exists c, (c = b \/ c = a /\ b = d) /\ exists z, h !! c = Some z /\ inner c) as (c & Hc & z & Hz & Ic).
    { destruct (newht_back b y Hy) as [[-> _]|(_ & z & Hz & _)]; [exists a; split; [by right|by exists x]|exists b; split; [by left|by exists z]]. }
    destruct (C c z Hz Ic) as [H|(p & l & Hl & Hin)]; [by apply not_elem_of_nil in H|]. exists p, (insert_after a d l). rewrite lookup_fmap, Hl. split; [done|].
    apply insert_after_elem. naive_solver.
  - intros b y Hy Hi. destruct (newht_back b y Hy) as [[-> ->]|(Hbd & z & Hz & _ & _ & _ & -> & _)].
    + rewrite E3, (cnt_fmap G d _ a); [by apply (CN a x)|]. intros p l Hl. rewrite insert_after_elem. specialize (Hdl p l Hl). naive_solver.
    + rewrite (cnt_fmap G b _ b); [by apply (CN b z)|]. intros p l Hl. rewrite insert_after_elem. naive_solver.
  - intros p t j y. rewrite lookup_fmap. intros (l0 & Hl0 & El)%fmap_Some Hy. destruct (U p l0 Hl0) as (t' & k & -> & H).
    destruct (insert_after_cons a d t' k) as [k' Ek]. assert (t = t') as -> by congruence. destruct (newht_back t' y Hy) as [[-> ->]|(Hbd & z & Hz & _ & -> & _)]; [|by apply (EN p t' k z)].
    exfalso. apply (Hdl p _ Hl0). set_solver.
  - intros b y Hy Hpid. destruct (newht_back b y Hy) as [[-> ->]|(Hbd & z & Hz & _ & _ & _ & _ & E & _)]; [done|]. rewrite E in *.
    destruct (P b z Hz Hpid) as [[l Hl]|[E0 _]]; [|done]. left. rewrite lookup_fmap, Hl. cbn [fmap option_fmap option_map].
    destruct (insert_after_cons a d b l) as [k' Ek]. exists k'. by rewrite Ek.
Qed.

Lemma newht_atoms_ok : atoms_ok h -> atoms_ok h'.
Proof.
  intros [W L D]. destruct Hdx as (E1 & E2 & E3 & E4 & E5 & E6 & E7). split.
  - intros b y Hy Hi. destruct (newht_back b y Hy) as [[-> ->]|(Hbd & z & Hz & _ & _ & -> & _)]; [rewrite E5; by apply (W a x)|by apply (W b z)].
  - intros b y Hy Hi. destruct (newht_back b y Hy) as [[-> ->]|(Hbd & z & Hz & _ & F1 & F2 & _ & _ & F3)]; [unfold label_ok; by rewrite E6|].
    specialize (L b z Hz Hi). unfold label_ok in *. by rewrite F1, F2, F3.
  - intros y Hy. destruct (newht_back _ y Hy) as [[E _]|(Hbd & z & Hz & _ & _ & _ & _ & _ & ->)]; [by destruct Id|by apply D].
Qed.

Lemma newht_tabs hs (t : ht) : at_ht x = 0 -> at_ht xq = 0 -> hs !! at_ht dx = None -> ent t = 1 ->
  buckets t = {[ hash t (val (at_ir x)) := [a] ]} -> tabs h hs -> tabs h' (<[at_ht dx := t]> hs).
Proof.
  intros Hx0 Hq0 Hfr Ht Hb [A I]. destruct newht_ne as [N1 N2]. destruct Hdx as (E1 & E2 & E3 & E4 & E5 & E6 & E7). split.
  - intros b y Hy Hh. destruct (newht_back b y Hy) as [[-> ->]|(Hbd & z & Hz & Ep & F1 & F2 & F3 & F4 & F5)].
    + assert (forall c z, h' !! c = Some z -> parent z = d -> c = a /\ z = set_parent d x) as Honly.
      { intros c z Hz Ez. assert (c = a) as ->; [|rewrite newht_a in Hz; by injection Hz as <-].
        assert (c ∈ kids dx) as Hin; [|rewrite E2 in Hin; set_solver]. apply (sh_kids _ _ newht_shape d dx c newht_d). eauto. }
      split; [done| |].
      * exists t. rewrite lookup_insert_eq, E2. split_and!; [done|done|]. split.
        -- intros k l c Hl Hc. rewrite Hb in Hl. apply lookup_singleton_Some in Hl as [<- <-]. apply list_elem_of_singleton in Hc as ->.
           exists (set_parent d x). by rewrite newht_a.
        -- intros c z Hz Ez. destruct (Honly c z Hz Ez) as [-> ->]. cbn. unfold bucket. rewrite Hb, lookup_singleton_eq. cbn. set_solver.
        -- intros c c' z z' Hz Hz' Ez Ez' _. destruct (Honly c z Hz Ez) as [-> _]. by destruct (Honly c' z' Hz' Ez') as [-> _].
      * intros c z Hz Ez. destruct (Honly c z Hz Ez) as [-> ->]. rewrite E5. done.
    + rewrite F1 in Hh. assert (b <> a) as Hba by congruence. assert (b <> q) as Hbq by congruence.
      assert (y = z) as -> by (rewrite newht_old in Hy by done; congruence).
      eapply table_keep; [by apply (A b z)|done|done|done|done| |].
      * destruct (A b z Hz Hh) as [_ (u & U1 & _) _]. by rewrite lookup_insert_ne by congruence.
      * intros c. split.
        -- intros w Hw Ew. assert (c <> a) by congruence. destruct (newht_keep c w Hw) as (w' & Hw' & Ep' & G1 & G2 & _). exists w'. by rewrite Ep'.
        -- intros w Hw Ew. destruct (decide (c = a)) as [->|]; [rewrite newht_a in Hw; injection Hw as <-; cbn in Ew; congruence|].
           destruct (newht_back c w Hw) as [[-> ->]|(Hcd & w' & Hw' & Ep' & G1 & G2 & _)]; [congruence|]. exists w'. by rewrite <- Ep'.
  - assert (forall b y, h !! b = Some y -> at_ht y <> 0 -> at_ht y <> at_ht dx) as Hold.
    { intros b y Hy Hh E. destruct (A b y Hy Hh) as [_ (u & U1 & _) _]. congruence. }
    intros b c y z Hy Hz Hh E. destruct (newht_back b y Hy) as [[-> ->]|(Hbd & y' & Hy' & _ & F1 & _)], (newht_back c z Hz) as [[-> ->]|(Hcd & z' & Hz' & _ & F2 & _)]; try done.
    + destruct (Hold c z'); congruence.
    + destruct (Hold b y'); congruence.
    + apply (I b c y' z'); congruence.
Qed.
End newht.

(** Read a map that was written several times. *)
Ltac look := repeat first [rewrite lookup_insert_eq | rewrite lookup_insert_ne by congruence].
Ltac look_in H := repeat first [rewrite lookup_insert_eq in H | rewrite lookup_insert_ne in H by congruence].
(** Two ways to write the same map. *)
Ltac heap_eq :=
  apply map_eq; let c := fresh "c" in intros c;
  repeat match goal with
  | |- context [<[?k := _]> _ !! c] =>
      let E := fresh in destruct (decide (c = k)) as [E|E]; [subst c; look; first [reflexivity|exfalso; congruence|idtac]|rewrite ?(lookup_insert_ne _ k) by congruence]
  end; try reflexivity.

Lemma eq_trans_some {A} {o : option A} {u v : A} : o = Some u -> o = Some v -> u = v.
Proof. congruence. Qed.

Ltac proj := cbn [parent kids at_ht refcnt pid at_ir code set_parent set_kids set_at_ht set_refcnt set_pid set_at_ir set_code
  atoms hts brk dpf_active dpf_overlap highwater free_pids blocks states laststate set_atoms set_hts set_brk set_overlap set_active set_pids leaf_atom].
Ltac proj_in H := cbn [parent kids at_ht refcnt pid at_ir code set_parent set_kids set_at_ht set_refcnt set_pid set_at_ir set_code
  atoms hts brk dpf_active dpf_overlap highwater free_pids blocks states laststate set_atoms set_hts set_brk set_overlap set_active set_pids leaf_atom] in H.
Ltac known H := proj_in H; look_in H;
  first [injection H as <-
        | match type of H with _ = Some ?y => match goal with E : _ = Some ?z |- _ =>
            assert (y = z) as -> by (exact (eq_trans_some H E)); clear H end end].
(** Run a step, and take from the context what it reads. *)
Ltac run := repeat match goal with
  | |- wlp (mbind_ _ _) _ _ => apply wlp_bind
  | |- wlp (get_atom _) _ _ => apply wlp_get_atom; let H := fresh in intros ? H; known H; proj
  | |- wlp (upd_atom _ _) _ _ => apply wlp_upd_atom; let H := fresh in intros ? H; known H; proj
  | |- wlp (get_ht _) _ _ => apply wlp_get_ht; let H := fresh in intros ? H; known H; proj
  | |- wlp (upd_ht _ _) _ _ => apply wlp_upd_ht; let H := fresh in intros ? H; known H; proj
  | |- wlp (mreturn _) _ _ => apply wlp_ret; proj
  | |- wlp (modify _) _ _ => apply wlp_modify; proj
  | |- wlp (put_atom _ _) _ _ => apply wlp_modify; proj
  | |- wlp (put_ht _ _) _ _ => apply wlp_modify; proj
  | |- wlp (gets _) _ _ => apply wlp_gets; proj
  | |- wlp get _ _ => apply wlp_get; proj
  end.

Definition heads G G' : Prop := forall p t, (exists l, G !! p = Some (t :: l)) <-> (exists l, G' !! p = Some (t :: l)).
Lemma heads_refl G : heads G G.
Proof. done. Qed.
Lemma heads_trans G1 G2 G3 : heads G1 G2 -> heads G2 G3 -> heads G1 G3.
Proof. intros H1 H2 p t. by rewrite (H1 p t). Qed.

Lemma heads_insert_after a d G : (forall p l, G !! p = Some l -> l <> []) -> heads G (insert_after a d <$> G).
Proof.
  intros Hne p t. rewrite lookup_fmap. split.
  - intros [l Hl]. rewrite Hl. cbn [fmap option_fmap option_map]. destruct (insert_after_cons a d t l) as [k' Ek]. exists k'. by rewrite Ek.
  - intros [l E]. apply fmap_Some in E as (l0 & Hl0 & E). destruct l0 as [|t0 l0]; [by destruct (Hne p [])|].
    destruct (insert_after_cons a d t0 l0) as [k' Ek]. rewrite Ek in E. injection E as <- _. eauto.
Qed.

Lemma inv_nonempty F G N R np s p l : trie_inv F G N R np s -> G !! p = Some l -> l <> [].
Proof. intros Hi Hl. destruct (rt_up _ _ _ _ (ti_routes _ _ _ _ _ _ Hi) p l Hl) as (t & k & -> & _). done. Qed.

Definition deq_at (s : dpf) d (i : ir) : Prop :=
  inner d /\ exists dx, atoms s !! d = Some dx /\ at_ht dx <> 0 /\ offset (at_ir dx) = offset i /\ mask (at_ir dx) = mask i.

Lemma ht_newht_spec F G s a x q xq k :
  trie_inv F G [] 0 0 s -> atoms s !! a = Some x -> inner a -> at_ht x = 0 -> parent x = q -> atoms s !! q = Some xq -> at_ht xq = 0 ->
  up (atoms s) dpf_base q k ->
  wlp (ht_newht a) s (fun d s' => exists G', trie_inv F G' [] 0 0 s' /\ rest s' = rest s /\ dpf_overlap s' = dpf_overlap s /\ heads G G' /\
    up (atoms s') dpf_base d (d :: k) /\ keys (atoms s') (d :: k) = keys (atoms s) k /\ deq_at s' d (at_ir x)).
Proof.
  intros Hi Ha Ia Hx0 Hp Hq Hq0 Hk. destruct (inv_fresh _ _ _ _ _ _ Hi) as (F1 & F2 & F3 & F4). pose proof Hi as [SH RT TB AO (B1 & B2 & B3) KS SZ].
  assert (q <> a) as Hqa. { intros ->. assert (up (atoms s) dpf_base a (a :: k)) as Hu by (eapply (up_step _ _ _ x); [apply Ia|done|congruence]).
    pose proof (up_det _ _ _ _ _ Hu Hk) as E. apply (f_equal length) in E. cbn in E. lia. }
  assert (a <> brk s /\ q <> brk s) as [Had Hqd] by (split; congruence).
  unfold ht_newht, mkatom, ht_alloc, calloc, LIST_INSERT_BEFORE, LIST_REMOVE, LIST_INSERT_HEAD. subst q. run.
  set (d := brk s). set (dx := mkAtom (parent x) [a] (brk s + 1) (refcnt x) 0 (at_ir x) None).
  set (h' := <[a := set_parent d x]> (<[d := dx]> (<[parent x := set_kids (list_remove a (insert_before a d (kids xq))) xq]> (atoms s)))).
  match goal with |- wlp _ ?st _ => set (s1 := st) end.
  assert (atoms s1 = h') as Eh. { unfold s1, h', d, dx. proj. heap_eq. }
  assert (exists t : ht, hts s1 = <[brk s + 1 := t]> (hts s) /\ ent t = 1 /\ buckets t = {[ hash t (val (at_ir x)) := [a] ]}) as (t & Et & Ee & Eb).
  { eexists. split; [unfold s1; proj; rewrite insert_insert_eq; reflexivity|]. done. }
  assert (brk s1 = brk s + 2 /\ rest s1 = rest s /\ dpf_overlap s1 = dpf_overlap s) as (Bk & Rs & Ov) by (unfold s1, rest; proj; split_and!; [lia|done|done]).
  clearbody s1. assert (parent dx = parent x /\ kids dx = [a] /\ refcnt dx = refcnt x /\ pid dx = 0 /\ at_ir dx = at_ir x /\ code dx = None /\ at_ht dx <> 0) as Hdx by (split_and!; cbn; try done; lia).
  assert (trie_inv F (insert_after a d <$> G) [] 0 0 s1) as I1.
  { split; rewrite ?Eh.
    - by eapply newht_shape.
    - by eapply newht_routes.
    - rewrite Et. change (brk s + 1) with (at_ht dx). eapply newht_tabs; try done. cbn. apply B3. lia.
    - by eapply newht_atoms_ok.
    - rewrite Bk, Et. split_and!; [lia| |].
      + intros b Hb. pose proof (inv_live _ _ _ _ _ _ _ _ Hi Ha). pose proof (inv_live _ _ _ _ _ _ _ _ Hi Hq). unfold h', d. rewrite !lookup_insert_ne by lia. apply B2. lia.
      + intros b Hb. rewrite lookup_insert_ne by lia. apply B3. lia.
    - intros p l. rewrite lookup_fmap. intros (l0 & Hl0 & ->)%fmap_Some. destruct (KS p l0 Hl0) as (f & Hf & E). exists f. split; [done|]. rewrite <- E.
      destruct (rt_up _ _ _ _ RT p l0 Hl0) as (u & j & _ & Hu). by eapply newht_keys.
    - by rewrite map_size_fmap. }
  assert (up (atoms s1) dpf_base d (d :: k)) as U1.
  { rewrite Eh. econstructor; [apply F4|by eapply newht_d|]. cbn. eapply newht_up_old; try done. intros Hin.
    destruct (up_mem _ _ _ _ _ Hk Hin) as (l1 & l2 & E & Hu). inversion Hu as [|? z ? ? Hz Hu']; subst. assert (z = x) as -> by congruence.
    pose proof (up_det _ _ _ _ _ Hu' Hk) as E. apply (f_equal length) in E. rewrite length_app in E. cbn in E. lia. }
  assert (keys (atoms s1) (d :: k) = keys (atoms s) k) as K1.
  { rewrite Eh, keys_cons. assert (akey h' d = None) as -> by (by eapply newht_akey_d). rewrite app_nil_r. apply keys_same. intros b Hb. eapply newht_akey; try done.
    intros E. rewrite E in Hb. by apply (fresh_not_up _ _ _ _ _ Hk F1). }
  assert (atoms s1 !! d = Some dx) as D1 by (rewrite Eh; by eapply newht_d).
  assert (parent x <> done_atom) as Hxd by (by eapply (newht_q (atoms s) a x (parent x) xq d dx)).
  eapply compile_inv; [exact I1|done|]. intros s2 I2 R2 T2 X2 O2. wl. eapply compile_inv; [exact I2|apply Ia|]. intros s3 I3 R3 T3 X3 O3. run.
  exists (insert_after a d <$> G). pose proof (relabel_touch _ _ (relabel_trans _ _ _ R2 R3)) as Ht. split_and!.
  - done.
  - by rewrite X3, X2.
  - by rewrite O3, O2.
  - apply heads_insert_after. intros p l. by eapply (inv_nonempty _ _ _ _ _ _ _ _ Hi).
  - by eapply touch_up.
  - by rewrite (touch_keys _ _ _ Ht).
  - split; [done|]. destruct (touch_get _ _ _ _ Ht D1) as (dx' & Hd' & [_ _ E1 E2]). exists dx'. rewrite E1, E2. split_and!; try done. cbn. lia.
Qed.

(** ** An atom has no more children than there are filters *)

Lemma one_kid h t l b b' y y' : up h dpf_base t l -> b ∈ l -> b' ∈ l -> h !! b = Some y -> h !! b' = Some y' -> parent y = parent y' -> b = b'.
Proof.
  intros H Hb Hb' Hy Hy' E. destruct (up_mem _ _ _ _ _ H Hb) as (l1 & l2 & -> & U). destruct (up_mem _ _ _ _ _ H Hb') as (k1 & k2 & E2 & U').
  inversion U as [|? z ? ? Hz V]; subst. inversion U' as [|? z' ? ? Hz' V']; subst. simplify_eq. rewrite E in V. pose proof (up_det _ _ _ _ _ V V') as ->.
  rewrite (app_assoc l1 [b] k2 : l1 ++ b :: k2 = _), (app_assoc k1 [b'] k2 : k1 ++ b' :: k2 = _) in E2. apply app_inv_tail in E2. by apply app_inj_tail in E2 as [_ ->].
Qed.

Lemma kids_bound F G R np s a x : trie_inv F G [] R np s -> atoms s !! a = Some x -> (length (kids x) <= size G)%nat.
Proof.
  intros [SH RT _ _ _ _ _] Hx.
  assert (exists ps, Forall2 (fun b p => exists l, G !! p = Some l /\ b ∈ l) (kids x) ps) as [ps Hps].
  { assert (forall b, b ∈ kids x -> exists p l, G !! p = Some l /\ b ∈ l) as Hb.
    { intros b Hb. destruct (kid_inner _ _ _ _ _ SH Hx Hb) as (Ib & _ & y & Hy & _).
      destruct (rt_cov _ _ _ _ RT b y Hy Ib) as [H|H]; [by apply not_elem_of_nil in H|done]. }
    induction (kids x) as [|b l IH]; [by exists []|]. destruct IH as [ps Hps]; [set_solver|]. destruct (Hb b) as (p & Hp); [set_solver|].
    exists (p :: ps). by constructor. }
  assert (NoDup ps) as ND.
  { pose proof (sh_nodup _ _ SH a x Hx) as ND. assert (forall b, b ∈ kids x -> exists y, atoms s !! b = Some y /\ parent y = a) as Hk.
    { intros b Hb. by apply (sh_kids _ _ SH a x b Hx). }
    clear Hx. revert ND Hk. induction Hps as [|b p l ps (w & Hw & Hin) Hps IH]; intros ND Hk; [constructor|]. apply NoDup_cons in ND as [Hn ND].
    constructor; [|apply IH; [done|set_solver]]. intros Hp. apply Hn.
    destruct (list_elem_of_split _ _ Hp) as (p1 & p2 & ->). apply Forall2_app_inv_r in Hps as (l1 & l2 & H1 & H2 & ->).
    apply Forall2_cons_inv_r in H2 as (b' & l3 & (w' & Hw' & Hin') & _ & ->). simplify_eq.
    destruct (Hk b) as (y & Hy & E); [set_solver|]. destruct (Hk b') as (y' & Hy' & E'); [set_solver|].
    destruct (rt_up _ _ _ _ RT p w Hw) as (t & k & _ & U). rewrite (one_kid _ _ _ b b' y y' U); [set_solver|done|done|done|done|congruence]. }
  rewrite (Forall2_length _ _ _ Hps), <- size_dom, <- (size_list_to_set (C := gset Z) ps ND). apply subseteq_size. intros p. rewrite elem_of_list_to_set, elem_of_dom.
  intros Hp. destruct (list_elem_of_split _ _ Hp) as (p1 & p2 & ->). apply Forall2_app_inv_r in Hps as (l1 & l2 & _ & H2 & _).
  apply Forall2_cons_inv_r in H2 as (b' & l3 & (w' & Hw' & _) & _ & _). eauto.
Qed.

(** ** [ht_insert] *)

(** A new entry [b] of a table. *)
Definition pushed (t t' : ht) b (v : Z) : Prop :=
  buckets t' = <[hash t v := b :: bucket t v]> (buckets t) /\ (forall w, hash t' w = hash t w) /\ ent t' = ent t + 1.

Lemma filled_push h h' a (t t' : ht) n y0 :
  filled h a t -> pushed t t' n (val (at_ir y0)) -> h !! n = None -> h' !! n = Some y0 -> parent y0 = a ->
  (forall b y, h !! b = Some y -> parent y = a -> val (at_ir y) <> val (at_ir y0) /\ exists y', h' !! b = Some y' /\ parent y' = a /\ at_ir y' = at_ir y) ->
  (forall b y', h' !! b = Some y' -> parent y' = a -> b = n /\ y' = y0 \/ exists y, h !! b = Some y /\ parent y = a /\ at_ir y' = at_ir y) ->
  filled h' a t'.
Proof.
  intros [A B C] (Eb & Eh & _) Hn Hn' Hp Hf Hk. split.
  - intros k l b Hl Hb. rewrite Eb in Hl. assert (b = n /\ k = hash t (val (at_ir y0)) \/ exists l', buckets t !! k = Some l' /\ b ∈ l') as H.
    { destruct (decide (k = hash t (val (at_ir y0)))) as [->|]; [rewrite lookup_insert_eq in Hl|rewrite lookup_insert_ne in Hl by done; eauto].
      injection Hl as <-. apply elem_of_cons in Hb as [->|Hb]; [by left|]. right. unfold bucket in Hb.
      destruct (buckets t !! _) as [l'|]; [eauto|by apply not_elem_of_nil in Hb]. }
    destruct H as [[-> ->]|(l' & Hl' & Hb')]; [exists y0; by rewrite Eh|]. destruct (A k l' b Hl' Hb') as (y & Hy & Ep & ->).
    destruct (Hf b y Hy Ep) as (_ & y' & Hy' & Ep' & Ei). exists y'. by rewrite Eh, Ei.
  - assert (forall v b, b ∈ bucket t v -> b ∈ bucket t' v) as Hmono.
    { intros v b Hb. unfold bucket. rewrite Eb, Eh. destruct (decide (hash t v = hash t (val (at_ir y0)))) as [E|E].
      - rewrite E, lookup_insert_eq. cbn. unfold bucket in Hb. rewrite E in Hb. unfold bucket. set_solver.
      - by rewrite lookup_insert_ne. }
    intros b y' Hy' Ep'. destruct (Hk b y' Hy' Ep') as [[-> ->]|(y & Hy & Ep & ->)]; [|apply Hmono; by apply B].
    unfold bucket. rewrite Eb, Eh, lookup_insert_eq. cbn. set_solver.
  - intros b b' y y' Hy Hy' Ep Ep' Ev. destruct (Hk b y Hy Ep) as [[-> ->]|(z & Hz & Ez & Ei)], (Hk b' y' Hy' Ep') as [[-> ->]|(z' & Hz' & Ez' & Ei')].
    + done.
    + destruct (Hf b' z' Hz' Ez') as [[] _]. congruence.
    + destruct (Hf b z Hz Ez) as [[] _]. congruence.
    + apply (C b b' z z'); try done. congruence.
Qed.

Lemma leaf_tabs_ht h hs q xq n y0 K R (t t' : ht) :
  shape h R -> h !! q = Some xq -> h !! n = None -> n <> 0 -> inner n -> q <> done_atom -> K ≡ₚ n :: kids xq ->
  (parent y0 = q /\ kids y0 = [] /\ refcnt y0 = 0 /\ pid y0 = 0) -> at_ht xq <> 0 -> at_ht y0 = 0 ->
  offset (at_ir y0) = offset (at_ir xq) -> mask (at_ir y0) = mask (at_ir xq) -> hs !! at_ht xq = Some t -> pushed t t' n (val (at_ir y0)) ->
  (forall b y, h !! b = Some y -> parent y = q -> val (at_ir y) <> val (at_ir y0)) -> tabs h hs ->
  tabs (<[n := y0]> (<[q := set_kids K xq]> h)) (<[at_ht xq := t']> hs).
Proof.
  intros SH Hq Hn Hn0 Hin Hqd HK Hy Hqh Hyh Ho Hm Ht Hpu Hnew [A I]. assert (q <> n) by congruence. set (h' := <[n := y0]> (<[q := set_kids K xq]> h)).
  assert (forall b z, h' !! b = Some z -> b <> n -> exists z', h !! b = Some z' /\ parent z = parent z' /\ at_ht z = at_ht z' /\ at_ir z = at_ir z' /\ refcnt z = refcnt z' /\ pid z = pid z' /\ code z = code z') as Hback.
  { intros b z Hz Hne. by eapply leaf_back. }
  assert (forall b z, h !! b = Some z -> exists z', h' !! b = Some z' /\ parent z' = parent z /\ at_ht z' = at_ht z /\ at_ir z' = at_ir z /\ refcnt z' = refcnt z /\ pid z' = pid z /\ code z' = code z) as Hkeep.
  { intros b z Hz. by eapply leaf_keep. }
  pose proof (leaf_new h q xq n y0 K) as Hnn. fold h' in Hnn. destruct Hy as (Y1 & Y2 & Y3 & Y4). split.
  - intros a x Hx Hh. destruct (decide (a = n)) as [->|Hne]; [rewrite Hnn in Hx; by injection Hx as <-|].
    destruct (decide (a = q)) as [->|Hne'].
    + unfold h' in Hx. look_in Hx. injection Hx as <-. cbn in Hh. destruct (A q xq Hq Hh) as [T1 (u & U1 & U2 & U3) T3]. assert (u = t) as -> by congruence. split; [done| |].
      * exists t'. cbn. rewrite lookup_insert_eq. split_and!; [done| |].
        -- destruct Hpu as (_ & _ & ->). rewrite U2. unfold zlen. rewrite (Permutation_length HK). cbn. lia.
        -- eapply (filled_push h h' q t t' n y0); [done|done|done|done|done| |].
           ++ intros b y Hb Ey. split; [by eapply Hnew|]. destruct (Hkeep b y Hb) as (y' & ? & ? & ? & ? & _). exists y'. split_and!; congruence.
           ++ intros b y' Hb Ey. destruct (decide (b = n)) as [->|Hbn]; [left; split; congruence|]. right. destruct (Hback b y' Hb Hbn) as (z & ? & ? & ? & ? & _). exists z. split_and!; congruence.
      * intros b z Hz E. cbn. destruct (decide (b = n)) as [->|Hbn]; [rewrite Hnn in Hz; injection Hz as <-; done|].
        destruct (Hback b z Hz Hbn) as (z' & Hz' & E1 & E2 & E3 & _). rewrite E2, E3. apply (T3 b z' Hz'). congruence.
    + unfold h' in Hx. look_in Hx. eapply table_keep; [by apply (A a x)|done|done|done|done| |].
      * rewrite lookup_insert_ne; [done|]. intros E. apply Hne'. symmetry. by apply (I q a xq x).
      * intros b. split.
        -- intros y Hb Ey. destruct (Hkeep b y Hb) as (y' & ? & ? & ? & ? & _). exists y'. split_and!; congruence.
        -- intros y' Hb Ey. destruct (decide (b = n)) as [->|Hbn]; [congruence|]. destruct (Hback b y' Hb Hbn) as (z & ? & ? & ? & ? & _). exists z. split_and!; congruence.
  - intros a a' x x' Hx Hx' Hh E. destruct (decide (a = n)) as [->|Hne]; [rewrite Hnn in Hx; injection Hx as <-; congruence|].
    destruct (decide (a' = n)) as [->|Hne']; [rewrite Hnn in Hx'; injection Hx' as <-; congruence|].
    destruct (Hback a x Hx Hne) as (y & Hy1 & _ & E1 & _). destruct (Hback a' x' Hx' Hne') as (y' & Hy2 & _ & E2 & _). apply (I a a' y y'); congruence.
Qed.

Lemma wlp_true {A} (m : M dpf A) s : wlp m s (fun _ _ => True).
Proof. unfold wlp. by destruct (m s). Qed.

(** The old table is freed before it is written again. *)
Lemma expand_stops a x s f (Q : unit -> dpf -> Prop) : atoms s !! a = Some x -> wlp (ht_expand a ;; upd_ht (at_ht x) f) s Q.
Proof.
  intros Hx. wl. unfold ht_expand. wl. apply wlp_get_atom. intros x' Hx'. assert (x' = x) as -> by congruence. wl. wl. wl.
  eapply wlp_mono; [apply wlp_true|]. intros h1 s1 _. wl. eapply wlp_mono; [apply wlp_true|]. intros _ s2 _. wl. eapply wlp_mono; [apply wlp_true|]. intros _ s3 _.
  wl. eapply wlp_mono; [apply wlp_true|]. intros _ s4 _. unfold free_ht. wl. wl. wl. apply wlp_upd_ht. cbn. intros t'. by rewrite lookup_delete_eq.
Qed.

Lemma ht_lookup_run (t : ht) v s :
  wlp (ht_lookup t v) s (fun o s' => s' = s /\ ht_lookup t v s = Ret o s /\
    (forall b, fst o = Some b -> b ∈ bucket t v /\ exists x, atoms s !! b = Some x /\ val (at_ir x) = v) /\
    (fst o = None -> forall b x, b ∈ bucket t v -> atoms s !! b = Some x -> val (at_ir x) <> v)).
Proof.
  unfold ht_lookup. generalize 0 as c. generalize (bucket t v) as l. induction l as [|b l IH]; intros c; cbn [bucket_find].
  { split_and!; try done. intros _ b x Hb. by apply not_elem_of_nil in Hb. }
  unfold wlp, mbind_, get_atom, get, of_option. cbn. destruct (atoms s !! b) as [x|] eqn:Hx; cbn; [|done].
  destruct (Z.eqb_spec (val (at_ir x)) v) as [E|E].
  - cbn. split_and!; try done. intros b' [= <-]. split; [set_solver|eauto].
  - specialize (IH (match l with [] => c | _ => 1 end)). unfold wlp in IH. destruct (bucket_find v l _ s) as [o s'|]; [|done].
    destruct IH as (-> & _ & H & H'). split_and!; [done|done| |].
    + intros b' Hb'. destruct (H b' Hb') as [H1 H2]. split; [set_solver|done].
    + intros Ho b' x' [->|Hb']%elem_of_cons Hx'; [congruence|by apply (H' Ho b' x')].
Qed.

Lemma ht_insert_spec F G s a x (t : ht) k i c :
  trie_inv F G [] 0 0 s -> atoms s !! a = Some x -> inner a -> at_ht x <> 0 -> hts s !! at_ht x = Some t ->
  ht_lookup t (val i) s = Ret (None, c) s -> offset i = offset (at_ir x) -> mask i = mask (at_ir x) -> wf_eq i -> up (atoms s) dpf_base a k ->
  wlp (ht_insert a 0 i) s (fun hte s' => trie_inv F G (hte :: k) 0 0 s' /\ rest s' = rest s /\ dpf_overlap s' = dpf_overlap s /\ inner hte /\
    atoms s' !! hte = Some (leaf_atom a i) /\ up (atoms s') dpf_base hte (hte :: k) /\ keys (atoms s') (hte :: k) = keys (atoms s) k ++ [key i]).
Proof.
  intros Hi Hx Ia Hh Ht Hl Ho Hm Hw Hu. destruct (inv_fresh _ _ _ _ _ _ Hi) as (F1 & F2 & F3 & F4). pose proof Hi as [SH RT TB AO (B1 & B2 & B3) KS SZ].
  assert (a <> brk s) as Hab by congruence. destruct (tb_all _ _ TB a x Hx Hh) as [T1 (t' & T2 & T3 & T4) T5]. assert (t' = t) as -> by congruence. clear T2.
  assert (forall b y, atoms s !! b = Some y -> parent y = a -> val (at_ir y) <> val i) as Hnew.
  { intros b y Hy Ey E. pose proof (ht_lookup_run t (val i) s) as R. unfold wlp in R. rewrite Hl in R. destruct R as (_ & _ & _ & R).
    apply (R eq_refl b y); [|done|done]. rewrite <- E. by apply (fl_all _ _ _ T4). }
  pose proof (kids_bound _ _ _ _ _ _ _ Hi Hx) as Hkb. pose proof Ia as [Ia1 Ia2].
  set (h' := <[brk s := leaf_atom a i]> (<[a := set_kids (brk s :: kids x) x]> (atoms s))).
  assert (forall u s', atoms s' = h' -> hts s' = <[at_ht x := u]> (hts s) -> brk s' = brk s + 1 -> pushed t u (brk s) (val i) -> rest s' = rest s ->
    dpf_overlap s' = dpf_overlap s -> trie_inv F G (brk s :: k) 0 0 s' /\ rest s' = rest s /\ dpf_overlap s' = dpf_overlap s /\ inner (brk s) /\
    atoms s' !! brk s = Some (leaf_atom a i) /\ up (atoms s') dpf_base (brk s) (brk s :: k) /\ keys (atoms s') (brk s :: k) = keys (atoms s) k ++ [key i]) as Hfin.
  { intros u s' Ea Et Eb Hpu Er Eo. assert (up (atoms s') dpf_base (brk s) (brk s :: k)) as U'.
    { rewrite Ea. econstructor; [apply F4|apply lookup_insert_eq|]. change (parent (leaf_atom a i)) with a. eapply leaf_up; try done. }
    split_and!; try done.
    - split; rewrite ?Ea, ?Et, ?Eb.
      + by apply leaf_shape.
      + eapply leaf_routes; try done. set_solver.
      + by eapply leaf_tabs_ht.
      + by apply leaf_atoms_ok.
      + pose proof (inv_live _ _ _ _ _ _ _ _ Hi Hx). split_and!; [lia| |].
        * intros b Hb. unfold h'. rewrite !lookup_insert_ne by lia. apply B2. lia.
        * intros b Hb. rewrite lookup_insert_ne; [apply B3; lia|]. intros <-. rewrite B3 in Ht by lia. done.
      + intros p l Hl'. destruct (KS p l Hl') as (f & Hf & E). exists f. split; [done|]. rewrite <- E.
        destruct (rt_up _ _ _ _ RT p l Hl') as (w & j & _ & H). by eapply leaf_keys.
      + done.
    - rewrite Ea. apply lookup_insert_eq.
    - rewrite Ea, keys_cons. assert (keys h' k = keys (atoms s) k) as -> by (by eapply leaf_keys). unfold akey, h'. by rewrite lookup_insert_eq. }
  unfold ht_insert, ht_push, mkatom, calloc, LIST_INSERT_HEAD. run. unfold wlp at 1. rewrite Hl. cbn [fst]. run.
  match goal with |- wlp _ ?st _ => set (s1 := st) end.
  match goal with |- context [ht_regenp ?v] => set (u := v) end.
  assert (atoms s1 = h') as Ea. { unfold s1, h'. proj. heap_eq. }
  assert (hts s1 = <[at_ht x := u]> (hts s)) as Et. { unfold s1, u. proj. by rewrite insert_insert_eq. }
  assert (brk s1 = brk s + 1 /\ rest s1 = rest s /\ dpf_overlap s1 = dpf_overlap s) as (E1 & E2 & E3) by done.
  assert (pushed t u (brk s) (val i)) as Hpu. { unfold u. split_and!; [done|done|]. cbn. rewrite T3 in *. unfold zlen. apply u32_small. lia. }
  clearbody s1 u. destruct (_ && _).
  - assert (atoms s1 !! a = Some (set_kids (brk s :: kids x) x)) as Hx1. { rewrite Ea. unfold h'. look. done. }
    apply (expand_stops a (set_kids (brk s :: kids x) x) s1 _ _ Hx1).
  - destruct (ht_regenp u).
    + apply wlp_upd_ht. intros v Hv. rewrite Et, lookup_insert_eq in Hv. injection Hv as <-. wl.
      refine (Hfin (set_ht_st DPF_REGEN u) _ _ _ _ _ _ _); cbn; try done. rewrite Et. by rewrite insert_insert_eq.
    + run. by apply (Hfin u).
Qed.
