(* ===== verification/DpfOpt.v ===== *)
(** * Coalescing

    optimize.c joins comparisons that abut into one, before the filter is
    inserted.  A filter that was joined accepts the same messages, as long as
    every comparison of the filter begins inside the message: the joined
    comparison tests the bound of the first one only. *)

From Stdlib Require Import ZArith Lia.
From stdpp Require Import base numbers option list gmap.
From S2P Require Import Prelude Dpf DpfTrie.

Implicit Types (i j : ir) (l : list ir).

(** ** Joined atoms are well formed *)

Lemma shl32_small v n k : 0 <= v < 2 ^ k -> 0 <= n -> 0 <= k -> n + k <= 32 -> n < 32 -> shl32 v n = Z.shiftl v n.
Proof.
  intros Hv Hn Hk Hle Hlt. unfold shl32. rewrite (Z.mod_small n 32) by lia. rewrite Z.shiftl_mul_pow2 by lia. apply u32_small.
  assert (2 ^ k * 2 ^ n <= 2 ^ 32) by (rewrite <- Z.pow_add_r by lia; apply Z.pow_le_mono_r; lia).
  assert (0 < 2 ^ n) by (apply Z.pow_pos_nonneg; lia). nia.
Qed.

Lemma abut_inv i j : abut i j = true ->
  op i = DPF_OP_EQ /\ op j = DPF_OP_EQ /\ nbits i = 8 * (offset j - offset i) /\ nbits i + nbits j <= 32.
Proof.
  unfold abut, DPF_MAXBITS. intros (((H1%Z.eqb_eq & H2%Z.eqb_eq)%andb_prop & H3%Z.eqb_eq)%andb_prop & H4%Z.leb_le)%andb_prop. lia.
Qed.

Lemma lor_bound a b n : 0 <= n -> 0 <= a < 2 ^ n -> 0 <= b < 2 ^ n -> 0 <= Z.lor a b < 2 ^ n.
Proof.
  intros Hn Ha Hb. split; [apply Z.lor_nonneg; lia|]. destruct (decide (Z.lor a b = 0)) as [->|]; [lia|].
  apply Z.log2_lt_pow2; [pose proof (proj2 (Z.lor_nonneg a b)); lia|]. rewrite Z.log2_lor by lia.
  assert (forall c, 0 <= c < 2 ^ n -> Z.log2 c < n \/ c = 0) as H.
  { intros c Hc. destruct (decide (c = 0)); [by right|left]. apply Z.log2_lt_pow2; lia. }
  destruct (decide (n = 0)) as [->|]; [assert (a = 0 /\ b = 0) as [-> ->] by lia; done|].
  destruct (H a Ha) as [?|E1], (H b Hb) as [?|E2]; subst; cbn; lia.
Qed.

Lemma join_wf i j : wf_eq i -> wf_eq j -> abut i j = true -> wf_eq (join_eq i j).
Proof.
  intros (E1 & O1 & N1 & M1 & V1) (E2 & O2 & N2 & M2 & V2) (_ & _ & E & L)%abut_inv.
  assert (nbits (join_eq i j) = nbits i + nbits j) as En by (cbn; apply u8_small; lia).
  assert (forall u v, 0 <= u < 2 ^ nbits i -> 0 <= v < 2 ^ nbits j -> 0 <= Z.lor u (shl32 v (nbits i)) < 2 ^ (nbits i + nbits j)) as H.
  { intros u v Hu Hv. rewrite (shl32_small v _ (nbits j)) by lia. apply lor_bound; [lia| |].
    - split; [lia|]. apply (Z.lt_le_trans _ (2 ^ nbits i)); [lia|]. apply Z.pow_le_mono_r; lia.
    - rewrite Z.shiftl_mul_pow2 by lia. rewrite Z.pow_add_r by lia. assert (0 < 2 ^ nbits i) by (apply Z.pow_pos_nonneg; lia). nia. }
  unfold wf_eq. rewrite En. cbn. split_and!; try done; try lia; by apply H.
Qed.

Lemma coalesce_loop_wf l : forall i, wf_eq i -> Forall wf_eq l -> Forall wf_eq (coalesce_loop i l).
Proof.
  induction l as [|j l IH]; intros i Hi Hl; cbn; [by constructor|]. apply Forall_cons in Hl as [Hj Hl].
  destruct (abut i j) eqn:E; [apply IH; [by apply join_wf|done]|]. constructor; [done|]. by apply IH.
Qed.

Lemma dpf_coalesce_wf l : Forall wf_eq l -> Forall wf_eq (dpf_coalesce l).
Proof. destruct l as [|i l]; [done|]. intros [Hi Hl]%Forall_cons. by apply coalesce_loop_wf. Qed.

Lemma coalesce_loop_cons l : forall i, coalesce_loop i l <> [].
Proof. induction l as [|j l IH]; intros i; cbn; [done|]. by destruct (abut i j). Qed.

Lemma dpf_coalesce_nil l : dpf_coalesce l = [] -> l = [].
Proof. destruct l as [|i l]; [done|]. intros H. by destruct (coalesce_loop_cons l i). Qed.

(** What coalescing reads of an atom. *)
Definition same_ir i j : Prop := op j = op i /\ offset j = offset i /\ nbits j = nbits i /\ mask j = mask i /\ val j = val i.

Lemma coalesce_same l l' : Forall2 same_ir l l' -> Forall2 same_ir (dpf_coalesce l) (dpf_coalesce l').
Proof.
  intros H. destruct H as [|i i' l l' Hi H]; [constructor|]. cbn. revert i i' Hi. induction H as [|j j' l l' Hj H IH]; intros i i' Hi; cbn; [by apply Forall2_cons_2|].
  pose proof Hi as (A1 & A2 & A3 & A4 & A5). pose proof Hj as (B1 & B2 & B3 & B4 & B5).
  assert (abut i' j' = abut i j) as -> by (unfold abut; congruence). destruct (abut i j).
  - apply IH. unfold same_ir. cbn. split_and!; congruence.
  - constructor; [done|]. by apply IH.
Qed.

Lemma same_key l l' : Forall2 same_ir l l' -> key <$> l' = key <$> l.
Proof. induction 1 as [|i i' l l' (A1 & A2 & A3 & A4 & A5) H IH]; [done|]. cbn. rewrite IH. f_equal. unfold key. congruence. Qed.

Lemma same_wf l l' : Forall2 same_ir l l' -> Forall wf_eq l -> Forall wf_eq l'.
Proof.
  induction 1 as [|i i' l l' (A1 & A2 & A3 & A4 & A5) H IH]; intros Hl; [done|]. apply Forall_cons in Hl as [Hi Hl]. constructor; [|by apply IH].
  unfold wf_eq in *. by rewrite A1, A2, A3, A4, A5.
Qed.

(** ** Messages *)

Section message.
Context (mem : Z -> Z) (Hmem : forall a, 0 <= mem a < 256).

(** The test of an atom on the message at [msg]. *)
Definition holds (msg nbytes : Z) (i : ir) : Prop := offset i < nbytes /\ Z.land (load32 mem (msg + offset i)) (mask i) = val i.

#[export] Instance holds_dec msg nbytes i : Decision (holds msg nbytes i).
Proof. unfold holds. apply _. Defined.

Lemma mem_bit a n : 8 <= n -> Z.testbit (mem a) n = false.
Proof.
  intros Hn. destruct (decide (mem a = 0)) as [->|]; [apply Z.testbit_0_l|]. apply Z.bits_above_log2; [apply Hmem|].
  pose proof (Hmem a). assert (Z.log2 (mem a) < 8); [|lia]. apply Z.log2_lt_pow2; lia.
Qed.

Lemma load16_bit a n : 0 <= n -> Z.testbit (load16 mem a) n = if n <? 8 then Z.testbit (mem a) n else Z.testbit (mem (a + 1)) (n - 8).
Proof.
  intros Hn. unfold load16. rewrite Z.lor_spec, Z.shiftl_spec by lia. destruct (Z.ltb_spec n 8).
  - rewrite (Z.testbit_neg_r _ (n - 8)) by lia. apply orb_false_r.
  - by rewrite mem_bit by lia.
Qed.

Lemma load32_bit a n : 0 <= n < 32 -> Z.testbit (load32 mem a) n = Z.testbit (mem (a + n / 8)) (n mod 8).
Proof.
  intros Hn. unfold load32. rewrite Z.lor_spec, Z.shiftl_spec by lia.
  assert (n / 8 = 0 /\ n mod 8 = n /\ n < 8 \/ n / 8 = 1 /\ n mod 8 = n - 8 /\ 8 <= n < 16 \/ n / 8 = 2 /\ n mod 8 = n - 16 /\ 16 <= n < 24 \/ n / 8 = 3 /\ n mod 8 = n - 24 /\ 24 <= n) as H.
  { pose proof (Z.div_mod n 8). pose proof (Z.mod_pos_bound n 8). lia. }
  rewrite (load16_bit a n) by lia.
  destruct H as [(-> & -> & H)|[(-> & -> & H)|[(-> & -> & H)|(-> & -> & H)]]].
  - rewrite (Z.testbit_neg_r _ (n - 16)) by lia. destruct (Z.ltb_spec n 8); [|lia]. by rewrite orb_false_r, Z.add_0_r.
  - rewrite (Z.testbit_neg_r _ (n - 16)) by lia. destruct (Z.ltb_spec n 8); [lia|]. by rewrite orb_false_r.
  - rewrite load16_bit by lia. destruct (Z.ltb_spec n 8), (Z.ltb_spec (n - 16) 8); try lia. rewrite mem_bit by lia. done.
  - rewrite load16_bit by lia. destruct (Z.ltb_spec n 8), (Z.ltb_spec (n - 16) 8); try lia. rewrite mem_bit by lia. cbn.
    by replace (a + 2 + 1) with (a + 3) by lia; replace (n - 16 - 8) with (n - 24) by lia.
Qed.

(** A word further on in memory. *)
Lemma load32_shift a k n : 0 <= k -> 0 <= n -> 8 * k + n < 32 -> Z.testbit (load32 mem a) (8 * k + n) = Z.testbit (load32 mem (a + k)) n.
Proof.
  intros Hk Hn Hlt. rewrite !load32_bit by lia. replace (8 * k + n) with (n + k * 8) by lia. rewrite Z.div_add, Z.mod_add by lia.
  f_equal. f_equal. lia.
Qed.

Lemma bit_above v n m : 0 <= v < 2 ^ n -> 0 <= n <= m -> Z.testbit v m = false.
Proof.
  intros Hv Hn. destruct (decide (v = 0)) as [->|]; [apply Z.testbit_0_l|]. apply Z.bits_above_log2; [lia|].
  apply (Z.lt_le_trans _ n); [apply Z.log2_lt_pow2; lia|lia].
Qed.

(** The joined test is both tests. *)
Lemma join_test a n k m1 m2 v1 v2 :
  0 < n <= 32 -> n = 8 * k -> forall k2, 0 < k2 -> n + k2 <= 32 -> 0 <= m1 < 2 ^ n -> 0 <= v1 < 2 ^ n -> 0 <= m2 < 2 ^ k2 -> 0 <= v2 < 2 ^ k2 ->
  Z.land (load32 mem a) (Z.lor m1 (Z.shiftl m2 n)) = Z.lor v1 (Z.shiftl v2 n) <->
  Z.land (load32 mem a) m1 = v1 /\ Z.land (load32 mem (a + k)) m2 = v2.
Proof.
  intros Hn Ek k2 Hk2 Hle Hm1 Hv1 Hm2 Hv2.
  assert (forall b, 0 <= b < 32 -> Z.testbit (Z.land (load32 mem a) (Z.lor m1 (Z.shiftl m2 n))) b =
    if b <? n then Z.testbit (Z.land (load32 mem a) m1) b else Z.testbit (Z.land (load32 mem (a + k)) m2) (b - n)) as HL.
  { intros b Hb. rewrite Z.land_spec, Z.lor_spec, Z.shiftl_spec by lia. destruct (Z.ltb_spec b n).
    - rewrite (Z.testbit_neg_r m2) by lia. by rewrite orb_false_r, Z.land_spec.
    - rewrite (bit_above m1 n) by lia. rewrite Z.land_spec. cbn. f_equal. rewrite <- load32_shift by lia. f_equal. lia. }
  assert (forall b, 0 <= b -> Z.testbit (Z.lor v1 (Z.shiftl v2 n)) b = if b <? n then Z.testbit v1 b else Z.testbit v2 (b - n)) as HR.
  { intros b Hb. rewrite Z.lor_spec, Z.shiftl_spec by lia. destruct (Z.ltb_spec b n).
    - rewrite (Z.testbit_neg_r v2) by lia. apply orb_false_r.
    - by rewrite (bit_above v1 n) by lia. }
  split.
  - intros E. split; apply Z.bits_inj'; intros b Hb.
    + destruct (decide (b < n)).
      * specialize (HL b ltac:(lia)). rewrite E, HR in HL by lia. destruct (Z.ltb_spec b n); [done|lia].
      * rewrite Z.land_spec, (bit_above m1 n), (bit_above v1 n) by lia. apply andb_false_r.
    + destruct (decide (b < k2)).
      * specialize (HL (b + n) ltac:(lia)). rewrite E, HR in HL by lia. destruct (Z.ltb_spec (b + n) n); [lia|]. by replace (b + n - n) with b in HL by lia.
      * rewrite Z.land_spec, (bit_above m2 k2), (bit_above v2 k2) by lia. apply andb_false_r.
  - intros [E1 E2]. apply Z.bits_inj'. intros b Hb. rewrite HR by done. destruct (decide (b < 32)).
    + rewrite HL by lia. by rewrite E1, E2.
    + rewrite Z.land_spec, Z.lor_spec, Z.shiftl_spec by lia. destruct (Z.ltb_spec b n); [lia|].
      rewrite (bit_above m1 n), (bit_above m2 k2), (bit_above v2 k2) by lia. apply andb_false_r.
Qed.

Lemma join_holds msg nbytes i j : wf_eq i -> wf_eq j -> abut i j = true -> offset j < nbytes ->
  holds msg nbytes (join_eq i j) <-> holds msg nbytes i /\ holds msg nbytes j.
Proof.
  intros (E1 & O1 & N1 & M1 & V1) (E2 & O2 & N2 & M2 & V2) (_ & _ & E & L)%abut_inv Hj. unfold holds. cbn.
  rewrite !(shl32_small _ _ (nbits j)) by lia.
  rewrite (join_test (msg + offset i) (nbits i) (offset j - offset i) _ _ _ _ N1 E (nbits j)) by lia.
  replace (msg + offset i + (offset j - offset i)) with (msg + offset j) by lia. assert (offset i < nbytes) by lia. tauto.
Qed.

Lemma coalesce_loop_holds msg nbytes l : forall i, wf_eq i -> Forall wf_eq l -> Forall (fun j => offset j < nbytes) l ->
  Forall (holds msg nbytes) (coalesce_loop i l) <-> holds msg nbytes i /\ Forall (holds msg nbytes) l.
Proof.
  induction l as [|j l IH]; intros i Hi Hl Hb; cbn; [rewrite Forall_singleton; by split; [intros H|intros [H _]]|].
  apply Forall_cons in Hl as [Hj Hl]. apply Forall_cons in Hb as [Hbj Hb]. rewrite Forall_cons. destruct (abut i j) eqn:E.
  - rewrite IH by (done || by apply join_wf). rewrite join_holds by done. tauto.
  - rewrite Forall_cons, IH by done. tauto.
Qed.

(** C28: [dpf_coalesce] keeps the meaning of a filter: when the constants of the
    comparisons fit their width, a message that every atom of the filter begins
    inside of passes the joined filter exactly when it passes each comparison of
    the original one. *)
Theorem dpf_coalesce_equiv msg nbytes l :
  Forall wf_eq l -> Forall (fun i => offset i < nbytes) l ->
  Forall (holds msg nbytes) (dpf_coalesce l) <-> Forall (holds msg nbytes) l.
Proof.
  intros Hw Hb. destruct l as [|i l]; [done|]. apply Forall_cons in Hw as [Hi Hw]. apply Forall_cons in Hb as [_ Hb].
  cbn [dpf_coalesce]. rewrite coalesce_loop_holds by done. by rewrite Forall_cons.
Qed.

(** What passes the original filter passes the joined one in any case. *)
Lemma dpf_coalesce_sound msg nbytes l : Forall wf_eq l -> Forall (holds msg nbytes) l -> Forall (holds msg nbytes) (dpf_coalesce l).
Proof.
  intros Hw H. destruct l as [|i l]; [done|]. apply Forall_cons in Hw as [Hi Hw]. apply Forall_cons in H as [Hh H]. cbn [dpf_coalesce].
  apply coalesce_loop_holds; [done|done| |done]. eapply Forall_impl; [exact H|]. by intros j [].
Qed.
End message.

(** An Ethernet type and an IP version, two bytes each. *)
Definition sample_filter : list ir :=
  [ mkIr 0 0 0 DPF_OP_EQ 12 16 0xffff 0x0008 0 0 0 0; mkIr 0 0 0 DPF_OP_EQ 14 8 0xf0 0x40 0 0 0 0; mkIr 0 0 0 DPF_OP_EQ 23 8 0xff 0x11 0 0 0 0 ].
Definition sample_mem (a : Z) : Z := if a =? 12 then 8 else if a =? 14 then 0x45 else if a =? 23 then 0x11 else 0.

Example sample_coalesced :
  (fun i => (offset i, nbits i, mask i, val i)) <$> dpf_coalesce sample_filter = [(12, 24, 0xf0ffff, 0x400008); (23, 8, 0xff, 0x11)].
Proof. reflexivity. Qed.

Lemma sample_bytes a : 0 <= sample_mem a < 256.
Proof. unfold sample_mem. repeat case_match; lia. Qed.

Lemma dpf_coalesce_equiv_witness :
  Forall (holds sample_mem 0 60) (dpf_coalesce sample_filter) <-> Forall (holds sample_mem 0 60) sample_filter.
Proof.
  apply (dpf_coalesce_equiv sample_mem sample_bytes 0 60 sample_filter).
  - repeat constructor; cbn; lia.
  - repeat constructor; cbn; lia.
Defined.

(** A message that ends inside the joined comparison: the second comparison
    fails on it, the joined one reads past its end. *)
Example coalesce_drops_bound :
  let l := [ mkIr 0 0 0 DPF_OP_EQ 0 8 0xff 1 0 0 0 0; mkIr 0 0 0 DPF_OP_EQ 1 8 0xff 2 0 0 0 0 ] in
  let m := fun a => if a =? 0 then 1 else 2 in
  bool_decide (Forall (holds m 0 1) (dpf_coalesce l)) = true /\ bool_decide (Forall (holds m 0 1) l) = false.
Proof. vm_compute. done. Qed.
