(* ===== verification/DpfInsert.v ===== *)
(** * Insertion and deletion of filters

    [dpf_insert] and [dpf_delete] keep the invariant of [DpfTrie.v]: after any
    run of them the ways of the active filters are those of the filters that
    were inserted.  A run that a [demand] of the code stops, or that follows a
    null pointer, says nothing. *)

From Stdlib Require Import ZArith Lia.
From stdpp Require Import base numbers option list gmap.
From S2P Require Import Prelude Dpf DpfTrie DpfOpt.

Implicit Types (h : gmap Z atom) (a b p t n q r : Z) (x y : atom) (l : list Z) (G : gmap Z (list Z)).

(** ** [merge] *)

Lemma wf_isequal (i j : ir) : wf_eq i -> wf_eq j -> isequal i j <> 0 ->
  offset i = offset j /\ mask i = mask j /\ (isequal i j = 1 -> val i = val j).
Proof.
  intros [Ei _] [Ej _]. unfold isequal, dpf_iseq. rewrite Ei, Ej. cbn.
  destruct (Z.eqb_spec (offset i) (offset j)), (Z.eqb_spec (mask i) (mask j)); cbn; try done.
  intros _. split_and!; try done. by destruct (Z.eqb_spec (val i) (val j)).
Qed.

Lemma find_or_spec (i : ir) l s :
  wlp (find_or i l) s (fun o s' => s' = s /\ match o with
    | None => True
    | Some (a, res) => a ∈ l /\ exists x, atoms s !! a = Some x /\ res = isequal (at_ir x) i /\ res <> 0 end).
Proof.
  induction l as [|a l IH]; cbn [find_or]; [done|]. wl. apply wlp_get_atom. intros x Hx.
  destruct (Z.eqb_spec (isequal (at_ir x) i) 0) as [E|E].
  - eapply wlp_mono; [apply IH|]. intros [[b res]|] s'; [|tauto]. intros (-> & Hb & H). split_and!; [done|set_solver|done].
  - wl. split_and!; [done|set_solver|]. eauto 10.
Qed.

(** A way that is in the trie already is that of a filter to be. *)
Lemma inv_way F G N s : trie_inv F G [] 0 0 s -> trie_inv F G N 0 0 s.
Proof.
  intros [SH [U C CN EN P] TB AO BK KS SZ]. split; try done. split; try done.
  - intros a x Hx Hi. destruct (C a x Hx Hi) as [H|H]; [by apply not_elem_of_nil in H|by right].
  - intros a x Hx Hp. destruct (P a x Hx Hp) as [H|(_ & k & E)]; [by left|done].
Qed.

Lemma up_child h r t l l1 a l2 : up h r t l -> l = l1 ++ a :: l2 -> l1 <> [] -> exists b y, h !! b = Some y /\ parent y = a.
Proof.
  intros H. revert l1. induction H as [|b x l Hr Hx Hup IH]; intros l1 E Hl; [by destruct l1|].
  destruct l1 as [|c [|d l1]]; [done| |].
  - injection E as -> ->. inversion Hup; subst; eauto.
  - injection E as -> E. by apply (IH (d :: l1)).
Qed.

(** A leaf is the end of a filter. *)
Lemma leaf_end F G s a x k : trie_inv F G [] 0 0 s -> atoms s !! a = Some x -> inner a -> kids x = [] -> up (atoms s) dpf_base a k ->
  exists p, G !! p = Some k.
Proof.
  intros [SH RT _ _ _ _ _] Hx Ia Hk Hu. destruct (rt_cov _ _ _ _ RT a x Hx Ia) as [H|(p & l & Hl & Hal)]; [by apply not_elem_of_nil in H|].
  exists p. rewrite Hl. f_equal. destruct (rt_up _ _ _ _ RT p l Hl) as (t & j & -> & H). destruct (up_mem _ _ _ _ a H Hal) as ([|c l1] & l2 & E & H').
  - injection E as -> ->. by apply (up_det _ _ _ _ _ H' Hu).
  - exfalso. assert (exists b y, atoms s !! b = Some y /\ parent y = a) as (b & y & Hy & Ep).
    { destruct (up_child _ _ _ _ (c :: l1) _ _ H E) as (b & y & Hy & Ep); [done|]. eauto. }
    assert (b ∈ kids x) as Hb by (apply (sh_kids _ _ SH a x b Hx); eauto). rewrite Hk in Hb. by apply not_elem_of_nil in Hb.
Qed.

(** What [merge] leaves: [N] is the way of the new filter. *)
Definition merged F G p (ks : list (Z * Z * Z)) (s : dpf) last (s' : dpf) : Prop :=
  exists G' N np, trie_inv F G' N 0 np s' /\ rest s' = rest s /\ heads G G' /\ plain s' last /\ up (atoms s') dpf_base last N /\
    keys (atoms s') N = ks /\ (dpf_overlap s' = true /\ np = 0 /\ (exists p', G' !! p' = Some N) \/ dpf_overlap s' = dpf_overlap s /\ np = p).

Lemma merged_from F G G1 p ks s s1 last s' :
  merged F G1 p ks s1 last s' -> rest s1 = rest s -> dpf_overlap s1 = dpf_overlap s -> heads G G1 -> merged F G p ks s last s'.
Proof.
  intros (G' & N & np & Hi & Hr & Hh & H) Hr1 Ho Hh1. exists G', N, np. rewrite <- Hr1, <- Ho. split_and!; try tauto. by eapply heads_trans.
Qed.

(** A string becomes the first child of [q]. *)
Lemma attach_head F G X R N ks last np s q xq k y :
  string F G X R N ks last np s -> atoms s !! q = Some xq -> atoms s !! R = Some y -> q <> done_atom -> at_ht xq = 0 -> up (atoms s) dpf_base q k ->
  (forall a, a ∈ X -> a ∈ k) ->
  let h' := <[q := set_kids (R :: kids xq) xq]> (<[R := set_parent q y]> (atoms s)) in
  q <> R /\ trie_inv F G (N ++ k) 0 np (set_atoms h' s) /\ plain (set_atoms h' s) last /\ up h' dpf_base last (N ++ k) /\ keys h' (N ++ k) = keys (atoms s) k ++ ks.
Proof.
  intros [Si SR [N0 ->] Su Sl Sk] Hq HR Hd Hh Hk HX h'. pose proof (ti_shape _ _ _ _ _ _ Si) as SH. split_and!.
  - by eapply attach_ne.
  - by eapply inv_attach.
  - destruct Sl as (Il & z & Hz & Ez). split; [done|]. destruct (attach_keep _ _ _ _ _ (R :: kids xq) _ _ _ SH SR HR Hq Hd (reflexivity _) Su Hk last z Hz) as (z' & Hz' & _ & E & _).
    exists z'. split; [done|congruence].
  - by eapply attach_way.
  - rewrite keys_app, <- Sk. f_equal; apply keys_same; intros; by eapply attach_akey.
Qed.

Lemma merge_below_spec F G s q xq k (l : list ir) al p :
  trie_inv F G [] 0 0 s -> atoms s !! q = Some xq -> q <> done_atom -> at_ht xq = 0 -> up (atoms s) dpf_base q k -> Forall wf_eq l -> l <> [] ->
  wlp (r <- swizzle l p al ;; LIST_INSERT_HEAD q (fst r) ;; upd_atom (fst r) (set_parent q) ;; mreturn (snd r)) s
    (merged F G p (keys (atoms s) k ++ (key <$> l)) s).
Proof.
  intros Hi Hq Hd Hh Hk Hw Hl. wl. eapply wlp_mono; [by apply swizzle_spec|]. intros [R last] s1 ((F1 & F2 & F3) & Hm & N & HS). cbn [fst snd] in *.
  destruct (sh_root _ _ (ti_shape _ _ _ _ _ _ (st_inv _ _ _ _ _ _ _ _ _ HS)) (st_R _ _ _ _ _ _ _ _ _ HS)) as (_ & y & Hy & _).
  assert (up (atoms s1) dpf_base q k) as Hk1. { apply (up_same _ _ _ _ _ Hk). intros b x _ Hx. eauto. }
  destruct (attach_head _ _ _ _ _ _ _ _ _ _ _ _ _ HS (Hm _ _ Hq) Hy Hd Hh Hk1 ltac:(set_solver)) as (Hne & Hi' & Il & Hu & Hks).
  pose proof (Hm _ _ Hq) as Hq1. unfold LIST_INSERT_HEAD. run. exists G, (N ++ k), p. proj.
  assert (forall u v, <[R := u]> (<[q := v]> (atoms s1)) = <[q := v]> (<[R := u]> (atoms s1))) as E by (intros; by apply insert_insert_ne).
  rewrite E. split_and!; try done; [|by right]. rewrite Hks. f_equal. apply keys_same. intros b Hb. destruct (up_in _ _ _ _ _ Hk Hb) as [[z Hz] _].
  unfold akey. by rewrite Hz, (Hm _ _ Hz).
Qed.

Lemma merge_or_spec F G s q xq k (l : list ir) al p a :
  trie_inv F G [] 0 0 s -> atoms s !! q = Some xq -> q <> done_atom -> at_ht xq = 0 -> up (atoms s) dpf_base q k -> Forall wf_eq l -> l <> [] -> a ∈ kids xq ->
  wlp (r <- swizzle l p al ;; insert_or a (fst r) ;; mreturn (snd r)) s (merged F G p (keys (atoms s) k ++ (key <$> l)) s).
Proof.
  intros Hi Hq Hd Hh Hk Hw Hl Ha. wl. eapply wlp_mono; [by apply swizzle_spec|]. intros [R last] s1 ((F1 & F2 & F3) & Hm & N & HS). cbn [fst snd] in *.
  assert (up (atoms s1) dpf_base q k) as Hk1. { apply (up_same _ _ _ _ _ Hk). intros b x _ Hx. eauto. }
  pose proof (proj1 (st_last _ _ _ _ _ _ _ _ _ HS)) as Il.
  wl. eapply wlp_mono; [eapply insert_or_spec; [done|by apply Hm|done..]|]. intros [] s2 (Hi2 & (E1 & E2 & E3) & Hpl & Hu & Hks). wl.
  exists G, (N ++ k), p. split_and!; try done; try congruence.
  - rewrite Hks. f_equal. apply keys_same. intros b Hb. destruct (up_in _ _ _ _ _ Hk Hb) as [[z Hz] _]. unfold akey. by rewrite Hz, (Hm _ _ Hz).
  - right. split; [congruence|done].
Qed.

(** An entry for [i] in the table of [d], and the rest of the filter below it. *)
Lemma merge_entry_spec F G s d dx (t : ht) k i (l : list ir) al p c :
  trie_inv F G [] 0 0 s -> atoms s !! d = Some dx -> inner d -> at_ht dx <> 0 -> hts s !! at_ht dx = Some t ->
  ht_lookup t (val i) s = Ret (None, c) s -> offset i = offset (at_ir dx) -> mask i = mask (at_ir dx) -> wf_eq i -> Forall wf_eq l -> up (atoms s) dpf_base d k ->
  wlp (hte <- ht_insert d 0 i ;; r <- swizzle l p al ;;
       if negb (snd r =? 0) then upd_atom (fst r) (set_parent hte) ;; LIST_INSERT_HEAD hte (fst r) ;; mreturn (snd r)
       else upd_atom hte (set_pid p) ;; mreturn hte) s (merged F G p (keys (atoms s) k ++ key i :: (key <$> l)) s).
Proof.
  intros Hi Hd Id Hh Ht Hl Ho Hm Hw Hwl Hk. wl. eapply wlp_mono; [by eapply ht_insert_spec|]. intros hte s1 (Hi1 & R1 & O1 & I1 & H1 & U1 & K1).
  wl. destruct (decide (l = [])) as [->|Hne].
  - unfold swizzle. cbn. run. exists G, (hte :: k), p. split_and!; try done.
    + by apply inv_setpid.
    + split; [done|]. eexists. cbn. by rewrite lookup_insert_eq.
    + eapply touch_up; [|done]. by eapply touch_insert.
    + cbn. erewrite touch_keys; [done|]. by eapply touch_insert.
    + by right.
  - eapply wlp_mono; [by apply swizzle_spec|]. intros [R last] s2 ((F1 & F2 & F3) & Hm2 & N & HS). cbn [fst snd] in *.
    assert (last <> 0) as Hl0. { destruct (st_last _ _ _ _ _ _ _ _ _ HS) as (_ & z & Hz & _). eapply shape_nz; [|done]. apply (ti_shape _ _ _ _ _ _ (st_inv _ _ _ _ _ _ _ _ _ HS)). }
    rewrite (proj2 (Z.eqb_neq _ _) Hl0). cbn [negb].
    destruct (sh_root _ _ (ti_shape _ _ _ _ _ _ (st_inv _ _ _ _ _ _ _ _ _ HS)) (st_R _ _ _ _ _ _ _ _ _ HS)) as (_ & y & Hy & _).
    assert (up (atoms s2) dpf_base hte (hte :: k)) as Hk1. { apply (up_same _ _ _ _ _ U1). intros b x _ Hx. eauto. }
    destruct (attach_head _ _ _ _ _ _ _ _ _ _ _ _ _ HS (Hm2 _ _ H1) Hy (proj2 I1) eq_refl Hk1 ltac:(set_solver)) as (Hn & Hi' & Il & Hu & Hks).
    pose proof (Hm2 _ _ H1) as Hq1. unfold LIST_INSERT_HEAD. run. exists G, (N ++ hte :: k), p. proj. split_and!; try done.
    + change (rest s2 = rest s). congruence.
    + etransitivity; [exact Hks|]. assert (keys (atoms s2) (hte :: k) = keys (atoms s1) (hte :: k)) as ->; [|by rewrite K1, <- app_assoc].
      apply keys_same. intros b Hb. destruct (up_in _ _ _ _ _ U1 Hb) as [[z Hz] _]. unfold akey. by rewrite Hz, (Hm2 _ _ Hz).
    + right. split; [|done]. change (dpf_overlap s2 = dpf_overlap s). congruence.
Qed.

(** The node with a table for [i]: [a] itself, or a new one above it. *)
Lemma merge_table_spec F G s q xq k a x i :
  trie_inv F G [] 0 0 s -> atoms s !! q = Some xq -> at_ht xq = 0 -> up (atoms s) dpf_base q k -> a ∈ kids xq -> atoms s !! a = Some x -> wf_eq i ->
  isequal (at_ir x) i <> 0 ->
  wlp (if at_ht x =? 0 then ht_newht a else mreturn a) s (fun d s' => exists G', trie_inv F G' [] 0 0 s' /\ rest s' = rest s /\
    dpf_overlap s' = dpf_overlap s /\ heads G G' /\ up (atoms s') dpf_base d (d :: k) /\ keys (atoms s') (d :: k) = keys (atoms s) k /\ deq_at s' d i).
Proof.
  intros Hi Hq Hh Hk Ha Hx Hw Hne. pose proof (ti_shape _ _ _ _ _ _ Hi) as SH.
  destruct (kid_inner _ _ _ _ _ SH Hq Ha) as (Ia & _ & x' & Hx' & Ep). assert (x' = x) as -> by congruence.
  pose proof (ao_wf _ (ti_atoms _ _ _ _ _ _ Hi) a x Hx Ia) as Hwx. destruct (wf_isequal _ _ Hwx Hw Hne) as (E1 & E2 & _).
  destruct (Z.eqb_spec (at_ht x) 0) as [E0|E0].
  - eapply wlp_mono; [by eapply ht_newht_spec|]. intros d s' (G' & ? & ? & ? & ? & ? & ? & (? & dx & ? & ? & ? & ?)). exists G'. split_and!; try done.
    split; [done|]. exists dx. split_and!; try done; congruence.
  - wl. exists G. split_and!; try done.
    + econstructor; [apply Ia|done|]. by rewrite Ep.
    + rewrite keys_cons. unfold akey. rewrite Hx. rewrite (proj2 (Z.eqb_neq _ _) E0). by rewrite app_nil_r.
    + split; [done|]. exists x. done.
Qed.

Lemma merge_loop_spec F p (l : list ir) : forall G s q xq k al,
  trie_inv F G [] 0 0 s -> atoms s !! q = Some xq -> q <> done_atom -> at_ht xq = 0 -> up (atoms s) dpf_base q k -> Forall wf_eq l -> (l = [] -> inner q) ->
  wlp (merge_loop l q al p) s (merged F G p (keys (atoms s) k ++ (key <$> l)) s).
Proof.
  induction l as [|i l IH]; intros G s q xq k al Hi Hq Hd Hh Hk Hw Hl; cbn [merge_loop]; wl; apply wlp_get_atom; intros x Hx; assert (x = xq) as -> by congruence; clear Hx.
  - assert (inner q) as Iq by auto. assert (plain s q) as Hpl by (split; [done|eauto]). cbn [fmap list_fmap]. rewrite app_nil_r. pose proof (inv_way _ _ k _ Hi) as Hi'.
    destruct (kids xq) as [|b bs] eqn:Ek.
    + wl. wl. wl. exists G, k, 0. split_and!; try done.
      * by destruct Hi' as [].
      * left. split_and!; [done|done|]. by eapply leaf_end.
    + destruct (Z.eqb_spec (pid xq) 0) as [E|E]; cbn [negb]; wl; wl; wl.
      * assert (x = xq) as -> by congruence. destruct (up_inv _ _ _ _ Hk (proj1 Iq)) as (z & k' & _ & -> & _).
        assert (touch (atoms s) (<[q := set_pid p xq]> (atoms s))) as Ht by by eapply touch_insert.
        exists G, (q :: k'), p. cbn. split_and!; try done; [by apply inv_setpid|by eapply plain_touch, Hpl|by eapply touch_up|by apply touch_keys|by right].
      * exists G, k, 0. split_and!; try done; [by destruct Hi' as []|]. left. split_and!; [done|done|].
        destruct (rt_pid _ _ _ _ (ti_routes _ _ _ _ _ _ Hi) q xq Hq E) as [[j Hj]|(_ & j & ?)]; [|done]. exists (pid xq). rewrite Hj. f_equal.
        destruct (rt_up _ _ _ _ (ti_routes _ _ _ _ _ _ Hi) _ _ Hj) as (t & j' & [= <- <-] & H). by eapply up_det.
  - pose proof Hw as [Hwi Hwl]%Forall_cons. pose proof (ti_shape _ _ _ _ _ _ Hi) as SH. destruct (kids xq) as [|b bs] eqn:Ek.
    { by eapply merge_below_spec. }
    wl. rewrite <- Ek. eapply wlp_mono; [apply find_or_spec|]. intros [[a res]|] s' [-> H]; cbn beta iota zeta.
    2: { eapply merge_or_spec; try done. rewrite Ek. set_solver. }
    destruct H as (Ha & x & Hx & -> & Hne). destruct (kid_inner _ _ _ _ _ SH Hq Ha) as (Ia & _ & x' & Hx' & Ep). assert (x' = x) as -> by congruence.
    pose proof (ao_wf _ (ti_atoms _ _ _ _ _ _ Hi) a x Hx Ia) as Hwx. destruct (wf_isequal _ _ Hwx Hwi Hne) as (E1 & E2 & E3).
    wl. apply wlp_get_atom. intros x' Hx2. assert (x' = x) as -> by congruence. rewrite (wf_noshift _ Hwx).
    destruct ((isequal (at_ir x) i =? 1) && (at_ht x =? 0)) eqn:Eb.
    + apply andb_prop in Eb as [Eb1%Z.eqb_eq Eb2%Z.eqb_eq]. assert (up (atoms s) dpf_base a (a :: k)) as Ua by (econstructor; [apply Ia|done|by rewrite Ep]).
      eapply wlp_mono; [eapply (IH G s a x (a :: k)); try done; apply Ia|]. intros last s'. rewrite keys_cons. unfold akey. rewrite Hx. rewrite (proj2 (Z.eqb_eq _ _) Eb2).
      rewrite <- app_assoc. cbn. assert (key (at_ir x) = key i) as -> by (unfold key; rewrite E1, E2, E3; done). done.
    + wl. eapply wlp_mono; [by apply (merge_table_spec F G s q xq k a x i)|]. intros d s1 (G1 & Hi1 & R1 & O1 & Hh1 & U1 & K1 & Id & dx & Hdx & Hdh & D1 & D2).
      wl. apply wlp_get_atom. intros x2 Hx2'. assert (x2 = dx) as -> by congruence. wl. apply wlp_get_ht. intros t Ht. wl.
      eapply wlp_mono; [apply ht_lookup_run|]. intros o s2 (-> & Hlk & Ho). destruct (fst o) as [hte|] eqn:Efo.
      * destruct (proj1 Ho hte eq_refl) as (Hb & y & Hy & Ev). destruct (tb_all _ _ (ti_tabs _ _ _ _ _ _ Hi1) d dx Hdx Hdh) as [_ (t' & Ht' & _ & T3) T4].
        assert (t' = t) as -> by congruence. assert (hte ∈ kids dx) as Hbk.
        { unfold bucket in Hb. destruct (buckets t !! hash t (val i)) as [lb|] eqn:Elb; [by eapply filled_kid; [apply (ti_shape _ _ _ _ _ _ Hi1)|..]|by apply not_elem_of_nil in Hb]. }
        destruct (kid_inner _ _ _ _ _ (ti_shape _ _ _ _ _ _ Hi1) Hdx Hbk) as (Ihte & _ & y' & Hy' & Ey). assert (y' = y) as -> by congruence.
        destruct (T4 hte y Hy Ey) as (T5 & T6 & T7).
        assert (up (atoms s1) dpf_base hte (hte :: d :: k)) as Uh by (econstructor; [apply Ihte|done|by rewrite Ey]).
        eapply wlp_mono; [eapply (IH G1 s1 hte y (hte :: d :: k)); try done; apply Ihte|]. intros last s' Hm. eapply merged_from; [|done|done|done].
        rewrite keys_cons in Hm. unfold akey in Hm. rewrite Hy in Hm. rewrite (proj2 (Z.eqb_eq _ _) T5), K1, <- app_assoc in Hm.
        assert (key (at_ir y) = key i) as E by (unfold key; congruence). rewrite E in Hm. done.
      * destruct o as [o1 c]. cbn in Efo. subst o1. symmetry in D1, D2. eapply wlp_mono; [by eapply (merge_entry_spec F G1 s1 d dx)|]. intros last s' Hm. eapply merged_from; [|done|done|done].
        by rewrite K1 in Hm.
Qed.

(** ** Counts *)

Definition same_tab (t t' : ht) : Prop := ent t' = ent t /\ buckets t' = buckets t /\ forall v, hash t' v = hash t v.

(** [d] is added to the counts of the atoms of [l], and labels are renewed. *)
Record counted (d : Z) l (s s' : dpf) : Prop := {
  ct_touch : touch (atoms s) (atoms s');
  ct_pid : forall a x x', atoms s !! a = Some x -> atoms s' !! a = Some x' -> pid x' = pid x;
  ct_cnt : forall a x x', atoms s !! a = Some x -> atoms s' !! a = Some x' ->
    refcnt x' = if decide (a ∈ l) then u8 (refcnt x + d) else refcnt x;
  ct_ok : atoms_ok (atoms s) -> atoms_ok (atoms s');
  ct_hts : forall k, option_Forall2 same_tab (hts s !! k) (hts s' !! k);
  ct_rest : rest s' = rest s /\ dpf_overlap s' = dpf_overlap s /\ brk s' = brk s }.

Lemma same_tab_refl (hs : gmap Z ht) k : option_Forall2 same_tab (hs !! k) (hs !! k).
Proof. destruct (hs !! k); by constructor. Qed.

Lemma counted_trans d l1 l2 s1 s2 s3 : (forall a, a ∈ l1 -> a ∉ l2) -> counted d l1 s1 s2 -> counted d l2 s2 s3 -> counted d (l1 ++ l2) s1 s3.
Proof.
  intros Hd [T1 P1 C1 O1 H1 (R1 & V1 & B1)] [T2 P2 C2 O2 H2 (R2 & V2 & B2)]. split.
  - by eapply touch_trans.
  - intros a x x' Hx Hx'. destruct (touch_get _ _ _ _ T1 Hx) as (y & Hy & _). rewrite (P2 a y x' Hy Hx'). by apply (P1 a).
  - intros a x x' Hx Hx'. destruct (touch_get _ _ _ _ T1 Hx) as (y & Hy & _). rewrite (C2 a y x' Hy Hx'), (C1 a x y Hx Hy).
    specialize (Hd a). repeat case_decide; try done; set_solver.
  - auto.
  - intros k. specialize (H1 k). specialize (H2 k). destruct H1 as [t t' (E1 & E2 & E3)|]; inversion H2 as [? t2 (E4 & E5 & E6)|]; subst; constructor. split_and!; [congruence|congruence|]. intros v. by rewrite E6, E3.
  - split_and!; congruence.
Qed.

Lemma counted_relabel d s h' : relabel (atoms s) h' -> counted d [] s (set_atoms h' s).
Proof.
  intros (T & P & O). split; try done; cbn.
  - intros a x x' Hx Hx'. by apply (P a x x').
  - intros a x x' Hx Hx'. by apply (P a x x').
  - intros k. apply same_tab_refl.
Qed.
Lemma counted_refl d s : counted d [] s s.
Proof. destruct s. apply (counted_relabel d (mkDpf _ _ _ _ _ _ _ _ _ _)), relabel_refl. Qed.

Lemma counted_ht d s (k : Z) (t t' : ht) : hts s !! k = Some t -> same_tab t t' -> counted d [] s (set_hts (<[k := t']> (hts s)) s).
Proof.
  intros Ht Hs. split; try done; cbn.
  - apply touch_refl.
  - intros. by simplify_eq.
  - intros. by simplify_eq.
  - intros j. destruct (decide (j = k)) as [->|]; [rewrite lookup_insert_eq, Ht; by constructor|]. rewrite lookup_insert_ne by done. apply same_tab_refl.
Qed.

Lemma counted_one d s a x : atoms s !! a = Some x -> counted d [a] s (set_atoms (<[a := set_refcnt (u8 (refcnt x + d)) x]> (atoms s)) s).
Proof.
  intros Hx. assert (touch (atoms s) (<[a := set_refcnt (u8 (refcnt x + d)) x]> (atoms s))) as T by by eapply touch_insert.
  assert (forall b y, <[a := set_refcnt (u8 (refcnt x + d)) x]> (atoms s) !! b = Some y -> (b = a /\ y = set_refcnt (u8 (refcnt x + d)) x) \/ (b <> a /\ atoms s !! b = Some y)) as Hget.
  { intros b y. destruct (decide (b = a)) as [->|]; [rewrite lookup_insert_eq; intros [= <-]; by left|rewrite lookup_insert_ne by done; by right]. }
  split; try done; cbn.
  - intros b y y' Hy [[-> ->]|[_ Hy']]%Hget; by simplify_eq.
  - intros b y y' Hy Hy'. destruct (Hget b y' Hy') as [[-> ->]|[Hne Hy2]]; simplify_eq; [rewrite decide_True by set_solver; done|].
    by rewrite decide_False by set_solver.
  - intros [W L D]. split.
    + intros b y [[-> ->]|[_ Hy]]%Hget; [by apply (W a x)|eauto].
    + intros b y [[-> ->]|[_ Hy]]%Hget; [|eauto]. intros Hi. apply (L a x Hx Hi).
    + intros y [[Ed ->]|[_ Hy]]%Hget; [|eauto]. subst a. by apply (D x).
  - intros j. apply same_tab_refl.
Qed.

Lemma counted_compile d a s : eq_ops (atoms s) -> a <> done_atom -> wlp (dpf_compile_atom a) s (fun _ s' => counted d [] s s').
Proof.
  intros Ho Hd. eapply wlp_mono; [by apply relabel_compile|]. intros [] s' (h' & -> & Hr). by apply counted_relabel.
Qed.

Lemma counted_count_ht d e p a last s : wlp (count_ht p a last e) s (fun _ s' => counted d [] s s').
Proof.
  unfold count_ht. destruct (p =? 0); [wl; apply counted_refl|]. wl. apply wlp_get_atom. intros y Hy. destruct (at_ht y =? 0); [wl; apply counted_refl|].
  apply wlp_upd_ht. intros t Ht. apply (counted_ht _ _ _ t); [done|]. by destruct (a =? last).
Qed.

Lemma counted_eq_ops d l s s' : counted d l s s' -> eq_ops (atoms s) -> eq_ops (atoms s').
Proof. intros H. eapply touch_eq_ops, ct_touch, H. Qed.

(** A step that changes no counts after one that does. *)
Lemma counted_nil d l s1 s2 s3 : counted d l s1 s2 -> counted d [] s2 s3 -> counted d l s1 s3.
Proof. intros H1 H2. rewrite <- (app_nil_r l). eapply counted_trans; [|done|done]. set_solver. Qed.

Lemma bump_loop_spec (n : nat) : forall a last l s, up (atoms s) dpf_base a l -> a <> done_atom -> shape (atoms s) 0 -> eq_ops (atoms s) ->
  wlp (bump_loop n a last) s (fun _ s' => exists s1, counted 1 l s s1 /\ counted 1 [dpf_base] s1 s').
Proof.
  induction n as [|n IH]; intros a last l s Hu Hd SH Ho; cbn [bump_loop].
  { destruct (Z.eqb_spec a 0) as [->|]; [|done]. inversion Hu as [|? x ? ? Hx]; subst. pose proof (sh_zero _ _ SH). congruence. }
  assert (a <> 0) as Ha0. { intros ->. inversion Hu as [|? x ? ? Hx]; subst. pose proof (sh_zero _ _ SH). congruence. }
  rewrite (proj2 (Z.eqb_neq _ _) Ha0). wl. apply wlp_upd_atom. intros x Hx. pose proof (counted_one 1 s a x Hx) as C1.
  wl. apply wlp_get_atom. intros x' Hx'. cbn in Hx'. rewrite lookup_insert_eq in Hx'. injection Hx' as <-. cbn.
  wl. eapply wlp_mono; [apply (counted_count_ht 1)|]. intros [] s2 C2. pose proof (counted_nil _ _ _ _ _ C1 C2) as C12. clear C1 C2.
  wl. apply wlp_mono with (Q := fun _ s3 => counted 1 [a] s s3).
  { destruct (at_ht x =? 0); [by wl|]. wl. wl. wl. wl. destruct (ht_regenp _); [|by wl].
    eapply wlp_mono; [apply (counted_compile 1); [by eapply counted_eq_ops|done]|]. intros [] s3 C3. by eapply counted_nil. }
  clear C12. intros [] s3 C. destruct (touch_get _ _ _ _ (ct_touch _ _ _ _ C) Hx) as (x3 & Hx3 & _).
  assert (shape (atoms s3) 0) as SH3.
  { eapply touch_shape; [apply (ct_touch _ _ _ _ C)| | |done]; intros z' Hz'; destruct (touch_back _ _ _ _ (ct_touch _ _ _ _ C) Hz') as (z & Hz & _);
      rewrite (ct_pid _ _ _ _ C _ _ _ Hz Hz'); [destruct (sh_base _ _ SH) as (w & ? & ? & ? & ? & _)|destruct (sh_done _ _ SH) as (w & ? & ? & ? & ? & ? & _)]; by simplify_eq. }
  inversion Hu as [Eb|? z ? Hab Hz Hu']; subst.
  - destruct (sh_base _ _ SH) as (w & Hw & Ew & _). simplify_eq. rewrite Ew. destruct n; exists s; (split; [apply counted_refl|done]).
  - assert (z = x) as -> by congruence. assert (parent x <> done_atom) as Hpd.
    { intros E. rewrite E in Hu'. inversion Hu' as [|? w ? _ Hw Hu2]; subst. destruct (sh_done _ _ SH) as (w' & ? & ? & _). simplify_eq.
      rewrite H0 in Hu2. inversion Hu2 as [|? v ? _ Hv]; subst. pose proof (sh_zero _ _ SH). congruence. }
    eapply wlp_mono; [apply IH; [by eapply touch_up, Hu'; apply ct_touch in C|done|done|by eapply counted_eq_ops]|].
    intros [] s' (s4 & C4 & C5). exists s4. split; [|done]. change (a :: l0) with ([a] ++ l0). eapply counted_trans; [|done|done].
    intros b ->%list_elem_of_singleton. apply up_NoDup in Hu. by apply NoDup_cons in Hu as [].
Qed.

Lemma counted_tabs d l s s' : counted d l s s' -> tabs (atoms s) (hts s) -> tabs (atoms s') (hts s').
Proof.
  intros C TB. assert (tabs (atoms s') (hts s)) as TB1.
  { eapply touch_tabs; [apply (ct_touch _ _ _ _ C)| |done]. intros a x' Hx' Hh. destruct (touch_back _ _ _ _ (ct_touch _ _ _ _ C) Hx') as (x & Hx & []).
    rewrite (ct_pid _ _ _ _ C _ _ _ Hx Hx'). apply (tb_all _ _ TB a x Hx). congruence. }
  destruct TB1 as [A I]. split; [|done]. intros a x Hx Hh. destruct (A a x Hx Hh) as [T1 (t & Ht & T2 & T3) T4]. split; [done| |done].
  pose proof (ct_hts _ _ _ _ C (at_ht x)) as H. rewrite Ht in H. inversion H as [? t' (E1 & E2 & E3) Et|]; subst. exists t'. rewrite E1. split_and!; [done|done|].
  eapply filled_keep; [apply kidsame_refl|done|done|done].
Qed.

Lemma counted_shape d l s s' R : counted d l s s' -> shape (atoms s) R -> shape (atoms s') R.
Proof.
  intros C SH. eapply touch_shape; [apply (ct_touch _ _ _ _ C)| | |done]; intros z' Hz'; destruct (touch_back _ _ _ _ (ct_touch _ _ _ _ C) Hz') as (z & Hz & _);
    rewrite (ct_pid _ _ _ _ C _ _ _ Hz Hz'); [destruct (sh_base _ _ SH) as (w & ? & ? & ? & ? & _)|destruct (sh_done _ _ SH) as (w & ? & ? & ? & ? & ? & _)]; by simplify_eq.
Qed.

Lemma counted_brk d l s s' : counted d l s s' ->
  3 <= brk s /\ (forall a, brk s <= a -> atoms s !! a = None) /\ (forall a, brk s <= a -> hts s !! a = None) ->
  3 <= brk s' /\ (forall a, brk s' <= a -> atoms s' !! a = None) /\ (forall a, brk s' <= a -> hts s' !! a = None).
Proof.
  intros C (B1 & B2 & B3). destruct (ct_rest _ _ _ _ C) as (_ & _ & ->). split_and!; [done| |]; intros a Ha.
  - eapply touch_none; [apply (ct_touch _ _ _ _ C)|auto].
  - pose proof (ct_hts _ _ _ _ C a) as H. rewrite B3 in H by done. by inversion H.
Qed.

Lemma cnt_bound G a : 0 <= cnt G a <= Z.of_nat (size G).
Proof. split; [apply kcount_nonneg|]. unfold cnt, kcount. apply inj_le, map_subseteq_size, map_filter_subseteq. Qed.

Lemma cnt_insert G p l a : G !! p = None -> cnt (<[p := l]> G) a = cnt G a + (if decide (a ∈ l) then 1 else 0).
Proof. intros Hp. unfold cnt. rewrite kcount_insert_new by done. cbn. case_decide; [rewrite bool_decide_true by done|rewrite bool_decide_false by done]; done. Qed.

Lemma cnt_delete G p l a : G !! p = Some l -> cnt (delete p G) a = cnt G a - (if decide (a ∈ l) then 1 else 0).
Proof. intros Hp. unfold cnt. rewrite (kcount_delete _ G p l Hp). cbn. case_decide; [rewrite bool_decide_true by done|rewrite bool_decide_false by done]; cbn; lia. Qed.

(** The new filter is one of the filters. *)
Lemma counted_insert F G N M np p f s s' last k :
  trie_inv F G N 0 np s -> counted 1 M s s' -> (forall a, inner a -> a ∈ M <-> a ∈ N) -> N = last :: k -> up (atoms s) dpf_base last N -> plain s last -> G !! p = None -> np = p \/ np = 0 ->
  (size G < 255)%nat -> keys (atoms s) N = key <$> f -> trie_inv (<[p := f]> F) (<[p := N]> G) [] 0 0 s'.
Proof.
  intros [SH [U C CN EN P] TB AO BK KS SZ] HC HM -> Hu Hpl Hp Hnp Hsz Hks. pose proof (ct_touch _ _ _ _ HC) as T. split.
  - by eapply counted_shape.
  - split.
    + intros p' l Hl. destruct (decide (p' = p)) as [->|]; [rewrite lookup_insert_eq in Hl; injection Hl as <-; exists last, k; split; [done|by eapply touch_up]|].
      rewrite lookup_insert_ne in Hl by done. destruct (U p' l Hl) as (t & j & -> & H). exists t, j. split; [done|by eapply touch_up].
    + intros a x' Hx' Ia. right. destruct (touch_back _ _ _ _ T Hx') as (x & Hx & _). destruct (C a x Hx Ia) as [H|(p' & l & Hl & Ha)].
      * exists p, (last :: k). by rewrite lookup_insert_eq.
      * exists p', l. rewrite lookup_insert_ne by congruence. done.
    + intros a x' Hx' Ia. destruct (touch_back _ _ _ _ T Hx') as (x & Hx & _). rewrite (ct_cnt _ _ _ _ HC a x x' Hx Hx'), cnt_insert, (CN a x Hx Ia) by done.
      pose proof (cnt_bound G a). specialize (HM a Ia). repeat case_decide; try tauto; [apply u8_small; lia|lia].
    + intros p' t j x' Hl Hx'. destruct (touch_back _ _ _ _ T Hx') as (x & Hx & [_ _ E _]). rewrite E. destruct (decide (p' = p)) as [->|].
      * rewrite lookup_insert_eq in Hl. injection Hl as -> ->. destruct Hpl as (_ & z & Hz & Ez). congruence.
      * rewrite lookup_insert_ne in Hl by done. by apply (EN p' t j x).
    + intros a x' Hx' Hpid. left. destruct (touch_back _ _ _ _ T Hx') as (x & Hx & _). rewrite (ct_pid _ _ _ _ HC a x x' Hx Hx') in *.
      destruct (P a x Hx Hpid) as [[l Hl]|[E [l El]]].
      * exists l. by rewrite lookup_insert_ne by congruence.
      * destruct Hnp as [->| ->]; [|done]. rewrite E, lookup_insert_eq. exists l. congruence.
  - by eapply counted_tabs.
  - by apply (ct_ok _ _ _ _ HC).
  - by eapply counted_brk.
  - intros p' l Hl. rewrite (touch_keys _ _ _ T). destruct (decide (p' = p)) as [->|]; [rewrite lookup_insert_eq in Hl; injection Hl as <-; exists f; by rewrite lookup_insert_eq|].
    rewrite lookup_insert_ne in Hl by done. rewrite lookup_insert_ne by done. eauto.
  - rewrite map_size_insert_None by done. lia.
Qed.

(** ** [instantiate_filter] *)

Lemma instantiate_loop_spec (n : nat) : forall a s l, up (atoms s) dpf_base a l -> shape (atoms s) 0 -> eq_ops (atoms s) ->
  wlp (instantiate_loop n a) s (fun _ s' => exists h', s' = set_atoms h' s /\ relabel (atoms s) h').
Proof.
  assert (forall s, exists h', s = set_atoms h' s /\ relabel (atoms s) h') as Hid. { intros s. exists (atoms s). destruct s. split; [done|apply relabel_refl]. }
  induction n as [|n IH]; intros a s l Hu SH Ho; cbn [instantiate_loop]; destruct (Z.eqb_spec a dpf_base) as [->|Hb]; try (by wl).
  destruct (up_inv _ _ _ _ Hu Hb) as (x & l' & Hx & -> & Hu'). wl. apply wlp_get_atom. intros x' Hx'. assert (x' = x) as -> by congruence.
  assert (a <> done_atom) as Hd.
  { intros ->. destruct (sh_done _ _ SH) as (w' & ? & E & _). simplify_eq. rewrite E in Hu'. inversion Hu' as [|? v ? _ Hv]; subst. pose proof (sh_zero _ _ SH). congruence. }
  destruct (refcnt x =? 1).
  - wl. eapply wlp_mono; [by apply relabel_compile|]. intros [] s1 (h1 & -> & R1). eapply wlp_mono.
    + apply (IH (parent x) _ l'); cbn.
      * eapply touch_up; [by apply relabel_touch|done].
      * eapply (counted_shape 1 [] s (set_atoms h1 s)); [by apply counted_relabel|done].
      * eapply touch_eq_ops; [by apply relabel_touch|done].
    + cbn. intros [] s2 (h2 & -> & R2). exists h2. split; [done|by eapply relabel_trans].
  - destruct (negb (pid x =? 0)); [by apply relabel_compile|by apply (IH _ _ l')].
Qed.

Lemma instantiate_filter_spec F G N np last l s : trie_inv F G N 0 np s -> up (atoms s) dpf_base last l -> inner last ->
  wlp (instantiate_filter last) s (fun _ s' => trie_inv F G N 0 np s' /\ relabel (atoms s) (atoms s') /\ rest s' = rest s /\ dpf_overlap s' = dpf_overlap s).
Proof.
  intros Hi Hu [Hb Hd]. unfold instantiate_filter, natoms. wl. eapply compile_inv; [done|done|]. intros s1 Hi1 R1 H1 E1 O1.
  wl. apply wlp_get_atom. intros x Hx. wl. wl. pose proof (touch_up _ _ _ _ _ (relabel_touch _ _ R1) Hu) as Hu1.
  destruct (up_inv _ _ _ _ Hu1 Hb) as (x' & l' & Hx' & -> & Hu'). assert (x' = x) as -> by congruence.
  eapply wlp_mono; [eapply instantiate_loop_spec; [done|apply (ti_shape _ _ _ _ _ _ Hi1)|by eapply inv_eq_ops]|].
  intros [] s2 (h2 & -> & R2). split_and!; [by apply relabel_inv|by eapply relabel_trans|done|done].
Qed.

(** ** [dpf_merge] *)

Lemma heads_dom F F' G G' N N' R R' np np' s s' p : trie_inv F G N R np s -> trie_inv F' G' N' R' np' s' -> heads G G' -> is_Some (G !! p) <-> is_Some (G' !! p).
Proof.
  intros Hi Hi' Hh. split; intros [l Hl].
  - destruct l as [|t l]; [by destruct (inv_nonempty _ _ _ _ _ _ _ _ Hi Hl)|]. destruct (proj1 (Hh p t)) as [l' Hl']; [eauto|]. eauto.
  - destruct l as [|t l]; [by destruct (inv_nonempty _ _ _ _ _ _ _ _ Hi' Hl)|]. destruct (proj2 (Hh p t)) as [l' Hl']; [eauto|]. eauto.
Qed.

Lemma size_same {A B} (m : gmap Z A) (m' : gmap Z B) : (forall p, is_Some (m !! p) <-> is_Some (m' !! p)) -> size m = size m'.
Proof. intros H. rewrite <- !size_dom. f_equal. apply set_eq. intros p. rewrite !elem_of_dom. apply H. Qed.

Lemma dpf_merge_spec F G p (f : list ir) s :
  trie_inv F G [] 0 0 s -> Forall wf_eq f -> f <> [] -> p <> 0 -> G !! p = None -> (size G < 255)%nat -> dpf_overlap s = false ->
  wlp (dpf_merge f p) s (fun last s' => exists G' k, trie_inv (<[p := f]> F) (<[p := last :: k]> G') [] 0 0 s' /\ G' !! p = None /\ rest s' = rest s /\
    heads G G' /\
    (dpf_overlap s' = true -> (exists p', G' !! p' = Some (last :: k)) /\ forall a x, atoms s' !! a = Some x -> pid x <> p)).
Proof.
  intros Hi Hw Hf Hp0 Hp Hsz Ho. destruct (sh_base _ _ (ti_shape _ _ _ _ _ _ Hi)) as (xb & B1 & _ & B2 & _). unfold dpf_merge, merge, natoms.
  wl. eapply wlp_mono; [apply (merge_loop_spec F p f G s dpf_base xb []); try done; constructor|]. intros last s1 (G1 & N & np & Hi1 & R1 & Hh & Il & Hu & Hk & Hc).
  assert (G1 !! p = None) as Hp1. { pose proof (heads_dom _ _ _ _ _ _ _ _ _ _ _ _ p Hi Hi1 Hh) as E. rewrite Hp in E. destruct (G1 !! p); [|done]. destruct (proj2 E) as [? ?]; [eauto|done]. }
  assert (size G1 = size G) as Hs1. { symmetry. apply size_same. intros p'. by eapply heads_dom. }
  wl. wl. wl. eapply wlp_mono; [apply (bump_loop_spec _ last last N); [done|apply Il|apply (ti_shape _ _ _ _ _ _ Hi1)|by eapply inv_eq_ops]|].
  intros [] s2 (s1' & C1 & C2). assert (counted 1 (N ++ [dpf_base]) s1 s2) as C.
  { eapply counted_trans; [|done|done]. intros a Ha ->%list_elem_of_singleton. by destruct (up_in _ _ _ _ _ Hu Ha). }
  clear C1 C2. destruct (up_inv _ _ _ _ Hu (proj1 (proj1 Il))) as (z & k & _ & -> & _).
  pose proof (touch_up _ _ _ _ _ (ct_touch _ _ _ _ C) Hu) as Hu2. destruct (ct_rest _ _ _ _ C) as (R2 & O2 & _).
  assert (trie_inv (<[p := f]> F) (<[p := last :: k]> G1) [] 0 0 s2) as Hi2.
  { eapply counted_insert; try done; [intros a [Ia _]; rewrite elem_of_app, list_elem_of_singleton; tauto|by destruct Hc as [(_ & -> & _)|(_ & ->)]; [right|left]|by rewrite Hs1]. }
  wl. pose proof (proj1 Il) as Il1. eapply wlp_mono; [by eapply instantiate_filter_spec|]. intros [] s3 (Hi3 & R3 & E3 & O3). wl.
  exists G1, k. split_and!; try done; [congruence|]. intros Ho3. destruct Hc as [(_ & -> & Hex)|(Ho1 & _)]; [|congruence]. split; [done|].
  intros a x3 Hx3. destruct (touch_back _ _ _ _ (relabel_touch _ _ R3) Hx3) as (x2 & Hx2 & _). destruct R3 as (_ & R3 & _). rewrite (proj2 (R3 a x2 x3 Hx2 Hx3)).
  destruct (touch_back _ _ _ _ (ct_touch _ _ _ _ C) Hx2) as (x1 & Hx1 & _). rewrite (ct_pid _ _ _ _ C _ _ _ Hx1 Hx2).
  intros E. destruct (rt_pid _ _ _ _ (ti_routes _ _ _ _ _ _ Hi1) a x1 Hx1) as [[j Hj]|[E1 _]]; congruence.
Qed.

(** ** [dpf_delete] *)

Definition dead (s : dpf) a : bool := match atoms s !! a with Some x => refcnt x =? 1 | None => false end.
Definition deads (s : dpf) l : list Z := filter (fun a => dead s a = true) l.

Lemma deads_same s s' l : (forall a, a ∈ l -> refcnt <$> atoms s' !! a = refcnt <$> atoms s !! a) -> deads s' l = deads s l.
Proof.
  intros H. induction l as [|a l IH]; [done|]. unfold deads in *. rewrite !filter_cons, IH by set_solver.
  assert (dead s' a = dead s a) as ->; [|done]. specialize (H a ltac:(set_solver)). unfold dead.
  destruct (atoms s !! a), (atoms s' !! a); cbn in H; try done. by injection H as ->.
Qed.

Lemma unref_loop_spec (n : nat) last : forall a l s fl, up (atoms s) dpf_base a l ->
  wlp (unref_loop n a last fl) s (fun o s' => counted (-1) l s s' /\ o = reverse (deads s l) ++ fl).
Proof.
  induction n as [|n IH]; intros a l s fl Hu; cbn [unref_loop]; destruct (Z.eqb_spec a dpf_base) as [->|Hb].
  1,3: wl; inversion Hu; subst; [split; [apply counted_refl|done]|done].
  { done. }
  destruct (up_inv _ _ _ _ Hu Hb) as (x & k & Hx & -> & Hk). wl. apply wlp_get_atom. intros x' Hx'. assert (x' = x) as -> by congruence. wl. wl.
  pose proof (counted_one (-1) s a x Hx) as C1. wl. eapply wlp_mono; [apply (counted_count_ht (-1))|]. intros [] s2 C2.
  pose proof (counted_nil _ _ _ _ _ C1 C2) as C. clear C1 C2. wl. apply wlp_mono with (Q := fun _ s3 => counted (-1) [a] s s3).
  { destruct (at_ht x =? 0); [by wl|]. wl. wl. by wl. }
  clear C s2. intros [] s2 C. pose proof (ct_touch _ _ _ _ C) as T. pose proof (up_NoDup _ _ _ _ Hu) as [Hak _]%NoDup_cons.
  eapply wlp_mono; [apply (IH (parent x) k); by eapply touch_up|]. intros o s3 (C3 & ->). split.
  - change (a :: k) with ([a] ++ k). eapply counted_trans; [|done|done]. by intros b ->%list_elem_of_singleton.
  - assert (deads s2 k = deads s k) as ->.
    { apply deads_same. intros b Hbk. destruct (up_in _ _ _ _ _ Hu (list_elem_of_further _ _ _ Hbk)) as [[y Hy] Hbb]. destruct (touch_get _ _ _ _ T Hy) as (y' & Hy' & _). rewrite Hy, Hy'. cbn. f_equal.
      rewrite (ct_cnt _ _ _ _ C b y y' Hy Hy'), decide_False; [done|]. intros ->%list_elem_of_singleton. done. }
    assert (dead s a = (refcnt x =? 1)) as Ed by (unfold dead; by rewrite Hx).
    unfold deads at 2. rewrite filter_cons, <- Ed. fold (deads s k). case_decide as E; [rewrite E; by rewrite reverse_cons, <- app_assoc|]. by destruct (dead s a).
Qed.

(** Without the filter [p]: only its dead atoms are needed by no filter. *)
Lemma counted_delete F G p l s s' :
  trie_inv F G [] 0 0 s -> counted (-1) l s s' -> G !! p = Some l -> (forall a x, atoms s !! a = Some x -> pid x <> p) ->
  trie_inv (delete p F) (delete p G) (deads s l) 0 0 s'.
Proof.
  intros [SH [U C CN EN P] TB AO BK KS SZ] HC Hl Hp. pose proof (ct_touch _ _ _ _ HC) as T.
  assert (forall a x, atoms s !! a = Some x -> inner a -> a ∈ l -> 1 <= refcnt x < 256) as Hpos.
  { intros a x Hx Ia Ha. rewrite (CN a x Hx Ia). pose proof (cnt_bound G a). split; [|lia].
    assert (0 < cnt G a); [|lia]. eapply kcount_pos; [done|]. cbn. by rewrite bool_decide_true. }
  split.
  - by eapply counted_shape.
  - split.
    + intros p' k [Hne Hk]%lookup_delete_Some. destruct (U p' k Hk) as (t & j & -> & H). exists t, j. split; [done|by eapply touch_up].
    + intros a x' Hx' Ia. destruct (touch_back _ _ _ _ T Hx') as (x & Hx & _). destruct (decide (a ∈ l /\ refcnt x = 1)) as [[Ha E]|Hn].
      * left. apply list_elem_of_filter. unfold dead. rewrite Hx, E. done.
      * right. assert (0 < cnt (delete p G) a) as Hc.
        { rewrite (cnt_delete _ _ _ _ Hl), <- (CN a x Hx Ia). destruct (decide (a ∈ l)) as [Ha|Ha]; [pose proof (Hpos a x Hx Ia Ha); assert (refcnt x <> 1) by tauto; lia|].
          rewrite (CN a x Hx Ia). destruct (C a x Hx Ia) as [H|(p' & k & Hk & Hak)]; [by apply not_elem_of_nil in H|].
          assert (0 < cnt G a); [|lia]. eapply kcount_pos; [done|]. cbn. by rewrite bool_decide_true. }
        destruct (decide (map_Forall (fun _ k => a ∉ k) (delete p G))) as [Hall|Hex].
        { exfalso. assert (cnt (delete p G) a = 0); [|lia]. apply kcount_zero. intros p' k Hk. cbn. apply bool_decide_eq_false. by apply (Hall p'). }
        apply map_not_Forall in Hex as (p' & k & Hk & Hak); [|intros ? ?; apply _]. exists p', k. split; [done|]. by apply dec_stable.
    + intros a x' Hx' Ia. destruct (touch_back _ _ _ _ T Hx') as (x & Hx & _). rewrite (ct_cnt _ _ _ _ HC a x x' Hx Hx'), (cnt_delete _ _ _ _ Hl), <- (CN a x Hx Ia).
      case_decide as Ha; [|lia]. pose proof (Hpos a x Hx Ia Ha). apply u8_small. lia.
    + intros p' t j x' [_ Hk]%lookup_delete_Some Hx'. destruct (touch_back _ _ _ _ T Hx') as (x & Hx & [_ _ E _]). rewrite E. by apply (EN p' t j x).
    + intros a x' Hx' Hpid. left. destruct (touch_back _ _ _ _ T Hx') as (x & Hx & _). rewrite (ct_pid _ _ _ _ HC a x x' Hx Hx') in *.
      destruct (P a x Hx Hpid) as [[k Hk]|[E _]]; [|done]. exists k. rewrite lookup_delete_ne; [done|]. intros E. by apply (Hp a x Hx).
  - by eapply counted_tabs.
  - by apply (ct_ok _ _ _ _ HC).
  - by eapply counted_brk.
  - intros p' k [Hne Hk]%lookup_delete_Some. rewrite (touch_keys _ _ _ T). rewrite lookup_delete_ne by done. eauto.
  - rewrite map_size_delete, Hl. cbn. lia.
Qed.

(** A filter with the way of another one leaves no atom behind. *)
Lemma deads_shared F G p p' l s : trie_inv F G [] 0 0 s -> p <> p' -> G !! p = Some l -> G !! p' = Some l -> deads s l = [].
Proof.
  intros [SH [U C CN EN P] TB AO BK KS SZ] Hne Hp Hp'. destruct (deads s l) as [|a k] eqn:E; [done|]. exfalso.
  assert (a ∈ deads s l) as Ha by (rewrite E; set_solver). apply list_elem_of_filter in Ha as [Hd Ha]. unfold dead in Hd.
  destruct (atoms s !! a) as [x|] eqn:Hx; [|done]. apply Z.eqb_eq in Hd. destruct (U p l Hp) as (t & j & -> & H).
  assert (inner a) as Ia.
  { split; [by destruct (up_in _ _ _ _ _ H Ha)|]. intros ->. destruct (up_mem _ _ _ _ _ H Ha) as (l1 & l2 & _ & H'). destruct (sh_done _ _ SH) as (y & Hy & Ep & _).
    inversion H' as [|? z ? _ Hz Hu]; subst. assert (z = y) as -> by congruence. rewrite Ep in Hu. inversion Hu as [|? v ? _ Hv]; subst. pose proof (sh_zero _ _ SH). congruence. }
  rewrite (CN a x Hx Ia) in Hd. pose proof (cnt_delete _ _ _ a Hp) as Ec. rewrite decide_True in Ec by done.
  assert (0 < cnt (delete p G) a); [|lia]. apply (kcount_pos _ (delete p G) p' (t :: j)); [by rewrite lookup_delete_ne by done|]. cbn. by rewrite bool_decide_true.
Qed.

(** A filter whose insertion was reported as an overlap. *)
Lemma dpf_delete_overlap F G p a k s :
  trie_inv F (<[p := a :: k]> G) [] 0 0 s -> dpf_active s !! p = Some a -> p < DPF_MAXFILT -> dpf_overlap s = true -> G !! p = None ->
  (exists p', G !! p' = Some (a :: k)) -> (forall b x, atoms s !! b = Some x -> pid x <> p) ->
  wlp (dpf_delete p) s (fun r s' => r = p /\ trie_inv (delete p F) G [] 0 0 s' /\ dpf_active s' = delete p (dpf_active s) /\
    highwater s' = highwater s /\ free_pids s' = p :: free_pids s).
Proof.
  intros Hi Ha Hp Ho Hg [p' Hp'] Hpid. unfold dpf_delete, natoms, dpf_freepid. wl. wl. destruct (Z.leb_spec DPF_MAXFILT p); [lia|]. rewrite Ha, Ho. wl. wl. wl. wl. wl.
  destruct (rt_up _ _ _ _ (ti_routes _ _ _ _ _ _ Hi) p (a :: k)) as (t & j & [= <- <-] & Hu); [apply lookup_insert_eq|].
  eapply wlp_mono; [by apply unref_loop_spec|]. intros fl s1 (C & ->).
  assert (deads s (a :: k) = []) as Hd.
  { assert (p <> p') as Hne by congruence. eapply (deads_shared _ _ p p'); [done|done|by rewrite lookup_insert_eq|by rewrite lookup_insert_ne]. }
  pose proof (counted_delete _ _ p _ _ _ Hi C (lookup_insert_eq _ _ _) Hpid) as Hi1. rewrite Hd in *. rewrite delete_insert_id in Hi1 by done.
  cbn [reverse rev_append app]. destruct (ct_rest _ _ _ _ C) as ([= E1 E2 E3] & E4 & _). wl. wl. wl. wl. wl. wl. wl. cbn. rewrite E1, E2, E3. split_and!; try done.
  by destruct Hi1 as [].
Qed.

(** ** [dpf_insert] *)

Lemma check_irs_spec (l : list ir) : forall n s, Forall wf_eq l ->
  wlp (check_irs l n) s (fun o s' => s' = s /\ exists l' : list ir, o = Some l' /\ Forall2 same_ir l l').
Proof.
  induction l as [|i l IH]; intros n s Hl; cbn [check_irs]; [wl; split; [done|by exists []]|]. apply Forall_cons in Hl as [[E Hi] Hl].
  assert (legal_op i = true /\ forall z, dpf_isaction (set_level z i) = false /\ dpf_isstateeq (set_level z i) = false) as [-> Hz].
  { unfold legal_op, dpf_isaction, dpf_isstateeq, dpf_isshift, dpf_iseq. cbn. by rewrite E. }
  rewrite (proj1 (Hz n)). cbn [negb]. wl. wl. rewrite (proj2 (Hz n)). wl. wl. wl.
  eapply wlp_mono; [by apply IH|]. intros o s' (-> & l' & -> & H). wl. split; [done|]. eexists. split; [done|]. by constructor.
Qed.

(** Fewer than 255 filters when an id is left. *)
Lemma ids_bound {A} (m : gmap Z A) p : (forall q, is_Some (m !! q) -> 1 <= q < 256) -> 1 <= p < 256 -> m !! p = None -> (size m < 255)%nat.
Proof.
  intros Hm Hp Hn. rewrite <- size_dom. assert (dom m ⊆ list_to_set (seqZ 1 255) ∖ {[p]}) as Hs.
  { intros q Hq. apply elem_of_dom in Hq. rewrite elem_of_difference, elem_of_list_to_set, elem_of_seqZ, elem_of_singleton. specialize (Hm q Hq). split; [lia|].
    intros ->. rewrite Hn in Hq. by destruct Hq. }
  apply subseteq_size in Hs. rewrite size_difference, size_singleton, size_list_to_set, length_seqZ in Hs; [lia|apply NoDup_seqZ|].
  intros q ->%elem_of_singleton. rewrite elem_of_list_to_set, elem_of_seqZ. lia.
Qed.

Lemma dpf_allocpid_spec s : pids_ok s ->
  wlp dpf_allocpid s (fun p s' => exists hw l, s' = set_pids hw l s /\ pids_ok s' /\
    (p = -1 \/ 1 <= p < DPF_MAXFILT /\ p < hw /\ (p ∉ l) /\ dpf_active s !! p = None)).
Proof.
  intros [[H1 H2] Hf Hn Ha]. unfold dpf_allocpid. wl. wl. destruct (free_pids s) as [|p l] eqn:E.
  - destruct (Z.leb_spec DPF_MAXFILT (highwater s)).
    + wl. exists (highwater s), []. rewrite <- E. split_and!; [by destruct s|by split; rewrite ?E|by left].
    + wl. wl. wl. exists (highwater s + 1), []. split; [done|]. split.
      * split; cbn; [lia|by intros ? ?%not_elem_of_nil|constructor|]. intros q Hq. specialize (Ha q Hq). lia.
      * right. split_and!; [lia|lia|lia|by apply not_elem_of_nil|]. apply eq_None_not_Some. intros Hq%Ha. lia.
  - wl. wl. wl. exists (highwater s), l. apply NoDup_cons in Hn as [Hn1 Hn2]. destruct (Hf p ltac:(set_solver)) as [Hp1 Hp2]. split; [done|]. split.
    + split; cbn; [done| |done|done]. intros q Hq. apply Hf. set_solver.
    + right. unfold DPF_MAXFILT in *. split_and!; try done; lia.
Qed.

Lemma trie_inv_frame F G N R np s s' : atoms s' = atoms s -> hts s' = hts s -> brk s' = brk s -> trie_inv F G N R np s -> trie_inv F G N R np s'.
Proof. intros E1 E2 E3 [SH RT TB AO BK KS SZ]. split; rewrite ?E1, ?E2, ?E3; done. Qed.

(** What the invariant says of the filters it is kept for. *)
Lemma trie_inv_filters F F' G N R np s : (forall p, is_Some (G !! p) -> (fmap key <$> (F' !! p)) = (fmap key <$> (F !! p))) ->
  trie_inv F G N R np s -> trie_inv F' G N R np s.
Proof.
  intros H [SH RT TB AO BK KS SZ]. split; try done. intros p l Hl. destruct (KS p l Hl) as (f & Hf & E). specialize (H p (ex_intro _ _ Hl)).
  rewrite Hf in H. destruct (F' !! p) as [f'|]; [|done]. exists f'. split; [done|]. cbn in H. congruence.
Qed.

Lemma dpf_insert_spec F s (l : list ir) : dpf_ok F s -> Forall wf_eq l ->
  wlp (dpf_insert l) s (fun r s' => 0 < r /\ F !! r = None /\ dpf_ok (<[r := dpf_coalesce l]> F) s' \/ r < 0 /\ dpf_ok F s').
Proof.
  intros [(G & Hi & Hact) Hp Ho Hd] Hw. unfold dpf_insert. wl. eapply wlp_mono; [by apply dpf_allocpid_spec|]. intros p s1 (hw & fr & -> & Hp1 & Hpid).
  assert (forall s2, rest s2 = rest (set_pids hw fr s) -> dpf_overlap s2 = false -> (exists G2, trie_inv F G2 [] 0 0 s2 /\ heads G G2) -> dpf_ok F s2) as Hok.
  { intros s2 [= R1 R2 R3] O2 (G2 & Hi2 & Hh2). split; [|by destruct Hp1; split; rewrite ?R1, ?R2, ?R3|done|by rewrite R1].
    exists G2. split; [done|]. rewrite R1. intros q t. rewrite Hact. apply Hh2. }
  assert (dpf_ok F (set_pids hw fr s)) as Herr. { apply Hok; [done|done|]. exists G. split; [by destruct Hi as []|apply heads_refl]. }
  destruct Hpid as [->|(Hpr & Hph & Hpf & Hpa)]; [by right|]. destruct (Z.ltb_spec p 0); [lia|]. wl. wl. wl. wl.
  destruct (DPF_MAXELEM <=? _); [wl; by right|]. destruct (Nat.eqb_spec (length l) 0) as [|Hl0]; [wl; by right|].
  wl. eapply wlp_mono; [by apply check_irs_spec|]. intros o s2 (-> & l' & -> & Hsame). wl. wl. wl.
  pose proof (coalesce_same _ _ Hsame) as Hcs. set (f := dpf_coalesce l') in *. set (s1 := set_overlap false _).
  assert (F !! p = None) as HFp. { apply eq_None_not_Some. intros Hs%Hd. rewrite Hpa in Hs. by destruct Hs. }
  assert (forall q, is_Some (G !! q) <-> is_Some (dpf_active s !! q)) as Hdom.
  { intros q. split; intros [v Hv]; [|apply Hact in Hv as [j Hj]; eauto]. destruct v as [|t j]; [by destruct (inv_nonempty _ _ _ _ _ _ _ _ Hi Hv)|].
    exists t. apply Hact. eauto. }
  assert (G !! p = None) as HGp. { apply eq_None_not_Some. intros Hs%Hdom. rewrite Hpa in Hs. by destruct Hs. }
  assert (size G < 255)%nat as Hsz. { apply (ids_bound G p); [|unfold DPF_MAXFILT in *; lia|done]. intros q Hq%Hdom. pose proof (pk_act _ Hp q Hq). pose proof (pk_high _ Hp). unfold DPF_MAXFILT in *. lia. }
  eapply wlp_mono; [apply (dpf_merge_spec F G p f s1); [by eapply trie_inv_frame, Hi|apply dpf_coalesce_wf; by eapply same_wf| |lia|done|done|done]|].
  { intros E%dpf_coalesce_nil. subst l'. inversion Hsame; subst. done. }
  intros last s2 (G2 & k & Hi2 & Hg2 & [= R1 R2 R3] & Hh2 & Hover). wl. wl. wl. wl.
  cbn [dpf_overlap set_active]. destruct (dpf_overlap s2) eqn:Eo; cbn [negb].
  - destruct (Hover eq_refl) as [Hex Hnp]. wl. eapply wlp_mono; [eapply (dpf_delete_overlap _ G2 p last k)|].
    { by eapply trie_inv_frame, Hi2. }
    { cbn. apply lookup_insert_eq. } { lia. } { done. } { done. } { done. } { done. }
    intros r s3 (-> & Hi3 & A3 & W3 & L3). wl. wl. wl. wl. wl. right. split; [done|]. cbn in A3, W3, L3. split; cbn.
    + exists G2. split.
      * eapply trie_inv_filters; [|eapply trie_inv_frame, Hi3; done]. intros q Hq. by rewrite delete_insert_id.
      * intros q t. rewrite A3, R1. rewrite delete_insert_id by done. rewrite Hact. apply Hh2.
    + destruct Hp1 as [P1 P2 P3 P4]. cbn in *. split; cbn; rewrite ?A3, ?W3, ?L3, ?R1, ?R2, ?R3, ?delete_insert_id by done.
      * done.
      * intros q [->|Hq]%elem_of_cons; [split; [lia|done]|by apply P2].
      * by constructor.
      * done.
    + done.
    + intros q. rewrite A3, R1, delete_insert_id by done. apply Hd.
  - wl. left. split_and!; [lia|done|]. split; cbn.
    + exists (<[p := last :: k]> G2). split.
      * eapply trie_inv_filters; [|eapply trie_inv_frame, Hi2; done]. intros q Hq. destruct (decide (q = p)) as [->|].
        -- rewrite !lookup_insert_eq. cbn. f_equal. symmetry. by apply same_key.
        -- by rewrite !lookup_insert_ne.
      * intros q t. rewrite R1. destruct (decide (q = p)) as [->|].
        -- rewrite !lookup_insert_eq. split; [intros [= ->]; eauto|intros [j [= -> _]]; done].
        -- rewrite !lookup_insert_ne by done. rewrite Hact. apply Hh2.
    + destruct Hp1 as [P1 P2 P3 P4]. cbn in *. split; cbn; rewrite ?R1, ?R2, ?R3.
      * done.
      * intros q Hq. destruct (P2 q Hq) as [? ?]. split; [done|]. rewrite lookup_insert_ne; [done|]. set_solver.
      * done.
      * intros q. destruct (decide (q = p)) as [->|]; [lia|]. rewrite lookup_insert_ne by done. apply P4.
    + done.
    + intros q. rewrite R1. destruct (decide (q = p)) as [->|]; [rewrite !lookup_insert_eq; split; eauto|]. rewrite !lookup_insert_ne by done. apply Hd.
Qed.
