(* ===== verification/DpfDelete.v ===== *)
(** * Deletion of filters

    [dpf_delete] takes the atoms that no other filter needs out of the trie and
    frees them: they are the lower end of the way of the filter.  When one entry
    is left in the table that the topmost of them was in, the entry takes the
    place of the node with the table.  What is left is the trie of the other
    filters. *)

From Stdlib Require Import ZArith Lia.
From stdpp Require Import base numbers option list gmap.
From S2P Require Import Prelude Dpf DpfTrie DpfOpt DpfInsert.

Implicit Types (h : gmap Z atom) (a b p t n q r f d : Z) (x y : atom) (l D : list Z) (G : gmap Z (list Z)).

(** ** Freed atoms *)

Definition without D h : gmap Z atom := filter (fun kv => kv.1 ∉ D) h.

Lemma without_get D h a : without D h !! a = if decide (a ∈ D) then None else h !! a.
Proof.
  unfold without. destruct (decide (a ∈ D)) as [Ha|Ha].
  - apply map_lookup_filter_None. right. intros x _. cbn. tauto.
  - destruct (h !! a) as [x|] eqn:E; [by apply map_lookup_filter_Some|]. apply map_lookup_filter_None. by left.
Qed.

Lemma without_some D h a x : without D h !! a = Some x <-> (a ∉ D) /\ h !! a = Some x.
Proof. rewrite without_get. case_decide; naive_solver. Qed.

Lemma without_insert D h a x : a ∉ D -> without D (<[a := x]> h) = <[a := x]> (without D h).
Proof.
  intros Ha. apply map_eq. intros b. rewrite without_get. destruct (decide (b = a)) as [->|].
  - by rewrite decide_False, !lookup_insert_eq.
  - by rewrite !lookup_insert_ne, without_get by done.
Qed.

Lemma without_delete D h a : without D (delete a h) = delete a (without D h).
Proof.
  apply map_eq. intros b. rewrite without_get. destruct (decide (b = a)) as [->|].
  - rewrite !lookup_delete_eq. by case_decide.
  - by rewrite !lookup_delete_ne, without_get by done.
Qed.

Lemma without_cons D h a : without (a :: D) h = without D (delete a h).
Proof.
  apply map_eq. intros b. rewrite !without_get. destruct (decide (b = a)) as [->|].
  - rewrite lookup_delete_eq, decide_True by set_solver. by case_decide.
  - rewrite lookup_delete_ne by done. destruct (decide (b ∈ D)); [rewrite decide_True by set_solver|rewrite decide_False by set_solver]; done.
Qed.

Lemma without_ext D D' h : (forall a, a ∈ D <-> a ∈ D') -> without D h = without D' h.
Proof. intros E. apply map_eq. intros b. rewrite !without_get. specialize (E b). repeat case_decide; tauto. Qed.

Lemma atoms_ok_sub h h' : (forall a x', h' !! a = Some x' -> exists x, h !! a = Some x /\ at_ht x' = at_ht x /\ at_ir x' = at_ir x /\ code x' = code x) ->
  atoms_ok h -> atoms_ok h'.
Proof.
  intros H [W L D]. split.
  - intros a x' Hx' Ia. destruct (H a x' Hx') as (x & Hx & _ & -> & _). by apply (W a x).
  - intros a x' Hx' Ia. destruct (H a x' Hx') as (x & Hx & E1 & E2 & E3). specialize (L a x Hx Ia). unfold label_ok in *. by rewrite E1, E2, E3.
  - intros x' Hx'. destruct (H _ x' Hx') as (x & Hx & _ & _ & ->). by apply D.
Qed.

Lemma without_ok D h : atoms_ok h -> atoms_ok (without D h).
Proof. apply atoms_ok_sub. intros a x [_ Hx]%without_some. eauto. Qed.

Lemma without_relabel D h h1 : relabel h h1 -> atoms_ok h -> relabel (without D h) (without D h1).
Proof.
  intros (T & P & O) Hok. split_and!.
  - intros a. rewrite !without_get. case_decide; [constructor|]. apply T.
  - intros a x x' [_ Hx]%without_some [_ Hx']%without_some. by apply (P a x x').
  - intros _. by apply without_ok, O.
Qed.

Lemma free_dead_spec D s : wlp (mfor free_dead D) s (fun _ s' => s' = set_atoms (without D (atoms s)) s).
Proof.
  revert s. induction D as [|a D IH]; intros s; cbn [mfor].
  - wl. destruct s as [h ? ? ? ? ? ? ? ? ?]. unfold set_atoms. cbn. f_equal. apply map_eq. intros b. rewrite without_get, decide_False; [done|apply not_elem_of_nil].
  - wl. unfold free_dead, free_atom. wl. wl. wl. wl. wl. wl. wl. eapply wlp_mono; [apply IH|]. cbn. intros [] s' ->. unfold set_atoms. cbn. by rewrite without_cons.
Qed.

Lemma list_remove_elem f l b : b ∈ list_remove f l <-> b <> f /\ b ∈ l.
Proof. unfold list_remove. by rewrite list_elem_of_filter. Qed.

Lemma list_remove_length f l : NoDup l -> f ∈ l -> zlen (list_remove f l) = zlen l - 1.
Proof.
  unfold zlen. intros ND Hf. assert (length l = S (length (list_remove f l))) as ->; [|lia]. induction ND as [|b l Hb ND IH]; [by apply not_elem_of_nil in Hf|].
  unfold list_remove. rewrite filter_cons. apply elem_of_cons in Hf as [->|Hf].
  - rewrite decide_False by tauto. cbn. f_equal. symmetry. clear IH ND. induction l as [|c l IH]; [done|]. rewrite filter_cons, decide_True by set_solver. cbn. f_equal. apply IH. set_solver.
  - rewrite decide_True by set_solver. cbn. f_equal. by apply IH.
Qed.

(** An entry less in a table. *)
Definition popped (t t' : ht) b (v : Z) : Prop :=
  buckets t' = <[hash t v := list_remove b (bucket t v)]> (buckets t) /\ (forall w, hash t' w = hash t w) /\ ent t' = ent t - 1.

Section prune.
Context h D q (xq : atom) f (yf : atom).
Hypothesis (SH : shape h 0) (Hq : h !! q = Some xq) (Hf : h !! f = Some yf) (Ef : parent yf = q) (HfD : f ∈ D) (HqD : q ∉ D) (HI : forall a, a ∈ D -> inner a).
Hypothesis (Hdown : forall b y, h !! b = Some y -> parent y ∈ D -> b ∈ D).
Hypothesis (Hup : forall b y, h !! b = Some y -> b ∈ D -> parent y ∈ D \/ b = f).
Let K := list_remove f (kids xq).
Let h' := without D (<[q := set_kids K xq]> h).

Lemma prune_get a x' : h' !! a = Some x' ->
  (a ∉ D) /\ exists x, h !! a = Some x /\ x' = (if decide (a = q) then set_kids K x else x).
Proof.
  intros [Ha Hx]%without_some. split; [done|]. case_decide as E; [subst a; rewrite lookup_insert_eq in Hx; injection Hx as <-; eauto|].
  rewrite lookup_insert_ne in Hx by done. eauto.
Qed.
Lemma prune_has a x : h !! a = Some x -> a ∉ D -> h' !! a = Some (if decide (a = q) then set_kids K x else x).
Proof.
  intros Hx Ha. apply without_some. split; [done|]. case_decide as E; [subst a; rewrite lookup_insert_eq; by simplify_eq|]. by rewrite lookup_insert_ne.
Qed.
Lemma prune_kid b y a : h !! b = Some y -> parent y = a -> a ∉ D -> b ∈ D -> b = f /\ a = q.
Proof. intros Hy Ep Ha Hb. destruct (Hup b y Hy Hb) as [?| ->]; [congruence|]. split; congruence. Qed.

Lemma prune_shape : shape h' 0.
Proof.
  destruct SH as [(xb & B1 & B2 & B3 & B4 & B5) (xd & D1 & D2 & D3 & D4 & D5 & D6) Z ND KD P RT].
  assert (forall a, inner a -> a <> dpf_base /\ a <> done_atom) as Hin by (by intros a []). split.
  - exists (if decide (dpf_base = q) then set_kids K xb else xb). split; [apply prune_has; [done|by intros []%HI]|]. by case_decide.
  - assert (done_atom <> q) as Hdq. { intros <-. assert (xq = xd) as -> by congruence. assert (f ∈ kids xd) as H by (apply (KD _ xd f Hq); eauto). rewrite D3 in H. by apply not_elem_of_nil in H. }
    exists xd. split; [|done]. rewrite (prune_has _ _ D1); [by rewrite decide_False by done|by intros []%HI].
  - unfold h'. rewrite without_get. case_decide; [done|]. rewrite lookup_insert_ne; [done|]. intros E. rewrite E in Hq. congruence.
  - intros a x' (Ha & x & Hx & ->)%prune_get. case_decide; [|by eapply ND]. cbn. apply NoDup_filter. assert (x = xq) as -> by congruence. by eapply ND.
  - intros a x' b (Ha & x & Hx & ->)%prune_get. transitivity ((b ∉ D) /\ exists y, h !! b = Some y /\ parent y = a).
    + case_decide as E.
      * subst a. assert (x = xq) as -> by congruence. cbn. unfold K. rewrite list_remove_elem, (KD q xq b Hq). split.
        -- intros [Hne (y & Hy & Ep)]. split; [|eauto]. intros Hb. by destruct (prune_kid b y q Hy Ep Ha Hb).
        -- intros [Hb (y & Hy & Ep)]. split; [by intros ->|eauto].
      * rewrite (KD a x b Hx). split; [|tauto]. intros (y & Hy & Ep). split; [|eauto]. intros Hb. by destruct (prune_kid b y a Hy Ep Ha Hb).
    + split.
      * intros (Hb & y & Hy & Ep). exists (if decide (b = q) then set_kids K y else y). split; [by apply prune_has|]. by case_decide.
      * intros (y' & (Hb & y & Hy & ->)%prune_get & Ep). split; [done|]. exists y. split; [done|]. by case_decide.
  - intros b y' (Hb & y & Hy & ->)%prune_get Ib _. assert (parent (if decide (b = q) then set_kids K y else y) = parent y) as -> by by case_decide.
    destruct (P b y Hy Ib) as [z Hz]; [intros ->; congruence|]. rewrite (prune_has _ z); [eauto|done|]. intros Hp. by apply Hb, (Hdown b y).
  - done.
Qed.

Lemma prune_up r t l : up h r t l -> (forall a, a ∈ l -> a ∉ D) -> up h' r t l.
Proof.
  intros H Hl. apply (up_same _ _ _ _ _ H). intros b x Hb Hx. eexists. split; [apply prune_has; [done|by apply Hl]|]. by case_decide.
Qed.

Lemma prune_akey a : a ∉ D -> akey h' a = akey h a.
Proof.
  intros Ha. unfold akey. destruct (h !! a) as [x|] eqn:Hx; [rewrite (prune_has a x Hx Ha); by case_decide|].
  destruct (h' !! a) as [x'|] eqn:Hx'; [|done]. apply prune_get in Hx' as (_ & x & ? & _). congruence.
Qed.

Lemma prune_routes G : (forall p l a, G !! p = Some l -> a ∈ l -> a ∉ D) -> routes h G D 0 -> routes h' G [] 0.
Proof.
  intros HG [U C CN EN P]. split.
  - intros p l Hl. destruct (U p l Hl) as (t & k & -> & H). exists t, k. split; [done|]. apply prune_up; [done|]. eauto.
  - intros a x' (Ha & x & Hx & _)%prune_get Ia. destruct (C a x Hx Ia) as [?|?]; [done|by right].
  - intros a x' (Ha & x & Hx & ->)%prune_get Ia. rewrite <- (CN a x Hx Ia). by case_decide.
  - intros p t k x' Hl (Ha & x & Hx & ->)%prune_get. rewrite <- (EN p t k x Hl Hx). by case_decide.
  - intros a x' (Ha & x & Hx & ->)%prune_get Hp. assert (pid (if decide (a = q) then set_kids K x else x) = pid x) as E by by case_decide. rewrite E in *.
    destruct (P a x Hx Hp) as [?|[? _]]; [by left|done].
Qed.

Lemma prune_tabs (hs hs' : gmap Z ht) : tabs h hs ->
  (forall a x, h !! a = Some x -> a <> q -> at_ht x <> 0 -> hs' !! at_ht x = hs !! at_ht x) ->
  (at_ht xq <> 0 -> exists t t' : ht, hs !! at_ht xq = Some t /\ hs' !! at_ht xq = Some t' /\ popped t t' f (val (at_ir yf))) ->
  tabs h' hs'.
Proof.
  intros [A I] Hhs Hqt. split.
  - intros a x' Hx' Hh. pose proof (prune_get a x' Hx') as (Ha & x & Hx & ->). case_decide as E.
    + subst a. assert (x = xq) as -> by congruence. cbn in Hh. destruct (A q xq Hq Hh) as [T1 (u & U1 & U2 & U3) T3].
      destruct (Hqt Hh) as (t & t' & Ht & Ht' & Eb & Eh & Ee). assert (u = t) as -> by congruence. split; [done| |].
      * exists t'. cbn. split_and!; [done| |].
        -- rewrite Ee, U2. unfold K. rewrite list_remove_length; [done|by eapply sh_nodup|]. apply (sh_kids _ _ SH q xq f Hq). eauto.
        -- assert (forall b y, h !! b = Some y -> parent y = q -> b <> f -> h' !! b = Some (if decide (b = q) then set_kids K y else y)) as Hkid.
           { intros b y Hy Ep Hne. apply prune_has; [done|]. intros Hb. by destruct (prune_kid b y q Hy Ep Ha Hb). }
           destruct U3 as [V1 V2 V3]. split.
           ++ intros k l b Hl Hb. rewrite Eb in Hl. assert (exists l', buckets t !! k = Some l' /\ b ∈ l' /\ (k = hash t (val (at_ir yf)) -> b <> f)) as (l' & Hl' & Hb' & Hne).
              { destruct (decide (k = hash t (val (at_ir yf)))) as [->|]; [rewrite lookup_insert_eq in Hl|rewrite lookup_insert_ne in Hl by done; exists l; by split_and!].
                injection Hl as <-. apply list_remove_elem in Hb as [Hne Hb]. unfold bucket in Hb. destruct (buckets t !! _) as [l'|]; [exists l'; by split_and!|by apply not_elem_of_nil in Hb]. }
              destruct (V1 k l' b Hl' Hb') as (y & Hy & Ep & Ek). assert (b <> f) as Hbf. { intros ->. apply Hne; [|done]. assert (y = yf) as -> by congruence. done. }
              eexists. split; [by apply Hkid|]. rewrite Eh. by case_decide.
           ++ intros b y' (Hb & y & Hy & ->)%prune_get Ep. assert (parent y = q /\ at_ir (if decide (b = q) then set_kids K y else y) = at_ir y) as [Ep' ->] by by case_decide.
              assert (b <> f) as Hbf by (by intros ->). pose proof (V2 b y Hy Ep') as Hbk. unfold bucket in *. rewrite Eb, Eh.
              destruct (decide (hash t (val (at_ir y)) = hash t (val (at_ir yf)))) as [E|E]; [|by rewrite lookup_insert_ne].
              rewrite E, lookup_insert_eq. cbn. apply list_remove_elem. split; [done|]. unfold bucket. by rewrite <- E.
           ++ intros b b' y y' (_ & z & Hz & ->)%prune_get (_ & z' & Hz' & ->)%prune_get Ep Ep' Ev. apply (V3 b b' z z'); try done; repeat case_decide; done.
      * intros b y' (Hb & y & Hy & ->)%prune_get Ep. specialize (T3 b y Hy). repeat case_decide; by apply T3.
    + eapply table_keep; [by apply (A a x)|done|done|done|done|by apply (Hhs a x)|]. intros b. split.
      * intros y Hy Ep. exists (if decide (b = q) then set_kids K y else y). split; [|by case_decide]. apply prune_has; [done|]. intros Hb. by destruct (prune_kid b y a Hy Ep Ha Hb).
      * intros y' (Hb & y & Hy & ->)%prune_get Ep. exists y. split; [done|]. by case_decide.
  - intros a a' x x' (_ & z & Hz & ->)%prune_get (_ & z' & Hz' & ->)%prune_get Hh E. apply (I a a' z z'); try done; repeat case_decide; done.
Qed.

Lemma prune_inv F G s hs' : atoms s = h -> (forall p l a, G !! p = Some l -> a ∈ l -> a ∉ D) -> trie_inv F G D 0 0 s -> tabs h' hs' ->
  (forall a, brk s <= a -> hs' !! a = None) -> trie_inv F G [] 0 0 (set_atoms h' (set_hts hs' s)).
Proof.
  intros Es HG [_ RT _ AO (B1 & B2 & B3) KS SZ] TB Hb. rewrite Es in *. split; cbn.
  - apply prune_shape.
  - by apply prune_routes.
  - done.
  - eapply atoms_ok_sub; [|done]. intros a x' (_ & x & Hx & ->)%prune_get. exists x. split; [done|]. by case_decide.
  - split_and!; [done| |done]. intros a Ha. destruct (h' !! a) as [x'|] eqn:Hx'; [|done]. apply prune_get in Hx' as (_ & x & Hx & _). rewrite B2 in Hx by done. done.
  - intros p l Hl. destruct (KS p l Hl) as (g & Hg & E). exists g. split; [done|]. rewrite <- E. apply keys_same. intros b Hb'. apply prune_akey. eauto.
  - done.
Qed.
End prune.

(** ** The last entry of a table *)

Lemma list_remove_cons d b l : list_remove d (b :: l) = if decide (b = d) then list_remove d l else b :: list_remove d l.
Proof. unfold list_remove. rewrite filter_cons. repeat case_decide; tauto. Qed.

Section demote.
Context h (hs : gmap Z ht) d (dx : atom) a (x : atom) q (xq : atom).
Hypothesis (SH : shape h 0) (TB : tabs h hs) (Hd : h !! d = Some dx) (Ha : h !! a = Some x) (Hq : h !! q = Some xq).
Hypothesis (Edq : parent dx = q) (Eax : parent x = d) (Ek : kids dx = [a]) (Hh : at_ht dx <> 0) (Hqd : q <> d) (Hqa : q <> a) (Id : inner d).
Let K := list_remove d (insert_before d a (kids xq)).
Let h' := delete d (<[q := set_kids K xq]> (<[a := set_parent q x]> h)).

Lemma demote_ne : a <> d /\ at_ht x = 0 /\ at_ht xq = 0 /\ inner a /\ d ∈ kids xq /\ (a ∉ kids xq).
Proof.
  destruct (tb_all _ _ TB d dx Hd Hh) as [_ _ T]. destruct (T a x Ha Eax) as (T1 & _). split_and!; [congruence|done| | | |].
  - destruct (decide (at_ht xq = 0)) as [|E]; [done|]. destruct (tb_all _ _ TB q xq Hq E) as [_ _ T']. by destruct (T' d dx Hd Edq).
  - apply (kid_inner _ _ _ _ a SH Hd). rewrite Ek. set_solver.
  - apply (sh_kids _ _ SH q xq d Hq). eauto.
  - intros H. apply (sh_kids _ _ SH q xq a Hq) in H as (y & ? & ?). congruence.
Qed.

Lemma demote_get b y' : h' !! b = Some y' -> b <> d /\ exists y, h !! b = Some y /\
  y' = (if decide (b = q) then set_kids K y else if decide (b = a) then set_parent q y else y).
Proof.
  unfold h'. intros [Hne Hy]%lookup_delete_Some. split; [done|]. destruct (decide (b = q)) as [->|]; [rewrite lookup_insert_eq in Hy; injection Hy as <-; eauto|].
  rewrite lookup_insert_ne in Hy by done. destruct (decide (b = a)) as [->|]; [rewrite lookup_insert_eq in Hy; injection Hy as <-; eauto|].
  rewrite lookup_insert_ne in Hy by done. eauto.
Qed.
Lemma demote_has b y : h !! b = Some y -> b <> d ->
  h' !! b = Some (if decide (b = q) then set_kids K y else if decide (b = a) then set_parent q y else y).
Proof.
  intros Hy Hb. unfold h'. rewrite lookup_delete_ne by done. destruct (decide (b = q)) as [->|]; [rewrite lookup_insert_eq; congruence|].
  rewrite lookup_insert_ne by done. destruct (decide (b = a)) as [->|]; [rewrite lookup_insert_eq; congruence|]. by rewrite lookup_insert_ne.
Qed.
(** What does not change, and where an atom hangs now. *)
Lemma demote_same b y : let y' := if decide (b = q) then set_kids K y else if decide (b = a) then set_parent q y else y in
  at_ht y' = at_ht y /\ at_ir y' = at_ir y /\ refcnt y' = refcnt y /\ pid y' = pid y /\ code y' = code y /\ (b <> q -> kids y' = kids y).
Proof. cbn. repeat case_decide; done. Qed.
Lemma demote_parent b y : h !! b = Some y -> b <> d ->
  parent (if decide (b = q) then set_kids K y else if decide (b = a) then set_parent q y else y) = if decide (parent y = d) then q else parent y.
Proof.
  intros Hy Hb. assert (parent y = d -> b = a) as Hone. { intros E. assert (b ∈ kids dx) as H by (apply (sh_kids _ _ SH d dx b Hd); eauto). rewrite Ek in H. set_solver. }
  destruct (decide (b = q)) as [->|]; cbn.
  - assert (y = xq) as -> by congruence. case_decide as E; [|done]. by destruct (Hone E).
  - destruct (decide (b = a)) as [->|Hba]; cbn; [assert (y = x) as -> by congruence; by rewrite decide_True|]. case_decide as E; [|done]. by destruct (Hone E).
Qed.

Lemma demote_K b : b ∈ K <-> b <> d /\ (b = a \/ b ∈ kids xq).
Proof. destruct demote_ne as (_ & _ & _ & _ & Hk & _). unfold K. rewrite list_remove_elem, (insert_before_perm d a (kids xq) Hk). set_solver. Qed.

Lemma demote_shape : shape h' 0.
Proof.
  destruct SH as [(xb & B1 & B2 & B3 & B4 & B5) (xd & D1 & D2 & D3 & D4 & D5 & D6) Z ND KD P RT]. destruct demote_ne as (Had & _ & _ & Ia & Hk & Hnk). split.
  - pose proof (demote_has dpf_base xb B1) as H. destruct Id as [I1 _]. specialize (H ltac:(congruence)). eexists. split; [exact H|].
    rewrite demote_parent by (done || congruence). destruct (demote_same dpf_base xb) as (-> & -> & _ & -> & _). split_and!; try done. rewrite B2. rewrite decide_False; [done|].
    intros E. rewrite <- E in Hd. congruence.
  - pose proof (demote_has done_atom xd D1) as H. destruct Id as [_ I1]. specialize (H ltac:(congruence)). eexists. split; [exact H|].
    assert (done_atom <> q) as Hdq. { intros <-. assert (xq = xd) as -> by congruence. rewrite D3 in Hk. by apply not_elem_of_nil in Hk. }
    rewrite demote_parent by (done || congruence). destruct (demote_same done_atom xd) as (-> & -> & _ & -> & _ & ->); [|done]. split_and!; try done. rewrite D2. rewrite decide_False; [done|].
    intros E. rewrite <- E in Hd. congruence.
  - destruct (h' !! 0) as [y|] eqn:E; [|done]. apply demote_get in E as (_ & y' & Hy' & _). congruence.
  - intros b y' (Hb & y & Hy & ->)%demote_get. destruct (decide (b = q)) as [->|Hbq]; [|destruct (demote_same b y) as (_ & _ & _ & _ & _ & E); specialize (E Hbq); rewrite decide_False in E by done; rewrite E; by eapply ND].
    cbn. apply NoDup_filter. rewrite (insert_before_perm d a (kids xq) Hk). constructor; [done|by eapply ND].
  - intros b y' c (Hb & y & Hy & ->)%demote_get. transitivity (c <> d /\ exists z, h !! c = Some z /\ (if decide (parent z = d) then q else parent z) = b).
    + destruct (decide (b = q)) as [->|Hbq].
      * assert (y = xq) as -> by congruence. cbn. rewrite demote_K, (KD q xq c Hq). split.
        -- intros [Hc [->|(z & Hz & Ez)]]; split; try done; [exists x; by rewrite decide_True|]. exists z. split; [done|]. rewrite decide_False; congruence.
        -- intros [Hc (z & Hz & Ez)]. split; [done|]. case_decide as E; [|right; eauto]. left. assert (c ∈ kids dx) as H by (apply (KD d dx c Hd); eauto). rewrite Ek in H. set_solver.
      * destruct (demote_same b y) as (_ & _ & _ & _ & _ & E). specialize (E Hbq). rewrite decide_False in E by done. rewrite E, (KD b y c Hy). split.
        -- intros (z & Hz & Ez). split; [congruence|]. exists z. split; [done|]. rewrite decide_False; congruence.
        -- intros [Hc (z & Hz & Ez)]. exists z. split; [done|]. case_decide; [congruence|done].
    + split.
      * intros [Hc (z & Hz & Ez)]. eexists. split; [by apply demote_has|]. by rewrite demote_parent.
      * intros (z' & (Hc & z & Hz & ->)%demote_get & Ez). split; [done|]. exists z. split; [done|]. by rewrite demote_parent in Ez.
  - intros b y' (Hb & y & Hy & ->)%demote_get Ib _. rewrite demote_parent by done. assert (forall c, c <> d -> is_Some (h !! c) -> is_Some (h' !! c)) as Hm.
    { intros c Hc [z Hz]. rewrite (demote_has c z Hz Hc). eauto. }
    case_decide as E; [apply Hm; [done|eauto]|]. apply Hm; [done|]. apply (P b y Hy Ib). intros ->. congruence.
  - done.
Qed.

Lemma demote_up t l : up h dpf_base t l -> up h' dpf_base (if decide (t = d) then q else t) (list_remove d l).
Proof.
  induction 1 as [|b y l Hb Hy Hu IH].
  - rewrite decide_False by (destruct Id; congruence). constructor.
  - rewrite list_remove_cons. destruct (decide (b = d)) as [->|Hbd].
    + assert (y = dx) as -> by congruence. rewrite Edq, decide_False in IH by done. done.
    + econstructor; [done|by apply demote_has|]. rewrite demote_parent by done. done.
Qed.

Lemma demote_akey b : b <> d -> akey h' b = akey h b.
Proof.
  intros Hb. unfold akey. destruct (h !! b) as [y|] eqn:Hy.
  - rewrite (demote_has b y Hy Hb). destruct (demote_same b y) as (-> & -> & _). done.
  - destruct (h' !! b) as [y'|] eqn:Hy'; [|done]. apply demote_get in Hy' as (_ & y & ? & _). congruence.
Qed.

Lemma demote_keys l : keys h' (list_remove d l) = keys h l.
Proof.
  induction l as [|b l IH]; [done|]. rewrite list_remove_cons, keys_cons. case_decide as E.
  - subst b. rewrite IH. unfold akey. rewrite Hd, (proj2 (Z.eqb_neq _ _) Hh). by rewrite app_nil_r.
  - by rewrite keys_cons, IH, demote_akey.
Qed.

Lemma demote_heads G : routes h G [] 0 -> forall p t k, G !! p = Some (t :: k) -> t <> d /\ (list_remove d <$> G) !! p = Some (t :: list_remove d k).
Proof.
  intros [U C CN EN P] p t k Hl. assert (t <> d) as Ht. { intros ->. by apply Hh, (EN p d k). }
  split; [done|]. rewrite lookup_fmap, Hl. cbn [fmap option_fmap option_map]. by rewrite list_remove_cons, decide_False.
Qed.

Lemma demote_routes G : routes h G [] 0 -> routes h' (list_remove d <$> G) [] 0.
Proof.
  intros RT. pose proof (demote_heads G RT) as HH. destruct RT as [U C CN EN P].
  assert (forall p l', (list_remove d <$> G) !! p = Some l' -> exists t k, G !! p = Some (t :: k) /\ t <> d /\ l' = t :: list_remove d k /\ up h dpf_base t (t :: k)) as Hback.
  { intros p l'. rewrite lookup_fmap. intros (l & Hl & ->)%fmap_Some. destruct (U p l Hl) as (t & k & -> & H). destruct (HH p t k Hl) as [Ht _].
    exists t, k. rewrite list_remove_cons, decide_False by done. done. }
  split.
  - intros p l' Hl'. destruct (Hback p l' Hl') as (t & k & Hl & Ht & -> & H). exists t, (list_remove d k). split; [done|].
    apply demote_up in H. by rewrite list_remove_cons, !decide_False in H.
  - intros b y' (Hb & y & Hy & ->)%demote_get Ib. destruct (C b y Hy Ib) as [H|(p & l & Hl & Hbl)]; [by apply not_elem_of_nil in H|]. right.
    exists p, (list_remove d l). rewrite lookup_fmap, Hl. split; [done|]. by apply list_remove_elem.
  - intros b y' (Hb & y & Hy & ->)%demote_get Ib. destruct (demote_same b y) as (_ & _ & -> & _). rewrite (cnt_fmap G b _ b); [by apply CN|].
    intros p l _. rewrite list_remove_elem. tauto.
  - intros p t k y' Hl' (Hb & y & Hy & ->)%demote_get. destruct (demote_same t y) as (-> & _). destruct (Hback p _ Hl') as (t' & k' & Hl & _ & [= <- _] & _). by apply (EN p t k' y).
  - intros b y' (Hb & y & Hy & ->)%demote_get Hp. destruct (demote_same b y) as (_ & _ & _ & E & _). rewrite E in *. destruct (P b y Hy Hp) as [[l Hl]|[? _]]; [|done].
    left. destruct (HH _ _ _ Hl) as [_ H]. eauto.
Qed.

Lemma demote_tabs : tabs h' (delete (at_ht dx) hs).
Proof.
  destruct demote_ne as (Had & Hx0 & Hq0 & _). destruct TB as [A I]. split.
  - intros b y' Hy' Hn. pose proof (demote_get b y' Hy') as (Hb & y & Hy & ->). destruct (demote_same b y) as (E1 & E2 & E3 & E4 & E5 & E6). rewrite E1 in Hn.
    assert (b <> q) as Hbq by congruence. eapply table_keep; [by apply (A b y)|done|by apply E6|done|done| |].
    + rewrite lookup_delete_ne; [done|]. intros E. apply Hb. by apply (I b d y dx).
    + intros c. split.
      * intros z Hz Ez. assert (c <> d) by congruence. eexists. split; [by apply demote_has|]. rewrite demote_parent by done. destruct (demote_same c z) as (-> & -> & _).
        rewrite decide_False by congruence. done.
      * intros z' (Hc & z & Hz & ->)%demote_get Ez. exists z. rewrite demote_parent in Ez by done. destruct (demote_same c z) as (-> & -> & _). split_and!; try done.
        case_decide; [congruence|done].
  - intros b b' y y' (_ & z & Hz & ->)%demote_get (_ & z' & Hz' & ->)%demote_get. destruct (demote_same b z) as (-> & _), (demote_same b' z') as (-> & _). by apply (I b b').
Qed.

Lemma demote_inv F G s : atoms s = h -> hts s = hs -> trie_inv F G [] 0 0 s ->
  trie_inv F (list_remove d <$> G) [] 0 0 (set_atoms h' (set_hts (delete (at_ht dx) hs) s)) /\ heads G (list_remove d <$> G).
Proof.
  intros Es Et Hi. pose proof Hi as [_ RT _ AO (B1 & B2 & B3) KS SZ]. rewrite Es, Et in *. split; [split; cbn|].
  - apply demote_shape.
  - by apply demote_routes.
  - apply demote_tabs.
  - eapply atoms_ok_sub; [|done]. intros b y' (_ & y & Hy & ->)%demote_get. exists y. destruct (demote_same b y) as (-> & -> & _ & _ & -> & _). done.
  - split_and!; [done| |].
    + intros b Hb. destruct (h' !! b) as [y'|] eqn:Hy'; [|done]. apply demote_get in Hy' as (_ & y & Hy & _). rewrite B2 in Hy by done. done.
    + intros b Hb. rewrite lookup_delete_None. right. by apply B3.
  - intros p l'. rewrite lookup_fmap. intros (l & Hl & ->)%fmap_Some. rewrite demote_keys. eauto.
  - by rewrite map_size_fmap.
  - pose proof (demote_heads G RT) as HH. intros p t. split.
    + intros [l Hl]. destruct (HH p t l Hl). eauto.
    + rewrite lookup_fmap. intros [l' (l & Hl & E)%fmap_Some]. destruct (rt_up _ _ _ _ RT p l Hl) as (t' & k & -> & _). destruct (HH p t' k Hl) as [Ht _].
      rewrite list_remove_cons, decide_False in E by done. injection E as -> _. eauto.
Qed.
End demote.

(** ** [cut] *)

Lemma compile_any a s : eq_ops (atoms s) -> wlp (dpf_compile_atom a) s (fun _ s' => exists h', s' = set_atoms h' s /\ relabel (atoms s) h').
Proof.
  intros Ho. destruct (decide (a = done_atom)) as [->|]; [|by apply relabel_compile].
  unfold dpf_compile_atom. wl. apply wlp_get_atom. intros z Hz. wl. wl. wl.
  assert (dpf_isshift (at_ir z) = false /\ dpf_isaction (at_ir z) = false /\ dpf_isstateeq (at_ir z) = false) as (-> & -> & ->).
  { unfold dpf_isshift, dpf_isaction, dpf_isstateeq. destruct (Ho _ z Hz) as [-> | ->]; done. }
  assert (forall c, wlp (upd_atom done_atom (set_code c)) s (fun _ s' => wlp (upd_atom done_atom (set_code DONE)) s'
    (fun _ s' => exists h', s' = set_atoms h' s /\ relabel (atoms s) h'))) as Hgo.
  { intros c. run. exists (<[done_atom := set_code DONE z]> (atoms s)). split; [unfold set_atoms; cbn; f_equal; by rewrite insert_insert_eq|].
    apply relabel_one; [done|by intros []|done]. }
  destruct (at_ht z =? 0); cbn [negb]; wl; [wl; apply Hgo|]. wl. wl. wl. apply Hgo.
Qed.

Lemma compile_chain a s s0 : eq_ops (atoms s0) -> (exists h', s = set_atoms h' s0 /\ relabel (atoms s0) h') ->
  wlp (dpf_compile_atom a) s (fun _ s' => exists h', s' = set_atoms h' s0 /\ relabel (atoms s0) h').
Proof.
  intros Ho (h1 & -> & R1). eapply wlp_mono; [apply compile_any; cbn; by eapply touch_eq_ops; [apply relabel_touch|]|].
  cbn. intros [] s' (h2 & -> & R2). exists h2. split; [done|]. by eapply relabel_trans.
Qed.

Lemma relabelled_refl s : exists h', s = set_atoms h' s /\ relabel (atoms s) h'.
Proof. exists (atoms s). destruct s. split; [done|apply relabel_refl]. Qed.

(** What the trie is once the atoms [D] are freed. *)
Lemma without_inv F G D s h' : trie_inv F G [] 0 0 (set_atoms (without D (atoms s)) s) -> atoms_ok (atoms s) -> relabel (atoms s) h' ->
  trie_inv F G [] 0 0 (set_atoms (without D h') (set_atoms h' s)).
Proof.
  intros Hi Hok Hr. pose proof (relabel_inv _ _ _ _ _ _ _ Hi (without_relabel D _ _ Hr Hok)) as H. by destruct H.
Qed.

Lemma ht_demote_spec F G D d dx a s : eq_ops (atoms s) -> atoms_ok (atoms s) ->
  trie_inv F G [] 0 0 (set_atoms (without D (atoms s)) s) -> d ∉ D -> atoms s !! d = Some dx -> at_ht dx <> 0 -> inner d -> kids dx = [a] ->
  wlp (ht_demote d) s (fun _ s' => exists G', heads G G' /\ rest s' = rest s /\ dpf_overlap s' = dpf_overlap s /\
    trie_inv F G' [] 0 0 (set_atoms (without D (atoms s')) s')).
Proof.
  intros Ho Hok Hi HdD Hd Hh Id Ek. pose proof Hi as [SH RT TB _ _ _ _]. cbn in SH, RT, TB.
  assert (without D (atoms s) !! d = Some dx) as Hd' by by apply without_some.
  destruct (kid_inner _ _ _ _ a SH Hd') as (Ia & _ & x & Hx' & Ex); [rewrite Ek; set_solver|]. pose proof Hx' as [HaD Hx]%without_some.
  destruct (sh_par _ _ SH d dx Hd' Id) as [xq Hq']; [by eapply shape_nz|]. pose proof Hq' as [HqD Hq]%without_some.
  destruct (rt_cov _ _ _ _ RT d dx Hd' Id) as [H|(p & l & Hl & Hdl)]; [by apply not_elem_of_nil in H|].
  destruct (rt_up _ _ _ _ RT p l Hl) as (t & k & _ & Hu). destruct (up_mem _ _ _ _ d Hu Hdl) as (l1 & l2 & _ & Hud).
  destruct (up_inv _ _ _ _ Hud (proj1 Id)) as (dx' & l3 & Hdx' & [= <-] & Hup). assert (dx' = dx) as -> by congruence.
  assert (parent dx <> d) as Hqd. { intros E. rewrite E in Hup. pose proof (up_det _ _ _ _ _ Hup Hud) as El. apply (f_equal length) in El. cbn in El. lia. }
  assert (parent dx <> a) as Hqa.
  { intros E. rewrite E in Hup. assert (up (without D (atoms s)) dpf_base a (a :: d :: l2)) as Hua by (econstructor; [apply Ia|done|by rewrite Ex]).
    pose proof (up_det _ _ _ _ _ Hup Hua) as El. apply (f_equal length) in El. cbn in El. lia. }
  assert (a <> d) as Had by congruence.
  unfold ht_demote, LIST_INSERT_BEFORE, LIST_REMOVE, free_ht, free_atom. wl. apply wlp_get_atom. intros y Hy. assert (y = dx) as -> by congruence. clear Hy.
  assert (lh_first dx = a) as -> by (unfold lh_first; by rewrite Ek). wl. apply wlp_upd_atom. intros y Hy. assert (y = x) as -> by congruence. clear Hy. wl. wl. apply wlp_get_atom. intros y Hy. proj_in Hy. look_in Hy. assert (y = dx) as -> by congruence. clear Hy.
  apply wlp_upd_atom. intros y Hy. proj_in Hy. look_in Hy. assert (y = xq) as -> by congruence. clear Hy. proj.
  wl. wl. apply wlp_get_atom. intros y Hy. proj_in Hy. look_in Hy. assert (y = dx) as -> by congruence. clear Hy.
  apply wlp_upd_atom. intros y Hy. proj_in Hy. look_in Hy. injection Hy as <-. proj.
  wl. wl. wl. wl. wl. wl. wl. apply wlp_modify.
  match goal with |- wlp _ ?st _ => set (s1 := st) end. set (K := list_remove d (insert_before d a (kids xq))).
  assert (atoms s1 = delete d (<[parent dx := set_kids K xq]> (<[a := set_parent (parent dx) x]> (atoms s)))) as E1 by (unfold s1; proj; by rewrite insert_insert_eq).
  assert (hts s1 = delete (at_ht dx) (hts s) /\ rest s1 = rest s /\ dpf_overlap s1 = dpf_overlap s /\ brk s1 = brk s) as (E2 & E3 & E4 & E5) by done.
  clearbody s1.
  assert (atoms_ok (atoms s1) /\ eq_ops (atoms s1)) as [Hok1 Ho1].
  { assert (forall b y', atoms s1 !! b = Some y' -> exists y, atoms s !! b = Some y /\ at_ht y' = at_ht y /\ at_ir y' = at_ir y /\ code y' = code y) as Hb.
    { rewrite E1. intros b y' [_ Hy]%lookup_delete_Some. destruct (decide (b = parent dx)) as [->|]; [look_in Hy; injection Hy as <-; eauto|].
      destruct (decide (b = a)) as [->|]; look_in Hy; [injection Hy as <-; eauto|eauto]. }
    split; [by eapply atoms_ok_sub|]. intros b y' Hy'. destruct (Hb b y' Hy') as (y & Hy & _ & -> & _). by apply (Ho b y). }
  assert (trie_inv F (list_remove d <$> G) [] 0 0 (set_atoms (without D (atoms s1)) s1) /\ heads G (list_remove d <$> G)) as [Hi1 Hh1].
  { destruct (demote_inv (without D (atoms s)) (hts s) d dx a x (parent dx) xq SH TB Hd' Hx' Hq' eq_refl Ex Ek Hh Hqd Hqa Id F G
      (set_atoms (without D (atoms s)) s) eq_refl eq_refl Hi) as [Hi1 Hh1]. split; [|done].
    eapply trie_inv_frame, Hi1; cbn; [|done|done]. by rewrite E1, without_delete, !without_insert by done. }
  eapply wlp_mono with (Q := fun _ s' => exists h', s' = set_atoms h' s1 /\ relabel (atoms s1) h').
  - wl. eapply wlp_mono; [apply (compile_chain a s1 s1); [done|apply relabelled_refl]|]. intros [] s2 H2.
    wl. wl. destruct (_ =? a); [by apply compile_chain|by wl].
  - cbn. intros [] s' (h' & -> & Hr). exists (list_remove d <$> G). split_and!; try done. by apply without_inv.
Qed.

Lemma last_entry l : zlen l = 1 -> exists a, l = [a].
Proof. unfold zlen. destruct l as [|a [|b l]]; cbn; try lia. eauto. Qed.

Section cut.
Context (F : gmap Z (list ir)) G (s : dpf) D q (xq : atom) f (yf : atom).
Hypothesis (Hi : trie_inv F G D 0 0 s) (Hq : atoms s !! q = Some xq) (Hf : atoms s !! f = Some yf) (Ef : parent yf = q) (HfD : f ∈ D) (HqD : q ∉ D).
Hypothesis (HI : forall a, a ∈ D -> inner a).
Hypothesis (Hdown : forall b y, atoms s !! b = Some y -> parent y ∈ D -> b ∈ D).
Hypothesis (Hup : forall b y, atoms s !! b = Some y -> b ∈ D -> parent y ∈ D \/ b = f).
Hypothesis (HG : forall p l a, G !! p = Some l -> a ∈ l -> a ∉ D).
Hypothesis (Hlen : zlen (kids xq) < 2 ^ 32).

Let SH : shape (atoms s) 0 := ti_shape _ _ _ _ _ _ Hi.
Let hq := <[q := set_kids (list_remove f (kids xq)) xq]> (atoms s).

Lemma cut_ok : atoms_ok hq /\ eq_ops hq.
Proof.
  assert (forall b y', hq !! b = Some y' -> exists y, atoms s !! b = Some y /\ at_ht y' = at_ht y /\ at_ir y' = at_ir y /\ code y' = code y) as Hb.
  { unfold hq. intros b y' Hy. destruct (decide (b = q)) as [->|]; look_in Hy; [injection Hy as <-; eauto|eauto]. }
  split; [eapply atoms_ok_sub; [exact Hb|apply (ti_atoms _ _ _ _ _ _ Hi)]|]. intros b y' Hy'. destruct (Hb b y' Hy') as (y & Hy & _ & -> & _).
  by apply (inv_eq_ops _ _ _ _ _ _ Hi b y).
Qed.

(** After the removal of the topmost dead atom. *)
Lemma cut_inv hs' : tabs (without D hq) hs' -> (forall a, brk s <= a -> hs' !! a = None) ->
  trie_inv F G [] 0 0 (set_atoms (without D hq) (set_hts hs' s)).
Proof. intros TB Hb. by eapply (prune_inv (atoms s) D q xq f yf). Qed.

Lemma cut_f : f ∈ kids xq.
Proof. apply (sh_kids _ _ SH q xq f Hq). eauto. Qed.

(** The entry that [ht_delete] finds by its value is [f]. *)
Lemma ht_delete_spec : at_ht xq <> 0 ->
  wlp (ht_delete q (val (at_ir yf))) (set_atoms hq s) (fun _ s' => exists h' (t' : ht), relabel hq h' /\ s' = set_atoms h' (set_hts (<[at_ht xq := t']> (hts s)) s) /\
    ent t' = zlen (list_remove f (kids xq)) /\ trie_inv F G [] 0 0 (set_atoms (without D h') s')).
Proof.
  intros Hh. destruct (tb_all _ _ (ti_tabs _ _ _ _ _ _ Hi) q xq Hq Hh) as [_ (t & Ht & T2 & T3) _]. pose proof cut_ok as [Hok Ho]. pose proof cut_f as Hfk.
  assert (ent t = zlen (list_remove f (kids xq)) + 1) as Eent. { rewrite list_remove_length; [lia|by eapply sh_nodup|done]. }
  assert (0 <= zlen (list_remove f (kids xq))) as Hnn by (unfold zlen; lia).
  unfold ht_delete. wl. apply wlp_get_atom. intros x0 Hx0. cbn in Hx0. unfold hq in Hx0. look_in Hx0. injection Hx0 as <-. proj.
  wl. apply wlp_get_ht. intros t0 Ht0. cbn in Ht0. assert (t0 = t) as -> by congruence.
  wl. eapply wlp_mono; [apply ht_lookup_run|]. intros o s1 (-> & _ & Ho' & _). wl. apply wlp_of_option. intros b Eb. destruct (Ho' b Eb) as (Hb & z & Hz & Ev).
  assert (b = f) as ->.
  { unfold bucket in Hb. destruct (buckets t !! _) as [lb|] eqn:Elb; [|by apply not_elem_of_nil in Hb]. destruct (fl_in _ _ _ T3 _ _ _ Elb Hb) as (y & Hy & Ep & _).
    apply (fl_val _ _ _ T3 b f y yf); try done. cbn in Hz. unfold hq in Hz. destruct (decide (b = q)) as [->|]; look_in Hz; [injection Hz as <-; cbn in Ev; congruence|congruence]. }
  wl. apply wlp_upd_ht. intros t1 Ht1. cbn in Ht1. assert (t1 = t) as -> by congruence. clear Ht1. wl. wl. wl. apply wlp_upd_ht. intros t1 Ht1. proj_in Ht1. look_in Ht1. injection Ht1 as <-.
  wl. apply wlp_get_ht. intros t1 Ht1. proj_in Ht1. look_in Ht1. injection Ht1 as <-. wl. wl.
  match goal with |- context [ht_regenp ?u] => set (t' := u) end. match goal with |- wlp _ ?st _ => set (s1 := st) end.
  assert (s1 = set_atoms hq (set_hts (<[at_ht xq := t']> (hts s)) s)) as E1 by (unfold s1, set_atoms, set_hts; cbn; f_equal; by rewrite insert_insert_eq).
  assert (popped t t' f (val (at_ir yf)) /\ ent t' = zlen (list_remove f (kids xq))) as [Hpop Het].
  { unfold t'. cbn. assert (u32 (ent t - 1) = ent t - 1) as E by (apply u32_small; lia). split; [|lia]. split_and!; [done|done|]. cbn. done. }
  clearbody t' s1. assert (trie_inv F G [] 0 0 (set_atoms (without D hq) (set_hts (<[at_ht xq := t']> (hts s)) s))) as Hi1.
  { apply cut_inv.
    - eapply (prune_tabs (atoms s) D q xq f yf) with (hs := hts s); try done; [apply (ti_tabs _ _ _ _ _ _ Hi)| |].
      + intros a x Hx Hne Hx0. rewrite lookup_insert_ne; [done|]. intros E. apply Hne. symmetry. by apply (tb_inj _ _ (ti_tabs _ _ _ _ _ _ Hi) q a xq x).
      + intros _. exists t, t'. by rewrite lookup_insert_eq.
    - intros a Ha. destruct (ti_brk _ _ _ _ _ _ Hi) as (_ & _ & B3). rewrite lookup_insert_ne; [by apply B3|]. intros <-. rewrite B3 in Ht by done. done. }
  assert (forall h', relabel hq h' -> exists h'' (t'' : ht), relabel hq h'' /\ set_atoms h' (set_hts (<[at_ht xq := t']> (hts s)) s) = set_atoms h'' (set_hts (<[at_ht xq := t'']> (hts s)) s) /\
    ent t'' = zlen (list_remove f (kids xq)) /\ trie_inv F G [] 0 0 (set_atoms (without D h'') (set_atoms h' (set_hts (<[at_ht xq := t']> (hts s)) s)))) as Hfin.
  { intros h' Hr. exists h', t'. split_and!; try done. pose proof (relabel_inv _ _ _ _ _ _ _ Hi1 (without_relabel D _ _ Hr Hok)) as H. by destruct H. }
  rewrite E1. destruct (_ && _); [|wl; by apply Hfin, relabel_refl].
  eapply wlp_mono; [by apply compile_any|]. cbn. intros [] s2 (h' & -> & Hr). destruct (Hfin h' Hr) as (h'' & t'' & ? & ? & ? & ?). by exists h'', t''.
Qed.

Lemma cut_spec : wlp (cut f) s (fun _ s' => exists G', heads G G' /\ rest s' = rest s /\ dpf_overlap s' = dpf_overlap s /\
  trie_inv F G' [] 0 0 (set_atoms (without D (atoms s')) s')).
Proof.
  pose proof cut_ok as [Hok Ho]. pose proof cut_f as Hfk. assert (f <> q) as Hfq by (intros E; apply HqD; by rewrite <- E).
  unfold cut, orlist_p, LIST_REMOVE. wl. apply wlp_get_atom. intros x0 Hx0. assert (x0 = yf) as -> by congruence. rewrite Ef. clear Hx0.
  wl. wl. apply wlp_get_atom. intros x0 Hx0. assert (x0 = yf) as -> by congruence. rewrite Ef. clear Hx0. wl. wl. wl. wl. wl. wl. apply wlp_get_atom. intros y Hy. assert (y = xq) as -> by congruence. clear Hy.
  wl. wl. apply wlp_get_atom. intros x0 Hx0. assert (x0 = yf) as -> by congruence. rewrite Ef. clear Hx0. apply wlp_upd_atom. intros y Hy. assert (y = xq) as -> by congruence. clear Hy.
  change (set_atoms (<[q := set_kids (list_remove f (kids xq)) xq]> (atoms s)) s) with (set_atoms hq s).
  destruct (Z.eqb_spec (at_ht xq) 0) as [Eh|Eh]; cbn [negb].
  - assert (trie_inv F G [] 0 0 (set_atoms (without D hq) (set_hts (hts s) s))) as Hi1.
    { apply cut_inv; [|by destruct (ti_brk _ _ _ _ _ _ Hi) as (_ & _ & ?)]. eapply (prune_tabs (atoms s) D q xq f yf) with (hs := hts s); try done. apply (ti_tabs _ _ _ _ _ _ Hi). }
    eapply wlp_mono with (Q := fun _ s' => exists h', s' = set_atoms h' (set_atoms hq s) /\ relabel (atoms (set_atoms hq s)) h').
    + assert (forall a s1, (exists h', s1 = set_atoms h' (set_atoms hq s) /\ relabel (atoms (set_atoms hq s)) h') ->
        wlp (dpf_compile_atom a) s1 (fun _ s' => exists h', s' = set_atoms h' (set_atoms hq s) /\ relabel (atoms (set_atoms hq s)) h')) as Hc.
      { intros a s1. apply compile_chain. exact Ho. }
      pose proof (relabelled_refl (set_atoms hq s)) as Hr0.
      repeat match goal with |- wlp (if ?b then _ else _) _ _ => destruct b end; try (by wl); try by apply Hc.
      * wl. eapply wlp_mono; [by apply Hc|]. intros [] s2 H2. by apply Hc.
      * wl. wl. by apply Hc.
    + cbn. intros [] s' (h' & -> & Hr). exists G. split_and!; try done. pose proof (relabel_inv _ _ _ _ _ _ _ Hi1 (without_relabel D _ _ Hr Hok)) as Hd. by destruct Hd.
  - wl. eapply wlp_mono; [by apply ht_delete_spec|]. intros [] s2 (h' & t' & Hr & -> & Et & Hi2). wl. apply wlp_get_ht. intros t Ht. cbn in Ht. rewrite lookup_insert_eq in Ht. injection Ht as <-.
    assert (heads G G) as Hh0 by apply heads_refl. destruct (Z.eqb_spec (ent t') 1) as [E1|E1].
    + rewrite Et in E1. destruct (last_entry _ E1) as [a Ea]. assert (hq !! q = Some (set_kids [a] xq)) as Hqq by (unfold hq; rewrite lookup_insert_eq, Ea; done).
      destruct (touch_get _ _ _ _ (relabel_touch _ _ Hr) Hqq) as (dx & Hdx & [E2 E3 E4 E5]).
      eapply wlp_mono; [eapply (ht_demote_spec F G D q dx a)|].
      * cbn. eapply touch_eq_ops; [by apply relabel_touch|done].
      * cbn. destruct Hr as (_ & _ & Hr). by apply Hr.
      * done.
      * done.
      * done.
      * rewrite E4. done.
      * split; [|intros ->]. { intros ->. destruct (sh_base _ _ SH) as (xb & ? & ? & ? & _). congruence. } destruct (sh_done _ _ SH) as (xd & ? & ? & ? & ? & _). congruence.
      * by rewrite E3.
      * cbn. intros [] s3 (G' & ? & ? & ? & ?). by exists G'.
    + wl. exists G. by split_and!.
Qed.
End cut.

(** ** The atoms of one filter only *)

Lemma way_inner F G N s p l a : trie_inv F G N 0 0 s -> G !! p = Some l -> a ∈ l -> inner a /\ is_Some (atoms s !! a).
Proof.
  intros [SH RT _ _ _ _ _] Hl Ha. destruct (rt_up _ _ _ _ RT p l Hl) as (t & k & -> & H). destruct (up_in _ _ _ _ _ H Ha) as [Hs Hb]. split; [split; [done|]|done].
  intros ->. destruct (up_mem _ _ _ _ _ H Ha) as (l1 & l2 & _ & H'). destruct (sh_done _ _ SH) as (y & Hy & Ep & _).
  inversion H' as [|? z ? _ Hz Hu]; subst. assert (z = y) as -> by congruence. rewrite Ep in Hu. inversion Hu as [|? v ? _ Hv]; subst. pose proof (sh_zero _ _ SH). congruence.
Qed.

Lemma dead_alone F G s p l a : trie_inv F G [] 0 0 s -> G !! p = Some l -> a ∈ l ->
  dead s a = true <-> forall p' l', p' <> p -> G !! p' = Some l' -> a ∉ l'.
Proof.
  intros Hi Hl Ha. destruct (way_inner _ _ _ _ _ _ _ Hi Hl Ha) as [Ia [x Hx]]. unfold dead. rewrite Hx, Z.eqb_eq.
  rewrite (rt_cnt _ _ _ _ (ti_routes _ _ _ _ _ _ Hi) a x Hx Ia). pose proof (cnt_delete G p l a Hl) as Ec. rewrite decide_True in Ec by done.
  transitivity (cnt (delete p G) a = 0); [lia|]. unfold cnt. rewrite kcount_zero. split.
  - intros H p' l' Hne Hl'. specialize (H p' l'). rewrite lookup_delete_ne in H by done. specialize (H Hl'). cbn in H. by apply bool_decide_eq_false in H.
  - intros H p' l' [Hne Hl']%lookup_delete_Some. cbn. apply bool_decide_eq_false. apply (H p'); [done|done].
Qed.

(** Below a dead atom everything is dead. *)
Lemma dead_below F G s p l l1 a l2 b : trie_inv F G [] 0 0 s -> G !! p = Some l -> l = l1 ++ a :: l2 -> b ∈ l2 -> dead s b = true -> dead s a = true.
Proof.
  intros Hi Hl -> Hb. rewrite !(dead_alone F G s p (l1 ++ a :: l2)) by (done || set_solver). intros H p' l' Hne Hl' Ha. apply (H p' l' Hne Hl').
  destruct (rt_up _ _ _ _ (ti_routes _ _ _ _ _ _ Hi) p _ Hl) as (t & k & _ & Hu). destruct (rt_up _ _ _ _ (ti_routes _ _ _ _ _ _ Hi) p' _ Hl') as (t' & k' & _ & Hu').
  destruct (up_meet _ _ _ _ _ _ _ _ _ Hu Hu' eq_refl Ha) as [l1' ->]. set_solver.
Qed.

Lemma deads_prefix s l : (forall l1 a l2 b, l = l1 ++ a :: l2 -> b ∈ l2 -> dead s b = true -> dead s a = true) -> exists l2, l = deads s l ++ l2.
Proof.
  induction l as [|a l IH]; intros H; [by exists []|]. unfold deads in *. rewrite filter_cons. destruct (decide (dead s a = true)) as [Hd|Hd].
  - destruct IH as [l2 E]; [|exists l2; cbn; congruence]. intros l1 b l2 c -> Hc. by apply (H (a :: l1) b l2 c).
  - exists (a :: l). destruct (filter (fun b => dead s b = true) l) as [|b k] eqn:E; [done|]. exfalso. assert (b ∈ b :: k) as Hb by set_solver.
    rewrite <- E in Hb. apply list_elem_of_filter in Hb as [Hdb Hb]. by apply Hd, (H [] a l b).
Qed.

Lemma up_tail h r t l1 l2 : up h r t (l1 ++ l2) -> l1 <> [] -> exists l0 f y, l1 = l0 ++ [f] /\ h !! f = Some y /\ up h r f (f :: l2) /\ up h r (parent y) l2.
Proof.
  intros H Hne. destruct (exists_last Hne) as (l0 & f & ->). rewrite <- app_assoc in H. cbn in H. destruct (up_mem _ _ _ _ f H) as (k1 & k2 & E & Hf); [set_solver|].
  assert (k2 = l2) as ->.
  { pose proof (up_NoDup _ _ _ _ H) as ND. clear -E ND. revert k1 E. induction l0 as [|c l0 IH]; intros [|e k1] E; cbn in *; simplify_eq; try done;
      apply NoDup_cons in ND as [ND1 ND2]; [set_solver|set_solver|by eapply IH]. }
  inversion Hf as [|? y ? _ Hy Hu]; subst. by exists l0, f, y.
Qed.

Lemma up_parent h r t l b y : up h r t l -> b ∈ l -> h !! b = Some y -> parent y = r \/ parent y ∈ l.
Proof.
  induction 1 as [|a x l Ha Hx Hu IH]; intros Hb Hy; [by apply not_elem_of_nil in Hb|]. apply elem_of_cons in Hb as [->|Hb].
  - assert (y = x) as -> by congruence. inversion Hu; subst; [by left|right; set_solver].
  - destruct (IH Hb Hy); [by left|right; set_solver].
Qed.

Lemma inv_unway F G N s : trie_inv F G N 0 0 s -> (forall b, b ∈ N -> exists p l, G !! p = Some l /\ b ∈ l) -> trie_inv F G [] 0 0 s.
Proof.
  intros [SH [U C CN EN P] TB AO BK KS SZ] HN. split; try done. split; try done.
  - intros a x Hx Ia. right. destruct (C a x Hx Ia) as [H|H]; [by apply HN|done].
  - intros a x Hx Hp. left. destruct (P a x Hx Hp) as [H|[H _]]; [done|congruence].
Qed.

(** Without its id. *)
Lemma unname F G p a k s x : trie_inv F G [] 0 0 s -> G !! p = Some (a :: k) -> p <> 0 -> atoms s !! a = Some x ->
  let s1 := set_atoms (<[a := set_pid 0 x]> (atoms s)) s in trie_inv F G [] 0 0 s1 /\ forall b y, atoms s1 !! b = Some y -> pid y <> p.
Proof.
  intros Hi Hl Hp Hx s1. destruct (way_inner _ _ _ _ _ _ a Hi Hl) as [Ia _]; [set_solver|].
  assert (at_ht x = 0) as Hax by by apply (rt_end _ _ _ _ (ti_routes _ _ _ _ _ _ Hi) p a k x). split.
  - eapply (inv_unway _ _ (a :: k)); [|eauto]. by apply inv_setpid; [apply inv_way|..].
  - intros b y Hy E. unfold s1 in Hy. cbn in Hy. destruct (decide (b = a)) as [->|Hne]; look_in Hy; [injection Hy as <-; cbn in E; congruence|].
    destruct (rt_pid _ _ _ _ (ti_routes _ _ _ _ _ _ Hi) b y Hy) as [[j Hj]|[? _]]; congruence.
Qed.

(** The dead atoms of a filter, as [cut] needs them. *)
Lemma deads_cut F G p l t s l2 l0 f y :
  trie_inv F G [] 0 0 s -> G !! p = Some l -> up (atoms s) dpf_base t l -> l = deads s l ++ l2 -> deads s l = l0 ++ [f] -> atoms s !! f = Some y ->
  up (atoms s) dpf_base (parent y) l2 ->
  (forall a, a ∈ deads s l -> inner a) /\ (parent y ∉ deads s l) /\
  (forall b z, atoms s !! b = Some z -> parent z ∈ deads s l -> b ∈ deads s l) /\
  (forall b z, atoms s !! b = Some z -> b ∈ deads s l -> parent z ∈ deads s l \/ b = f) /\
  (forall p' l' a, delete p G !! p' = Some l' -> a ∈ l' -> a ∉ deads s l).
Proof.
  intros Hi Hl Hu El ED Hy Hu2. assert (forall a, a ∈ deads s l <-> a ∈ l /\ dead s a = true) as HD. { intros a. unfold deads. rewrite list_elem_of_filter. tauto. }
  assert (NoDup l) as ND by (by eapply up_NoDup). assert (forall a, a ∈ deads s l -> a ∉ l2) as Hdis. { rewrite El in ND. apply NoDup_app in ND as (_ & ? & _). done. }
  assert (forall p' l' a, p' <> p -> G !! p' = Some l' -> a ∈ l' -> a ∉ deads s l) as Hno.
  { intros p' l' a Hne Hl' Ha [Hal Hd]%HD. by apply (proj1 (dead_alone F G s p l a Hi Hl Hal) Hd p' l'). }
  split_and!.
  - intros a [Ha _]%HD. by eapply way_inner.
  - intros Hd. pose proof Hd as [Hpl _]%HD. destruct (way_inner _ _ _ _ _ _ _ Hi Hl Hpl) as [[Hb _] _]. destruct (up_inv _ _ _ _ Hu2 Hb) as (z & k & _ & -> & _).
    apply (Hdis _ Hd). set_solver.
  - intros b z Hz Hd. assert (parent z ∈ l) as Hpl by by apply HD. destruct (way_inner _ _ _ _ _ _ _ Hi Hl Hpl) as [[Hpb Hpd] [w Hw]].
    assert (b ∈ kids w) as Hbk by (apply (sh_kids _ _ (ti_shape _ _ _ _ _ _ Hi) _ w b Hw); eauto).
    destruct (kid_inner _ _ _ _ b (ti_shape _ _ _ _ _ _ Hi) Hw Hbk) as (Ib & _ & _).
    destruct (rt_cov _ _ _ _ (ti_routes _ _ _ _ _ _ Hi) b z Hz Ib) as [H|(p' & l' & Hl' & Hbl)]; [by apply not_elem_of_nil in H|].
    destruct (rt_up _ _ _ _ (ti_routes _ _ _ _ _ _ Hi) p' l' Hl') as (t' & k' & _ & Hu'). destruct (up_parent _ _ _ _ b z Hu' Hbl Hz) as [?|Hpl']; [done|].
    destruct (decide (p' = p)) as [->|Hne]; [|by destruct (Hno p' l' _ Hne Hl' Hpl')]. assert (l' = l) as -> by congruence.
    destruct (up_mem _ _ _ _ b Hu' Hbl) as (k1 & k2 & Ek & Hub). inversion Hub as [|? z' ? _ Hz' Hub']; subst. assert (z' = z) as -> by congruence.
    apply HD. split; [done|]. eapply (dead_below F G s p _ k1 b k2 (parent z)); [done|done|done| |by apply HD].
    destruct (up_inv _ _ _ _ Hub' Hpb) as (w' & k3 & _ & -> & _). set_solver.
  - intros b z Hz Hb. destruct (decide (b = f)) as [|Hne]; [by right|left]. pose proof Hb as Hb'. rewrite ED in Hb'. apply elem_of_app in Hb' as [Hb'|Hb']; [|set_solver].
    apply list_elem_of_split in Hb' as (m1 & m2 & ->). assert (up (atoms s) dpf_base t (m1 ++ b :: m2 ++ [f] ++ l2)) as Hu'.
    { rewrite El, ED in Hu. by rewrite <- !app_assoc in Hu. }
    destruct (up_tail (atoms s) dpf_base t (m1 ++ [b]) (m2 ++ [f] ++ l2)) as (l3 & b' & z' & E & Hz' & _ & Hu3); [by rewrite <- app_assoc|by destruct m1|].
    apply app_inj_tail in E as [_ <-]. assert (z' = z) as -> by congruence.
    destruct m2 as [|c m2]; cbn in Hu3; inversion Hu3; subst; rewrite ED; set_solver.
  - intros p' l' a [Hne Hl']%lookup_delete_Some Ha. by apply (Hno p' l').
Qed.

Lemma dpf_delete_spec F G p a k s :
  trie_inv F G [] 0 0 s -> G !! p = Some (a :: k) -> dpf_active s !! p = Some a -> dpf_overlap s = false -> p <> 0 -> p < DPF_MAXFILT ->
  wlp (dpf_delete p) s (fun r s' => r = p /\ dpf_overlap s' = false /\ dpf_active s' = delete p (dpf_active s) /\ highwater s' = highwater s /\
    free_pids s' = p :: free_pids s /\ exists G', heads (delete p G) G' /\ trie_inv (delete p F) G' [] 0 0 s').
Proof.
  intros Hi Hl Ha Ho Hp Hmax. unfold dpf_delete, natoms, dpf_freepid. wl. wl. destruct (Z.leb_spec DPF_MAXFILT p); [lia|]. rewrite Ha, Ho.
  wl. apply wlp_upd_atom. intros x Hx. destruct (unname F G p a k s x Hi Hl Hp Hx) as [Hi1 Hnp]. cbn zeta in Hi1, Hnp. set (s1 := set_atoms (<[a := set_pid 0 x]> (atoms s)) s) in *.
  destruct (rt_up _ _ _ _ (ti_routes _ _ _ _ _ _ Hi1) p (a :: k) Hl) as (t & j & [= <- <-] & Hu).
  wl. wl. wl. eapply wlp_mono; [by apply unref_loop_spec|]. intros fl s2 (C & ->). rewrite app_nil_r. pose proof (ct_touch _ _ _ _ C) as T.
  pose proof (counted_delete _ _ p _ _ _ Hi1 C Hl Hnp) as Hi2. destruct (ct_rest _ _ _ _ C) as (R2 & O2 & _).
  assert (wlp (match reverse (deads s1 (a :: k)) with [] => mreturn tt | f :: _ => cut f ;; mfor free_dead (reverse (deads s1 (a :: k))) end) s2
    (fun _ s' => rest s' = rest s /\ dpf_overlap s' = false /\ exists G', heads (delete p G) G' /\ trie_inv (delete p F) G' [] 0 0 s')) as Hcut.
  { destruct (decide (deads s1 (a :: k) = [])) as [E|E].
    - rewrite E in *. cbn. split_and!; [by rewrite R2|by rewrite O2|]. exists (delete p G). split; [apply heads_refl|done].
    - destruct (deads_prefix s1 (a :: k)) as [l2 El]. { intros l1 b l3 c Elc Hc. by apply (dead_below F G s1 p (a :: k) l1 b l3 c Hi1 Hl Elc). }
      pose proof Hu as Hu'. rewrite El in Hu'. destruct (up_tail _ _ _ _ _ Hu' E) as (l0 & f & y & ED & Hy & _ & Hu2).
      destruct (deads_cut F G p (a :: k) a s1 l2 l0 f y Hi1 Hl Hu El ED Hy Hu2) as (HI & Hq & Hdown & Hup & HG).
      set (D := deads s1 (a :: k)) in *. rewrite ED at 1. rewrite reverse_app. cbn [reverse rev_append app].
      destruct (touch_get _ _ _ _ T Hy) as (y2 & Hy2 & [Ey _ _ _]). assert (f ∈ D) as HfD by (rewrite ED; set_solver).
      destruct (sh_par _ _ (ti_shape _ _ _ _ _ _ Hi1) f y Hy (HI f HfD)) as [xq Hxq]; [by eapply shape_nz; [apply (ti_shape _ _ _ _ _ _ Hi1)|]|].
      destruct (touch_get _ _ _ _ T Hxq) as (xq2 & Hxq2 & [_ Ekq _ _]).
      wl. eapply wlp_mono; [eapply (cut_spec (delete p F) (delete p G) s2 D (parent y) xq2 f y2)|].
      + done.
      + done.
      + done.
      + done.
      + done.
      + done.
      + done.
      + intros b z2 Hz2. destruct (touch_back _ _ _ _ T Hz2) as (z & Hz & [-> _ _ _]). by apply (Hdown b z).
      + intros b z2 Hz2. destruct (touch_back _ _ _ _ T Hz2) as (z & Hz & [-> _ _ _]). by apply (Hup b z).
      + done.
      + rewrite Ekq. pose proof (kids_bound _ _ _ _ _ _ _ Hi1 Hxq). pose proof (ti_size _ _ _ _ _ _ Hi1). unfold zlen. lia.
      + intros [] s3 (G' & Hh & R3 & O3 & Hi3). eapply wlp_mono; [apply free_dead_spec|]. intros [] s4 ->. cbn.
        split_and!; [change (rest s3 = rest s); by rewrite R3, R2|rewrite O3; by rewrite O2|]. exists G'. split; [done|].
        rewrite (without_ext (reverse D) D); [done|]. intros b. by rewrite elem_of_reverse. }
  wl. eapply wlp_mono; [exact Hcut|]. cbn beta. intros [] s3 ([= R31 R32 R33] & O3 & G' & Hh & Hi3). wl. wl. wl. wl. wl. cbn. rewrite R31, R32, R33. split_and!; try done.
  exists G'. split; [done|]. by eapply trie_inv_frame, Hi3.
Qed.

Lemma dpf_delete_keeps F s p : dpf_ok F s ->
  wlp (dpf_delete p) s (fun r s' =>
    is_Some (dpf_active s !! p) /\ r = p /\ dpf_active s' !! p = None /\ p ∈ free_pids s' /\ dpf_ok (delete p F) s' \/
    dpf_active s !! p = None /\ r = DPF_BOGUSID /\ s' = s).
Proof.
  intros [(G & Hi & Hact) Hp Ho Hd]. destruct (dpf_active s !! p) as [a|] eqn:Ha.
  - destruct (pk_act _ Hp p) as [Hp1 Hp2]; [eauto|]. pose proof (pk_high _ Hp) as [_ Hp3]. pose proof Ha as Ha'. apply Hact in Ha' as [k Hl].
    eapply wlp_mono; [by eapply (dpf_delete_spec F G p a k s); try done; lia|]. intros r s' (-> & O' & A' & W' & L' & G' & Hh & Hi').
    left. assert (p ∉ free_pids s) as Hpf. { intros H%(pk_free _ Hp). destruct H as [_ H]. congruence. }
    split_and!; [eauto|done|by rewrite A', lookup_delete_eq|rewrite L'; set_solver|]. split.
    + exists G'. split; [done|]. intros q t. rewrite A'. rewrite <- (Hh q t). destruct (decide (q = p)) as [->|]; [rewrite !lookup_delete_eq; naive_solver|].
      rewrite !lookup_delete_ne by done. apply Hact.
    + destruct Hp as [P1 P2 P3 P4]. split; rewrite ?A', ?W', ?L'.
      * done.
      * intros q [->|Hq]%elem_of_cons; [split; [lia|apply lookup_delete_eq]|]. destruct (P2 q Hq). split; [done|]. by apply lookup_delete_None; right.
      * by constructor.
      * intros q [v [_ Hv]%lookup_delete_Some]. apply P4. eauto.
    + done.
    + intros q. rewrite A'. destruct (decide (q = p)) as [->|]; [rewrite !lookup_delete_eq; done|]. rewrite !lookup_delete_ne by done. apply Hd.
  - unfold dpf_delete. wl. wl. rewrite Ha. destruct (DPF_MAXFILT <=? p); wl; right; done.
Qed.

(** ** Runs *)

(** The filters of a trie after insertions and deletions that returned. *)
Inductive reach : gmap Z (list ir) -> dpf -> Prop :=
  | reach_init : reach ∅ dpf_init
  | reach_insert F s (l : list ir) r s' : reach F s -> Forall wf_eq l -> dpf_insert l s = Ret r s' ->
      reach (if r <? 0 then F else <[r := dpf_coalesce l]> F) s'
  | reach_delete F s p r s' : reach F s -> dpf_delete p s = Ret r s' -> reach (if r <? 0 then F else delete p F) s'.

Lemma dpf_init_ok : dpf_ok ∅ dpf_init.
Proof.
  assert (forall a x, atoms dpf_init !! a = Some x -> (a = dpf_base \/ a = done_atom) /\ x = mkAtom 0 [] 0 0 0 ir_zero None) as Hget.
  { intros a x. unfold dpf_init. cbn [atoms]. rewrite lookup_insert_Some, lookup_singleton_Some. intuition congruence. }
  split; [exists ∅; split| | |].
  - split.
    + split; try done.
      * by eexists.
      * by eexists.
      * intros a x [_ ->]%Hget. constructor.
      * intros a x b [Ha ->]%Hget. cbn. split; [by intros ?%not_elem_of_nil|]. intros (y & [_ ->]%Hget & E). cbn in E. destruct Ha; subst; done.
      * intros b y [[?|?] _]%Hget []; done.
    + split; try done.
      * intros a x [[?|?] _]%Hget []; done.
      * intros a x [[?|?] _]%Hget []; done.
      * intros a x [_ ->]%Hget. done.
    + split; [by intros a x [_ ->]%Hget|]. by intros a a' x x' [_ ->]%Hget.
    + split; [by intros a x [[?|?] _]%Hget []|by intros a x [[?|?] _]%Hget []|]. intros x [_ ->]%Hget. by left.
    + split_and!; [done| |done]. intros a Ha. unfold dpf_init in *. cbn [atoms brk] in *. rewrite lookup_insert_ne by (unfold dpf_base; lia). by rewrite lookup_singleton_ne by (unfold done_atom; lia).
    + done.
    + cbn. rewrite map_size_empty. lia.
  - intros p t. cbn. rewrite !lookup_empty. naive_solver.
  - split; cbn; [unfold DPF_MAXFILT; lia|by intros p ?%not_elem_of_nil|constructor|]. intros p [v Hv]. by rewrite lookup_empty in Hv.
  - done.
  - intros p. cbn. by rewrite !lookup_empty.
Qed.

Lemma reach_ok F s : reach F s -> dpf_ok F s.
Proof.
  induction 1 as [|F s l r s' _ IH Hl Hr|F s p r s' _ IH Hr].
  - apply dpf_init_ok.
  - pose proof (wlp_run _ _ _ _ _ (dpf_insert_spec F s l IH Hl) Hr) as [(H1 & _ & H2)|(H1 & H2)]; destruct (Z.ltb_spec r 0); try done; lia.
  - pose proof (wlp_run _ _ _ _ _ (dpf_delete_keeps F s p IH) Hr) as [(H1 & -> & _ & _ & H2)|(_ & -> & ->)]; [|done].
    destruct (pk_act _ (do_pids _ _ IH) p H1). destruct (Z.ltb_spec p 0); [lia|done].
Qed.

(** A call of [dpf_delete] on a trie of comparisons, if it returns, leaves the trie
    of the other filters: their ways, counts, tables and ids are as before, the
    atoms that only the deleted filter needed are gone, its id is free again.  An
    id that is not in use is refused and nothing changes.  (A filter that is a
    prefix of another one in a table may stop the kernel in a check of the code,
    see the run [delete_prefix_panics] in DpfRun.v.) *)
Theorem dpf_delete_ok F s p r s' : reach F s -> dpf_delete p s = Ret r s' ->
  is_Some (dpf_active s !! p) /\ r = p /\ dpf_active s' !! p = None /\ p ∈ free_pids s' /\ dpf_ok (delete p F) s' \/
  dpf_active s !! p = None /\ r = DPF_BOGUSID /\ s' = s.
Proof. intros Hr Hd. exact (wlp_run _ _ _ _ _ (dpf_delete_keeps F s p (reach_ok F s Hr)) Hd). Qed.
