(* ===== verification/DpfInterp.v ===== *)
(** * Matching messages

    [fast_interp] on a trie of comparisons: it returns, and the filter whose id
    it returns is an active one, all of whose comparisons hold of the message.
    The walk goes down to the children of an atom that matches, and remembers
    the siblings it leaves on [orstack]; the work that is left is the number of
    atoms below and after the current atom and those on the stack. *)

From Stdlib Require Import ZArith Lia.
From stdpp Require Import base numbers option list gmap.
From S2P Require Import Prelude Dpf DpfTrie DpfOpt.

Implicit Types (h : gmap Z atom) (a b p t n q r : Z) (x y : atom) (l : list Z) (G : gmap Z (list Z)).

(** Every atom of the trie has a label. *)
Definition labelled (s : dpf) : bool :=
  bool_decide (map_Forall (fun a x => a = dpf_base \/ is_Some (code x)) (atoms s)).

(** ** Work *)

(** The atoms of [l] and all below them. *)
Inductive cost h : list Z -> nat -> Prop :=
  | cost_nil : cost h [] 0
  | cost_cons a x l (n m : nat) : h !! a = Some x -> cost h (kids x) n -> cost h l m -> cost h (a :: l) (S (n + m)).

Lemma cost_mem h l (n : nat) b y : cost h l n -> b ∈ l -> h !! b = Some y -> exists m : nat, (m <= n)%nat /\ cost h (kids y) m.
Proof.
  induction 1 as [|a x l n m Hx Hk _ Hl IH]; intros Hb Hy; [by apply not_elem_of_nil in Hb|]. apply elem_of_cons in Hb as [->|Hb].
  - simplify_eq. exists n. split; [lia|done].
  - destruct (IH Hb Hy) as (j & Hj & Hc). exists j. split; [lia|done].
Qed.

Lemma up_size h r a l : up h r a l -> (length l <= size h)%nat.
Proof.
  intros H. rewrite <- size_dom, <- (size_list_to_set (C := gset Z) l (up_NoDup _ _ _ _ H)). apply subseteq_size. intros b Hb.
  rewrite elem_of_list_to_set in Hb. apply elem_of_dom. by destruct (up_in _ _ _ _ _ H Hb).
Qed.

Lemma cost_exists h (d : nat) : shape h 0 -> forall q xq k, h !! q = Some xq -> up h dpf_base q k -> (size h < d + length k)%nat -> exists n : nat, cost h (kids xq) n.
Proof.
  intros SH. induction d as [|d IH]; intros q xq k Hq Hk Hd; [pose proof (up_size _ _ _ _ Hk); lia|].
  assert (forall l, (forall b, b ∈ l -> b ∈ kids xq) -> exists n : nat, cost h l n) as H; [|by apply H].
  induction l as [|b l IHl]; intros Hl; [exists 0%nat; constructor|]. destruct IHl as [m Hm]; [set_solver|].
  destruct (kid_inner _ _ _ _ b SH Hq) as ([Hb _] & _ & y & Hy & E); [set_solver|].
  destruct (IH b y (b :: k) Hy) as [n Hn]; [econstructor; [done|done|by rewrite E]|cbn; lia|]. exists (S (n + m)). by econstructor.
Qed.

Lemma after_head a l pre : NoDup (pre ++ a :: l) -> after a (pre ++ a :: l) = default 0 (head l).
Proof.
  induction pre as [|b pre IH]; cbn; intros ND; [by rewrite Z.eqb_refl|]. apply NoDup_cons in ND as [Hn ND].
  destruct (Z.eqb_spec b a) as [->|]; [set_solver|]. by apply IH.
Qed.

Section match_.
Context (F : gmap Z (list ir)) (G : gmap Z (list Z)) (s0 : dpf) (mem : Z -> Z) (msg nbytes : Z).
Hypothesis (Hi : trie_inv F G [] 0 0 s0) (Hlab : labelled s0 = true) (Hmem : forall a, 0 <= mem a < 256).

Definition holdk (k : Z * Z * Z) : Prop := fst (fst k) < nbytes /\ Z.land (load32 mem (msg + fst (fst k))) (snd (fst k)) = snd k.

(** No id, or that of a filter whose comparisons hold. *)
Definition good p : Prop := p = 0 \/ exists l, G !! p = Some l /\ Forall holdk (keys (atoms s0) l).

(** A list of siblings, below atoms that match. *)
Definition place l : Prop :=
  l = [] \/ exists q xq pre k, atoms s0 !! q = Some xq /\ kids xq = pre ++ l /\ up (atoms s0) dpf_base q k /\ Forall holdk (keys (atoms s0) k).

Fixpoint stk (st : gmap Z Z) (sp : Z) (ls : list (list Z)) : Prop :=
  match ls with
  | [] => sp = 1 /\ st !! 0 = Some done_atom
  | l :: ls' => 1 < sp /\ (exists b l', l = b :: l' /\ st !! (sp - 1) = Some b) /\ stk st (sp - 1) ls'
  end.

Inductive costs : list (list Z) -> nat -> Prop :=
  | costs_nil : costs [] 0
  | costs_cons l ls (n m : nat) : cost (atoms s0) l n -> costs ls m -> costs (l :: ls) (n + m).

Lemma stk_sp ls : forall st sp, stk st sp ls -> 1 <= sp.
Proof. induction ls as [|l ls IH]; cbn; intros st sp; [lia|]. intros (? & _). lia. Qed.

Lemma stk_above ls : forall st sp j b, stk st sp ls -> sp <= j -> stk (<[j := b]> st) sp ls.
Proof.
  induction ls as [|l ls IH]; cbn; intros st sp j b.
  - intros (-> & H) Hj. split; [done|]. by rewrite lookup_insert_ne by lia.
  - intros (H1 & (c & l' & -> & Hc) & H2) Hj. split_and!; [done| |apply IH; [done|lia]]. exists c, l'. split; [done|]. by rewrite lookup_insert_ne by lia.
Qed.

Let lab_code a x : atoms s0 !! a = Some x -> a <> dpf_base -> exists c, code x = Some c.
Proof. intros Hx Ha. apply bool_decide_eq_true in Hlab. by destruct (Hlab a x Hx) as [?|[c Hc]]; [|eauto]. Qed.

Lemma byte_land a m : 0 <= m < 2 ^ 8 -> Z.land (load8 mem a) m = Z.land (load32 mem a) m.
Proof.
  intros Hm. apply Z.bits_inj'. intros n Hn. rewrite !Z.land_spec. destruct (decide (n < 8)).
  - rewrite (load32_bit mem Hmem) by lia. rewrite Z.div_small, Z.mod_small by lia. unfold load8. by rewrite Z.add_0_r.
  - rewrite (bit_above m 8) by lia. by rewrite !andb_false_r.
Qed.
Lemma half_land a m : 0 <= m < 2 ^ 16 -> Z.land (load16 mem a) m = Z.land (load32 mem a) m.
Proof.
  intros Hm. apply Z.bits_inj'. intros n Hn. rewrite !Z.land_spec. destruct (decide (n < 16)).
  - unfold load32. rewrite Z.lor_spec, Z.shiftl_spec, (Z.testbit_neg_r _ (n - 16)) by lia. by rewrite orb_false_r.
  - rewrite (bit_above m 16) by lia. by rewrite !andb_false_r.
Qed.
Lemma load32_ones a : Z.land (load32 mem a) 0xffffffff = load32 mem a.
Proof.
  apply Z.bits_inj'. intros n Hn. rewrite Z.land_spec. change 0xffffffff with (Z.ones 32). destruct (decide (n < 32)).
  - rewrite Z.ones_spec_low by lia. apply andb_true_r.
  - rewrite Z.ones_spec_high by lia. rewrite andb_false_r. symmetry. unfold load32. rewrite Z.lor_spec, Z.shiftl_spec by lia.
    rewrite !(load16_bit mem Hmem) by lia. destruct (Z.ltb_spec n 8), (Z.ltb_spec (n - 16) 8); try lia. by rewrite !mem_bit by (done || lia).
Qed.
Lemma load8_ones a : Z.land (load8 mem a) 0xff = load8 mem a.
Proof.
  apply Z.bits_inj'. intros n Hn. rewrite Z.land_spec. change 0xff with (Z.ones 8). destruct (decide (n < 8)).
  - rewrite Z.ones_spec_low by lia. apply andb_true_r.
  - rewrite Z.ones_spec_high by lia. rewrite andb_false_r. symmetry. apply mem_bit; [done|lia].
Qed.
Lemma load16_ones a : Z.land (load16 mem a) 0xffff = load16 mem a.
Proof.
  apply Z.bits_inj'. intros n Hn. rewrite Z.land_spec. change 0xffff with (Z.ones 16). destruct (decide (n < 16)).
  - rewrite Z.ones_spec_low by lia. apply andb_true_r.
  - rewrite Z.ones_spec_high by lia. rewrite andb_false_r. symmetry. rewrite (load16_bit mem Hmem) by lia. destruct (Z.ltb_spec n 8); [lia|]. apply mem_bit; [done|lia].
Qed.

Definition is_eq (c : state_t) : bool :=
  match c with
  | EQ | EQ_NO_KID | EQ_NO_PID | EQ_NO_SIB | EQ_NO_PID_NO_SIB | EQ_X_8 | EQ_X_16 | EQ_X_32 | EQ_MX_8 | EQ_MX_16 | EQ_MX_32 => true
  | _ => false
  end.

(** A comparison by any of its labels is the comparison. *)
Lemma eq_test_holds x c : code x = Some c -> is_eq c = true -> label_ok x -> wf_eq (at_ir x) -> eq_test mem c msg nbytes (at_ir x) = true ->
  holdk (key (at_ir x)) /\ at_ht x = 0.
Proof.
  intros Hc He Hl (_ & _ & Hn & Hm & Hv) Ht. unfold label_ok in Hl. rewrite Hc in Hl. unfold holdk, key. cbn [fst snd].
  assert (match load_lhs mem msg nbytes (at_ir x) with Some lhs => lhs =? val (at_ir x) | None => false end = true ->
    offset (at_ir x) < nbytes /\ Z.land (load32 mem (msg + offset (at_ir x))) (mask (at_ir x)) = val (at_ir x)) as Hgen.
  { unfold load_lhs. destruct (Z.leb_spec nbytes (offset (at_ir x))); [done|]. by intros ->%Z.eqb_eq. }
  destruct c; try done; cbn in Ht; try (split; [by apply Hgen|done]); apply andb_prop in Ht as [Ht1%Z.ltb_lt Ht2%Z.eqb_eq]; rewrite <- Ht2.
  - destruct Hl as (? & _ & ->). split; [split; [done|]|done]. rewrite <- byte_land by lia. apply load8_ones.
  - destruct Hl as (? & _ & ->). split; [split; [done|]|done]. rewrite <- half_land by lia. apply load16_ones.
  - destruct Hl as (? & ->). split; [split; [done|]|done]. apply load32_ones.
  - destruct Hl as (? & E). rewrite E in Hm. split; [split; [done|]|done]. by rewrite byte_land.
  - destruct Hl as (? & E). rewrite E in Hm. split; [split; [done|]|done]. by rewrite half_land.
  - done.
Qed.

(** ** Steps of the walk *)

Lemma read_trie {A} (m : M dpf A) st v (Q : A -> interp -> Prop) : in_dpf st = s0 -> m s0 = Ret v s0 -> Q v st -> wp (in_trie m) st Q.
Proof. intros Hs Hm HQ. apply wp_zoom. unfold wp. rewrite Hs, Hm. unfold set_in_dpf. rewrite <- Hs. by destruct st. Qed.

Lemma get_atom_run a x : atoms s0 !! a = Some x -> get_atom a s0 = Ret x s0.
Proof. intros Hx. unfold get_atom, mbind_, get, of_option. by rewrite Hx. Qed.

(** Where the walk is: the first of [a :: l], below atoms that match. *)
Record here a l x : Prop := {
  he_x : atoms s0 !! a = Some x;
  he_inner : inner a;
  he_next : le_next a s0 = Ret (default 0 (head l)) s0;
  he_up : exists k, up (atoms s0) dpf_base a (a :: k) /\ Forall holdk (keys (atoms s0) k);
  he_tl : place l }.

Lemma place_here a l : place (a :: l) -> exists x, here a l x.
Proof.
  intros [?|(q & xq & pre & k & Hq & Hk & Hu & Hh)]; [done|]. pose proof (ti_shape _ _ _ _ _ _ Hi) as SH.
  destruct (kid_inner _ _ _ _ a SH Hq) as (Ia & _ & x & Hx & E); [rewrite Hk; set_solver|]. exists x. split; [done|done| | |].
  - unfold le_next, mbind_. rewrite (get_atom_run _ _ Hx), E. rewrite (proj2 (Z.eqb_neq _ _) (shape_nz _ _ _ _ SH Hq)). rewrite (get_atom_run _ _ Hq).
    unfold mreturn. rewrite Hk, after_head; [done|]. rewrite <- Hk. by eapply sh_nodup.
  - exists k. split; [|done]. econstructor; [apply Ia|done|by rewrite E].
  - right. exists q, xq, (pre ++ [a]), k. split_and!; try done. by rewrite <- app_assoc.
Qed.

Lemma match_below a x k : atoms s0 !! a = Some x -> up (atoms s0) dpf_base a (a :: k) -> Forall holdk (keys (atoms s0) k) ->
  at_ht x = 0 -> holdk (key (at_ir x)) -> place (kids x) /\ good (pid x).
Proof.
  intros Hx Hu Hk Hh Ht. assert (Forall holdk (keys (atoms s0) (a :: k))) as Hk'.
  { rewrite keys_cons. unfold akey. rewrite Hx, Hh. cbn. apply Forall_app. split; [done|]. by constructor. }
  split; [right; by exists a, x, [], (a :: k)|]. destruct (decide (pid x = 0)) as [|Hp]; [by left|]. right.
  destruct (rt_pid _ _ _ _ (ti_routes _ _ _ _ _ _ Hi) a x Hx Hp) as [[j Hj]|(_ & j & ?)]; [|done]. exists (a :: j). split; [done|].
  destruct (rt_up _ _ _ _ (ti_routes _ _ _ _ _ _ Hi) _ _ Hj) as (t & j' & [= <- <-] & H). by rewrite (up_det _ _ _ _ _ H Hu).
Qed.

(** An entry of the table of [a] that has the value in the message. *)
Lemma here_entry a l x lhs : here a l x -> at_ht x <> 0 -> load_lhs mem msg nbytes (at_ir x) = Some lhs ->
  exists (t : ht) o c, get_ht (at_ht x) s0 = Ret t s0 /\ ht_lookup t lhs s0 = Ret (o, c) s0 /\
    forall b, o = Some b -> exists y, atoms s0 !! b = Some y /\ b ∈ kids x /\ place (kids y) /\ good (pid y).
Proof.
  intros [Hx Ia Hn (k & Hu & Hk) _] Hh Hl. destruct (tb_all _ _ (ti_tabs _ _ _ _ _ _ Hi) a x Hx Hh) as [_ (t & Ht & _ & Tb) Tk].
  pose proof (ti_shape _ _ _ _ _ _ Hi) as SH.
  assert (exists o c, ht_lookup t lhs s0 = Ret (o, c) s0) as (o & c & Hlk).
  { unfold ht_lookup. assert (forall b, b ∈ bucket t lhs -> is_Some (atoms s0 !! b)) as Hb.
    { intros b Hb. unfold bucket in Hb. destruct (buckets t !! hash t lhs) as [lb|] eqn:E; [|by apply not_elem_of_nil in Hb].
      destruct (kid_inner _ _ _ _ b SH Hx) as (_ & _ & y & Hy & _); [by eapply filled_kid|]. eauto. }
    generalize 0 as c. revert Hb. generalize (bucket t lhs) as lb. induction lb as [|b lb IH]; intros Hb c; cbn [bucket_find]; [by exists None, c|].
    destruct (Hb b) as [y Hy]; [set_solver|]. unfold mbind_. rewrite (get_atom_run _ _ Hy). destruct (_ =? _); [by exists (Some b), c|]. apply IH. set_solver. }
  exists t, o, c. split; [unfold get_ht, mbind_, get, of_option; by rewrite Ht|]. split; [done|]. intros b ->.
  pose proof (ht_lookup_run t lhs s0) as R. unfold wlp in R. rewrite Hlk in R. destruct R as (_ & _ & R & _). destruct (R b eq_refl) as (Hb & y & Hy & Ev).
  unfold bucket in Hb. destruct (buckets t !! hash t lhs) as [lb|] eqn:E; [|by apply not_elem_of_nil in Hb]. pose proof (filled_kid _ _ _ _ _ _ _ _ SH Hx Tb E Hb) as Hbk.
  destruct (kid_inner _ _ _ _ b SH Hx Hbk) as ([Ib _] & _ & y' & Hy' & Ep). assert (y' = y) as -> by congruence. destruct (Tk b y Hy Ep) as (E1 & E2 & E3).
  unfold load_lhs in Hl. destruct (Z.leb_spec nbytes (offset (at_ir x))); [done|]. injection Hl as El.
  exists y. split; [done|]. split; [done|]. apply (match_below b y (a :: k)); [done| | |done|].
  - econstructor; [done|done|by rewrite Ep].
  - rewrite keys_cons. unfold akey. rewrite Hx, (proj2 (Z.eqb_neq _ _) Hh). by rewrite app_nil_r.
  - unfold holdk, key. cbn. rewrite E2, E3, Ev. split; [lia|done].
Qed.

(** ** The walk *)

(** The [next] of the interpreter. *)
Definition go_on (fuel : nat) (a fp sp : Z) : M interp Z :=
  if a =? 0 then
    if negb (fp =? 0) then mreturn fp
    else b <- or_pop sp ;; fast_interp mem fuel msg nbytes b fp (sp - 1)
  else fast_interp mem fuel msg nbytes a fp sp.

Definition fine (r : Z) (st : interp) : Prop := good r /\ in_dpf st = s0.

Definition walks (fuel : nat) : Prop := forall a l (n m : nat) ls st sp fp,
  cost (atoms s0) (a :: l) n -> costs ls m -> (n + m < fuel)%nat -> place (a :: l) -> Forall place ls -> stk (orstack st) sp ls -> in_dpf st = s0 -> good fp ->
  wp (fast_interp mem fuel msg nbytes a fp sp) st fine.

Lemma at_done (fuel : nat) st sp fp : in_dpf st = s0 -> good fp -> wp (fast_interp mem (S fuel) msg nbytes done_atom fp sp) st fine.
Proof.
  intros Hs Hg. destruct (sh_done _ _ (ti_shape _ _ _ _ _ _ Hi)) as (x & Hx & Ep & _). cbn [fast_interp]. change (done_atom =? 0) with false. cbn iota.
  apply wp_bind. eapply read_trie; [done|by apply get_atom_run|]. apply wp_bind. eapply (read_trie _ _ 0); [done| |].
  { unfold le_next, mbind_. rewrite (get_atom_run _ _ Hx), Ep. done. }
  destruct (lab_code done_atom x Hx) as [c Hc]; [done|]. apply wp_bind, wp_of_option. exists c. split; [done|].
  destruct (ao_done _ (ti_atoms _ _ _ _ _ _ Hi) x Hx) as [E|E]; [congruence|]. assert (c = DONE) as -> by congruence. done.
Qed.

Lemma go_on_ok (fuel : nat) l (n m : nat) ls st sp fp : walks fuel ->
  cost (atoms s0) l n -> costs ls m -> (n + m < fuel)%nat -> place l -> Forall place ls -> stk (orstack st) sp ls -> in_dpf st = s0 -> good fp ->
  wp (go_on fuel (default 0 (head l)) fp sp) st fine.
Proof.
  intros HW Hc Hcs Hf Hp Hps Hst Hs Hg. unfold go_on. destruct l as [|a l].
  - cbn. destruct (Z.eqb_spec fp 0) as [->|]; [|done]. cbn [negb]. apply wp_bind. unfold or_pop. apply wp_bind, wp_gets, wp_of_option.
    destruct ls as [|l ls].
    + destruct Hst as (-> & Hd). exists done_atom. split; [done|]. destruct fuel as [|fuel]; [lia|]. by apply at_done.
    + destruct Hst as (H1 & (b & l' & -> & Hb) & Hst). exists b. split; [done|]. apply Forall_cons in Hps as [Hp1 Hps]. inversion Hcs as [|? ? n' m' Hc1 Hcs1]; subst.
      inversion Hc; subst. by eapply (HW b l' n' m' ls).
  - assert (a <> 0) as Ha. { destruct (place_here a l Hp) as [x [Hx _ _ _ _]]. eapply shape_nz; [apply (ti_shape _ _ _ _ _ _ Hi)|done]. }
    change (default 0 (head (a :: l))) with a. rewrite (proj2 (Z.eqb_neq _ _) Ha). by eapply HW.
Qed.

(** Down, with the siblings pushed. *)
Lemma go_down_ok (fuel : nat) l l' (n n' m : nat) ls st sp fp : walks fuel ->
  cost (atoms s0) l n -> cost (atoms s0) l' n' -> costs ls m -> (n + n' + m < fuel)%nat -> place l -> place l' -> Forall place ls -> stk (orstack st) sp ls ->
  in_dpf st = s0 -> good fp ->
  wp (or_push sp (default 0 (head l'))) st (fun sp st => wp (go_on fuel (default 0 (head l)) fp sp) st fine).
Proof.
  intros HW Hc Hc' Hcs Hf Hp Hp' Hps Hst Hs Hg. unfold or_push. destruct l' as [|b l'].
  - cbn. eapply (go_on_ok fuel l n m ls); try done. lia.
  - assert (b <> 0) as Hb. { destruct (place_here b l' Hp') as [x [Hx _ _ _ _]]. eapply shape_nz; [apply (ti_shape _ _ _ _ _ _ Hi)|done]. }
    change (default 0 (head (b :: l'))) with b. rewrite (proj2 (Z.eqb_neq _ _) Hb). apply wp_bind, wp_modify, wp_ret. eapply (go_on_ok fuel l n (n' + m) ((b :: l') :: ls)); try done.
    + by constructor.
    + lia.
    + by constructor.
    + cbn. pose proof (stk_sp _ _ _ Hst). split_and!; [lia| |].
      * exists b, l'. split; [done|]. replace (sp + 1 - 1) with sp by lia. apply lookup_insert_eq.
      * replace (sp + 1 - 1) with sp by lia. by apply stk_above.
Qed.

Lemma walk_ok (fuel : nat) : walks fuel.
Proof.
  induction fuel as [|fuel IH]; intros a l n m ls st sp fp Hc Hcs Hf Hp Hps Hst Hs Hg; [lia|].
  destruct (place_here a l Hp) as [x He]. pose proof He as [Hx Ia Hn (k & Hu & Hk) Hl]. inversion Hc as [|? x' ? nk nl Hx' Hck Hcl]; subst. assert (x' = x) as -> by congruence.
  assert (a <> 0) as Ha by (eapply shape_nz; [apply (ti_shape _ _ _ _ _ _ Hi)|done]). cbn [fast_interp]. rewrite (proj2 (Z.eqb_neq _ _) Ha).
  apply wp_bind. eapply read_trie; [done|by apply get_atom_run|]. apply wp_bind. eapply read_trie; [done|exact Hn|].
  destruct (lab_code a x Hx (proj1 Ia)) as [c Hcode]. apply wp_bind, wp_of_option. exists c. split; [done|].
  pose proof (ao_label _ (ti_atoms _ _ _ _ _ _ Hi) a x Hx Ia) as Hlok. pose proof (ao_wf _ (ti_atoms _ _ _ _ _ _ Hi) a x Hx Ia) as Hwf.
  assert (forall fp, good fp -> wp (go_on fuel (default 0 (head l)) fp sp) st fine) as Hsib.
  { intros fp' Hg'. eapply (go_on_ok fuel l nl m ls); try done. lia. }
  assert (forall fp, good fp -> wp (go_on fuel 0 fp sp) st fine) as Hnone.
  { intros fp' Hg'. eapply (go_on_ok fuel [] 0 m ls); try done; [constructor|lia|by left]. }
  assert (good 0) as Hg0 by by left.
  destruct (is_eq c) eqn:Eeq.
  - assert (eq_test mem c msg nbytes (at_ir x) = true -> place (kids x) /\ good (pid x)) as Hok.
    { intros Ht. destruct (eq_test_holds x c Hcode Eeq Hlok Hwf Ht). by apply (match_below a x k). }
    assert (eq_test mem c msg nbytes (at_ir x) = true -> forall fp, good fp -> wp (go_on fuel (lh_first x) fp sp) st fine) as Hdown.
    { intros Ht fp' Hg'. destruct (Hok Ht). eapply (go_on_ok fuel (kids x) nk m ls); try done. lia. }
    assert (eq_test mem c msg nbytes (at_ir x) = true -> forall fp, good fp ->
      wp (or_push sp (default 0 (head l))) st (fun sp st => wp (go_on fuel (lh_first x) fp sp) st fine)) as Hpush.
    { intros Ht fp' Hg'. destruct (Hok Ht). eapply (go_down_ok fuel (kids x) l nk nl m ls); try done. lia. }
    destruct c; try done; destruct (eq_test _ _ _ _ _) eqn:Et; try apply wp_bind; first [by apply Hsib | by apply Hnone | by apply Hdown | by apply Hpush | idtac].
    all: destruct (Hok eq_refl) as [Hk1 Hk2]; first [by apply Hdown | by apply Hpush | by split].
  - unfold label_ok in Hlok. rewrite Hcode in Hlok.
    assert (forall (cont : option Z -> M interp Z), wp (cont None) st fine ->
      (forall b y, atoms s0 !! b = Some y -> b ∈ kids x -> place (kids y) -> good (pid y) -> wp (cont (Some b)) st fine) ->
      at_ht x <> 0 -> wp (r <- deq_find mem msg nbytes x ;; cont r) st fine) as Hdeq.
    { intros cont Hno Hyes Hh. apply wp_bind. unfold deq_find. destruct (load_lhs _ _ _ _) as [lhs|] eqn:El; [|done].
      destruct (here_entry a l x lhs He Hh El) as (t & o & c' & Ht & Hlk & Ho). apply wp_bind. eapply read_trie; [done|done|].
      apply wp_bind. eapply read_trie; [done|done|]. apply wp_ret. cbn [fst]. destruct o as [b|]; [|done]. destruct (Ho b eq_refl) as (y & ? & ? & ? & ?). by eapply Hyes. }
    destruct c; try done; apply Hdeq; try done.
    + destruct (negb _); [by apply Hsib|done].
    + intros b y Hy Hb Hpy Hgy. apply wp_bind. eapply read_trie; [done|by apply get_atom_run|]. done.
    + by apply Hsib.
    + intros b y Hy Hb Hpy Hgy. apply wp_bind. eapply read_trie; [done|by apply get_atom_run|]. apply wp_bind.
      destruct (cost_mem _ _ _ _ _ Hck Hb Hy) as (j & Hj & Hcj). eapply (go_down_ok fuel (kids y) l j nl m ls); try done. lia.
    + by apply Hnone.
    + intros b y Hy Hb Hpy Hgy. apply wp_bind. eapply read_trie; [done|by apply get_atom_run|].
      destruct (cost_mem _ _ _ _ _ Hck Hb Hy) as (j & Hj & Hcj). eapply (go_on_ok fuel (kids y) j m ls); try done. lia.
Qed.

Lemma interp_ok st : in_dpf st = s0 -> exists fuel, wp (dpf_interp mem fuel msg nbytes) st fine.
Proof.
  intros Hs. destruct (sh_base _ _ (ti_shape _ _ _ _ _ _ Hi)) as (xb & Hb & _). assert (up (atoms s0) dpf_base dpf_base []) as Hu by constructor.
  destruct (cost_exists (atoms s0) (S (size (atoms s0))) (ti_shape _ _ _ _ _ _ Hi) dpf_base xb [] Hb Hu) as [n Hn]; [cbn; lia|].
  exists (S n). unfold dpf_interp. apply wp_bind, wp_modify, wp_bind. eapply read_trie; [done|by apply get_atom_run|].
  destruct (kids xb) as [|a l] eqn:Ek.
  - unfold lh_first. rewrite Ek. cbn. split; [by left|done].
  - unfold lh_first. rewrite Ek. change (default 0 (head (a :: l))) with a. eapply (walk_ok (S n) a l n 0%nat []); try done.
    + constructor.
    + lia.
    + right. exists dpf_base, xb, [], []. done.
    + by left.
Qed.
End match_.

(** On every trie that the invariant describes. *)
Lemma interp_sound F s mem msg nbytes st :
  dpf_ok F s -> labelled s = true -> (forall a, 0 <= mem a < 256) -> in_dpf st = s ->
  exists fuel r st', dpf_interp mem fuel msg nbytes st = Ret r st' /\ in_dpf st' = s /\
    (r = 0 \/ exists f, F !! r = Some f /\ is_Some (dpf_active s !! r) /\ Forall (holds mem msg nbytes) f).
Proof.
  intros [(G & Hi & Hact) _ _ Hd] Hl Hm Hs. destruct (interp_ok F G s mem msg nbytes Hi Hl Hm st Hs) as [fuel H].
  apply wp_returns in H as (r & st' & Hr & [Hg Hs']). exists fuel, r, st'. split_and!; [done|done|]. destruct Hg as [->|(l & Hl' & Hk)]; [by left|]. right.
  destruct (ti_keys _ _ _ _ _ _ Hi r l Hl') as (f & Hf & E). exists f. split_and!; [done|apply Hd; eauto|]. rewrite E in Hk. rewrite Forall_fmap in Hk. eapply Forall_impl; [exact Hk|]. done.
Qed.
