(* ===== verification/DpfRun.v ===== *)
(** * Filters from insertion to the message

    The theorems on the tries that insertions and deletions reach, and what the
    code does where they say nothing: tables that mix filters that end at them
    with filters that go on, shifts below other filters, tables that fill up. *)

From Stdlib Require Import ZArith Lia.
From stdpp Require Import base numbers option list gmap.
From S2P Require Import Prelude Dpf DpfTrie DpfOpt DpfInsert DpfDelete DpfInterp.

Implicit Types (F : gmap Z (list ir)) (s : dpf).

(** Filters one after the other, with the results of their insertion. *)
Fixpoint inserts (ls : list (list ir)) : M dpf (list Z) :=
  match ls with
  | [] => mreturn []
  | l :: ls' => r <- dpf_insert l ;; rs <- inserts ls' ;; mreturn (r :: rs)
  end.
Fixpoint inserted F (ls : list (list ir)) (rs : list Z) : gmap Z (list ir) :=
  match ls, rs with
  | l :: ls', r :: rs' => inserted (if r <? 0 then F else <[r := dpf_coalesce l]> F) ls' rs'
  | _, _ => F
  end.

Lemma reach_inserts ls : forall F s rs s', reach F s -> Forall (Forall wf_eq) ls -> inserts ls s = Ret rs s' -> reach (inserted F ls rs) s'.
Proof.
  induction ls as [|l ls IH]; intros F s rs s' Hr Hl; cbn.
  - intros [= <- <-]. done.
  - apply Forall_cons in Hl as [Hl Hls]. unfold mbind_. destruct (dpf_insert l s) as [r s1|] eqn:E1; [|done].
    destruct (inserts ls s1) as [rs' s2|] eqn:E2; [|done]. intros [= <- <-]. eapply IH; [|done|exact E2]. by eapply reach_insert.
Qed.

(** C16: after any insertions and deletions of filters of comparisons, all of which
    return, the trie is sound: every atom lies on the way of an active filter and
    counts the filters that need it, a filter's way spells its comparisons, as
    [dpf_coalesce] joins them, the ids are those of the ends, tables have all the
    children of their node, and the ids that are free, in use and not yet given
    out are disjoint.  (A table that grows stops the model where the code writes
    the table it has freed.) *)
Theorem dpf_reach_ok F s : reach F s -> dpf_ok F s.
Proof. apply reach_ok. Qed.

(** C9: [dpf_iptr] on any trie that insertions and deletions of comparisons reach,
    all of which return: when every atom has its label, the walk over any message
    ends, leaves the trie alone, and an id it returns is that of an active filter
    all of whose comparisons, as [dpf_coalesce] joins them, hold of the message. *)
Theorem dpf_interp_sound F s mem msg nbytes st :
  reach F s -> labelled s = true -> (forall a, 0 <= mem a < 256) -> in_dpf st = s ->
  exists fuel r st', dpf_interp mem fuel msg nbytes st = Ret r st' /\ in_dpf st' = s /\
    (r = 0 \/ exists f, F !! r = Some f /\ is_Some (dpf_active s !! r) /\ Forall (holds mem msg nbytes) f).
Proof. intros Hr. by apply interp_sound, reach_ok. Qed.

(** A call of [dpf_insert] with a filter of well-formed comparisons (no shifts,
    actions or state comparisons), if it returns: when the filter is accepted, it
    gets an id that no filter has, and its coalesced comparisons are added; when
    it is refused, for its length, for want of an id or because a filter with the
    same comparisons is there, the filters are as they were.  (The call stops in
    the model where a table grows: the code then writes the table it has freed,
    see [table_growth_writes_freed_table].) *)
Theorem dpf_insert_ok F s l r s' : reach F s -> Forall wf_eq l -> dpf_insert l s = Ret r s' ->
  0 < r < DPF_MAXFILT /\ dpf_active s !! r = None /\ is_Some (dpf_active s' !! r) /\ dpf_ok (<[r := dpf_coalesce l]> F) s' \/ r < 0 /\ dpf_ok F s'.
Proof.
  intros Hr Hl Hi. pose proof (reach_ok F s Hr) as Hok. destruct (wlp_run _ _ _ _ _ (dpf_insert_spec F s l Hok Hl) Hi) as [(H1 & H2 & H3)|H]; [left|by right].
  assert (is_Some (dpf_active s' !! r)) as H4. { apply (do_dom _ _ H3). rewrite lookup_insert_eq. eauto. }
  destruct (pk_act _ (do_pids _ _ H3) r H4) as [_ H5]. destruct (pk_high _ (do_pids _ _ H3)) as [_ H6]. split_and!; [lia|lia| |done|done].
  destruct (dpf_active s !! r) eqn:E; [|done]. assert (is_Some (F !! r)) as [? ?] by (apply (do_dom _ _ Hok); eauto). congruence.
Qed.

(** ** Example runs *)

Definition e8 (o v : Z) : ir := mkIr 0 0 0 DPF_OP_EQ o 8 0xff v 0 0 0 0.
Definition e16 (o v : Z) : ir := mkIr 0 0 0 DPF_OP_EQ o 16 0xffff v 0 0 0 0.
Definition sh8 (o n : Z) : ir := mkIr 0 0 0 DPF_OP_SHIFT o 8 0xff 0 n 0 0 0.
Definition packet (l : list Z) (a : Z) : Z := if a <? 0 then 0 else default 0 (l !! Z.to_nat a) mod 256.
Definition classify (fs : list (list ir)) (m : list Z) : option (list Z * option Z) :=
  match inserts fs dpf_init with
  | Ret rs s => Some (rs, ret_val (dpf_interp (packet m) 100 0 (Z.of_nat (length m)) (mkIn s ∅ 0 0)))
  | Panic => None
  end.

(** Three filters, two of them in a table below the first comparison. *)
Definition three : list (list ir) := [[e8 0 1; e8 2 3]; [e8 0 1; e8 2 4]; [e8 0 2; e8 5 6]].

Example three_runs : classify three [1; 2; 4] = Some ([1; 2; 3], Some 2) /\ classify three [1; 2; 3; 9] = Some ([1; 2; 3], Some 1) /\
  classify three [2; 0; 0; 0; 0; 6] = Some ([1; 2; 3], Some 3) /\ classify three [3; 2; 4] = Some ([1; 2; 3], Some 0).
Proof. vm_compute. done. Qed.

Definition three_trie : dpf := default dpf_init (ret_state (inserts three dpf_init)).

Lemma three_wf : Forall (Forall wf_eq) three.
Proof. repeat constructor; cbn; lia. Qed.
Lemma three_reach : reach (inserted ∅ three [1; 2; 3]) three_trie.
Proof.
  apply (reach_inserts three ∅ dpf_init); [constructor|apply three_wf|]. unfold three_trie.
  assert (ret_val (inserts three dpf_init) = Some [1; 2; 3]) as E by by vm_compute.
  destruct (inserts three dpf_init) as [rs s|]; cbn in *; congruence.
Qed.
Lemma packet_byte l a : 0 <= packet l a < 256.
Proof. unfold packet. case_match; [lia|]. apply Z.mod_pos_bound. lia. Qed.

Lemma dpf_reach_ok_witness : dpf_ok (inserted ∅ three [1; 2; 3]) three_trie.
Proof. apply (dpf_reach_ok _ _ three_reach). Defined.

Lemma dpf_interp_sound_witness : exists fuel r st', dpf_interp (packet [1; 2; 4]) fuel 0 3 (mkIn three_trie ∅ 0 0) = Ret r st' /\ in_dpf st' = three_trie /\
  (r = 0 \/ exists f, inserted ∅ three [1; 2; 3] !! r = Some f /\ is_Some (dpf_active three_trie !! r) /\ Forall (holds (packet [1; 2; 4]) 0 3) f).
Proof.
  apply (dpf_interp_sound (inserted ∅ three [1; 2; 3]) three_trie (packet [1; 2; 4]) 0 3 (mkIn three_trie ∅ 0 0)).
  - exact three_reach.
  - vm_compute. reflexivity.
  - apply packet_byte.
  - reflexivity.
Defined.

Definition four : list ir := [e8 0 2; e8 5 7].
Definition four_trie : dpf := default dpf_init (ret_state (dpf_insert four three_trie)).
Lemma four_run : dpf_insert four three_trie = Ret 4 four_trie.
Proof.
  unfold four_trie. assert (ret_val (dpf_insert four three_trie) = Some 4) as E by by vm_compute.
  destruct (dpf_insert four three_trie) as [r s|]; cbn in *; congruence.
Qed.
Lemma four_wf : Forall wf_eq four.
Proof. repeat constructor; cbn; lia. Qed.

Lemma dpf_insert_ok_witness :
  0 < 4 < DPF_MAXFILT /\ dpf_active three_trie !! 4 = None /\ is_Some (dpf_active four_trie !! 4) /\
    dpf_ok (<[4 := dpf_coalesce four]> (inserted ∅ three [1; 2; 3])) four_trie \/ 4 < 0 /\ dpf_ok (inserted ∅ three [1; 2; 3]) four_trie.
Proof. apply (dpf_insert_ok _ _ four 4 four_trie three_reach four_wf four_run). Defined.

Definition two_trie : dpf := default dpf_init (ret_state (dpf_delete 2 three_trie)).
Lemma two_run : dpf_delete 2 three_trie = Ret 2 two_trie.
Proof.
  unfold two_trie. assert (ret_val (dpf_delete 2 three_trie) = Some 2) as E by by vm_compute.
  destruct (dpf_delete 2 three_trie) as [r s|]; cbn in *; congruence.
Qed.
Lemma dpf_delete_ok_witness :
  is_Some (dpf_active three_trie !! 2) /\ 2 = 2 /\ dpf_active two_trie !! 2 = None /\ 2 ∈ free_pids two_trie /\ dpf_ok (delete 2 (inserted ∅ three [1; 2; 3])) two_trie \/
  dpf_active three_trie !! 2 = None /\ 2 = DPF_BOGUSID /\ two_trie = three_trie.
Proof. apply (dpf_delete_ok _ _ 2 2 two_trie three_reach two_run). Defined.

(** ** Where the code goes wrong *)

(** A table with a filter that ends at it and one that goes on: the label of the
    node never keeps the id of an entry, and the filter [m[0] = 1] is lost. *)
Example mixed_table_loses_filter :
  classify [[e8 0 1]; [e8 0 2; e8 2 5]] [1; 2; 4] = Some ([1; 2], Some 0) /\
  bool_decide (Forall (holds (packet [1; 2; 4]) 0 3) [e8 0 1]) = true.
Proof. vm_compute. done. Qed.

(** The values 1 and 43 collide: the state of the table is then the one that
    asks for no new label, the node never gets its first one, and the walk jumps
    through a null pointer. *)
Example mixed_collision_has_no_label :
  classify [[e8 0 1]; [e8 0 43; e8 2 5]] [1; 2; 4] = Some ([1; 2], None).
Proof. vm_compute. done. Qed.

(** A shift calls the walk again with the stack of the caller: alternatives of
    the outer filters are tried on the shifted message.  Filter 2 wants
    [m[2] = 1], and claims a message where [m[2]] is 3. *)
Example shift_pops_outer_alternatives :
  classify [[e16 1 775; sh8 0 0; e8 0 9]; [e8 2 1]] [2; 7; 3; 0; 1] = Some ([1; 2], Some 2).
Proof. vm_compute. done. Qed.

(** A filter that ends at an entry that other filters pass through is not counted
    as ending there when it is deleted: the count of the table goes below zero
    and the check stops the kernel. *)
Example delete_prefix_panics :
  (ret_state (inserts [[e8 0 1]; [e8 0 1; e8 2 5]; [e8 0 2; e8 2 6]] dpf_init) ≫= fun s => ret_val (dpf_delete 1 s)) = None /\
  is_Some (ret_state (inserts [[e8 0 1]; [e8 0 1; e8 2 5]; [e8 0 2; e8 2 6]] dpf_init)).
Proof. vm_compute. eauto. Qed.

(** 43 filters on one byte, the last of which collides: the table grows and the
    freed one is written. *)
Example table_growth_writes_freed_table :
  inserts ((fun v => [e8 0 v]) <$> seqZ 1 43) dpf_init = Panic.
Proof. vm_compute. done. Qed.

(** A filter that is refused keeps its id. *)
Example refused_filter_keeps_id :
  (fun s => (highwater s, free_pids s)) <$> ret_state (inserts [[]; []; [e8 0 1]] dpf_init) = Some (4, []) /\
  ret_val (inserts [[]; []; [e8 0 1]] dpf_init) = Some [DPF_NILFILTER; DPF_NILFILTER; 3].
Proof. vm_compute. done. Qed.
